(* ===== verification/_CoqProject ===== *)
-Q . S2P
Prelude.v
Doubles.v
Qt.v
DesktopGrid.v
VirtualDesktops.v
VirtualDesktopsFacts.v
VirtualDesktopsProps.v
Toplevel.v
FocusChain.v
FocusChainProps.v
Transient.v
Stacking.v
StackingFacts.v
StackingProps.v
Bytes.v
GLPlatform.v
GLPlatformProps.v
Rules.v
RuleBook.v
RulesProps.v
RuleBookProps.v
Gestures.v
WorkArea.v
WorkAreaProps.v
Geometry.v
GeometryProps.v
Placement.v
PlacementProps.v
Maximize.v
MaximizeProps.v
ScreenEdges.v
EdgeManager.v
ScreenEdgesFacts.v
ScreenEdgesProps.v
EdgeTriggerProps.v
Snapping.v
SnappingProps.v
MoveResize.v
MoveResizeProps.v
Popup.v
PopupProps.v
Policies.v
PoliciesProps.v
Edid.v
EdidProps.v
KeyboardLayout.v
KeyboardLayoutProps.v
WindowDesktops.v
WindowDesktopsProps.v
Activation.v
ActivationProps.v
NightColor.v
NightColorProps.v
TabBox.v
TabBoxProps.v
Compositor.v
CompositorProps.v
WaylandRender.v
WaylandRenderProps.v
