(* ===== verification/Prelude.v ===== *)
(** * KWinFT: a verification library of the window manager's core logic

    KWinFT (src/) is a window manager and compositor for X11 and Wayland. This
    library translates the parts of it that decide something -- where windows go,
    how they are stacked, which one is active, on which desktops they are, what the
    rules, edges, layouts and shortcuts do -- into functions on explicit states and
    proves what makes them correct.

    ** Conventions

    An object that the program shares by pointer is a number, and a heap (a
    function or a finite map) gives its members; records have the members of the
    class under their names. An operation takes the state and returns the new one.
    Where the code can fail an assertion, dereference a null pointer or read out of
    range the operation returns an [option] and [None] is that failure; most files
    say in their first comment which failures they distinguish. Calls that leave
    the modelled part (signals, requests to the X server, effects) are recorded in
    order in a list where their order or number matters and are otherwise left out.
    [int] and [unsigned int] wrap around ([i32], [u32]) where the code comes near
    their bounds; coordinates of windows are integers without overflow. [double]
    is exact rational arithmetic in [Gestures] and IEEE 754 arithmetic, by the
    standard library's specification, in [NightColor] ([Doubles] has the rules
    that carry bounds through it). Time is an argument of the operations that read
    the clock. Code from outside of the repository (Qt, KConfig, NETWM,
    libxkbcommon, drivers) is a parameter, with classes such as [KConfigGroup],
    [NETRootInfo] and [XkbLib] for the laws its documentation promises, and
    concrete instances in the witnesses.

    Each theorem with hypotheses is followed (at the end of its file) by a lemma
    that applies it to a concrete state.

    ** Files

    Shared: [Prelude] (record update, machine integers, lists, options),
    [Doubles], [Qt] (points, sizes, rectangles), [Bytes] (strings and the regular
    expressions that occur).

    Desktops. [DesktopGrid] and [VirtualDesktops] are src/virtualdesktops.cpp: the
    grid and the manager with navigation, creation, removal, layout, saving and
    loading; [VirtualDesktopsFacts] has the invariant and the lemmas,
    [VirtualDesktopsProps] the theorems: the layout computation ends and places
    every desktop, creation and removal are list operations that keep the
    invariant, and the saved configuration is read back. [WindowDesktops] is which
    desktops a window is on (src/win/screen.h); a window moves with its family, and
    the mutual recursion of the code ends.

    Windows. [Toplevel] is the window object with its predicates (src/toplevel.h,
    src/win/net.h, meta.h, controlling.h, screen.h, types.h) and the heap of
    windows that the components below share. [Transient] has the leads and
    children (src/win/transient.cpp).

    Stacking. [Stacking] is src/layers.cpp and src/win/stacking.h: the
    unconstrained order, layers, the constrained order and the blocking of updates.
    [StackingFacts] describes the constrained order of a forest of transients;
    [StackingProps]: it is a permutation of the unconstrained one, children are
    above their leads, raising raises.

    Focus. [FocusChain] (src/focuschain.cpp) refines a table of chains; [Activation]
    (src/activation.cpp, src/win/space.h, src/win/x11/event.h) has the active window,
    the windows that were given the focus, demanding attention and focus stealing
    prevention. [ActivationProps]: over every order of focus events there is one
    active window; windows given the focus get it; stealing prevention is monotone
    in its levels. [TabBox] (src/tabbox) is the window and desktop switcher: its
    lists, walking, grabs, timer and keys. [TabBoxProps]: the list of windows is the
    focus chain from the active window on, walking is a cycle, the grabs are
    consistent whatever happens; the loop over the desktops and the counting of
    references fail in states that are described and reached.

    Geometry. [Geometry] (src/win/geo.h, src/win/wayland) is the protocol between
    the program and a Wayland client about the size of its window: requests are
    blocked, sent, acknowledged and answered, and the last one is reached.
    [Maximize], [Placement], [Policies], [Popup], [Snapping] and [MoveResize] build
    on it: maximizing, tiling and fullscreen with the way back, the placement
    policies and the search of the smart one, popups, snapping, and interactive
    moving and resizing, whose pixel by pixel loops end. [WorkArea] has the screens
    and the areas that panels leave (src/screens.cpp, src/workspace.cpp).

    Rules. [Rules] and [RuleBook] (src/rules): settings, matching, applying,
    remembering, discarding, expiry and storage of window rules, over a heap of
    rules that windows and the book share.

    Edges and gestures. [ScreenEdges] and [EdgeManager] (src/screenedge.cpp) count
    the reservations of every edge and trigger it by pointer and touch;
    [Gestures] (src/gestures.cpp) recognises swipes.

    Rendering. [Compositor] (src/composite.cpp) has the states of the compositor and
    the frames of X11 sessions, [WaylandRender] (src/render/wayland/output.cpp,
    src/presentation.cpp) the outputs of Wayland sessions and the feedback to their
    clients. [CompositorProps] and [WaylandRenderProps]: the compositor is on exactly
    with all it needs, a region that is to be repainted is painted, a window is
    presented on one output; two miscalculations of times and one list that is never
    filled are stated as what follows from them.

    Devices. [GLPlatform] (src/libkwineffects/kwinglplatform.cpp) classifies
    drivers and chips; [Edid] parses the identification of displays; [KeyboardLayout]
    (src/keyboard_layout_switching.cpp and others) keeps layouts per desktop, window
    or application; [NightColor] (src/colorcorrection) schedules the colour
    temperature of the screens.

    The file [XProps] has the properties of [X].

    ** How the parts interact

    [Stacking], [FocusChain], [WindowDesktops] and [Activation] share the heap of
    [Toplevel] and the record [Stacking.Space] for the members of Workspace:
    activation updates the focus chain and asks for a new stacking order, a change of
    desktops updates the focus chain and records its signals as [Stacking.Event]s,
    stacking reads the active window and the windows that were given the focus for
    the layers of fullscreen windows. [MoveResize] drives [Geometry], [Snapping],
    [Maximize] (tiling at the borders) and the reservations of [EdgeManager].
    [Policies] calls [Placement] and the areas of [WorkArea]. [RuleBook] calls
    [Rules]. [KeyboardLayout] reads the current desktop and the active window.
    [TabBox] reads the focus chain, the stacking order, modal dialogs
    ([Activation.findModal]) and the windows' predicates, and keeps its own chains of
    desktops; what it asks of the workspace is a list of requests. [Compositor] and
    [WaylandRender] are given what the windows and the scene answer in each event and
    share [Pace], the delay of the next frame.

    ** Bounds of recursion

    Recursion that is not structural takes a bound and returns [None] when it is
    used up. The theorems state which bound is enough: the number of desktops for
    the layout, the number of windows of a family for [set_desktops] (its square
    when windows are on all desktops), the number of windows for chains of leads, 3
    for the nested calls of [set_active], 3 for the fallbacks of the placement
    policies, the distance to the area for the pixel loops of [MoveResize], the
    number of candidate positions for the smart placement, one more than the length
    of the focus chain for the list of the switcher, and 9 for the search of the mode
    of a key.

    ** Not modelled

    Code whose effect lies in another process or in a library: the X11 and Wayland
    window classes beyond what the components above need, event dispatch and input
    redirection, scenes and their backends, the platform plugins
    (but for the identification of displays), Xwayland selections, D-Bus objects,
    scripting, decorations, configuration modules, the effects and the OpenGL
    helpers of libkwineffects (floating point geometry and shaders), the views of
    the window switcher, menus and dialogs. The note of each component in the manifest says
    what of it is left out. Rounding of coordinates to device pixels, threads and
    the timing of the event loop are not modelled; timers fire as events. *)

From stdpp Require Export base tactics list gmap strings pretty.
From Stdlib Require Export ZArith Lia.

#[global] Open Scope Z_scope.

(** ** Notations of the development *)

Declare Scope kwin_scope.
Delimit Scope kwin_scope with kwin.

(** Shared proof automation: [kwin] collects the lemmas that close the
    routine goals about the list operations below; [kwin_simp] the equations
    that normalise them. *)
Create HintDb kwin discriminated.
#[export] Hint Constants Opaque : kwin.
#[export] Hint Variables Opaque : kwin.
Create Rewrite HintDb kwin_simp.

(** ** Record update

    [r <| f := v |>] is [r] with field [f] replaced by [v]. A record type takes
    part by giving its eta expansion as an instance of [RecordEta]; the update
    of each field is then derived, and [cbn] computes with it. *)

Class RecordEta (R : Type) := record_eta : R -> R.
Class Update {R E : Type} (g : R -> E) := update : E -> R -> R.
Arguments update {R E} g {_} v r /.

Ltac derive_update R g :=
  exact (fun v (x : R) => ltac:(
    let b := eval cbv beta delta [record_eta] in (@record_eta R _ x) in
    let b := eval hnf in b in
    lazymatch b with
    | context C [g x] => let t := context C [v] in exact t
    end)).

#[global] Hint Extern 1 (@Update ?R _ ?g) => derive_update R g : typeclass_instances.

Notation "r <| f := v |>" := (update f v r)
  (at level 1, left associativity, f at next level, v at level 200,
   format "r <| f  :=  v |>") : stdpp_scope.

(** ** Machine integers

    C++ [unsigned int] arithmetic wraps modulo 2^32; a conversion of an
    [unsigned int] to [int] (and back) is the usual two's complement one. *)

Definition u32 (z : Z) : Z := z mod 2 ^ 32.
Definition i32 (z : Z) : Z := (z + 2 ^ 31) mod 2 ^ 32 - 2 ^ 31.

Definition INT_MAX : Z := 2 ^ 31 - 1.

Lemma u32_small z : 0 <= z < 2 ^ 32 -> u32 z = z.
Proof. intros ?. unfold u32. by apply Z.mod_small. Qed.

Lemma u32_range z : 0 <= u32 z < 2 ^ 32.
Proof. unfold u32. apply Z.mod_pos_bound. lia. Qed.

Lemma i32_small z : - 2 ^ 31 <= z < 2 ^ 31 -> i32 z = z.
Proof. intros ?. unfold i32. rewrite Z.mod_small; lia. Qed.

Lemma u32_i32 z : u32 (i32 z) = u32 z.
Proof.
  unfold u32, i32. rewrite Zminus_mod_idemp_l. f_equal. lia.
Qed.

(** A number below [2 ^ n] put under the bits from [n] on. *)
Lemma lor_low x y n : 0 <= n -> 0 <= y < 2 ^ n -> Z.lor (x * 2 ^ n) y = x * 2 ^ n + y.
Proof.
  intros Hn Hy. rewrite <- Z.lxor_lor, <- Z.add_nocarry_lxor; [done| |];
    rewrite <- Z.shiftl_mul_pow2 by done; apply Z.bits_inj'; intros i Hi;
    rewrite Z.land_spec, Z.bits_0, Z.shiftl_spec by done;
    destruct (Z.lt_ge_cases i n).
  1, 3: by rewrite (Z.testbit_neg_r x) by lia.
  all: rewrite andb_comm; destruct (decide (y = 0)) as [->|]; [by rewrite Z.bits_0|];
    rewrite (Z.bits_above_log2 y) by
      (try lia; assert (Z.log2 y < n) by (apply Z.log2_lt_pow2; lia); lia); done.
Qed.

(** Qt's [qBound(min, val, max)], documented as [qMax(min, qMin(val, max))]. *)
Definition qBound (lo v hi : Z) : Z := Z.max lo (Z.min hi v).

Lemma qBound_range lo v hi : lo <= hi -> lo <= qBound lo v hi <= hi.
Proof. unfold qBound. lia. Qed.

Lemma qBound_id lo v hi : lo <= v <= hi -> qBound lo v hi = v.
Proof. unfold qBound. lia. Qed.

(** C++ integer division truncates toward zero. *)
Definition cdiv (a b : Z) : Z := Z.quot a b.

Lemma cdiv_nonneg a b : 0 <= a -> 0 < b -> cdiv a b = a / b.
Proof. intros. unfold cdiv. by rewrite Z.quot_div_nonneg by lia. Qed.

(** ** Lists: the container operations of the program

    [remove_all] is [QList::removeAll] and the [remove_all] helper of
    src/utils.h; [insert_at] is insertion before an index; [index_of] the
    first position of an element. *)

Section lists.
Context {A : Type} `{EqDecision A}.
Implicit Types (l : list A) (x y : A).

Definition remove_all x l : list A := filter (fun y => y <> x) l.

Definition insert_at (i : nat) x l : list A := take i l ++ x :: drop i l.

Definition index_of x l : option nat := fst <$> list_find (fun y => y = x) l.

Definition contains l x : bool := bool_decide (x ∈ l).

Lemma elem_of_remove_all x y l : y ∈ remove_all x l <-> y ∈ l /\ y <> x.
Proof. unfold remove_all. rewrite list_elem_of_filter. naive_solver. Qed.

Lemma not_elem_of_remove_all x l : x ∉ remove_all x l.
Proof. rewrite elem_of_remove_all. naive_solver. Qed.

Lemma NoDup_remove_all x l : NoDup l -> NoDup (remove_all x l).
Proof. apply NoDup_filter. Qed.

Lemma remove_all_id x l : x ∉ l -> remove_all x l = l.
Proof.
  unfold remove_all. induction l as [|y l IH]; [done|].
  rewrite not_elem_of_cons. intros [? ?].
  rewrite filter_cons_True by congruence. by rewrite IH.
Qed.

Lemma remove_all_app x l1 l2 :
  remove_all x (l1 ++ l2) = remove_all x l1 ++ remove_all x l2.
Proof. apply filter_app. Qed.

Lemma remove_all_cons_eq x l : remove_all x (x :: l) = remove_all x l.
Proof. unfold remove_all. apply filter_cons_False. auto. Qed.

Lemma remove_all_cons_ne x y l :
  y <> x -> remove_all x (y :: l) = y :: remove_all x l.
Proof. intros. unfold remove_all. by apply filter_cons_True. Qed.

Lemma remove_all_Permutation x l :
  NoDup l -> x ∈ l -> l ≡ₚ x :: remove_all x l.
Proof.
  induction l as [|y l IH]; [by rewrite elem_of_nil|].
  rewrite NoDup_cons, elem_of_cons. intros [Hy Hl] Hx.
  destruct (decide (y = x)) as [->|Hne].
  - by rewrite remove_all_cons_eq, remove_all_id.
  - destruct Hx as [->|Hx]; [done|].
    rewrite remove_all_cons_ne by done. rewrite (IH Hl Hx) at 1. constructor.
Qed.

Lemma remove_all_comm x y l :
  remove_all x (remove_all y l) = remove_all y (remove_all x l).
Proof. unfold remove_all. rewrite !list_filter_filter.
  apply list_filter_iff. naive_solver. Qed.

Lemma insert_at_Permutation i x l : insert_at i x l ≡ₚ x :: l.
Proof.
  unfold insert_at. rewrite <- Permutation_middle.
  by rewrite take_drop.
Qed.

Lemma elem_of_insert_at i x y l : y ∈ insert_at i x l <-> y = x \/ y ∈ l.
Proof. by rewrite insert_at_Permutation, elem_of_cons. Qed.

Lemma NoDup_insert_at i x l : x ∉ l -> NoDup l -> NoDup (insert_at i x l).
Proof. rewrite insert_at_Permutation. by constructor. Qed.

Lemma length_insert_at i x l : length (insert_at i x l) = S (length l).
Proof. by rewrite insert_at_Permutation. Qed.

Lemma remove_all_insert_at i x l :
  x ∉ l -> remove_all x (insert_at i x l) = l.
Proof.
  intros Hx. unfold insert_at.
  rewrite remove_all_app, remove_all_cons_eq.
  rewrite <- (take_drop i l) in Hx at 1. rewrite elem_of_app in Hx.
  rewrite !remove_all_id by naive_solver. apply take_drop.
Qed.

Lemma contains_true l x : contains l x = true <-> x ∈ l.
Proof. unfold contains. by rewrite bool_decide_eq_true. Qed.

Lemma contains_false l x : contains l x = false <-> x ∉ l.
Proof. unfold contains. by rewrite bool_decide_eq_false. Qed.

Lemma index_of_Some x l i :
  index_of x l = Some i <-> l !! i = Some x /\ x ∉ take i l.
Proof.
  unfold index_of. rewrite fmap_Some. split.
  - intros [[j y] [Hf ->]]; simpl. apply list_find_Some in Hf as (? & -> & Hall).
    split; [done|]. intros Hin. apply list_elem_of_lookup in Hin as [k Hk].
    apply lookup_take_Some in Hk as [? ?]. by eapply Hall.
  - intros [Hl Hn]. exists (i, x). split; [|done].
    apply list_find_Some. split_and!; [done..|].
    intros j y Hj Hlt ->. apply Hn. apply list_elem_of_lookup. exists j.
    by rewrite lookup_take_lt.
Qed.

Lemma index_of_None x l : index_of x l = None <-> x ∉ l.
Proof.
  unfold index_of. rewrite fmap_None, list_find_None, Forall_forall.
  naive_solver.
Qed.

Lemma index_of_is_Some x l : x ∈ l -> exists i, index_of x l = Some i.
Proof.
  intros Hx. destruct (index_of x l) eqn:E; [eauto|].
  by apply index_of_None in E.
Qed.

Lemma index_of_lookup x l i :
  NoDup l -> l !! i = Some x -> index_of x l = Some i.
Proof.
  intros Hnd Hl. apply index_of_Some. split; [done|].
  intros [j Hj]%list_elem_of_lookup. apply lookup_take_Some in Hj as [Hj ?].
  pose proof (NoDup_lookup _ _ _ _ Hnd Hl Hj). lia.
Qed.
End lists.

#[export] Hint Resolve NoDup_remove_all not_elem_of_remove_all NoDup_insert_at : kwin.
#[export] Hint Rewrite @elem_of_remove_all @elem_of_insert_at @length_insert_at : kwin_simp.

Lemma elem_of_concat {A} (x : A) (ls : list (list A)) :
  x ∈ concat ls <-> exists l, x ∈ l /\ l ∈ ls.
Proof.
  rewrite list_elem_of_In, in_concat. setoid_rewrite list_elem_of_In. naive_solver.
Qed.

Lemma NoDup_concat_map {A B} (f : A -> list B) (l : list A) :
  NoDup l -> (forall x, x ∈ l -> NoDup (f x)) ->
  (forall x y z, x ∈ l -> y ∈ l -> z ∈ f x -> z ∈ f y -> x = y) ->
  NoDup (concat (f <$> l)).
Proof.
  induction l as [|x l IH]; intros Hnd Hf Hdis; [constructor|].
  apply NoDup_cons in Hnd as [Hx Hnd]. cbn. apply NoDup_app. split_and!.
  - apply Hf. by left.
  - intros z Hz (k & Hzk & Hk)%elem_of_concat.
    apply list_elem_of_fmap in Hk as (y & -> & Hy).
    assert (x = y) as ->; [|done]. by apply (Hdis x y z); [left|right|..].
  - apply IH; [done| |]; intros; [apply Hf|eapply Hdis]; try done; by right.
Qed.

Lemma filter_iff_in {A} (P Q : A -> Prop) `{!forall x, Decision (P x), !forall x, Decision (Q x)} (l : list A) :
  (forall x, x ∈ l -> P x <-> Q x) -> filter P l = filter Q l.
Proof.
  induction l as [|x l IH]; intros Hl; [done|].
  assert (filter P l = filter Q l) as Heq by (apply IH; intros y Hy; apply Hl; by right).
  destruct (decide (P x)) as [HP|HP].
  - rewrite !filter_cons_True; [by rewrite Heq| |done]. apply Hl; [by left|done].
  - rewrite !filter_cons_False; [done| |done]. rewrite <- Hl; [done|by left].
Qed.

Lemma filter_all_in {A} (P : A -> Prop) `{!forall x, Decision (P x)} (l : list A) :
  (forall x, x ∈ l -> P x) -> filter P l = l.
Proof.
  induction l as [|x l IH]; intros Hl; [done|].
  rewrite filter_cons_True by (apply Hl; by left). f_equal. apply IH. intros y Hy. apply Hl. by right.
Qed.

(** ** Searching a list from its end

    [scan_down p l n] is the loop [for (int i = n - 1; i >= 0; --i)] that stops at
    the first element satisfying [p]. *)

Section scan.
Context {A : Type}.
Implicit Types (p : A -> bool) (l : list A).

Fixpoint scan_down p l (n : nat) : option nat :=
  match n with
  | O => None
  | S i =>
      match l !! i with
      | Some x => if p x then Some i else scan_down p l i
      | None => scan_down p l i
      end
  end.

Definition find_last_index p l : option nat := scan_down p l (length l).
Definition find_last p l : option A := find_last_index p l ≫= (l !!.).

Lemma scan_down_Some p l n i :
  scan_down p l n = Some i <->
  (i < n)%nat /\ (exists x, l !! i = Some x /\ p x = true) /\
  forall j x, (i < j < n)%nat -> l !! j = Some x -> p x = false.
Proof.
  induction n as [|n IH]; simpl; [split; [done|intros [? _]; lia]|].
  assert ((exists x, l !! n = Some x /\ p x = true) \/
          (forall x, l !! n = Some x -> p x = false)) as [(x & Hx & Hp)|Hn].
  { destruct (l !! n) as [x|]; [|by right]. destruct (p x) eqn:E; [eauto|].
    right. by intros ? [= <-]. }
  - rewrite Hx, Hp. split.
    + intros [= <-]. split; [lia|]. split; [eauto|intros; lia].
    + intros (Hi & _ & Hall). f_equal. destruct (decide (i = n)) as [->|]; [done|].
      rewrite (Hall n x) in Hp by first [lia|done]. done.
  - transitivity (scan_down p l n = Some i).
    { destruct (l !! n) as [x|]; [|done]. by rewrite (Hn x). }
    rewrite IH. split; intros (Hi & Hx & Hall).
    + split_and!; [lia|done|]. intros j y Hj. destruct (decide (j = n)) as [->|]; [auto|].
      apply Hall. lia.
    + assert (i <> n).
      { intros ->. destruct Hx as (x & Hx & Hp). rewrite (Hn x Hx) in Hp. done. }
      split_and!; [lia|done|]. intros j y Hj. apply Hall. lia.
Qed.

Lemma scan_down_None p l n :
  scan_down p l n = None <-> forall j x, (j < n)%nat -> l !! j = Some x -> p x = false.
Proof.
  split.
  - intros Hs j x Hj Hx. destruct (p x) eqn:Hp; [|done]. exfalso.
    revert Hs. induction n as [|n IH]; [lia|]. simpl.
    destruct (decide (j = n)) as [->|]; [by rewrite Hx, Hp|].
    destruct (l !! n); [case_match; [done|]|]; apply IH; lia.
  - intros Hall. destruct (scan_down p l n) as [i|] eqn:E; [|done].
    apply scan_down_Some in E as (Hi & (x & Hx & Hp) & _).
    by rewrite (Hall i x Hi Hx) in Hp.
Qed.

(** The last element of a list that satisfies a test. *)
Lemma find_last_Some p l x :
  find_last p l = Some x <->
  exists l1 l2, l = l1 ++ x :: l2 /\ p x = true /\ Forall (fun y => p y = false) l2.
Proof.
  unfold find_last, find_last_index. rewrite bind_Some. split.
  - intros (i & (Hi & (y & Hy & Hp) & Hall)%scan_down_Some & Hx). simplify_eq.
    exists (take i l), (drop (S i) l). split; [by rewrite take_drop_middle|]. split; [done|].
    apply Forall_lookup. intros j z Hz. rewrite lookup_drop in Hz.
    apply (Hall (S i + j)%nat z); [|done]. apply lookup_lt_Some in Hz. lia.
  - intros (l1 & l2 & -> & Hp & Hall). exists (length l1).
    assert ((l1 ++ x :: l2) !! length l1 = Some x) as Hx by (by apply list_lookup_middle).
    split; [|done]. apply scan_down_Some. rewrite length_app. simpl.
    split; [lia|]. split; [eauto|]. intros j y Hj Hy.
    rewrite lookup_app_r in Hy by lia.
    destruct (j - length l1)%nat as [|k] eqn:Ek; [lia|]. simpl in Hy.
    by eapply Forall_lookup_1 in Hall.
Qed.

Lemma find_last_None p l : find_last p l = None <-> Forall (fun y => p y = false) l.
Proof.
  unfold find_last, find_last_index. rewrite Forall_lookup. split.
  - intros Hb i x Hi. destruct (scan_down p l (length l)) as [k|] eqn:E.
    + apply scan_down_Some in E as (_ & (y & Hy & _) & _). simpl in Hb. congruence.
    + rewrite scan_down_None in E. apply (E i); [by eapply lookup_lt_Some|done].
  - intros Hall. rewrite (proj2 (scan_down_None p l (length l))); [done|]. eauto.
Qed.
End scan.

(** ** Tactics *)

(** Case analysis on every boolean test and option match of the goal. *)
Ltac split_matches :=
  repeat (case_match; simplify_eq/=; try done).

(** Turn boolean tests on [Z] in the context into propositions. *)
Ltac zify_bools :=
  rewrite ?andb_true_iff, ?andb_false_iff, ?orb_true_iff, ?orb_false_iff,
    ?negb_true_iff, ?negb_false_iff,
    ?Z.ltb_lt, ?Z.ltb_ge, ?Z.leb_le, ?Z.leb_gt, ?Z.eqb_eq, ?Z.eqb_neq in *.
