(* ===== verification/Doubles.v ===== *)
(** * Floating point numbers

    The [double] and [float] arithmetic of the program as the functions of the
    standard library that specify the IEEE 754 formats ([SpecFloat]); literals,
    conversions, and the rule that lets bounds pass through an operation: rounding
    respects every bound that is itself a number of the format. *)

From S2P Require Import Prelude.
From Stdlib Require Export SpecFloat.

Module Doubles.
Notation double := spec_float (only parsing).

(** ** Operations of [double] *)

Definition add (x y : double) : double := SFadd 53 1024 x y.
Definition sub (x y : double) : double := SFsub 53 1024 x y.
Definition mul (x y : double) : double := SFmul 53 1024 x y.
Definition div (x y : double) : double := SFdiv 53 1024 x y.
Definition opp (x : double) : double := SFopp x.
Definition abs (x : double) : double := SFabs x.
Definition leb (x y : double) : bool := SFleb x y.
Definition ltb (x y : double) : bool := SFltb x y.
Definition eqb (x y : double) : bool := SFeqb x y.
Definition is_nan (x : double) : bool := match x with S754_nan => true | _ => false end.

(** An integer, and the decimal number [n / d], as literals. *)
Definition of_Z (n : Z) : double := binary_normalize 53 1024 n 0 false.
Definition lit (n d : positive) : double := div (S754_finite false n 0) (S754_finite false d 0).

(** The integer part, as the conversion to an integer type takes it. *)
Definition trunc (x : double) : option Z :=
  match x with
  | S754_zero _ => Some 0
  | S754_finite s m e =>
      let n := if 0 <=? e then Zpos m * 2 ^ e else Zpos m / 2 ^ (- e) in
      Some (if s then - n else n)
  | _ => None
  end.

(** The conversion to [int]. What does not fit is undefined; the value given
    for it here is that of the processors the program runs on. *)
Definition to_int (x : double) : Z :=
  match trunc x with
  | Some n => if (- 2 ^ 31 <=? n) && (n <? 2 ^ 31) then n else - 2 ^ 31
  | None => - 2 ^ 31
  end.
Definition to_int64 (x : double) : Z :=
  match trunc x with
  | Some n => if (- 2 ^ 63 <=? n) && (n <? 2 ^ 63) then n else - 2 ^ 63
  | None => - 2 ^ 63
  end.

(** qRound64. *)
Definition qRound64 (x : double) : Z :=
  if leb (of_Z 0) x then to_int64 (add x (lit 1 2))
  else let n := to_int64 (sub x (of_Z 1)) in
       to_int64 (add (sub x (of_Z n)) (lit 1 2)) + n.

(** ** Operations of [float] *)

Definition addf (x y : spec_float) : spec_float := SFadd 24 128 x y.
Definition mulf (x y : spec_float) : spec_float := SFmul 24 128 x y.
Definition litf (n d : positive) : spec_float := SFdiv 24 128 (S754_finite false n 0) (S754_finite false d 0).
(** A [double] rounded to a [float]; the other direction changes nothing. *)
Definition to_float (x : double) : spec_float :=
  match x with
  | S754_finite s m e => binary_normalize 24 128 (if s then Zneg m else Zpos m) e s
  | _ => x
  end.

(** ** Values and bounds

    Numbers are compared as integers, scaled by [2 ^ 3000]. *)

Definition scaled (m e : Z) : Z := m * 2 ^ (e + 3000).
Definition val (x : double) : Z := match x with S754_finite _ m e => scaled (Zpos m) e | _ => 0 end.
(** A number that is not negative and far from overflowing. *)
Definition positive_number (x : double) : Prop :=
  match x with
  | S754_zero _ => True
  | S754_finite s _ e => s = false /\ -1074 <= e <= 971
  | _ => False
  end.
(** [x] is between [lo] and [hi] in units of [2 ^ -p]. *)
Definition within (p lo hi : Z) (x : double) : Prop :=
  positive_number x /\ scaled lo (- p) <= val x <= scaled hi (- p).

Lemma scaled_pos e : 0 < 2 ^ (e + 3000) \/ e + 3000 < 0.
Proof. destruct (Z.le_gt_cases 0 (e + 3000)); [left; by apply Z.pow_pos_nonneg|right; lia]. Qed.

Lemma scaled_shift m e n : 0 <= n -> -3000 <= e -> scaled m (e + n) = scaled (m * 2 ^ n) e.
Proof. intros. unfold scaled. replace (e + n + 3000) with (n + (e + 3000)) by lia. rewrite Z.pow_add_r by lia. ring. Qed.

(** Shifting a mantissa to the right. *)
Definition shr_exact (r : shr_record) : bool := negb (shr_r r || shr_s r).

Lemma shr_1_spec r : 0 <= shr_m r ->
  shr_m (shr_1 r) = shr_m r / 2 /\ shr_exact (shr_1 r) = shr_exact r && Z.even (shr_m r).
Proof.
  destruct r as [m b s]. unfold shr_exact. simpl. intros Hm.
  destruct m as [|[p|p|]|]; simpl; try lia; split;
    try (by destruct b, s); try done.
  - change (Zpos p = Zpos (xI p) / 2). rewrite (Pos2Z.inj_xI p).
    rewrite Z.mul_comm, Z.div_add_l by lia. change (1 / 2) with 0. lia.
  - change (Zpos p = Zpos (xO p) / 2). rewrite (Pos2Z.inj_xO p). rewrite Z.mul_comm, Z.div_mul by lia. done.
Qed.

Lemma shr_iter_spec n : forall r, 0 <= shr_m r ->
  let r' := iter_pos shr_1 n r in
  shr_m r' = shr_m r / 2 ^ Zpos n /\
  (shr_exact r' = true <-> shr_exact r = true /\ (2 ^ Zpos n | shr_m r)).
Proof.
  assert (forall p q r r1, 0 <= p -> 0 <= q -> 0 <= shr_m r ->
    shr_m r1 = shr_m r / 2 ^ p /\ (shr_exact r1 = true <-> shr_exact r = true /\ (2 ^ p | shr_m r)) ->
    forall r2, shr_m r2 = shr_m r1 / 2 ^ q /\
      (shr_exact r2 = true <-> shr_exact r1 = true /\ (2 ^ q | shr_m r1)) ->
    shr_m r2 = shr_m r / 2 ^ (p + q) /\
      (shr_exact r2 = true <-> shr_exact r = true /\ (2 ^ (p + q) | shr_m r))) as Htrans.
  { intros p q r r1 Hp Hq Hr [H1 E1] r2 [H2 E2].
    assert (0 < 2 ^ p) by (by apply Z.pow_pos_nonneg). assert (0 < 2 ^ q) by (by apply Z.pow_pos_nonneg).
    rewrite Z.pow_add_r by done. split; [by rewrite H2, H1, Z.div_div by lia|].
    rewrite E2, E1, H1. split.
    - intros [[? [c Hc]] [d Hd]]. split; [done|]. exists d. rewrite Hc in *. rewrite Z.div_mul in Hd by lia. nia.
    - intros [? [c Hc]]. split_and!; [done|exists (c * 2 ^ q); lia|].
      exists c. rewrite Hc. replace (c * (2 ^ p * 2 ^ q)) with (c * 2 ^ q * 2 ^ p) by ring. by rewrite Z.div_mul by lia. }
  assert (forall r, 0 <= shr_m r -> shr_m (shr_1 r) = shr_m r / 2 ^ 1 /\
    (shr_exact (shr_1 r) = true <-> shr_exact r = true /\ (2 ^ 1 | shr_m r))) as Hone.
  { intros r Hr. destruct (shr_1_spec r Hr) as [H1 H2]. rewrite H2, andb_true_iff. split; [done|].
    change (2 ^ 1) with 2. rewrite Z.even_spec. unfold Z.Even, Z.divide.
    split; intros [? [c Hc]]; (split; [done|]); exists c; lia. }
  assert (forall a b, 0 <= a -> 0 <= b -> 0 <= a / 2 ^ b) as Hdiv.
  { intros a b Ha Hb. apply Z.div_pos; [done|]. by apply Z.pow_pos_nonneg. }
  induction n as [n IH|n IH|]; intros r Hr; cbn zeta; cbn [iter_pos].
  - pose proof (Hone r Hr) as H1. assert (0 <= shr_m (shr_1 r)) by (rewrite (proj1 H1); by apply Hdiv).
    pose proof (IH (shr_1 r) ltac:(done)) as H2. cbn zeta in H2.
    assert (0 <= shr_m (iter_pos shr_1 n (shr_1 r))) by (rewrite (proj1 H2); by apply Hdiv).
    pose proof (IH _ ltac:(done)) as H3. cbn zeta in H3.
    replace (Zpos (xI n)) with (1 + Zpos n + Zpos n) by lia.
    eapply Htrans; [lia|lia|done| |exact H3]. eapply Htrans; [lia|lia|done|exact H1|exact H2].
  - pose proof (IH r Hr) as H2. cbn zeta in H2.
    assert (0 <= shr_m (iter_pos shr_1 n r)) by (rewrite (proj1 H2); by apply Hdiv).
    pose proof (IH _ ltac:(done)) as H3. cbn zeta in H3.
    replace (Zpos (xO n)) with (Zpos n + Zpos n) by lia.
    eapply Htrans; [lia|lia|done|exact H2|exact H3].
  - by apply Hone.
Qed.

(** ** Rounding *)

Notation digits := Zdigits2.

Lemma digits_spec m : 0 <= m ->
  0 <= digits m /\ m < 2 ^ digits m /\ (0 < m -> 1 <= digits m /\ 2 ^ (digits m - 1) <= m).
Proof.
  destruct m as [|p|p]; [by simpl|intros _|lia]. simpl.
  assert (Zpos p < 2 ^ Zpos (digits2_pos p) /\ 2 ^ (Zpos (digits2_pos p) - 1) <= Zpos p) as [H1 H2].
  { induction p as [p [I1 I2]|p [I1 I2]|]; [| |by split]; simpl digits2_pos;
      rewrite Pos2Z.inj_succ, Z.pow_succ_r by lia;
      replace (Z.succ (Zpos (digits2_pos p)) - 1) with (Z.succ (Zpos (digits2_pos p) - 1)) by lia;
      rewrite Z.pow_succ_r by lia; lia. }
  split_and!; [lia|done|]. intros _. split; [lia|done].
Qed.

Lemma digits_le m n : 0 <= m -> 0 <= n -> m < 2 ^ n -> digits m <= n.
Proof.
  intros Hm Hn H. destruct (digits_spec m Hm) as (_ & _ & Hd).
  destruct (decide (m = 0)) as [->|]; [done|]. destruct Hd as [_ Hd]; [lia|].
  assert (digits m - 1 < n); [|lia]. apply (Z.pow_lt_mono_r_iff 2); lia.
Qed.

Lemma digits_ge m n : 0 <= m -> 0 < n -> 2 ^ (n - 1) <= m -> n <= digits m.
Proof.
  intros Hm Hn H. destruct (digits_spec m Hm) as (_ & Hd & _).
  assert (n - 1 < digits m); [|lia]. apply (Z.pow_lt_mono_r_iff 2); [lia|by apply digits_spec|lia].
Qed.

(** [m], [e] and the location [l] describe the number [v]: [m] is its integer part
    in units of [2 ^ e], and [l] tells whether something was cut off. *)
Definition describes (m e : Z) (exact : bool) (v : Z) : Prop :=
  scaled m e <= v < scaled (m + 1) e /\ (exact = true <-> v = scaled m e).

Definition is_exact (l : location) : bool := match l with loc_Exact => true | _ => false end.

Lemma loc_exact r : is_exact (loc_of_shr_record r) = shr_exact r.
Proof. by destruct r as [m [] []]. Qed.
Lemma shr_of_loc m l : shr_m (shr_record_of_loc m l) = m /\ shr_exact (shr_record_of_loc m l) = is_exact l.
Proof. by destruct l as [|[]]. Qed.

Lemma shr_describes m e n x x' v : 0 <= m -> 0 <= n -> -3000 <= e ->
  (x' = true <-> x = true /\ (2 ^ n | m)) ->
  describes m e x v -> describes (m / 2 ^ n) (e + n) x' v.
Proof.
  intros Hm Hn He Hx [[Hlo Hhi] Hex]. unfold describes. rewrite !scaled_shift by lia. unfold scaled in *.
  assert (0 < 2 ^ n) by (by apply Z.pow_pos_nonneg). assert (0 < 2 ^ (e + 3000)) as HP by (apply Z.pow_pos_nonneg; lia).
  set (P := 2 ^ (e + 3000)) in *. set (N := 2 ^ n) in *.
  pose proof (Z.mul_div_le m N ltac:(lia)) as Hdl. pose proof (Z.mod_pos_bound m N ltac:(lia)) as Hmod.
  pose proof (Z.div_mod m N ltac:(lia)) as Hdm.
  split; [split|].
  - nia.
  - assert (m + 1 <= (m / N + 1) * N) by nia. nia.
  - rewrite Hx, Hex. split.
    + intros [-> [c ->]]. by rewrite Z.div_mul by lia.
    + intros Hv. assert (m = m / N * N) as Hmn by nia. split; [nia|]. by exists (m / N).
Qed.

Lemma shr_fexp_spec m e l v : 0 <= m -> -3000 <= e -> describes m e (is_exact l) v ->
  let '(r, e') := shr_fexp 53 1024 m e l in
  e' = Z.max e (fexp 53 1024 (digits m + e)) /\ shr_m r = m / 2 ^ (e' - e) /\
  describes (shr_m r) e' (shr_exact r) v.
Proof.
  intros Hm He Hv. unfold shr_fexp. set (n := fexp 53 1024 (digits m + e) - e). unfold shr.
  destruct (shr_of_loc m l) as [Hsm Hsx].
  assert (n <= 0 -> e = Z.max e (fexp 53 1024 (digits m + e)) /\
    shr_m (shr_record_of_loc m l) = m / 2 ^ (e - e) /\
    describes (shr_m (shr_record_of_loc m l)) e (shr_exact (shr_record_of_loc m l)) v) as Hno.
  { intros Hn. rewrite Hsm, Hsx, Z.sub_diag, Z.div_1_r. split_and!; [lia|done|done]. }
  destruct n as [|p|p] eqn:En; [apply Hno; lia| |apply Hno; lia].
  destruct (shr_iter_spec p (shr_record_of_loc m l) ltac:(by rewrite Hsm)) as [Hr Hx]. rewrite Hsm in Hr, Hx.
  rewrite Hr. replace (e + Zpos p - e) with (Zpos p) by lia. split_and!; [lia|done|].
  eapply shr_describes; [done|lia|done| |exact Hv]. by rewrite Hx, Hsx.
Qed.

(** A number of the format, as far as bounds are concerned. *)
Definition representable (B : Z) : Prop :=
  exists k f, B = scaled k f /\ 0 <= k <= 2 ^ 53 /\ -1074 <= f.

Lemma gap k f M E : 0 <= k <= 2 ^ 53 -> -1074 <= f -> -1074 <= E -> (f < E -> 2 ^ 52 <= M) ->
  scaled M E < scaled k f -> scaled (M + 1) E <= scaled k f.
Proof.
  intros Hk Hf HE HM Hlt. destruct (Z.le_gt_cases E f) as [Hle|Hgt].
  - assert (exists d, f = E + d /\ 0 <= d) as (d & -> & Hd) by (exists (f - E); lia).
    rewrite scaled_shift in * by lia. unfold scaled in *.
    assert (0 < 2 ^ (E + 3000)) by (apply Z.pow_pos_nonneg; lia).
    apply Z.mul_le_mono_pos_r; [done|]. apply Z.mul_lt_mono_pos_r in Hlt; [lia|done].
  - specialize (HM Hgt). replace E with (f + 1 + (E - f - 1)) in Hlt by lia.
    rewrite !scaled_shift in Hlt by lia. unfold scaled in Hlt.
    apply Z.mul_lt_mono_pos_r in Hlt; [|apply Z.pow_pos_nonneg; lia].
    assert (1 <= 2 ^ (E - f - 1)) by (pose proof (Z.pow_pos_nonneg 2 (E - f - 1)); lia).
    change (2 ^ 53) with (2 ^ 52 * 2) in Hk. nia.
Qed.

(** The end of the rounding, when the mantissa is at most one too long. *)
Lemma finish M E : 0 <= M <= 2 ^ 53 -> -1074 <= E <= 900 ->
  exists r, (let '(mrs'', e'') := shr_fexp 53 1024 M E loc_Exact in
             match shr_m mrs'' with
             | Z0 => S754_zero false
             | Zpos m => if e'' <=? 1024 - 53 then S754_finite false m e'' else S754_infinity false
             | _ => S754_nan
             end) = r /\ positive_number r /\ val r = scaled M E.
Proof.
  intros HM HE.
  assert (describes M E true (scaled M E)) as Hd.
  { split; [|done]. unfold scaled. assert (0 < 2 ^ (E + 3000)) by (apply Z.pow_pos_nonneg; lia). nia. }
  pose proof (shr_fexp_spec M E loc_Exact (scaled M E) ltac:(lia) ltac:(lia) Hd) as H.
  destruct (shr_fexp 53 1024 M E loc_Exact) as [r e']. destruct H as (He' & Hr & [_ [_ Hx]]).
  assert (E <= e' <= E + 1) as HeE.
  { assert (digits M <= 54) by (apply digits_le; lia). unfold fexp, emin in He'. lia. }
  assert (scaled M E = scaled (shr_m r) e') as Hval.
  { destruct (decide (e' = E)) as [->|Hne]; [by rewrite Hr, Z.sub_diag, Z.div_1_r|].
    assert (e' = E + 1) as -> by lia. assert (M = 2 ^ 53) as ->.
    { destruct (decide (M < 2 ^ 53)); [|lia]. assert (digits M <= 53) by (apply digits_le; lia).
      unfold fexp, emin in He'. lia. }
    rewrite Hr, scaled_shift by lia. by replace (E + 1 - E) with 1 by lia. }
  eexists; split; [done|]. rewrite Hval. assert (0 <= shr_m r) as Hpos.
  { rewrite Hr. apply Z.div_pos; [lia|]. apply Z.pow_pos_nonneg; lia. }
  destruct (shr_m r) as [|m|m]; [done| |lia].
  rewrite (proj2 (Z.leb_le e' _)) by lia. split; [|done]. simpl. split; [done|lia].
Qed.

(** Rounding keeps every bound that is a number of the format. *)
Lemma round_bounds m e l v :
  0 <= m -> -3000 <= e -> describes m e (is_exact l) v ->
  is_exact l = true \/ e <= fexp 53 1024 (digits m + e) -> v <= scaled 1 200 ->
  exists r, binary_round_aux 53 1024 false m e l = r /\ positive_number r /\
    forall B, representable B -> (v <= B -> val r <= B) /\ (B <= v -> B <= val r).
Proof.
  intros Hm He Hd Hn Hv. unfold binary_round_aux.
  pose proof (shr_fexp_spec m e l v Hm He Hd) as H.
  destruct (shr_fexp 53 1024 m e l) as [r E]. destruct H as (HE & Hr & Hd').
  set (M := shr_m r) in *.
  destruct (digits_spec m Hm) as (Hd0 & Hdhi & Hdlo).
  assert (-1074 <= E) as HE1 by (unfold fexp, emin in HE; lia).
  assert (0 < 2 ^ (E - e)) as HP by (apply Z.pow_pos_nonneg; lia).
  assert (0 <= M) as HM0 by (rewrite Hr; by apply Z.div_pos).
  assert (M < 2 ^ 53) as HM.
  { rewrite Hr. apply Z.div_lt_upper_bound; [done|]. eapply Z.lt_le_trans; [exact Hdhi|].
    rewrite <- Z.pow_add_r by lia. apply Z.pow_le_mono_r; [lia|]. unfold fexp, emin in HE. lia. }
  (* a unit that is not exact is small, or the mantissa is full *)
  assert (shr_exact r = false -> E = -1074 \/ 2 ^ 52 <= M) as Hfull.
  { intros Hx. destruct (decide (E = -1074)) as [|Hne]; [by left|right].
    assert (e <= fexp 53 1024 (digits m + e)) as Hef.
    { destruct Hn as [Hl|]; [|done]. destruct (Z.le_gt_cases e (fexp 53 1024 (digits m + e))); [done|exfalso].
      assert (E = e) as -> by lia. destruct Hd' as [_ Hd']. destruct Hd as [_ Hd].
      rewrite Hr, Z.sub_diag, Z.div_1_r in Hd'.
      rewrite (proj2 Hd' (proj1 Hd Hl)) in Hx. done. }
    assert (E = digits m + e - 53) as HEd by (unfold fexp, emin in *; lia).
    assert (0 < m) by (destruct (decide (m = 0)) as [->|]; [simpl in *; lia|lia]).
    destruct Hdlo as [Hd1 Hdlo]; [done|]. rewrite Hr. apply Z.div_le_lower_bound; [done|].
    rewrite <- Z.pow_add_r by lia. by replace (E - e + 52) with (digits m - 1) by lia. }
  assert (E <= 900 \/ (M = 0 /\ shr_exact r = true)) as HE2.
  { destruct (decide (M = 0)) as [HM00|].
    - destruct (shr_exact r) eqn:Hx; [by right|left]. destruct Hfull as [|]; [done|lia|lia].
    - left. destruct Hd' as [[Hlo _] _].
      destruct (Z.le_gt_cases E 900); [done|]. exfalso.
      assert (scaled 1 901 <= scaled M E) as Hbad.
      { unfold scaled. assert (2 ^ (901 + 3000) <= 2 ^ (E + 3000)) by (apply Z.pow_le_mono_r; lia). nia. }
      assert (scaled 1 200 < scaled 1 901) by (unfold scaled; rewrite !Z.mul_1_l; apply Z.pow_lt_mono_r; lia). lia. }
  set (M' := round_nearest_even M (loc_of_shr_record r)).
  assert (0 <= M' <= 2 ^ 53 /\ (M' = M \/ (M' = M + 1 /\ shr_exact r = false))) as [HM' Hup].
  { pose proof (loc_exact r) as Hl. unfold M', round_nearest_even.
    destruct (loc_of_shr_record r) as [|[]]; simpl in Hl; try (destruct (Z.even M)); rewrite <- Hl; lia. }
  assert (exists f, (let '(mrs'', e'') := shr_fexp 53 1024 M' E loc_Exact in
             match shr_m mrs'' with
             | Z0 => S754_zero false
             | Zpos m => if e'' <=? 1024 - 53 then S754_finite false m e'' else S754_infinity false
             | _ => S754_nan
             end) = f /\ positive_number f /\ val f = scaled M' E) as (f & Ef & Hpn & Hvf).
  { destruct HE2 as [HE2|[HM00 Hx]]; [by apply finish|].
    assert (M' = 0) as -> by (destruct Hup as [|[? Hx']]; [lia|congruence]).
    exists (S754_zero false). split_and!; [|done|done].
    destruct (shr_fexp 53 1024 0 E loc_Exact) as [r0 e0] eqn:E0.
    pose proof (shr_fexp_spec 0 E loc_Exact 0 ltac:(lia) ltac:(lia)) as H0. rewrite E0 in H0.
    destruct H0 as (_ & H0 & _).
    { split; [|by unfold scaled]. unfold scaled. assert (0 < 2 ^ (E + 3000)) by (apply Z.pow_pos_nonneg; lia). lia. }
    rewrite H0, Z.div_0_l; [done|]. apply Z.pow_nonzero; [lia|]. unfold shr_fexp, shr in E0.
    destruct (fexp 53 1024 (digits 0 + E) - E); injection E0 as _ <-; lia. }
  exists f. split; [exact Ef|]. split; [done|]. rewrite Hvf. clear Ef.
  intros B (k & fB & -> & Hk & HfB). destruct Hd' as [[Hlo Hhi] Hex].
  assert (shr_exact r = false -> scaled M E < scaled k fB -> scaled (M + 1) E <= scaled k fB) as Hgap.
  { intros Hx. apply gap; [done..|]. intros HfE. destruct (Hfull Hx); [lia|done]. }
  destruct (shr_exact r) eqn:Hx.
  { destruct Hup as [->|[_ ?]]; [|done]. rewrite (proj1 Hex) by done. done. }
  assert (scaled M E <> v) by (intros <-; by discriminate (proj2 Hex)).
  destruct Hup as [->|[-> _]]; split; intros HB; try lia.
Qed.

(** ** The operations

    [rounds r v]: [r] is the number [v] rounded. *)
Definition rounds (r : double) (v : Z) : Prop :=
  positive_number r /\ forall B, representable B -> (v <= B -> val r <= B) /\ (B <= v -> B <= val r).

Lemma describes_exact m e : 0 <= m -> -3000 <= e -> describes m e true (scaled m e).
Proof.
  intros Hm He. split; [|done]. unfold scaled.
  assert (0 < 2 ^ (e + 3000)) by (apply Z.pow_pos_nonneg; lia). nia.
Qed.

Lemma aux_rounds m e : 0 <= m -> -3000 <= e -> scaled m e <= scaled 1 200 ->
  rounds (binary_round_aux 53 1024 false m e loc_Exact) (scaled m e).
Proof.
  intros Hm He Hv.
  destruct (round_bounds m e loc_Exact (scaled m e)) as (r & -> & Hp & Hb);
    [done|done|by apply describes_exact|by left|done|by split].
Qed.

Lemma iter_xO m d : Zpos (Pos.iter xO m d) = Zpos m * 2 ^ Zpos d.
Proof.
  induction d as [|d IH] using Pos.peano_ind; [simpl; lia|].
  rewrite Pos.iter_succ, Pos2Z.inj_xO, IH, Pos2Z.inj_succ, Z.pow_succ_r by lia. ring.
Qed.

Lemma shl_align_spec m e e' : let '(m', e'') := shl_align m e e' in
  e'' = Z.min e e' \/ e'' = e /\ e <= e'.
Proof. unfold shl_align. destruct (e' - e) eqn:E; lia. Qed.

Lemma shl_align_scaled m e e' : -3000 <= e' -> -3000 <= e ->
  scaled (Zpos (fst (shl_align m e e'))) (snd (shl_align m e e')) = scaled (Zpos m) e.
Proof.
  intros He' He. unfold shl_align. destruct (e' - e) as [|d|d] eqn:E; simpl; [done|done|].
  rewrite iter_xO. replace e with (e' + Zpos d) at 1 by lia. rewrite scaled_shift by lia. done.
Qed.

Lemma round_rounds m e : -3000 <= e -> scaled (Zpos m) e <= scaled 1 200 ->
  rounds (binary_round 53 1024 false m e) (scaled (Zpos m) e).
Proof.
  intros He Hv. unfold binary_round.
  set (f := fexp 53 1024 (Zpos (digits2_pos m) + e)).
  assert (-1074 <= f) by (unfold f, fexp, emin; lia).
  pose proof (shl_align_scaled m e f ltac:(lia) He) as Hs. pose proof (shl_align_spec m e f) as He2.
  destruct (shl_align m e f) as [mz ez]. cbn [fst snd] in *. rewrite <- Hs in *.
  apply aux_rounds; [lia|lia|done].
Qed.

Lemma normalize_rounds m e : 0 <= m -> -3000 <= e -> scaled m e <= scaled 1 200 ->
  rounds (binary_normalize 53 1024 m e false) (scaled m e).
Proof.
  intros Hm He Hv. unfold binary_normalize. destruct m as [|m|m]; [|by apply round_rounds|lia].
  split; [done|]. unfold scaled. rewrite Z.mul_0_l. done.
Qed.

Lemma scaled_nonneg m e : 0 <= m -> 0 <= scaled m e.
Proof. intros. unfold scaled. apply Z.mul_nonneg_nonneg; [done|]. apply Z.pow_nonneg. lia. Qed.
Lemma val_nonneg x : 0 <= val x.
Proof. destruct x; simpl; try done. by apply scaled_nonneg. Qed.

(** A number of the format is its own rounding. *)
Lemma rounds_representable r v : rounds r v -> representable v -> val r = v.
Proof. intros [_ H] Hv. destruct (H v Hv). lia. Qed.

Lemma representable_scaled k p : 0 <= k <= 2 ^ 53 -> p <= 1074 -> representable (scaled k (- p)).
Proof. intros. exists k, (- p). split_and!; [done|lia..]. Qed.

Lemma rounds_within r v p lo hi :
  rounds r v -> 0 <= lo -> lo <= hi -> hi <= 2 ^ 53 -> p <= 1074 ->
  scaled lo (- p) <= v <= scaled hi (- p) -> within p lo hi r.
Proof.
  intros [Hp Hb] H0 H1 H2 H3 [Hlo Hhi]. split; [done|]. split.
  - apply Hb; [by apply representable_scaled; lia|done].
  - apply Hb; [by apply representable_scaled; lia|done].
Qed.

Lemma of_Z_exact n : 0 <= n <= 2 ^ 53 -> positive_number (of_Z n) /\ val (of_Z n) = scaled n 0.
Proof.
  intros Hn. assert (rounds (of_Z n) (scaled n 0)) as H.
  { apply normalize_rounds; [lia|lia|]. unfold scaled. change (0 + 3000) with 3000.
    change (200 + 3000) with (200 + 3000). rewrite Z.pow_add_r, Z.mul_1_l by lia.
    apply Z.mul_le_mono_nonneg_r; [by apply Z.pow_nonneg|]. transitivity (2 ^ 53); [lia|]. by apply Z.pow_le_mono_r. }
  split; [apply H|]. apply rounds_representable; [done|]. exists n, 0. done.
Qed.

Lemma add_rounds x y : positive_number x -> positive_number y -> val x + val y <= scaled 1 200 ->
  rounds (add x y) (val x + val y).
Proof.
  assert (forall z, positive_number z -> val z <= scaled 1 200 -> rounds z (val z)) as Hid by (intros z Hz _; by split).
  intros Hx Hy Hv. destruct x as [sx|sx| |sx mx ex], y as [sy|sy| |sy my ey]; simpl in Hx, Hy; try done.
  - unfold add. simpl. destruct sx, sy; (split; [done|by simpl]).
  - unfold add. simpl SFadd. rewrite Z.add_0_r in *. by apply (Hid (S754_finite sx mx ex)).
  - destruct Hx as [-> Hx], Hy as [-> Hy]. unfold add, SFadd, cond_Zopp. set (ez := Z.min ex ey).
    pose proof (shl_align_scaled mx ex ez ltac:(lia) ltac:(lia)) as H1.
    pose proof (shl_align_scaled my ey ez ltac:(lia) ltac:(lia)) as H2.
    assert (forall m e, ez <= e -> snd (shl_align m e ez) = ez) as Hez.
    { intros m e He. unfold shl_align. destruct (ez - e) eqn:E; simpl; lia. }
    rewrite Hez in H1, H2 by lia. simpl val in *. rewrite <- H1, <- H2 in *.
    unfold scaled in Hv |- * at 1. unfold scaled at 1. rewrite <- Z.mul_add_distr_r.
    apply normalize_rounds; [lia|lia|]. unfold scaled in *. lia.
Qed.

Lemma sub_rounds x y : positive_number x -> positive_number y -> val y <= val x -> val x <= scaled 1 200 ->
  rounds (sub x y) (val x - val y).
Proof.
  intros Hx Hy Hle Hv. destruct x as [sx|sx| |sx mx ex], y as [sy|sy| |sy my ey]; simpl in Hx, Hy; try done.
  - unfold sub. simpl. destruct sx, sy; (split; [done|by simpl]).
  - exfalso. destruct Hy as [-> Hy]. simpl in Hle. unfold scaled in Hle.
    assert (0 < 2 ^ (ey + 3000)) by (apply Z.pow_pos_nonneg; lia). nia.
  - unfold sub. simpl. split; [done|]. simpl. by rewrite Z.sub_0_r.
  - destruct Hx as [-> Hx], Hy as [-> Hy]. unfold sub, SFsub, cond_Zopp. set (ez := Z.min ex ey).
    pose proof (shl_align_scaled mx ex ez ltac:(lia) ltac:(lia)) as H1.
    pose proof (shl_align_scaled my ey ez ltac:(lia) ltac:(lia)) as H2.
    assert (forall m e, ez <= e -> snd (shl_align m e ez) = ez) as Hez.
    { intros m e He. unfold shl_align. destruct (ez - e) eqn:E; simpl; lia. }
    rewrite Hez in H1, H2 by lia. simpl val in *. rewrite <- H1, <- H2 in *.
    set (a := Zpos (fst (shl_align mx ex ez))) in *. set (b := Zpos (fst (shl_align my ey ez))) in *.
    assert (0 < 2 ^ (ez + 3000)) by (apply Z.pow_pos_nonneg; lia).
    replace (scaled a ez - scaled b ez) with (scaled (a - b) ez) by (unfold scaled; ring).
    unfold scaled in Hle. apply normalize_rounds; [nia|lia|]. unfold scaled in *. nia.
Qed.

Lemma mul_rounds x y v : positive_number x -> positive_number y -> val x * val y = v * 2 ^ 3000 ->
  v <= scaled 1 200 -> rounds (mul x y) v.
Proof.
  intros Hx Hy Hv Hb. assert (0 < 2 ^ 3000) by done.
  destruct x as [sx|sx| |sx mx ex], y as [sy|sy| |sy my ey]; simpl in Hx, Hy; try done; unfold mul; cbn [SFmul val] in *.
  1-3: assert (v = 0) as -> by nia; split; [done|by simpl].
  destruct Hx as [-> Hx], Hy as [-> Hy].
  assert (v = scaled (Zpos (mx * my)) (ex + ey)) as ->.
  { unfold scaled in *. rewrite Pos2Z.inj_mul. apply (Z.mul_cancel_r _ _ (2 ^ 3000)); [lia|]. rewrite <- Hv.
    assert (2 ^ (ex + 3000) * 2 ^ (ey + 3000) = 2 ^ (ex + ey + 3000) * 2 ^ 3000) as Hp
      by (rewrite <- !Z.pow_add_r by lia; f_equal; lia).
    replace (Zpos mx * 2 ^ (ex + 3000) * (Zpos my * 2 ^ (ey + 3000))) with
      (Zpos mx * Zpos my * (2 ^ (ex + 3000) * 2 ^ (ey + 3000))) by ring.
    rewrite Hp. ring. }
  apply aux_rounds; [lia|lia|done].
Qed.

Lemma new_location_exact b r : is_exact (new_location b r) = (r =? 0).
Proof. unfold new_location, new_location_even, new_location_odd. by destruct (Z.even b), (r =? 0). Qed.

(** The quotient that is rounded: its digits, and the part that was cut off. *)
Lemma div_core mx ex my ey : -1074 <= ex <= 971 -> -1074 <= ey <= 971 ->
  scaled (Zpos mx) ex <= scaled (Zpos my) ey ->
  let '(q, e, l) := SFdiv_core_binary 53 1024 (Zpos mx) ex (Zpos my) ey in
  0 <= q /\ -3000 < e - 900 /\ e < 0 /\ (is_exact l = true \/ e <= fexp 53 1024 (digits q + e)) /\
  q <= 2 ^ (- e) /\ (is_exact l = false -> q < 2 ^ (- e)).
Proof.
  intros Hx Hy Hle. unfold SFdiv_core_binary.
  set (dx := Zdigits2 (Zpos mx)). set (dy := Zdigits2 (Zpos my)).
  destruct (digits_spec (Zpos mx) ltac:(lia)) as (_ & Hx1 & [Hx0 Hx2]); [lia|]. fold dx in Hx0, Hx1, Hx2.
  destruct (digits_spec (Zpos my) ltac:(lia)) as (_ & Hy1 & [Hy0 Hy2]); [lia|]. fold dy in Hy0, Hy1, Hy2.
  assert (dx + ex <= dy + ey) as Hd.
  { assert (2 ^ (dx - 1 + (ex + 3000)) < 2 ^ (dy + (ey + 3000))) as Hlt.
    { rewrite (Z.pow_add_r 2 (dx - 1)), (Z.pow_add_r 2 dy) by lia. unfold scaled in Hle.
      eapply Z.le_lt_trans; [apply Z.mul_le_mono_nonneg_r; [by apply Z.pow_nonneg|exact Hx2]|].
      eapply Z.le_lt_trans; [exact Hle|]. apply Z.mul_lt_mono_pos_r; [apply Z.pow_pos_nonneg; lia|done]. }
    apply Z.pow_lt_mono_r_iff in Hlt; lia. }
  set (e := Z.min (fexp 53 1024 (dx + ex - (dy + ey))) (ex - ey)).
  assert (e <= ex - ey /\ e <= fexp 53 1024 (dx + ex - (dy + ey)) /\ -2100 < e /\ e < 0) as (He1 & He2 & He3 & He4).
  { unfold e, fexp, emin. clear -Hd Hx Hy. lia. }
  assert (match ex - ey - e with Z0 => Zpos mx | Zpos _ => Z.shiftl (Zpos mx) (ex - ey - e) | Zneg _ => 0 end
          = Zpos mx * 2 ^ (ex - ey - e)) as ->.
  { destruct (ex - ey - e) as [|s|s] eqn:Es; [lia| |lia]. by rewrite Z.shiftl_mul_pow2. }
  set (m' := Zpos mx * 2 ^ (ex - ey - e)).
  pose proof (Z.div_eucl_eq m' (Zpos my) ltac:(lia)) as Hq. pose proof (Z.mod_pos_bound m' (Zpos my) ltac:(lia)) as Hr.
  unfold Z.modulo in Hr. destruct (Z.div_eucl m' (Zpos my)) as [q r] eqn:Eq.
  assert (q = m' / Zpos my) as Eqd by (unfold Z.div; by rewrite Eq).
  assert (0 < m') as Hm' by (unfold m'; apply Z.mul_pos_pos; [lia|apply Z.pow_pos_nonneg; lia]).
  assert (0 <= q) as Hq0 by (rewrite Eqd; apply Z.div_pos; lia).
  assert (m' <= Zpos my * 2 ^ (- e)) as Hm.
  { unfold m', scaled in *. apply (Z.mul_le_mono_pos_r _ _ (2 ^ (ey + 3000))); [apply Z.pow_pos_nonneg; lia|].
    replace (Zpos mx * 2 ^ (ex - ey - e) * 2 ^ (ey + 3000)) with (Zpos mx * 2 ^ (ex + 3000) * 2 ^ (- e))
      by (rewrite <- !Z.mul_assoc, <- !Z.pow_add_r by lia; do 2 f_equal; lia).
    pose proof (Z.pow_pos_nonneg 2 (- e) ltac:(lia) ltac:(lia)). nia. }
  split_and!; [done|lia|done| |nia|].
  - right. etransitivity; [exact He2|]. enough (dx + ex - (dy + ey) <= digits q + e) by (unfold fexp; lia).
    destruct (Z.le_gt_cases (dx + ex - ey - e - dy) 0); [pose proof (proj1 (digits_spec q Hq0)); lia|].
    enough (dx + ex - ey - e - dy <= digits q) by lia.
    apply digits_ge; [done|lia|]. rewrite Eqd. apply Z.div_le_lower_bound; [lia|].
    transitivity (2 ^ (dx - 1) * 2 ^ (ex - ey - e)).
    + etransitivity; [apply Z.mul_le_mono_nonneg_r; [apply Z.pow_nonneg; lia|apply Z.lt_le_incl, Hy1]|].
      rewrite <- !Z.pow_add_r by lia. apply Z.pow_le_mono_r; lia.
    + unfold m'. apply Z.mul_le_mono_nonneg_r; [apply Z.pow_nonneg; lia|done].
  - rewrite new_location_exact. intros Hr0%Z.eqb_neq. nia.
Qed.

(** A quotient of nonnegative numbers that is at most one stays so. *)
Lemma div_within x y : positive_number x -> positive_number y -> 0 < val y -> val x <= val y ->
  within 0 0 1 (div x y).
Proof.
  intros Hx Hy H0 Hle. destruct x as [sx|sx| |sx mx ex], y as [sy|sy| |sy my ey]; simpl in Hx, Hy, H0; try done.
  destruct Hx as [-> Hx], Hy as [-> Hy]. unfold div, SFdiv. simpl val in Hle.
  pose proof (div_core mx ex my ey Hx Hy Hle) as H.
  destruct (SFdiv_core_binary 53 1024 (Zpos mx) ex (Zpos my) ey) as [[q e] l].
  destruct H as (Hq & He & He0 & Hl & Hq1 & Hq2).
  assert (0 < 2 ^ (e + 3000)) as HP by (apply Z.pow_pos_nonneg; lia).
  assert (1 < 2 ^ (e + 3000)) as HP1 by (apply Z.pow_gt_1; lia).
  assert (scaled 1 0 = 2 ^ (- e) * 2 ^ (e + 3000)) as H1.
  { unfold scaled. rewrite <- Z.pow_add_r, Z.mul_1_l by lia. f_equal. lia. }
  set (v := scaled q e + if is_exact l then 0 else 1).
  assert (scaled q e <= v <= scaled 1 0) as Hv.
  { rewrite H1. unfold v, scaled. destruct (is_exact l); [nia|]. specialize (Hq2 eq_refl). nia. }
  destruct (round_bounds q e l v) as (r & Er & Hp & Hb); [done|lia| |done| |].
  - unfold describes, v, scaled. destruct (is_exact l); (split; [nia|]); (split; intros; [lia || done|done || lia]).
  - transitivity (scaled 1 0); [lia|]. unfold scaled. rewrite !Z.mul_1_l. by apply Z.pow_le_mono_r.
  - simpl xorb. rewrite Er. eapply (rounds_within r v); [by split|lia|lia|lia|lia|].
    split; [|apply Hv]. transitivity (scaled q e); [|apply Hv]. unfold scaled. nia.
Qed.

(** ** Intervals *)

Lemma scaled_neg k p : 0 <= p <= 3000 -> scaled k (- p) = k * 2 ^ (3000 - p).
Proof. intros. unfold scaled. do 2 f_equal. lia. Qed.

Lemma scaled_small k p : 0 <= k <= 2 ^ 100 -> 0 <= p -> scaled k (- p) <= scaled 1 200.
Proof.
  intros Hk Hp. unfold scaled. rewrite Z.mul_1_l. transitivity (2 ^ 100 * 2 ^ 3000).
  - apply Z.mul_le_mono_nonneg; [lia|lia|by apply Z.pow_nonneg|].
    destruct (Z.le_gt_cases 0 (- p + 3000)); [apply Z.pow_le_mono_r; lia|].
    rewrite Z.pow_neg_r by lia. by apply Z.pow_nonneg.
  - rewrite <- Z.pow_add_r by lia. by apply Z.pow_le_mono_r.
Qed.

Lemma of_Z_within n p : 0 <= n <= 2 ^ 53 -> 0 <= p <= 3000 -> within p (n * 2 ^ p) (n * 2 ^ p) (of_Z n).
Proof.
  intros Hn Hp. destruct (of_Z_exact n Hn) as [H1 H2]. split; [done|]. rewrite H2, scaled_neg by done.
  unfold scaled. rewrite <- Z.mul_assoc, <- Z.pow_add_r by lia.
  replace (p + (3000 - p)) with (0 + 3000) by lia. lia.
Qed.

Lemma add_within p a b c d x y : 0 <= p <= 1074 -> 0 <= a -> 0 <= c -> b + d <= 2 ^ 53 ->
  within p a b x -> within p c d y -> within p (a + c) (b + d) (add x y).
Proof.
  intros Hp Ha Hc Hbd [Hx Hvx] [Hy Hvy].
  assert (0 < 2 ^ (3000 - p)) by (apply Z.pow_pos_nonneg; lia).
  assert (scaled (b + d) (- p) <= scaled 1 200) as Hs.
  { rewrite !scaled_neg in * by lia. unfold scaled. rewrite Z.mul_1_l. transitivity (2 ^ 53 * 2 ^ 3000).
    - apply Z.mul_le_mono_nonneg; [nia|lia|lia|apply Z.pow_le_mono_r; lia].
    - rewrite <- Z.pow_add_r by lia. by apply Z.pow_le_mono_r. }
  rewrite !scaled_neg in * by lia.
  eapply rounds_within; [apply add_rounds; [done|done|]| | | | |]; rewrite ?scaled_neg by lia; try nia.
Qed.

Lemma sub_within p a b c d x y : 0 <= p <= 1074 -> 0 <= c -> c <= d -> d <= a -> a <= b -> b <= 2 ^ 53 ->
  within p a b x -> within p c d y -> within p (a - d) (b - c) (sub x y).
Proof.
  intros Hp Hc Hcd Hda Hab Hb [Hx Hvx] [Hy Hvy].
  assert (0 < 2 ^ (3000 - p)) by (apply Z.pow_pos_nonneg; lia).
  pose proof (scaled_small b p ltac:(lia) ltac:(lia)) as Hs. rewrite !scaled_neg in * by lia.
  eapply rounds_within; [apply sub_rounds; [done|done|nia|lia]| | | | |]; rewrite ?scaled_neg by lia; try nia.
Qed.

Lemma mul_val x y : positive_number x -> positive_number y -> exists v, val x * val y = v * 2 ^ 3000.
Proof.
  intros Hx Hy. destruct x as [sx|sx| |sx mx ex], y as [sy|sy| |sy my ey]; try done; simpl val;
    try (by exists 0; rewrite ?Z.mul_0_r).
  destruct Hx as [_ Hx], Hy as [_ Hy]. exists (Zpos mx * Zpos my * 2 ^ (ex + ey + 3000)). unfold scaled.
  transitivity (Zpos mx * Zpos my * (2 ^ (ex + 3000) * 2 ^ (ey + 3000))); [ring|].
  rewrite <- Z.pow_add_r by lia. rewrite <- (Z.mul_assoc _ _ (2 ^ 3000)), <- Z.pow_add_r by lia.
  do 2 f_equal. lia.
Qed.

Lemma mul_within p q a b c d x y : 0 <= p -> 0 <= q -> p + q <= 1074 -> 0 <= a -> a <= b -> 0 <= c -> c <= d ->
  b * d <= 2 ^ 53 -> within p a b x -> within q c d y -> within (p + q) (a * c) (b * d) (mul x y).
Proof.
  intros Hp Hq Hpq Ha Hab Hc Hcd Hbd [Hx Hvx] [Hy Hvy].
  destruct (mul_val x y Hx Hy) as [v Hv].
  assert (0 < 2 ^ 3000) by done.
  assert (forall k l, scaled k (- p) * scaled l (- q) = scaled (k * l) (- (p + q)) * 2 ^ 3000) as Hprod.
  { intros k l. rewrite !scaled_neg by lia.
    transitivity (k * l * (2 ^ (3000 - p) * 2 ^ (3000 - q))); [ring|].
    rewrite <- Z.pow_add_r by lia. rewrite <- (Z.mul_assoc _ _ (2 ^ 3000)), <- Z.pow_add_r by lia.
    do 2 f_equal. lia. }
  assert (scaled (a * c) (- (p + q)) <= v <= scaled (b * d) (- (p + q))) as Hvb.
  { pose proof (scaled_nonneg a (- p) Ha). pose proof (scaled_nonneg c (- q) Hc).
    pose proof (Hprod a c). pose proof (Hprod b d). split; apply (Z.mul_le_mono_pos_r _ _ (2 ^ 3000)); try done; nia. }
  pose proof (scaled_small (b * d) (p + q) ltac:(nia) ltac:(lia)).
  eapply rounds_within; [apply (mul_rounds x y v); [done|done|done|lia]|nia|nia|done|lia|done].
Qed.

(** The integer part. *)
Lemma trunc_val x : positive_number x -> trunc x = Some (val x / 2 ^ 3000).
Proof.
  intros Hx. destruct x as [sx|sx| |sx mx ex]; try done. destruct Hx as [-> Hx]. simpl trunc. simpl val. f_equal.
  unfold scaled. destruct (0 <=? ex) eqn:He; [apply Z.leb_le in He|apply Z.leb_gt in He].
  - rewrite Z.pow_add_r by lia. rewrite Z.mul_assoc. by rewrite Z.div_mul.
  - replace (2 ^ 3000) with (2 ^ (- ex) * 2 ^ (ex + 3000)) by (rewrite <- Z.pow_add_r by lia; f_equal; lia).
    rewrite Z.div_mul_cancel_r; [done|apply Z.pow_nonzero; lia|apply Z.pow_nonzero; lia].
Qed.

Lemma to_int_within p lo hi x : 0 <= p <= 3000 -> 0 <= lo -> hi < 2 ^ 31 * 2 ^ p -> within p lo hi x ->
  lo / 2 ^ p <= to_int x <= hi / 2 ^ p.
Proof.
  intros Hp Hlo Hhi [Hx [Hv1 Hv2]]. unfold to_int. rewrite (trunc_val x Hx).
  assert (forall k, scaled k (- p) / 2 ^ 3000 = k / 2 ^ p) as Hs.
  { intros k. rewrite scaled_neg by done.
    replace (2 ^ 3000) with (2 ^ p * 2 ^ (3000 - p)) by (rewrite <- Z.pow_add_r by lia; f_equal; lia).
    apply Z.div_mul_cancel_r; apply Z.pow_nonzero; lia. }
  assert (lo / 2 ^ p <= val x / 2 ^ 3000 <= hi / 2 ^ p) as Hb.
  { rewrite <- !Hs. split; by apply Z.div_le_mono. }
  assert (0 < 2 ^ p) by (apply Z.pow_pos_nonneg; lia).
  assert (0 <= lo / 2 ^ p) by (by apply Z.div_pos).
  assert (hi / 2 ^ p < 2 ^ 31) by (apply Z.div_lt_upper_bound; lia).
  rewrite (proj2 (Z.leb_le _ _)), (proj2 (Z.ltb_lt _ _)) by lia. done.
Qed.

(** A fraction, to twenty bits. *)
Lemma fraction_within x : within 0 0 1 x ->
  exists j h, 0 <= j /\ j <= h /\ h <= j + 1 /\ h <= 2 ^ 20 /\ within 20 j h x.
Proof.
  intros [Hx [H0 H1]]. rewrite scaled_neg in H0, H1 by lia. rewrite Z.sub_0_r in H0, H1.
  set (j := val x / 2 ^ 2980). exists j, (Z.min (j + 1) (2 ^ 20)).
  assert (2 ^ 3000 = 2 ^ 20 * 2 ^ 2980) as Hp by (by rewrite <- Z.pow_add_r by lia).
  assert (0 < 2 ^ 2980) by done.
  pose proof (Z.mul_div_le (val x) (2 ^ 2980) ltac:(done)) as Hd.
  pose proof (Z.mul_succ_div_gt (val x) (2 ^ 2980) ltac:(done)) as Hd'. fold j in Hd, Hd'.
  assert (0 <= j) by (apply Z.div_pos; [by apply val_nonneg|done]).
  assert (j <= 2 ^ 20) by (apply Z.div_le_upper_bound; lia).
  split; [done|]. split; [lia|]. split; [lia|]. split; [lia|]. split; [done|].
  rewrite !scaled_neg by lia. change (3000 - 20) with 2980. nia.
Qed.
End Doubles.
