(* ===== verification/Qt.v ===== *)
(** * Points, sizes and rectangles

    The value types of QtCore that the program computes with: QPoint, QSize,
    QMargins and QRect, with the documented meaning of the operations the program
    calls. Coordinates are integers without overflow. As in Qt the right and
    bottom edge of a rectangle are the last column and row that belong to it,
    [right r = left r + width r - 1]. *)

From S2P Require Import Prelude.

Module Qt.

Record QPoint := mkPoint { px : Z; py : Z }.
#[global] Instance QPoint_eta : RecordEta QPoint := fun p => mkPoint (px p) (py p).
#[global] Instance QPoint_eq_dec : EqDecision QPoint.
Proof. solve_decision. Defined.

Record QSize := mkSize { sw : Z; sh : Z }.
#[global] Instance QSize_eta : RecordEta QSize := fun s => mkSize (sw s) (sh s).
#[global] Instance QSize_eq_dec : EqDecision QSize.
Proof. solve_decision. Defined.

Record QMargins := mkMargins { ml : Z; mt : Z; mr : Z; mb : Z }.
#[global] Instance QMargins_eq_dec : EqDecision QMargins.
Proof. solve_decision. Defined.

Record QRect := mkRect { rx : Z; ry : Z; rw : Z; rh : Z }.
#[global] Instance QRect_eta : RecordEta QRect := fun r => mkRect (rx r) (ry r) (rw r) (rh r).
#[global] Instance QRect_eq_dec : EqDecision QRect.
Proof. solve_decision. Defined.

(** ** QPoint and QSize *)

Definition padd (p q : QPoint) : QPoint := mkPoint (px p + px q) (py p + py q).
Definition psub (p q : QPoint) : QPoint := mkPoint (px p - px q) (py p - py q).
Definition sadd (s t : QSize) : QSize := mkSize (sw s + sw t) (sh s + sh t).
Definition ssub (s t : QSize) : QSize := mkSize (sw s - sw t) (sh s - sh t).
Definition boundedTo (s t : QSize) : QSize := mkSize (Z.min (sw s) (sw t)) (Z.min (sh s) (sh t)).
Definition expandedTo (s t : QSize) : QSize := mkSize (Z.max (sw s) (sw t)) (Z.max (sh s) (sh t)).
Definition size_isEmpty (s : QSize) : bool := (sw s <? 1) || (sh s <? 1).
Definition size_isValid (s : QSize) : bool := (0 <=? sw s) && (0 <=? sh s).

(** ** QRect *)

Definition rect_at (p : QPoint) (s : QSize) : QRect := mkRect (px p) (py p) (sw s) (sh s).
Definition left (r : QRect) : Z := rx r.
Definition top (r : QRect) : Z := ry r.
Definition right (r : QRect) : Z := rx r + rw r - 1.
Definition bottom (r : QRect) : Z := ry r + rh r - 1.
Definition topLeft (r : QRect) : QPoint := mkPoint (left r) (top r).
Definition topRight (r : QRect) : QPoint := mkPoint (right r) (top r).
Definition bottomLeft (r : QRect) : QPoint := mkPoint (left r) (bottom r).
Definition bottomRight (r : QRect) : QPoint := mkPoint (right r) (bottom r).
Definition size (r : QRect) : QSize := mkSize (rw r) (rh r).
Definition center (r : QRect) : QPoint :=
  mkPoint (Z.quot (left r + right r) 2) (Z.quot (top r + bottom r) 2).
Definition isNull (r : QRect) : bool := (rw r =? 0) && (rh r =? 0).
Definition isEmpty (r : QRect) : bool := (rw r <? 1) || (rh r <? 1).
Definition isValid (r : QRect) : bool := negb (isEmpty r).

(** The normalised edges used by [contains], [intersects] and [intersected]. *)
Definition nleft (r : QRect) : Z := if rw r <? 0 then right r else left r.
Definition nright (r : QRect) : Z := if rw r <? 0 then left r else right r.
Definition ntop (r : QRect) : Z := if rh r <? 0 then bottom r else top r.
Definition nbottom (r : QRect) : Z := if rh r <? 0 then top r else bottom r.

Definition intersects (r s : QRect) : bool :=
  if isNull r || isNull s then false
  else (nleft r <=? nright s) && (nleft s <=? nright r) &&
       (ntop r <=? nbottom s) && (ntop s <=? nbottom r).

Definition rect_contains (r s : QRect) : bool :=
  if isNull r || isNull s then false
  else (nleft r <=? nleft s) && (nright s <=? nright r) &&
       (ntop r <=? ntop s) && (nbottom s <=? nbottom r).

Definition contains_point (r : QRect) (p : QPoint) : bool :=
  (nleft r <=? px p) && (px p <=? nright r) && (ntop r <=? py p) && (py p <=? nbottom r).

Definition of_edges (l t r b : Z) : QRect := mkRect l t (r - l + 1) (b - t + 1).

Definition intersected (r s : QRect) : QRect :=
  if intersects r s then
    of_edges (Z.max (nleft r) (nleft s)) (Z.max (ntop r) (ntop s))
             (Z.min (nright r) (nright s)) (Z.min (nbottom r) (nbottom s))
  else mkRect 0 0 0 0.

Definition united (r s : QRect) : QRect :=
  if isNull r then s else if isNull s then r
  else of_edges (Z.min (nleft r) (nleft s)) (Z.min (ntop r) (ntop s))
                (Z.max (nright r) (nright s)) (Z.max (nbottom r) (nbottom s)).

Definition moveTo (r : QRect) (p : QPoint) : QRect := mkRect (px p) (py p) (rw r) (rh r).
Definition moveLeft (r : QRect) (x : Z) : QRect := mkRect x (ry r) (rw r) (rh r).
Definition moveTop (r : QRect) (y : Z) : QRect := mkRect (rx r) y (rw r) (rh r).
Definition moveRight (r : QRect) (x : Z) : QRect := mkRect (x - rw r + 1) (ry r) (rw r) (rh r).
Definition moveBottom (r : QRect) (y : Z) : QRect := mkRect (rx r) (y - rh r + 1) (rw r) (rh r).
Definition moveCenter (r : QRect) (p : QPoint) : QRect :=
  mkRect (px p - Z.quot (rw r - 1) 2) (py p - Z.quot (rh r - 1) 2) (rw r) (rh r).
Definition translated (r : QRect) (p : QPoint) : QRect :=
  mkRect (rx r + px p) (ry r + py p) (rw r) (rh r).
Definition adjusted (r : QRect) (dl dt dr db : Z) : QRect :=
  of_edges (left r + dl) (top r + dt) (right r + dr) (bottom r + db).
Definition setLeft (r : QRect) (x : Z) : QRect := of_edges x (top r) (right r) (bottom r).
Definition setTop (r : QRect) (y : Z) : QRect := of_edges (left r) y (right r) (bottom r).
Definition setRight (r : QRect) (x : Z) : QRect := of_edges (left r) (top r) x (bottom r).
Definition setBottom (r : QRect) (y : Z) : QRect := of_edges (left r) (top r) (right r) y.
Definition setSize (r : QRect) (s : QSize) : QRect := mkRect (rx r) (ry r) (sw s) (sh s).

(** ** Facts *)

Lemma rect_eq r s :
  rx r = rx s -> ry r = ry s -> rw r = rw s -> rh r = rh s -> r = s.
Proof. destruct r, s. simpl. congruence. Qed.

Lemma size_eq s t : sw s = sw t -> sh s = sh t -> s = t.
Proof. destruct s, t. simpl. congruence. Qed.

(** A valid rectangle has a positive size. *)
Lemma isValid_spec r : isValid r = true <-> 0 < rw r /\ 0 < rh r.
Proof. unfold isValid, isEmpty. rewrite negb_true_iff, orb_false_iff, !Z.ltb_ge. lia. Qed.

Lemma contains_valid r s :
  isValid r = true -> isValid s = true ->
  rect_contains r s = true <->
  left r <= left s /\ right s <= right r /\ top r <= top s /\ bottom s <= bottom r.
Proof.
  rewrite !isValid_spec. intros [? ?] [? ?].
  unfold rect_contains, isNull, nleft, nright, ntop, nbottom.
  rewrite !(proj2 (Z.ltb_ge _ _)) by lia.
  rewrite !(proj2 (Z.eqb_neq _ _)) by lia. simpl.
  rewrite !andb_true_iff, !Z.leb_le. tauto.
Qed.

Lemma intersects_valid r s :
  isValid r = true -> isValid s = true ->
  intersects r s = true <->
  left r <= right s /\ left s <= right r /\ top r <= bottom s /\ top s <= bottom r.
Proof.
  rewrite !isValid_spec. intros [? ?] [? ?].
  unfold intersects, isNull, nleft, nright, ntop, nbottom.
  rewrite !(proj2 (Z.ltb_ge _ _)) by lia.
  rewrite !(proj2 (Z.eqb_neq _ _)) by lia. simpl.
  rewrite !andb_true_iff, !Z.leb_le. tauto.
Qed.

(** Validity in terms of the edges. *)
Lemma isValid_edges r : isValid r = true <-> left r <= right r /\ top r <= bottom r.
Proof. rewrite isValid_spec. unfold left, right, top, bottom. lia. Qed.

(** The point of a rectangle. *)
Definition inside (p : QPoint) (r : QRect) : Prop :=
  left r <= px p <= right r /\ top r <= py p <= bottom r.

Lemma inside_valid p r : inside p r -> isValid r = true.
Proof. intros [??]. apply isValid_edges. lia. Qed.

Lemma valid_not_null r : isValid r = true -> isNull r = false.
Proof. rewrite isValid_spec. unfold isNull. intros [??]. rewrite (proj2 (Z.eqb_neq _ _)) by lia. done. Qed.

Lemma valid_normal r : isValid r = true ->
  nleft r = left r /\ nright r = right r /\ ntop r = top r /\ nbottom r = bottom r.
Proof.
  rewrite isValid_spec. intros [??]. unfold nleft, nright, ntop, nbottom.
  by rewrite !(proj2 (Z.ltb_ge _ _)) by lia.
Qed.

Lemma contains_point_inside r p : isValid r = true -> contains_point r p = true <-> inside p r.
Proof.
  intros Hr. destruct (valid_normal r Hr) as (E1 & E2 & E3 & E4). unfold contains_point, inside.
  rewrite E1, E2, E3, E4, !andb_true_iff, !Z.leb_le. tauto.
Qed.

Lemma of_edges_edges l t r b :
  left (of_edges l t r b) = l /\ top (of_edges l t r b) = t /\
  right (of_edges l t r b) = r /\ bottom (of_edges l t r b) = b.
Proof. unfold of_edges, left, right, top, bottom. cbn. lia. Qed.

(** Two valid rectangles intersect when they share a point, and the intersection
    holds exactly the shared points. *)
Lemma intersects_iff r s :
  isValid r = true -> isValid s = true -> intersects r s = true <-> exists p, inside p r /\ inside p s.
Proof.
  intros Hr Hs. rewrite intersects_valid by done. apply isValid_edges in Hr, Hs. unfold inside. split.
  - intros ?. exists (mkPoint (Z.max (left r) (left s)) (Z.max (top r) (top s))). cbn. lia.
  - intros (p & ? & ?). lia.
Qed.

Lemma intersected_inside r s p :
  isValid r = true -> isValid s = true ->
  inside p (intersected r s) <-> inside p r /\ inside p s.
Proof.
  intros Hr Hs. unfold intersected. destruct (intersects r s) eqn:E.
  - destruct (valid_normal r Hr) as (E1 & E2 & E3 & E4), (valid_normal s Hs) as (F1 & F2 & F3 & F4).
    rewrite E1, E2, E3, E4, F1, F2, F3, F4. unfold inside.
    match goal with |- context[of_edges ?l ?t ?r ?b] =>
      destruct (of_edges_edges l t r b) as (-> & -> & -> & ->) end. lia.
  - split; [unfold inside, left, right; intros [H _]; cbn in H; lia|]. intros Hp.
    by rewrite (proj2 (intersects_iff r s Hr Hs) (ex_intro _ p Hp)) in E.
Qed.

(** A rectangle lies inside another one. *)
Definition within (r s : QRect) : Prop := forall p, inside p r -> inside p s.

Lemma within_edges r s :
  isValid r = true ->
  within r s <-> left s <= left r /\ right r <= right s /\ top s <= top r /\ bottom r <= bottom s.
Proof.
  intros Hr. apply isValid_edges in Hr. unfold within, inside. split.
  - intros H. pose proof (H (mkPoint (left r) (top r))) as H1.
    pose proof (H (mkPoint (right r) (bottom r))) as H2. cbn [px py] in *. lia.
  - intros H p ?. lia.
Qed.

#[global] Instance within_preorder : PreOrder within.
Proof. split; [by intros r p|]. intros r s t H1 H2 p Hp. by apply H2, H1. Qed.

End Qt.
