(* ===== verification/DesktopGrid.v ===== *)
(** * The virtual desktop grid (VirtualDesktopGrid of src/virtualdesktops.cpp)

    The two-dimensional layout of the desktops: its construction from the list
    of desktops, the lookups in both directions, and the walk along an axis that
    the four navigation functions of VirtualDesktopManager share. [None] as the
    result of an operation that returns [option] is a failed assertion or an
    out-of-range access; a null pointer is a [None] inside such a result. *)

From S2P Require Import Prelude.

(** A [VirtualDesktop *]. *)
Abbreviation vdp := nat (only parsing).

Module Grid.

(** ** The grid *)

Record Grid := mkGrid {
  width : Z;                 (* m_size.width() *)
  height : Z;                (* m_size.height() *)
  cells : list (list vdp);   (* m_grid *)
}.
#[global] Instance Grid_eta : RecordEta Grid :=
  fun g => mkGrid (width g) (height g) (cells g).

Inductive Orientation := Horizontal | Vertical.
#[global] Instance Orientation_eq_dec : EqDecision Orientation.
Proof. solve_decision. Defined.

(** VirtualDesktopGrid::VirtualDesktopGrid: two empty rows. *)
Definition initial : Grid := mkGrid 1 2 [[]; []].

(** The horizontal branch of update: row after row, each of at most [w]
    desktops, until the height is reached; exhausted rows stay empty. *)
Fixpoint fill_rows (h w : nat) (ds : list vdp) : list (list vdp) :=
  match h with
  | O => []
  | S h' => take w ds :: fill_rows h' w (drop w ds)
  end.

(** One iteration of the outer loop of the vertical branch: appends one desktop
    to each row from the top until they run out. *)
Fixpoint fill_col (rows : list (list vdp)) (ds : list vdp)
    : list (list vdp) * list vdp :=
  match rows, ds with
  | row :: rows', d :: ds' =>
      let (rows'', rest) := fill_col rows' ds' in ((row ++ [d]) :: rows'', rest)
  | _, _ => (rows, ds)
  end.

Fixpoint fill_cols (w : nat) (rows : list (list vdp)) (ds : list vdp)
    : list (list vdp) :=
  match w with
  | O => rows
  | S w' => let (rows', rest) := fill_col rows ds in fill_cols w' rows' rest
  end.

(** VirtualDesktopGrid::update. *)
Definition update (w h : Z) (orientation : Orientation) (ds : list vdp) : Grid :=
  let width := Z.to_nat (u32 w) in
  let height := Z.to_nat (u32 h) in
  mkGrid w h
    match orientation with
    | Horizontal => fill_rows height width ds
    | Vertical => fill_cols width (replicate height []) ds
    end.

(** VirtualDesktopGrid::gridCoords(VirtualDesktop* ): (-1, -1) when absent. *)
Fixpoint gridCoords_from (y : Z) (rows : list (list vdp)) (vd : vdp) : Z * Z :=
  match rows with
  | [] => (-1, -1)
  | row :: rows' =>
      match index_of vd row with
      | Some x => (Z.of_nat x, y)
      | None => gridCoords_from (y + 1) rows' vd
      end
  end.

Definition gridCoords (g : Grid) (vd : vdp) : Z * Z := gridCoords_from 0 (cells g) vd.

(** VirtualDesktopGrid::at: null beyond the last row or the end of a row; a
    negative coordinate fails the bounds assertion of QVector::at. *)
Definition at_ (g : Grid) (x y : Z) : option (option vdp) :=
  if Z.of_nat (length (cells g)) <=? y then Some None
  else if y <? 0 then None
  else
    row ← cells g !! Z.to_nat y;
    if Z.of_nat (length row) <=? x then Some None
    else if x <? 0 then None
    else Some (row !! Z.to_nat x).

(** The while loop shared by above, below, toLeft and toRight: [step] is the
    coordinate change of one iteration, [None] where the code returns the start
    desktop because the border is reached without wrapping; [look] is the grid
    lookup along the axis. *)
Fixpoint nav_loop (fuel : nat) (step : Z -> option Z) (look : Z -> option (option vdp))
    (desktop : vdp) (i : Z) : option vdp :=
  match fuel with
  | O => None
  | S fuel' =>
      match step i with
      | None => Some desktop
      | Some j =>
          match look j with
          | None => None
          | Some (Some vd) => Some vd
          | Some None => nav_loop fuel' step look desktop j
          end
      end
  end.

(** toRight and below: [++coord; if (coord >= size) coord = 0]. *)
Definition step_inc (size : Z) (wrap : bool) (i : Z) : option Z :=
  let j := i + 1 in
  if size <=? j then (if wrap then Some 0 else None) else Some j.

(** toLeft and above: [--coord; if (coord < 0) coord = size - 1]. *)
Definition step_dec (size : Z) (wrap : bool) (i : Z) : option Z :=
  let j := i - 1 in
  if j <? 0 then (if wrap then Some (size - 1) else None) else Some j.

(** Enough iterations for one walk along an axis of [size] cells. *)
Definition nav_fuel (size : Z) : nat := S (Z.to_nat size).

(** ** Specification

    The cell at column [x] of row [y], and the shape every update gives the
    grid: [h] rows of at most [w] desktops, no row longer than the one above
    it. *)

Definition cell (g : Grid) (x y : nat) : option vdp := cells g !! y ≫= (.!! x).

Definition non_increasing (ls : list nat) : Prop :=
  forall i j a b, (i <= j)%nat -> ls !! i = Some a -> ls !! j = Some b -> (b <= a)%nat.

Record wf (g : Grid) : Prop := {
  wf_rows : Z.of_nat (length (cells g)) = height g;
  wf_width : Forall (fun row => Z.of_nat (length row) <= width g) (cells g);
  wf_stairs : non_increasing (length <$> cells g);
  wf_nodup : NoDup (concat (cells g));
}.

(** ** Lemmas *)

Lemma length_fill_rows h w ds : length (fill_rows h w ds) = h.
Proof. revert ds; induction h; intros; csimpl; auto. Qed.

Lemma concat_fill_rows h w ds : concat (fill_rows h w ds) = take (h * w) ds.
Proof.
  revert ds; induction h as [|h IH]; intros ds; simpl; [done|].
  by rewrite IH, take_take_drop.
Qed.

Lemma fill_rows_width h w ds : Forall (fun row => (length row <= w)%nat) (fill_rows h w ds).
Proof.
  revert ds; induction h; intros; constructor; [rewrite length_take; lia|auto].
Qed.

Lemma non_increasing_cons a ls :
  non_increasing ls -> Forall (fun b => (b <= a)%nat) ls -> non_increasing (a :: ls).
Proof.
  intros Hls Hall [|i] [|j] x y Hij Hx Hy; simplify_eq/=; [done| |lia|].
  - by eapply (Forall_lookup_1 _ _ _ _ Hall).
  - eapply (Hls i j); [lia|done..].
Qed.

Lemma fill_rows_stairs h w ds : non_increasing (length <$> fill_rows h w ds).
Proof.
  revert ds; induction h as [|h IH]; intros ds; [by intros [] []|].
  apply non_increasing_cons; [apply IH|].
  apply Forall_fmap, Forall_forall. intros row Hrow. simpl.
  rewrite length_take. destruct (decide (w <= length ds)%nat).
  - pose proof (fill_rows_width h w (drop w ds)) as Hw.
    rewrite Forall_forall in Hw. apply Hw in Hrow. lia.
  - rewrite (drop_ge ds) in Hrow by lia.
    enough (row = []) as -> by (simpl; lia).
    clear -Hrow. induction h; simpl in *; [set_solver|].
    rewrite take_nil, drop_nil in *. set_solver.
Qed.

Lemma fill_col_length rows ds : length (fill_col rows ds).1 = length rows.
Proof.
  revert ds; induction rows as [|r rows IH]; intros [|d ds]; simpl; auto.
  specialize (IH ds). destruct (fill_col rows ds). simpl in *. by rewrite IH.
Qed.

Lemma fill_cols_length w rows ds : length (fill_cols w rows ds) = length rows.
Proof.
  revert rows ds; induction w as [|w IH]; intros rows ds; simpl; [done|].
  pose proof (fill_col_length rows ds). destruct (fill_col rows ds).
  rewrite IH. done.
Qed.

Lemma fill_col_rest rows ds : (fill_col rows ds).2 = drop (length rows) ds.
Proof.
  revert ds; induction rows as [|r rows IH]; intros [|d ds]; simpl; auto.
  specialize (IH ds). destruct (fill_col rows ds). done.
Qed.

Lemma fill_col_perm rows ds :
  concat (fill_col rows ds).1 ≡ₚ concat rows ++ take (length rows) ds.
Proof.
  revert ds; induction rows as [|r rows IH]; intros [|d ds]; simpl;
    rewrite ?app_nil_r; auto.
  specialize (IH ds). destruct (fill_col rows ds) as [rows' rest]. simpl in *.
  rewrite IH, <- !app_assoc. simpl. by rewrite Permutation_middle.
Qed.

Lemma fill_cols_perm w rows ds :
  concat (fill_cols w rows ds) ≡ₚ concat rows ++ take (w * length rows) ds.
Proof.
  revert rows ds; induction w as [|w IH]; intros rows ds; simpl.
  - by rewrite app_nil_r.
  - pose proof (fill_col_perm rows ds) as Hp. pose proof (fill_col_rest rows ds) as Hr.
    pose proof (fill_col_length rows ds) as Hl.
    destruct (fill_col rows ds) as [rows' rest]. simpl in *. subst rest.
    rewrite IH, Hp, Hl, <- app_assoc. by rewrite take_take_drop.
Qed.

(** Filling one column of rows that all hold [c] desktops leaves rows of [c+1]
    desktops followed by rows of [c] desktops. *)
Lemma fill_col_uniform c rows ds :
  Forall (fun row : list vdp => length row = c) rows ->
  (length <$> (fill_col rows ds).1) =
    replicate (length rows `min` length ds) (S c)
    ++ replicate (length rows - length ds) c.
Proof.
  intros Hr. revert ds; induction Hr as [|r rows Hl Hr IH]; intros ds; [done|].
  destruct ds as [|d ds]; csimpl.
  - f_equal; [done|]. specialize (IH []). destruct rows; csimpl in *; [done|].
    rewrite IH. done.
  - specialize (IH ds). destruct (fill_col rows ds). csimpl in *.
    rewrite length_app. simpl. rewrite IH. f_equal. lia.
Qed.

Lemma non_increasing_two k m c :
  non_increasing (replicate k (S c) ++ replicate m c).
Proof.
  induction k as [|k IH]; simpl.
  - intros i j a b _ [-> _]%lookup_replicate [-> _]%lookup_replicate. lia.
  - apply non_increasing_cons; [done|].
    apply Forall_app; split; apply Forall_replicate; lia.
Qed.

Lemma fill_cols_nil w rows : fill_cols w rows [] = rows.
Proof.
  induction w as [|w IH]; simpl; [done|]. by destruct rows.
Qed.

Lemma fill_cols_stairs w c rows ds :
  Forall (fun row : list vdp => length row = c) rows ->
  non_increasing (length <$> fill_cols w rows ds) /\
  Forall (fun row : list vdp => (length row <= c + w)%nat) (fill_cols w rows ds).
Proof.
  revert c rows ds; induction w as [|w IH]; intros c rows ds Hc.
  { simpl. split.
    - pose proof (non_increasing_two 0 (length rows) c) as H. simpl in H.
      enough ((length <$> rows) = replicate (length rows) c) as -> by done.
      clear -Hc. induction Hc; csimpl; congruence.
    - eapply Forall_impl; [done|]. simpl; intros; lia. }
  simpl. pose proof (fill_col_uniform c rows ds Hc) as Hu.
  pose proof (fill_col_rest rows ds) as Hr.
  destruct (fill_col rows ds) as [rows' rest]; simpl in *. subst rest.
  destruct (decide (length rows <= length ds)%nat) as [Hle|Hgt].
  - replace (length rows - length ds)%nat with 0%nat in Hu by lia.
    rewrite app_nil_r in Hu.
    replace (c + S w)%nat with (S c + w)%nat by lia. apply IH.
    apply Forall_forall. intros row Hrow.
    apply (list_elem_of_fmap_2 length) in Hrow. rewrite Hu in Hrow.
    by apply elem_of_replicate in Hrow as [-> _].
  - rewrite drop_ge by lia. rewrite fill_cols_nil. rewrite Hu.
    split; [apply non_increasing_two|].
    apply Forall_forall. intros row Hrow.
    apply (list_elem_of_fmap_2 length) in Hrow. rewrite Hu in Hrow.
    rewrite elem_of_app, !elem_of_replicate in Hrow. lia.
Qed.

(** The coordinates of a desktop and the desktop at coordinates are inverse. *)
Lemma gridCoords_from_cell y0 rows vd :
  NoDup (concat rows) ->
  forall x y : nat, (rows !! y ≫= (.!! x)) = Some vd ->
  gridCoords_from y0 rows vd = (Z.of_nat x, y0 + Z.of_nat y).
Proof.
  revert y0. induction rows as [|row rows IH]; intros y0 Hnd x y Hc; [done|].
  simpl in Hnd. apply NoDup_app in Hnd as (Hr & Hdisj & Hrs).
  destruct y as [|y]; simpl in Hc |- *.
  - rewrite (index_of_lookup vd row x) by done. f_equal; lia.
  - destruct (index_of vd row) as [k|] eqn:E.
    + apply index_of_Some in E as [E%list_elem_of_lookup_2 _].
      destruct (Hdisj _ E). apply bind_Some in Hc as (r & Hr' & Hx).
      apply list_elem_of_In, in_concat. exists r.
      split; apply list_elem_of_In; eapply list_elem_of_lookup_2; eauto.
    + rewrite (IH (y0 + 1) Hrs x y Hc). f_equal; lia.
Qed.

Lemma gridCoords_cell g vd x y :
  wf g -> cell g x y = Some vd -> gridCoords g vd = (Z.of_nat x, Z.of_nat y).
Proof.
  intros Hwf Hc. unfold gridCoords.
  by rewrite (gridCoords_from_cell 0 (cells g) vd (wf_nodup _ Hwf) x y Hc).
Qed.

Lemma cell_elem g vd : vd ∈ concat (cells g) <-> exists x y, cell g x y = Some vd.
Proof.
  rewrite list_elem_of_In, in_concat. split.
  - intros (r & [y Hy]%list_elem_of_In%list_elem_of_lookup
              & [x Hx]%list_elem_of_In%list_elem_of_lookup).
    exists x, y. unfold cell. by rewrite Hy.
  - intros (x & y & (r & Hy & Hx)%bind_Some). exists r.
    split; apply list_elem_of_In; eapply list_elem_of_lookup_2; eauto.
Qed.

Lemma at_cell g vd x y :
  cell g x y = Some vd -> at_ g (Z.of_nat x) (Z.of_nat y) = Some (Some vd).
Proof.
  unfold cell, at_. intros (r & Hy & Hx)%bind_Some.
  pose proof (lookup_lt_Some _ _ _ Hy). pose proof (lookup_lt_Some _ _ _ Hx).
  rewrite (proj2 (Z.leb_gt _ _)) by lia. rewrite (proj2 (Z.ltb_ge _ _)) by lia.
  rewrite !Nat2Z.id, Hy. simpl.
  rewrite (proj2 (Z.leb_gt _ _)) by lia. rewrite (proj2 (Z.ltb_ge _ _)) by lia.
  by rewrite Hx.
Qed.

Lemma at_row_end g y row x :
  cells g !! y = Some row -> (length row <= x)%nat ->
  at_ g (Z.of_nat x) (Z.of_nat y) = Some None.
Proof.
  unfold at_. intros Hy Hx. pose proof (lookup_lt_Some _ _ _ Hy).
  rewrite (proj2 (Z.leb_gt _ _)) by lia. rewrite (proj2 (Z.ltb_ge _ _)) by lia.
  rewrite !Nat2Z.id, Hy. simpl. by rewrite (proj2 (Z.leb_le _ _)) by lia.
Qed.

(** ** Walking along an axis

    Along a row the desktops are at the positions below the row's length, along
    a column at the rows longer than the column's index: in both cases a prefix
    of [n] of the [size] positions of the axis. *)

Definition axis (look : Z -> option (option vdp)) (n size : nat) (f : nat -> vdp) : Prop :=
  forall j : nat, (j < size)%nat ->
    look (Z.of_nat j) = Some (if decide (j < n)%nat then Some (f j) else None).

Section walk.
Context (look : Z -> option (option vdp)) (n size : nat) (f : nat -> vdp).
Context (Haxis : axis look n size f) (Hn : (0 < n)%nat) (Hsize : (n <= size)%nat).

Lemma look_in j : (j < n)%nat -> look (Z.of_nat j) = Some (Some (f j)).
Proof. intros. rewrite Haxis by lia. by rewrite decide_True by lia. Qed.

Lemma look_out j : (n <= j < size)%nat -> look (Z.of_nat j) = Some None.
Proof. intros. rewrite Haxis by lia. by rewrite decide_False by lia. Qed.

(** One iteration that finds a desktop, and one that passes an empty cell. *)
Lemma nav_hit fuel step vd i (j : nat) :
  step i = Some (Z.of_nat j) -> (j < n)%nat ->
  nav_loop (S fuel) step look vd i = Some (f j).
Proof. intros Hs Hj. simpl. by rewrite Hs, look_in. Qed.

Lemma nav_pass fuel step vd i (j : nat) :
  step i = Some (Z.of_nat j) -> (n <= j < size)%nat ->
  nav_loop (S fuel) step look vd i = nav_loop fuel step look vd (Z.of_nat j).
Proof. intros Hs Hj. simpl. by rewrite Hs, look_out. Qed.

Lemma step_inc_next b (i : nat) :
  (S i < size)%nat -> step_inc (Z.of_nat size) b (Z.of_nat i) = Some (Z.of_nat (S i)).
Proof.
  intros. unfold step_inc. rewrite (proj2 (Z.leb_gt _ _)) by lia. f_equal; lia.
Qed.

Lemma step_inc_last b (i : nat) :
  size = S i -> step_inc (Z.of_nat size) b (Z.of_nat i) = if b then Some 0 else None.
Proof. intros. unfold step_inc. by rewrite (proj2 (Z.leb_le _ _)) by lia. Qed.

Lemma step_dec_prev b (i : nat) :
  step_dec (Z.of_nat size) b (Z.of_nat (S i)) = Some (Z.of_nat i).
Proof.
  unfold step_dec. rewrite (proj2 (Z.ltb_ge _ _)) by lia. f_equal; lia.
Qed.

(** Past the last desktop, the forward walk ends at the first one (wrapping)
    or stays (not wrapping). *)
Lemma nav_inc_end b vd : forall k (i : nat),
  (i + k = size)%nat -> (n <= S i)%nat -> (0 < k)%nat -> forall fuel, (k <= fuel)%nat ->
  nav_loop fuel (step_inc (Z.of_nat size) b) look vd (Z.of_nat i)
  = Some (if b then f 0 else vd).
Proof.
  induction k as [|k IH]; intros i Hi Hni Hk [|fuel] Hfuel; [lia..|].
  destruct (decide (k = 0)%nat) as [->|].
  - destruct b; simpl; rewrite step_inc_last by lia; [|done].
    pose proof (look_in 0 Hn) as H0. change (Z.of_nat 0) with 0 in H0. by rewrite H0.
  - rewrite (nav_pass _ _ _ _ (S i)) by (rewrite ?step_inc_next by lia; auto; lia).
    apply IH; lia.
Qed.

Lemma nav_inc b vd (i : nat) :
  (i < n)%nat ->
  nav_loop (nav_fuel (Z.of_nat size)) (step_inc (Z.of_nat size) b) look vd (Z.of_nat i)
  = Some (if decide (S i < n)%nat then f (S i) else if b then f 0 else vd).
Proof.
  intros Hi. unfold nav_fuel. rewrite Nat2Z.id. case_decide as Hd.
  - apply nav_hit; [apply step_inc_next; lia|done].
  - apply (nav_inc_end b vd (size - i)); lia.
Qed.

(** Downwards from a position past the last desktop. *)
Lemma nav_dec_end b vd : forall k,
  (n + k <= size)%nat -> forall fuel, (k < fuel)%nat ->
  nav_loop fuel (step_dec (Z.of_nat size) b) look vd (Z.of_nat (n + k)) = Some (f (n - 1)).
Proof.
  induction k as [|k IH]; intros Hk [|fuel] Hfuel; [lia| |lia|].
  - replace (n + 0)%nat with (S (n - 1)) by lia.
    apply nav_hit; [apply step_dec_prev|lia].
  - replace (n + S k)%nat with (S (n + k)) by lia.
    rewrite (nav_pass _ _ _ _ (n + k)) by (rewrite ?step_dec_prev; auto; lia).
    apply IH; lia.
Qed.

Lemma nav_dec b vd (i : nat) :
  (i < n)%nat ->
  nav_loop (nav_fuel (Z.of_nat size)) (step_dec (Z.of_nat size) b) look vd (Z.of_nat i)
  = Some (if decide (0 < i)%nat then f (i - 1) else if b then f (n - 1) else vd).
Proof.
  intros Hi. unfold nav_fuel. rewrite Nat2Z.id. case_decide as Hd.
  - destruct i as [|i]; [lia|]. replace (S i - 1)%nat with i by lia.
    apply nav_hit; [apply step_dec_prev|lia].
  - destruct i; [|lia]. destruct b; [|done].
    assert (step_dec (Z.of_nat size) true (Z.of_nat 0) = Some (Z.of_nat (size - 1))) as Hs.
    { unfold step_dec. simpl. f_equal; lia. }
    destruct (decide (n = size)%nat) as [Heq|].
    + rewrite (nav_hit _ _ _ _ (size - 1) Hs) by lia. do 2 f_equal; lia.
    + rewrite (nav_pass _ _ _ _ (size - 1) Hs) by lia.
      replace (size - 1)%nat with (n + (size - 1 - n))%nat by lia.
      apply nav_dec_end; lia.
Qed.
End walk.

(** A row of the grid as an axis. *)
Lemma axis_row g y row d0 :
  wf g -> cells g !! y = Some row ->
  axis (fun x => at_ g x (Z.of_nat y)) (length row) (Z.to_nat (width g))
    (fun x => nth x row d0).
Proof.
  intros Hwf Hy j Hj. case_decide as Hd.
  - apply at_cell. unfold cell. rewrite Hy. simpl.
    rewrite nth_lookup. by destruct (lookup_lt_is_Some_2 row j Hd) as [? ->].
  - by apply (at_row_end g y row); [|lia].
Qed.

(** The number of desktops in column [x]: the rows longer than [x]. *)
Definition col_height (g : Grid) (x : nat) : nat :=
  length (filter (fun row : list vdp => (x < length row)%nat) (cells g)).

Lemma stairs_prefix (ls : list (list vdp)) x :
  non_increasing (length <$> ls) ->
  forall y row, ls !! y = Some row ->
  (x < length row <-> y < length (filter (fun r : list vdp => x < length r) ls))%nat.
Proof.
  induction ls as [|r ls IH]; intros Hni y row Hy; [done|].
  assert (non_increasing (length <$> ls)) as Hni'.
  { intros i j a b Hij Ha Hb. apply (Hni (S i) (S j)); [lia|done..]. }
  destruct (decide (x < length r)%nat) as [Hx|Hx].
  - rewrite filter_cons_True by done. destruct y as [|y]; simplify_eq/=; [lia|].
    rewrite (IH Hni' y row Hy). lia.
  - rewrite filter_cons_False by done.
    assert (length row <= length r)%nat as Hle.
    { apply (Hni 0%nat y); [lia|done|]. rewrite list_lookup_fmap, Hy. done. }
    split; [lia|]. intros Hlt. exfalso.
    assert (exists r', r' ∈ filter (fun r : list vdp => (x < length r)%nat) ls) as [r' Hr'].
    { destruct (filter _ ls); [simpl in Hlt; lia|]. eexists. left. }
    apply list_elem_of_filter in Hr' as [Hr' [k Hk]%list_elem_of_lookup].
    assert (length r' <= length r)%nat; [|lia].
    apply (Hni 0%nat (S k)); [lia|done|]. simpl. rewrite list_lookup_fmap, Hk. done.
Qed.

(** A column of the grid as an axis. *)
Lemma axis_col g x d0 :
  wf g ->
  axis (fun y => at_ g (Z.of_nat x) y) (col_height g x) (Z.to_nat (height g))
    (fun y => default d0 (cell g x y)).
Proof.
  intros Hwf j Hj. rewrite <- (wf_rows _ Hwf), Nat2Z.id in Hj.
  destruct (lookup_lt_is_Some_2 _ _ Hj) as [row Hrow].
  pose proof (stairs_prefix _ x (wf_stairs _ Hwf) j row Hrow) as Hst.
  unfold col_height. case_decide as Hd.
  - apply Hst in Hd. destruct (lookup_lt_is_Some_2 row x Hd) as [v Hv].
    assert (cell g x j = Some v) as Hc by (unfold cell; by rewrite Hrow).
    rewrite Hc. by apply at_cell.
  - apply (at_row_end g j row); [done|]. lia.
Qed.

(** ** The grid update *)

Lemma update_cells_perm w h o ds :
  concat (cells (update w h o ds))
    ≡ₚ take (Z.to_nat (u32 w) * Z.to_nat (u32 h)) ds.
Proof.
  unfold update; simpl. destruct o.
  - rewrite concat_fill_rows. by rewrite Nat.mul_comm.
  - rewrite fill_cols_perm, length_replicate.
    enough (forall n, concat (replicate n []) = @nil vdp) as -> by done.
    induction n; auto.
Qed.

Lemma update_wf w h o ds :
  NoDup ds -> 0 <= w < 2 ^ 31 -> 0 <= h < 2 ^ 31 -> wf (update w h o ds).
Proof.
  intros Hnd Hw Hh. pose proof (update_cells_perm w h o ds) as Hp.
  split.
  - unfold update; simpl. rewrite (u32_small h) by lia.
    destruct o; rewrite ?length_fill_rows, ?fill_cols_length, ?length_replicate; lia.
  - unfold update; simpl. rewrite (u32_small w) by lia. destruct o.
    + eapply Forall_impl; [apply fill_rows_width|]. simpl; lia.
    + destruct (fill_cols_stairs (Z.to_nat w) 0 (replicate (Z.to_nat (u32 h)) []) ds)
        as [_ Hf]; [by apply Forall_replicate|].
      eapply Forall_impl; [exact Hf|]. simpl; lia.
  - unfold update; simpl. destruct o; [apply fill_rows_stairs|].
    by apply (fill_cols_stairs _ 0), Forall_replicate.
  - rewrite Hp. eapply sublist_NoDup; [done|apply sublist_take].
Qed.

End Grid.
