(* ===== verification/VirtualDesktops.v ===== *)
(** * Virtual desktops (src/virtualdesktops.h, src/virtualdesktops.cpp)

    [VirtualDesktop] and [VirtualDesktopManager]: the list of desktops, the
    current desktop, navigation in the grid and along the list, creation and
    removal, the layout computation and the configuration load and save.

    Desktops are heap objects: a [vdp] is the pointer, the heap maps it to the
    object. [None] as the result of an operation that returns [option] is a
    failed assertion, an out-of-range access or a division by zero of the code;
    a null pointer is a [None] inside such a result. NETRootInfo and KConfig are
    parameters: the classes [NETRootInfo] and [KConfigGroup] list the operations
    used of them. *)

From S2P Require Import Prelude DesktopGrid.

Module Manager.
Import Grid.

(** ** Data *)

(** VirtualDesktop. *)
Record VirtualDesktop := mkVD {
  m_id : string;
  m_name : string;
  m_x11DesktopNumber : Z;
}.
#[global] Instance VirtualDesktop_eta : RecordEta VirtualDesktop :=
  fun v => mkVD (m_id v) (m_name v) (m_x11DesktopNumber v).

(** The signals of VirtualDesktop and VirtualDesktopManager, in emission order. *)
Inductive Signal :=
  | nameChanged (vd : vdp)
  | x11DesktopNumberChanged (vd : vdp)
  | countChanged (previousCount newCount : Z)
  | rowsChanged (rows : Z)
  | desktopCreated (vd : vdp)
  | desktopRemoved (vd : vdp)
  | currentChanged (previousDesktop newDesktop : Z)
  | layoutChanged (columns rows : Z)
  | navigationWrappingAroundChanged.
#[global] Instance Signal_eq_dec : EqDecision Signal.
Proof. solve_decision. Defined.

(** The operations the manager uses of NETRootInfo (KWindowSystem): the setters
    it calls and the layout and names it reads back. *)
Class NETRootInfo (R : Type) := {
  ri_setDesktopLayout : Orientation -> Z -> Z -> R -> R;
  ri_setNumberOfDesktops : Z -> R -> R;
  ri_setDesktopViewport : Z -> R -> R;
  ri_setCurrentDesktop : Z -> R -> R;
  ri_setDesktopName : Z -> string -> R -> R;
  ri_activate : R -> R;
  ri_desktopName : R -> Z -> string;
  ri_desktopLayoutColumnsRows : R -> Z * Z;
  ri_desktopLayoutOrientation : R -> Orientation;
}.

(** The operations the manager uses of the "Desktops" KConfigGroup (KConfig). *)
Class KConfigGroup (C : Type) := {
  readInt : C -> string -> Z -> Z;
  readString : C -> string -> string -> string;
  hasKey : C -> string -> bool;
  writeInt : string -> Z -> C -> C;
  writeString : string -> string -> C -> C;
  deleteEntry : string -> C -> C;
  sync : C -> C;
}.

(** VirtualDesktopManager, with the file-static flag s_loadingDesktopSettings,
    the heap of desktops, the allocator and the counter of generated ids. *)
Record Manager (R C : Type) := mkManager {
  heap : gmap vdp VirtualDesktop;
  m_desktops : list vdp;
  m_current : option vdp;
  m_rows : Z;
  m_navigationWrapsAround : bool;
  m_grid : Grid;
  m_rootInfo : option R;
  m_config : option C;
  s_loadingDesktopSettings : bool;
  next_vdp : vdp;
  next_id : nat;
  signals : list Signal;
}.
Arguments mkManager {R C}.
Arguments heap {R C}. Arguments m_desktops {R C}. Arguments m_current {R C}.
Arguments m_rows {R C}. Arguments m_navigationWrapsAround {R C}.
Arguments m_grid {R C}. Arguments m_rootInfo {R C}. Arguments m_config {R C}.
Arguments s_loadingDesktopSettings {R C}. Arguments next_vdp {R C}.
Arguments next_id {R C}. Arguments signals {R C}.
#[global] Instance Manager_eta {R C} : RecordEta (Manager R C) := fun m =>
  mkManager (heap m) (m_desktops m) (m_current m) (m_rows m)
    (m_navigationWrapsAround m) (m_grid m) (m_rootInfo m) (m_config m)
    (s_loadingDesktopSettings m) (next_vdp m) (next_id m) (signals m).

(** VirtualDesktopManager::maximum. *)
Definition maximum : Z := 20.

(** DesktopAbove, DesktopBelow, DesktopLeft, DesktopRight, DesktopNext and
    DesktopPrevious. *)
Inductive Direction :=
  DesktopAbove | DesktopBelow | DesktopLeft | DesktopRight | DesktopNext | DesktopPrevious.

Definition key_Name (i : Z) : string := "Name_" +:+ pretty i.
Definition key_Id (i : Z) : string := "Id_" +:+ pretty i.

Section Operations.
Context {R C : Type} `{!NETRootInfo R, !KConfigGroup C}.
(** QUuid::createUuid (the n-th one) and i18n("Desktop %1", n). *)
Context (createUuid : nat -> string) (i18n_Desktop : Z -> string).
Implicit Types m : Manager R C.

Definition emit (s : Signal) m : Manager R C := m <| signals := signals m ++ [s] |>.

Definition count m : Z := Z.of_nat (length (m_desktops m)).

(** The constructor, before any desktop is created. *)
Definition initial : Manager R C :=
  mkManager ∅ [] None 2 false Grid.initial None None false 0 0 [].

Definition defaultName (desktop : Z) : string := i18n_Desktop desktop.

(** VirtualDesktop::setX11DesktopNumber. *)
Definition setX11DesktopNumber (p : vdp) (number : Z) m : option (Manager R C) :=
  vd ← heap m !! p;
  if u32 (m_x11DesktopNumber vd) =? number then Some m
  else
    let m1 := m <| heap := <[p := vd <| m_x11DesktopNumber := i32 number |>]> (heap m) |> in
    Some (if i32 number =? 0 then m1 else emit (x11DesktopNumberChanged p) m1).

(** [if (m_rootInfo) m_rootInfo->setDesktopName(number, name)]. *)
Definition rootSetDesktopName (number : Z) (name : string) m : Manager R C :=
  m <| m_rootInfo := ri_setDesktopName number name <$> m_rootInfo m |>.

(** VirtualDesktop::setName of a desktop whose nameChanged signal is connected
    to the root info by the manager. *)
Definition setName (p : vdp) (name : string) m : option (Manager R C) :=
  vd ← heap m !! p;
  if bool_decide (m_name vd = name) then Some m
  else
    let m1 := m <| heap := <[p := vd <| m_name := name |>]> (heap m) |> in
    Some (rootSetDesktopName (m_x11DesktopNumber vd) name (emit (nameChanged p) m1)).

(** VirtualDesktop::setId: asserts that no id was set. *)
Definition setId (p : vdp) (id : string) m : option (Manager R C) :=
  vd ← heap m !! p;
  if bool_decide (m_id vd = "") then
    Some (m <| heap := <[p := vd <| m_id := id |>]> (heap m) |>)
  else None.

Definition generateDesktopId m : string * Manager R C :=
  (createUuid (next_id m), m <| next_id := S (next_id m) |>).

(** [new VirtualDesktop]. *)
Definition newDesktop (vd : VirtualDesktop) m : vdp * Manager R C :=
  (next_vdp m,
   m <| heap := <[next_vdp m := vd]> (heap m) |> <| next_vdp := S (next_vdp m) |>).

Definition desktopForX11Id m (id : Z) : option vdp :=
  if (id =? 0) || (count m <? id) then None else m_desktops m !! Z.to_nat (id - 1).

Definition desktopForId m (id : string) : option vdp :=
  snd <$> list_find (fun p => (m_id <$> heap m !! p) = Some id) (m_desktops m).

(** VirtualDesktopManager::current. *)
Definition current m : option Z :=
  match m_current m with
  | None => Some 0
  | Some p => vd ← heap m !! p; Some (u32 (m_x11DesktopNumber vd))
  end.

Definition name m (desktop : Z) : option string :=
  if u32 (desktop - 1) <? count m then
    p ← m_desktops m !! Z.to_nat (u32 (desktop - 1));
    m_name <$> heap m !! p
  else
    match m_rootInfo m with
    | None => Some (defaultName desktop)
    | Some ri => Some (ri_desktopName ri desktop)
    end.

(** *** Navigation *)

(** The start desktop of a navigation: [m_current] is asserted, a null
    argument stands for it. *)
Definition start_desktop m (desktop : option vdp) : option vdp :=
  cur ← m_current m; Some (default cur desktop).

Definition above m (desktop : option vdp) (wrap : bool) : option vdp :=
  d ← start_desktop m desktop;
  let '(x, y) := gridCoords (m_grid m) d in
  if x <? 0 then None
  else nav_loop (nav_fuel (height (m_grid m))) (step_dec (height (m_grid m)) wrap)
         (fun y => at_ (m_grid m) x y) d y.

Definition toRight m (desktop : option vdp) (wrap : bool) : option vdp :=
  d ← start_desktop m desktop;
  let '(x, y) := gridCoords (m_grid m) d in
  if x <? 0 then None
  else nav_loop (nav_fuel (width (m_grid m))) (step_inc (width (m_grid m)) wrap)
         (fun x => at_ (m_grid m) x y) d x.

Definition below m (desktop : option vdp) (wrap : bool) : option vdp :=
  d ← start_desktop m desktop;
  let '(x, y) := gridCoords (m_grid m) d in
  if x <? 0 then None
  else nav_loop (nav_fuel (height (m_grid m))) (step_inc (height (m_grid m)) wrap)
         (fun y => at_ (m_grid m) x y) d y.

Definition toLeft m (desktop : option vdp) (wrap : bool) : option vdp :=
  d ← start_desktop m desktop;
  let '(x, y) := gridCoords (m_grid m) d in
  if x <? 0 then None
  else nav_loop (nav_fuel (width (m_grid m))) (step_dec (width (m_grid m)) wrap)
         (fun x => at_ (m_grid m) x y) d x.

Definition next m (desktop : option vdp) (wrap : bool) : option vdp :=
  d ← start_desktop m desktop;
  i ← index_of d (m_desktops m);
  match m_desktops m !! S i with
  | Some d' => Some d'
  | None => if wrap then head (m_desktops m) else Some d
  end.

Definition previous m (desktop : option vdp) (wrap : bool) : option vdp :=
  d ← start_desktop m desktop;
  i ← index_of d (m_desktops m);
  match i with
  | O => if wrap then last (m_desktops m) else Some d
  | S i' => m_desktops m !! i'
  end.

(** The overloads on x11 numbers: an unknown number starts at the current
    desktop. *)
Definition by_number (nav : Manager R C -> option vdp -> bool -> option vdp)
    m (id : Z) (wrap : bool) : option Z :=
  p ← nav m (desktopForX11Id m id) wrap;
  vd ← heap m !! p;
  Some (u32 (m_x11DesktopNumber vd)).

Definition apply_direction (dir : Direction) :
    Manager R C -> option vdp -> bool -> option vdp :=
  match dir with
  | DesktopAbove => above
  | DesktopBelow => below
  | DesktopLeft => toLeft
  | DesktopRight => toRight
  | DesktopNext => next
  | DesktopPrevious => previous
  end.

(** *** The current desktop *)

(** setCurrent(VirtualDesktop* ). *)
Definition setCurrentDesktop (newDesktop : vdp) m : option (bool * Manager R C) :=
  if bool_decide (m_current m = Some newDesktop) then Some (false, m)
  else
    oldDesktop ← current m;
    vd ← heap m !! newDesktop;
    Some (true, emit (currentChanged oldDesktop (u32 (m_x11DesktopNumber vd)))
                  (m <| m_current := Some newDesktop |>)).

(** setCurrent(uint). *)
Definition setCurrent (newDesktop : Z) m : option (bool * Manager R C) :=
  cur ← current m;
  if (newDesktop <? 1) || (count m <? newDesktop) || (newDesktop =? cur)
  then Some (false, m)
  else d ← desktopForX11Id m newDesktop; setCurrentDesktop d m.

Definition moveTo (dir : Direction) (wrap : bool) m : option (bool * Manager R C) :=
  d ← apply_direction dir m None wrap; setCurrentDesktop d m.

Definition setNavigationWrappingAround (enabled : bool) m : Manager R C :=
  if Bool.eqb enabled (m_navigationWrapsAround m) then m
  else emit navigationWrappingAroundChanged (m <| m_navigationWrapsAround := enabled |>).

(** slotSwitchTo: the action carries the number of the desktop, or something
    that is not a number. *)
Definition slotSwitchTo (data : option Z) m : option (bool * Manager R C) :=
  match data with
  | None => Some (false, m)
  | Some i => setCurrent i m
  end.

(** slotUp, slotDown, slotLeft, slotRight, slotNext and slotPrevious. *)
Definition slotMove (dir : Direction) m : option (bool * Manager R C) :=
  moveTo dir (m_navigationWrapsAround m) m.

(** *** Layout *)

(** The loop that widens (or heightens) the grid until it holds every desktop. *)
Fixpoint grow_grid (fuel : nat) (o : Orientation) (w h cnt : Z) : option (Z * Z) :=
  if u32 (w * h) <? cnt then
    match fuel with
    | O => None
    | S fuel' =>
        match o with
        | Horizontal => grow_grid fuel' o (u32 (w + 1)) h cnt
        | Vertical => grow_grid fuel' o w (u32 (h + 1)) cnt
        end
    end
  else Some (w, h).

Definition setNETDesktopLayout (o : Orientation) (width height : Z) m
    : option (Manager R C) :=
  let cnt := count m in
  if negb ((0 <? width) || (0 <? height)) then None
  else
    let w0 := if (width <=? 0) && (0 <? height)
              then u32 (cnt + height - 1) / height else width in
    let h0 := if (width <=? 0) && (0 <? height) then height
              else if (height <=? 0) && (0 <? width)
              then u32 (cnt + width - 1) / width else height in
    '(w, h) ← grow_grid (Z.to_nat cnt) o w0 h0 cnt;
    Some (emit (rowsChanged h)
            (emit (layoutChanged (i32 w) (i32 h))
               (m <| m_rows := Z.max 1 h |>
                  <| m_grid := Grid.update (i32 w) (i32 h) o (m_desktops m) |>))).

Definition updateLayout m : option (Manager R C) :=
  let rows0 := Z.min (m_rows m) (count m) in
  if rows0 =? 0 then None
  else
    let '(columns, rows1, o) :=
      match m_rootInfo m with
      | None => (count m / rows0, rows0, Horizontal)
      | Some ri =>
          let '(c, r) := ri_desktopLayoutColumnsRows ri in
          (c, Z.max 1 r, ri_desktopLayoutOrientation ri)
      end in
    let rows2 := if columns =? 0 then (if count m =? 1 then 1 else 2) else rows1 in
    let columns2 := if columns =? 0 then count m / rows2 else columns in
    setNETDesktopLayout o (u32 columns2) rows2 (m <| m_rows := rows2 |>).

Definition updateRootInfo m : option (Manager R C) :=
  let n := count m in
  updateLayout
    (m <| m_rootInfo :=
            (fun ri => ri_setDesktopViewport n (ri_setNumberOfDesktops n ri))
            <$> m_rootInfo m |>).

(** [count() / rows], rounded up. *)
Definition layout_columns (cnt rows : Z) : Z :=
  if 0 <? cnt mod rows then cnt / rows + 1 else cnt / rows.

Definition setRows (rows : Z) m : option (Manager R C) :=
  if (rows =? 0) || (count m <? rows) || (rows =? m_rows m) then Some m
  else
    let m1 := m <| m_rows := rows |> in
    let columns := layout_columns (count m1) rows in
    updateLayout
      (m1 <| m_rootInfo :=
               (fun ri => ri_activate (ri_setDesktopLayout Horizontal columns rows ri))
               <$> m_rootInfo m1 |>).

(** *** Saving and loading *)

(** The stale entries above the count, deleted while an Id key is found. *)
Fixpoint delete_stale (fuel : nat) (i : Z) (c : C) : option C :=
  if hasKey c (key_Id i) then
    match fuel with
    | O => None
    | S fuel' =>
        delete_stale fuel' (i + 1) (deleteEntry (key_Name i) (deleteEntry (key_Id i) c))
    end
  else Some c.

(** One iteration of the writing loop, for desktop number [i]. *)
Definition save_desktop (i : Z) (st : C * Manager R C) : option (C * Manager R C) :=
  let '(c, m) := st in
  s0 ← name m i;
  let defaultvalue := defaultName i in
  let s := if bool_decide (s0 = "") then defaultvalue else s0 in
  let m1 := if bool_decide (s0 = "") then rootSetDesktopName i defaultvalue m else m in
  let c1 :=
    if bool_decide (s = defaultvalue) then
      if bool_decide (readString c (key_Name i) "" = defaultvalue) then c
      else deleteEntry (key_Name i) c
    else writeString (key_Name i) s c in
  p ← m_desktops m1 !! Z.to_nat (i - 1);
  vd ← heap m1 !! p;
  Some (writeString (key_Id i) (m_id vd) c1, m1).

Fixpoint save_desktops (n : nat) (i : Z) (st : C * Manager R C)
    : option (C * Manager R C) :=
  match n with
  | O => Some st
  | S n' => st' ← save_desktop i st; save_desktops n' (i + 1) st'
  end.

(** VirtualDesktopManager::save; [fuel] bounds the stale entries. *)
Definition save (fuel : nat) m : option (Manager R C) :=
  if s_loadingDesktopSettings m then Some m
  else
    match m_config m with
    | None => Some m
    | Some c =>
        c1 ← delete_stale fuel (count m + 1) c;
        let c2 := writeInt "Number" (count m) c1 in
        '(c3, m1) ← save_desktops (length (m_desktops m)) 1 (c2, m);
        Some (m1 <| m_config := Some (sync (writeInt "Rows" (m_rows m1) c3)) |>)
    end.

(** *** Creating and removing desktops *)

(** The loops that renumber the desktops displaced by an insertion or removal:
    the desktops [ds] get the numbers from [i + 1] on. *)
Fixpoint renumber (i : Z) (ds : list vdp) m : option (Manager R C) :=
  match ds with
  | [] => Some m
  | d :: ds' =>
      m1 ← setX11DesktopNumber d (i + 1) m;
      vd ← heap m1 !! d;
      renumber (i + 1) ds' (rootSetDesktopName (i + 1) (m_name vd) m1)
  end.

Definition createVirtualDesktop (fuel : nat) (position : Z) (name : string) m
    : option (option vdp * Manager R C) :=
  if count m =? maximum then Some (None, m)
  else
    let position := qBound 0 position (count m) in
    let '(id, m0) := generateDesktopId m in
    let '(p, m1) := newDesktop (mkVD id name (i32 (position + 1))) m0 in
    let m2 := rootSetDesktopName (position + 1) name m1 in
    let m3 := m2 <| m_desktops := insert_at (Z.to_nat position) p (m_desktops m2) |> in
    m4 ← renumber (position + 1) (drop (S (Z.to_nat position)) (m_desktops m3)) m3;
    m5 ← save fuel m4;
    m6 ← updateRootInfo m5;
    Some (Some p, emit (countChanged (count m6 - 1) (count m6))
                    (emit (desktopCreated p) m6)).

Definition removeVirtualDesktop (fuel : nat) (id : string) m : option (Manager R C) :=
  if count m =? 1 then Some m
  else
    match desktopForId m id with
    | None => Some m
    | Some desktop =>
        cur ← m_current m;
        cvd ← heap m !! cur;
        let oldCurrent := u32 (m_x11DesktopNumber cvd) in
        dvd ← heap m !! desktop;
        let i := u32 (m_x11DesktopNumber dvd) - 1 in
        if negb ((0 <=? i) && (i <? count m)) then None
        else
          let m1 := m <| m_desktops := delete (Z.to_nat i) (m_desktops m) |> in
          m2 ← renumber i (drop (Z.to_nat i) (m_desktops m1)) m1;
          let newCurrent := Z.min oldCurrent (count m2) in
          p ← m_desktops m2 !! Z.to_nat (newCurrent - 1);
          let m3 := m2 <| m_current := Some p |> in
          let m4 := if oldCurrent =? newCurrent then m3
                    else emit (currentChanged oldCurrent newCurrent) m3 in
          m5 ← save fuel m4;
          m6 ← updateRootInfo m5;
          Some (emit (countChanged (count m6 + 1) (count m6))
                  (emit (desktopRemoved desktop) m6))
    end.

(** The growing loop of setCount: [n] new desktops at the end. *)
Fixpoint append_desktops (n : nat) m : list vdp * Manager R C :=
  match n with
  | O => ([], m)
  | S n' =>
      let x11Number := count m + 1 in
      let nm := defaultName x11Number in
      let '(id, m1) := if s_loadingDesktopSettings m then ("", m) else generateDesktopId m in
      let '(p, m2) := newDesktop (mkVD id nm (i32 x11Number)) m1 in
      let m3 := m2 <| m_desktops := m_desktops m2 ++ [p] |> in
      let '(ps, m4) := append_desktops n' (rootSetDesktopName x11Number nm m3) in
      (p :: ps, m4)
  end.

(** The shrinking branch of setCount, up to the removal signals. *)
Definition truncate_desktops (cnt : Z) m : option (Manager R C) :=
  let m1 := m <| m_desktops := take (Z.to_nat cnt) (m_desktops m) |> in
  m2 ←
    match m_current m1 with
    | None => Some m1
    | Some _ =>
        oldCurrent ← current m1;
        let newCurrent := Z.min oldCurrent cnt in
        p ← m_desktops m1 !! Z.to_nat (newCurrent - 1);
        let m' := m1 <| m_current := Some p |> in
        Some (if oldCurrent =? newCurrent then m'
              else emit (currentChanged oldCurrent newCurrent) m')
    end;
  Some (foldl (fun m d => emit (desktopRemoved d) m) m2
          (drop (Z.to_nat cnt) (m_desktops m))).

Definition setCount (fuel : nat) (cnt : Z) m : option (Manager R C) :=
  let cnt := qBound 1 (u32 cnt) maximum in
  if cnt =? count m then Some m
  else
    let oldCount := count m in
    '(newDesktops, m1) ←
      (if cnt <? count m then m' ← truncate_desktops cnt m; Some ([], m')
       else Some (append_desktops (Z.to_nat (cnt - count m)) m));
    m2 ← updateRootInfo m1;
    m3 ← (if s_loadingDesktopSettings m2 then Some m2 else save fuel m2);
    let m4 := foldl (fun m d => emit (desktopCreated d) m) m3 newDesktops in
    Some (emit (countChanged oldCount (count m4)) m4).

(** One iteration of the loading loop, for desktop number [i]. *)
Definition load_desktop (c : C) (i : Z) m : option (Manager R C) :=
  let s := readString c (key_Name i) (i18n_Desktop i) in
  let m1 := rootSetDesktopName i s m in
  p ← m_desktops m1 !! Z.to_nat (i - 1);
  m2 ← setName p s m1;
  let sId := readString c (key_Id i) "" in
  vd ← heap m2 !! p;
  if bool_decide (m_id vd = "") then
    if bool_decide (sId = "") then
      let '(id, m3) := generateDesktopId m2 in setId p id m3
    else setId p sId m2
  else if bool_decide (sId = "") || bool_decide (m_id vd = sId) then Some m2
  else None.

Fixpoint load_desktops (c : C) (n : nat) (i : Z) m : option (Manager R C) :=
  match n with
  | O => Some m
  | S n' => m1 ← load_desktop c i m; load_desktops c n' (i + 1) m1
  end.

(** VirtualDesktopManager::load. Without a configuration it returns with the
    loading flag still set. *)
Definition load (fuel : nat) m : option (Manager R C) :=
  let m0 := m <| s_loadingDesktopSettings := true |> in
  match m_config m0 with
  | None => Some m0
  | Some c =>
      let n := i32 (readInt c "Number" 1) in
      m1 ← setCount fuel n m0;
      m2 ← load_desktops c (Z.to_nat n) 1 m1;
      let rows := i32 (readInt c "Rows" 2) in
      Some (m2 <| m_rows := u32 (qBound 1 rows n) |> <| s_loadingDesktopSettings := false |>)
  end.

(** The desktop names sent to the root info by setRootInfo. *)
Fixpoint root_names (ds : list vdp) m : option (Manager R C) :=
  match ds with
  | [] => Some m
  | d :: ds' =>
      vd ← heap m !! d;
      root_names ds' (rootSetDesktopName (u32 (m_x11DesktopNumber vd)) (m_name vd) m)
  end.

Definition setRootInfo (info : option R) m : option (Manager R C) :=
  let m0 := m <| m_rootInfo := info |> in
  match info with
  | None => Some m0
  | Some ri =>
      if m_rows m0 =? 0 then None
      else
        let columns := layout_columns (count m0) (m_rows m0) in
        m1 ← updateRootInfo
               (m0 <| m_rootInfo :=
                        Some (ri_setDesktopLayout Horizontal columns (m_rows m0) ri) |>);
        cur ← m_current m1;
        vd ← heap m1 !! cur;
        root_names (m_desktops m1)
          (m1 <| m_rootInfo :=
                   ri_setCurrentDesktop (u32 (m_x11DesktopNumber vd)) <$> m_rootInfo m1 |>)
  end.

Definition setConfig (c : option C) m : Manager R C := m <| m_config := c |>.
End Operations.


End Manager.
