(* ===== verification/VirtualDesktopsFacts.v ===== *)
(** * Virtual desktops: specification and theorems

    The invariant of VirtualDesktopManager, navigation as cyclic successor in a
    row or column, the layout computation, creation, removal and resizing of the
    list of desktops as list operations, and the configuration round trip. *)

From S2P Require Import Prelude DesktopGrid VirtualDesktops.

Module ManagerFacts.
Import Grid Manager.

(** ** Specification *)

(** Laws of the KConfigGroup operations the manager relies on: an entry reads
    back as written until it is written again or deleted, entries of different
    keys are independent, [sync] changes nothing that is read. *)
Class KConfigLaws (C : Type) `{!KConfigGroup C} := {
  readString_write k v (c : C) d : readString (writeString k v c) k d = v;
  readString_write_ne k k' v (c : C) d :
    k <> k' -> readString (writeString k v c) k' d = readString c k' d;
  readString_writeInt k k' v (c : C) d :
    k <> k' -> readString (writeInt k v c) k' d = readString c k' d;
  readString_default k (c : C) d d' :
    readString c k d = d \/ readString c k d' = readString c k d;
  readString_delete k (c : C) d : readString (deleteEntry k c) k d = d;
  readString_delete_ne k k' (c : C) d :
    k <> k' -> readString (deleteEntry k c) k' d = readString c k' d;
  readString_sync (c : C) k d : readString (sync c) k d = readString c k d;
  readInt_write k v (c : C) d : readInt (writeInt k v c) k d = v;
  readInt_write_ne k k' v (c : C) d :
    k <> k' -> readInt (writeInt k v c) k' d = readInt c k' d;
  readInt_writeString k k' v (c : C) d :
    k <> k' -> readInt (writeString k v c) k' d = readInt c k' d;
  readInt_delete_ne k k' (c : C) d :
    k <> k' -> readInt (deleteEntry k c) k' d = readInt c k' d;
  readInt_sync (c : C) k d : readInt (sync c) k d = readInt c k d;
  hasKey_delete k k' (c : C) : hasKey c k = false -> hasKey (deleteEntry k' c) k = false;
}.

(** The root info reports a layout of at most 2^15 columns and rows. *)
Class BoundedLayout (R : Type) `{!NETRootInfo R} := {
  layout_bound (r : R) :
    0 <= (ri_desktopLayoutColumnsRows r).1 <= 2 ^ 15 /\
    0 <= (ri_desktopLayoutColumnsRows r).2 <= 2 ^ 15;
}.

Section Spec.
Context {R C : Type}.
Implicit Types m : Manager R C.

(** The abstract state of the manager: the desktops' ids and names in order. *)
Definition view m : list (option (string * string)) :=
  (fun p => (fun vd => (m_id vd, m_name vd)) <$> heap m !! p) <$> m_desktops m.

(** The desktops carry the x11 numbers 1, 2, ..., in order. *)
Definition numbered m : Prop :=
  forall (i : nat) p, m_desktops m !! i = Some p ->
    exists vd, heap m !! p = Some vd /\ u32 (m_x11DesktopNumber vd) = Z.of_nat i + 1.

(** The invariant of the list of desktops, and the one of the grid. *)
Record list_ok m : Prop := {
  ok_nodup : NoDup (m_desktops m);
  ok_numbered : numbered m;
  ok_alloc : forall p, p ∈ m_desktops m -> (p < next_vdp m)%nat;
  ok_count : count m <= maximum;
  ok_rows : 1 <= m_rows m <= 2 ^ 20;
  ok_current : forall p, m_current m = Some p -> p ∈ m_desktops m;
}.

Record grid_ok m : Prop := {
  ok_grid : Grid.wf (m_grid m);
  ok_cells : concat (cells (m_grid m)) ≡ₚ m_desktops m;
  ok_nonempty : 1 <= count m;
}.

Definition ok m : Prop := list_ok m /\ grid_ok m.
End Spec.

(** ** Navigation *)

Section Navigation.
Context {R C : Type}.
Implicit Types m : Manager R C.

Lemma desktop_cell m d :
  ok m -> d ∈ m_desktops m -> exists x y, cell (m_grid m) x y = Some d.
Proof. intros [_ [_ Hc _]] Hd. rewrite <- Hc in Hd. by apply cell_elem. Qed.

Lemma cell_desktop m d x y :
  ok m -> cell (m_grid m) x y = Some d -> d ∈ m_desktops m.
Proof. intros [_ [_ Hc _]] Hd. rewrite <- Hc. apply cell_elem. eauto. Qed.

(** Unfold a navigation that starts at the cell (x, y). *)
Lemma start_at m d : is_Some (m_current m) -> start_desktop m (Some d) = Some d.
Proof. intros [c Hc]. unfold start_desktop. by rewrite Hc. Qed.

Lemma row_bounds g x y d row :
  Grid.wf g -> cell g x y = Some d -> cells g !! y = Some row ->
  (x < length row)%nat /\ (length row <= Z.to_nat (width g))%nat /\
  Z.of_nat (Z.to_nat (width g)) = width g.
Proof.
  intros Hwf Hc Hy. unfold cell in Hc. rewrite Hy in Hc. simpl in Hc.
  pose proof (lookup_lt_Some _ _ _ Hc).
  pose proof (Forall_lookup_1 _ _ _ _ (wf_width _ Hwf) Hy). simpl in *. lia.
Qed.

Lemma col_bounds g x y d :
  Grid.wf g -> cell g x y = Some d ->
  (y < col_height g x)%nat /\ (col_height g x <= Z.to_nat (height g))%nat /\
  Z.of_nat (Z.to_nat (height g)) = height g.
Proof.
  intros Hwf Hc. unfold cell in Hc. apply bind_Some in Hc as (row & Hy & Hx).
  pose proof (lookup_lt_Some _ _ _ Hx) as Hlt.
  apply (stairs_prefix _ x (wf_stairs _ Hwf) y row Hy) in Hlt.
  pose proof (wf_rows _ Hwf). unfold col_height.
  pose proof (length_filter (fun r : list vdp => (x < length r)%nat) (cells g)). lia.
Qed.

Lemma horizontal_nav m d x y row wrap :
  ok m -> is_Some (m_current m) -> cell (m_grid m) x y = Some d ->
  cells (m_grid m) !! y = Some row ->
  toRight m (Some d) wrap
    = Some (if decide (S x < length row)%nat then nth (S x) row d
            else if wrap then nth 0 row d else d) /\
  toLeft m (Some d) wrap
    = Some (if decide (0 < x)%nat then nth (x - 1) row d
            else if wrap then nth (length row - 1) row d else d).
Proof.
  intros [Hl [Hg Hc _]] Hcur Hcell Hy.
  pose proof (row_bounds _ _ _ _ _ Hg Hcell Hy) as (Hx & Hw & HwZ).
  pose proof (axis_row _ y row d Hg Hy) as Hax.
  unfold toRight, toLeft. rewrite start_at by done. simpl.
  rewrite (gridCoords_cell _ _ _ _ Hg Hcell).
  rewrite (proj2 (Z.ltb_ge _ _)) by lia. rewrite <- HwZ.
  split; [eapply (nav_inc _ _ _ _ Hax) | eapply (nav_dec _ _ _ _ Hax)]; lia.
Qed.

Lemma vertical_nav m d x y wrap :
  ok m -> is_Some (m_current m) -> cell (m_grid m) x y = Some d ->
  below m (Some d) wrap
    = Some (if decide (S y < col_height (m_grid m) x)%nat
            then default d (cell (m_grid m) x (S y))
            else if wrap then default d (cell (m_grid m) x 0) else d) /\
  above m (Some d) wrap
    = Some (if decide (0 < y)%nat then default d (cell (m_grid m) x (y - 1))
            else if wrap then default d (cell (m_grid m) x (col_height (m_grid m) x - 1))
            else d).
Proof.
  intros [Hl [Hg Hc _]] Hcur Hcell.
  pose proof (col_bounds _ _ _ _ Hg Hcell) as (Hy & Hh & HhZ).
  pose proof (axis_col _ x d Hg) as Hax.
  unfold below, above. rewrite start_at by done. simpl.
  rewrite (gridCoords_cell _ _ _ _ Hg Hcell).
  rewrite (proj2 (Z.ltb_ge _ _)) by lia. rewrite <- HhZ.
  split; [eapply (nav_inc _ _ _ _ Hax) | eapply (nav_dec _ _ _ _ Hax)]; lia.
Qed.

Lemma cell_nth g x y row d :
  cells g !! y = Some row -> (x < length row)%nat -> cell g x y = Some (nth x row d).
Proof.
  intros Hy Hx. unfold cell. rewrite Hy. simpl. rewrite nth_lookup.
  by destruct (lookup_lt_is_Some_2 row x Hx) as [? ->].
Qed.

Lemma cell_col g x y :
  Grid.wf g -> (y < col_height g x)%nat -> exists d, cell g x y = Some d.
Proof.
  intros Hwf Hy. pose proof (length_filter (fun r : list vdp => (x < length r)%nat) (cells g)).
  destruct (lookup_lt_is_Some_2 (cells g) y) as [row Hrow]; [unfold col_height in Hy; lia|].
  apply (stairs_prefix _ x (wf_stairs _ Hwf) y row Hrow) in Hy.
  exists (nth x row O). by apply cell_nth.
Qed.

(** Wrapping horizontal navigation stays in the row and is invertible. *)
Lemma right_left m d :
  ok m -> is_Some (m_current m) -> d ∈ m_desktops m ->
  (exists r, toRight m (Some d) true = Some r /\ toLeft m (Some r) true = Some d) /\
  (exists l, toLeft m (Some d) true = Some l /\ toRight m (Some l) true = Some d).
Proof.
  intros Hok Hcur (x & y & Hcell)%desktop_cell; [|done].
  pose proof Hcell as Hcell'. unfold cell in Hcell'.
  apply bind_Some in Hcell' as (row & Hy & Hx).
  pose proof (lookup_lt_Some _ _ _ Hx) as Hlt.
  assert (forall k e, (k < length row)%nat -> nth k row e = nth k row d) as Hnth.
  { intros. by apply nth_indep. }
  assert (nth x row d = d) as Hd by (rewrite nth_lookup, Hx; done).
  assert (forall k : nat, (k < length row)%nat -> let e := nth k row d in
    toRight m (Some e) true = Some (nth (if decide (S k < length row)%nat then S k else O) row d)
    /\ toLeft m (Some e) true
       = Some (nth (if decide (0 < k)%nat then (k - 1)%nat else (length row - 1)%nat) row d))
    as Hstep.
  { intros k Hk e. destruct (horizontal_nav m e k y row true) as [-> ->];
      [done|done|by apply cell_nth|done|].
    split; f_equal; case_decide; apply Hnth; lia. }
  destruct (Hstep x Hlt) as [Hr Hl]. simpl in Hr, Hl. rewrite Hd in Hr, Hl.
  split; eexists; (split; [eassumption|]);
    repeat case_decide; (etrans; [apply Hstep; lia|]); f_equal;
    rewrite <- Hd at 2; f_equal; case_decide; lia.
Qed.

(** Wrapping vertical navigation stays in the column and is invertible. *)
Lemma below_above m d :
  ok m -> is_Some (m_current m) -> d ∈ m_desktops m ->
  (exists r, below m (Some d) true = Some r /\ above m (Some r) true = Some d) /\
  (exists l, above m (Some d) true = Some l /\ below m (Some l) true = Some d).
Proof.
  intros Hok Hcur (x & y & Hcell)%desktop_cell; [|done].
  pose proof (proj2 Hok) as [Hg _].
  pose proof (col_bounds _ _ _ _ Hg Hcell) as (Hlt & _ & _).
  set (n := col_height (m_grid m) x) in *.
  assert (forall k, (k < n)%nat -> exists e, cell (m_grid m) x k = Some e) as Hcol.
  { intros. by apply cell_col. }
  assert (forall k : nat, (k < n)%nat -> forall e, cell (m_grid m) x k = Some e ->
    below m (Some e) true
      = cell (m_grid m) x (if decide (S k < n)%nat then S k else O) /\
    above m (Some e) true
      = cell (m_grid m) x (if decide (0 < k)%nat then (k - 1)%nat else (n - 1)%nat))
    as Hstep.
  { intros k Hk e He. destruct (vertical_nav m e x k true) as [-> ->]; [done..|].
    fold n. clearbody n. split; case_decide;
      match goal with |- _ = cell _ _ ?b => destruct (Hcol b) as [? ->] end; auto; lia. }
  clearbody n. destruct (Hstep y Hlt d Hcell) as [Hr Hl].
  split.
  - destruct (Hcol (if decide (S y < n)%nat then S y else O)) as [e He];
      [repeat case_decide; lia|].
    exists e. split; [congruence|].
    edestruct (fun H => Hstep _ H e He) as [_ ->]; [repeat case_decide; lia|].
    rewrite <- Hcell. f_equal. repeat case_decide; lia.
  - destruct (Hcol (if decide (0 < y)%nat then (y - 1)%nat else (n - 1)%nat)) as [e He];
      [repeat case_decide; lia|].
    exists e. split; [congruence|].
    edestruct (fun H => Hstep _ H e He) as [-> _]; [repeat case_decide; lia|].
    rewrite <- Hcell. f_equal. repeat case_decide; lia.
Qed.

(** Along the list: the successor and predecessor position, cyclically. *)
Lemma next_ok m i d :
  list_ok m -> is_Some (m_current m) -> m_desktops m !! i = Some d ->
  next m (Some d) true = m_desktops m !! (if decide (S i < length (m_desktops m))%nat then S i else O) /\
  previous m (Some d) true
    = m_desktops m !! (if decide (0 < i)%nat then (i - 1)%nat else (length (m_desktops m) - 1)%nat).
Proof.
  intros Hok Hcur Hi. pose proof (lookup_lt_Some _ _ _ Hi).
  unfold next, previous. rewrite start_at by done. cbn.
  rewrite (index_of_lookup _ _ _ (ok_nodup _ Hok) Hi). cbn. split.
  - case_decide.
    + by destruct (lookup_lt_is_Some_2 (m_desktops m) (S i)) as [? ->].
    + rewrite (proj2 (lookup_ge_None _ _)) by lia. apply head_lookup.
  - destruct i as [|i].
    + rewrite decide_False by lia. rewrite last_lookup. f_equal. lia.
    + rewrite decide_True by lia. f_equal. lia.
Qed.

Lemma next_previous m d :
  list_ok m -> is_Some (m_current m) -> d ∈ m_desktops m ->
  (exists r, next m (Some d) true = Some r /\ previous m (Some r) true = Some d) /\
  (exists l, previous m (Some d) true = Some l /\ next m (Some l) true = Some d).
Proof.
  intros Hok Hcur [i Hi]%list_elem_of_lookup. pose proof (lookup_lt_Some _ _ _ Hi).
  destruct (next_ok m i d Hok Hcur Hi) as [-> ->].
  set (n := length (m_desktops m)) in *.
  assert (forall k, (k < n)%nat -> exists e, m_desktops m !! k = Some e) as Hn
    by (intros k Hk; by destruct (lookup_lt_is_Some_2 _ k Hk) as [e ->]; eauto).
  split.
  - destruct (Hn (if decide (S i < n)%nat then S i else O)) as [e He]; [case_decide; lia|].
    exists e. split; [done|]. rewrite (proj2 (next_ok m _ e Hok Hcur He)), <- Hi. fold n.
    f_equal. repeat case_decide; lia.
  - destruct (Hn (if decide (0 < i)%nat then (i - 1)%nat else (n - 1)%nat)) as [e He];
      [case_decide; lia|].
    exists e. split; [done|]. rewrite (proj1 (next_ok m _ e Hok Hcur He)), <- Hi. fold n.
    f_equal. repeat case_decide; lia.
Qed.
End Navigation.


(** ** Layout *)

Section Layout.
Context {R C : Type} `{!NETRootInfo R, !KConfigGroup C, !BoundedLayout R}.
Implicit Types m : Manager R C.

Lemma grow_horizontal fuel w h cnt :
  0 <= w -> 0 < h -> cnt - w * h <= Z.of_nat fuel ->
  (w + Z.of_nat fuel) * h < 2 ^ 32 ->
  exists w', grow_grid fuel Horizontal w h cnt = Some (w', h) /\
    w <= w' <= w + Z.of_nat fuel /\ cnt <= w' * h /\ (w < w' -> (w' - 1) * h < cnt).
Proof.
  revert w; induction fuel as [|fuel IH]; intros w Hw Hh Hf Hb; simpl;
    rewrite (u32_small (w * h)) by nia.
  - rewrite (proj2 (Z.ltb_ge _ _)) by lia. exists w. split_and!; auto; lia.
  - destruct (Z.ltb_spec (w * h) cnt) as [Hlt|Hge]; [|exists w; split_and!; auto; lia].
    rewrite u32_small by nia.
    destruct (IH (w + 1)) as (w' & -> & ? & ? & Hmin); [nia..|].
    exists w'. split_and!; auto; [lia|lia|]. intros _.
    destruct (decide (w + 1 = w')) as [<-|]; [nia|apply Hmin; lia].
Qed.

Lemma grow_vertical fuel w h cnt :
  0 <= h -> 0 < w -> cnt - w * h <= Z.of_nat fuel ->
  w * (h + Z.of_nat fuel) < 2 ^ 32 ->
  exists h', grow_grid fuel Vertical w h cnt = Some (w, h') /\
    h <= h' <= h + Z.of_nat fuel /\ cnt <= w * h' /\ (h < h' -> w * (h' - 1) < cnt).
Proof.
  revert h; induction fuel as [|fuel IH]; intros h Hh Hw Hf Hb; simpl;
    rewrite (u32_small (w * h)) by nia.
  - rewrite (proj2 (Z.ltb_ge _ _)) by lia. exists h. split_and!; auto; lia.
  - destruct (Z.ltb_spec (w * h) cnt) as [Hlt|Hge]; [|exists h; split_and!; auto; lia].
    rewrite u32_small by nia.
    destruct (IH (h + 1)) as (h' & -> & ? & ? & Hmin); [nia..|].
    exists h'. split_and!; auto; [lia|lia|]. intros _.
    destruct (decide (h + 1 = h')) as [<-|]; [nia|apply Hmin; lia].
Qed.

(** Rounding up a division: large enough, and no larger than needed. *)
Lemma div_up a b : 0 < a -> 0 < b ->
  1 <= (a + b - 1) / b <= a /\ a <= (a + b - 1) / b * b /\
  ((a + b - 1) / b - 1) * b < a.
Proof. intros Ha Hb. pose proof (Z.div_mod (a + b - 1) b).
  pose proof (Z.mod_pos_bound (a + b - 1) b). nia. Qed.

Lemma grow_grid_ok o w h cnt :
  0 < w <= 2 ^ 15 + 20 -> 0 < h <= 2 ^ 15 + 20 -> 1 <= cnt <= 20 ->
  exists w' h', grow_grid (Z.to_nat cnt) o w h cnt = Some (w', h') /\
    0 < w' <= 2 ^ 16 /\ 0 < h' <= 2 ^ 16 /\ cnt <= w' * h'.
Proof.
  intros Hw Hh Hc. destruct o.
  - destruct (grow_horizontal (Z.to_nat cnt) w h cnt) as (w' & -> & ? & ? & _);
      [lia|lia|nia|nia|]. exists w', h. split_and!; auto; lia.
  - destruct (grow_vertical (Z.to_nat cnt) w h cnt) as (h' & -> & ? & ? & _);
      [lia|lia|nia|nia|]. exists w, h'. split_and!; auto; lia.
Qed.

Lemma update_grid_ok w h o ds :
  NoDup ds -> 0 < w <= 2 ^ 16 -> 0 < h <= 2 ^ 16 -> Z.of_nat (length ds) <= w * h ->
  Grid.wf (Grid.update (i32 w) (i32 h) o ds) /\
  concat (cells (Grid.update (i32 w) (i32 h) o ds)) ≡ₚ ds.
Proof.
  intros Hnd Hw Hh Hl. rewrite !i32_small by lia. split.
  - apply update_wf; [done|lia..].
  - rewrite update_cells_perm, !u32_small by lia. rewrite take_ge by nia. done.
Qed.

(** The layout computation terminates and places every desktop in the grid. *)
Lemma setNETDesktopLayout_ok o w h m :
  NoDup (m_desktops m) -> 1 <= count m <= maximum ->
  0 <= w <= 2 ^ 15 -> 0 <= h <= 2 ^ 15 -> (0 < w \/ 0 < h) ->
  exists w' h', setNETDesktopLayout o w h m =
    Some (emit (rowsChanged h') (emit (layoutChanged (i32 w') (i32 h'))
            (m <| m_rows := Z.max 1 h' |>
               <| m_grid := Grid.update (i32 w') (i32 h') o (m_desktops m) |>)))
    /\ 0 < w' <= 2 ^ 16 /\ 0 < h' <= 2 ^ 16 /\ count m <= w' * h'.
Proof.
  unfold maximum. intros Hnd Hc Hw Hh Hor. unfold setNETDesktopLayout.
  assert ((0 <? w) || (0 <? h) = true) as ->
    by (rewrite orb_true_iff, !Z.ltb_lt; lia).
  cbn [negb].
  set (w0 := if (w <=? 0) && (0 <? h) then _ else w).
  set (h0 := if (w <=? 0) && (0 <? h) then h else _).
  assert (0 < w0 <= 2 ^ 15 + 20 /\ 0 < h0 <= 2 ^ 15 + 20) as [Hw0 Hh0].
  { pose proof (div_up (count m) h) as Hdh. pose proof (div_up (count m) w) as Hdw.
    subst w0 h0.
    destruct (Z.leb_spec w 0), (Z.ltb_spec 0 h), (Z.leb_spec h 0), (Z.ltb_spec 0 w);
      simpl; rewrite ?u32_small by lia; lia. }
  destruct (grow_grid_ok o w0 h0 (count m) Hw0 Hh0 Hc) as (w' & h' & -> & ? & ? & ?).
  exists w', h'. auto.
Qed.

Lemma updateLayout_ok m :
  NoDup (m_desktops m) -> 1 <= count m <= maximum -> 1 <= m_rows m ->
  exists r g sg, updateLayout m
    = Some (m <| m_rows := r |> <| m_grid := g |> <| signals := sg |>) /\
    1 <= r <= 2 ^ 20 /\ Grid.wf g /\ concat (cells g) ≡ₚ m_desktops m.
Proof.
  intros Hnd Hc Hr. unfold updateLayout.
  rewrite (proj2 (Z.eqb_neq _ _)) by lia.
  set (t := match m_rootInfo m with None => _ | Some ri => _ end).
  assert (0 <= t.1.1 <= 2 ^ 15 /\ 1 <= t.1.2 <= 2 ^ 15) as [Ht1 Ht2].
  { subst t. unfold maximum in Hc. destruct (m_rootInfo m) as [ri|]; simpl.
    - destruct (layout_bound ri). destruct (ri_desktopLayoutColumnsRows ri). simpl in *. lia.
    - pose proof (Z.div_le_upper_bound (count m) (Z.min (m_rows m) (count m)) (2 ^ 15)).
      pose proof (Z.div_pos (count m) (Z.min (m_rows m) (count m))). nia. }
  destruct t as [[columns rows1] o]. simpl in Ht1, Ht2.
  set (rows2 := if columns =? 0 then _ else rows1).
  set (columns2 := if columns =? 0 then _ else columns).
  assert (1 <= rows2 <= 2 ^ 15 /\ 0 <= columns2 <= 2 ^ 15) as [Hr2 Hc2].
  { subst rows2 columns2. unfold maximum in Hc.
    destruct (columns =? 0); [|lia].
    destruct (count m =? 1).
    - rewrite Z.div_1_r. lia.
    - pose proof (Z.div_le_upper_bound (count m) 2 20).
      pose proof (Z.div_pos (count m) 2). lia. }
  rewrite (u32_small columns2) by lia.
  destruct (setNETDesktopLayout_ok o columns2 rows2 (m <| m_rows := rows2 |>))
    as (w' & h' & -> & Hw' & Hh' & Hfit); [done|done|lia..|].
  destruct (update_grid_ok w' h' o (m_desktops m)) as [Hwf Hp]; [done|done|done|exact Hfit|].
  eexists _, _, _. split; [reflexivity|]. split; [lia|]. done.
Qed.

Lemma updateRootInfo_ok m :
  NoDup (m_desktops m) -> 1 <= count m <= maximum -> 1 <= m_rows m ->
  exists r g sg ri, updateRootInfo m
    = Some (m <| m_rootInfo := ri |> <| m_rows := r |> <| m_grid := g |>
              <| signals := sg |>) /\
    1 <= r <= 2 ^ 20 /\ Grid.wf g /\ concat (cells g) ≡ₚ m_desktops m.
Proof.
  intros Hnd Hc Hr. unfold updateRootInfo.
  match goal with |- context [updateLayout ?m1] =>
    destruct (updateLayout_ok m1) as (r & g & sg & -> & ?); [exact Hnd|exact Hc|exact Hr|]
  end.
  eexists r, g, sg, _. split; [reflexivity|done].
Qed.
End Layout.


(** ** Creating, removing and resizing *)

Section ListOps.
Context {R C : Type} `{!NETRootInfo R, !KConfigGroup C, !BoundedLayout R, !KConfigLaws C}.
Context (createUuid : nat -> string) (i18n_Desktop : Z -> string).
Implicit Types m : Manager R C.

Lemma setX11DesktopNumber_ok p number vd m :
  heap m !! p = Some vd -> 0 < number < 2 ^ 31 ->
  exists vd' sg, setX11DesktopNumber p number m
    = Some (m <| heap := <[p := vd']> (heap m) |> <| signals := sg |>) /\
    m_id vd' = m_id vd /\ m_name vd' = m_name vd /\
    u32 (m_x11DesktopNumber vd') = number.
Proof.
  intros Hp Hn. unfold setX11DesktopNumber. rewrite Hp. cbn.
  destruct (Z.eqb_spec (u32 (m_x11DesktopNumber vd)) number) as [Heq|Hne].
  - exists vd, (signals m). split; [|done].
    rewrite insert_id by done. by destruct m.
  - rewrite i32_small by lia. rewrite (proj2 (Z.eqb_neq _ _)) by lia.
    eexists _, _. split; [reflexivity|]. cbn. split_and!; [done..|].
    apply u32_small; lia.
Qed.

Lemma renumber_ok ds : forall i m,
  NoDup ds -> (forall p, p ∈ ds -> is_Some (heap m !! p)) ->
  0 <= i -> i + Z.of_nat (length ds) < 2 ^ 31 - 1 ->
  exists h sg ri, renumber i ds m
    = Some (m <| heap := h |> <| signals := sg |> <| m_rootInfo := ri |>) /\
    (forall p, p ∉ ds -> h !! p = heap m !! p) /\
    (forall p vd, heap m !! p = Some vd ->
       exists vd', h !! p = Some vd' /\ m_id vd' = m_id vd /\ m_name vd' = m_name vd) /\
    (forall k p, ds !! k = Some p ->
       exists vd, h !! p = Some vd /\ u32 (m_x11DesktopNumber vd) = i + Z.of_nat k + 1).
Proof.
  induction ds as [|d ds IH]; intros i m Hnd Hin Hi Hb; cbn [renumber length] in *.
  - exists (heap m), (signals m), (m_rootInfo m). split; [by destruct m|].
    split_and!; [done|eauto|done].
  - apply NoDup_cons in Hnd as [Hd Hnd].
    destruct (Hin d) as [vd Hvd]; [by left|].
    destruct (setX11DesktopNumber_ok d (i + 1) vd m Hvd) as (vd' & sg & -> & Hid & Hnm & Hx);
      [lia|].
    cbn. rewrite lookup_insert_eq. cbn.
    match goal with |- context [renumber _ _ ?m1] => destruct (IH (i + 1) m1)
      as (h & sg' & ri & -> & Hout & Hkeep & Hnum) end; [done| |lia|lia|].
    { intros q Hq. cbn. rewrite lookup_insert. case_decide; [eauto|]. apply Hin. by right. }
    cbn in *. exists h, sg', ri. split; [reflexivity|]. split_and!.
    + intros q [Hqd Hq]%not_elem_of_cons. rewrite Hout by done. by apply lookup_insert_ne.
    + intros q vq Hq. destruct (decide (q = d)) as [->|Hqd].
      * rewrite Hvd in Hq. simplify_eq.
        rewrite (Hout d Hd), lookup_insert_eq. eauto.
      * apply Hkeep. by rewrite lookup_insert_ne.
    + intros [|k] q Hq; simplify_eq/=.
      * rewrite (Hout q Hd), lookup_insert_eq. eexists; split; [done|]. lia.
      * destruct (Hnum k q Hq) as (v & ? & ?). exists v. split; [done|]. lia.
Qed.

(** *** Saving *)

Lemma delete_stale_ok fuel : forall i (c : C),
  (exists k, (k <= fuel)%nat /\ hasKey c (key_Id (i + Z.of_nat k)) = false) ->
  exists c', delete_stale fuel i c = Some c'.
Proof.
  induction fuel as [|fuel IH]; intros i c (k & Hk & Hn); simpl.
  - replace (i + Z.of_nat k) with i in Hn by lia. rewrite Hn. eauto.
  - destruct (hasKey c (key_Id i)) eqn:E; [|eauto].
    destruct k as [|k]; [replace (i + Z.of_nat 0) with i in Hn by lia; congruence|].
    apply IH. exists k. split; [lia|].
    replace (i + 1 + Z.of_nat k) with (i + Z.of_nat (S k)) by lia.
    by apply hasKey_delete, hasKey_delete.
Qed.

Lemma save_desktop_ok (i : nat) c m p vd :
  m_desktops m !! i = Some p -> heap m !! p = Some vd -> count m < 2 ^ 31 ->
  exists c' ri, save_desktop i18n_Desktop (Z.of_nat i + 1) (c, m)
    = Some (c', m <| m_rootInfo := ri |>).
Proof.
  intros Hp Hvd Hc. unfold save_desktop, name.
  pose proof (lookup_lt_Some _ _ _ Hp).
  rewrite (u32_small (Z.of_nat i + 1 - 1)) by (unfold count in *; lia).
  rewrite (proj2 (Z.ltb_lt _ _)) by (unfold count in *; lia).
  replace (Z.to_nat (Z.of_nat i + 1 - 1)) with i by lia.
  rewrite Hp. cbn. rewrite Hvd. cbn.
  destruct (bool_decide (m_name vd = "")); cbn; rewrite Hp; cbn; rewrite Hvd; cbn; [eauto|].
  eexists _, (m_rootInfo m). by destruct m.
Qed.

Lemma save_desktops_ok n : forall (i : nat) c m,
  (forall p, p ∈ m_desktops m -> is_Some (heap m !! p)) ->
  (i + n <= length (m_desktops m))%nat -> count m < 2 ^ 31 ->
  exists c' ri, save_desktops i18n_Desktop n (Z.of_nat i + 1) (c, m)
    = Some (c', m <| m_rootInfo := ri |>).
Proof.
  induction n as [|n IH]; intros i c m Hh Hl Hc; cbn [save_desktops].
  - eexists _, (m_rootInfo m). by destruct m.
  - destruct (lookup_lt_is_Some_2 (m_desktops m) i) as [p Hp]; [lia|].
    destruct (Hh p) as [vd Hvd]; [by eapply list_elem_of_lookup_2|].
    destruct (save_desktop_ok i c m p vd) as (c1 & ri & ->); [done..|].
    cbn -[save_desktops Z.of_nat].
    replace (Z.of_nat i + 1 + 1) with (Z.of_nat (S i) + 1) by lia.
    match goal with |- context [save_desktops _ n _ (c1, ?m1)] =>
      destruct (IH (S i) c1 m1) as (c' & ri' & Heq); [done|cbn; lia|done|]
    end.
    rewrite Heq. eauto.
Qed.

(** The stale entries of the configuration end below [fuel]. *)
Definition saveable (fuel : nat) m : Prop :=
  forall c, m_config m = Some c ->
    exists n : nat, maximum < Z.of_nat n <= Z.of_nat fuel /\ hasKey c (key_Id (Z.of_nat n)) = false.

Lemma save_ok fuel m :
  (forall p, p ∈ m_desktops m -> is_Some (heap m !! p)) ->
  count m <= maximum -> saveable fuel m ->
  exists c ri, save i18n_Desktop fuel m
    = Some (m <| m_config := c |> <| m_rootInfo := ri |>).
Proof.
  unfold maximum, saveable. intros Hh Hc Hs. unfold save.
  assert (exists c ri, Some m = Some (m <| m_config := c |> <| m_rootInfo := ri |>)) as Hid.
  { exists (m_config m), (m_rootInfo m). by destruct m. }
  destruct (s_loadingDesktopSettings m); [done|].
  destruct (m_config m) as [c|] eqn:Hcfg; [|exact Hid].
  destruct (Hs c eq_refl) as (n & Hn & Hkey).
  destruct (delete_stale_ok fuel (count m + 1) c) as [c1 ->].
  { exists (n - Z.to_nat (count m + 1))%nat. split; [lia|]. unfold maximum in *.
    replace (count m + 1 + _) with (Z.of_nat n) by (unfold count in *; lia). done. }
  cbn -[save_desktops]. change 1 with (Z.of_nat 0 + 1).
  destruct (save_desktops_ok (length (m_desktops m)) 0
    (writeInt "Number" (count m) c1) m) as (c' & ri & ->); [done|lia|lia|].
  cbn. eauto.
Qed.

(** *** The operations *)

Lemma ok_heap m p : numbered m -> p ∈ m_desktops m -> is_Some (heap m !! p).
Proof. intros Hn [i Hi]%list_elem_of_lookup. destruct (Hn _ _ Hi) as (? & -> & _). eauto. Qed.

(** The view of a list of desktops over a heap. *)
Definition view_of (h : gmap vdp VirtualDesktop) (ds : list vdp) :=
  (fun p => (fun vd => (m_id vd, m_name vd)) <$> h !! p) <$> ds.

Lemma view_of_ext h h' ds :
  (forall p, p ∈ ds -> (fun vd => (m_id vd, m_name vd)) <$> h' !! p
                     = (fun vd => (m_id vd, m_name vd)) <$> h !! p) ->
  view_of h' ds = view_of h ds.
Proof. intros H. apply list_fmap_ext. intros i p Hp. apply H. by eapply list_elem_of_lookup_2. Qed.

(** Renumbering from position [k] on makes the whole list numbered, when it
    was numbered before [k]. *)
Lemma renumber_tail k m :
  NoDup (m_desktops m) -> count m <= maximum -> (k <= length (m_desktops m))%nat ->
  (forall p, p ∈ m_desktops m -> is_Some (heap m !! p)) ->
  (forall i p, (i < k)%nat -> m_desktops m !! i = Some p -> exists vd,
     heap m !! p = Some vd /\ u32 (m_x11DesktopNumber vd) = Z.of_nat i + 1) ->
  exists h sg ri, renumber (Z.of_nat k) (drop k (m_desktops m)) m
      = Some (m <| heap := h |> <| signals := sg |> <| m_rootInfo := ri |>) /\
    numbered (m <| heap := h |>) /\
    view (m <| heap := h |>) = view m.
Proof.
  unfold maximum. intros Hnd Hc Hk Hh Hfront.
  destruct (renumber_ok (drop k (m_desktops m)) (Z.of_nat k) m)
    as (h & sg & ri & -> & Hout & Hkeep & Hnum).
  - eapply sublist_NoDup; [done|apply sublist_drop].
  - intros p Hp. apply Hh. by eapply elem_of_submseteq, sublist_submseteq, sublist_drop.
  - lia.
  - rewrite length_drop. unfold count in Hc. lia.
  - exists h, sg, ri. split; [done|]. split.
    + intros i p Hp. cbn in Hp |- *. destruct (decide (i < k)%nat) as [Hik|Hik].
      * rewrite Hout; [by apply Hfront|]. intros [j Hj]%list_elem_of_lookup.
        rewrite lookup_drop in Hj. pose proof (NoDup_lookup _ _ _ _ Hnd Hp Hj). lia.
      * destruct (Hnum (i - k)%nat p) as (vd & ? & ?).
        { rewrite lookup_drop. by replace (k + (i - k))%nat with i by lia. }
        exists vd. split; [done|]. lia.
    + apply (view_of_ext (heap m) h). intros p Hp. destruct (Hh p Hp) as [vd Hvd].
      destruct (Hkeep p vd Hvd) as (vd' & -> & Hid & Hnm). rewrite Hvd. cbn. congruence.
Qed.

Lemma ok_emit s m : ok (emit s m) <-> ok m.
Proof. split; intros [[] []]; split; split; done. Qed.

(** Common end of the operations: save, then recompute the layout. *)
Lemma save_layout fuel m :
  list_ok m -> 1 <= count m -> saveable fuel m ->
  exists m5 m6, save i18n_Desktop fuel m = Some m5 /\ updateRootInfo m5 = Some m6 /\
    ok m6 /\ m_desktops m6 = m_desktops m /\ view m6 = view m /\
    m_current m6 = m_current m.
Proof.
  intros [Hnd Hnum Halloc Hcmax Hrows Hcur] Hc Hs.
  destruct (save_ok fuel m) as (c & ri & Hsave);
    [intros; by apply (ok_heap m)|done|done|].
  destruct (updateRootInfo_ok (m <| m_config := c |> <| m_rootInfo := ri |>))
    as (r & g & sg & ri' & Hup & Hr & Hwf & Hperm); [done|done|apply Hrows|].
  eexists _, _. split; [exact Hsave|]. split; [exact Hup|].
  split; [|done]. by split; split.
Qed.

Lemma view_insert h ds k p vd :
  h !! p = Some vd ->
  view_of h (insert_at k p ds) = insert_at k (Some (m_id vd, m_name vd)) (view_of h ds).
Proof.
  intros Hp. unfold view_of, insert_at.
  rewrite fmap_app, fmap_cons, Hp, fmap_take, fmap_drop. done.
Qed.

Lemma lookup_insert_at {A} k (x : A) l i :
  (k <= length l)%nat ->
  insert_at k x l !! i =
    if decide (i < k)%nat then l !! i else if decide (i = k) then Some x else l !! (i - 1)%nat.
Proof.
  intros Hk. unfold insert_at. repeat case_decide; subst.
  - rewrite lookup_app_l by (rewrite length_take; lia). by apply lookup_take_lt.
  - by rewrite list_lookup_middle by (rewrite length_take; lia).
  - rewrite lookup_app_r by (rewrite length_take; lia). rewrite length_take.
    replace (i - k `min` length l)%nat with (S (i - k - 1)) by lia. simpl.
    rewrite lookup_drop. f_equal. lia.
Qed.

(** Creating a desktop is an insertion in the list, at the requested position
    clamped to the end; the invariant and the current desktop are kept. *)
Lemma create_ok fuel position nm m :
  ok m -> count m < maximum -> 0 <= position -> saveable fuel m ->
  let k := Z.to_nat (Z.min position (count m)) in
  exists m', createVirtualDesktop createUuid i18n_Desktop fuel position nm m
      = Some (Some (next_vdp m), m') /\
    ok m' /\ m_desktops m' = insert_at k (next_vdp m) (m_desktops m) /\
    view m' = insert_at k (Some (createUuid (next_id m), nm)) (view m) /\
    m_current m' = m_current m.
Proof.
  intros [[Hnd Hnum Halloc Hcmax Hrows Hcur] [Hg Hcells Hne]] Hc Hpos Hs k.
  unfold createVirtualDesktop. rewrite (proj2 (Z.eqb_neq _ _)) by lia.
  replace (qBound 0 position (count m)) with (Z.of_nat k) by (unfold qBound; lia).
  assert (k <= length (m_desktops m))%nat as Hk by (unfold count in *; lia).
  assert (next_vdp m ∉ m_desktops m) as Hfresh by (intros Hin%Halloc; lia).
  rewrite Nat2Z.id. unfold generateDesktopId, newDesktop. cbn -[renumber save updateRootInfo drop].
  clearbody k. clear position Hpos.
  set (p := next_vdp m) in *. set (vd := mkVD _ nm _).
  match goal with |- context [renumber _ _ ?m3] => set (m3' := m3) end.
  assert (count m3' = count m + 1) as Hc3.
  { unfold count, m3'. cbn. rewrite length_insert_at. lia. }
  assert (heap m3' !! p = Some vd) as Hp by (cbn; apply lookup_insert_eq).
  assert (forall q, q ∈ m_desktops m -> heap m3' !! q = heap m !! q) as Hold.
  { intros q Hq. cbn. rewrite lookup_insert_ne; [done|]. by intros <-. }
  destruct (renumber_tail (S k) m3') as (h & sg & ri & Hren & Hnum' & Hview);
    [by apply NoDup_insert_at|lia|cbn; rewrite length_insert_at; lia| | |].
  { intros q [->|Hq]%elem_of_insert_at; [by rewrite Hp|]. rewrite Hold by done.
    by apply (ok_heap m). }
  { intros i q Hi Hq. cbn in Hq. rewrite lookup_insert_at in Hq by done.
    destruct (decide (i < k)%nat).
    - rewrite Hold by (by eapply list_elem_of_lookup_2). by apply Hnum.
    - rewrite decide_True in Hq by lia. simplify_eq. exists vd. split; [done|].
      replace i with k by lia. cbn. rewrite u32_i32. apply u32_small. unfold maximum, count in *. lia. }
  replace (Z.of_nat k + 1) with (Z.of_nat (S k)) by lia.
  change (m_desktops m3') with (insert_at k p (m_desktops m)) in Hren.
  rewrite Hren. cbn -[save updateRootInfo].
  match goal with |- context [save _ _ ?m4] =>
    destruct (save_layout fuel m4) as (m5 & m6 & Hs5 & Hs6 & Hok & Hds & Hv & Hcu)
  end; [split|change (1 <= count m3'); lia|exact Hs|]; try done.
  - by apply NoDup_insert_at.
  - intros q [->|Hq]%elem_of_insert_at; cbn; [lia|]. specialize (Halloc q Hq). lia.
  - change (count m3' <= maximum). lia.
  - intros q Hq. apply elem_of_insert_at. right. by apply Hcur.
  - rewrite Hs5. cbn -[updateRootInfo]. rewrite Hs6. cbn. eexists. split; [reflexivity|].
    split; [by rewrite !ok_emit|]. split; [done|]. split; [|done].
    etrans; [exact Hv|]. etrans; [exact Hview|].
    etrans; [exact (view_insert _ (m_desktops m) k p vd Hp)|].
    f_equal. apply view_of_ext. intros q Hq. by rewrite Hold.
Qed.


(** The position of the current desktop. *)
Lemma current_position m cur j :
  list_ok m -> m_desktops m !! j = Some cur ->
  exists vd, heap m !! cur = Some vd /\ u32 (m_x11DesktopNumber vd) = Z.of_nat j + 1.
Proof. intros Hok Hj. by apply (ok_numbered _ Hok). Qed.

Lemma numbered_delete_front m k i p :
  numbered m -> (i < k)%nat -> delete k (m_desktops m) !! i = Some p ->
  exists vd, heap m !! p = Some vd /\ u32 (m_x11DesktopNumber vd) = Z.of_nat i + 1.
Proof. intros Hn Hi. rewrite list_lookup_delete_lt by lia. apply Hn. Qed.

Lemma elem_of_list_delete {A} k (l : list A) x : x ∈ delete k l -> x ∈ l.
Proof.
  intros Hx. eapply elem_of_submseteq; [done|]. apply sublist_submseteq, sublist_delete.
Qed.

(** Removing a desktop deletes it from the list; the new current desktop is the
    one at the old current position, or the last one. *)
Lemma remove_ok fuel id k d j cur m :
  ok m -> 1 < count m -> saveable fuel m ->
  desktopForId m id = Some d -> m_desktops m !! k = Some d ->
  m_current m = Some cur -> m_desktops m !! j = Some cur ->
  exists m', removeVirtualDesktop i18n_Desktop fuel id m = Some m' /\ ok m' /\
    m_desktops m' = delete k (m_desktops m) /\ view m' = delete k (view m) /\
    m_current m' = delete k (m_desktops m) !! (j `min` (length (m_desktops m) - 2))%nat.
Proof.
  intros [Hl Hgrid] Hc Hs Hid Hk Hcur Hj.
  pose proof Hl as [Hnd Hnum Halloc Hcmax Hrows Hcurin].
  unfold removeVirtualDesktop. rewrite (proj2 (Z.eqb_neq _ _)) by lia.
  rewrite Hid, Hcur. cbn -[renumber save updateRootInfo drop].
  destruct (current_position m cur j Hl Hj) as (cvd & Hcvd & Hcnum).
  destruct (current_position m d k Hl Hk) as (dvd & Hdvd & Hdnum).
  rewrite Hcvd. cbn -[renumber save updateRootInfo drop].
  rewrite Hdvd. cbn -[renumber save updateRootInfo drop]. rewrite Hcnum, Hdnum.
  pose proof (lookup_lt_Some _ _ _ Hk) as Hklt. pose proof (lookup_lt_Some _ _ _ Hj) as Hjlt.
  replace (Z.of_nat k + 1 - 1) with (Z.of_nat k) by lia. rewrite Nat2Z.id.
  rewrite (proj2 (Z.leb_le _ _)), (proj2 (Z.ltb_lt _ _)) by (unfold count; lia).
  cbn -[renumber save updateRootInfo drop].
  match goal with |- context [renumber _ _ ?m1] => set (m1' := m1) end.
  set (n := length (m_desktops m)) in *.
  assert (length (m_desktops m1') = (n - 1)%nat) as Hlen.
  { cbn. by rewrite length_delete by eauto. }
  destruct (renumber_tail k m1') as (h & sg & ri & Hren & Hnum' & Hview);
    [ eapply sublist_NoDup; [done|apply sublist_delete]
    | unfold count in *; lia | lia
    | intros q Hq; apply (ok_heap m); [done|exact (elem_of_list_delete k _ _ Hq)]
    | intros i q Hi Hq; exact (numbered_delete_front m k i q Hnum Hi Hq) |].
  change (m_desktops m1') with (delete k (m_desktops m)) in Hren.
  rewrite Hren. cbn -[save updateRootInfo].
  match goal with |- context [count ?m2] => replace (count m2) with (Z.of_nat n - 1) by
    (change (count m2) with (Z.of_nat (length (m_desktops m1'))); lia) end.
  replace (Z.to_nat (Z.min (Z.of_nat j + 1) (Z.of_nat n - 1) - 1)) with (j `min` (n - 2))%nat by lia.
  destruct (lookup_lt_is_Some_2 (delete k (m_desktops m)) (j `min` (n - 2))) as [p Hp].
  { change (length (delete k (m_desktops m))) with (length (m_desktops m1')).
    unfold count in Hc. lia. }
  rewrite Hp. cbn -[save updateRootInfo].
  set (m4 := if _ =? _ then _ else _).
  assert (exists sg4, m4 = m1' <| heap := h |> <| signals := sg4 |> <| m_rootInfo := ri |>
                             <| m_current := Some p |>) as [sg4 Hm4].
  { subst m4. case_match; eexists; reflexivity. }
  clearbody m4. subst m4.
  match goal with |- context [save _ _ ?m4] =>
    destruct (save_layout fuel m4) as (m5 & m6 & Hs5 & Hs6 & Hok & Hds & Hv & Hcu)
  end; [split| |exact Hs|]; try done.
  - eapply sublist_NoDup; [done|apply sublist_delete].
  - intros q Hq. apply Halloc. exact (elem_of_list_delete k _ _ Hq).
  - unfold count in *. cbn. cbn in Hlen. lia.
  - intros q [= <-]. by eapply list_elem_of_lookup_2.
  - unfold count in *. cbn. cbn in Hlen. lia.
  - rewrite Hs5. cbn -[updateRootInfo]. rewrite Hs6. cbn. eexists. split; [reflexivity|].
    split; [by rewrite !ok_emit|]. split; [done|]. split.
    + etrans; [exact Hv|]. etrans; [exact Hview|]. apply list_fmap_delete.
    + exact Hcu.
Qed.

(** *** The current desktop *)

(** Making a desktop current by number. *)
Lemma setCurrent_ok n m :
  ok m ->
  exists b m', setCurrent n m = Some (b, m') /\ ok m' /\
    m_desktops m' = m_desktops m /\ heap m' = heap m /\ m_config m' = m_config m /\
    m_current m' = (if (1 <=? n) && (n <=? count m) then m_desktops m !! Z.to_nat (n - 1)
                    else m_current m).
Proof.
  intros Hok. pose proof Hok as [[Hnd Hnum Halloc Hcmax Hrows Hcur] [Hg Hcells Hne]].
  assert (exists c, current m = Some c /\ 0 <= c /\
    (c = 0 -> m_current m = None) /\
    (c <> 0 -> m_current m = m_desktops m !! Z.to_nat (c - 1))) as (c & Hc & Hc0 & Hcn & Hcs).
  { unfold current. destruct (m_current m) as [p|] eqn:Ep; [|exists 0; split_and!; done || lia].
    destruct (proj1 (list_elem_of_lookup _ _) (Hcur p eq_refl)) as [j Hj].
    destruct (Hnum j p Hj) as (vd & Hv & Hx). rewrite Hv. cbn. rewrite Hx.
    exists (Z.of_nat j + 1). split_and!; try done; try lia.
    intros _. replace (Z.to_nat (Z.of_nat j + 1 - 1)) with j by lia. done. }
  unfold setCurrent. rewrite Hc. cbn.
  destruct (Z.leb_spec 1 n), (Z.leb_spec n (count m)); cbn;
    destruct (Z.ltb_spec n 1), (Z.ltb_spec (count m) n); try lia; cbn; try by eauto 10.
  destruct (Z.eqb_spec n c) as [->|Hnc]; cbn.
  { exists false, m. split_and!; try done. apply Hcs. lia. }
  unfold desktopForX11Id. rewrite (proj2 (Z.eqb_neq n 0)), (proj2 (Z.ltb_ge (count m) n)) by lia.
  cbn. destruct (lookup_lt_is_Some_2 (m_desktops m) (Z.to_nat (n - 1))) as [p Hp];
    [unfold count in *; lia|].
  rewrite Hp. cbn. unfold setCurrentDesktop. rewrite bool_decide_eq_false_2.
  - rewrite Hc. cbn. destruct (Hnum _ _ Hp) as (vd & -> & _). cbn.
    eexists _, _. split; [done|]. split; [|done].
    split; split; try done. intros q [= <-]. by eapply list_elem_of_lookup_2.
  - intros E. destruct (decide (c = 0)) as [->|Hc'].
    + by rewrite Hcn in E.
    + rewrite Hcs in E by done. pose proof (NoDup_lookup _ _ _ _ Hnd Hp E). lia.
Qed.

(** *** setCount *)

Definition new_desktop_view m (i : nat) : option (string * string) :=
  Some (if s_loadingDesktopSettings m then "" else createUuid (next_id m + i),
        i18n_Desktop (count m + Z.of_nat i + 1)).

Lemma append_desktops_ok n : forall m,
  numbered m -> count m + Z.of_nat n <= maximum ->
  (forall p, p ∈ m_desktops m -> (p < next_vdp m)%nat) ->
  exists h nid ri, append_desktops createUuid i18n_Desktop n m
      = (seq (next_vdp m) n,
         m <| heap := h |> <| m_desktops := m_desktops m ++ seq (next_vdp m) n |>
           <| next_vdp := (next_vdp m + n)%nat |> <| next_id := nid |> <| m_rootInfo := ri |>) /\
    numbered (m <| heap := h |> <| m_desktops := m_desktops m ++ seq (next_vdp m) n |>) /\
    view_of h (m_desktops m ++ seq (next_vdp m) n)
      = view m ++ (new_desktop_view m <$> seq 0 n).
Proof.
  unfold maximum. induction n as [|n IH]; intros m Hnum Hc Halloc; cbn [append_desktops].
  { exists (heap m), (next_id m), (m_rootInfo m). cbn. rewrite !app_nil_r, Nat.add_0_r.
    split; [by destruct m|]. split; [|done].
    exact Hnum. }
  set (x11 := count m + 1).
  destruct (if s_loadingDesktopSettings m then ("", m) else generateDesktopId createUuid m)
    as [id m1] eqn:E.
  assert (m1 = m <| next_id := next_id m1 |> /\
          Some (id, i18n_Desktop x11) = new_desktop_view m 0 /\
          (s_loadingDesktopSettings m = false -> next_id m1 = S (next_id m))) as (-> & Hv0 & Hid).
  { unfold new_desktop_view, generateDesktopId in *.
    replace (count m + Z.of_nat 0 + 1) with x11 by lia. rewrite Nat.add_0_r.
    destruct (s_loadingDesktopSettings m); simplify_eq/=;
      (split; [first [by destruct m | by destruct m1 | done]|done]). }
  cbn -[append_desktops seq Z.of_nat]. set (vd := mkVD id (defaultName i18n_Desktop x11) (i32 x11)).
  match goal with |- context [append_desktops _ _ n ?m3] => set (m3' := m3) end.
  assert (count m3' = x11) as Hc3.
  { change (Z.of_nat (length (m_desktops m ++ [next_vdp m])) = count m + 1).
    rewrite length_app. unfold count. cbn [length]. lia. }
  assert (forall q, q ∈ m_desktops m -> heap m3' !! q = heap m !! q) as Hold.
  { intros q Hq%Halloc. cbn. rewrite lookup_insert_ne; [done|lia]. }
  assert (heap m3' !! next_vdp m = Some vd) as Hnew by apply lookup_insert_eq.
  destruct (IH m3') as (h & nid & ri & -> & Hnum' & Hview).
  - intros i q Hq. cbn in Hq. apply lookup_app_Some in Hq as [Hq|[Hi Hq]].
    + rewrite Hold by (by eapply list_elem_of_lookup_2). by apply Hnum.
    + apply list_lookup_singleton_Some in Hq as [? <-]. exists vd. split; [done|].
      cbn. rewrite u32_i32, u32_small by (unfold x11, count in *; lia).
      unfold x11, count. lia.
  - lia.
  - intros q [Hq%Halloc|Hq%list_elem_of_singleton]%elem_of_app; cbn; [|subst q]; lia.
  - exists h, nid, ri. cbn -[seq] in Hnum', Hview |- *.
    rewrite <- !app_assoc in Hnum', Hview. cbn -[seq] in Hnum', Hview.
    rewrite <- !app_assoc. cbn [app seq].
    rewrite <- Nat.add_succ_comm. split; [done|]. split; [exact Hnum'|].
    etrans; [exact Hview|].
    rewrite fmap_app, <- app_assoc. f_equal.
    { apply (view_of_ext (heap m)). intros q Hq. by rewrite <- (Hold q Hq). }
    change (new_desktop_view m <$> 0%nat :: seq 1 n)
      with (new_desktop_view m 0 :: (new_desktop_view m <$> seq 1 n)).
    rewrite <- Hv0, <- fmap_S_seq, <- list_fmap_compose.
    cbn -[seq]. rewrite lookup_insert_eq. cbn -[seq]. f_equal.
    apply list_fmap_ext. intros i j _. unfold new_desktop_view, compose. cbn.
    rewrite Hc3. unfold x11.
    destruct (s_loadingDesktopSettings m) eqn:El; f_equal; f_equal; try (f_equal; lia).
    f_equal. cbn in Hid. rewrite Hid by done. lia.
Qed.

Lemma foldl_emit_frame (f : vdp -> Signal) ds : forall m,
  exists sg, foldl (fun m d => emit (f d) m) m ds = m <| signals := sg |>.
Proof.
  induction ds as [|d ds IH]; intros m; cbn [foldl].
  - exists (signals m). by destruct m.
  - destruct (IH (emit (f d) m)) as [sg ->]. exists sg. done.
Qed.

Lemma list_ok_truncate n m cur' :
  list_ok m -> (forall p, cur' = Some p -> p ∈ take n (m_desktops m)) ->
  list_ok (m <| m_desktops := take n (m_desktops m) |> <| m_current := cur' |>).
Proof.
  intros [Hnd Hnum Halloc Hcmax Hrows Hcur] Hcur'. split; cbn.
  - eapply sublist_NoDup; [done|apply sublist_take].
  - intros i p Hp. cbn in Hp. apply lookup_take_Some in Hp as [Hp _]. by apply Hnum.
  - intros p Hp. apply Halloc. eapply elem_of_submseteq; [done|].
    apply sublist_submseteq, sublist_take.
  - unfold count in *. cbn. rewrite length_take. lia.
  - done.
  - done.
Qed.

Lemma truncate_desktops_ok n m :
  list_ok m -> (1 <= n < length (m_desktops m))%nat ->
  exists cur' sg, truncate_desktops (Z.of_nat n) m
      = Some (m <| m_desktops := take n (m_desktops m) |> <| m_current := cur' |>
                <| signals := sg |>) /\
    list_ok (m <| m_desktops := take n (m_desktops m) |> <| m_current := cur' |>) /\
    (forall j p, m_current m = Some p -> m_desktops m !! j = Some p ->
       cur' = m_desktops m !! (j `min` (n - 1))%nat).
Proof.
  intros Hl Hn. unfold truncate_desktops. rewrite Nat2Z.id. cbn -[take].
  destruct (m_current m) as [cur|] eqn:Hcur.
  - destruct (proj1 (list_elem_of_lookup _ _) (ok_current _ Hl cur Hcur)) as [j Hj].
    destruct (current_position m cur j Hl Hj) as (vd & Hvd & Hnumv).
    unfold current at 1. cbn -[take]. rewrite Hvd. cbn -[take].
    rewrite Hnumv. pose proof (lookup_lt_Some _ _ _ Hj).
    replace (Z.to_nat (Z.min (Z.of_nat j + 1) (Z.of_nat n) - 1)) with (j `min` (n - 1))%nat by lia.
    destruct (lookup_lt_is_Some_2 (m_desktops m) (j `min` (n - 1))) as [p Hp]; [lia|].
    rewrite lookup_take_lt by lia. rewrite Hp. cbn -[take].
    match goal with |- context [foldl _ ?m0 ?ds] =>
      destruct (foldl_emit_frame desktopRemoved ds m0) as [sg Hsg]; rewrite Hsg end.
    exists (Some p), sg. split_and!.
    + by destruct (_ =? _).
    + apply list_ok_truncate; [done|]. intros q [= <-].
      eapply list_elem_of_lookup_2. rewrite lookup_take_lt; [done|lia].
    + intros j' q [= <-] Hj'.
      rewrite (NoDup_lookup _ _ _ _ (ok_nodup _ Hl) Hj' Hj). done.
  - cbn -[take drop foldl]. match goal with |- context [foldl _ ?m0 ?ds] =>
      destruct (foldl_emit_frame desktopRemoved ds m0) as [sg Hsg]; rewrite Hsg end.
    exists None, sg. split_and!; [done|by apply list_ok_truncate|done].
Qed.

(** The end of setCount: recompute the layout, then save unless loading. *)
Lemma layout_save fuel m :
  list_ok m -> 1 <= count m -> (s_loadingDesktopSettings m = false -> saveable fuel m) ->
  exists m5 m6, updateRootInfo m = Some m5 /\
    (if s_loadingDesktopSettings m5 then Some m5 else save i18n_Desktop fuel m5) = Some m6 /\
    ok m6 /\ m_desktops m6 = m_desktops m /\ heap m6 = heap m /\
    m_current m6 = m_current m /\
    s_loadingDesktopSettings m6 = s_loadingDesktopSettings m /\
    (s_loadingDesktopSettings m = true -> m_config m6 = m_config m).
Proof.
  intros [Hnd Hnum Halloc Hcmax Hrows Hcur] Hc Hs.
  destruct (updateRootInfo_ok m) as (r & g & sg & ri & -> & Hr & Hwf & Hperm);
    [done|done|apply Hrows|].
  match goal with |- context [Some ?m5' = Some _] => set (m5 := m5') end.
  assert (ok m5) as Hok by (by split; split).
  exists m5. change (s_loadingDesktopSettings m5) with (s_loadingDesktopSettings m).
  destruct (s_loadingDesktopSettings m) eqn:El.
  - exists m5. split_and!; try done; exact El.
  - destruct (save_ok fuel m5) as (c & ri' & ->);
      [intros; by apply (ok_heap m)|done|exact (Hs eq_refl)|].
    eexists. split_and!; done.
Qed.

(** Resizing keeps a prefix of the desktops and fills up with fresh ones. *)
Lemma setCount_ok fuel cnt m :
  list_ok m -> (s_loadingDesktopSettings m = false -> saveable fuel m) ->
  let n := qBound 1 (u32 cnt) maximum in
  n <> count m ->
  exists m', setCount createUuid i18n_Desktop fuel cnt m = Some m' /\ ok m' /\ count m' = n /\
    view m' = (if n <? count m then take (Z.to_nat n) (view m)
               else view m ++ (new_desktop_view m <$> seq 0 (Z.to_nat (n - count m)))) /\
    s_loadingDesktopSettings m' = s_loadingDesktopSettings m /\
    (s_loadingDesktopSettings m = true -> m_config m' = m_config m).
Proof.
  intros Hl Hs n Hne. unfold setCount. fold n.
  assert (1 <= n <= maximum) as Hn by (apply qBound_range; unfold maximum; lia).
  rewrite (proj2 (Z.eqb_neq _ _)) by done. clearbody n.
  assert (forall ds (m1 : Manager R C), list_ok m1 -> count m1 = n ->
    (s_loadingDesktopSettings m1 = false -> saveable fuel m1) ->
    s_loadingDesktopSettings m1 = s_loadingDesktopSettings m -> m_config m1 = m_config m ->
    exists m', ('(newDesktops, m1) ← Some (ds, m1);
       m2 ← updateRootInfo m1;
       m3 ← (if s_loadingDesktopSettings m2 then Some m2 else save i18n_Desktop fuel m2);
       let m4 := foldl (fun m d => emit (desktopCreated d) m) m3 newDesktops in
       Some (emit (countChanged (count m) (count m4)) m4)) = Some m' /\
      ok m' /\ count m' = n /\ view m' = view m1 /\
      s_loadingDesktopSettings m' = s_loadingDesktopSettings m /\
      (s_loadingDesktopSettings m = true -> m_config m' = m_config m)) as Hend.
  { intros ds m1 Hl1 Hc1 Hs1 Hload Hcfg.
    destruct (layout_save fuel m1 Hl1) as (m5 & m6 & H5 & H6 & Hok & Hds & Hh & Hcu & Hlo & Hcf);
      [lia|done|].
    cbn -[updateRootInfo]. rewrite H5. cbn. rewrite H6. cbn.
    destruct (foldl_emit_frame desktopCreated ds m6) as [sg Hsg]. rewrite Hsg.
    eexists. split; [reflexivity|]. split; [|split_and!].
    - apply ok_emit. destruct Hok as [[] []]. by split; split.
    - unfold count in *. cbn. by rewrite Hds.
    - unfold view. cbn. by rewrite Hds, Hh.
    - cbn. congruence.
    - cbn. rewrite <- Hload. intros E. rewrite Hcf by done. done. }
  destruct (Z.ltb_spec n (count m)) as [Hlt|Hge].
  - destruct (truncate_desktops_ok (Z.to_nat n) m Hl) as (cur' & sg & Ht & Hl1 & _);
      [unfold count in *; lia|].
    rewrite Z2Nat.id in Ht by lia. rewrite Ht. cbn -[updateRootInfo foldl take].
    edestruct (Hend [] (m <| m_desktops := take (Z.to_nat n) (m_desktops m) |>
      <| m_current := cur' |> <| signals := sg |>)) as (m' & Heq & Hok & Hcnt & Hv & Hrest).
    + destruct Hl1. by split.
    + unfold count in *. cbn. rewrite length_take. lia.
    + exact Hs.
    + done.
    + done.
    + exists m'. split; [exact Heq|]. split_and!; try done; try apply Hrest.
      rewrite Hv. unfold view. cbn. by rewrite fmap_take.
  - destruct (append_desktops_ok (Z.to_nat (n - count m)) m) as (h & nid & ri & -> & Hnum & Hview);
      [apply (ok_numbered _ Hl)|lia|apply (ok_alloc _ Hl)|].
    edestruct Hend as (m' & Heq & Hok & Hcnt & Hv & Hrest);
      [| | | | |exists m'; split; [exact Heq|]; split_and!; try done; try apply Hrest].
    + destruct Hl as [Hnd Hnum0 Halloc Hcmax Hrows Hcur]. split; cbn; try done.
      * apply NoDup_app. split_and!; [done| |apply NoDup_seq].
        intros x Hx%Halloc [? _]%elem_of_seq. lia.
      * intros p [Hp%Halloc|[_ Hp]%elem_of_seq]%elem_of_app; lia.
      * unfold count in *. cbn. rewrite length_app, length_seq. lia.
      * intros p Hp%Hcur. set_solver.
    + unfold count in *. cbn. rewrite length_app, length_seq. lia.
    + exact Hs.
    + done.
    + done.
    + rewrite Hv. exact Hview.
Qed.

(** *** Saving and loading *)

Lemma key_Name_inj i j : key_Name i = key_Name j -> i = j.
Proof. unfold key_Name. intros H. by simplify_eq. Qed.
Lemma key_Id_inj i j : key_Id i = key_Id j -> i = j.
Proof. unfold key_Id. intros H. by simplify_eq. Qed.
Lemma key_Name_Id i j : key_Name i <> key_Id j.
Proof. discriminate. Qed.
Lemma key_Name_Number i : key_Name i <> "Number". Proof. discriminate. Qed.
Lemma key_Id_Number i : key_Id i <> "Number". Proof. discriminate. Qed.
Lemma key_Name_Rows i : key_Name i <> "Rows". Proof. discriminate. Qed.
Lemma key_Id_Rows i : key_Id i <> "Rows". Proof. discriminate. Qed.

(** What loading reads for desktop number [i] from the configuration. *)
Definition read_entry (c : C) (i : Z) : string * string :=
  (readString c (key_Id i) "", readString c (key_Name i) (i18n_Desktop i)).

Lemma save_desktop_entry (i : nat) c m p vd c' m' :
  i18n_Desktop (Z.of_nat i + 1) <> "" ->
  m_desktops m !! i = Some p -> heap m !! p = Some vd -> m_name vd <> "" ->
  count m < 2 ^ 31 ->
  save_desktop i18n_Desktop (Z.of_nat i + 1) (c, m) = Some (c', m') ->
  read_entry c' (Z.of_nat i + 1) = (m_id vd, m_name vd) /\ m' = m /\
  (forall k d, k <> key_Name (Z.of_nat i + 1) -> k <> key_Id (Z.of_nat i + 1) ->
     readString c' k d = readString c k d) /\
  readInt c' "Number" 1 = readInt c "Number" 1.
Proof.
  intros Hi18n Hp Hvd Hnm Hc. unfold save_desktop, name.
  pose proof (lookup_lt_Some _ _ _ Hp).
  rewrite (u32_small (Z.of_nat i + 1 - 1)) by (unfold count in *; lia).
  rewrite (proj2 (Z.ltb_lt _ _)) by (unfold count in *; lia).
  replace (Z.to_nat (Z.of_nat i + 1 - 1)) with i by lia. set (n := Z.of_nat i + 1) in *.
  rewrite Hp. cbn. rewrite Hvd. cbn. rewrite (bool_decide_eq_false_2 (m_name vd = "")) by done.
  cbn. rewrite Hp. cbn. rewrite Hvd. cbn.
  set (c1 := if bool_decide (m_name vd = _) then _ else _). intros [= <- <-].
  assert (readString c1 (key_Name n) (i18n_Desktop n) = m_name vd /\
    (forall k d, k <> key_Name n -> readString c1 k d = readString c k d) /\
    readInt c1 "Number" 1 = readInt c "Number" 1) as (H1 & H2 & H3).
  { subst c1. unfold defaultName. pose proof (key_Name_Number n).
    repeat case_bool_decide; split_and!; try done.
    - destruct (readString_default (key_Name n) c "" (i18n_Desktop n)); congruence.
    - rewrite readString_delete. done.
    - intros. by apply readString_delete_ne.
    - by apply readInt_delete_ne.
    - apply readString_write.
    - intros. by apply readString_write_ne.
    - by apply readInt_writeString. }
  split_and!; [|done| |].
  - unfold read_entry. rewrite readString_write, readString_write_ne, H1; [done|].
    intros E. by apply (key_Name_Id n n).
  - intros k d Hk1 Hk2. rewrite readString_write_ne by done. by apply H2.
  - rewrite readInt_writeString; [done|apply key_Id_Number].
Qed.

Lemma save_desktops_entries n : forall (i : nat) c m c' m',
  (forall k : nat, i18n_Desktop (Z.of_nat k) <> "") ->
  (forall p, p ∈ m_desktops m -> exists vd, heap m !! p = Some vd /\ m_name vd <> "") ->
  (i + n <= length (m_desktops m))%nat -> count m < 2 ^ 31 ->
  save_desktops i18n_Desktop n (Z.of_nat i + 1) (c, m) = Some (c', m') ->
  m' = m /\
  (forall k p vd, (i <= k < i + n)%nat -> m_desktops m !! k = Some p -> heap m !! p = Some vd ->
     read_entry c' (Z.of_nat k + 1) = (m_id vd, m_name vd)) /\
  (forall k : nat, (k < i)%nat -> read_entry c' (Z.of_nat k + 1) = read_entry c (Z.of_nat k + 1)) /\
  readInt c' "Number" 1 = readInt c "Number" 1.
Proof.
  induction n as [|n IH]; intros i c m c' m' Hi18n Hh Hl Hc; cbn [save_desktops].
  { intros [= <- <-]. split_and!; [done|intros; lia|done|done]. }
  destruct (lookup_lt_is_Some_2 (m_desktops m) i) as [p Hp]; [lia|].
  destruct (Hh p) as (vd & Hvd & Hnm); [by eapply list_elem_of_lookup_2|].
  destruct (save_desktop _ _ _) as [[c1 m1]|] eqn:E1; [|done].
  cbn -[save_desktops Z.of_nat]. intros Hsave.
  apply (save_desktop_entry i c m p vd) in E1 as (He & -> & Hother & Hnumber);
    [|replace (Z.of_nat i + 1) with (Z.of_nat (S i)) by lia; done|done..].
  replace (Z.of_nat i + 1 + 1) with (Z.of_nat (S i) + 1) in Hsave by lia.
  apply IH in Hsave as (-> & Hin & Hbefore & Hn'); [|done|done|lia|done].
  split_and!; [done| | |congruence].
  - intros k q vq Hk Hq Hvq. destruct (decide (k = i)) as [->|].
    + simplify_eq. rewrite Hbefore by lia. done.
    + apply (Hin k q); [lia|done..].
  - intros k Hk. rewrite Hbefore by lia. unfold read_entry.
    rewrite !Hother; [done| | | |]; intros E;
      first [apply key_Name_inj in E|apply key_Id_inj in E
            |by apply key_Name_Id in E|symmetry in E; by apply key_Name_Id in E]; lia.
Qed.

Lemma load_desktop_ok (i : nat) c m p vd :
  m_desktops m !! i = Some p -> heap m !! p = Some vd -> m_id vd = "" ->
  (read_entry c (Z.of_nat i + 1)).1 <> "" ->
  exists vd' sg ri, load_desktop createUuid i18n_Desktop c (Z.of_nat i + 1) m
    = Some (m <| heap := <[p := vd']> (heap m) |> <| signals := sg |> <| m_rootInfo := ri |>) /\
    (m_id vd', m_name vd') = read_entry c (Z.of_nat i + 1) /\
    m_x11DesktopNumber vd' = m_x11DesktopNumber vd.
Proof.
  intros Hp Hvd Hid Hne. unfold load_desktop, read_entry in *. cbn in Hne |- *.
  replace (Z.to_nat (Z.of_nat i + 1 - 1)) with i by lia. rewrite Hp. cbn.
  set (sId := readString c (key_Id _) "") in *.
  set (nm := readString c (key_Name _) _).
  unfold setName. cbn. rewrite Hvd. cbn.
  destruct (decide (m_name vd = nm)) as [Hnm|Hnm].
  - rewrite (bool_decide_eq_true_2 (m_name vd = nm)) by done. cbn. rewrite Hvd. cbn.
    rewrite bool_decide_eq_true_2, (bool_decide_eq_false_2 _ Hne) by done.
    unfold setId. cbn. rewrite Hvd. cbn. rewrite bool_decide_eq_true_2 by done.
    eexists _, _, _. split; [reflexivity|]. split; [cbn; congruence|done].
  - rewrite (bool_decide_eq_false_2 (m_name vd = nm)) by done. cbn.
    rewrite lookup_insert_eq. cbn.
    rewrite bool_decide_eq_true_2, (bool_decide_eq_false_2 _ Hne) by done.
    unfold setId. cbn. rewrite lookup_insert_eq. cbn. rewrite bool_decide_eq_true_2 by done.
    rewrite insert_insert_eq.
    eexists _, _, _. split; [reflexivity|]. done.
Qed.

Lemma load_desktops_ok n : forall (i : nat) c m,
  NoDup (m_desktops m) -> (i + n = length (m_desktops m))%nat ->
  (forall k p, (i <= k)%nat -> m_desktops m !! k = Some p ->
     exists vd, heap m !! p = Some vd /\ m_id vd = "") ->
  (forall k : nat, (i <= k < i + n)%nat -> (read_entry c (Z.of_nat k + 1)).1 <> "") ->
  exists h sg ri, load_desktops createUuid i18n_Desktop c n (Z.of_nat i + 1) m
    = Some (m <| heap := h |> <| signals := sg |> <| m_rootInfo := ri |>) /\
    (forall p, m_x11DesktopNumber <$> h !! p = m_x11DesktopNumber <$> heap m !! p) /\
    (forall k p, m_desktops m !! k = Some p ->
       h !! p = heap m !! p /\ (k < i)%nat \/
       exists vd, h !! p = Some vd /\ (m_id vd, m_name vd) = read_entry c (Z.of_nat k + 1)).
Proof.
  induction n as [|n IH]; intros i c m Hnd Hlen Hh Hne; cbn [load_desktops].
  { exists (heap m), (signals m), (m_rootInfo m). split; [by destruct m|].
    split; [done|]. intros k p Hk%lookup_lt_Some. left. split; [done|lia]. }
  destruct (lookup_lt_is_Some_2 (m_desktops m) i) as [p Hp]; [lia|].
  destruct (Hh i p) as (vd & Hvd & Hid); [lia|done|].
  destruct (load_desktop_ok i c m p vd) as (vd' & sg & ri & -> & He & Hx);
    [done..|apply Hne; lia|].
  cbn -[load_desktops Z.of_nat].
  replace (Z.of_nat i + 1 + 1) with (Z.of_nat (S i) + 1) by lia.
  match goal with |- context [load_desktops _ _ c n _ ?m1] => set (m1' := m1) end.
  destruct (IH (S i) c m1') as (h & sg' & ri' & -> & Hnum & Hin).
  - done.
  - cbn. lia.
  - intros k q Hk Hq. cbn in Hq |- *. rewrite lookup_insert_ne.
    { apply (Hh k q); [lia|done]. }
    intros <-. pose proof (NoDup_lookup _ _ _ _ Hnd Hp Hq). lia.
  - intros k Hk. apply Hne. lia.
  - exists h, sg', ri'. split; [done|]. split.
    + intros q. rewrite Hnum. cbn. rewrite lookup_insert.
      case_decide as Eq; [|done]. rewrite <- Eq, Hvd. cbn. congruence.
    + intros k q Hq. destruct (Hin k q Hq) as [[Hsame Hk]|?]; [|by right].
      cbn in Hsame. destruct (decide (q = p)) as [->|Hqp].
      * pose proof (NoDup_lookup _ _ _ _ Hnd Hp Hq). subst k.
        right. exists vd'. rewrite Hsame, lookup_insert_eq. done.
      * left. rewrite Hsame, lookup_insert_ne by done. split; [done|].
        assert (k <> i) by congruence. lia.
Qed.

(** The configuration as [save] leaves it, read by [load]. *)
Lemma save_config fuel m c :
  ok m -> saveable fuel m -> s_loadingDesktopSettings m = false -> m_config m = Some c ->
  (forall k : nat, i18n_Desktop (Z.of_nat k) <> "") ->
  (forall p vd, p ∈ m_desktops m -> heap m !! p = Some vd -> m_name vd <> "") ->
  exists c', save i18n_Desktop fuel m = Some (m <| m_config := Some c' |>) /\
    readInt c' "Number" 1 = count m /\ readInt c' "Rows" 2 = m_rows m /\
    forall k p vd, m_desktops m !! k = Some p -> heap m !! p = Some vd ->
      read_entry c' (Z.of_nat k + 1) = (m_id vd, m_name vd).
Proof.
  intros [[Hnd Hnum Halloc Hcmax Hrows Hcur] _] Hs Hload Hcfg Hi18n Hnm.
  unfold save. rewrite Hload, Hcfg.
  destruct (Hs c Hcfg) as (n & Hn & Hkey).
  destruct (delete_stale_ok fuel (count m + 1) c) as [c1 ->].
  { exists (n - Z.to_nat (count m + 1))%nat. split; [lia|]. unfold maximum in *.
    replace (count m + 1 + _) with (Z.of_nat n) by (unfold count in *; lia). done. }
  cbn -[save_desktops]. change 1 with (Z.of_nat 0 + 1) at 1.
  assert (count m < 2 ^ 31) by (unfold maximum in *; lia).
  destruct (save_desktops_ok (length (m_desktops m)) 0
    (writeInt "Number" (count m) c1) m) as (c' & ri & Hsave);
    [intros; by apply (ok_heap m)|lia|done|].
  rewrite Hsave.
  apply save_desktops_entries in Hsave as (-> & Hin & _ & Hnumber); [|done| |lia|done].
  - eexists. split; [cbn; reflexivity|]. unfold read_entry in *. split_and!.
    + rewrite readInt_sync, readInt_write_ne, Hnumber, readInt_write; done.
    + by rewrite readInt_sync, readInt_write.
    + intros k p vd Hk Hvd.
      rewrite !readString_sync, !readString_writeInt
        by (intros E; symmetry in E; by first [apply key_Name_Rows in E|apply key_Id_Rows in E]).
      eapply Hin; [|done|done]. apply lookup_lt_Some in Hk. lia.
  - intros p Hp. destruct (ok_heap m p Hnum Hp) as [vd Hvd]. eauto.
Qed.

(** Loading a saved configuration into a new manager restores the desktops. *)
Lemma save_load_ok fuel m c :
  ok m -> saveable fuel m -> s_loadingDesktopSettings m = false -> m_config m = Some c ->
  (forall k : nat, i18n_Desktop (Z.of_nat k) <> "") ->
  (forall p vd, p ∈ m_desktops m -> heap m !! p = Some vd -> m_name vd <> "" /\ m_id vd <> "") ->
  m_rows m <= count m ->
  exists c' m2, save i18n_Desktop fuel m = Some (m <| m_config := Some c' |>) /\
    load createUuid i18n_Desktop fuel (initial <| m_config := Some c' |>) = Some m2 /\
    ok m2 /\ view m2 = view m /\ m_rows m2 = m_rows m /\
    s_loadingDesktopSettings m2 = false.
Proof.
  intros Hok Hs Hload Hcfg Hi18n Hvd Hrows.
  pose proof Hok as [[Hnd Hnum Halloc Hcmax Hr Hcur] [Hg Hcells Hne]].
  destruct (save_config fuel m c) as (c' & Hsave & HN & HR & He);
    [done..|intros p vd Hp Hpv; by apply (Hvd p vd)|].
  exists c'. unfold load. cbn -[setCount load_desktops]. rewrite HN, HR.
  unfold maximum in Hcmax. rewrite !i32_small by lia.
  match goal with |- context [setCount _ _ _ _ ?m0] => set (m0' := m0) end.
  destruct (setCount_ok fuel (count m) m0') as (m1 & -> & [Hl1 Hg1] & Hc1 & Hv1 & _ & _).
  - split; cbn; [constructor|intros ? ?; done|by setoid_rewrite elem_of_nil| |lia|done].
    unfold count, maximum. simpl. lia.
  - done.
  - rewrite u32_small, qBound_id by (unfold maximum; lia).
    change (count m0') with 0. lia.
  - rewrite u32_small, qBound_id in Hc1 by (unfold maximum; lia).
    rewrite u32_small, qBound_id in Hv1 by (unfold maximum; lia).
    change (count m0') with 0 in Hv1.
    rewrite (proj2 (Z.ltb_ge _ _)), Z.sub_0_r in Hv1 by lia. cbn -[seq] in Hv1.
    assert (length (m_desktops m1) = length (m_desktops m)) as Hlen by (unfold count in *; lia).
    cbn -[load_desktops].
    match goal with |- context [load_desktops ?a ?b ?d ?n 1 ?m1] =>
      change (load_desktops a b d n 1 m1) with (load_desktops a b d n (Z.of_nat 0 + 1) m1) end.
    destruct (load_desktops_ok (Z.to_nat (count m)) 0 c' m1) as (h & sg & ri & -> & Hx & Hin).
    + apply (ok_nodup _ Hl1).
    + unfold count in *. lia.
    + intros k p _ Hp. pose proof (ok_numbered _ Hl1 k p Hp) as (vd & Hpv & _).
      exists vd. split; [done|].
      assert (view m1 !! k = Some (Some (m_id vd, m_name vd))) as Hk.
      { unfold view. rewrite list_lookup_fmap, Hp. cbn. by rewrite Hpv. }
      rewrite Hv1 in Hk. rewrite list_lookup_fmap in Hk.
      destruct (seq 0 _ !! k); [|done]. unfold new_desktop_view in Hk.
      change (s_loadingDesktopSettings m0') with true in Hk. cbn in Hk. congruence.
    + intros k Hk. destruct (lookup_lt_is_Some_2 (m_desktops m) k) as [p Hp];
        [unfold count in *; lia|].
      destruct (Hnum k p Hp) as (vd & Hpv & _). rewrite (He k p vd Hp Hpv). cbn.
      eapply Hvd; [by eapply list_elem_of_lookup_2|done].
    + cbn. eexists. split; [done|]. split; [reflexivity|].
      rewrite u32_small, qBound_id by (rewrite ?qBound_id by lia; lia).
      split; [|split; [|done]].
      * destruct Hl1 as [H1 H2 H3 H4 H5 H6]. split; split; cbn; try done; try apply Hg1.
        intros i p Hp. cbn in Hp |- *. destruct (H2 i p Hp) as (vd & Hpv & Hpn).
        specialize (Hx p). rewrite Hpv in Hx. cbn in Hx.
        destruct (h !! p) as [vd'|]; [|done]. exists vd'. split; [done|]. cbn in Hx. congruence.
      * apply list_eq. intros k. unfold view. cbn. rewrite !list_lookup_fmap.
        destruct (m_desktops m !! k) as [q|] eqn:Hq.
        -- destruct (lookup_lt_is_Some_2 (m_desktops m1) k) as [p Hp];
             [apply lookup_lt_Some in Hq; lia|].
           destruct (Hnum k q Hq) as (vq & Hqv & _).
           destruct (Hin k p Hp) as [[_ ?]|(vd & Hpv & Hent)]; [lia|].
           rewrite Hp. cbn. rewrite Hpv, Hqv. cbn. rewrite (He k q vq Hq Hqv) in Hent. congruence.
        -- by rewrite (proj2 (lookup_ge_None _ _)) by (apply lookup_ge_None in Hq; lia).
Qed.
End ListOps.

End ManagerFacts.
