(* ===== verification/VirtualDesktopsProps.v ===== *)
(** * Virtual desktops: the properties of VirtualDesktopManager

    The public theorems about the manager, with instances of the root info and
    configuration interfaces on which they are evaluated. *)

From S2P Require Import Prelude DesktopGrid VirtualDesktops VirtualDesktopsFacts.

Module ManagerProps.
Import Grid Manager ManagerFacts.

(** ** Concrete collaborators *)

(** A configuration group kept in two maps. *)
Record MapConfig := mkMapConfig { ints : gmap string Z; strs : gmap string string }.
#[global] Instance MapConfig_KConfigGroup : KConfigGroup MapConfig := {
  readInt c k d := default d (ints c !! k);
  readString c k d := default d (strs c !! k);
  hasKey c k := bool_decide (is_Some (ints c !! k) \/ is_Some (strs c !! k));
  writeInt k v c := mkMapConfig (<[k := v]> (ints c)) (strs c);
  writeString k v c := mkMapConfig (ints c) (<[k := v]> (strs c));
  deleteEntry k c := mkMapConfig (delete k (ints c)) (delete k (strs c));
  sync c := c;
}.
#[global] Instance MapConfig_laws : KConfigLaws MapConfig.
Proof.
  split; intros; simpl in *;
    rewrite ?lookup_insert_eq, ?lookup_insert_ne, ?lookup_delete_eq, ?lookup_delete_ne by done;
    try done.
  - destruct (strs c !! k); simpl; auto.
  - apply bool_decide_eq_false. match goal with H : _ = false |- _ =>
      apply bool_decide_eq_false in H; intros H'; apply H end.
    rewrite !lookup_delete_is_Some in *. naive_solver.
Qed.

(** A root info that remembers the requested layout. *)
Record MapRoot := mkMapRoot { root_cols : Z; root_rows : Z; root_nm : gmap Z string }.
#[global] Instance MapRoot_NETRootInfo : NETRootInfo MapRoot := {
  ri_setDesktopLayout _ c r ri := mkMapRoot c r (root_nm ri);
  ri_setNumberOfDesktops _ ri := ri;
  ri_setDesktopViewport _ ri := ri;
  ri_setCurrentDesktop _ ri := ri;
  ri_setDesktopName k n ri := mkMapRoot (root_cols ri) (root_rows ri) (<[k := n]> (root_nm ri));
  ri_activate ri := ri;
  ri_desktopName ri k := default "" (root_nm ri !! k);
  ri_desktopLayoutColumnsRows ri :=
    (qBound 0 (root_cols ri) (2 ^ 15), qBound 0 (root_rows ri) (2 ^ 15));
  ri_desktopLayoutOrientation _ := Horizontal;
}.
#[global] Instance MapRoot_bounded : BoundedLayout MapRoot.
Proof. split. intros r. simpl. split; apply qBound_range; lia. Qed.

Definition uuid (n : nat) : string := "uuid-" +:+ pretty n.
Definition desktopLabel (n : Z) : string := "Desktop " +:+ pretty n.

(** Managers to evaluate on: five desktops in two rows, without and with a
    configuration. *)
Definition manager : Type := Manager MapRoot MapConfig.
Definition five : option manager :=
  setCount uuid desktopLabel 30 5 (initial <| m_config := Some (mkMapConfig ∅ ∅) |>).

Lemma list_ok_initial {R C} (c : option C) :
  list_ok (initial <| m_config := c |> : Manager R C).
Proof.
  split; cbn; [constructor|intros ? ?; done|by setoid_rewrite elem_of_nil| |lia|done].
  unfold count, maximum. simpl. lia.
Qed.

Lemma five_ok : exists m, five = Some m /\ ok m.
Proof.
  edestruct (setCount_ok uuid desktopLabel 30 5
    (initial <| m_config := Some (mkMapConfig ∅ ∅) |> : manager)) as (m & Heq & Hok & _).
  - apply list_ok_initial.
  - intros _ c [= <-]. exists 25%nat. split; [unfold maximum; lia|done].
  - done.
  - exists m. split; [exact Heq|exact Hok].
Qed.

(** Five desktops, the second one current. *)
Definition five_at_2 : manager :=
  default initial (m ← five; '(_, m') ← setCurrent 2 m; Some m').

Lemma five_at_2_ok : ok five_at_2 /\ m_current five_at_2 = Some 1%nat.
Proof.
  split; [|by vm_compute]. destruct five_ok as (m & Heq & Hok).
  destruct (setCurrent_ok 2 m Hok) as (b & m' & Hset & Hok' & _).
  unfold five_at_2. rewrite Heq. cbn [mbind option_bind]. rewrite Hset. exact Hok'.
Qed.

Lemma five_at_2_saveable : saveable 30 five_at_2.
Proof.
  intros c Hc. exists 25%nat. split; [unfold maximum; lia|].
  assert (option_map (fun c => hasKey c (key_Id 25)) (m_config five_at_2) = Some false) as E
    by (by vm_compute).
  rewrite Hc in E. by injection E.
Qed.

Definition is_currentChanged (s : Signal) : bool :=
  match s with currentChanged _ _ => true | _ => false end.

(** ** The properties *)

Section Properties.
Context {R C : Type} `{!NETRootInfo R, !KConfigGroup C, !BoundedLayout R, !KConfigLaws C}.
Context (createUuid : nat -> string) (i18n_Desktop : Z -> string).
Implicit Types m : Manager R C.

(** With wrap-around, every move has an inverse: from any desktop, going
    right and then left, left then right, below then above, above then below,
    to the next and then to the previous one and conversely, comes back to it.
    In particular every such navigation terminates on a desktop, in rows and
    columns that the desktops do not fill as well. *)
Theorem navigation_inverse m d :
  ok m -> is_Some (m_current m) -> d ∈ m_desktops m ->
  forall go back, (go, back) ∈ [(toRight, toLeft); (toLeft, toRight); (below, above);
                                (above, below); (next, previous); (previous, next)] ->
  exists e, go m (Some d) true = Some e /\ back m (Some e) true = Some d.
Proof.
  intros Hok Hcur Hd go back Hin.
  destruct (right_left m d Hok Hcur Hd), (below_above m d Hok Hcur Hd),
    (next_previous m d (proj1 Hok) Hcur Hd).
  repeat (apply elem_of_cons in Hin as [[= -> ->]|Hin]; [done|]). by apply elem_of_nil in Hin.
Qed.

(** Without wrap-around, moving right and then left comes back unless the
    desktop is at the end of its row, where the move stays: a horizontal move
    of a desktop in column x of a row of n desktops goes to column x + 1, or
    to x when x is the last column, and symmetrically to the left; in the same
    way a vertical one goes to the neighbour in the column or stays. *)
Theorem navigation_no_wrap m d x y row :
  ok m -> is_Some (m_current m) -> cell (m_grid m) x y = Some d ->
  cells (m_grid m) !! y = Some row ->
  toRight m (Some d) false = Some (default d (row !! S x)) /\
  toLeft m (Some d) false = Some (if decide (x = O) then d else default d (row !! (x - 1)%nat)) /\
  below m (Some d) false = Some (default d (cell (m_grid m) x (S y))) /\
  above m (Some d) false
    = Some (if decide (y = O) then d else default d (cell (m_grid m) x (y - 1)%nat)).
Proof.
  intros Hok Hcur Hc Hy.
  destruct (horizontal_nav m d x y row false Hok Hcur Hc Hy) as [-> ->].
  destruct (vertical_nav m d x y false Hok Hcur Hc) as [-> ->].
  rewrite !nth_lookup. split_and!; f_equal.
  - case_decide; [done|]. by rewrite (proj2 (lookup_ge_None _ _)) by lia.
  - repeat case_decide; try done; lia.
  - case_decide as Hlt; [done|].
    destruct (cell (m_grid m) x (S y)) as [e|] eqn:E; [|done].
    apply (col_bounds (m_grid m)) in E; [lia|apply Hok].
  - repeat case_decide; try done; lia.
Qed.


(** Creating a desktop succeeds below the maximum and inserts the new
    desktop, with the given name and a new id, at the requested position
    (clamped to the end); the other desktops keep their ids, names and order,
    the current desktop stays, and the invariant (x11 numbers 1..n in order,
    the grid a layout of the desktops) holds again. At the maximum nothing
    happens. *)
Theorem createVirtualDesktop_inserts fuel position nm m :
  ok m -> 0 <= position -> saveable fuel m ->
  if count m =? maximum
  then createVirtualDesktop createUuid i18n_Desktop fuel position nm m = Some (None, m)
  else exists p m', createVirtualDesktop createUuid i18n_Desktop fuel position nm m = Some (Some p, m') /\
    ok m' /\ p ∉ m_desktops m /\
    view m' = insert_at (Z.to_nat (Z.min position (count m)))
                (Some (createUuid (next_id m), nm)) (view m) /\
    m_current m' = m_current m.
Proof.
  intros Hok Hpos Hs. destruct (Z.eqb_spec (count m) maximum) as [Heq|Hne].
  - unfold createVirtualDesktop. by rewrite (proj2 (Z.eqb_eq _ _)).
  - pose proof (ok_count _ (proj1 Hok)).
    edestruct (create_ok createUuid i18n_Desktop fuel position nm m) as (m' & ? & ? & ? & ? & ?);
      [done|lia|done..|].
    eexists _, m'. split_and!; try done.
    intros Hin%(ok_alloc _ (proj1 Hok)). lia.
Qed.

(** C21: removing the desktop with a given id deletes exactly that desktop; the
    others keep ids, names and order, the invariant holds again, and the
    current desktop is the one that is now at the position of the old current
    desktop, or the last one. The last remaining desktop cannot be removed and
    an unknown id changes nothing. *)
Theorem removeVirtualDesktop_deletes fuel id m cur j :
  ok m -> saveable fuel m -> m_current m = Some cur -> m_desktops m !! j = Some cur ->
  match index_of (Some id) ((fun v : option (string * string) => fst <$> v) <$> view m) with
  | None => removeVirtualDesktop i18n_Desktop fuel id m = Some m
  | Some k =>
      if count m =? 1 then removeVirtualDesktop i18n_Desktop fuel id m = Some m
      else exists m', removeVirtualDesktop i18n_Desktop fuel id m = Some m' /\ ok m' /\
        view m' = delete k (view m) /\
        m_current m' = delete k (m_desktops m) !! (j `min` (length (m_desktops m) - 2))%nat
  end.
Proof.
  intros Hok Hs Hcur Hj.
  assert (forall k p, m_desktops m !! k = Some p ->
    ((fun v : option (string * string) => fst <$> v) <$> view m) !! k = Some (m_id <$> heap m !! p)) as Hlook.
  { intros k p Hp. unfold view. rewrite !list_lookup_fmap, Hp. cbn. by destruct (heap m !! p). }
  destruct (index_of _ _) as [k|] eqn:Ei.
  - destruct (Z.eqb_spec (count m) 1) as [E1|E1].
    { unfold removeVirtualDesktop. by rewrite (proj2 (Z.eqb_eq _ _)). }
    apply index_of_Some in Ei as [Hk Hfirst].
    destruct (m_desktops m !! k) as [d|] eqn:Hd.
    2: { apply lookup_ge_None in Hd. apply lookup_lt_Some in Hk. unfold view in Hk.
         rewrite !length_fmap in Hk. lia. }
    edestruct (remove_ok i18n_Desktop fuel id k d j cur m) as (m' & ? & ? & ? & ? & ?);
      [done|destruct (proj2 Hok); lia|done| |done..|eauto].
    unfold desktopForId. apply fmap_Some. exists (k, d). split; [|done].
    apply list_find_Some. split_and!; [done|by apply Hlook in Hd; simplify_eq|].
    intros i y Hy Hik Hy'. apply Hfirst. apply list_elem_of_lookup. exists i.
    rewrite lookup_take_lt by done. by rewrite (Hlook _ _ Hy), Hy'.
  - unfold removeVirtualDesktop. destruct (count m =? 1); [done|].
    apply index_of_None in Ei. unfold desktopForId.
    rewrite (proj2 (list_find_None _ _)); [done|].
    apply Forall_forall. intros p [k Hk]%list_elem_of_lookup Hp. apply Ei.
    apply list_elem_of_lookup. exists k. by rewrite (Hlook _ _ Hk), Hp.
Qed.

(** SetCount to any number gives a list of that many desktops, clamped to
    1..20 after the conversion to unsigned: the first ones are kept and those
    that are added have new ids and the default names. *)
Theorem setCount_resizes fuel cnt m :
  ok m -> saveable fuel m ->
  let n := qBound 1 (u32 cnt) maximum in
  exists m', setCount createUuid i18n_Desktop fuel cnt m = Some m' /\ ok m' /\ count m' = n /\
    (n <= count m -> view m' = take (Z.to_nat n) (view m)) /\
    (count m <= n -> s_loadingDesktopSettings m = false ->
     view m' = view m ++ ((fun i : nat => Some (createUuid (next_id m + i)%nat,
                             i18n_Desktop (count m + Z.of_nat i + 1)))
                          <$> seq 0 (Z.to_nat (n - count m)))).
Proof.
  intros Hok Hs n. destruct (decide (n = count m)) as [Heq|Hne].
  - exists m. unfold setCount. fold n. rewrite (proj2 (Z.eqb_eq _ _)) by done.
    split_and!; try done; intros.
    + rewrite take_ge; [done|]. unfold view, count in *. rewrite length_fmap. lia.
    + rewrite Heq, Z.sub_diag. cbn. by rewrite app_nil_r.
  - destruct (setCount_ok createUuid i18n_Desktop fuel cnt m (proj1 Hok) (fun _ => Hs) Hne)
      as (m' & Hset & Hok' & Hc & Hv & _). fold n in Hc, Hv.
    exists m'. split_and!; try done; intros Hle.
    + by rewrite (proj2 (Z.ltb_lt _ _)) in Hv by lia.
    + intros Hl. rewrite (proj2 (Z.ltb_ge _ _)) in Hv by lia. rewrite Hv. f_equal.
      apply list_fmap_ext. intros i x _. unfold new_desktop_view. by rewrite Hl.
Qed.

(** C1: a saved configuration loads back: save succeeds, and loading the
    configuration it leaves into a new manager gives the same desktops, with
    the same ids, names, order and number of rows, and the invariant. *)
Theorem save_load_roundtrip fuel m c :
  ok m -> saveable fuel m -> s_loadingDesktopSettings m = false -> m_config m = Some c ->
  (forall k : nat, i18n_Desktop (Z.of_nat k) <> "") ->
  Forall (fun v => forall i n, v = Some (i, n) -> i <> "" /\ n <> "") (view m) ->
  m_rows m <= count m ->
  exists c' m2, save i18n_Desktop fuel m = Some (m <| m_config := Some c' |>) /\
    load createUuid i18n_Desktop fuel (initial <| m_config := Some c' |>) = Some m2 /\
    ok m2 /\ view m2 = view m /\ m_rows m2 = m_rows m /\
    s_loadingDesktopSettings m2 = false.
Proof.
  intros Hok Hs Hl Hc Hi Hv Hr.
  eapply (save_load_ok createUuid i18n_Desktop fuel m c); try done.
  intros p vd Hp Hpv. rewrite Forall_forall in Hv. apply and_comm.
  eapply Hv; [|done]. unfold view. apply list_elem_of_fmap. exists p. by rewrite Hpv.
Qed.

(** Load without a configuration leaves the loading flag set, after which
    save never writes anything, whatever configuration is set later. *)
Theorem load_without_config_disables_save fuel m c :
  m_config m = None ->
  exists m', load createUuid i18n_Desktop fuel m = Some m' /\
    save i18n_Desktop fuel (setConfig c m') = Some (setConfig c m').
Proof. intros Hm. unfold load. cbn -[save]. rewrite Hm. eexists. split; [done|done]. Qed.
End Properties.

Lemma navigation_inverse_witness :
  exists e, toRight five_at_2 (Some 4%nat) true = Some e /\
            toLeft five_at_2 (Some e) true = Some 4%nat.
Proof.
  apply (navigation_inverse five_at_2 4%nat (proj1 five_at_2_ok)
    (mk_is_Some _ _ (proj2 five_at_2_ok))).
  - apply list_elem_of_lookup. by exists 4%nat.
  - by left.
Defined.

Lemma navigation_no_wrap_witness :
  toRight five_at_2 (Some 4%nat) false = Some 4%nat /\
  above five_at_2 (Some 4%nat) false = Some 1%nat.
Proof.
  destruct (navigation_no_wrap five_at_2 4%nat 1 1 [3; 4]%nat (proj1 five_at_2_ok)
    (mk_is_Some _ _ (proj2 five_at_2_ok))) as (H1 & _ & _ & H2); [by vm_compute..|].
  split; [rewrite H1|rewrite H2]; by vm_compute.
Defined.


Lemma createVirtualDesktop_inserts_witness :
  exists p m', createVirtualDesktop uuid desktopLabel 30 1 "New" five_at_2 = Some (Some p, m') /\
    ok m' /\ length (view m') = 6%nat.
Proof.
  assert ((count five_at_2 =? maximum) = false) as E by (by vm_compute).
  pose proof (createVirtualDesktop_inserts uuid desktopLabel 30 1 "New" five_at_2
    (proj1 five_at_2_ok) ltac:(lia) five_at_2_saveable) as Hc.
  rewrite E in Hc. destruct Hc as (p & m' & H & Hok & _ & Hv & _).
  exists p, m'. split; [exact H|]. split; [exact Hok|]. rewrite Hv. by vm_compute.
Defined.

Lemma removeVirtualDesktop_deletes_witness :
  exists m', removeVirtualDesktop desktopLabel 30 "uuid-3" five_at_2 = Some m' /\ ok m'.
Proof.
  pose proof (removeVirtualDesktop_deletes desktopLabel 30 "uuid-3" five_at_2 1%nat 1%nat
    (proj1 five_at_2_ok) five_at_2_saveable (proj2 five_at_2_ok) ltac:(by vm_compute)) as Hr.
  assert (index_of (Some "uuid-3") ((fun v : option (string * string) => fst <$> v)
            <$> view five_at_2) = Some 3%nat) as Ei by (by vm_compute).
  assert ((count five_at_2 =? 1) = false) as E by (by vm_compute).
  rewrite Ei, E in Hr. destruct Hr as (m' & H & Hok & _).
  exists m'. split; [exact H|exact Hok].
Defined.

Lemma setCount_resizes_witness :
  exists m', setCount uuid desktopLabel 30 3 five_at_2 = Some m' /\ ok m' /\ count m' = 3.
Proof.
  destruct (setCount_resizes uuid desktopLabel 30 3 five_at_2
    (proj1 five_at_2_ok) five_at_2_saveable) as (m' & H & Hok & Hc & _).
  exists m'. split; [exact H|]. split; [exact Hok|]. rewrite Hc. by vm_compute.
Defined.

Lemma desktopLabel_nonempty k : desktopLabel k <> "".
Proof. discriminate. Qed.

Lemma save_load_roundtrip_witness :
  exists c' m2, save desktopLabel 30 five_at_2 = Some (five_at_2 <| m_config := Some c' |>) /\
    load uuid desktopLabel 30 (initial <| m_config := Some c' |>) = Some m2 /\
    view m2 = view five_at_2.
Proof.
  destruct (save_load_roundtrip uuid desktopLabel 30 five_at_2 (default (mkMapConfig ∅ ∅) (m_config five_at_2))
    (proj1 five_at_2_ok) five_at_2_saveable) as (c' & m2 & Hs & Hl & _ & Hv & _).
  - by vm_compute.
  - by vm_compute.
  - intros k. apply desktopLabel_nonempty.
  - apply Forall_forall. intros v Hin i n ->. vm_compute in Hin.
    repeat (apply elem_of_cons in Hin as [[= -> ->]|Hin]; [done|]). by apply elem_of_nil in Hin.
  - by vm_compute.
  - exists c', m2. split; [exact Hs|]. split; [exact Hl|exact Hv].
Defined.

Lemma load_without_config_disables_save_witness :
  exists m', load uuid desktopLabel 30 (initial : manager) = Some m' /\
    save desktopLabel 30 (setConfig (Some (mkMapConfig ∅ ∅)) m')
      = Some (setConfig (Some (mkMapConfig ∅ ∅)) m').
Proof.
  exact (load_without_config_disables_save uuid desktopLabel 30 initial
    (Some (mkMapConfig ∅ ∅)) eq_refl).
Defined.

(** Removing a desktop in front of the current one makes the desktop behind
    the current one current, and no currentChanged signal is emitted: with five
    desktops and the second one current, after the removal of the first one the
    third one is current. *)
Theorem remove_in_front_changes_current :
  m_current five_at_2 = m_desktops five_at_2 !! 1%nat /\
  exists m', removeVirtualDesktop desktopLabel 30 "uuid-0" five_at_2 = Some m' /\
    m_current m' = m_desktops five_at_2 !! 2%nat /\
    existsb is_currentChanged (drop (length (signals five_at_2)) (signals m')) = false.
Proof.
  split; [by vm_compute|]. eexists. split; [vm_compute; reflexivity|].
  split; by vm_compute.
Qed.
End ManagerProps.
