(* ===== verification/Toplevel.v ===== *)
(** * Windows (src/toplevel.h, src/toplevel.cpp, src/win/)

    The window object shared by the stacking, focus, transient and placement
    components, with the predicates of src/win/net.h, meta.h, controlling.h,
    screen.h and types.h. A window is identified by a [wid] (the pointer); the
    heap of windows is a function from [wid] to [Window]. The fields hold the
    members of Toplevel, win::control, win::transient and win::remnant that the
    modelled code reads or writes; values that a window class computes from its
    surface (whether it is shown, its window type) are fields as well. *)

From S2P Require Import Prelude Qt.

Module Toplevel.
Import Qt.

Abbreviation wid := nat (only parsing).

(** NET::WindowType. *)
Inductive WindowType :=
  | Unknown | Normal | Desktop | Dock | Toolbar | Menu | Dialog | Override | TopMenu
  | Utility | Splash | DropdownMenu | PopupMenu | Tooltip | Notification | ComboBox
  | DNDIcon | OnScreenDisplay | CriticalNotification.
#[global] Instance WindowType_eq_dec : EqDecision WindowType.
Proof. solve_decision. Defined.

(** win::layer, without [unknown] and [count]: an unknown layer is [None]. *)
Inductive layer :=
  | l_desktop | l_below | l_normal | l_dock | l_above | l_notification | l_active
  | l_critical_notification | l_on_screen_display | l_unmanaged.
#[global] Instance layer_eq_dec : EqDecision layer.
Proof. solve_decision. Defined.

(** The value of the enumerator. *)
Definition layer_index (l : layer) : nat :=
  match l with
  | l_desktop => 0 | l_below => 1 | l_normal => 2 | l_dock => 3 | l_above => 4
  | l_notification => 5 | l_active => 6 | l_critical_notification => 7
  | l_on_screen_display => 8 | l_unmanaged => 9
  end.
Definition layer_count : nat := 10.

(** The state of win::control that the modelled code uses. *)
Record Control := mkControl {
  active : bool;
  keep_above : bool;
  keep_below : bool;
  fullscreen : bool;
  minimized : bool;
  demands_attention : bool;
  auto_raise : bool;
}.
#[global] Instance Control_eta : RecordEta Control := fun c =>
  mkControl (active c) (keep_above c) (keep_below c) (fullscreen c) (minimized c)
    (demands_attention c) (auto_raise c).

(** What win::remnant keeps of a closed window. *)
Record Remnant := mkRemnant {
  was_x11_client : bool;
  was_group_transient : bool;
  was_active : bool;
  was_popup_window : bool;
  refcount : Z;
}.
#[global] Instance Remnant_eta : RecordEta Remnant := fun r =>
  mkRemnant (was_x11_client r) (was_group_transient r) (was_active r) (was_popup_window r)
    (refcount r).

(** The state hints of the window's NETWinInfo. *)
Record NetInfo := mkNetInfo { ni_above : bool; ni_below : bool; ni_attention : bool }.
#[global] Instance NetInfo_eta : RecordEta NetInfo := fun i =>
  mkNetInfo (ni_above i) (ni_below i) (ni_attention i).

Record Window := mkWindow {
  windowType : WindowType;
  wantsInput : bool;
  isShown : bool;
  isInternal : bool;
  isLockScreen : bool;
  belongsToDesktop : bool;
  activities : list string;
  desktops : list nat;
  screen : Z;
  frameGeometry : QRect;
  is_x11 : bool;
  group : option nat;
  info : option NetInfo;
  groupTransient : bool;
  m_layer : option layer;
  control : option Control;
  remnant : option Remnant;
  leads : list wid;
  children : list wid;
  annexed : bool;
  modal : bool;
}.
#[global] Instance Window_eta : RecordEta Window := fun w =>
  mkWindow (windowType w) (wantsInput w) (isShown w) (isInternal w) (isLockScreen w)
    (belongsToDesktop w) (activities w) (desktops w) (screen w) (frameGeometry w)
    (is_x11 w) (group w) (info w) (groupTransient w) (m_layer w) (control w) (remnant w)
    (leads w) (children w) (annexed w) (modal w).

(** The heap of windows. *)
Definition Heap := wid -> Window.

(** What the windows' predicates read from the rest of the program. *)
Record Env := mkEnv {
  wayland : bool;                            (** the operation mode is not X11 *)
  desktopForX11Id : Z -> option nat;         (** VirtualDesktopManager *)
  x11DesktopNumber : nat -> Z;
  current_desktop : Z;
  current_activity : option string;          (** None without an activity manager *)
  current_screen : Z;                        (** Screens *)
  screen_geometry : Z -> QRect;
  showing_desktop : bool;                    (** Workspace *)
}.

(** NET::OnAllDesktops. *)
Definition OnAllDesktops : Z := -1.

(** ** src/win/net.h *)

Definition is_type (t : WindowType) (w : Window) : bool := bool_decide (windowType w = t).
Definition is_desktop := is_type Desktop.
Definition is_dock := is_type Dock.
Definition is_menu := is_type Menu.
Definition is_toolbar := is_type Toolbar.
Definition is_splash := is_type Splash.
Definition is_utility := is_type Utility.
Definition is_dialog := is_type Dialog.
Definition is_normal := is_type Normal.
Definition is_notification := is_type Notification.
Definition is_critical_notification := is_type CriticalNotification.
Definition is_on_screen_display := is_type OnScreenDisplay.

(** Toplevel::is_popup_end. *)
Definition is_popup_end (w : Window) : bool :=
  match remnant w with Some r => was_popup_window r | None => false end.

Definition is_popup (w : Window) : bool :=
  match windowType w with
  | ComboBox | DropdownMenu | PopupMenu | Tooltip => true
  | _ => is_popup_end w
  end.

(** ** src/win/meta.h and controlling.h *)

Definition is_special_window (w : Window) : bool :=
  is_desktop w || is_dock w || is_splash w || is_toolbar w || is_notification w ||
  is_critical_notification w || is_on_screen_display w.

Definition wants_tab_focus (w : Window) : bool :=
  (is_normal w || is_dialog w) && wantsInput w.

(** ** src/win/screen.h and the desktop members of Toplevel *)

(** Toplevel::desktop. *)
Definition desktop (E : Env) (w : Window) : Z :=
  match last (desktops w) with None => OnAllDesktops | Some d => x11DesktopNumber E d end.

Definition on_all_desktops (E : Env) (w : Window) : bool :=
  if wayland E then bool_decide (desktops w = []) else desktop E w =? OnAllDesktops.

Definition on_desktop (E : Env) (w : Window) (d : Z) : bool :=
  (if wayland E then
     match desktopForX11Id E d with
     | Some vd => Prelude.contains (desktops w) vd
     | None => false
     end
   else desktop E w =? d) || on_all_desktops E w.

Definition on_current_desktop (E : Env) (w : Window) : bool := on_desktop E w (current_desktop E).

Definition on_all_activities (w : Window) : bool := bool_decide (activities w = []).

Definition on_activity (w : Window) (activity : string) : bool :=
  on_all_activities w || Prelude.contains (activities w) activity.

(** Toplevel::isOnCurrentActivity. *)
Definition isOnCurrentActivity (E : Env) (w : Window) : bool :=
  match current_activity E with None => true | Some a => on_activity w a end.

Definition on_screen (E : Env) (w : Window) (s : Z) : bool :=
  intersects (screen_geometry E s) (frameGeometry w).

Definition on_active_screen (E : Env) (w : Window) : bool := on_screen E w (current_screen E).

(** Toplevel::isTransient and win::transient::lead. *)
Definition lead (w : Window) : option wid := head (leads w).
Definition isTransient (w : Window) : bool := match lead w with Some _ => true | None => false end.

(** A window on all desktops is on every desktop. *)
Lemma on_all_on_desktop E w d : on_all_desktops E w = true -> on_desktop E w d = true.
Proof. unfold on_desktop. intros ->. apply orb_true_r. Qed.

#[export] Hint Resolve on_all_on_desktop : kwin.

(** ** Sample data

    A managed normal window on the first desktop of an X11 session with four
    desktops and one screen. *)
Definition plain_control : Control := mkControl false false false false false false false.

Definition plain_window : Window :=
  mkWindow Normal true true false false false [] [0%nat] 0 (mkRect 10 10 200 100) false None None false None
    (Some plain_control) None [] [] false false.

Definition plain_env : Env :=
  mkEnv false (fun d => if (1 <=? d) && (d <=? 4) then Some (Z.to_nat (d - 1)) else None)
    (fun n => Z.of_nat n + 1) 1 None 0 (fun _ => mkRect 0 0 1920 1080) false.

End Toplevel.
