(* ===== verification/FocusChain.v ===== *)
(** * Focus chains (src/focuschain.h, src/focuschain.cpp)

    [FocusChain]: one chain of windows per virtual desktop and the global most
    recently used chain. The end of a chain is its first, most recently focused
    window. The chains are a finite map from desktop numbers, as the code's hash
    map; the loops over it treat every chain by itself. *)

From S2P Require Import Prelude Qt Toplevel.

Module FocusChain.
Import Toplevel.

Inductive Change := MakeFirst | MakeLast | Update.

Abbreviation Chain := (list wid) (only parsing).

Record FocusChain := mkFocusChain {
  m_mostRecentlyUsed : Chain;
  m_desktopFocusChains : gmap Z Chain;
  m_separateScreenFocus : bool;
  m_activeClient : option wid;
  m_currentDesktop : Z;
}.
#[global] Instance FocusChain_eta : RecordEta FocusChain := fun f =>
  mkFocusChain (m_mostRecentlyUsed f) (m_desktopFocusChains f) (m_separateScreenFocus f)
    (m_activeClient f) (m_currentDesktop f).

(** The constructor. *)
Definition initial : FocusChain := mkFocusChain [] ∅ false None 0.

Section Operations.
Context (E : Env) (H : Heap).
(** Toplevel::belongsToSameApplication, which every window class defines. *)
Context (same_client : wid -> wid -> bool).
Implicit Types (f : FocusChain) (w : wid) (chain : Chain).

Definition setSeparateScreenFocus (b : bool) f : FocusChain := f <| m_separateScreenFocus := b |>.
Definition setActiveClient (w : option wid) f : FocusChain := f <| m_activeClient := w |>.
Definition setCurrentDesktop (d : Z) f : FocusChain := f <| m_currentDesktop := d |>.

Definition remove w f : FocusChain :=
  f <| m_desktopFocusChains := remove_all w <$> m_desktopFocusChains f |>
    <| m_mostRecentlyUsed := remove_all w (m_mostRecentlyUsed f) |>.

(** The growing and shrinking loops of [resize]. *)
Fixpoint grow_chains (n : nat) (i : Z) (m : gmap Z Chain) : gmap Z Chain :=
  match n with O => m | S n' => grow_chains n' (i + 1) (<[i := []]> m) end.

Fixpoint shrink_chains (n : nat) (i : Z) (m : gmap Z Chain) : gmap Z Chain :=
  match n with O => m | S n' => shrink_chains n' (i - 1) (delete i m) end.

Definition resize (previousSize newSize : Z) f : FocusChain :=
  f <| m_desktopFocusChains :=
         shrink_chains (Z.to_nat (previousSize - newSize)) previousSize
           (grow_chains (Z.to_nat (newSize - previousSize)) (previousSize + 1)
              (m_desktopFocusChains f)) |>.

Definition getForActivation f (d : Z) (scr : Z) : option wid :=
  chain ← m_desktopFocusChains f !! d;
  find_last (fun w => isShown (H w) && isOnCurrentActivity E (H w) &&
                      (negb (m_separateScreenFocus f) || (screen (H w) =? scr))) chain.

Definition makeFirstInChain w chain : Chain := remove_all w chain ++ [w].
Definition makeLastInChain w chain : Chain := w :: remove_all w chain.

Definition insertClientIntoChain f w chain : Chain :=
  if Prelude.contains chain w then chain
  else
    match m_activeClient f with
    | Some a =>
        if negb (bool_decide (a = w)) && bool_decide (last chain = Some a)
        then insert_at (length chain - 1) w chain
        else chain ++ [w]
    | None => chain ++ [w]
    end.

Definition updateClientInChain f w (change : Change) chain : Chain :=
  match change with
  | MakeFirst => makeFirstInChain w chain
  | MakeLast => makeLastInChain w chain
  | Update => insertClientIntoChain f w chain
  end.

(** The body of the loop over the desktops' chains in [update]. *)
Definition update_desktop_chain f w (change : Change) (d : Z) chain : Chain :=
  if on_all_desktops E (H w) then
    if (d =? m_currentDesktop f) && match change with Update => false | _ => true end
    then match change with MakeFirst => makeFirstInChain w chain | _ => makeLastInChain w chain end
    else insertClientIntoChain f w chain
  else if on_desktop E (H w) d then updateClientInChain f w change chain
  else remove_all w chain.

Definition update w (change : Change) f : FocusChain :=
  if negb (wants_tab_focus (H w)) then remove w f
  else
    f <| m_desktopFocusChains :=
           map_imap (fun d chain => Some (update_desktop_chain f w change d chain))
             (m_desktopFocusChains f) |>
      <| m_mostRecentlyUsed := updateClientInChain f w change (m_mostRecentlyUsed f) |>.

Definition moveAfterClientInChain w reference chain : Chain :=
  if negb (Prelude.contains chain reference) then chain
  else
    let chain' := remove_all w chain in
    if same_client reference w then
      insert_at (default O (index_of reference chain')) w chain'
    else
      match find_last_index (same_client reference) chain' with
      | Some i => insert_at i w chain'
      | None => chain'
      end.

Definition moveAfterClient w reference f : FocusChain :=
  if negb (wants_tab_focus (H w)) then f
  else
    f <| m_desktopFocusChains :=
           map_imap (fun d chain =>
             Some (if on_desktop E (H w) d then moveAfterClientInChain w reference chain else chain))
             (m_desktopFocusChains f) |>
      <| m_mostRecentlyUsed := moveAfterClientInChain w reference (m_mostRecentlyUsed f) |>.

Definition firstMostRecentlyUsed f : option wid := head (m_mostRecentlyUsed f).

Definition nextMostRecentlyUsed f reference : option wid :=
  match index_of reference (m_mostRecentlyUsed f) with
  | None => head (m_mostRecentlyUsed f)
  | Some O => last (m_mostRecentlyUsed f)
  | Some (S i) => m_mostRecentlyUsed f !! i
  end.

Definition isUsableFocusCandidate f w (prev : option wid) : bool :=
  negb (bool_decide (Some w = prev)) && isShown (H w) && on_current_desktop E (H w) &&
  isOnCurrentActivity E (H w) &&
  (negb (m_separateScreenFocus f) ||
   on_screen E (H w) (match prev with Some p => screen (H p) | None => current_screen E end)).

Definition nextForDesktop f (reference : option wid) (d : Z) : option wid :=
  chain ← m_desktopFocusChains f !! d;
  find_last (fun w => isUsableFocusCandidate f w reference) chain.

Definition contains_on f w (d : Z) : bool :=
  match m_desktopFocusChains f !! d with
  | Some chain => Prelude.contains chain w
  | None => false
  end.

Definition contains f w : bool := Prelude.contains (m_mostRecentlyUsed f) w.
End Operations.

(** ** Specification and lemmas *)

(** Every chain lists a window at most once. *)
Record ok (f : FocusChain) : Prop := {
  ok_chains : map_Forall (fun _ c => NoDup c) (m_desktopFocusChains f);
  ok_mru : NoDup (m_mostRecentlyUsed f);
}.

Section Chains.
Implicit Types (f : FocusChain) (w r : wid) (c : list wid).

(** An operation that places [w] in a chain: afterwards [w] is in it exactly
    once and the order of the other windows is the one before. *)
Definition places w c c' : Prop :=
  w ∈ c' /\ NoDup c' /\ remove_all w c' = remove_all w c.

Lemma remove_all_snoc w c : remove_all w (c ++ [w]) = remove_all w c.
Proof. rewrite remove_all_app, remove_all_cons_eq. apply app_nil_r. Qed.

Lemma remove_all_idem w c : remove_all w (remove_all w c) = remove_all w c.
Proof. apply remove_all_id, not_elem_of_remove_all. Qed.

Lemma places_insert_at i w c :
  NoDup c -> places w c (insert_at i w (remove_all w c)).
Proof.
  intros Hc. split_and!.
  - rewrite elem_of_insert_at. by left.
  - apply NoDup_insert_at; auto using not_elem_of_remove_all, NoDup_remove_all.
  - apply remove_all_insert_at, not_elem_of_remove_all.
Qed.

Lemma makeFirst_places w c : NoDup c -> places w c (makeFirstInChain w c).
Proof.
  intros Hc. unfold makeFirstInChain. split_and!.
  - set_solver.
  - apply NoDup_app. split_and!; [by apply NoDup_remove_all| |apply NoDup_singleton].
    intros x Hx ->%list_elem_of_singleton. by apply not_elem_of_remove_all in Hx.
  - by rewrite remove_all_snoc, remove_all_idem.
Qed.

Lemma makeLast_places w c : NoDup c -> places w c (makeLastInChain w c).
Proof.
  intros Hc. unfold makeLastInChain. split_and!.
  - by left.
  - constructor; [apply not_elem_of_remove_all|by apply NoDup_remove_all].
  - by rewrite remove_all_cons_eq, remove_all_idem.
Qed.

Lemma insertClient_places f w c : NoDup c -> places w c (insertClientIntoChain f w c).
Proof.
  intros Hc. unfold insertClientIntoChain.
  destruct (Prelude.contains c w) eqn:Ec; [by apply contains_true in Ec|].
  apply contains_false in Ec.
  assert (places w c (c ++ [w])) as Happ.
  { rewrite <- (remove_all_id w c) at 2 by done. by apply makeFirst_places. }
  destruct (m_activeClient f) as [a|]; [|done].
  destruct (negb _ && _); [|done].
  rewrite <- (remove_all_id w c) at 3 by done. by apply places_insert_at.
Qed.

Lemma updateClient_places f w change c :
  NoDup c -> places w c (updateClientInChain f w change c).
Proof.
  destruct change; simpl; auto using makeFirst_places, makeLast_places, insertClient_places.
Qed.

Lemma update_desktop_chain_spec E H f w change d c :
  NoDup c ->
  let c' := update_desktop_chain E H f w change d c in
  if on_desktop E (H w) d then places w c c' else c' = remove_all w c.
Proof.
  intros Hc. unfold update_desktop_chain.
  destruct (on_all_desktops E (H w)) eqn:Ha.
  - rewrite on_all_on_desktop by done.
    destruct change, (d =? m_currentDesktop f); simpl;
      auto using makeFirst_places, makeLast_places, insertClient_places.
  - destruct (on_desktop E (H w) d); [|done]. by apply updateClient_places.
Qed.

End Chains.

Section Moves.
Context (same_client : wid -> wid -> bool).
Implicit Types (w r : wid) (c : list wid).

(** Where the window goes in a chain it is moved in. *)
Lemma moveAfter_places w r c :
  NoDup c -> r ∈ c -> w <> r -> (same_client r w = false -> same_client r r = true) ->
  places w c (moveAfterClientInChain same_client w r c).
Proof.
  intros Hc Hr Hne Hrefl. unfold moveAfterClientInChain.
  rewrite (proj2 (contains_true _ _)) by done. simpl.
  destruct (same_client r w) eqn:Es; [by apply places_insert_at|].
  destruct (find_last_index _ _) as [i|] eqn:Ei; [by apply places_insert_at|].
  exfalso. unfold find_last_index in Ei. rewrite scan_down_None in Ei.
  assert (r ∈ remove_all w c) as [k Hk]%list_elem_of_lookup
    by (apply elem_of_remove_all; auto).
  specialize (Ei k r). rewrite Hrefl in Ei by done.
  discriminate Ei; [by eapply lookup_lt_Some|done].
Qed.

Lemma moveAfter_absent w r c :
  r ∉ c -> moveAfterClientInChain same_client w r c = c.
Proof. intros Hr. unfold moveAfterClientInChain. by rewrite (proj2 (contains_false _ _)). Qed.

(** A window of the reference's application goes directly behind it, that is to
    the position in front of it in the chain. *)
Lemma moveAfter_same w r c :
  NoDup c -> r ∈ c -> w <> r -> same_client r w = true ->
  exists c1 c2, moveAfterClientInChain same_client w r c = c1 ++ w :: r :: c2 /\
    remove_all w c = c1 ++ r :: c2.
Proof.
  intros Hc Hr Hne Hs. unfold moveAfterClientInChain.
  rewrite (proj2 (contains_true _ _)), Hs by done. simpl.
  destruct (index_of_is_Some r (remove_all w c)) as [i Hi].
  { apply elem_of_remove_all. auto. }
  rewrite Hi. apply index_of_Some in Hi as [Hi _]. simpl.
  exists (take i (remove_all w c)), (drop (S i) (remove_all w c)).
  split; [|by rewrite take_drop_middle]. unfold insert_at. do 2 f_equal.
  by rewrite (drop_S _ r).
Qed.
End Moves.

Section Resize.
Lemma grow_chains_lookup n : forall i m d,
  grow_chains n i m !! d = if decide (i <= d < i + Z.of_nat n) then Some [] else m !! d.
Proof.
  induction n as [|n IH]; intros i m d; cbn [grow_chains].
  - rewrite decide_False by lia. done.
  - rewrite IH. repeat case_decide; try lia; try done.
    + assert (d = i) as -> by lia. by rewrite lookup_insert_eq.
    + rewrite lookup_insert_ne by lia. done.
Qed.

Lemma shrink_chains_lookup n : forall i m d,
  shrink_chains n i m !! d = if decide (i - Z.of_nat n < d <= i) then None else m !! d.
Proof.
  induction n as [|n IH]; intros i m d; cbn [shrink_chains].
  - rewrite decide_False by lia. done.
  - rewrite IH. repeat case_decide; try lia; try done.
    + assert (d = i) as -> by lia. by rewrite lookup_delete_eq.
    + rewrite lookup_delete_ne by lia. done.
Qed.
End Resize.

Lemma ok_lookup f d c : ok f -> m_desktopFocusChains f !! d = Some c -> NoDup c.
Proof. intros [Hc _] Hd. by apply (Hc d c). Qed.

End FocusChain.
