(* ===== verification/FocusChainProps.v ===== *)
(** * Focus chains: the properties of FocusChain *)

From S2P Require Import Prelude Qt Toplevel FocusChain.

Module FocusChainProps.
Import Toplevel FocusChain.

Section Properties.
Context (E : Env) (H : Heap).
Implicit Types (f : FocusChain) (w : wid).

Lemma update_chain_of f w change d :
  wants_tab_focus (H w) = true ->
  m_desktopFocusChains (update E H w change f) !! d
  = update_desktop_chain E H f w change d <$> m_desktopFocusChains f !! d.
Proof.
  intros Hw. unfold update. rewrite Hw. cbn. rewrite map_lookup_imap.
  by destruct (m_desktopFocusChains f !! d).
Qed.

Lemma remove_chain_of f w d :
  m_desktopFocusChains (remove w f) !! d = remove_all w <$> m_desktopFocusChains f !! d.
Proof. apply lookup_fmap. Qed.

Lemma update_no_focus f w change : wants_tab_focus (H w) = false -> update E H w change f = remove w f.
Proof. intros Hw. unfold update. by rewrite Hw. Qed.

Lemma chain_remove_ok f w : ok f -> ok (remove w f).
Proof.
  intros [Hc Hm]. split; [|by apply NoDup_remove_all].
  intros d c. cbn. rewrite lookup_fmap, fmap_Some. intros (c0 & Hd & ->).
  apply NoDup_remove_all, (Hc d c0 Hd).
Qed.

Lemma chain_update_ok f w change : ok f -> ok (update E H w change f).
Proof.
  intros Hok. destruct (wants_tab_focus (H w)) eqn:Hw.
  2: { rewrite update_no_focus by done. by apply chain_remove_ok. }
  split.
  - intros d c. rewrite update_chain_of, fmap_Some by done. intros (c0 & Hd & ->).
    pose proof (ok_lookup f d c0 Hok Hd) as Hc.
    pose proof (update_desktop_chain_spec E H f w change d c0 Hc) as Hs. simpl in Hs.
    destruct (on_desktop E (H w) d); [apply Hs|]. rewrite Hs. by apply NoDup_remove_all.
  - unfold update. rewrite Hw. cbn. apply updateClient_places, ok_mru, Hok.
Qed.

(** C12: update puts a window that takes part in tab focus into the chain of
    exactly the desktops it is on, once in each, and into the most recently used
    chain, and takes it out of every other chain; a window that does not take
    part is taken out of all of them. The order of the other windows never
    changes, and the chains stay free of duplicates. *)
Theorem update_refines f w change :
  ok f ->
  let f' := update E H w change f in
  ok f' /\
  (forall d, match m_desktopFocusChains f !! d with
        | None => m_desktopFocusChains f' !! d = None
        | Some c => exists c', m_desktopFocusChains f' !! d = Some c' /\
            remove_all w c' = remove_all w c /\
            (w ∈ c' <-> wants_tab_focus (H w) = true /\ on_desktop E (H w) d = true)
        end) /\
  remove_all w (m_mostRecentlyUsed f') = remove_all w (m_mostRecentlyUsed f) /\
  (w ∈ m_mostRecentlyUsed f' <-> wants_tab_focus (H w) = true).
Proof.
  intros Hok f'. split; [by apply chain_update_ok|]. subst f'.
  destruct (wants_tab_focus (H w)) eqn:Hw.
  - split.
    + intros d. rewrite update_chain_of by done.
      destruct (m_desktopFocusChains f !! d) as [c|] eqn:Hd; [|done].
      pose proof (update_desktop_chain_spec E H f w change d c (ok_lookup f d c Hok Hd)) as Hs.
      eexists. split; [done|]. simpl in Hs. destruct (on_desktop E (H w) d).
      * destruct Hs as (Hin & _ & Hrem). split; [done|]. naive_solver.
      * rewrite Hs, remove_all_idem. split; [done|].
        split; [intros Hin; by apply not_elem_of_remove_all in Hin|naive_solver].
    + unfold update. rewrite Hw. cbn.
      destruct (updateClient_places f w change _ (ok_mru _ Hok)) as (Hin & _ & Hrem).
      split; [done|]. naive_solver.
  - rewrite update_no_focus by done. split.
    + intros d. rewrite remove_chain_of.
      destruct (m_desktopFocusChains f !! d) as [c|] eqn:Hd; [|done].
      eexists. split; [done|]. rewrite remove_all_idem. split; [done|].
      split; [intros Hin; by apply not_elem_of_remove_all in Hin|naive_solver].
    + change (m_mostRecentlyUsed (remove w f)) with (remove_all w (m_mostRecentlyUsed f)).
      rewrite remove_all_idem. split; [done|].
      split; [intros Hin; by apply not_elem_of_remove_all in Hin|done].
Qed.

Definition eligible f (scr : Z) w : bool :=
  isShown (H w) && isOnCurrentActivity E (H w) &&
  (negb (m_separateScreenFocus f) || (screen (H w) =? scr)).

(** The window that was made first last is the one that getForActivation
    selects on its desktop, if it is shown, on the current activity and, with
    separate screen focus, on the screen; when another window is made first
    after it and then removed, the choice returns to it. *)
Theorem activation_returns_to_last_focused f w v d scr :
  wants_tab_focus (H w) = true -> on_desktop E (H w) d = true ->
  on_all_desktops E (H w) = false \/ m_currentDesktop f = d ->
  is_Some (m_desktopFocusChains f !! d) -> eligible f scr w = true -> v <> w ->
  let f1 := update E H w MakeFirst f in
  getForActivation E H f1 d scr = Some w /\
  getForActivation E H (remove v (update E H v MakeFirst f1)) d scr = Some w.
Proof.
  intros Hw Hd Hall [c Hc] Hel Hvw f1.
  set (p := eligible f scr) in *.
  assert (m_desktopFocusChains f1 !! d = Some (remove_all w c ++ [w])) as H1.
  { unfold f1. rewrite update_chain_of, Hc by done. cbn. f_equal.
    unfold update_desktop_chain, makeFirstInChain. rewrite Hd.
    destruct (on_all_desktops E (H w)); [|done].
    destruct Hall as [?|<-]; [done|]. by rewrite Z.eqb_refl. }
  assert (forall g l, m_separateScreenFocus g = m_separateScreenFocus f ->
    m_desktopFocusChains g !! d = Some (l ++ [w]) -> getForActivation E H g d scr = Some w) as Hlast.
  { intros g l Hg Hl. unfold getForActivation. rewrite Hl. cbn. rewrite Hg.
    apply find_last_Some. exists l, []. split; [done|]. split; [exact Hel|constructor]. }
  split; [apply (Hlast f1 (remove_all w c)); [|done]; unfold f1, update; by rewrite Hw|].
  apply (Hlast _ (remove_all v (remove_all w c))).
  - unfold f1, update at 2. rewrite Hw. unfold update. by destruct (wants_tab_focus (H v)).
  - assert (exists c', m_desktopFocusChains (update E H v MakeFirst f1) !! d = Some c' /\
      remove_all v c' = remove_all v (remove_all w c ++ [w])) as (c' & Hc' & Hv).
    { destruct (wants_tab_focus (H v)) eqn:Hwv.
      - rewrite update_chain_of, H1 by done. eexists. split; [done|].
        unfold update_desktop_chain, updateClientInChain, makeFirstInChain, insertClientIntoChain.
        repeat case_match; rewrite ?remove_all_snoc, ?remove_all_idem; try done.
        all: rewrite ?(remove_all_id v (_ ++ [w])) by (by apply contains_false); try done.
        all: apply remove_all_insert_at; by apply contains_false.
      - rewrite update_no_focus, remove_chain_of, H1 by done. eexists. split; [done|].
        by rewrite remove_all_idem. }
    rewrite remove_chain_of, Hc'. cbn. rewrite Hv, remove_all_app.
    by rewrite (remove_all_cons_ne v w) by congruence.
Qed.

(** Moving a window after a reference keeps the chains free of duplicates
    and the order of all other windows; in each chain of a desktop the window is
    on that contains the reference, the window goes directly behind a reference
    of the same application (the position in front of it in the chain), and into
    the chain in any case; a chain without the reference, or of a desktop the
    window is not on, stays as it is. *)
Theorem moveAfterClient_places (same_client : wid -> wid -> bool) f w r d c :
  ok f -> wants_tab_focus (H w) = true -> w <> r ->
  (forall x, same_client x x = true) -> m_desktopFocusChains f !! d = Some c ->
  exists c', m_desktopFocusChains (moveAfterClient E H same_client w r f) !! d = Some c' /\
    if on_desktop E (H w) d && Prelude.contains c r then
      NoDup c' /\ w ∈ c' /\ remove_all w c' = remove_all w c /\
      (same_client r w = true -> exists c1 c2, c' = c1 ++ w :: r :: c2)
    else c' = c.
Proof.
  intros Hok Hw Hne Hrefl Hd. pose proof (ok_lookup f d c Hok Hd) as Hc.
  unfold moveAfterClient. rewrite Hw. cbn. rewrite map_lookup_imap, Hd. cbn.
  eexists. split; [done|]. destruct (on_desktop E (H w) d); simpl; [|done].
  destruct (Prelude.contains c r) eqn:Er.
  - apply contains_true in Er.
    destruct (moveAfter_places same_client w r c Hc Er Hne) as (H1 & H2 & H3); [auto|].
    split_and!; [done..|]. intros Hs.
    destruct (moveAfter_same same_client w r c Hc Er Hne Hs) as (c1 & c2 & -> & _). eauto.
  - apply contains_false in Er. by apply moveAfter_absent.
Qed.

Definition walk f w (k : nat) : option wid :=
  Nat.iter k (fun o => o ≫= nextMostRecentlyUsed f) (Some w).

Lemma next_index f w i :
  ok f -> m_mostRecentlyUsed f !! i = Some w ->
  nextMostRecentlyUsed f w
  = m_mostRecentlyUsed f !! (if decide (i = 0)%nat then (length (m_mostRecentlyUsed f) - 1)%nat
                             else (i - 1)%nat).
Proof.
  intros Hok Hi. unfold nextMostRecentlyUsed.
  rewrite (index_of_lookup _ _ _ (ok_mru _ Hok) Hi).
  destruct i as [|i]; simpl; [rewrite last_lookup; f_equal; lia|f_equal; lia].
Qed.

Lemma walk_index f w i k :
  ok f -> m_mostRecentlyUsed f !! i = Some w -> (k <= length (m_mostRecentlyUsed f))%nat ->
  walk f w k = m_mostRecentlyUsed f !!
    (if decide (k <= i)%nat then (i - k)%nat else (length (m_mostRecentlyUsed f) + i - k)%nat).
Proof.
  intros Hok Hi. pose proof (lookup_lt_Some _ _ _ Hi).
  induction k as [|k IH]; intros Hk.
  - simpl. by rewrite Nat.sub_0_r.
  - unfold walk in *. simpl. rewrite IH by lia. clear IH.
    set (j := if decide (k <= i)%nat then _ else _).
    assert (j < length (m_mostRecentlyUsed f))%nat as Hj by (unfold j; case_decide; lia).
    destruct (lookup_lt_is_Some_2 _ j Hj) as [x Hx]. rewrite Hx. simpl.
    rewrite (next_index f x j Hok Hx). f_equal. unfold j. repeat case_decide; lia.
Qed.

(** Walking through the most recently used chain from any of its windows
    visits every window of the chain exactly once before it comes back to the
    start, after as many steps as there are windows. *)
Theorem nextMostRecentlyUsed_cycles f w :
  ok f -> w ∈ m_mostRecentlyUsed f ->
  let n := length (m_mostRecentlyUsed f) in
  walk f w n = Some w /\
  walk f w <$> seq 0 n ≡ₚ Some <$> m_mostRecentlyUsed f.
Proof.
  intros Hok [i Hi]%list_elem_of_lookup n. pose proof (lookup_lt_Some _ _ _ Hi). split.
  - rewrite (walk_index f w i n) by done. rewrite <- Hi. f_equal. case_decide; lia.
  - apply NoDup_Permutation.
    + apply NoDup_alt. intros j1 j2 x Hj1 Hj2.
      rewrite list_lookup_fmap in Hj1, Hj2.
      apply fmap_Some in Hj1 as (k1 & [? Hk1]%lookup_seq & ->).
      apply fmap_Some in Hj2 as (k2 & [? Hk2]%lookup_seq & Heq). simpl in *. subst k1 k2.
      rewrite !(walk_index f w i) in Heq by (done || lia).
      match type of Heq with m_mostRecentlyUsed f !! ?a = _ !! ?b =>
        destruct (lookup_lt_is_Some_2 (m_mostRecentlyUsed f) a) as [x Hx];
          [repeat case_decide; lia|]; rewrite Hx in Heq; symmetry in Heq;
        pose proof (NoDup_lookup _ _ _ _ (ok_mru _ Hok) Hx Heq) end.
      repeat case_decide; lia.
    + apply NoDup_fmap_2; [by intros ?? [= ->]|apply Hok].
    + intros o. rewrite !list_elem_of_fmap. split.
      * intros (k & -> & [_ Hk]%elem_of_seq). rewrite (walk_index f w i) by (done || lia).
        match goal with |- context [_ !! ?a] =>
          destruct (lookup_lt_is_Some_2 (m_mostRecentlyUsed f) a) as [x Hx];
            [repeat case_decide; lia|] end.
        rewrite Hx. exists x. split; [done|]. by eapply list_elem_of_lookup_2.
      * intros (x & -> & [j Hj]%list_elem_of_lookup).
        pose proof (lookup_lt_Some _ _ _ Hj).
        exists (if decide (j <= i)%nat then (i - j)%nat else (n + i - j)%nat).
        rewrite (walk_index f w i) by (done || (repeat case_decide; lia)).
        split; [rewrite <- Hj; f_equal; repeat case_decide; lia|].
        apply elem_of_seq. case_decide; lia.
Qed.

(** After a change of the number of desktops there is a chain for exactly
    the desktops 1 to the new count; the remaining ones keep their chain and the
    new ones start empty. *)
Theorem resize_chains f prev new :
  0 <= prev -> 0 <= new ->
  (forall d, is_Some (m_desktopFocusChains f !! d) <-> 1 <= d <= prev) ->
  forall d, m_desktopFocusChains (resize prev new f) !! d =
    if decide (1 <= d <= new) then
      if decide (d <= prev) then m_desktopFocusChains f !! d else Some []
    else None.
Proof.
  intros Hp Hn Hdom d. unfold resize. cbn. rewrite shrink_chains_lookup, grow_chains_lookup.
  assert (~ (1 <= d <= prev) -> m_desktopFocusChains f !! d = None) as Hout.
  { intros Hd. apply eq_None_not_Some. by rewrite Hdom. }
  repeat case_decide; try done; try lia; apply Hout; lia.
Qed.
End Properties.

(** ** Witnesses *)

(** Windows 0 to 3 are plain windows, 3 is on all desktops; two desktops. *)
Definition demo_heap : Heap := fun w => if decide (w = 3)%nat then plain_window <| desktops := [] |> else plain_window.
Definition demo_chain : FocusChain :=
  setCurrentDesktop 1 (mkFocusChain [0; 1; 2]%nat {[1 := [0; 1; 2]%nat; 2 := []]} false None 0).

Lemma demo_ok : ok demo_chain.
Proof.
  split; [|by apply (bool_decide_unpack _); vm_compute].
  intros d c. cbn. rewrite lookup_insert_Some, lookup_singleton_Some.
  intros [[_ <-]|[_ [_ <-]]]; by apply (bool_decide_unpack _); vm_compute.
Qed.

Lemma update_refines_witness :
  ok demo_chain /\ ok (update plain_env demo_heap 3%nat MakeFirst demo_chain).
Proof.
  split; [exact demo_ok|].
  exact (proj1 (update_refines plain_env demo_heap demo_chain 3%nat MakeFirst demo_ok)).
Defined.

Lemma activation_returns_to_last_focused_witness :
  getForActivation plain_env demo_heap
    (remove 1%nat (update plain_env demo_heap 1%nat MakeFirst
       (update plain_env demo_heap 0%nat MakeFirst demo_chain))) 1 0 = Some 0%nat.
Proof.
  apply (activation_returns_to_last_focused plain_env demo_heap demo_chain 0%nat 1%nat 1 0);
    [by vm_compute|by vm_compute|by left; vm_compute|by eexists; vm_compute|by vm_compute|done].
Defined.

Lemma moveAfterClient_places_witness :
  exists c', m_desktopFocusChains (moveAfterClient plain_env demo_heap (fun _ _ => true) 2%nat 0%nat
               demo_chain) !! 1 = Some c' /\ exists c1 c2, c' = c1 ++ 2%nat :: 0%nat :: c2.
Proof.
  destruct (moveAfterClient_places plain_env demo_heap (fun _ _ => true) demo_chain 2%nat 0%nat 1
    [0; 1; 2]%nat demo_ok) as (c' & Hc & Hp); [by vm_compute|done|done|by vm_compute|].
  exists c'. split; [exact Hc|]. by apply Hp.
Defined.

Lemma nextMostRecentlyUsed_cycles_witness :
  walk demo_chain 1%nat 3 = Some 1%nat.
Proof.
  apply (nextMostRecentlyUsed_cycles demo_chain 1%nat demo_ok).
  apply (bool_decide_unpack _). by vm_compute.
Defined.

Lemma resize_chains_witness :
  m_desktopFocusChains (resize 2 3 demo_chain) !! 1 = Some [0; 1; 2]%nat.
Proof.
  rewrite (resize_chains demo_chain 2 3); [by vm_compute|lia|lia|].
  intros d. cbn. rewrite lookup_insert. case_decide; [split; [lia|eauto]|].
  rewrite lookup_singleton. case_decide; [split; [lia|eauto]|].
  split; [by intros [? ?]|lia].
Defined.

End FocusChainProps.
