(* ===== verification/Transient.v ===== *)
(** * Transient windows (src/win/transient.h, src/win/transient.cpp)

    [win::transient]: the leads and children of a window. The links are kept in
    the window objects of both sides. A [None] result is a failed assertion. *)

From S2P Require Import Prelude Qt Toplevel.

Module Transient.
Import Toplevel.

Section Operations.
Implicit Types (H : Heap) (w l c : wid).

(** Write a window. *)
Definition set_win (w : wid) (x : Window) H : Heap :=
  fun v => if decide (w = v) then x else H v.

Definition modify (w : wid) (g : Window -> Window) H : Heap := set_win w (g (H w)) H.

(** [m_window->remnant()->ref()] and [unref()], when it is a remnant. *)
Definition ref_remnant (d : Z) (x : Window) : Window :=
  x <| remnant := (fun r => r <| refcount := refcount r + d |>) <$> remnant x |>.

(** transient::add_lead, called on the transient of window [w]. *)
Definition add_lead w l H : option Heap :=
  if bool_decide (w = l) || contains (leads (H w)) l then None
  else Some (modify w (fun x => ref_remnant 1 x <| leads := leads x ++ [l] |>) H).

Definition remove_lead w l H : Heap :=
  if contains (leads (H w)) l
  then modify w (fun x => ref_remnant (-1) (x <| leads := remove_all l (leads x) |>)) H
  else H.

(** transient::add_child, called on the transient of window [w]. *)
Definition add_child w c H : option Heap :=
  if bool_decide (w = c) then None
  else if contains (children (H w)) c then Some H
  else add_lead c w (modify w (fun x => x <| children := children x ++ [c] |>) H).

Definition remove_child w c H : Heap :=
  remove_lead c w (modify w (fun x => x <| children := remove_all c (children x) |>) H).

(** transient::is_follower_of; [fuel] bounds the length of the chain of leads. *)
Fixpoint is_follower_of (fuel : nat) H w (window : wid) : bool :=
  contains (children (H window)) w ||
  match fuel with
  | O => false
  | S fuel' => existsb (fun l => is_follower_of fuel' H l window) (leads (H w))
  end.

Definition set_modal w (m : bool) H : Heap :=
  if Bool.eqb (modal (H w)) m then H else modify w (fun x => x <| modal := m |>) H.

(** lead_of_annexed_transient. *)
Fixpoint lead_of_annexed_transient (fuel : nat) H (win : option wid) : option wid :=
  match win with
  | Some w =>
      if annexed (H w) then
        match fuel with
        | O => Some w
        | S fuel' => lead_of_annexed_transient fuel' H (lead (H w))
        end
      else Some w
  | None => None
  end.
End Operations.

(** ** Specification

    [linked]: the two sides of every link agree and list each other once.
    [ranked rk]: the leads of a window have a smaller rank, so that the links are
    free of cycles. *)
Record linked (H : Heap) : Prop := {
  linked_iff : forall a b, b ∈ children (H a) <-> a ∈ leads (H b);
  linked_leads : forall a, NoDup (leads (H a));
  linked_children : forall a, NoDup (children (H a));
  linked_irrefl : forall a, a ∉ leads (H a);
}.

Definition ranked (rk : wid -> nat) (H : Heap) : Prop :=
  forall a b, a ∈ leads (H b) -> (rk a < rk b)%nat.

(** [b] follows [a]: a chain of leads goes from [b] to [a]. *)
Definition follows (H : Heap) : relation wid := tc (fun b a => a ∈ leads (H b)).

Section Facts.
Implicit Types (H : Heap) (w l c : wid).

Lemma set_win_lookup w x H v : set_win w x H v = if decide (w = v) then x else H v.
Proof. done. Qed.

Lemma add_child_leads w c H H' :
  add_child w c H = Some H' -> c ∉ children (H w) ->
  w <> c /\
  (forall a, children (H' a) = if decide (a = w) then children (H w) ++ [c] else children (H a)) /\
  (forall a, leads (H' a) = if decide (a = c) then leads (H c) ++ [w] else leads (H a)).
Proof.
  unfold add_child, add_lead, modify. intros Heq Hc.
  destruct (decide (w = c)) as [|Hne]; [by rewrite bool_decide_eq_true_2 in Heq|].
  rewrite (bool_decide_eq_false_2 (w = c)) in Heq by done.
  rewrite (proj2 (contains_false _ _)) in Heq by done.
  rewrite (bool_decide_eq_false_2 (c = w)) in Heq by done. simpl in Heq.
  rewrite !set_win_lookup, (decide_False (P := w = c)) in Heq by done.
  destruct (contains (leads (H c)) w); [done|].
  injection Heq as <-. split; [done|].
  split; intros a; rewrite !set_win_lookup; repeat case_decide; by subst.
Qed.

Lemma remove_child_links w c H :
  (forall a, children (remove_child w c H a)
     = if decide (a = w) then remove_all c (children (H w)) else children (H a)) /\
  (forall a, leads (remove_child w c H a)
     = if decide (a = c) then remove_all w (leads (H c)) else leads (H a)).
Proof.
  unfold remove_child, remove_lead, modify.
  set (H1 := set_win w _ H).
  assert (forall a, leads (H1 a) = leads (H a)) as Hl.
  { intros a. unfold H1. rewrite set_win_lookup. case_decide; by subst. }
  assert (forall a, children (H1 a) = if decide (a = w) then remove_all c (children (H w))
                                      else children (H a)) as Hc.
  { intros a. unfold H1. rewrite set_win_lookup. repeat case_decide; by subst. }
  rewrite Hl. destruct (contains (leads (H c)) w) eqn:Ec.
  - split; intros a; rewrite set_win_lookup; case_decide; subst; simpl;
      rewrite ?Hc, ?Hl, ?decide_True by done; try done. by rewrite decide_False by congruence.
  - split; [done|]. intros a. rewrite Hl. case_decide; [subst|done].
    rewrite remove_all_id; [done|]. by apply contains_false.
Qed.

(** Following is exactly what [is_follower_of] computes, with fuel for the
    longest chain. *)
Lemma is_follower_of_spec rk fuel H w v :
  linked H -> ranked rk H -> (rk w <= fuel)%nat ->
  is_follower_of fuel H w v = true <-> follows H w v.
Proof.
  intros HL HR. revert w. induction fuel as [|fuel IH]; intros w Hf; simpl;
    rewrite orb_true_iff, contains_true, (linked_iff _ HL).
  - split; [intros [?|?]; [by apply tc_once|done]|].
    intros Ht. left. destruct Ht as [?|w x v Hx _]; [done|]. apply HR in Hx. lia.
  - rewrite existsb_exists. split.
    + intros [?|(l & Hl%list_elem_of_In & Hfl)]; [by apply tc_once|].
      eapply tc_l; [exact Hl|]. apply IH; [|done]. apply HR in Hl. lia.
    + intros Ht. destruct Ht as [?|w x v Hx Ht]; [by left|].
      right. exists x. split; [by apply list_elem_of_In|]. apply IH; [|done].
      apply HR in Hx. lia.
Qed.
End Facts.

End Transient.
