(* ===== verification/Stacking.v ===== *)
(** * Stacking (src/layers.cpp, src/win/stacking.h)

    [Workspace]'s stacking order: the unconstrained order that raising and
    lowering edit, the layers, the constrained order computed from both, and the
    blocking of updates. A [None] result is a failed assertion, a null pointer
    dereference or a cyclic chain of leads.

    The layer of a window is cached in [m_layer] as in the code; computing the
    constrained order fills the caches of the windows of the unconstrained
    order. *)

From S2P Require Import Prelude Qt Toplevel Transient FocusChain.

Module Stacking.
Import Toplevel Transient.

(** Effects that leave the component, in order. *)
Inductive Event :=
  | propagateClients (propagate_new_clients : bool)
  | markXStackingOrderAsDirty
  | stackingOrderChanged
  | addRepaintFull
  | update_mouse_grab (w : wid)
  | checkInputWindowStacking
  | updateWindowRules_Above (w : wid)
  | updateWindowRules_Below (w : wid)
  | doSetKeepAbove (w : wid)
  | doSetKeepBelow (w : wid)
  | keepAboveChanged (w : wid) (b : bool)
  | keepBelowChanged (w : wid) (b : bool)
  | clientAttentionChanged (w : wid) (b : bool)
  | demandsAttentionChanged (w : wid)
  | doMinimize (w : wid)
  | updateWindowRules_Minimize (w : wid)
  | clientMinimized (w : wid) (animate : bool)
  | clientUnminimized (w : wid) (animate : bool)
  | minimizedChanged (w : wid)
  | plasmaVirtualDesktops (w : wid) (desktops : list nat)
  | infoSetDesktop (w : wid) (desktop : Z)
  | doSetDesktop (w : wid) (desktop was_desk : Z)
  | updateWindowRules_Desktop (w : wid)
  | desktopChanged (w : wid)
  | desktopPresenceChanged (w : wid) (was_desk : Z)
  | x11DesktopIdsChanged (w : wid).
#[global] Instance Event_eq_dec : EqDecision Event.
Proof. solve_decision. Defined.

(** The members of Workspace that stacking uses. *)
Record Space := mkSpace {
  wins : Heap;
  unconstrained_stacking_order : list wid;
  stacking_order : list wid;
  force_restacking : bool;
  block_stacking_updates : Z;
  blocked_propagating_new_clients : bool;
  most_recently_raised : option wid;
  active_client : option wid;
  should_get_focus : list wid;
  focus_chain : FocusChain.FocusChain;
  events : list Event;
}.
#[global] Instance Space_eta : RecordEta Space := fun s =>
  mkSpace (wins s) (unconstrained_stacking_order s) (stacking_order s) (force_restacking s)
    (block_stacking_updates s) (blocked_propagating_new_clients s) (most_recently_raised s)
    (active_client s) (should_get_focus s) (focus_chain s) (events s).

Section Operations.
Context (E : Env).
(** Toplevel::belongsToSameApplication. *)
Context (same_client : wid -> wid -> bool).
(** Group::members. *)
Context (group_members : nat -> list wid).
(** The bound on chains of leads and children. *)
Context (fuel : nat).
(** Whether the compositor runs and effects are loaded. *)
Context (has_compositor has_effects : bool).
Implicit Types (s : Space) (w : wid) (H : Heap).

Definition emit (e : Event) s : Space := s <| events := events s ++ [e] |>.

(** Workspace::mostRecentlyActivatedClient. *)
Definition mostRecentlyActivatedClient s : option wid :=
  match last (should_get_focus s) with
  | Some w => Some w
  | None => active_client s
  end.

(** *** Layers *)

(** win::is_active_fullscreen; the window has a control. *)
Definition is_active_fullscreen s w (c : Control) : bool :=
  if negb (fullscreen c) then false
  else
    match mostRecentlyActivatedClient s with
    | None => false
    | Some ac =>
        bool_decide (ac = w) || negb (screen (wins s ac) =? screen (wins s w)) ||
        contains (leads (wins s ac)) w
    end.

(** Toplevel::layer_for_dock. *)
Definition layer_for_dock (c : Control) : layer :=
  if keep_below c then l_normal else if keep_above c then l_above else l_dock.

(** win::belong_to_layer. *)
Definition belong_to_layer s w : option layer :=
  let x := wins s w in
  if isInternal x then Some l_unmanaged
  else if isLockScreen x then Some l_unmanaged
  else if is_desktop x then Some (if showing_desktop E then l_above else l_desktop)
  else if is_splash x then Some l_normal
  else if is_dock x then
    if showing_desktop E then Some l_notification else layer_for_dock <$> control x
  else if is_on_screen_display x then Some l_on_screen_display
  else if is_notification x then Some l_notification
  else if is_critical_notification x then Some l_critical_notification
  else if showing_desktop E && belongsToDesktop x then Some l_above
  else
    c ← control x;
    Some (if keep_below c then l_below
          else if is_active_fullscreen s w c then l_active
          else if keep_above c then l_above
          else l_normal).

(** Toplevel::layer, without the write to the cache. *)
Fixpoint layer_of (fuel : nat) s w : option layer :=
  let x := wins s w in
  match lead x, annexed x with
  | Some l, true =>
      match fuel with O => None | S fuel' => layer_of fuel' s l end
  | _, _ =>
      match m_layer x with
      | Some l => Some l
      | None => belong_to_layer s w
      end
  end.

Definition layer s w : option Toplevel.layer := layer_of fuel s w.

(** The write to the cache by a call of Toplevel::layer. *)
Definition cache_layer s w : Space :=
  let x := wins s w in
  if annexed x && isTransient x then s
  else match m_layer x with
       | Some _ => s
       | None => s <| wins := set_win w (x <| m_layer := belong_to_layer s w |>) (wins s) |>
       end.

(** *** The constrained order *)

(** ensureStackingOrderInList. *)
Definition ensureStackingOrderInList (stackingOrder list : list wid) : Datatypes.list wid :=
  if (length list <? 2)%nat then list
  else
    foldl (fun result c => if contains result c then remove_all c result ++ [c] else result)
      list stackingOrder.

Definition ensureStackingOrder s (l : list wid) : list wid :=
  ensureStackingOrderInList (stacking_order s) l.

Definition keepTransientAbove s (mainwindow transient : wid) : bool :=
  let m := wins s mainwindow in let t := wins s transient in
  if annexed t then true
  else if is_splash t && is_dialog m then false
  else if is_dialog t && negb (modal t) && groupTransient t then false
  else if is_dock m then false
  else true.

Definition keepDeletedTransientAbove s (mainwindow transient : wid) (r : Remnant) : bool :=
  let m := wins s mainwindow in let t := wins s transient in
  if is_splash t && is_dialog m then false
  else if was_x11_client r then
    if was_group_transient r && was_active r then true
    else if was_group_transient r && is_dialog t && negb (modal t) then false
    else if is_dock m then false
    else true
  else true.

(** The lambda child_restack of constrainedStackingOrder. *)
Definition child_restack s (l child : wid) : option bool :=
  ll ← layer s l;
  lc ← layer s child;
  Some (if (layer_index ll <? layer_index lc)%nat then false
        else match remnant (wins s child) with
             | Some r => keepDeletedTransientAbove s l child r
             | None => keepTransientAbove s l child
             end).

(** The first loop: the layer each window is stacked in. [mins] is the minimum
    layer per screen and group. *)
Fixpoint assign_layers s (mins : gmap (Z * option nat) Toplevel.layer) (ws : list wid)
    : option (list (wid * Toplevel.layer)) :=
  match ws with
  | [] => Some []
  | w :: ws' =>
      l ← layer s w;
      let x := wins s w in
      let key := (screen x, if is_x11 x then group x else None) in
      let '(l', mins') :=
        match mins !! key with
        | Some ml =>
            let l' := if bool_decide (ml = l_active) && (layer_index l_below <? layer_index l)%nat
                      then l_active else l in
            (l', <[key := l']> mins)
        | None => (l, if is_x11 x then <[key := l]> mins else mins)
        end in
      rest ← assign_layers s mins' ws';
      Some ((w, l') :: rest)
  end.

(** The layers laid out from bottom to top. *)
Definition preliminary_stack (assigned : list (wid * Toplevel.layer)) : list wid :=
  concat ((fun i => fst <$> filter (fun p => layer_index (snd p) = i) assigned) <$> seq 0 layer_count).

(** The lambda append_children: appends to [list] the children of [window] that
    are restacked above it, each followed by its own children. [append_child] is
    the body of its loop, [impl] the recursive call, and the state the list and
    the windows stacked so far. *)
Definition append_child (impl : wid -> list wid -> option (list wid)) s (window : wid)
    (acc : option (list wid * list wid)) (child : wid) : option (list wid * list wid) :=
  '(list, stacked) ← acc;
  b ← child_restack s window child;
  if b : bool then
    let list' := remove_all child list in
    stacked' ← impl child (stacked ++ [child]);
    Some (list', stacked')
  else Some (list, stacked).

Fixpoint append_children (n : nat) s (window : wid) (list : list wid)
    : option (Datatypes.list wid) :=
  match children (wins s window) with
  | [] => Some list
  | cs =>
      match n with
      | O => None
      | S n' =>
          '(list', stacked) ← foldl (append_child (append_children n' s) s window)
                                (Some (list, [])) (ensureStackingOrder s cs);
          Some (list' ++ stacked)
      end
  end.

(** [find_if] over the leads: some lead restacks the window. *)
Fixpoint restacked_by_lead s w (ls : list wid) : option bool :=
  match ls with
  | [] => Some false
  | l :: ls' => b ← child_restack s l w; if b : bool then Some true else restacked_by_lead s w ls'
  end.

(** The last loop of constrainedStackingOrder. *)
Fixpoint build_stack s (ws : list wid) (stack : list wid) : option (list wid) :=
  match ws with
  | [] => Some stack
  | w :: ws' =>
      b ← restacked_by_lead s w (leads (wins s w));
      if b : bool then build_stack s ws' stack
      else if contains stack w then None
      else
        stack' ← append_children fuel s w (stack ++ [w]);
        build_stack s ws' stack'
  end.

Definition constrainedStackingOrder s : option (list wid) :=
  assigned ← assign_layers s ∅ (unconstrained_stacking_order s);
  build_stack s (preliminary_stack assigned) [].

(** *** Updates *)

Definition updateStackingOrder (propagate_new_clients : bool) s : option Space :=
  if 0 <? block_stacking_updates s then
    Some (if propagate_new_clients then s <| blocked_propagating_new_clients := true |> else s)
  else
    new_stacking_order ← constrainedStackingOrder s;
    let s0 := foldl cache_layer s (unconstrained_stacking_order s) in
    let changed := force_restacking s0 || negb (bool_decide (new_stacking_order = stacking_order s0)) in
    let s1 := s0 <| force_restacking := false |> <| stacking_order := new_stacking_order |> in
    Some (if changed || propagate_new_clients then
            let s2 := emit stackingOrderChanged (emit markXStackingOrderAsDirty
                        (emit (propagateClients propagate_new_clients) s1)) in
            let s2 := if has_compositor then emit addRepaintFull s2 else s2 in
            match active_client s2 with
            | Some a => emit (update_mouse_grab a) s2
            | None => s2
            end
          else s1).

Definition blockStackingUpdates (block : bool) s : option Space :=
  if block then
    let s1 := if block_stacking_updates s =? 0
              then s <| blocked_propagating_new_clients := false |> else s in
    Some (s1 <| block_stacking_updates := block_stacking_updates s1 + 1 |>)
  else
    let s1 := s <| block_stacking_updates := block_stacking_updates s - 1 |> in
    if block_stacking_updates s1 =? 0 then
      s2 ← updateStackingOrder (blocked_propagating_new_clients s1) s1;
      Some (if has_effects then emit checkInputWindowStacking s2 else s2)
    else Some s1.

(** A block in which a StackingUpdatesBlocker lives. *)
Definition with_blocker (f : Space -> option Space) s : option Space :=
  s1 ← blockStackingUpdates true s; s2 ← f s1; blockStackingUpdates false s2.

Definition forceRestacking s : option Space :=
  with_blocker Some (s <| force_restacking := true |>).

(** win::control::cancel_auto_raise. *)
Definition cancel_auto_raise w s : option Space :=
  c ← control (wins s w);
  Some (s <| wins := set_win w ((wins s w) <| control := Some (c <| auto_raise := false |>) |>) (wins s) |>).

(** *** Raising and lowering *)

Definition topClientOnDesktop s (d scr : Z) (unconstrained only_normal : bool) : option wid :=
  find_last (fun w =>
      let x := wins s w in
      on_desktop E x d && isShown x && isOnCurrentActivity E x &&
      ((scr =? -1) || (screen x =? scr)) &&
      (negb only_normal || (wants_tab_focus x && negb (is_special_window x))))
    (if unconstrained then unconstrained_stacking_order s else stacking_order s).

Definition findDesktop s (topmost : bool) (d : Z) : option wid :=
  let p w := let x := wins s w in
    match control x with Some _ => true | None => false end &&
    on_desktop E x d && is_desktop x && isShown x in
  if topmost then find_last p (stacking_order s)
  else snd <$> list_find (fun w => p w = true) (stacking_order s).

(** The part of lower_window inside its blocker. *)
Definition do_lower w s : option Space :=
  s1 ← cancel_auto_raise w s;
  Some (s1 <| unconstrained_stacking_order :=
                w :: remove_all w (unconstrained_stacking_order s1) |>).

Definition lower_cleanup w s : Space :=
  if bool_decide (most_recently_raised s = Some w) then s <| most_recently_raised := None |> else s.

Definition lower_group (window : wid) (acc : option Space) (gwin : wid) : option Space :=
  s ← acc;
  if bool_decide (gwin = window) then Some s
  else s1 ← with_blocker (do_lower gwin) s; Some (lower_cleanup gwin s1).

Definition lower_window (window : wid) s : option Space :=
  with_blocker (fun s =>
    s1 ← do_lower window s;
    s2 ← (if isTransient (wins s1 window) then
            match group (wins s1 window) with
            | Some g => foldl (lower_group window) (Some s1)
                          (reverse (ensureStackingOrder s1 (group_members g)))
            | None => Some s1
            end
          else Some s1);
    Some (lower_cleanup window s2)) s.

Definition lowerClientWithinApplication (window : wid) s : option Space :=
  s1 ← cancel_auto_raise window s;
  with_blocker (fun s =>
    let order := remove_all window (unconstrained_stacking_order s) in
    Some (s <| unconstrained_stacking_order :=
                 match list_find (fun c => same_client c window = true) order with
                 | Some (i, _) => insert_at i window order
                 | None => window :: order
                 end |>)) s1.

Definition do_raise w s : Space :=
  let s1 := s <| unconstrained_stacking_order :=
                   remove_all w (unconstrained_stacking_order s) ++ [w] |> in
  if is_special_window (wins s1 w) then s1 else s1 <| most_recently_raised := Some w |>.

(** The leads of a window and, upwards, the first lead of each. *)
Fixpoint collect_leads (fuel : nat) H (l : option wid) (acc : list wid) : option (list wid) :=
  match l with
  | None => Some acc
  | Some w =>
      match fuel with
      | O => None
      | S fuel' =>
          collect_leads fuel' H (lead (H w)) (if contains acc w then acc else acc ++ [w])
      end
  end.

Definition all_leads H (ls : list wid) : option (list wid) :=
  foldl (fun acc l => a ← acc; collect_leads fuel H (Some l) a) (Some []) ls.

Definition raise_lead (acc : option Space) (l : wid) : option Space :=
  s ← acc;
  match control (wins s l) with
  | None => Some s
  | Some _ => s1 ← cancel_auto_raise l s; with_blocker (fun s => Some (do_raise l s)) s1
  end.

Definition raise_window (window : wid) s : option Space :=
  s0 ← cancel_auto_raise window s;
  with_blocker (fun s =>
    s1 ← (if isTransient (wins s window) then
            ls ← all_leads (wins s) (leads (wins s window));
            foldl raise_lead (Some s) (ensureStackingOrder s ls)
          else Some s);
    Some (do_raise window s1)) s0.

Definition raiseOrLowerClient (separateScreenFocus : bool) (window : wid) s : option Space :=
  let x := wins s window in
  let topmost :=
    match most_recently_raised s with
    | Some r =>
        if contains (stacking_order s) r && isShown (wins s r) && on_current_desktop E x
        then Some r else None
    | None => None
    end in
  let topmost :=
    match topmost with
    | Some r => Some r
    | None =>
        topClientOnDesktop s (if on_all_desktops E x then current_desktop E else desktop E x)
          (if separateScreenFocus then screen x else -1) false true
    end in
  if bool_decide (topmost = Some window) then lower_window window s else raise_window window s.

(** The loop of raiseClientWithinApplication, from the top: the first window that
    is the raised one or belongs to its application. *)
Definition raiseClientWithinApplication (window : wid) s : option Space :=
  s1 ← cancel_auto_raise window s;
  with_blocker (fun s =>
    let order := unconstrained_stacking_order s in
    match find_last (fun o => bool_decide (o = window) || same_client o window) order with
    | None => Some s
    | Some other =>
        if bool_decide (other = window) then Some s
        else
          let order' := remove_all window order in
          i ← index_of other order';
          Some (s <| unconstrained_stacking_order := insert_at (S i) window order' |>)
    end) s1.

(** The first window of the active application in the layer of [window]. *)
Fixpoint find_under s (window under : wid) (ws : list wid) : option (option wid) :=
  match ws with
  | [] => Some (Some under)
  | other :: ws' =>
      match control (wins s other) with
      | None => find_under s window under ws'
      | Some _ =>
          lo ← layer s other;
          lw ← layer s window;
          if bool_decide (lo = lw) && same_client under other
          then Some (if bool_decide (window = other) then None else Some other)
          else find_under s window under ws'
      end
  end.

Definition restack (window under : wid) (force : bool) s : option Space :=
  if negb (contains (unconstrained_stacking_order s) under) then None
  else
    under' ← (if negb force && negb (same_client under window)
              then find_under s window under (unconstrained_stacking_order s)
              else Some (Some under));
    s1 ← (match under' with
          | Some u =>
              let order := remove_all window (unconstrained_stacking_order s) in
              let i := default (length order) (index_of u order) in
              Some (s <| unconstrained_stacking_order := insert_at i window order |>)
          | None => Some s
          end);
    if negb (contains (unconstrained_stacking_order s1) window) then None
    else
      let s2 := match under' with
                | Some u => s1 <| focus_chain :=
                    FocusChain.moveAfterClient E (wins s1) same_client window u (focus_chain s1) |>
                | None => s1
                end in
      updateStackingOrder false s2.

Definition restackClientUnderActive (window : wid) s : option Space :=
  match active_client s with
  | None => raise_window window s
  | Some a =>
      if bool_decide (a = window) then raise_window window s
      else
        la ← layer s a; lw ← layer s window;
        if bool_decide (la = lw) then restack window a false s else raise_window window s
  end.

(** Workspace::restoreSessionStackingOrder; [sm_stacking_order] is the position
    saved for an X11 window. *)
Definition restoreSessionStackingOrder (sm_stacking_order : wid -> Z) (c : wid) s : option Space :=
  if sm_stacking_order c <? 0 then Some s
  else
    with_blocker (fun s =>
      let order := remove_all c (unconstrained_stacking_order s) in
      Some (s <| unconstrained_stacking_order :=
        match list_find (fun w => is_x11 (wins s w) = true /\
                                  (sm_stacking_order c <? sm_stacking_order w) = true) order with
        | Some (i, _) => insert_at i c order
        | None => order ++ [c]
        end |>)) s.

(** *** State changes that affect the layer (src/win/stacking.h) *)

(** win::update_layer; [fuel] bounds the depth of the children. *)
Fixpoint update_layer (n : nat) w s : option Space :=
  match remnant (wins s w) with
  | Some _ => Some s
  | None =>
      l ← layer s w;
      let s := cache_layer s w in
      b ← belong_to_layer s w;
      if bool_decide (l = b) then Some s
      else
        match n with
        | O => None
        | S n' =>
            with_blocker (fun s =>
              let s1 := s <| wins := set_win w ((wins s w) <| m_layer := None |>) (wins s) |> in
              foldl (fun acc c =>
                  s ← acc;
                  if annexed (wins s c) then Some s else update_layer n' c s)
                (Some s1) (children (wins s1 w))) s
        end
  end.

(** Workspace::updateClientLayer. *)
Definition updateClientLayer w s : option Space := update_layer fuel w s.

Definition set_control w (g : Control -> Control) s : option Space :=
  c ← control (wins s w);
  Some (s <| wins := set_win w ((wins s w) <| control := Some (g c) |>) (wins s) |>).

Definition set_info w (g : NetInfo -> NetInfo) s : Space :=
  s <| wins := set_win w ((wins s w) <| info := g <$> info (wins s w) |>) (wins s) |>.

(** The checks of WindowRules: a forced value replaces the requested one. *)
Context (checkKeepAbove checkKeepBelow : wid -> bool -> bool).
Context (checkMinimize : wid -> bool -> bool).

(** set_keep_above and set_keep_below, after the rules were checked and the
    opposite state was cleared. *)
Definition apply_keep_above w (keep : bool) s : option Space :=
  c ← control (wins s w);
  if Bool.eqb keep (keep_above c) then
    Some (match info (wins s w) with
          | Some i => if Bool.eqb (ni_above i) keep then s
                      else set_info w (fun i => i <| ni_above := keep |>) s
          | None => s
          end)
  else
    s1 ← set_control w (fun c => c <| keep_above := keep |>) s;
    s2 ← updateClientLayer w (set_info w (fun i => i <| ni_above := keep |>) s1);
    Some (emit (keepAboveChanged w keep) (emit (doSetKeepAbove w)
            (emit (updateWindowRules_Above w) s2))).

Definition apply_keep_below w (keep : bool) s : option Space :=
  c ← control (wins s w);
  if Bool.eqb keep (keep_below c) then
    Some (match info (wins s w) with
          | Some i => if Bool.eqb (ni_below i) keep then s
                      else set_info w (fun i => i <| ni_below := keep |>) s
          | None => s
          end)
  else
    s1 ← set_control w (fun c => c <| keep_below := keep |>) s;
    s2 ← updateClientLayer w (set_info w (fun i => i <| ni_below := keep |>) s1);
    Some (emit (keepBelowChanged w keep) (emit (doSetKeepBelow w)
            (emit (updateWindowRules_Below w) s2))).

(** The mutual recursion of the code ends after one step: the opposite setter is
    called with [false] only when its rule does not turn that into [true]. *)
Definition set_keep_above w (keep : bool) s : option Space :=
  let keep := checkKeepAbove w keep in
  s1 ← (if keep && negb (checkKeepBelow w false) then apply_keep_below w false s else Some s);
  apply_keep_above w keep s1.

Definition set_keep_below w (keep : bool) s : option Space :=
  let keep := checkKeepBelow w keep in
  s1 ← (if keep && negb (checkKeepAbove w false) then apply_keep_above w false s else Some s);
  apply_keep_below w keep s1.

Definition auto_raise_window w s : option Space :=
  s1 ← raise_window w s; cancel_auto_raise w s1.

Definition set_demands_attention w (demand : bool) s : option Space :=
  c ← control (wins s w);
  let demand := if active c then false else demand in
  if Bool.eqb (demands_attention c) demand then Some s
  else
    s1 ← set_control w (fun c => c <| demands_attention := demand |>) s;
    Some (emit (demandsAttentionChanged w) (emit (clientAttentionChanged w demand)
            (set_info w (fun i => i <| ni_attention := demand |>) s1))).

(** [isMinimizable] is what the window class answers. *)
Definition set_minimized (isMinimizable : wid -> bool) w (set avoid_animation : bool) s
    : option Space :=
  c ← control (wins s w);
  if set then
    if negb (isMinimizable w) || minimized c then Some s
    else
      s1 ← set_control w (fun c => c <| minimized := true |>) s;
      Some (emit (minimizedChanged w) (emit (clientMinimized w (negb avoid_animation))
              (emit (updateWindowRules_Minimize w) (emit (doMinimize w) s1))))
  else if negb (minimized c) then Some s
  else if checkMinimize w false then Some s
  else
    s1 ← set_control w (fun c => c <| minimized := false |>) s;
    Some (emit (minimizedChanged w) (emit (clientUnminimized w (negb avoid_animation))
            (emit (updateWindowRules_Minimize w) (emit (doMinimize w) s1)))).

(** Workspace::raiseClientRequest and lowerClientRequest; [fromTool] is the
    request source. *)
Definition raiseClientRequest (allowFullClientRaising : bool) (fromTool : bool) w s : option Space :=
  if fromTool || allowFullClientRaising then raise_window w s
  else s1 ← raiseClientWithinApplication w s; set_demands_attention w true s1.

Definition lowerClientRequest (has_user_time_support fromTool : bool) w s : option Space :=
  if fromTool || negb has_user_time_support then lower_window w s
  else lowerClientWithinApplication w s.

(** Workspace::updateXStackingOrder: the stacking order, the unmanaged windows in
    the order of the X server's tree and the shown internal windows. *)
Definition updateXStackingOrder (tree : option (list wid)) (unmanaged windows : list wid) s
    : list wid :=
  stacking_order s ++
  (match tree with
   | Some t => filter (fun w => w ∈ unmanaged) t
   | None => []
   end) ++
  filter (fun w => isInternal (wins s w) && isShown (wins s w) = true) windows.
End Operations.

End Stacking.
