(* ===== verification/StackingFacts.v ===== *)
(** * Stacking: the constrained order

    For windows whose transient links form a forest (at most one lead restacks a
    window), the constrained order is the preliminary, layer by layer order of the
    windows that no lead restacks, each followed by its tree of restacked
    children. *)

From S2P Require Import Prelude Qt Toplevel Transient FocusChain Stacking.

Module StackingFacts.
Import Toplevel Transient Stacking.

(** ** Ordering a list by the stacking order *)

Section Ensure.
Implicit Types (l order : list wid).

Definition raise_if_in (result : list wid) (c : wid) : list wid :=
  if contains result c then remove_all c result ++ [c] else result.

Lemma raise_if_in_perm result c : NoDup result -> raise_if_in result c ≡ₚ result.
Proof.
  intros Hnd. unfold raise_if_in. destruct (contains result c) eqn:E; [|done].
  apply contains_true in E. rewrite (remove_all_Permutation c result) at 2 by done.
  by rewrite Permutation_app_comm.
Qed.

Lemma foldl_raise_perm order : forall result,
  NoDup result -> foldl raise_if_in result order ≡ₚ result.
Proof.
  induction order as [|c order IH]; intros result Hnd; simpl; [done|].
  rewrite IH; [by apply raise_if_in_perm|]. by rewrite raise_if_in_perm.
Qed.

Lemma ensureStackingOrder_perm order l :
  NoDup l -> ensureStackingOrderInList order l ≡ₚ l.
Proof.
  intros Hnd. unfold ensureStackingOrderInList. case_match; [done|].
  by apply foldl_raise_perm.
Qed.

(** With every window stacked, the list is put in stacking order. *)
Lemma foldl_raise_sorted order : forall result,
  NoDup order -> NoDup result ->
  exists rest, foldl raise_if_in result order = rest ++ filter (fun c => c ∈ result) order /\
    filter (fun c => c ∉ order) result = rest.
Proof.
  induction order as [|c order IH] using rev_ind; intros result Ho Hr.
  - exists result. simpl. rewrite app_nil_r. split; [done|].
    induction result as [|x result IH]; [done|]. apply NoDup_cons in Hr as [_ Hr].
    rewrite filter_cons_True by apply not_elem_of_nil. by rewrite IH.
  - apply NoDup_app in Ho as (Ho & Hc & _).
    assert (c ∉ order) as Hco by (intros Hin; apply (Hc c Hin); by left).
    destruct (IH result Ho Hr) as (rest & Heq & Hrest). clear IH.
    pose proof (foldl_raise_perm order result Hr) as Hp.
    rewrite foldl_app. simpl. unfold raise_if_in at 1. rewrite filter_app.
    destruct (contains _ c) eqn:Ec.
    + apply contains_true in Ec. rewrite Hp in Ec.
      rewrite (filter_cons_True (fun c => c ∈ result)) by done. simpl.
      rewrite Heq, remove_all_app.
      rewrite (remove_all_id c (filter _ order)) by (rewrite list_elem_of_filter; naive_solver).
      exists (remove_all c rest). split; [by rewrite app_assoc|].
      rewrite <- Hrest. unfold remove_all. rewrite list_filter_filter.
      apply list_filter_iff. intros x. rewrite not_elem_of_app, list_elem_of_singleton. tauto.
    + apply contains_false in Ec. rewrite Hp in Ec.
      rewrite (filter_cons_False (fun c => c ∈ result)) by done. simpl. rewrite app_nil_r.
      exists rest. split; [done|]. rewrite <- Hrest. apply filter_iff_in.
      intros x Hx. rewrite not_elem_of_app, list_elem_of_singleton.
      assert (x <> c) by (by intros ->). tauto.
Qed.
End Ensure.

(** ** Buckets *)

Lemma concat_buckets_perm {A} (f : A -> nat) (l : list A) n :
  Forall (fun x => (f x < n)%nat) l ->
  concat ((fun i => filter (fun x => f x = i) l) <$> seq 0 n) ≡ₚ l.
Proof.
  revert l. induction n as [|n IH]; intros l Hl.
  - destruct l as [|x l]; [done|]. apply Forall_cons in Hl as [Hx _]. lia.
  - rewrite seq_S, fmap_app, concat_app. simpl. rewrite app_nil_r.
    transitivity (filter (fun x => (f x < n)%nat) l ++ filter (fun x => ~ (f x < n)%nat) l).
    2: { apply filter_app_complement. }
    apply Permutation_app.
    + rewrite <- (IH (filter (fun x => (f x < n)%nat) l)).
      2: { apply Forall_forall. intros x [? _]%list_elem_of_filter. done. }
      apply reflexive_eq. f_equal. apply list_fmap_ext. intros i j Hi.
      apply lookup_seq in Hi as [-> Hi]. rewrite list_filter_filter.
      apply list_filter_iff. intros x. lia.
    + apply reflexive_eq, filter_iff_in. intros x Hx.
      rewrite Forall_forall in Hl. specialize (Hl x Hx). lia.
Qed.

Lemma preliminary_stack_perm assigned : preliminary_stack assigned ≡ₚ fst <$> assigned.
Proof.
  unfold preliminary_stack.
  transitivity (fst <$> concat ((fun i => filter (fun p => layer_index p.2 = i) assigned)
                                <$> seq 0 layer_count)).
  - apply reflexive_eq. induction (seq 0 layer_count) as [|i js IH]; [done|].
    rewrite !fmap_cons. simpl. rewrite fmap_app. by f_equal.
  - apply fmap_Permutation, concat_buckets_perm, Forall_forall.
    intros [w l] _. destruct l; unfold layer_count; simpl; lia.
Qed.

(** ** Forests *)

Section Forest.
Context (E : Env) (fuel : nat) (s : Space).
Implicit Types (w l c x : wid).

(** Whether the lead [l] restacks its child [c]. *)
Definition restacks l c : bool := default false (child_restack E fuel s l c).

(** The transient links of the stacked windows form a forest whose chains are
    shorter than [fuel], every window of it is stacked and has a layer. *)
Record forest (rk : wid -> nat) : Prop := {
  f_nodup : NoDup (unconstrained_stacking_order s);
  f_linked : linked (wins s);
  f_ranked : ranked rk (wins s);
  f_fuel : forall w, w ∈ unconstrained_stacking_order s -> (rk w <= fuel)%nat;
  f_children : forall w c, w ∈ unconstrained_stacking_order s -> c ∈ children (wins s w) ->
    c ∈ unconstrained_stacking_order s;
  f_leads : forall w l, w ∈ unconstrained_stacking_order s -> l ∈ leads (wins s w) ->
    l ∈ unconstrained_stacking_order s;
  f_layer : forall w, w ∈ unconstrained_stacking_order s -> is_Some (layer E fuel s w);
  f_single : forall w l1 l2, w ∈ unconstrained_stacking_order s ->
    l1 ∈ leads (wins s w) -> l2 ∈ leads (wins s w) ->
    restacks l1 w = true -> restacks l2 w = true -> l1 = l2;
}.

(** [above l c]: [c] is a child of [l] restacked by it. *)
Definition above l c : Prop := l ∈ leads (wins s c) /\ restacks l c = true.
#[global] Instance above_dec l c : Decision (above l c).
Proof. unfold above. apply _. Defined.

(** The restacked children in the order they are appended. *)
Definition kids w : list wid :=
  filter (fun c => restacks w c = true) (ensureStackingOrder s (children (wins s w))).

(** A window and its tree of restacked children. *)
Fixpoint tree (n : nat) w : list wid :=
  w :: match n with O => [] | S n' => concat (tree n' <$> kids w) end.

Lemma tree_cons n w : tree n w = w :: tail (tree n w).
Proof. by destruct n. Qed.

Context (rk : wid -> nat) (HF : forest rk).
Abbreviation stacked w := (w ∈ unconstrained_stacking_order s) (only parsing).

Lemma child_restack_total l c : stacked l -> stacked c -> child_restack E fuel s l c = Some (restacks l c).
Proof.
  intros Hl Hc. unfold restacks, child_restack.
  destruct (f_layer _ HF l Hl) as [ll ->]. destruct (f_layer _ HF c Hc) as [lc ->]. done.
Qed.

Lemma kids_elem w c : c ∈ kids w <-> above w c.
Proof.
  unfold kids, above. rewrite list_elem_of_filter.
  unfold ensureStackingOrder. rewrite (ensureStackingOrder_perm (stacking_order s)).
  - rewrite (linked_iff _ (f_linked _ HF)). tauto.
  - apply (linked_children _ (f_linked _ HF)).
Qed.

Lemma kids_nodup w : NoDup (kids w).
Proof.
  apply NoDup_filter. unfold ensureStackingOrder.
  rewrite ensureStackingOrder_perm; apply (linked_children _ (f_linked _ HF)).
Qed.

Lemma above_rank l c : above l c -> (rk l < rk c)%nat.
Proof. intros [Hl _]. by apply (f_ranked _ HF). Qed.

Lemma above_stacked l c : above l c -> stacked l -> stacked c.
Proof.
  intros [Hl _] Hs. apply (f_children _ HF l); [done|]. by apply (linked_iff _ (f_linked _ HF)).
Qed.

Lemma above_unique l1 l2 c : stacked c -> above l1 c -> above l2 c -> l1 = l2.
Proof. intros Hc [? ?] [? ?]. by apply (f_single _ HF c). Qed.

Lemma down_stacked w x : rtc above w x -> stacked w -> stacked x.
Proof. induction 1; [done|]. eauto using above_stacked. Qed.

Lemma down_rank w x : rtc above w x -> (rk w <= rk x)%nat.
Proof. induction 1 as [|? ? ? Ha%above_rank]; lia. Qed.

Lemma tree_down n : forall w x, x ∈ tree n w -> rtc above w x.
Proof.
  induction n as [|n IH]; intros w x; simpl.
  - intros ->%list_elem_of_singleton. done.
  - rewrite elem_of_cons. intros [->|Hx]; [done|].
    apply elem_of_concat in Hx as (l & Hx & Hl).
    apply list_elem_of_fmap in Hl as (c & -> & Hc%kids_elem). eapply rtc_l; eauto.
Qed.

Lemma down_tree n : forall w x, stacked w -> (fuel - rk w <= n)%nat -> rtc above w x -> x ∈ tree n w.
Proof.
  induction n as [|n IH]; intros w x Hw Hn Hd.
  - inversion Hd as [|? c ? Hc _]; subst; [by left|].
    pose proof (above_rank _ _ Hc). pose proof (f_fuel _ HF c (above_stacked _ _ Hc Hw)). lia.
  - inversion Hd as [|? c ? Hc Hd']; subst; [by left|]. simpl. right.
    apply elem_of_concat. exists (tree n c). split.
    + apply IH; [by eapply above_stacked| |done]. pose proof (above_rank _ _ Hc). lia.
    + apply list_elem_of_fmap. exists c. split; [done|]. by apply kids_elem.
Qed.

(** Two windows above a common one are comparable. *)
Lemma down_linear a b x :
  stacked a -> stacked b -> rtc above a x -> rtc above b x -> rtc above a b \/ rtc above b a.
Proof.
  intros Ha Hb Hax. revert b Hb.
  induction Hax as [a|a y x Hay Hyx IH]; intros b Hb Hbx; [by right|].
  destruct (IH (above_stacked _ _ Hay Ha) b Hb Hbx) as [Hyb|Hby].
  - left. by eapply rtc_l.
  - apply rtc_inv_r in Hby as [->|(z & Hbz & Hzy)]; [left; by apply rtc_once|].
    rewrite (above_unique a z y); [by right|exact (above_stacked _ _ Hay Ha)|done|done].
Qed.

Lemma siblings_disjoint p a b x :
  stacked p -> above p a -> above p b -> rtc above a x -> rtc above b x -> a = b.
Proof.
  intros Hp Hpa Hpb Hax Hbx.
  assert (forall a b, above p a -> above p b -> rtc above a b -> a = b) as Hcase.
  { intros a' b' Ha Hb Hd. apply rtc_inv_r in Hd as [?|(z & Hz & Hzb)]; [done|].
    rewrite (above_unique z p b') in Hz by (done || exact (above_stacked _ _ Hb Hp)).
    apply down_rank in Hz. apply above_rank in Ha. lia. }
  destruct (down_linear a b x) as [?|?]; eauto using above_stacked.
  symmetry. eauto.
Qed.

(** *** The loops compute the trees *)

Lemma append_child_spec n w list es : forall acc,
  stacked w -> (fuel - rk w <= S n)%nat ->
  (forall c list, above w c -> (forall c' x, above c c' -> x ∈ list -> ~ rtc above c' x) ->
     append_children E fuel n s c list = Some (list ++ tail (tree n c))) ->
  NoDup es -> (forall c, c ∈ es -> c ∈ children (wins s w)) ->
  (forall c x, above w c -> x ∈ list -> ~ rtc above c x) ->
  (forall c x, c ∈ es -> above w c -> x ∈ acc -> ~ rtc above c x) ->
  foldl (append_child E fuel (append_children E fuel n s) s w) (Some (list, acc)) es
  = Some (list, acc ++ concat (tree n <$> filter (fun c => restacks w c = true) es)).
Proof.
  intros acc Hw Hn Hrec Hnd Hes Hlist. revert acc Hnd Hes.
  induction es as [|c es IH]; intros acc Hnd Hes Hacc; simpl.
  - by rewrite app_nil_r.
  - apply NoDup_cons in Hnd as [Hc Hnd].
    assert (w ∈ leads (wins s c)) as Hlead
      by (apply (linked_iff _ (f_linked _ HF)), Hes; by left).
    rewrite child_restack_total; [|done|apply (f_children _ HF w); [done|apply Hes; by left]].
    simpl. destruct (restacks w c) eqn:Er.
    2: { rewrite filter_cons_False by congruence. apply IH; [done| |].
         - intros d Hd. apply Hes. by right.
         - intros d x Hd. apply Hacc. by right. }
    assert (above w c) as Ha by done.
    rewrite filter_cons_True by done.
    rewrite remove_all_id by (intros Hin; by apply (Hlist c c)).
    rewrite Hrec; [|done|].
    + cbn [mbind option_bind]. rewrite IH.
      * rewrite fmap_cons. cbn [concat]. rewrite <- !app_assoc.
        destruct n; done.
      * done.
      * intros d Hd. apply Hes. by right.
      * intros d x Hd Had Hx Hdx. rewrite <- app_assoc, !elem_of_app in Hx.
        assert (rtc above c x -> False) as Hno.
        { intros Hcx. assert (c = d) as ->; [|done].
          by apply (siblings_disjoint w c d x). }
        destruct Hx as [Hx|[->%list_elem_of_singleton|Hx]].
        -- by apply (Hacc d x); [right|..].
        -- by apply Hno.
        -- apply Hno, (tree_down n). destruct n; by right.
    + intros c' x Hc' Hx Hd. apply elem_of_app in Hx as [Hx| ->%list_elem_of_singleton].
      * apply (Hacc c x); [by left|done|done|]. by eapply rtc_l.
      * apply down_rank in Hd. apply above_rank in Hc'. lia.
Qed.

Lemma append_children_spec n : forall w list,
  stacked w -> (fuel - rk w <= n)%nat ->
  (forall c x, above w c -> x ∈ list -> ~ rtc above c x) ->
  append_children E fuel n s w list = Some (list ++ tail (tree n w)).
Proof.
  induction n as [|n IH]; intros w list Hw Hn Hlist; simpl.
  - destruct (children (wins s w)) as [|c cs] eqn:Ec; [by rewrite app_nil_r|].
    assert (c ∈ children (wins s w)) as Hc by (rewrite Ec; by left).
    pose proof (f_children _ HF w c Hw Hc) as Hcs.
    apply (linked_iff _ (f_linked _ HF)) in Hc. apply (f_ranked _ HF) in Hc.
    pose proof (f_fuel _ HF c Hcs). lia.
  - assert (forall cs, children (wins s w) = cs -> 
      ('(list', stk) ← foldl (append_child E fuel (append_children E fuel n s) s w)
                         (Some (list, [])) (ensureStackingOrder s cs);
       Some (list' ++ stk)) = Some (list ++ concat (tree n <$> kids w))) as Hgen.
    { intros cs <-. rewrite append_child_spec; [done|done|done| | | |done|].
      - intros c l Ha Hl. apply IH; [by eapply above_stacked| |done].
        pose proof (above_rank _ _ Ha). lia.
      - unfold ensureStackingOrder.
        rewrite ensureStackingOrder_perm; apply (linked_children _ (f_linked _ HF)).
      - intros c. unfold ensureStackingOrder.
        rewrite ensureStackingOrder_perm; [done|apply (linked_children _ (f_linked _ HF))].
      - intros c x _ _ Hx. by apply not_elem_of_nil in Hx. }
    destruct (children (wins s w)) as [|c cs] eqn:Ec; [|by apply Hgen].
    assert (kids w = []) as -> by (unfold kids; by rewrite Ec).
    simpl. by rewrite app_nil_r.
Qed.

(** The windows no lead restacks. *)
Definition root w : Prop := forall l, ~ above l w.

Definition is_root w : bool := negb (existsb (fun l => restacks l w) (leads (wins s w))).

Lemma is_root_spec w : is_root w = true <-> root w.
Proof.
  unfold is_root, root, above. rewrite negb_true_iff. split.
  - intros He l [Hl Hr]. apply not_true_iff_false in He. apply He.
    apply existsb_exists. exists l. by rewrite <- list_elem_of_In.
  - intros Hr. apply not_true_iff_false. intros (l & Hl & Ha)%existsb_exists.
    apply (Hr l). by rewrite list_elem_of_In.
Qed.

Lemma restacked_by_lead_spec w ls :
  stacked w -> (forall l, l ∈ ls -> stacked l) ->
  restacked_by_lead E fuel s w ls = Some (existsb (fun l => restacks l w) ls).
Proof.
  intros Hw. induction ls as [|l ls IH]; intros Hls; [done|]. simpl.
  rewrite child_restack_total; [|apply Hls; by left|done]. simpl.
  destruct (restacks l w); [done|]. apply IH. intros. apply Hls. by right.
Qed.

Lemma roots_disjoint a b x :
  stacked a -> stacked b -> root a -> root b -> rtc above a x -> rtc above b x -> a = b.
Proof.
  intros Ha Hb Hra Hrb Hax Hbx.
  destruct (down_linear a b x) as [H|H]; [done..| |];
    apply rtc_inv_r in H as [?|(z & _ & Hz)]; try done.
  - by destruct (Hrb z).
  - by destruct (Hra z).
Qed.

Lemma build_stack_spec ws : forall stack,
  NoDup ws -> (forall w, w ∈ ws -> stacked w) ->
  (forall w x, w ∈ ws -> root w -> x ∈ stack -> ~ rtc above w x) ->
  build_stack E fuel s ws stack
  = Some (stack ++ concat (tree fuel <$> filter (fun w => is_root w = true) ws)).
Proof.
  induction ws as [|w ws IH]; intros stack Hnd Hws Hst; simpl; [by rewrite app_nil_r|].
  apply NoDup_cons in Hnd as [Hw Hnd].
  assert (stacked w) as Hsw by (apply Hws; by left).
  rewrite restacked_by_lead_spec; [|done|intros l; by apply (f_leads _ HF)].
  simpl. fold (negb (existsb (fun l => restacks l w) (leads (wins s w)))).
  destruct (existsb _ _) eqn:Er.
  - rewrite filter_cons_False by (unfold is_root; by rewrite Er).
    apply IH; [done| |].
    + intros. apply Hws. by right.
    + intros v x Hv. apply Hst. by right.
  - assert (is_root w = true) as Hroot by (unfold is_root; by rewrite Er).
    rewrite filter_cons_True by done. pose proof (proj1 (is_root_spec w) Hroot) as Hr.
    rewrite (proj2 (contains_false _ _)).
    2: { intros Hin. by apply (Hst w w); [left|..]. }
    rewrite append_children_spec; [|done|lia|].
    + cbn [mbind option_bind]. rewrite IH; [|done|intros; apply Hws; by right|].
      * rewrite fmap_cons. cbn [concat]. rewrite <- !app_assoc. destruct fuel; done.
      * intros v x Hv Hrv Hx Hd.
        rewrite <- app_assoc, !elem_of_app in Hx.
        assert (rtc above w x -> False) as Hno.
        { intros Hwx. assert (w = v) as ->; [|done].
          apply (roots_disjoint w v x); try done. apply Hws. by right. }
        destruct Hx as [Hx|[->%list_elem_of_singleton|Hx]].
        -- by apply (Hst v x); [right|..].
        -- by apply Hno.
        -- apply Hno, (tree_down fuel). destruct fuel; by right.
    + intros c x Hc Hx Hd. apply elem_of_app in Hx as [Hx| ->%list_elem_of_singleton].
      * apply (Hst w x); [by left|done|done|]. by eapply rtc_l.
      * apply down_rank in Hd. apply above_rank in Hc. lia.
Qed.

Lemma tree_nodup n : forall w, stacked w -> NoDup (tree n w).
Proof.
  induction n as [|n IH]; intros w Hw; simpl; [apply NoDup_singleton|].
  constructor.
  - intros (l & Hwl & Hl)%elem_of_concat.
    apply list_elem_of_fmap in Hl as (c & -> & Hc%kids_elem).
    apply tree_down, down_rank in Hwl. apply above_rank in Hc. lia.
  - apply NoDup_concat_map; [apply kids_nodup| |].
    + intros c Hc%kids_elem. by eapply IH, above_stacked.
    + intros a b x Ha%kids_elem Hb%kids_elem Hax%tree_down Hbx%tree_down.
      by apply (siblings_disjoint w a b x).
Qed.

Lemma not_root_above w : ~ root w -> exists l, above l w.
Proof.
  intros Hr. destruct (is_root w) eqn:Ew; [by apply is_root_spec in Ew|].
  unfold is_root in Ew. apply negb_false_iff in Ew.
  apply existsb_exists in Ew as (l & Hl & Ha). exists l. by rewrite <- list_elem_of_In in Hl.
Qed.

(** Every stacked window hangs under a root. *)
Lemma root_of w : stacked w -> exists r, root r /\ stacked r /\ rtc above r w.
Proof.
  assert (forall n w, (rk w < n)%nat -> stacked w -> exists r, root r /\ stacked r /\ rtc above r w)
    as Hgen; [|intros; apply (Hgen (S (rk w))); [lia|done]].
  induction n as [|n IH]; intros v Hn Hv; [lia|].
  destruct (is_root v) eqn:Ev; [exists v; by rewrite <- is_root_spec|].
  destruct (not_root_above v) as [l Hl]; [by rewrite <- is_root_spec, Ev|].
  destruct (IH l) as (r & Hr & Hrs & Hd).
  - apply above_rank in Hl. lia.
  - apply (f_leads _ HF v); [done|apply Hl].
  - exists r. split_and!; [done..|]. eapply rtc_r; eauto.
Qed.

(** *** The constrained order *)

Lemma assign_layers_total ws : forall mins,
  (forall w, w ∈ ws -> stacked w) ->
  exists assigned, assign_layers E fuel s mins ws = Some assigned /\ fst <$> assigned = ws.
Proof.
  induction ws as [|w ws IH]; intros mins Hws; [by exists []|]. cbn [assign_layers].
  destruct (f_layer _ HF w) as [l ->]; [apply Hws; by left|]. cbn [mbind option_bind].
  destruct (match mins !! _ with Some _ => _ | None => _ end) as [l' mins'].
  destruct (IH mins') as (rest & -> & Hrest); [intros; apply Hws; by right|].
  cbn. eexists. split; [done|]. cbn. by rewrite Hrest.
Qed.

Lemma constrained_spec :
  exists assigned, assign_layers E fuel s ∅ (unconstrained_stacking_order s) = Some assigned /\
    fst <$> assigned = unconstrained_stacking_order s /\
    constrainedStackingOrder E fuel s = Some (concat (tree fuel <$>
      filter (fun w => is_root w = true) (preliminary_stack assigned))).
Proof.
  destruct (assign_layers_total (unconstrained_stacking_order s) ∅) as (assigned & Ha & Hf); [done|].
  exists assigned. split_and!; [done..|]. unfold constrainedStackingOrder. rewrite Ha.
  cbn [mbind option_bind].
  rewrite build_stack_spec; [done| | |].
  - rewrite preliminary_stack_perm, Hf. apply (f_nodup _ HF).
  - intros w. by rewrite preliminary_stack_perm, Hf.
  - intros w x _ _ Hx. by apply not_elem_of_nil in Hx.
Qed.

Lemma roots_stacked assigned w :
  fst <$> assigned = unconstrained_stacking_order s ->
  w ∈ filter (fun w => is_root w = true) (preliminary_stack assigned) <-> root w /\ stacked w.
Proof. intros Hf. by rewrite list_elem_of_filter, preliminary_stack_perm, Hf, is_root_spec. Qed.

(** No window is lost or duplicated. *)
Lemma constrained_perm order :
  constrainedStackingOrder E fuel s = Some order -> order ≡ₚ unconstrained_stacking_order s.
Proof.
  destruct constrained_spec as (assigned & _ & Hf & ->). intros [= <-].
  apply NoDup_Permutation; [|apply (f_nodup _ HF)|].
  - apply NoDup_concat_map.
    + apply NoDup_filter. rewrite preliminary_stack_perm, Hf. apply (f_nodup _ HF).
    + intros w [_ Hw]%(roots_stacked assigned); [|done]. by apply tree_nodup.
    + intros a b x Ha Hb Hax%tree_down Hbx%tree_down.
      apply (roots_stacked assigned) in Ha as [? ?]; [|done].
      apply (roots_stacked assigned) in Hb as [? ?]; [|done].
      by apply (roots_disjoint a b x).
  - intros x. rewrite elem_of_concat. split.
    + intros (l & Hx & Hl). apply list_elem_of_fmap in Hl as (r & -> & Hr).
      apply (roots_stacked assigned) in Hr as [_ Hr]; [|done].
      apply tree_down in Hx. by eapply down_stacked.
    + intros Hx. destruct (root_of x Hx) as (r & Hr & Hrs & Hd).
      exists (tree fuel r). split; [apply down_tree; [done|lia|done]|].
      apply list_elem_of_fmap. exists r. split; [done|]. by apply (roots_stacked assigned).
Qed.

(** The tree of a window is contiguous in the tree of a window it follows. *)
Lemma tree_contiguous n : forall w x, x ∈ tree n w ->
  exists k pre post, tree n w = pre ++ tree k x ++ post /\ (n - (rk x - rk w) <= k)%nat.
Proof.
  induction n as [|n IH]; intros w x; simpl.
  - intros ->%list_elem_of_singleton. exists 0%nat, [], []. split; [done|lia].
  - rewrite elem_of_cons. intros [->|Hx].
    + exists (S n), [], []. split; [by rewrite app_nil_r|lia].
    + apply elem_of_concat in Hx as (l & Hx & Hl).
      apply list_elem_of_fmap in Hl as (c & -> & Hc).
      destruct (IH c x Hx) as (k & pre & post & Heq & Hk).
      apply list_elem_of_split in Hc as Hsplit. destruct Hsplit as (k1 & k2 & Hkids).
      exists k, (w :: concat (tree n <$> k1) ++ pre), (post ++ concat (tree n <$> k2)).
      split.
      * rewrite Hkids, fmap_app, concat_app, fmap_cons. cbn [concat].
        rewrite Heq, <- !app_assoc. cbn. by rewrite <- !app_assoc.
      * apply kids_elem, above_rank in Hc. apply tree_down, down_rank in Hx. lia.
Qed.

(** A restacked child is above its lead, with only followers of the lead in
    between. *)
Lemma constrained_above order l c :
  constrainedStackingOrder E fuel s = Some order -> stacked c -> above l c ->
  exists o1 o2 o3, order = o1 ++ l :: o2 ++ c :: o3 /\ Forall (rtc above l) o2.
Proof.
  destruct constrained_spec as (assigned & _ & Hf & ->). intros [= <-] Hc Ha.
  assert (stacked l) as Hl by (apply (f_leads _ HF c); [done|apply Ha]).
  destruct (root_of l Hl) as (r & Hr & Hrs & Hd).
  destruct (tree_contiguous fuel r l) as (k & pre & post & Htree & Hk).
  { apply down_tree; [done|lia|done]. }
  assert (c ∈ tree k l) as Hcl.
  { apply down_tree; [done| |by apply rtc_once].
    pose proof (down_rank _ _ Hd). pose proof (f_fuel _ HF l Hl). lia. }
  assert (Forall (rtc above l) (tree k l)) as Hall
    by (apply Forall_forall; intros x; apply tree_down).
  destruct k as [|k].
  { apply list_elem_of_singleton in Hcl as ->. apply above_rank in Ha. lia. }
  cbn [tree] in Hcl, Hall, Htree. apply elem_of_cons in Hcl as [->|Hcl].
  { apply above_rank in Ha. lia. }
  apply list_elem_of_split in Hcl as (k1 & k2 & Hsplit).
  rewrite Hsplit in Htree, Hall.
  apply Forall_cons in Hall as [_ [Hall _]%Forall_app].
  assert (r ∈ filter (fun w => is_root w = true) (preliminary_stack assigned)) as Hin
    by (by apply roots_stacked).
  apply list_elem_of_split in Hin as (r1 & r2 & ->).
  exists (concat (tree fuel <$> r1) ++ pre), k1, (k2 ++ post ++ concat (tree fuel <$> r2)).
  split; [|done].
  rewrite fmap_app, concat_app, fmap_cons. cbn [concat]. rewrite Htree.
  by rewrite <- ?app_assoc; cbn; rewrite <- ?app_assoc; cbn; rewrite <- ?app_assoc.
Qed.

(** The windows that no lead restacks keep the order of the layers. *)
Lemma constrained_roots order :
  constrainedStackingOrder E fuel s = Some order ->
  exists assigned, assign_layers E fuel s ∅ (unconstrained_stacking_order s) = Some assigned /\
    filter (fun w => is_root w = true) order
    = filter (fun w => is_root w = true) (preliminary_stack assigned).
Proof.
  destruct constrained_spec as (assigned & Has & Hf & ->). intros [= <-].
  exists assigned. split; [done|].
  assert (forall rs, (forall r, r ∈ rs -> root r /\ stacked r) ->
    filter (fun w => is_root w = true) (concat (tree fuel <$> rs)) = rs) as Hgen.
  { induction rs as [|r rs IH]; intros Hrs; [done|]. rewrite fmap_cons. cbn [concat].
    rewrite filter_app, IH by (intros; apply Hrs; by right).
    destruct (Hrs r) as [Hr Hsr]; [by left|].
    assert (filter (fun w => is_root w = true) (tree fuel r) = [r]) as ->; [|done].
    rewrite tree_cons.
    rewrite filter_cons_True by (by apply is_root_spec).
    destruct (filter (fun w => is_root w = true) (tail (tree fuel r))) as [|x l] eqn:Ex; [done|].
    assert (x ∈ x :: l) as Hx by (by left). rewrite <- Ex in Hx.
    apply list_elem_of_filter in Hx as [Hx%is_root_spec Hxt].
    assert (rtc above r x) as Hd.
    { apply (tree_down fuel). rewrite tree_cons. by right. }
    apply rtc_inv_r in Hd as [->|(z & _ & Hz)]; [|by destruct (Hx z)].
    pose proof (tree_nodup fuel x Hsr) as Hnd.
    rewrite tree_cons in Hnd. by apply NoDup_cons in Hnd as [? _]. }
  apply Hgen. intros r Hr. by apply (roots_stacked assigned).
Qed.
End Forest.
End StackingFacts.
