(* ===== verification/StackingProps.v ===== *)
(** * Stacking and transients: the properties *)

From S2P Require Import Prelude Qt Toplevel Transient FocusChain Stacking StackingFacts.

Module StackingProps.
Import Toplevel Transient Stacking StackingFacts.

(** ** Frames

    Raising changes nothing of a window but its auto raise timer, so that layers
    and restacking stay as they are. *)

Definition strip (x : Window) : Window :=
  x <| control := (fun c => c <| auto_raise := false |>) <$> control x |>.

Record framed (s s' : Space) : Prop := {
  fr_wins : forall w, strip (wins s w) = strip (wins s' w);
  fr_focus : should_get_focus s' = should_get_focus s;
  fr_active : active_client s' = active_client s;
  fr_stack : stacking_order s' = stacking_order s;
  fr_block : block_stacking_updates s' = block_stacking_updates s;
}.

Lemma framed_refl s : framed s s.
Proof. done. Qed.

Lemma framed_trans s1 s2 s3 : framed s1 s2 -> framed s2 s3 -> framed s1 s3.
Proof.
  intros [A1 A2 A3 A4 A5] [B1 B2 B3 B4 B5].
  split; [intros w; by rewrite A1|congruence..].
Qed.

Section Frames.
Context (E : Env) (fuel : nat) (s s' : Space).
Context (Hw : forall w, strip (wins s w) = strip (wins s' w)).
Context (Hfocus : should_get_focus s' = should_get_focus s).
Context (Hactive : active_client s' = active_client s).

Lemma strip_field {A} (f : Window -> A) w :
  (forall x, f (strip x) = f x) -> f (wins s' w) = f (wins s w).
Proof. intros Hf. by rewrite <- Hf, <- Hw, Hf. Qed.

Lemma strip_control w :
  match control (wins s w), control (wins s' w) with
  | Some c, Some c' => keep_above c' = keep_above c /\ keep_below c' = keep_below c /\
                       fullscreen c' = fullscreen c
  | None, None => True
  | _, _ => False
  end.
Proof.
  pose proof (f_equal control (Hw w)) as H. cbn in H.
  destruct (control (wins s w)) as [[]|], (control (wins s' w)) as [[]|]; cbn in H; try done.
  injection H; intros; subst; cbn; auto.
Qed.

Lemma strip_belong w : belong_to_layer E s' w = belong_to_layer E s w.
Proof.
  unfold belong_to_layer, is_splash, is_on_screen_display, is_notification,
    is_critical_notification, is_dock, is_desktop, is_type, is_active_fullscreen,
    mostRecentlyActivatedClient, layer_for_dock. cbn zeta.
  rewrite Hfocus, Hactive, (strip_field isInternal), (strip_field isLockScreen),
    (strip_field windowType), (strip_field belongsToDesktop) by done.
  pose proof (strip_control w) as Hc.
  destruct (control (wins s w)) as [c|], (control (wins s' w)) as [c'|]; try done.
  destruct Hc as (Ha & Hb & Hf). cbn. rewrite Ha, Hb, Hf.
  destruct (match last (should_get_focus s) with Some w0 => Some w0 | None => active_client s end)
    as [ac|]; [|done].
  by rewrite (strip_field leads ac), (strip_field screen ac), (strip_field screen w).
Qed.

Lemma strip_layer n w : layer_of E n s' w = layer_of E n s w.
Proof.
  revert w. induction n as [|n IH]; intros w; cbn [layer_of];
    unfold lead; rewrite (strip_field leads), (strip_field annexed), (strip_field m_layer),
      strip_belong by done; [done|].
  destruct (head (leads (wins s w))), (annexed (wins s w)); done.
Qed.

Lemma strip_child_restack l c : child_restack E fuel s' l c = child_restack E fuel s l c.
Proof.
  unfold child_restack, layer, keepTransientAbove, keepDeletedTransientAbove,
    is_splash, is_dialog, is_dock, is_type. cbn zeta.
  by rewrite !strip_layer, !(strip_field windowType), !(strip_field annexed), !(strip_field modal),
    !(strip_field groupTransient), !(strip_field remnant) by done.
Qed.

Lemma strip_forest rk :
  forest E fuel s rk -> unconstrained_stacking_order s' ≡ₚ unconstrained_stacking_order s ->
  forest E fuel s' rk.
Proof.
  intros [F1 F2 F3 F4 F5 F6 F7 F8] Hp.
  assert (forall w, leads (wins s' w) = leads (wins s w)) as Hleads by (intros; by apply strip_field).
  assert (forall w, children (wins s' w) = children (wins s w)) as Hch by (intros; by apply strip_field).
  split.
  - by rewrite Hp.
  - destruct F2. split; intros; rewrite ?Hleads, ?Hch; auto.
  - intros a b. rewrite Hleads. apply F3.
  - intros w. rewrite Hp. apply F4.
  - intros w c. rewrite Hp, Hch. apply F5.
  - intros w l. rewrite Hp, Hleads. apply F6.
  - intros w. rewrite Hp. unfold layer. rewrite strip_layer. apply F7.
  - intros w l1 l2. rewrite Hp, Hleads. unfold restacks. rewrite !strip_child_restack. apply F8.
Qed.
End Frames.

(** ** Raising *)

Section Raise.
Context (E : Env) (fuel : nat) (cp ef : bool).
Implicit Types (s : Space) (w l : wid).

Lemma cancel_ok w s c :
  control (wins s w) = Some c ->
  exists s', cancel_auto_raise w s = Some s' /\ framed s s' /\
    unconstrained_stacking_order s' = unconstrained_stacking_order s.
Proof.
  intros Hc. unfold cancel_auto_raise. rewrite Hc. cbn. eexists. split; [done|].
  split; [|done]. split; try done. intros v. cbn. unfold set_win. case_decide; [|done].
  subst v. unfold strip. cbn. by rewrite Hc.
Qed.

Lemma do_raise_ok w s :
  framed s (do_raise w s) /\
  unconstrained_stacking_order (do_raise w s) = remove_all w (unconstrained_stacking_order s) ++ [w].
Proof. unfold do_raise. case_match; done. Qed.

(** A blocker inside a blocker only runs its body. *)
Lemma nested_blocker f s :
  0 < block_stacking_updates s ->
  (forall s1, block_stacking_updates s1 = block_stacking_updates s + 1 ->
     unconstrained_stacking_order s1 = unconstrained_stacking_order s -> framed (s1 <| block_stacking_updates := block_stacking_updates s |>) s -> wins s1 = wins s ->
     exists s2, f s1 = Some s2 /\ framed s1 s2) ->
  exists s2 s3, f (s <| block_stacking_updates := block_stacking_updates s + 1 |>) = Some s2 /\
    with_blocker E fuel cp ef f s = Some s3 /\ framed s s3 /\
    unconstrained_stacking_order s3 = unconstrained_stacking_order s2.
Proof.
  intros Hb Hf. unfold with_blocker.
  assert (blockStackingUpdates E fuel cp ef true s
    = Some (s <| block_stacking_updates := block_stacking_updates s + 1 |>)) as ->.
  { unfold blockStackingUpdates. by rewrite (proj2 (Z.eqb_neq _ _)) by lia. }
  cbn -[blockStackingUpdates].
  match goal with |- context [f ?m] => destruct (Hf m) as (s2 & Hs2 & Hfr) end; [done..|].
  rewrite Hs2. cbn -[blockStackingUpdates]. unfold blockStackingUpdates.
  destruct Hfr as [A1 A2 A3 A4 A5]. cbn in A1, A2, A3, A4, A5. cbn. rewrite A5.
  rewrite (proj2 (Z.eqb_neq _ _)) by lia.
  eexists _, _. split; [done|]. split; [done|]. split; [|done].
  split; cbn; try done. lia.
Qed.

Definition has_control s l : Prop := is_Some (control (wins s l)).
#[global] Instance has_control_dec s l : Decision (has_control s l).
Proof. unfold has_control. apply _. Defined.

Lemma framed_control s s' l : framed s s' -> has_control s' l <-> has_control s l.
Proof.
  intros [Hw _ _ _ _]. pose proof (strip_control s s' Hw l) as H. unfold has_control.
  destruct (control (wins s l)), (control (wins s' l)); try done.
  all: split; eauto.
Qed.

Lemma raise_lead_ok l s :
  0 < block_stacking_updates s ->
  exists s', raise_lead E fuel cp ef (Some s) l = Some s' /\ framed s s' /\
    unconstrained_stacking_order s'
    = if decide (has_control s l) then remove_all l (unconstrained_stacking_order s) ++ [l]
      else unconstrained_stacking_order s.
Proof.
  intros Hb. unfold raise_lead. cbn [mbind option_bind].
  destruct (control (wins s l)) as [c|] eqn:Hc.
  - rewrite decide_True by (by eexists).
    destruct (cancel_ok l s c Hc) as (s1 & -> & Hfr & Hu). cbn [mbind option_bind].
    destruct (nested_blocker (fun s => Some (do_raise l s)) s1) as (s2 & s3 & Hs2 & -> & Hf3 & Hu3).
    + by rewrite (fr_block _ _ Hfr).
    + intros. eexists. split; [done|]. apply do_raise_ok.
    + exists s3. split; [done|]. split; [by eapply framed_trans|].
      simplify_eq. rewrite Hu3. rewrite (proj2 (do_raise_ok l _)). cbn. by rewrite Hu.
  - rewrite decide_False by (unfold has_control; rewrite Hc; by intros [? ?]).
    exists s. done.
Qed.

Definition not_in (ws : list wid) (u : list wid) : list wid := filter (fun x => x ∉ ws) u.

Lemma remove_all_not_in x ws u : remove_all x (not_in ws u) = not_in (ws ++ [x]) u.
Proof.
  unfold remove_all, not_in. rewrite list_filter_filter. apply filter_iff_in. intros y _.
  rewrite not_elem_of_app, list_elem_of_singleton. tauto.
Qed.

Lemma raise_leads_ok ls : forall s,
  0 < block_stacking_updates s -> NoDup ls ->
  exists s', foldl (raise_lead E fuel cp ef) (Some s) ls = Some s' /\ framed s s' /\
    forall ws u, unconstrained_stacking_order s = not_in ws u ++ ws ->
      (forall l, l ∈ ls -> l ∉ ws) ->
      let ws' := ws ++ filter (has_control s) ls in
      unconstrained_stacking_order s' = not_in ws' u ++ ws'.
Proof.
  induction ls as [|l ls IH]; intros s Hb Hnd; cbn [foldl].
  { exists s. split; [done|]. split; [done|]. intros ws u Hu _. cbn. by rewrite app_nil_r. }
  apply NoDup_cons in Hnd as [Hl Hnd].
  destruct (raise_lead_ok l s Hb) as (s1 & -> & Hfr & Hu1).
  destruct (IH s1) as (s' & -> & Hfr' & Hu'); [by rewrite (fr_block _ _ Hfr)|done|].
  exists s'. split; [done|]. split; [by eapply framed_trans|].
  intros ws u Hu Hdis. set (ws' := ws ++ filter (has_control s) (l :: ls)).
  assert (filter (has_control s1) ls = filter (has_control s) ls) as Hfil
    by (apply filter_iff_in; intros; by apply framed_control).
  destruct (decide (has_control s l)) as [Hc|Hc].
  - rewrite Hfil in Hu'.
    assert (ws' = (ws ++ [l]) ++ filter (has_control s) ls) as ->.
    { unfold ws'. rewrite filter_cons_True by done. by rewrite <- app_assoc. }
    apply Hu'.
    + rewrite Hu1, Hu, remove_all_app, remove_all_not_in.
      rewrite (remove_all_id l ws) by (apply Hdis; by left). by rewrite <- app_assoc.
    + intros x Hx. rewrite elem_of_app, list_elem_of_singleton.
      intros [Hxw| ->]; [|done]. by apply (Hdis x); [right|].
  - rewrite Hfil in Hu'.
    assert (ws' = ws ++ filter (has_control s) ls) as ->
      by (unfold ws'; by rewrite filter_cons_False).
    apply Hu'; [by rewrite Hu1|]. intros x Hx. apply Hdis. by right.
Qed.

(** *** The leads that are raised along *)

(** [l] is reached from a window by its leads and then first leads. *)
Lemma collect_leads_ok rk n H : forall (l : option wid) (acc : list wid),
  ranked rk H -> NoDup acc -> (forall x, l = Some x -> (rk x < n)%nat) ->
  exists acc', collect_leads n H l acc = Some acc' /\ NoDup acc' /\
    (forall x, x ∈ acc -> x ∈ acc') /\
    (forall x, l = Some x -> x ∈ acc') /\
    (forall x, x ∈ acc' -> x ∈ acc \/ exists y, l = Some y /\ (x = y \/ follows H y x)).
Proof.
  induction n as [|n IH]; intros [w|] acc HR Hnd Hn; cbn [collect_leads];
    try (exists acc; split_and!; by auto); [specialize (Hn w eq_refl); lia|].
  assert (exists acc1, (if contains acc w then acc else acc ++ [w]) = acc1 /\ NoDup acc1 /\
    w ∈ acc1 /\ (forall x, x ∈ acc -> x ∈ acc1) /\ (forall x, x ∈ acc1 -> x ∈ acc \/ x = w))
    as (acc1 & -> & Hnd1 & Hw1 & Hin1 & Hout1).
  { eexists. split; [done|]. destruct (contains acc w) eqn:Ec.
    - apply contains_true in Ec. split_and!; auto.
    - apply contains_false in Ec. split_and!.
      + apply NoDup_app. split_and!; [done| |apply NoDup_singleton].
        intros x Hx ->%list_elem_of_singleton. done.
      + set_solver.
      + set_solver.
      + set_solver. }
  assert (forall x, lead (H w) = Some x -> x ∈ leads (H w)) as Hlead.
  { unfold lead. intros x Hx. destruct (leads (H w)); [done|]. injection Hx as ->. by left. }
  destruct (IH (lead (H w)) acc1 HR Hnd1) as (acc' & -> & Hnd' & Hin' & Hl' & Hout').
  { intros x Hx%Hlead%HR. specialize (Hn w eq_refl). lia. }
  exists acc'. split_and!; [done..| | |].
  - auto.
  - intros x [= <-]. auto.
  - intros x Hx%Hout'. destruct Hx as [[?| ->]%Hout1|(y & Hy%Hlead & Hxy)]; [by left| |].
    + right. exists w. auto.
    + right. exists w. split; [done|]. right.
      destruct Hxy as [->|Hf]; [by apply tc_once|by eapply tc_l].
Qed.

Lemma all_leads_ok rk H w :
  ranked rk H -> (rk w <= fuel)%nat ->
  exists acc, all_leads fuel H (leads (H w)) = Some acc /\ NoDup acc /\
    (forall l, l ∈ leads (H w) -> l ∈ acc) /\ (forall x, x ∈ acc -> follows H w x).
Proof.
  intros HR Hf. unfold all_leads.
  assert (forall ls acc, (forall l, l ∈ ls -> l ∈ leads (H w)) -> NoDup acc ->
    (forall x, x ∈ acc -> follows H w x) ->
    exists acc', foldl (fun acc l => a ← acc; collect_leads fuel H (Some l) a) (Some acc) ls = Some acc' /\
      NoDup acc' /\ (forall x, x ∈ acc -> x ∈ acc') /\ (forall l, l ∈ ls -> l ∈ acc') /\
      (forall x, x ∈ acc' -> follows H w x)) as Hgen.
  { induction ls as [|l ls IH]; intros acc Hls Hnd Hacc; cbn [foldl].
    - exists acc. split_and!; [done..| |done]. intros l Hl. by apply not_elem_of_nil in Hl.
    - assert (l ∈ leads (H w)) as Hl by (apply Hls; by left).
      destruct (collect_leads_ok rk fuel H (Some l) acc HR Hnd) as (a & Ha & Hnd' & Hi & Hl' & Ho).
      { intros x [= <-]. apply HR in Hl. lia. }
      cbn [mbind option_bind]. rewrite Ha.
      destruct (IH a) as (acc' & Heq & Hnd2 & Hi2 & Hl2 & Ho2); [|done| |].
      + intros x Hx. apply Hls. by right.
      + intros x Hx%Ho. destruct Hx as [?|(y & [= <-] & Hxy)]; [auto|].
        destruct Hxy as [->|Hfl]; [by apply tc_once|by eapply tc_l].
      + exists acc'. split_and!; [done..| |auto| |done].
        * auto.
        * intros x [->|Hx]%elem_of_cons; auto. }
  destruct (Hgen (leads (H w)) []) as (acc & Heq & Hnd & _ & Hl & Ho);
    [done|constructor|intros x Hx; by apply not_elem_of_nil in Hx|].
  exists acc. by split_and!.
Qed.

Lemma follows_irrefl rk H w : ranked rk H -> ~ follows H w w.
Proof.
  intros HR. assert (forall x y, follows H x y -> (rk y < rk x)%nat) as Hlt.
  { intros x y. induction 1 as [? ? Hl%HR|? ? ? Hl%HR _ ?]; lia. }
  intros ?%Hlt. lia.
Qed.

(** *** Updating *)

Lemma cache_layers_frame ws : forall s,
  exists h, foldl (cache_layer E) s ws = s <| wins := h |>.
Proof.
  induction ws as [|w ws IH]; intros s; cbn [foldl].
  - exists (wins s). by destruct s.
  - assert (exists h, cache_layer E s w = s <| wins := h |>) as [h ->].
    { unfold cache_layer. repeat case_match; try (by eexists); exists (wins s); by destruct s. }
    destruct (IH (s <| wins := h |>)) as [h' ->]. by exists h'.
Qed.

Lemma update_total rk b s :
  forest E fuel s rk -> block_stacking_updates s <= 0 ->
  exists s' order, updateStackingOrder E fuel cp b s = Some s' /\
    constrainedStackingOrder E fuel s = Some order /\ stacking_order s' = order /\
    unconstrained_stacking_order s' = unconstrained_stacking_order s /\
    block_stacking_updates s' = block_stacking_updates s.
Proof.
  intros HF Hb. destruct (constrained_spec E fuel s rk HF) as (assigned & _ & _ & Ho).
  unfold updateStackingOrder. rewrite (proj2 (Z.ltb_ge _ _)) by done.
  rewrite Ho. cbn [mbind option_bind].
  destruct (cache_layers_frame (unconstrained_stacking_order s) s) as [h ->].
  eexists _, _. split; [done|]. split; [done|].
  destruct (_ || b), cp; cbn; split_and!; try done; by destruct (active_client s).
Qed.

(** Raising with a body that keeps the frame: the stacking order is recomputed
    once, from the unconstrained order the body leaves. *)
Lemma with_blocker_ok rk f s :
  forest E fuel s rk -> block_stacking_updates s = 0 ->
  (forall s1, framed (s1 <| block_stacking_updates := 0 |>) s -> block_stacking_updates s1 = 1 ->
     unconstrained_stacking_order s1 = unconstrained_stacking_order s -> wins s1 = wins s ->
     exists s2, f s1 = Some s2 /\ framed s1 s2 /\
       unconstrained_stacking_order s2 ≡ₚ unconstrained_stacking_order s1) ->
  exists s1 s2 s3 order, f s1 = Some s2 /\ with_blocker E fuel cp ef f s = Some s3 /\
    unconstrained_stacking_order s1 = unconstrained_stacking_order s /\ wins s1 = wins s /\
    stacking_order s1 = stacking_order s /\ block_stacking_updates s1 = 1 /\
    unconstrained_stacking_order s3 = unconstrained_stacking_order s2 /\
    constrainedStackingOrder E fuel (s2 <| block_stacking_updates := 0 |>) = Some order /\
    stacking_order s3 = order /\ order ≡ₚ unconstrained_stacking_order s /\
    block_stacking_updates s3 = 0.
Proof.
  intros HF Hb Hf. unfold with_blocker.
  assert (blockStackingUpdates E fuel cp ef true s
    = Some (s <| blocked_propagating_new_clients := false |> <| block_stacking_updates := 1 |>)) as ->.
  { unfold blockStackingUpdates. rewrite Hb. cbn. by rewrite Hb. }
  cbn -[blockStackingUpdates].
  match goal with |- context [f ?m] => destruct (Hf m) as (s2 & Hs2 & Hfr & Hp) end;
    [by split; cbn|done..|].
  rewrite Hs2. cbn -[blockStackingUpdates]. unfold blockStackingUpdates.
  pose proof Hfr as [A1 A2 A3 A4 A5]. cbn in A1, A2, A3, A4, A5, Hp.
  cbn -[updateStackingOrder]. rewrite A5. cbn -[updateStackingOrder].
  match goal with |- context [updateStackingOrder _ _ _ _ ?m] =>
    assert (forest E fuel m rk) as HF2 by (by apply (strip_forest E fuel s m));
    destruct (update_total rk (blocked_propagating_new_clients s2) m HF2)
      as (s3 & order & -> & Ho & Hst & Hu & Hb3); [done|]
  end.
  cbn. eexists _, s2, _, order. split; [exact Hs2|]. split; [done|].
  pose proof (constrained_perm _ _ _ _ HF2 _ Ho) as Hperm. cbn in Hperm.
  rewrite Hp in Hperm.
  destruct ef; cbn; split_and!; done.
Qed.

(** *** The body of raise_window *)

Definition raised_leads s w : list wid :=
  if isTransient (wins s w) then
    filter (has_control s)
      (ensureStackingOrder s (default [] (all_leads fuel (wins s) (leads (wins s w)))))
  else [].

Definition raise_body w s : option Space :=
  s1 ← (if isTransient (wins s w) then
          ls ← all_leads fuel (wins s) (leads (wins s w));
          foldl (raise_lead E fuel cp ef) (Some s) (ensureStackingOrder s ls)
        else Some s);
  Some (do_raise w s1).

Lemma raised_leads_ext s s1 w :
  wins s1 = wins s -> stacking_order s1 = stacking_order s -> raised_leads s1 w = raised_leads s w.
Proof.
  intros Hw Hst. unfold raised_leads, ensureStackingOrder. rewrite Hw, Hst.
  destruct (isTransient (wins s w)); [|done]. apply filter_iff_in.
  intros x _. unfold has_control. by rewrite Hw.
Qed.

Lemma raised_facts rk s w :
  forest E fuel s rk -> w ∈ unconstrained_stacking_order s ->
  (exists ls, all_leads fuel (wins s) (leads (wins s w)) = Some ls /\ NoDup ls) /\ NoDup (raised_leads s w ++ [w]) /\
  (forall l, l ∈ raised_leads s w -> follows (wins s) w l) /\
  (forall l, l ∈ leads (wins s w) -> has_control s l -> l ∈ raised_leads s w) /\
  (forall l, l ∈ raised_leads s w -> l ∈ unconstrained_stacking_order s).
Proof.
  intros HF Hw. pose proof (f_ranked _ _ _ _ HF) as HR.
  destruct (all_leads_ok rk (wins s) w HR (f_fuel _ _ _ _ HF w Hw)) as (ls & Hls & Hnd & Hdir & Hfol).
  assert (ensureStackingOrder s ls ≡ₚ ls) as Hp by (by apply ensureStackingOrder_perm).
  unfold raised_leads. rewrite Hls. cbn [default].
  assert (forall l, l ∈ filter (has_control s) (ensureStackingOrder s ls) -> l ∈ ls) as Hin.
  { intros l [_ Hl]%list_elem_of_filter. by rewrite Hp in Hl. }
  assert (forall y z, follows (wins s) y z -> y ∈ unconstrained_stacking_order s ->
    z ∈ unconstrained_stacking_order s) as Hcl.
  { intros y z. induction 1 as [? ? Hl|? ? ? Hl _ IH]; intros Hy; [|apply IH];
      by apply (f_leads _ _ _ _ HF _ _ Hy). }
  destruct (isTransient (wins s w)) eqn:Et; split_and!; try (by exists ls).
  - apply NoDup_app. split_and!; [apply NoDup_filter; by rewrite Hp| |apply NoDup_singleton].
    intros x Hx%Hin%Hfol ->%list_elem_of_singleton. by apply (follows_irrefl rk _ _ HR Hx).
  - auto.
  - intros l Hl Hc. apply list_elem_of_filter. split; [done|]. rewrite Hp. auto.
  - intros l Hl%Hin%Hfol. by apply (Hcl w).
  - apply NoDup_singleton.
  - intros l Hl. by apply not_elem_of_nil in Hl.
  - intros l Hl. unfold isTransient, lead in Et.
    destruct (leads (wins s w)); [by apply not_elem_of_nil in Hl|done].
  - intros l Hl. by apply not_elem_of_nil in Hl.
Qed.

Lemma not_in_perm r u :
  NoDup u -> NoDup r -> (forall x, x ∈ r -> x ∈ u) -> not_in r u ++ r ≡ₚ u.
Proof.
  intros Hu Hr Hin.
  transitivity (filter (fun x => x ∉ r) u ++ filter (fun x => ~ (x ∉ r)) u);
    [|apply filter_app_complement].
  apply Permutation_app; [done|]. apply NoDup_Permutation; [done|by apply NoDup_filter|].
  intros x. rewrite list_elem_of_filter. split; [auto|]. intros [Hn _]. by apply dec_stable in Hn.
Qed.

Lemma not_in_nil u : not_in [] u = u.
Proof.
  unfold not_in. induction u as [|x u IH]; [done|].
  rewrite filter_cons_True by apply not_elem_of_nil. by rewrite IH.
Qed.

Lemma raise_body_ok w s :
  0 < block_stacking_updates s ->
  (exists ls, all_leads fuel (wins s) (leads (wins s w)) = Some ls /\ NoDup ls) ->
  NoDup (raised_leads s w ++ [w]) ->
  exists s', raise_body w s = Some s' /\ framed s s' /\
    unconstrained_stacking_order s'
    = not_in (raised_leads s w ++ [w]) (unconstrained_stacking_order s) ++ raised_leads s w ++ [w].
Proof.
  intros Hb (ls & Hls & Hndl). unfold raise_body, raised_leads. rewrite Hls. cbn [default mbind option_bind].
  intros Hnd. destruct (isTransient (wins s w)).
  - set (ls' := ensureStackingOrder s ls) in *.
    destruct (raise_leads_ok ls' s Hb) as (s2 & -> & Hfr & Hu);
      [unfold ls', ensureStackingOrder; by rewrite ensureStackingOrder_perm|].
    cbn [mbind option_bind]. eexists. split; [done|].
    split; [eapply framed_trans; [exact Hfr|apply do_raise_ok]|].
    rewrite (proj2 (do_raise_ok w s2)), (Hu [] (unconstrained_stacking_order s)).
    + rewrite app_nil_l, remove_all_app, remove_all_not_in, app_assoc.
      rewrite (remove_all_id w (filter _ _)); [done|].
      intros Hin. apply NoDup_app in Hnd as (_ & Hnd & _). apply (Hnd w Hin). by left.
    + by rewrite not_in_nil, app_nil_r.
    + intros l _. apply not_elem_of_nil.
  - cbn. eexists. split; [done|]. split; [apply do_raise_ok|].
    rewrite (proj2 (do_raise_ok w s)). f_equal.
    rewrite <- (not_in_nil (unconstrained_stacking_order s)) at 1. apply remove_all_not_in.
Qed.

Lemma follows_frame s s0 w l :
  framed s s0 -> follows (wins s0) w l -> follows (wins s) w l.
Proof.
  intros [Hw _ _ _ _] Hx. induction Hx as [y z Hl|y z v Hl _ IH];
    rewrite (strip_field s s0 Hw leads) in Hl by done; [by apply tc_once|by eapply tc_l].
Qed.

Lemma seq_split n k : (k < n)%nat -> seq 0 n = seq 0 k ++ k :: seq (S k) (n - S k).
Proof.
  intros Hk. replace n with (k + S (n - S k))%nat at 1 by lia. by rewrite seq_app.
Qed.

(** In the preliminary stack a lower layer, or an earlier window of the same
    layer, comes first. *)
Lemma preliminary_order (assigned : list (wid * Toplevel.layer)) a b la lb i j :
  assigned !! i = Some (a, la) -> assigned !! j = Some (b, lb) ->
  (layer_index la < layer_index lb)%nat \/ la = lb /\ (i < j)%nat ->
  exists p q r, preliminary_stack assigned = p ++ a :: q ++ b :: r.
Proof.
  intros Hi Hj Hlt. unfold preliminary_stack. set (f := fun i : nat => _).
  assert (forall k, (k < layer_count)%nat -> exists x y,
    concat (f <$> seq 0 layer_count) = x ++ f k ++ y /\
    x = concat (f <$> seq 0 k)) as Hsplit.
  { intros k Hk. exists (concat (f <$> seq 0 k)), (concat (f <$> seq (S k) (layer_count - S k))).
    split; [|done]. by rewrite (seq_split layer_count k Hk), fmap_app, concat_app. }
  assert (forall w ly k, assigned !! k = Some (w, ly) -> exists x y, f (layer_index ly) = x ++ w :: y /\
    x = fst <$> filter (fun p => layer_index p.2 = layer_index ly) (take k assigned)) as Hin.
  { intros w ly k Hk. eexists _, (fst <$> filter (fun p => layer_index p.2 = layer_index ly) (drop (S k) assigned)).
    split; [|reflexivity].
    transitivity (f (layer_index ly)); [done|]. unfold f.
    rewrite <- (take_drop_middle _ _ _ Hk) at 1.
    by rewrite filter_app, fmap_app, filter_cons_True by done. }
  assert (forall ly, (layer_index ly < layer_count)%nat) as Hlc
    by (intros []; unfold layer_count; simpl; lia).
  destruct Hlt as [Hlt|[-> Hlt]].
  - destruct (Hsplit (layer_index lb) (Hlc lb)) as (x & y & Heq & Hx).
    destruct (Hin b lb j Hj) as (x2 & y2 & Hfb & _).
    destruct (Hin a la i Hi) as (x1 & y1 & Hfa & _).
    assert (exists u v, concat (f <$> seq 0 (layer_index lb)) = u ++ f (layer_index la) ++ v)
      as (u & v & Huv).
    { exists (concat (f <$> seq 0 (layer_index la))),
        (concat (f <$> seq (S (layer_index la)) (layer_index lb - S (layer_index la)))).
      by rewrite (seq_split (layer_index lb) (layer_index la) Hlt), fmap_app, concat_app. }
    rewrite Heq, Hx, Huv, Hfa, Hfb. exists (u ++ x1), (y1 ++ v ++ x2), (y2 ++ y).
    by rewrite <- ?app_assoc; cbn; rewrite <- ?app_assoc; cbn; rewrite <- ?app_assoc.
  - destruct (Hsplit (layer_index lb) (Hlc lb)) as (x & y & Heq & _). rewrite Heq.
    destruct (Hin b lb j Hj) as (x2 & y2 & -> & ->).
    assert (take j assigned !! i = Some (a, lb)) as Hi' by (by rewrite lookup_take_lt).
    rewrite <- (take_drop_middle _ _ _ Hi'), filter_app, fmap_app.
    rewrite filter_cons_True by done. rewrite fmap_cons.
    match goal with |- context [(?A ++ (a, lb).1 :: ?B) ++ b :: y2] =>
      exists (x ++ A), B, (y2 ++ y) end.
    by rewrite <- ?app_assoc; cbn; rewrite <- ?app_assoc; cbn; rewrite <- ?app_assoc.
Qed.

Lemma filter_split (P : wid -> Prop) `{!forall x, Decision (P x)} (x : wid) (r o : list wid) :
  forall l : list wid, filter P o = l ++ x :: r -> exists o1 o2, o = o1 ++ x :: o2 /\ filter P o2 = r.
Proof.
  induction o as [|y o IH]; intros l Hf; [by destruct l|].
  destruct (decide (P y)) as [Hy|Hy].
  - rewrite filter_cons_True in Hf by done. destruct l as [|z l]; injection Hf as <- Hf.
    + by exists [], o.
    + destruct (IH l Hf) as (o1 & o2 & -> & Hr). by exists (y :: o1), o2.
  - rewrite filter_cons_False in Hf by done. destruct (IH l Hf) as (o1 & o2 & -> & Hr).
    by exists (y :: o1), o2.
Qed.

(** ** The properties *)

(** C3: for windows whose transient links form a forest, the constrained order
    is computed (no assertion fails and the recursion over the children ends)
    and contains exactly the windows of the unconstrained order, each once. *)
Theorem constrained_keeps_windows rk s :
  forest E fuel s rk ->
  exists order, constrainedStackingOrder E fuel s = Some order /\
    order ≡ₚ unconstrained_stacking_order s.
Proof.
  intros HF. destruct (constrained_spec E fuel s rk HF) as (assigned & _ & _ & Ho).
  eexists. split; [exact Ho|]. by apply (constrained_perm E fuel s rk HF).
Qed.

(** C23: in the constrained order a transient child that its lead restacks is
    above the lead, and only windows that hang below the lead, through restacked
    children, are in between. *)
Theorem constrained_children_above rk s order l c :
  forest E fuel s rk -> constrainedStackingOrder E fuel s = Some order ->
  c ∈ unconstrained_stacking_order s -> l ∈ leads (wins s c) ->
  child_restack E fuel s l c = Some true ->
  exists below between top, order = below ++ l :: between ++ c :: top /\
    Forall (fun x => follows (wins s) x l) between.
Proof.
  intros HF Ho Hc Hl Hr.
  assert (above E fuel s l c) as Ha by (split; [done|]; unfold restacks; by rewrite Hr).
  destruct (constrained_above E fuel s rk HF order l c Ho Hc Ha) as (o1 & o2 & o3 & Heq & Hall).
  exists o1, o2, o3. split; [done|]. subst order.
  pose proof (constrained_perm E fuel s rk HF _ Ho) as Hp.
  assert (NoDup (o1 ++ l :: o2 ++ c :: o3)) as Hnd by (rewrite Hp; apply (f_nodup _ _ _ _ HF)).
  apply Forall_forall. intros x Hx. rewrite Forall_forall in Hall.
  assert (x <> l) as Hne.
  { intros ->. apply NoDup_app in Hnd as (_ & _ & Hnd). apply NoDup_cons in Hnd as [Hl' _].
    apply Hl'. apply elem_of_app. by left. }
  specialize (Hall x Hx). clear -Hall Hne.
  assert (forall y, rtc (above E fuel s) l y -> y = l \/ follows (wins s) y l) as Hgen.
  { refine (rtc_ind_r (fun y => y = l \/ follows (wins s) y l) l _ _); [by left|].
    intros y z _ [Hzy _] IH. right. destruct IH as [->|IH]; [by apply tc_once|by eapply tc_l]. }
  by destruct (Hgen x Hall).
Qed.

(** The windows that no lead restacks are stacked layer by layer, and within
    a layer in the unconstrained order: their order in the result is the order
    of the preliminary stack, which lists the layers from bottom to top. *)
Theorem constrained_layers rk s order a b la lb i j :
  forest E fuel s rk -> constrainedStackingOrder E fuel s = Some order ->
  (exists assigned, assign_layers E fuel s ∅ (unconstrained_stacking_order s) = Some assigned /\
    assigned !! i = Some (a, la) /\ assigned !! j = Some (b, lb)) ->
  is_root E fuel s a = true -> is_root E fuel s b = true ->
  (layer_index la < layer_index lb)%nat \/ la = lb /\ (i < j)%nat ->
  exists below between top, order = below ++ a :: between ++ b :: top.
Proof.
  intros HF Ho (assigned & Has & Hi & Hj) Ha Hb Hlt.
  destruct (constrained_roots E fuel s rk HF order Ho) as (assigned' & Has' & Hroots).
  rewrite Has in Has'. injection Has' as <-.
  destruct (preliminary_order assigned a b la lb i j Hi Hj Hlt) as (p & q & r & Hp).
  rewrite Hp, filter_app, filter_cons_True, filter_app, filter_cons_True in Hroots by done.
  apply filter_split in Hroots as (o1 & o2 & -> & Ho2).
  apply filter_split in Ho2 as (o3 & o4 & -> & _). eauto.
Qed.

End Raise.

(** EnsureStackingOrder permutes a list of distinct stacked windows and puts
    it in stacking order: the result is the stacking order restricted to the
    windows of the list. *)
Theorem ensureStackingOrder_sorts s (l : list wid) :
  NoDup (stacking_order s) -> NoDup l -> (forall w, w ∈ l -> w ∈ stacking_order s) ->
  ensureStackingOrder s l ≡ₚ l /\
  ensureStackingOrder s l = filter (fun w => w ∈ l) (stacking_order s).
Proof.
  intros Hst Hl Hin. split; [by apply ensureStackingOrder_perm|].
  unfold ensureStackingOrder, ensureStackingOrderInList.
  destruct (foldl_raise_sorted (stacking_order s) l Hst Hl) as (rest & Heq & Hrest).
  assert (rest = []) as ->.
  { rewrite <- Hrest. destruct (filter _ l) as [|x r] eqn:Ex; [done|].
    assert (x ∈ x :: r) as Hx by (by left). rewrite <- Ex in Hx.
    apply list_elem_of_filter in Hx as [Hn Hx]. by destruct Hn; apply Hin. }
  case_match eqn:Hlen; [|exact Heq].
  apply Nat.ltb_lt in Hlen. rewrite app_nil_l in Heq. rewrite <- Heq.
  destruct l as [|x [|y l]]; simpl in Hlen; [|clear Heq|lia].
  - clear -Hl. induction (stacking_order s) as [|c o IH]; [done|]. simpl. exact IH.
  - clear. induction (stacking_order s) as [|c o IH]; [done|]. simpl.
    unfold raise_if_in at 2. destruct (contains [x] c) eqn:Ec; [|exact IH].
    apply contains_true, list_elem_of_singleton in Ec as ->.
    by rewrite remove_all_cons_eq.
Qed.

(** Is_follower_of decides whether a chain of leads goes from the one window
    to the other, for links without cycles whose two sides agree; the recursion
    ends within the length of the longest chain. *)
Theorem is_follower_of_reaches rk fuel H w v :
  linked H -> ranked rk H -> (rk w <= fuel)%nat ->
  is_follower_of fuel H w v = true <-> follows H w v.
Proof. apply is_follower_of_spec. Qed.

Lemma NoDup_snoc (l : list wid) x : NoDup l -> x ∉ l -> NoDup (l ++ [x]).
Proof.
  intros Hl Hx. apply NoDup_app. split_and!; [done| |apply NoDup_singleton].
  by intros y Hy ->%list_elem_of_singleton.
Qed.

(** Adding and removing children keeps the two sides of the links in
    agreement, free of duplicates and of self links: a child can be added unless
    it is the window itself, afterwards it follows the window, and after its
    removal it is not a child any more. *)
Theorem children_stay_linked H w c :
  linked H ->
  (w <> c -> exists H', add_child w c H = Some H' /\ linked H' /\ w ∈ leads (H' c)) /\
  linked (remove_child w c H) /\ w ∉ leads (remove_child w c H c).
Proof.
  intros [HL1 HL2 HL3 HL4]. split.
  - intros Hne. destruct (decide (c ∈ children (H w))) as [Hin|Hnin].
    { exists H. unfold add_child.
      rewrite bool_decide_eq_false_2, (proj2 (contains_true _ _)) by done.
      split_and!; [done|done|by apply HL1]. }
    assert (exists H', add_child w c H = Some H') as [H' Heq].
    { unfold add_child, add_lead. rewrite bool_decide_eq_false_2, (proj2 (contains_false _ _)) by done.
      rewrite (bool_decide_eq_false_2 (c = w)) by done. unfold modify. rewrite set_win_lookup.
      rewrite decide_False by done. rewrite (proj2 (contains_false _ _)) by (by rewrite <- HL1).
      by eexists. }
    destruct (add_child_leads w c H H' Heq Hnin) as (_ & Hch & Hle).
    assert (w ∉ leads (H c)) as Hwl by (by rewrite <- HL1).
    exists H'. split; [done|]. split; [|rewrite Hle, decide_True by done; set_solver].
    split; intros a; rewrite ?Hch, ?Hle.
    + intros b. rewrite Hle.
      repeat case_decide; subst; rewrite ?elem_of_app, ?list_elem_of_singleton, ?HL1; naive_solver.
    + case_decide; [by apply NoDup_snoc|done].
    + case_decide; [by apply NoDup_snoc|done].
    + case_decide; [subst|done]. rewrite elem_of_app, list_elem_of_singleton.
      intros [?|?]; [by eapply HL4|congruence].
  - destruct (remove_child_links w c H) as [Hch Hle]. split.
    + split; intros a; rewrite ?Hch, ?Hle.
      * intros b. rewrite Hle. repeat case_decide; subst;
          rewrite ?elem_of_remove_all, ?HL1; naive_solver.
      * case_decide; [by apply NoDup_remove_all|done].
      * case_decide; [by apply NoDup_remove_all|done].
      * case_decide; [subst|done]. rewrite elem_of_remove_all. intros [? _]. by eapply HL4.
    + rewrite Hle, decide_True by done. apply not_elem_of_remove_all.
Qed.

(** ** Witnesses

    Window 0 is a desktop, 1 a normal window with the dialog 2 as child, 3 a
    dock; all others are normal windows without links. *)

Definition demo_heap : Heap := fun w =>
  match w with
  | 0 => plain_window <| windowType := Desktop |>
  | 1 => plain_window <| children := [2] |>
  | 2 => plain_window <| windowType := Dialog |> <| leads := [1] |>
  | 3 => plain_window <| windowType := Dock |>
  | _ => plain_window
  end%nat.

Definition demo_space : Space :=
  mkSpace demo_heap [3; 2; 1; 0; 4]%nat [] false 0 false None None [] FocusChain.initial [].

Definition demo_rank (w : wid) : nat := if decide (w = 2)%nat then 1 else 0.

Lemma demo_linked : linked demo_heap.
Proof.
  split.
  - intros [|[|[|[|a]]]] [|[|[|[|b]]]]; simpl; set_solver.
  - intros [|[|[|[|a]]]]; simpl; repeat constructor; set_solver.
  - intros [|[|[|[|a]]]]; simpl; repeat constructor; set_solver.
  - intros [|[|[|[|a]]]]; simpl; set_solver.
Qed.

Lemma demo_forest : forest plain_env 3 demo_space demo_rank.
Proof.
  assert (forall w, w ∈ unconstrained_stacking_order demo_space -> w ∈ [3; 2; 1; 0; 4]%nat) as Hin by done.
  split.
  - apply (bool_decide_unpack _). by vm_compute.
  - exact demo_linked.
  - intros a b. simpl. destruct b as [|[|[|[|b]]]]; simpl; try set_solver.
  - intros w _. unfold demo_rank. case_decide; lia.
  - intros w c _. simpl. destruct w as [|[|[|[|w]]]]; simpl; set_solver.
  - intros w l _. simpl. destruct w as [|[|[|[|w]]]]; simpl; set_solver.
  - intros w Hw%Hin. repeat (apply elem_of_cons in Hw as [->|Hw]; [by eexists|]).
    by apply not_elem_of_nil in Hw.
  - intros w l1 l2 _. simpl. destruct w as [|[|[|[|w]]]]; simpl; set_solver.
Qed.

Lemma constrained_keeps_windows_witness :
  exists order, constrainedStackingOrder plain_env 3 demo_space = Some order /\
    order ≡ₚ [3; 2; 1; 0; 4]%nat.
Proof. exact (constrained_keeps_windows plain_env 3 demo_rank demo_space demo_forest). Defined.

Lemma constrained_children_above_witness :
  exists below between top, [0; 1; 2; 4; 3]%nat = below ++ 1%nat :: between ++ 2%nat :: top /\
    Forall (fun x => follows demo_heap x 1%nat) between.
Proof.
  apply (constrained_children_above plain_env 3 demo_rank demo_space _ 1%nat 2%nat demo_forest);
    [by vm_compute|set_solver|simpl; set_solver|by vm_compute].
Defined.

Lemma constrained_layers_witness :
  exists below between top, [0; 1; 2; 4; 3]%nat = below ++ 0%nat :: between ++ 3%nat :: top.
Proof.
  apply (constrained_layers plain_env 3 demo_rank demo_space _ 0%nat 3%nat l_desktop l_dock 3 0 demo_forest);
    [by vm_compute| |by vm_compute|by vm_compute|left; simpl; lia].
  eexists. split; [vm_compute; reflexivity|]. by split.
Defined.


Lemma ensureStackingOrder_sorts_witness :
  ensureStackingOrder (demo_space <| stacking_order := [0; 1; 2; 4; 3]%nat |>) [3; 1]%nat = [1; 3]%nat.
Proof.
  destruct (ensureStackingOrder_sorts (demo_space <| stacking_order := [0; 1; 2; 4; 3]%nat |>) [3; 1]%nat)
    as [_ ->]; [by apply (bool_decide_unpack _); vm_compute..|simpl; set_solver|by vm_compute].
Defined.

Lemma is_follower_of_reaches_witness : is_follower_of 1 demo_heap 2%nat 1%nat = true.
Proof.
  apply (is_follower_of_reaches demo_rank 1 demo_heap 2%nat 1%nat demo_linked
    (f_ranked _ _ _ _ demo_forest)); [unfold demo_rank; simpl; lia|].
  apply tc_once. simpl. set_solver.
Defined.

Lemma children_stay_linked_witness : linked (remove_child 1%nat 2%nat demo_heap).
Proof. exact (proj1 (proj2 (children_stay_linked demo_heap 1%nat 2%nat demo_linked))). Defined.

(** A window with two children, one of which is also a child of the other. *)
Definition diamond_heap : Heap := fun w =>
  match w with
  | 1 => plain_window <| children := [2; 3] |>
  | 2 => plain_window <| leads := [1] |> <| children := [3] |>
  | 3 => plain_window <| leads := [1; 2] |>
  | _ => plain_window
  end%nat.

(** With two leads that are related themselves the constrained order lists a
    window twice: when window 3 is a child of 1 and of 2, and 2 a child of 1, the
    order is 1, 2, 3, 3. *)
Theorem constrained_duplicates :
  constrainedStackingOrder plain_env 3
    (mkSpace diamond_heap [1; 2; 3]%nat [] false 0 false None None [] FocusChain.initial [])
  = Some [1; 2; 3; 3]%nat.
Proof. by vm_compute. Qed.

End StackingProps.
