(* ===== verification/Bytes.v ===== *)
(** * Byte strings

    The string operations of QByteArray and QString that the program uses, on
    [string]: searching, splitting, conversion of numbers, and the regular
    expressions of QRegularExpression that occur in the sources, matched leftmost
    and greedily as in Perl. *)

From Stdlib Require Import Ascii.
From S2P Require Import Prelude.

Module Bytes.

(** ** Characters *)

Definition code (c : ascii) : Z := Z.of_N (Ascii.N_of_ascii c).

Definition is_digit (c : ascii) : bool := (48 <=? code c) && (code c <=? 57).
Definition is_upper (c : ascii) : bool := (65 <=? code c) && (code c <=? 90).
Definition is_lower (c : ascii) : bool := (97 <=? code c) && (code c <=? 122).
Definition is_space (c : ascii) : bool := (code c =? 32) || ((9 <=? code c) && (code c <=? 13)).
(** The word characters of a regular expression. *)
Definition is_word (c : ascii) : bool := is_digit c || is_upper c || is_lower c || (code c =? 95).

(** The value of a digit in bases up to 16. *)
Definition digit_value (c : ascii) : option Z :=
  if is_digit c then Some (code c - 48)
  else if (65 <=? code c) && (code c <=? 70) then Some (code c - 55)
  else if (97 <=? code c) && (code c <=? 102) then Some (code c - 87)
  else None.

Definition digit_char (d : Z) : ascii := Ascii.ascii_of_N (Z.to_N (d + 48)).

(** ** Searching and splitting *)

(** [contains sub]: the string has the substring. *)
Fixpoint str_contains (s sub : string) : bool :=
  String.prefix sub s ||
  match s with EmptyString => false | String _ s' => str_contains s' sub end.

Definition startsWith (s p : string) : bool := String.prefix p s.

(** [mid(1, -1)]: everything but the first character. *)
Definition mid1 (s : string) : string := match s with EmptyString => "" | String _ s' => s' end.

Fixpoint drop_chars (n : nat) (s : string) : string :=
  match n with O => s | S n' => drop_chars n' (mid1 s) end.

(** [rightRef(n)]: the last [n] characters, the whole string if it is shorter. *)
Definition right_chars (n : nat) (s : string) : string := drop_chars (String.length s - n) s.

Fixpoint skip_while (p : ascii -> bool) (s : string) : string :=
  match s with
  | EmptyString => ""
  | String c s' => if p c then skip_while p s' else s
  end.

Fixpoint take_while (p : ascii -> bool) (s : string) : string :=
  match s with
  | EmptyString => ""
  | String c s' => if p c then String c (take_while p s') else ""
  end.

(** [split(sep)]: the parts between the separators, empty ones included. *)
Fixpoint split (sep : ascii) (s : string) : list string :=
  match s with
  | EmptyString => [""]
  | String c s' =>
      if Ascii.eqb c sep then "" :: split sep s'
      else match split sep s' with
           | [] => [String c ""]
           | t :: ts => String c t :: ts
           end
  end.

(** [trimmed()]. *)
Fixpoint trim_end (s : string) : string :=
  match s with
  | EmptyString => ""
  | String c s' =>
      match trim_end s' with
      | EmptyString => if is_space c then "" else String c ""
      | t => String c t
      end
  end.
Definition trimmed (s : string) : string := trim_end (skip_while is_space s).

(** ** Numbers *)

Fixpoint parse_digits (base acc : Z) (s : string) : option Z :=
  match s with
  | EmptyString => Some acc
  | String c s' =>
      d ← digit_value c;
      if d <? base then parse_digits base (acc * base + d) s' else None
  end.

Definition parse_number (base : Z) (s : string) : option Z :=
  match s with EmptyString => None | _ => parse_digits base 0 s end.

(** A leading [0x] of a hexadecimal number. *)
Definition strip_base (base : Z) (s : string) : string :=
  if (base =? 16) && (startsWith s "0x" || startsWith s "0X") then drop_chars 2 s else s.

(** [toInt(&ok, base)]: white space around the number is ignored, a sign is
    allowed, and the value has to fit an int. *)
Definition to_int_ok (base : Z) (s : string) : option Z :=
  z ← match trimmed s with
      | String "-" s' => Z.opp <$> parse_number base (strip_base base s')
      | String "+" s' => parse_number base (strip_base base s')
      | s' => parse_number base (strip_base base s')
      end;
  if (- 2 ^ 31 <=? z) && (z <=? INT_MAX) then Some z else None.

(** [toInt()]: 0 when the conversion fails. *)
Definition to_int (s : string) : Z := default 0 (to_int_ok 10 s).

(** [QByteArray::number] of a number that is not negative. *)
Fixpoint dec (fuel : nat) (n : Z) : string :=
  match fuel with
  | O => String (digit_char n) ""
  | S f => if n <? 10 then String (digit_char n) ""
           else dec f (n / 10) +:+ String (digit_char (n mod 10)) ""
  end.

(** Twenty digits are enough for a 64 bit number. *)
Definition number (n : Z) : string :=
  if n <? 0 then String "-" (dec 20 (- n)) else dec 20 n.

(** ** Regular expressions *)

Inductive regex :=
  | RClass (p : ascii -> bool)
  | RStr (s : string)
  | RSeq (r1 r2 : regex)
  | RAlt (r1 r2 : regex)
  | RRep (lo hi : nat) (r : regex)
  | RWordB.

Definition word_at (o : option ascii) : bool := match o with Some c => is_word c | None => false end.
Definition first_char (s : string) : option ascii :=
  match s with EmptyString => None | String c _ => Some c end.
Fixpoint last_char (prev : option ascii) (s : string) : option ascii :=
  match s with EmptyString => prev | String c s' => last_char (Some c) s' end.

(** The ways the expression matches at the start of [s], the preferred one first:
    the matched text, the character before the rest, the rest. *)
Definition alternatives : Type := list (string * option ascii * string).

Definition join (m : alternatives) (k : option ascii -> string -> alternatives) : alternatives :=
  concat ((fun '(t, prev, rest) =>
    (fun '(t', prev', rest') => (t +:+ t', prev', rest')) <$> k prev rest) <$> m).

Fixpoint repeat_match (f : option ascii -> string -> alternatives) (lo hi : nat)
    (prev : option ascii) (s : string) : alternatives :=
  match hi with
  | O => [("", prev, s)]
  | S hi' =>
      join (f prev s) (repeat_match f (lo - 1) hi') ++
      (if (lo =? 0)%nat then [("", prev, s)] else [])
  end.

Fixpoint match_at (r : regex) (prev : option ascii) (s : string) : alternatives :=
  match r with
  | RClass p =>
      match s with
      | String c s' => if p c then [(String c "", Some c, s')] else []
      | EmptyString => []
      end
  | RStr t =>
      if String.prefix t s then [(t, last_char prev t, drop_chars (String.length t) s)] else []
  | RSeq r1 r2 => join (match_at r1 prev s) (match_at r2)
  | RAlt r1 r2 => match_at r1 prev s ++ match_at r2 prev s
  | RRep lo hi r' => repeat_match (match_at r') lo hi prev s
  | RWordB => if xorb (word_at prev) (word_at (first_char s)) then [("", prev, s)] else []
  end.

(** The leftmost match, empty without one. *)
Fixpoint search (r : regex) (prev : option ascii) (s : string) : string :=
  match match_at r prev s with
  | (t, _, _) :: _ => t
  | [] => match s with EmptyString => "" | String c s' => search r (Some c) s' end
  end.

(** ** Facts *)

Lemma digit_char_value d : 0 <= d < 10 -> digit_value (digit_char d) = Some d.
Proof.
  intros Hd. assert (d = 0 \/ d = 1 \/ d = 2 \/ d = 3 \/ d = 4 \/ d = 5 \/ d = 6 \/ d = 7 \/
    d = 8 \/ d = 9) as H by lia.
  by destruct H as [->|[->|[->|[->|[->|[->|[->|[->|[->| ->]]]]]]]]].
Qed.

Lemma digit_char_digit d : 0 <= d < 10 -> is_digit (digit_char d) = true.
Proof.
  intros Hd. assert (d = 0 \/ d = 1 \/ d = 2 \/ d = 3 \/ d = 4 \/ d = 5 \/ d = 6 \/ d = 7 \/
    d = 8 \/ d = 9) as H by lia.
  by destruct H as [->|[->|[->|[->|[->|[->|[->|[->|[->| ->]]]]]]]]].
Qed.

Fixpoint all_chars (p : ascii -> bool) (s : string) : bool :=
  match s with EmptyString => true | String c s' => p c && all_chars p s' end.

Lemma all_chars_app p s t : all_chars p (s +:+ t) = all_chars p s && all_chars p t.
Proof. induction s as [|c s IH]; [done|]. simpl. by rewrite IH, andb_assoc. Qed.

Lemma parse_digits_app s t acc :
  parse_digits 10 acc (s +:+ t) = (x ← parse_digits 10 acc s; parse_digits 10 x t).
Proof.
  revert acc. induction s as [|c s IH]; intros acc; [done|]. simpl.
  destruct (digit_value c) as [d|]; [|done]. simpl. destruct (d <? 10); [apply IH|done].
Qed.

Lemma dec_spec f n :
  0 <= n < 10 ^ (Z.of_nat f + 1) ->
  parse_digits 10 0 (dec f n) = Some n /\ all_chars is_digit (dec f n) = true /\ dec f n <> "".
Proof.
  revert n. induction f as [|f IH]; intros n Hn.
  - simpl. rewrite digit_char_value, digit_char_digit by lia. simpl.
    rewrite (proj2 (Z.ltb_lt n 10)) by lia. done.
  - cbn [dec]. destruct (Z.ltb_spec n 10).
    + simpl. rewrite digit_char_value, digit_char_digit by lia. simpl.
      by rewrite (proj2 (Z.ltb_lt n 10)) by lia.
    + destruct (IH (n / 10)) as (Hp & Ha & Hne).
      { split; [apply Z.div_pos; lia|]. apply Z.div_lt_upper_bound; [lia|].
        replace (Z.of_nat (S f) + 1) with (Z.succ (Z.of_nat f + 1)) in Hn by lia.
        rewrite Z.pow_succ_r in Hn by lia. lia. }
      pose proof (Z.mod_pos_bound n 10).
      rewrite parse_digits_app, Hp, all_chars_app, Ha. simpl.
      rewrite digit_char_value, digit_char_digit by lia. simpl.
      rewrite (proj2 (Z.ltb_lt (n mod 10) 10)) by lia. split; [|split; [done|]].
      * f_equal. pose proof (Z.div_mod n 10). lia.
      * by destruct (dec f (n / 10)).
Qed.

Lemma digits_trimmed s : all_chars is_digit s = true -> trimmed s = s.
Proof.
  intros Hs. unfold trimmed.
  assert (skip_while is_space s = s) as ->.
  { destruct s as [|c s]; [done|]. simpl in *. apply andb_true_iff in Hs as [Hc _].
    assert (is_space c = false) as ->; [|done].
    unfold is_digit, is_space in *. zify_bools. lia. }
  induction s as [|c s IH]; [done|]. simpl in *. apply andb_true_iff in Hs as [Hc Hs].
  rewrite IH by done. destruct s; [|done].
  assert (is_space c = false) as ->; [|done].
  unfold is_digit, is_space in *. zify_bools. lia.
Qed.

(** Reading a printed number gives the number. *)
Lemma to_int_dec n : 0 <= n < 2 ^ 31 -> to_int (dec 20 n) = n.
Proof.
  intros Hn. destruct (dec_spec 20 n) as (Hp & Ha & Hne); [lia|].
  unfold to_int, to_int_ok. rewrite digits_trimmed by done.
  assert (exists c s, dec 20 n = String c s /\ is_digit c = true) as (c & s & Heq & Hc).
  { destruct (dec 20 n) as [|c s]; [done|]. exists c, s. split; [done|].
    simpl in Ha. by apply andb_true_iff in Ha as [? _]. }
  rewrite Heq in *.
  assert (parse_number 10 (strip_base 10 (String c s)) = Some n) as Hpn by done.
  assert (match String c s with
      | String "-" s' => Z.opp <$> parse_number 10 (strip_base 10 s')
      | String "+" s' => parse_number 10 (strip_base 10 s')
      | s' => parse_number 10 (strip_base 10 s')
      end = Some n) as ->.
  { rewrite <- Hpn. by destruct c as [[] [] [] [] [] [] [] []]. }
  simpl. unfold INT_MAX.
  by rewrite (proj2 (Z.leb_le _ _)), (proj2 (Z.leb_le _ _)) by lia.
Qed.

Lemma split_no_sep sep s : all_chars (fun c => negb (Ascii.eqb c sep)) s = true -> split sep s = [s].
Proof.
  induction s as [|c s IH]; [done|]. simpl. rewrite andb_true_iff, negb_true_iff.
  intros [-> Hs]. by rewrite IH.
Qed.

Lemma split_app sep s t :
  all_chars (fun c => negb (Ascii.eqb c sep)) s = true ->
  split sep (s +:+ String sep t) = s :: split sep t.
Proof.
  induction s as [|c s IH]; simpl; [by rewrite Ascii.eqb_refl|].
  rewrite andb_true_iff, negb_true_iff. intros [-> Hs]. by rewrite IH.
Qed.

Lemma take_while_all p s : all_chars p s = true -> take_while p s = s.
Proof.
  induction s as [|c s IH]; [done|]. simpl. rewrite andb_true_iff. intros [-> Hs]. by rewrite IH.
Qed.

Lemma all_chars_impl (p q : ascii -> bool) s :
  (forall c, p c = true -> q c = true) -> all_chars p s = true -> all_chars q s = true.
Proof.
  intros Hpq. induction s as [|c s IH]; [done|]. simpl. rewrite !andb_true_iff.
  intros [? ?]. auto.
Qed.

Lemma string_app_cons c (s t : string) : String c s +:+ t = String c (s +:+ t).
Proof. done. Qed.

Lemma skip_while_app p s t :
  all_chars p s = true -> skip_while p (s +:+ t) = skip_while p t.
Proof.
  induction s as [|c s IH]; [done|]. rewrite string_app_cons. simpl.
  rewrite andb_true_iff. intros [-> Hs]. auto.
Qed.

Lemma take_while_app p s t :
  all_chars p s = true -> take_while p t = "" -> take_while p (s +:+ t) = s.
Proof.
  induction s as [|c s IH]; [done|]. rewrite string_app_cons. simpl.
  rewrite andb_true_iff. intros [-> Hs] Ht. by rewrite IH.
Qed.

Lemma string_app_assoc (s t u : string) : (s +:+ t) +:+ u = s +:+ (t +:+ u).
Proof. induction s as [|c s IH]; [done|]. exact (f_equal (String c) IH). Qed.

Lemma string_app_nil (s : string) : s +:+ "" = s.
Proof. induction s as [|c s IH]; [done|]. exact (f_equal (String c) IH). Qed.

Lemma last_split_app sep s t : last (split sep (s +:+ String sep t)) = last (split sep t).
Proof.
  assert (forall u, exists x xs, split sep u = x :: xs) as Hcons.
  { intros u. induction u as [|c u (x & xs & IH)]; simpl; [eauto|].
    destruct (Ascii.eqb c sep); [eauto|]. rewrite IH. eauto. }
  induction s as [|c s IH]; rewrite ?string_app_cons; simpl.
  - change ("" +:+ String sep t) with (String sep t). simpl. rewrite Ascii.eqb_refl.
    by destruct (Hcons t) as (x & xs & ->).
  - destruct (Ascii.eqb c sep).
    + destruct (Hcons (s +:+ String sep t)) as (x & xs & E). rewrite <- IH. by rewrite E.
    + rewrite <- IH. destruct (Hcons (s +:+ String sep t)) as (x & xs & E).
      assert (xs <> []) as Hxs; [|rewrite E; by destruct xs].
      clear IH. intros ->. revert x E. induction s as [|d s IHs]; intros x.
      * change ("" +:+ String sep t) with (String sep t). simpl. rewrite Ascii.eqb_refl.
        destruct (Hcons t) as (y & ys & ->). done.
      * rewrite string_app_cons. simpl. destruct (Hcons (s +:+ String sep t)) as (y & ys & E).
        rewrite E. destruct (Ascii.eqb d sep); [done|]. intros [= _ ->]. by eapply IHs.
Qed.

End Bytes.
