(* ===== verification/GLPlatform.v ===== *)
(** * OpenGL platform detection (src/libkwineffects/kwinglplatform.h, kwinglplatform.cpp)

    Version numbers, the classification of graphics chips from renderer strings,
    and [GLPlatform::detect], which derives the driver, the chip class and the
    features. What the OpenGL, X11 and system calls return is the record [GL].
    [None] is an out-of-range access of a list of tokens. *)

From Stdlib Require Import Ascii.
From S2P Require Import Prelude Bytes.

Module GLPlatform.
Import Bytes.

(** ** Enumerations *)

Inductive Driver :=
  | Driver_R100 | Driver_R200 | Driver_R300C | Driver_R300G | Driver_R600C | Driver_R600G
  | Driver_Nouveau | Driver_Intel | Driver_NVidia | Driver_Catalyst | Driver_Swrast
  | Driver_Softpipe | Driver_Llvmpipe | Driver_VirtualBox | Driver_VMware | Driver_Qualcomm
  | Driver_RadeonSI | Driver_Virgl | Driver_Panfrost | Driver_Unknown.
#[global] Instance Driver_eq_dec : EqDecision Driver.
Proof. solve_decision. Defined.

Definition driver_value (d : Driver) : Z :=
  match d with
  | Driver_R100 => 0 | Driver_R200 => 1 | Driver_R300C => 2 | Driver_R300G => 3
  | Driver_R600C => 4 | Driver_R600G => 5 | Driver_Nouveau => 6 | Driver_Intel => 7
  | Driver_NVidia => 8 | Driver_Catalyst => 9 | Driver_Swrast => 10 | Driver_Softpipe => 11
  | Driver_Llvmpipe => 12 | Driver_VirtualBox => 13 | Driver_VMware => 14
  | Driver_Qualcomm => 15 | Driver_RadeonSI => 16 | Driver_Virgl => 17
  | Driver_Panfrost => 18 | Driver_Unknown => 19
  end.

Inductive ChipClass :=
  | R100 | R200 | R300 | R400 | R500 | R600 | R700 | Evergreen | NorthernIslands
  | SouthernIslands | SeaIslands | VolcanicIslands | ArcticIslands | Vega | Navi | UnknownRadeon
  | NV10 | NV20 | NV30 | NV40 | G80 | GF100 | UnknownNVidia
  | I8XX | I915 | I965 | SandyBridge | IvyBridge | Haswell | BayTrail | Cherryview | Broadwell
  | ApolloLake | Skylake | GeminiLake | KabyLake | CoffeeLake | WhiskeyLake | CometLake
  | CannonLake | IceLake | TigerLake | UnknownIntel
  | Adreno1XX | Adreno2XX | Adreno3XX | Adreno4XX | Adreno5XX | UnknownAdreno
  | MaliT7XX | MaliT8XX | MaliGXX | UnknownPanfrost
  | UnknownChipClass.
#[global] Instance ChipClass_eq_dec : EqDecision ChipClass.
Proof. solve_decision. Defined.

Definition chip_value (c : ChipClass) : Z :=
  match c with
  | R100 => 0 | R200 => 1 | R300 => 2 | R400 => 3 | R500 => 4 | R600 => 5 | R700 => 6
  | Evergreen => 7 | NorthernIslands => 8 | SouthernIslands => 9 | SeaIslands => 10
  | VolcanicIslands => 11 | ArcticIslands => 12 | Vega => 13 | Navi => 14 | UnknownRadeon => 999
  | NV10 => 1000 | NV20 => 1001 | NV30 => 1002 | NV40 => 1003 | G80 => 1004 | GF100 => 1005
  | UnknownNVidia => 1999
  | I8XX => 2000 | I915 => 2001 | I965 => 2002 | SandyBridge => 2003 | IvyBridge => 2004
  | Haswell => 2005 | BayTrail => 2006 | Cherryview => 2007 | Broadwell => 2008
  | ApolloLake => 2009 | Skylake => 2010 | GeminiLake => 2011 | KabyLake => 2012
  | CoffeeLake => 2013 | WhiskeyLake => 2014 | CometLake => 2015 | CannonLake => 2016
  | IceLake => 2017 | TigerLake => 2018 | UnknownIntel => 2999
  | Adreno1XX => 3000 | Adreno2XX => 3001 | Adreno3XX => 3002 | Adreno4XX => 3003
  | Adreno5XX => 3004 | UnknownAdreno => 3999
  | MaliT7XX => 4000 | MaliT8XX => 4001 | MaliGXX => 4002 | UnknownPanfrost => 4999
  | UnknownChipClass => 99999
  end.

Inductive CompositingType :=
  | NoCompositing | OpenGLCompositing | XRenderCompositing | QPainterCompositing | OpenGL2Compositing.
#[global] Instance CompositingType_eq_dec : EqDecision CompositingType.
Proof. solve_decision. Defined.

Inductive OpenGLPlatformInterface :=
  NoOpenGLPlatformInterface | GlxPlatformInterface | EglPlatformInterface.
#[global] Instance PlatformInterface_eq_dec : EqDecision OpenGLPlatformInterface.
Proof. solve_decision. Defined.

Inductive GLFeature := LooseBinding | GLSL | LimitedGLSL | TextureNPOT | LimitedNPOT.

(** ** Version numbers *)

Definition kVersionNumber (major minor patch : Z) : Z :=
  Z.lor (Z.lor (Z.shiftl (Z.land major 65535) 32) (Z.shiftl (Z.land minor 65535) 16))
    (Z.land patch 65535).

Definition parseVersionString (version : string) : Z :=
  let s := skip_while (fun c => negb (is_digit c)) version in
  let result := take_while (fun c => Ascii.eqb c "." || is_digit c) s in
  let tokens := split "." result in
  let at_ i := match tokens !! i with Some t => to_int t | None => 0 end in
  kVersionNumber (at_ 0%nat) (at_ 1%nat) (at_ 2%nat).

(** What the system reports: the vendor and release number of the X server, and
    uname. *)
Definition getXServerVersion (setup : option (string * Z)) : Z :=
  match setup with
  | Some (vendorName, release) =>
      if str_contains vendorName "X.Org"
      then kVersionNumber (cdiv release 10000000) (Z.rem (cdiv release 100000) 100)
             (Z.rem (cdiv release 1000) 100)
      else kVersionNumber 0 0 0
  | None => kVersionNumber 0 0 0
  end.

Definition getKernelVersion (sysname release : string) : Z :=
  if String.eqb sysname "Linux" then parseVersionString release else 0.

Definition versionToString8 (version : Z) : string :=
  let major := i32 (Z.shiftr version 32) in
  let minor := Z.land (Z.shiftr version 16) 65535 in
  let patch := Z.land version 65535 in
  let s := number major +:+ "." +:+ number minor in
  if patch =? 0 then s else s +:+ "." +:+ number patch.

(** ** Chip classes *)

Definition contains_any (s : string) (names : list string) : bool :=
  existsb (str_contains s) names.

Definition digits (lo hi : nat) : regex := RRep lo hi (RClass is_digit).

(** extract(): the matched text, empty without a match. *)
Definition extract (text : string) (pattern : regex) : string := search pattern None text.

(** The chip names tested for in detectRadeonClass, in order. *)
Definition radeon_chips : list (list string * ChipClass) :=
  [ (["R100"; "RV100"; "RS100"], R100);
    (["RV200"; "RS200"; "R200"; "RV250"; "RS300"; "RV280"], R200);
    (["R300"; "R350"; "R360"; "RV350"; "RV370"; "RV380"], R300);
    (["R420"; "R423"; "R430"; "R480"; "R481"; "RV410"; "RS400"; "RC410"; "RS480"; "RS482";
      "RS600"; "RS690"; "RS740"], R400);
    (["RV515"; "R520"; "RV530"; "R580"; "RV560"; "RV570"], R500);
    (["R600"; "RV610"; "RV630"; "RV670"; "RV620"; "RV635"; "RS780"; "RS880"], R600);
    (["R700"; "RV770"; "RV730"; "RV710"; "RV740"], R700);
    (["EVERGREEN"; "CEDAR"; "REDWOOD"; "JUNIPER"; "CYPRESS"; "HEMLOCK"; "PALM"], Evergreen);
    (["SUMO"; "SUMO2"; "BARTS"; "TURKS"; "CAICOS"; "CAYMAN"], NorthernIslands);
    (["TAHITI"; "PITCAIRN"; "VERDE"; "OLAND"; "HAINAN"], SouthernIslands);
    (["BONAIRE"; "KAVERI"; "KABINI"; "HAWAII"; "MULLINS"], SeaIslands);
    (["TONGA"; "TOPAZ"; "FIJI"; "CARRIZO"; "STONEY"], VolcanicIslands);
    (["POLARIS10"; "POLARIS11"; "POLARIS12"; "VEGAM"], ArcticIslands);
    (["VEGA10"; "VEGA12"; "VEGA20"; "RAVEN"; "RAVEN2"; "RENOIR"; "ARCTURUS"], Vega);
    (["NAVI10"; "NAVI12"; "NAVI14"], Navi) ].

(** The first row with a name that the chipset contains. *)
Definition find_chip (rows : list (list string * ChipClass)) (chipset : string) : option ChipClass :=
  (fun r => snd (snd r)) <$> list_find (fun r => contains_any chipset (fst r) = true) rows.

(** "HD [0-9]{4}". *)
Definition radeon_hd (id : Z) : ChipClass :=
  if (id =? 6250) || (id =? 6310) then Evergreen
  else if (6000 <=? id) && (id <? 7000) then NorthernIslands
  else if (5000 <=? id) && (id <? 6000) then Evergreen
  else if (4000 <=? id) && (id <? 5000) then R700
  else if (2000 <=? id) && (id <? 4000) then R600
  else UnknownRadeon.

(** "X[0-9]{3,4}". *)
Definition radeon_x (id : Z) : ChipClass :=
  if 1300 <=? id then R500
  else if (700 <=? id) && (id <? 1000) || (1200 <=? id) then R400
  else if (300 <=? id) && (id <? 700) || (1000 <=? id) && (id <? 1200) then R300
  else UnknownRadeon.

(** A group of four digits. *)
Definition radeon_digits (id : Z) : ChipClass :=
  if (7000 <=? id) && (id <? 8000) then R100
  else if (8000 <=? id) && (id <? 9500) then R200
  else if 9500 <=? id then R300
  else if id =? 2100 then R400
  else UnknownRadeon.

Definition detectRadeonClass (chipset : string) : ChipClass :=
  if String.eqb chipset "" then UnknownRadeon
  else
    match find_chip radeon_chips chipset with
    | Some c => c
    | None =>
        let name := extract chipset (RSeq (RStr "HD ") (digits 4 4)) in
        if negb (String.eqb name "") then radeon_hd (to_int (right_chars 4 name))
        else
          let name := extract chipset (RSeq (RStr "X") (digits 3 4)) in
          if negb (String.eqb name "") then radeon_x (to_int (mid1 name))
          else
            let name := extract chipset (RSeq RWordB (RSeq (digits 4 4) RWordB)) in
            if negb (String.eqb name "") then radeon_digits (to_int name)
            else UnknownRadeon
    end.

(** The character class [0-9,A-F]. *)
Definition nv_class (c : ascii) : bool :=
  is_digit c || Ascii.eqb c "," || ((65 <=? code c) && (code c <=? 70)).

(** The switch on the high digit of an NV number. *)
Definition nvidia_nv (id : Z) : ChipClass :=
  let k := Z.land id 240 in
  if (k =? 0) || (k =? 16) then NV10
  else if k =? 32 then NV20
  else if k =? 48 then NV30
  else if (k =? 64) || (k =? 96) then NV40
  else if (k =? 80) || (k =? 128) || (k =? 144) || (k =? 160) then G80
  else UnknownNVidia.

Definition geforce (series : list string) (n : nat) : regex :=
  RSeq (RStr "GeForce ")
    (RSeq (RRep 0 1 (foldr (fun t r => RAlt (RStr t) r) (RClass (fun _ => false)) series))
       (RSeq (digits n n) (RAlt (RStr "M") RWordB))).

(** [trimmed()], and the removal of a last character that is not a digit. *)
Definition chop_non_digit (name : string) : string :=
  match last_char None name with
  | Some c => if is_digit c then name else String.substring 0 (String.length name - 1) name
  | None => name
  end.

Definition detectNVidiaClass (chipset : string) : ChipClass :=
  if negb (String.eqb
       (extract chipset (RSeq RWordB (RSeq (RStr "NV") (RSeq (RRep 2 2 (RClass nv_class)) RWordB)))) "")
  then nvidia_nv (default 0 (to_int_ok 16 (drop_chars 2 chipset)))
  else if contains_any chipset ["GeForce2"; "GeForce 256"] then NV10
  else if str_contains chipset "GeForce3" then NV20
  else if str_contains chipset "GeForce4" then
    if contains_any chipset ["MX 420"; "MX 440"; "MX 460"; "MX 4000"; "PCX 4300"] then NV10 else NV20
  else
    let name := trimmed (extract chipset (geforce ["FX "; "PCX "; "Go "] 4)) in
    if negb (String.eqb name "") then
      let id := to_int (right_chars 4 (chop_non_digit name)) in
      if id <? 6000 then NV30
      else if (6000 <=? id) && (id <? 8000) then NV40
      else if 8000 <=? id then G80
      else UnknownNVidia
    else
      let name := trimmed (extract chipset (geforce ["G "; "GT "; "GTX "; "GTS "] 3)) in
      if negb (String.eqb name "") then
        let id := to_int (right_chars 3 (chop_non_digit name)) in
        if (100 <=? id) && (id <? 600) then (if 400 <=? id then GF100 else G80)
        else UnknownNVidia
      else UnknownNVidia.

Definition intel_chips : list (list string * ChipClass) :=
  [ (["845G"; "830M"; "852GM/855GM"; "865G"], I8XX);
    (["915G"; "E7221G"; "915GM"; "945G"; "945GM"; "945GME"; "Q33"; "Q35"; "G33"; "965Q"; "946GZ";
      "IGD"], I915);
    (["965G"; "G45/G43"; "965GM"; "965GME/GLE"; "GM45"; "Q45/Q43"; "G41"; "B43"; "Ironlake"], I965);
    (["Sandybridge"; "SNB GT"], SandyBridge);
    (["Ivybridge"; "IVB GT"], IvyBridge);
    (["Haswell"; "HSW GT"], Haswell);
    (["BYT"], BayTrail);
    (["CHV"; "BSW"], Cherryview);
    (["BDW GT"], Broadwell);
    (["SKL GT"], Skylake);
    (["APL"], ApolloLake);
    (["KBL GT"], KabyLake);
    (["WHL GT"], WhiskeyLake);
    (["CML GT"], CometLake);
    (["CNL GT"], CannonLake);
    (["CFL GT"], CoffeeLake);
    (["ICL GT"], IceLake);
    (["TGL GT"], TigerLake) ].

Definition detectIntelClass (chipset : string) : ChipClass :=
  default UnknownIntel (find_chip intel_chips chipset).

Definition detectQualcommClass (chipClass : string) : ChipClass :=
  if negb (str_contains chipClass "Adreno") then UnknownChipClass
  else
    match split " " chipClass !! 2%nat with
    | None => UnknownAdreno
    | Some part =>
        match to_int_ok 10 part with
        | None => UnknownAdreno
        | Some value =>
            if (100 <=? value) && (value <? 200) then Adreno1XX
            else if (200 <=? value) && (value <? 300) then Adreno2XX
            else if (300 <=? value) && (value <? 400) then Adreno3XX
            else if (400 <=? value) && (value <? 500) then Adreno4XX
            else if (500 <=? value) && (value <? 600) then Adreno5XX
            else UnknownAdreno
        end
    end.

Definition panfrost_chips : list (list string * ChipClass) :=
  [ (["T720"; "T760"], MaliT7XX); (["T820"; "T860"], MaliT8XX); (["G31"; "G52"; "G72"], MaliGXX) ].

Definition detectPanfrostClass (chipClass : string) : ChipClass :=
  default UnknownPanfrost (find_chip panfrost_chips chipClass).

(** ** Names *)

Definition driverToString8 (driver : Driver) : string :=
  match driver with
  | Driver_R100 => "Radeon" | Driver_R200 => "R200" | Driver_R300C => "R300C"
  | Driver_R300G => "R300G" | Driver_R600C => "R600C" | Driver_R600G => "R600G"
  | Driver_RadeonSI => "RadeonSI" | Driver_Nouveau => "Nouveau" | Driver_Intel => "Intel"
  | Driver_NVidia => "NVIDIA" | Driver_Catalyst => "Catalyst"
  | Driver_Swrast => "Software rasterizer" | Driver_Softpipe => "softpipe"
  | Driver_Llvmpipe => "LLVMpipe" | Driver_VirtualBox => "VirtualBox (Chromium)"
  | Driver_VMware => "VMware (SVGA3D)" | Driver_Qualcomm => "Qualcomm"
  | Driver_Virgl => "Virgl (virtio-gpu, Qemu/KVM guest)" | Driver_Panfrost => "Panfrost"
  | Driver_Unknown => "Unknown"
  end.

Definition chipClassToString8 (chipClass : ChipClass) : string :=
  match chipClass with
  | R100 => "R100" | R200 => "R200" | R300 => "R300" | R400 => "R400" | R500 => "R500"
  | R600 => "R600" | R700 => "R700" | Evergreen => "EVERGREEN"
  | NorthernIslands => "Northern Islands" | SouthernIslands => "Southern Islands"
  | SeaIslands => "Sea Islands" | VolcanicIslands => "Volcanic Islands"
  | ArcticIslands => "Arctic Islands" | Vega => "Vega" | Navi => "Navi"
  | NV10 => "NV10" | NV20 => "NV20" | NV30 => "NV30" | NV40 => "NV40/G70" | G80 => "G80/G90"
  | GF100 => "GF100"
  | I8XX => "i830/i835" | I915 => "i915/i945" | I965 => "i965" | SandyBridge => "SandyBridge"
  | IvyBridge => "IvyBridge" | Haswell => "Haswell" | BayTrail => "Bay Trail"
  | Cherryview => "Cherryview" | Broadwell => "Broadwell" | ApolloLake => "Apollo Lake"
  | Skylake => "Skylake" | GeminiLake => "Gemini Lake" | KabyLake => "Kaby Lake"
  | CoffeeLake => "Coffee Lake" | WhiskeyLake => "Whiskey Lake" | CometLake => "Comet Lake"
  | CannonLake => "Cannon Lake" | IceLake => "Ice Lake" | TigerLake => "Tiger Lake"
  | Adreno1XX => "Adreno 1xx series" | Adreno2XX => "Adreno 2xx series"
  | Adreno3XX => "Adreno 3xx series" | Adreno4XX => "Adreno 4xx series"
  | Adreno5XX => "Adreno 5xx series"
  | MaliT7XX => "Mali T7xx series" | MaliT8XX => "Mali T8xx series" | MaliGXX => "Mali Gxx series"
  | UnknownRadeon | UnknownNVidia | UnknownIntel | UnknownAdreno | UnknownPanfrost
  | UnknownChipClass => "Unknown"
  end.

(** ** The platform *)

(** The strings and lists the OpenGL implementation, the X server and the kernel
    report. *)
Record GL := mkGL {
  gl_vendor : string;
  gl_renderer : string;
  gl_version : string;
  gl_shading_language_version : string;
  gl_extension_list : list string;
  gl_extensions : string;
  xserver : option (string * Z);
  sysname : string;
  release : string;
}.

Record Platform := mkPlatform {
  m_vendor : string;
  m_renderer : string;
  m_version : string;
  m_glsl_version : string;
  m_extensions : list string;
  m_chipset : string;
  m_driver : Driver;
  m_chipClass : ChipClass;
  m_recommendedCompositor : CompositingType;
  m_glVersion : Z;
  m_glslVersion : Z;
  m_mesaVersion : Z;
  m_driverVersion : Z;
  m_galliumVersion : Z;
  m_serverVersion : Z;
  m_kernelVersion : Z;
  m_looseBinding : bool;
  m_supportsGLSL : bool;
  m_limitedGLSL : bool;
  m_textureNPOT : bool;
  m_limitedNPOT : bool;
  m_virtualMachine : bool;
  m_preferBufferSubData : bool;
  m_platformInterface : OpenGLPlatformInterface;
  m_gles : bool;
}.
#[global] Instance Platform_eta : RecordEta Platform := fun p =>
  mkPlatform (m_vendor p) (m_renderer p) (m_version p) (m_glsl_version p) (m_extensions p)
    (m_chipset p) (m_driver p) (m_chipClass p)
    (m_recommendedCompositor p) (m_glVersion p) (m_glslVersion p) (m_mesaVersion p)
    (m_driverVersion p) (m_galliumVersion p) (m_serverVersion p) (m_kernelVersion p)
    (m_looseBinding p) (m_supportsGLSL p) (m_limitedGLSL p) (m_textureNPOT p)
    (m_limitedNPOT p) (m_virtualMachine p) (m_preferBufferSubData p) (m_platformInterface p)
    (m_gles p).

(** The constructor. *)
Definition initial : Platform :=
  mkPlatform "" "" "" "" [] "" Driver_Unknown UnknownChipClass XRenderCompositing 0 0 0 0 0 0 0
    false false false false false false false NoOpenGLPlatformInterface false.

Section Detect.
Implicit Types (p : Platform) (G : GL).

Definition chip_in p (lo hi : ChipClass) : bool :=
  (chip_value lo <=? chip_value (m_chipClass p)) && (chip_value (m_chipClass p) <=? chip_value hi).
Definition isRadeon p : bool := chip_in p R100 UnknownRadeon.
Definition isNvidia p : bool := chip_in p NV10 UnknownNVidia.
Definition isIntel p : bool := chip_in p I8XX UnknownIntel.
Definition isAdreno p : bool := chip_in p Adreno1XX UnknownAdreno.
Definition isPanfrost p : bool := chip_in p MaliT7XX UnknownPanfrost.
Definition is_driver (d : Driver) p : bool := bool_decide (m_driver p = d).
Definition isVirtualBox := is_driver Driver_VirtualBox.
Definition isVMware := is_driver Driver_VMware.
Definition isVirgl := is_driver Driver_Virgl.
Definition isSoftwareEmulation p : bool :=
  is_driver Driver_Softpipe p || is_driver Driver_Swrast p || is_driver Driver_Llvmpipe p.
Definition isMesaDriver p : bool := 0 <? m_mesaVersion p.
Definition isGalliumDriver p : bool := 0 <? m_galliumVersion p.
Definition driverVersion p : Z := if isMesaDriver p then m_mesaVersion p else m_driverVersion p.
Definition below p (c : ChipClass) : bool := chip_value (m_chipClass p) <? chip_value c.

Definition supports (feature : GLFeature) p : bool :=
  match feature with
  | LooseBinding => m_looseBinding p
  | GLSL => m_supportsGLSL p
  | LimitedGLSL => m_limitedGLSL p
  | TextureNPOT => m_textureNPOT p
  | LimitedNPOT => m_limitedNPOT p
  end.

(** *** The first part: versions and extensions *)

Definition detect_version (pi : OpenGLPlatformInterface) G p : Platform :=
  p <| m_platformInterface := pi |>
    <| m_vendor := gl_vendor G |> <| m_renderer := gl_renderer G |> <| m_version := gl_version G |>
    <| m_glVersion := parseVersionString (gl_version G) |>
    <| m_gles := m_gles p || bool_decide (pi = EglPlatformInterface) &&
                             startsWith (gl_version G) "OpenGL ES" |>.

Definition detect_extensions G p : Platform :=
  p <| m_extensions :=
         if negb (m_gles p) && (kVersionNumber 3 0 0 <=? m_glVersion p)
         then m_extensions p ++ gl_extension_list G
         else split " " (gl_extensions G) |>.

Definition detect_mesa G p : option Platform :=
  match index_of "Mesa" (split " " (gl_version G)) with
  | Some mesaIndex =>
      version ← split " " (gl_version G) !! S mesaIndex;
      Some (p <| m_mesaVersion := parseVersionString version |>)
  | None => Some p
  end.

Definition detect_glsl G p : Platform :=
  let has e := Prelude.contains (m_extensions p) e in
  let p1 :=
    if m_gles p then p <| m_supportsGLSL := true |> <| m_textureNPOT := true |>
    else p <| m_supportsGLSL := has "GL_ARB_shader_objects" && has "GL_ARB_fragment_shader" &&
                                has "GL_ARB_vertex_shader" |>
           <| m_textureNPOT := has "GL_ARB_texture_non_power_of_two" |> in
  let p2 :=
    p1 <| m_serverVersion := getXServerVersion (xserver G) |>
       <| m_kernelVersion := getKernelVersion (sysname G) (release G) |>
       <| m_glsl_version := if m_supportsGLSL p1 then gl_shading_language_version G else "" |>
       <| m_glslVersion := if m_supportsGLSL p1
                           then parseVersionString (gl_shading_language_version G) else 0 |> in
  p2 <| m_chipset := "Unknown" |> <| m_preferBufferSubData := false |>.

(** *** The driver and the chip class *)

(** "Mesa DRI R...". *)
Definition detect_mesa_radeon G p : option Platform :=
  let tokens := split " " (gl_renderer G) in
  chipClass ← tokens !! 2%nat;
  chip ← tokens !! 3%nat;
  let chipset := mid1 chip in
  Some (p <| m_chipset := chipset |>
          <| m_driver := if String.eqb chipClass "R100" then Driver_R100
                         else if String.eqb chipClass "R200" then Driver_R200
                         else if String.eqb chipClass "R300" then Driver_R300C
                         else if String.eqb chipClass "R600" then Driver_R600C
                         else m_driver p |>
          <| m_chipClass := detectRadeonClass chipset |>).

Definition detect_intel G p : Platform :=
  let chipset := if startsWith (gl_renderer G) "Intel(R) Integrated Graphics Device"
                 then "IGD" else gl_renderer G in
  p <| m_driver := Driver_Intel |> <| m_chipClass := detectIntelClass chipset |>.

(** The driver version of the proprietary ATI driver. The first character of an
    empty token is not a parenthesis. *)
Definition detect_catalyst G p : option Platform :=
  let tokens := split " " (gl_version G) in
  let p1 := p <| m_chipClass := detectRadeonClass (gl_renderer G) |>
              <| m_driver := Driver_Catalyst |> in
  paren ← (if (1 <? length tokens)%nat
           then t ← tokens !! 2%nat; Some (startsWith t "(")
           else Some false);
  version ← tokens !! (if paren : bool then 1 else 0)%nat;
  Some (p1 <| m_driverVersion := parseVersionString version |>).

(** The version after a token of the version string; without the token, the
    first one. *)
Definition version_after (token : string) G : option Z :=
  let tokens := split " " (gl_version G) in
  version ← tokens !! (match index_of token tokens with Some i => S i | None => O end);
  Some (parseVersionString version).

Definition detect_nvidia G p : option Platform :=
  v ← version_after "NVIDIA" G;
  Some (p <| m_chipClass := detectNVidiaClass (gl_renderer G) |>
          <| m_driver := Driver_NVidia |> <| m_driverVersion := v |>).

Definition detect_virtualbox G p : option Platform :=
  v ← version_after "Chromium" G;
  Some (p <| m_driver := Driver_VirtualBox |> <| m_driverVersion := v |>).

Definition r600g_names : list string :=
  ["R6"; "R7"; "RV6"; "RV7"; "RS780"; "RS880"; "CEDAR"; "REDWOOD"; "JUNIPER"; "CYPRESS";
   "HEMLOCK"; "PALM"; "EVERGREEN"; "SUMO"; "SUMO2"; "BARTS"; "TURKS"; "CAICOS"; "CAYMAN"].

Definition radeonsi_names : list string :=
  ["TAHITI"; "PITCAIRN"; "VERDE"; "OLAND"; "HAINAN"; "BONAIRE"; "KAVERI"; "KABINI"; "HAWAII";
   "MULLINS"; "TOPAZ"; "TONGA"; "FIJI"; "CARRIZO"; "STONEY"; "POLARIS10"; "POLARIS11";
   "POLARIS12"; "VEGAM"; "VEGA10"; "VEGA12"; "VEGA20"; "RAVEN"; "RAVEN2"; "RENOIR";
   "ARCTURUS"; "NAVI10"; "NAVI12"; "NAVI14"].

(** The Gallium version and the chipset named by the renderer string. *)
Definition gallium_chipset G : option (Z * string) :=
  let tokens := split " " (gl_renderer G) in
  if str_contains (gl_renderer G) "Gallium" then
    version ← tokens !! 1%nat;
    t3 ← tokens !! 3%nat;
    chipset ← (if String.eqb t3 "AMD" || String.eqb t3 "ATI" then tokens !! 4%nat else Some t3);
    Some (parseVersionString version, chipset)
  else
    chipset ← tokens !! 0%nat; Some (kVersionNumber 0 4 0, chipset).

Definition gallium_driver G (chipset : string) p : Platform :=
  let vendor := gl_vendor G in let renderer := gl_renderer G in
  if String.eqb vendor "X.Org R300 Project" then
    p <| m_chipClass := detectRadeonClass chipset |> <| m_driver := Driver_R300G |>
  else if String.eqb vendor "X.Org" && contains_any renderer r600g_names then
    p <| m_chipClass := detectRadeonClass chipset |> <| m_driver := Driver_R600G |>
  else if (String.eqb vendor "X.Org" || String.eqb vendor "AMD") &&
          contains_any renderer radeonsi_names then
    p <| m_chipClass := detectRadeonClass renderer |> <| m_driver := Driver_RadeonSI |>
  else if String.eqb vendor "nouveau" then
    p <| m_chipClass := detectNVidiaClass chipset |> <| m_driver := Driver_Nouveau |>
  else if String.eqb chipset "softpipe" then p <| m_driver := Driver_Softpipe |>
  else if String.eqb chipset "llvmpipe" then p <| m_driver := Driver_Llvmpipe |>
  else if String.eqb vendor "VMware, Inc." && str_contains chipset "SVGA3D" then
    p <| m_driver := Driver_VMware |>
  else if String.eqb renderer "virgl" then p <| m_driver := Driver_Virgl |>
  else p.

Definition detect_gallium G p : option Platform :=
  '(version, chipset) ← gallium_chipset G;
  Some (gallium_driver G chipset
          (p <| m_galliumVersion := version |> <| m_chipset := chipset |>)).

Definition detect_driver G p : option Platform :=
  let vendor := gl_vendor G in let renderer := gl_renderer G in
  if startsWith renderer "Mesa DRI R" then detect_mesa_radeon G p
  else if str_contains renderer "Intel" then Some (detect_intel G p)
  else if String.eqb vendor "ATI Technologies Inc." then detect_catalyst G p
  else if String.eqb vendor "NVIDIA Corporation" then detect_nvidia G p
  else if String.eqb vendor "Qualcomm" then
    Some (p <| m_driver := Driver_Qualcomm |> <| m_chipClass := detectQualcommClass renderer |>)
  else if str_contains renderer "Panfrost" then
    Some (p <| m_driver := Driver_Panfrost |> <| m_chipClass := detectPanfrostClass renderer |>)
  else if String.eqb renderer "Software Rasterizer" then Some (p <| m_driver := Driver_Swrast |>)
  else if String.eqb vendor "Humper" && String.eqb renderer "Chromium" then detect_virtualbox G p
  else detect_gallium G p.

(** *** Driver and GPU specific features *)

Definition radeon_features G p : Platform :=
  if negb (isRadeon p) then p
  else
    let p1 := p <| m_supportsGLSL := m_supportsGLSL p && negb (below p R300) |>
                <| m_limitedGLSL := false |> <| m_limitedNPOT := false |> in
    let p2 :=
      if below p R600 then
        let q := if is_driver Driver_Catalyst p1
                 then p1 <| m_limitedNPOT := false |> <| m_textureNPOT := false |>
                 else if is_driver Driver_R300G p1
                 then p1 <| m_limitedNPOT := m_textureNPOT p1 |>
                 else p1 in
        q <| m_limitedGLSL := m_supportsGLSL q |>
      else p1 in
    let p3 := p2 <| m_recommendedCompositor :=
                      if below p R600 then XRenderCompositing else OpenGL2Compositing |> in
    if is_driver Driver_R600G p ||
       is_driver Driver_R600C p && str_contains (gl_renderer G) "DRI2"
    then p3 <| m_looseBinding := true |> else p3.

Definition nvidia_features p : Platform :=
  if negb (isNvidia p) then p
  else
    let proprietary := is_driver Driver_NVidia p in
    let p1 := p <| m_supportsGLSL := m_supportsGLSL p && negb (proprietary && below p NV40) |> in
    let p2 := if proprietary
              then p1 <| m_looseBinding := true |> <| m_preferBufferSubData := true |> else p1 in
    p2 <| m_recommendedCompositor := if below p NV40 then XRenderCompositing else OpenGL2Compositing |>
       <| m_limitedNPOT := m_textureNPOT p && below p NV40 |>
       <| m_limitedGLSL := m_supportsGLSL p1 && below p G80 |>.

Definition intel_features p : Platform :=
  if negb (isIntel p) then p
  else
    let glsl := m_supportsGLSL p && negb (below p I915) in
    p <| m_supportsGLSL := glsl |> <| m_limitedGLSL := glsl && below p I965 |>
      <| m_looseBinding := false |>
      <| m_recommendedCompositor := if below p I915 then XRenderCompositing else OpenGL2Compositing |>.

Definition software_features p : Platform :=
  if negb (isSoftwareEmulation p) then p
  else if driver_value (m_driver p) <? driver_value Driver_Llvmpipe then
    p <| m_recommendedCompositor := XRenderCompositing |>
      <| m_supportsGLSL := false |> <| m_limitedGLSL := false |>
  else
    p <| m_recommendedCompositor := OpenGL2Compositing |>
      <| m_limitedGLSL := false |> <| m_supportsGLSL := true |>.

Definition other_features (pi : OpenGLPlatformInterface) p : Platform :=
  let p1 := if isPanfrost p then p <| m_recommendedCompositor := OpenGL2Compositing |> else p in
  if isMesaDriver p1 && bool_decide (pi = EglPlatformInterface)
  then p1 <| m_looseBinding := true |> else p1.

Definition fallback_features p : Platform :=
  let p1 := if is_driver Driver_Qualcomm p
            then p <| m_recommendedCompositor :=
                        if bool_decide (m_chipClass p = Adreno1XX) then NoCompositing
                        else OpenGL2Compositing |>
            else p in
  if bool_decide (m_chipClass p1 = UnknownChipClass) && is_driver Driver_Unknown p1
  then p1 <| m_recommendedCompositor := OpenGL2Compositing |> <| m_supportsGLSL := true |>
  else p1.

Definition virtual_features p : Platform :=
  if isVirtualBox p || isVMware p || isVirgl p
  then p <| m_virtualMachine := true |> <| m_recommendedCompositor := OpenGL2Compositing |>
  else p.

Definition gles_features p : Platform :=
  if m_gles p then p <| m_supportsGLSL := true |> <| m_limitedGLSL := false |> else p.

Definition features (pi : OpenGLPlatformInterface) G p : Platform :=
  gles_features (virtual_features (fallback_features (software_features
    (other_features pi (intel_features (nvidia_features (radeon_features G p))))))).

(** GLPlatform::detect. *)
Definition detect (pi : OpenGLPlatformInterface) G p : option Platform :=
  p1 ← detect_mesa G (detect_extensions G (detect_version pi G p));
  p2 ← detect_driver G (detect_glsl G p1);
  Some (features pi G p2).

(** printResults: the lines printed, as label and setting. *)
Definition yes_no (b : bool) : string := if b then "yes" else "no".
Definition printResults p : list (string * string) :=
  let print (label setting : string) := [(label, setting)] in
  let when (c : bool) (l : list (string * string)) := if c then l else [] in
  print "OpenGL vendor string:" (m_vendor p) ++
  print "OpenGL renderer string:" (m_renderer p) ++
  print "OpenGL version string:" (m_version p) ++
  when (m_supportsGLSL p) (print "OpenGL shading language version string:" (m_glsl_version p)) ++
  print "Driver:" (driverToString8 (m_driver p)) ++
  when (negb (isMesaDriver p)) (print "Driver version:" (versionToString8 (m_driverVersion p))) ++
  print "GPU class:" (chipClassToString8 (m_chipClass p)) ++
  print "OpenGL version:" (versionToString8 (m_glVersion p)) ++
  when (m_supportsGLSL p) (print "GLSL version:" (versionToString8 (m_glslVersion p))) ++
  when (isMesaDriver p) (print "Mesa version:" (versionToString8 (m_mesaVersion p))) ++
  when (0 <? m_serverVersion p) (print "X server version:" (versionToString8 (m_serverVersion p))) ++
  when (0 <? m_kernelVersion p) (print "Linux kernel version:" (versionToString8 (m_kernelVersion p))) ++
  print "Requires strict binding:" (yes_no (negb (m_looseBinding p))) ++
  print "GLSL shaders:" (if m_supportsGLSL p then (if m_limitedGLSL p then "limited" else "yes") else "no") ++
  print "Texture NPOT support:" (if m_textureNPOT p then (if m_limitedNPOT p then "limited" else "yes") else "no") ++
  print "Virtual Machine:" (yes_no (m_virtualMachine p)).
End Detect.

End GLPlatform.
