(* ===== verification/GLPlatformProps.v ===== *)
(** * Properties of the OpenGL platform detection

    Version numbers are printed and read back, compare like their components, the
    tables of chip names give the class of their own row, the detected features are
    consistent, and the reads of version and renderer tokens that are out of range
    are exactly those listed. *)

From Stdlib Require Import Ascii.
From S2P Require Import Prelude Bytes GLPlatform.

Module GLPlatformProps.
Import Bytes GLPlatform.

(** ** Version numbers *)

Lemma kVersionNumber_arith a b c :
  0 <= a < 2 ^ 16 -> 0 <= b < 2 ^ 16 -> 0 <= c < 2 ^ 16 ->
  kVersionNumber a b c = a * 2 ^ 32 + b * 2 ^ 16 + c.
Proof.
  intros Ha Hb Hc. unfold kVersionNumber.
  change 65535 with (Z.ones 16). rewrite !Z.land_ones by lia. rewrite !Z.mod_small by lia.
  rewrite !Z.shiftl_mul_pow2 by lia.
  rewrite (lor_low a (b * 2 ^ 16) 32) by lia.
  replace (a * 2 ^ 32 + b * 2 ^ 16) with ((a * 2 ^ 16 + b) * 2 ^ 16) by lia.
  by rewrite lor_low by lia.
Qed.

Lemma version_parts a b c :
  0 <= a < 2 ^ 16 -> 0 <= b < 2 ^ 16 -> 0 <= c < 2 ^ 16 ->
  i32 (Z.shiftr (kVersionNumber a b c) 32) = a /\
  Z.land (Z.shiftr (kVersionNumber a b c) 16) 65535 = b /\
  Z.land (kVersionNumber a b c) 65535 = c.
Proof.
  intros Ha Hb Hc. rewrite kVersionNumber_arith by done.
  change 65535 with (Z.ones 16). rewrite !Z.land_ones, !Z.shiftr_div_pow2 by lia.
  assert ((a * 2 ^ 32 + b * 2 ^ 16 + c) / 2 ^ 32 = a) as ->.
  { symmetry. apply (Z.div_unique_pos _ _ _ (b * 2 ^ 16 + c)); lia. }
  assert ((a * 2 ^ 32 + b * 2 ^ 16 + c) / 2 ^ 16 = a * 2 ^ 16 + b) as ->.
  { symmetry. apply (Z.div_unique_pos _ _ _ c); lia. }
  split_and!.
  - apply i32_small. lia.
  - symmetry. apply (Z.mod_unique_pos _ _ a); lia.
  - symmetry. apply (Z.mod_unique_pos _ _ (a * 2 ^ 16 + b)); lia.
Qed.

Lemma number_spec n :
  0 <= n < 2 ^ 16 ->
  number n = dec 20 n /\ all_chars is_digit (number n) = true /\
  (exists c s, number n = String c s) /\ to_int (number n) = n.
Proof.
  intros Hn. unfold number. rewrite (proj2 (Z.ltb_ge n 0)) by lia.
  destruct (dec_spec 20 n) as (_ & Ha & Hne); [lia|]. split_and!; [done..| |].
  - destruct (dec 20 n); [done|eauto].
  - apply to_int_dec. lia.
Qed.

Definition version_char (c : ascii) : bool := Ascii.eqb c "." || is_digit c.

Lemma digits_no_dot s :
  all_chars is_digit s = true -> all_chars (fun c => negb (Ascii.eqb c ".")) s = true.
Proof.
  apply all_chars_impl. intros c Hc. apply negb_true_iff.
  destruct (Ascii.eqb_spec c "."); [by subst|done].
Qed.

Lemma digits_version s : all_chars is_digit s = true -> all_chars version_char s = true.
Proof. apply all_chars_impl. intros c Hc. unfold version_char. by rewrite Hc, orb_true_r. Qed.

(** The tokens of a printed version, which is the part of the text that
    parseVersionString isolates. *)
Lemma parse_isolated pre s post :
  all_chars (fun c => negb (is_digit c)) pre = true ->
  (exists c s', s = String c s' /\ is_digit c = true) ->
  all_chars version_char s = true ->
  take_while version_char post = "" ->
  take_while version_char (skip_while (fun c => negb (is_digit c)) (pre +:+ (s +:+ post))) = s.
Proof.
  intros Hpre (c & s' & -> & Hc) Hs Hpost. rewrite skip_while_app by done.
  assert (skip_while (fun c => negb (is_digit c)) (String c s' +:+ post) = String c s' +:+ post) as ->.
  { rewrite string_app_cons. simpl. by rewrite Hc. }
  by apply take_while_app.
Qed.

Lemma versionToString8_spec a b c :
  0 <= a < 2 ^ 16 -> 0 <= b < 2 ^ 16 -> 0 <= c < 2 ^ 16 ->
  exists tail, versionToString8 (kVersionNumber a b c) = number a +:+ String "." (number b +:+ tail) /\
    all_chars version_char tail = true /\
    split "." (number b +:+ tail) = number b :: (if c =? 0 then [] else [number c]).
Proof.
  intros Ha Hb Hc. destruct (version_parts a b c) as (E1 & E2 & E3); [done..|].
  destruct (number_spec b) as (_ & Hbd & _ & _); [done|].
  destruct (number_spec c) as (_ & Hcd & _ & _); [done|].
  unfold versionToString8. rewrite E1, E2, E3. destruct (Z.eqb_spec c 0) as [->|Hc0].
  - exists "". rewrite string_app_nil. split_and!; [done..|].
    by apply split_no_sep, digits_no_dot.
  - exists (String "." (number c)). split_and!.
    + by rewrite !string_app_assoc.
    + simpl. by apply digits_version.
    + rewrite split_app by (by apply digits_no_dot). f_equal.
      by apply split_no_sep, digits_no_dot.
Qed.

(** C22: a printed version number is read back as itself from any text in which no
    digit precedes it and neither a digit nor a dot follows it, such as
    "OpenGL ES 3.0 Mesa 18.2": parsing undoes printing when the three components
    fit 16 bits, whether or not the patch level is printed. *)
Theorem version_roundtrip pre post a b c :
  all_chars (fun ch => negb (is_digit ch)) pre = true ->
  take_while (fun ch => Ascii.eqb ch "." || is_digit ch) post = "" ->
  0 <= a < 2 ^ 16 -> 0 <= b < 2 ^ 16 -> 0 <= c < 2 ^ 16 ->
  parseVersionString (pre +:+ (versionToString8 (kVersionNumber a b c) +:+ post)) =
  kVersionNumber a b c.
Proof.
  intros Hpre Hpost Ha Hb Hc.
  destruct (versionToString8_spec a b c) as (tail & -> & Htail & Hsplit); [done..|].
  destruct (number_spec a) as (_ & Had & (ch & s & Hch) & Hai); [done|].
  destruct (number_spec b) as (_ & Hbd & _ & Hbi); [done|].
  destruct (number_spec c) as (_ & Hcd & _ & Hci); [done|].
  unfold parseVersionString. fold version_char. rewrite parse_isolated; [|done| | |done].
  - rewrite split_app by (by apply digits_no_dot). rewrite Hsplit. simpl.
    rewrite Hai, Hbi. destruct (Z.eqb_spec c 0) as [->|]; [done|]. simpl. by rewrite Hci.
  - rewrite Hch. exists ch, (s +:+ String "." (number b +:+ tail)). split; [done|].
    rewrite Hch in Had. simpl in Had. by apply andb_true_iff in Had as [? _].
  - rewrite all_chars_app, digits_version by done. simpl.
    by rewrite all_chars_app, digits_version, Htail.
Qed.

Lemma version_roundtrip_witness :
  parseVersionString ("OpenGL ES " +:+ (versionToString8 (kVersionNumber 3 0 13) +:+ " Mesa")) =
  kVersionNumber 3 0 13.
Proof. apply version_roundtrip; first [by vm_compute|lia]. Defined.

(** Comparing version numbers as integers, as the program does to test for a
    minimal version, compares their components lexicographically. *)
Theorem version_compare a b c a' b' c' :
  0 <= a < 2 ^ 16 -> 0 <= b < 2 ^ 16 -> 0 <= c < 2 ^ 16 ->
  0 <= a' < 2 ^ 16 -> 0 <= b' < 2 ^ 16 -> 0 <= c' < 2 ^ 16 ->
  kVersionNumber a b c <= kVersionNumber a' b' c' <->
  a < a' \/ a = a' /\ (b < b' \/ b = b' /\ c <= c').
Proof. intros. rewrite !kVersionNumber_arith by done. lia. Qed.

Lemma version_compare_witness :
  kVersionNumber 3 0 0 <= kVersionNumber 3 1 2 <->
  3 < 3 \/ 3 = 3 /\ (0 < 1 \/ 0 = 1 /\ 0 <= 2).
Proof. apply version_compare; lia. Defined.

(** ** Chip classes *)

Definition table_ok (detect_class : string -> ChipClass) (rows : list (list string * ChipClass)) : bool :=
  forallb (fun '(names, c) => forallb (fun n => bool_decide (detect_class n = c)) names) rows.

Lemma table_ok_spec detect_class rows names c n :
  table_ok detect_class rows = true -> (names, c) ∈ rows -> n ∈ names -> detect_class n = c.
Proof.
  intros Hok Hrow%list_elem_of_In Hn%list_elem_of_In. unfold table_ok in Hok.
  rewrite forallb_forall in Hok. specialize (Hok _ Hrow). simpl in Hok.
  rewrite forallb_forall in Hok. apply (bool_decide_eq_true_1 _), Hok, Hn.
Qed.

(** No name of the tables of Radeon, Intel and Mali chips is shadowed by an
    earlier row: every name is classified as the class of its own row, although the
    rows are tested in order and by substring, so that for example "RS300" does not
    count as an R300. *)
Theorem chip_names_classified :
  (forall names c n, (names, c) ∈ radeon_chips -> n ∈ names -> detectRadeonClass n = c) /\
  (forall names c n, (names, c) ∈ intel_chips -> n ∈ names -> detectIntelClass n = c) /\
  (forall names c n, (names, c) ∈ panfrost_chips -> n ∈ names -> detectPanfrostClass n = c).
Proof.
  split_and!; intros names c n; apply table_ok_spec; by vm_compute.
Qed.

Lemma chip_names_classified_witness :
  detectRadeonClass "RS300" = R200 /\ detectIntelClass "965GM" = I965 /\
  detectPanfrostClass "G52" = MaliGXX.
Proof.
  destruct chip_names_classified as (Hr & Hi & Hp). split_and!.
  - apply (Hr ["RV200"; "RS200"; "R200"; "RV250"; "RS300"; "RV280"]).
    + apply (list_elem_of_lookup_2 _ 1). reflexivity.
    + apply (list_elem_of_lookup_2 _ 4). reflexivity.
  - apply (Hi ["965G"; "G45/G43"; "965GM"; "965GME/GLE"; "GM45"; "Q45/Q43"; "G41"; "B43"; "Ironlake"]).
    + apply (list_elem_of_lookup_2 _ 2). reflexivity.
    + apply (list_elem_of_lookup_2 _ 2). reflexivity.
  - apply (Hp ["G31"; "G52"; "G72"]).
    + apply (list_elem_of_lookup_2 _ 2). reflexivity.
    + apply (list_elem_of_lookup_2 _ 1). reflexivity.
Defined.

Lemma find_chip_class rows s c :
  find_chip rows s = Some c -> c ∈ (snd <$> rows).
Proof.
  unfold find_chip. rewrite fmap_Some. intros ((i & row) & Hf & ->).
  apply list_find_Some in Hf as (Hi & _). apply list_elem_of_fmap. exists row.
  split; [done|]. by eapply list_elem_of_lookup_2.
Qed.

Definition class_between (lo hi c : ChipClass) : bool :=
  (chip_value lo <=? chip_value c) && (chip_value c <=? chip_value hi).

Lemma find_chip_between rows lo hi s c :
  forallb (class_between lo hi) (snd <$> rows) = true ->
  find_chip rows s = Some c -> class_between lo hi c = true.
Proof.
  intros Hall Hf%find_chip_class. rewrite forallb_forall in Hall.
  by apply Hall, list_elem_of_In.
Qed.

(** The detection functions classify within their own vendor: whatever the
    renderer string, the class lies in the range that isRadeon, isNvidia, isIntel,
    isAdreno and isPanfrost test (an Adreno detection without "Adreno" in the
    string gives no class at all). No string is ever classified as Gemini Lake,
    although the class exists. *)
Theorem class_within_vendor s :
  class_between R100 UnknownRadeon (detectRadeonClass s) = true /\
  class_between NV10 UnknownNVidia (detectNVidiaClass s) = true /\
  class_between I8XX UnknownIntel (detectIntelClass s) = true /\
  (class_between Adreno1XX UnknownAdreno (detectQualcommClass s) = true \/
   detectQualcommClass s = UnknownChipClass /\ str_contains s "Adreno" = false) /\
  class_between MaliT7XX UnknownPanfrost (detectPanfrostClass s) = true /\
  detectIntelClass s <> GeminiLake.
Proof.
  split_and!.
  - unfold detectRadeonClass, radeon_hd, radeon_x, radeon_digits. case_match; [done|].
    destruct (find_chip radeon_chips s) eqn:E.
    + eapply find_chip_between; [|done]. by vm_compute.
    + by repeat case_match.
  - unfold detectNVidiaClass, nvidia_nv. by repeat case_match.
  - unfold detectIntelClass. destruct (find_chip intel_chips s) eqn:E; [|done].
    eapply find_chip_between; [|done]. by vm_compute.
  - unfold detectQualcommClass. destruct (str_contains s "Adreno"); [left|by right].
    by repeat case_match.
  - unfold detectPanfrostClass. destruct (find_chip panfrost_chips s) eqn:E; [|done].
    eapply find_chip_between; [|done]. by vm_compute.
  - unfold detectIntelClass. destruct (find_chip intel_chips s) as [c|] eqn:E; [|done].
    apply find_chip_class, list_elem_of_In in E. simpl in E |- *. intros ->.
    by repeat destruct E as [E|E].
Qed.

(** ** Features *)

(** Limited support of a feature is support of it. *)
Definition limits_ok (p : Platform) : Prop :=
  (m_limitedGLSL p = true -> m_supportsGLSL p = true) /\
  (m_limitedNPOT p = true -> m_textureNPOT p = true).

(** What the feature stages never change. *)
Definition same_gpu (p q : Platform) : Prop :=
  m_driver q = m_driver p /\ m_chipClass q = m_chipClass p /\ m_gles q = m_gles p.

(** The stages before the ones that look at Qualcomm and unknown hardware. *)
Definition early_features (pi : OpenGLPlatformInterface) G p : Platform :=
  software_features (other_features pi (intel_features (nvidia_features (radeon_features G p)))).

Lemma features_split pi G p :
  features pi G p = gles_features (virtual_features (fallback_features (early_features pi G p))).
Proof. reflexivity. Qed.

Ltac stage := simpl; repeat (case_match; simpl); naive_solver.

Lemma same_gpu_trans p q r : same_gpu p q -> same_gpu q r -> same_gpu p r.
Proof. unfold same_gpu. intuition congruence. Qed.

Lemma radeon_stage G p :
  same_gpu p (radeon_features G p) /\
  (limits_ok p -> limits_ok (radeon_features G p)) /\
  (m_recommendedCompositor p <> NoCompositing ->
   m_recommendedCompositor (radeon_features G p) <> NoCompositing).
Proof.
  unfold radeon_features, same_gpu, limits_ok. destruct (isRadeon p); [|done].
  destruct (below p R600); stage.
Qed.

Lemma nvidia_stage p :
  same_gpu p (nvidia_features p) /\
  (limits_ok p -> limits_ok (nvidia_features p)) /\
  (m_recommendedCompositor p <> NoCompositing ->
   m_recommendedCompositor (nvidia_features p) <> NoCompositing).
Proof.
  unfold nvidia_features, same_gpu, limits_ok. destruct (isNvidia p); [|done].
  simpl. destruct (is_driver Driver_NVidia p); simpl; rewrite !andb_true_iff;
    destruct (below p NV40); naive_solver.
Qed.

Lemma intel_stage p :
  same_gpu p (intel_features p) /\
  (limits_ok p -> limits_ok (intel_features p)) /\
  (m_recommendedCompositor p <> NoCompositing ->
   m_recommendedCompositor (intel_features p) <> NoCompositing).
Proof.
  unfold intel_features, same_gpu, limits_ok. destruct (isIntel p); [|done].
  simpl. rewrite !andb_true_iff. destruct (below p I915); naive_solver.
Qed.

Lemma other_stage pi p :
  same_gpu p (other_features pi p) /\
  (limits_ok p -> limits_ok (other_features pi p)) /\
  (m_recommendedCompositor p <> NoCompositing ->
   m_recommendedCompositor (other_features pi p) <> NoCompositing).
Proof. unfold other_features, same_gpu, limits_ok. stage. Qed.

Lemma software_stage p :
  same_gpu p (software_features p) /\
  (limits_ok p -> limits_ok (software_features p)) /\
  (m_recommendedCompositor p <> NoCompositing ->
   m_recommendedCompositor (software_features p) <> NoCompositing).
Proof. unfold software_features, same_gpu, limits_ok. stage. Qed.

Lemma early_stage pi G p :
  same_gpu p (early_features pi G p) /\
  (limits_ok p -> limits_ok (early_features pi G p)) /\
  (m_recommendedCompositor p <> NoCompositing ->
   m_recommendedCompositor (early_features pi G p) <> NoCompositing).
Proof.
  unfold early_features. set (p1 := radeon_features G p). set (p2 := nvidia_features p1).
  set (p3 := intel_features p2). set (p4 := other_features pi p3).
  destruct (radeon_stage G p) as (S1 & L1 & C1). destruct (nvidia_stage p1) as (S2 & L2 & C2).
  destruct (intel_stage p2) as (S3 & L3 & C3). destruct (other_stage pi p3) as (S4 & L4 & C4).
  destruct (software_stage p4) as (S5 & L5 & C5). split_and!; [|intros H; by apply L5, L4, L3, L2, L1|intros H; by apply C5, C4, C3, C2, C1].
  by repeat (eapply same_gpu_trans; [eassumption|]).
Qed.

(** The fields that the last stages set. *)
Lemma fallback_stage p :
  let q := fallback_features p in
  let unknown := bool_decide (m_chipClass p = UnknownChipClass) && is_driver Driver_Unknown p in
  same_gpu p q /\ m_limitedGLSL q = m_limitedGLSL p /\ m_limitedNPOT q = m_limitedNPOT p /\
  m_textureNPOT q = m_textureNPOT p /\ m_supportsGLSL q = (unknown || m_supportsGLSL p) /\
  m_recommendedCompositor q =
    if is_driver Driver_Qualcomm p
    then (if bool_decide (m_chipClass p = Adreno1XX) then NoCompositing else OpenGL2Compositing)
    else if unknown then OpenGL2Compositing else m_recommendedCompositor p.
Proof.
  unfold fallback_features, is_driver, same_gpu. destruct p; cbn.
  repeat (case_bool_decide; cbn); split_and!; first [done|congruence].
Qed.

Lemma virtual_stage p :
  let q := virtual_features p in
  let virtual := isVirtualBox p || isVMware p || isVirgl p in
  same_gpu p q /\ m_limitedGLSL q = m_limitedGLSL p /\ m_limitedNPOT q = m_limitedNPOT p /\
  m_textureNPOT q = m_textureNPOT p /\ m_supportsGLSL q = m_supportsGLSL p /\
  m_virtualMachine q = (virtual || m_virtualMachine p) /\
  m_recommendedCompositor q = if virtual then OpenGL2Compositing else m_recommendedCompositor p.
Proof. unfold virtual_features, same_gpu. by destruct (_ || _ || _), p. Qed.

Lemma gles_stage p :
  let q := gles_features p in
  same_gpu p q /\ m_limitedGLSL q = (m_limitedGLSL p && negb (m_gles p)) /\
  m_limitedNPOT q = m_limitedNPOT p /\ m_textureNPOT q = m_textureNPOT p /\
  m_supportsGLSL q = (m_gles p || m_supportsGLSL p) /\
  m_virtualMachine q = m_virtualMachine p /\
  m_recommendedCompositor q = m_recommendedCompositor p.
Proof.
  unfold gles_features, same_gpu. destruct (m_gles p) eqn:E; cbn; rewrite ?E, ?andb_false_r, ?andb_true_r;
    split_and!; done.
Qed.

Lemma late_stage p :
  let q := gles_features (virtual_features (fallback_features p)) in
  same_gpu p q /\ (limits_ok p -> limits_ok q) /\
  (m_gles q = true -> m_supportsGLSL q = true /\ m_limitedGLSL q = false) /\
  (m_recommendedCompositor p <> NoCompositing ->
   m_recommendedCompositor q = NoCompositing <->
   m_driver q = Driver_Qualcomm /\ m_chipClass q = Adreno1XX) /\
  (m_driver q ∈ [Driver_VirtualBox; Driver_VMware; Driver_Virgl] ->
   m_virtualMachine q = true /\ m_recommendedCompositor q = OpenGL2Compositing) /\
  (m_driver q = Driver_Unknown -> m_chipClass q = UnknownChipClass ->
   m_supportsGLSL q = true /\ m_recommendedCompositor q = OpenGL2Compositing).
Proof.
  destruct (fallback_stage p) as (S1 & L1 & N1 & T1 & G1 & C1).
  destruct (virtual_stage (fallback_features p)) as (S2 & L2 & N2 & T2 & G2 & V2 & C2).
  destruct (gles_stage (virtual_features (fallback_features p))) as (S3 & L3 & N3 & T3 & G3 & V3 & C3).
  revert S1 L1 N1 T1 G1 C1 S2 L2 N2 T2 G2 V2 C2 S3 L3 N3 T3 G3 V3 C3.
  generalize (gles_features (virtual_features (fallback_features p))).
  generalize (virtual_features (fallback_features p)). generalize (fallback_features p).
  intros p1 p2 p3 (D1 & K1 & E1) L1 N1 T1 G1 C1 (D2 & K2 & E2) L2 N2 T2 G2 V2 C2
    (D3 & K3 & E3) L3 N3 T3 G3 V3 C3.
  unfold isVirtualBox, isVMware, isVirgl, is_driver in *.
  rewrite D1 in *. rewrite D2 in *. rewrite K2 in *. rewrite K1 in *. rewrite E2, E1 in *.
  rewrite C2, C1 in C3. rewrite V2 in V3. rewrite L2, L1 in L3. rewrite N2, N1 in N3.
  rewrite T2, T1 in T3. rewrite G2, G1 in G3. clear - D3 K3 E3 L3 N3 T3 G3 V3 C3.
  cbn zeta. unfold same_gpu, limits_ok. rewrite D3, K3, E3, L3, N3, T3, G3, V3, C3.
  clear. rewrite !elem_of_cons, elem_of_nil, !andb_true_iff, !orb_true_iff.
  split; [done|]. split; [tauto|]. split; [intros ->; split; [by left|apply andb_false_r]|].
  repeat case_bool_decide; cbn; split_and!; intros; split_and?; intuition congruence.
Qed.

(** What the choice of the driver leaves alone. *)
Definition keeps_features (p q : Platform) : Prop :=
  m_limitedGLSL q = m_limitedGLSL p /\ m_limitedNPOT q = m_limitedNPOT p /\
  m_recommendedCompositor q = m_recommendedCompositor p.

Lemma gallium_keeps G chipset p : keeps_features p (gallium_driver G chipset p).
Proof. unfold gallium_driver, keeps_features. by repeat case_match. Qed.

Lemma keeps_trans p q r : keeps_features p q -> keeps_features q r -> keeps_features p r.
Proof. unfold keeps_features. intuition congruence. Qed.

Lemma detect_driver_keeps G p q : detect_driver G p = Some q -> keeps_features p q.
Proof.
  unfold detect_driver. repeat case_match; try (intros [= <-]; unfold keeps_features; done).
  - unfold detect_mesa_radeon. rewrite bind_Some. intros (? & _ & Hq).
    apply bind_Some in Hq as (? & _ & [= <-]). done.
  - unfold detect_catalyst. rewrite bind_Some. intros (? & _ & Hq).
    apply bind_Some in Hq as (? & _ & [= <-]). done.
  - unfold detect_nvidia. rewrite bind_Some. by intros (? & _ & [= <-]).
  - unfold detect_virtualbox. rewrite bind_Some. by intros (? & _ & [= <-]).
  - unfold detect_gallium. rewrite bind_Some. intros ([version chipset] & _ & Hq).
    apply (inj Some) in Hq as <-. eapply keeps_trans; [|apply gallium_keeps]. done.
Qed.

Lemma glsl_keeps G p : keeps_features p (detect_glsl G p).
Proof. unfold detect_glsl, keeps_features. cbn zeta. by destruct (m_gles p). Qed.

Lemma detect_prefix_keeps pi G p q :
  detect_mesa G (detect_extensions G (detect_version pi G p)) = Some q ->
  keeps_features p (detect_glsl G q).
Proof.
  intros Hq. eapply keeps_trans; [|apply glsl_keeps]. revert Hq.
  unfold detect_mesa. destruct (index_of _ _).
  - rewrite bind_Some. intros (? & _ & Hq). apply (inj Some) in Hq as <-. done.
  - intros Hq. apply (inj Some) in Hq as <-. done.
Qed.

(** The features that a first detection derives are consistent, whatever the
    drivers report: limited GLSL or limited NPOT textures imply GLSL or NPOT
    textures; on OpenGL ES shaders are supported without limits; no compositing is
    recommended exactly for the first Adreno generation of the Qualcomm driver;
    the three virtual machine drivers are marked as such and composited with
    OpenGL, and so is hardware about which nothing is known. *)
Theorem detect_consistent pi G q :
  detect pi G initial = Some q ->
  limits_ok q /\
  (m_gles q = true -> m_supportsGLSL q = true /\ m_limitedGLSL q = false) /\
  (m_recommendedCompositor q = NoCompositing <->
   m_driver q = Driver_Qualcomm /\ m_chipClass q = Adreno1XX) /\
  (m_driver q ∈ [Driver_VirtualBox; Driver_VMware; Driver_Virgl] ->
   m_virtualMachine q = true /\ m_recommendedCompositor q = OpenGL2Compositing) /\
  (m_driver q = Driver_Unknown -> m_chipClass q = UnknownChipClass ->
   m_supportsGLSL q = true /\ m_recommendedCompositor q = OpenGL2Compositing).
Proof.
  unfold detect. rewrite bind_Some. intros (p1 & H1%detect_prefix_keeps & Hq).
  apply bind_Some in Hq as (p2 & H2%detect_driver_keeps & Hq). apply (inj Some) in Hq as <-.
  assert (keeps_features initial p2) as (HL & HN & HC) by (by eapply keeps_trans).
  destruct (early_stage pi G p2) as (_ & HL' & HC').
  destruct (late_stage (early_features pi G p2)) as (_ & Hlim & Hgles & Hno & Hrest).
  rewrite features_split.
  split; [|split; [exact Hgles|split; [|exact Hrest]]].
  - apply Hlim, HL'. unfold limits_ok. by rewrite HL, HN.
  - apply Hno, HC'. by rewrite HC.
Qed.

(** A notebook with a Radeon chip driven by Mesa. *)
Definition sample_gl : GL :=
  mkGL "X.Org" "Gallium 0.4 on AMD REDWOOD" "3.0 Mesa 9.2.1" "1.30" ["GL_ARB_shader_objects"]
    "GL_ARB_shader_objects" None "Linux" "5.4.0".

Lemma detect_consistent_witness :
  exists q, detect EglPlatformInterface sample_gl initial = Some q /\
    m_driver q = Driver_R600G /\ m_chipClass q = Evergreen /\ limits_ok q.
Proof.
  eexists. split; [vm_compute; reflexivity|]. split; [done|]. split; [done|].
  apply (detect_consistent EglPlatformInterface sample_gl). vm_compute. reflexivity.
Defined.

(** ** Reads out of range *)

(** The token ends the version string (it is looked up at its first position). *)
Definition last_token (token : string) (G : GL) : Prop :=
  exists i, index_of token (split " " (gl_version G)) = Some i /\
    length (split " " (gl_version G)) = S i.

(** The strings for which the driver detection reads a token that is not there. *)
Definition driver_out_of_range (G : GL) : Prop :=
  let vendor := gl_vendor G in let renderer := gl_renderer G in
  let tokens := split " " renderer in
  if startsWith renderer "Mesa DRI R" then (length tokens < 4)%nat
  else if str_contains renderer "Intel" then False
  else if String.eqb vendor "ATI Technologies Inc." then length (split " " (gl_version G)) = 2%nat
  else if String.eqb vendor "NVIDIA Corporation" then last_token "NVIDIA" G
  else if String.eqb vendor "Qualcomm" || str_contains renderer "Panfrost" ||
          String.eqb renderer "Software Rasterizer" then False
  else if String.eqb vendor "Humper" && String.eqb renderer "Chromium" then last_token "Chromium" G
  else str_contains renderer "Gallium" = true /\
       ((length tokens < 4)%nat \/
        length tokens = 4%nat /\ (tokens !! 3%nat = Some "AMD" \/ tokens !! 3%nat = Some "ATI")).

Lemma split_nonempty sep s : (0 < length (split sep s))%nat.
Proof. destruct s; simpl; [lia|]. destruct (Ascii.eqb _ _), (split sep s); simpl; lia. Qed.

Lemma version_after_None token G : version_after token G = None <-> last_token token G.
Proof.
  unfold version_after, last_token. pose proof (split_nonempty " " (gl_version G)) as Hlen.
  rewrite bind_None. destruct (index_of token _) as [i|] eqn:E.
  - apply index_of_Some in E as [Hi%lookup_lt_Some _].
    rewrite lookup_ge_None. split.
    + intros [Hn|(x & _ & Hx)]; [|done]. exists i. split; [done|lia].
    + intros (j & [= ->] & Hl). left. lia.
  - rewrite lookup_ge_None. split; [|naive_solver].
    intros [Hn|(x & _ & Hx)]; [lia|done].
Qed.

Lemma mesa_None G p : detect_mesa G p = None <-> last_token "Mesa" G.
Proof.
  rewrite <- version_after_None. unfold detect_mesa, version_after.
  pose proof (split_nonempty " " (gl_version G)) as Hlen.
  destruct (index_of "Mesa" _) as [i|] eqn:E.
  - by destruct (split " " (gl_version G) !! S i).
  - destruct (split " " (gl_version G)); [simpl in Hlen; lia|done].
Qed.

Lemma mesa_radeon_None G p :
  detect_mesa_radeon G p = None <-> (length (split " " (gl_renderer G)) < 4)%nat.
Proof.
  unfold detect_mesa_radeon.
  destruct (split " " (gl_renderer G)) as [|t0 [|t1 [|t2 [|t3 ts]]]]; simpl;
    split; (done || lia).
Qed.

Lemma catalyst_None G p :
  detect_catalyst G p = None <-> length (split " " (gl_version G)) = 2%nat.
Proof.
  unfold detect_catalyst. pose proof (split_nonempty " " (gl_version G)).
  destruct (split " " (gl_version G)) as [|t0 [|t1 [|t2 ts]]]; simpl in *.
  1, 2, 3: split; (done || lia).
  split; [|lia]. by destruct (startsWith t2 "(").
Qed.

Lemma gallium_None G p :
  detect_gallium G p = None <->
  str_contains (gl_renderer G) "Gallium" = true /\
  let tokens := split " " (gl_renderer G) in
  ((length tokens < 4)%nat \/
   length tokens = 4%nat /\ (tokens !! 3%nat = Some "AMD" \/ tokens !! 3%nat = Some "ATI")).
Proof.
  unfold detect_gallium, gallium_chipset. pose proof (split_nonempty " " (gl_renderer G)).
  destruct (str_contains (gl_renderer G) "Gallium").
  - destruct (split " " (gl_renderer G)) as [|t0 [|t1 [|t2 [|t3 [|t4 ts]]]]]; simpl in *.
    1, 2, 3, 4: split; [intros _; split; [done|left; lia]|done].
    + destruct (String.eqb_spec t3 "AMD") as [->|]; [split; [intros _|done]; auto|].
      destruct (String.eqb_spec t3 "ATI") as [->|]; [split; [intros _|done]; auto|]. simpl.
      split; [done|]. intros (_ & [?|(_ & [[=]|[=]])]); lia || done.
    + split; [by destruct (_ || _)|]. intros (_ & [?|(? & _)]); lia.
  - destruct (split " " (gl_renderer G)); simpl in *; [lia|]. split; [done|]. by intros [[=] _].
Qed.

Lemma driver_None G p : detect_driver G p = None <-> driver_out_of_range G.
Proof.
  unfold detect_driver, driver_out_of_range.
  case_match; [apply mesa_radeon_None|]. case_match; [done|].
  case_match; [apply catalyst_None|].
  case_match; [rewrite <- version_after_None; unfold detect_nvidia; by destruct (version_after _ _)|].
  destruct (String.eqb (gl_vendor G) "Qualcomm"); [done|].
  destruct (str_contains (gl_renderer G) "Panfrost"); [done|].
  destruct (String.eqb (gl_renderer G) "Software Rasterizer"); [done|]. cbn [orb].
  case_match; [|apply gallium_None].
  rewrite <- version_after_None. unfold detect_virtualbox. by destruct (version_after _ _).
Qed.

(** The detection reads only tokens that are there except for these strings:
    a version that ends with its first "Mesa" token; a "Mesa DRI R" renderer of
    fewer than four tokens; the ATI vendor with a version of exactly two tokens;
    the NVIDIA vendor, or VirtualBox, with a version that ends with its first
    "NVIDIA" or "Chromium" token; a Gallium renderer of fewer than four tokens, or
    of four whose last is "AMD" or "ATI". For every other report of the drivers the
    detection gives a result. *)
Theorem detect_out_of_range pi G p :
  detect pi G p = None <-> last_token "Mesa" G \/ driver_out_of_range G.
Proof.
  unfold detect.
  rewrite <- (mesa_None G (detect_extensions G (detect_version pi G p))).
  destruct (detect_mesa _ _) as [p1|]; simpl; [|split; [by left|done]].
  rewrite <- (driver_None G (detect_glsl G p1)). destruct (detect_driver _ _); simpl; naive_solver.
Qed.

(** A version of two tokens from the proprietary ATI driver. *)
Example catalyst_two_tokens :
  detect GlxPlatformInterface
    (mkGL "ATI Technologies Inc." "ATI Radeon HD 4650" "2.1.8545 Release" "1.20" [] "" None "Linux" "5.4")
    initial = None.
Proof. by vm_compute. Qed.

End GLPlatformProps.
