(* ===== verification/Rules.v ===== *)
(** * Window rules (src/rules/rules.h, rules.cpp, window_rules.h, window_rules.cpp)

    A rule object holds for each property of a window a value and how to use it.
    Here: reading and writing the settings, matching a window, applying a rule to a
    value, remembering the values of a window, discarding used rules; and the
    lookups of WindowRules over the rules of a window. The settings object is the
    one described by src/rules/kconfig/rule_settings.kcfg; a pair of entries
    (value, rule) is a ruler here too. Strings are byte strings, lowered in ASCII. *)

From Stdlib Require Import Ascii.
From S2P Require Import Prelude Qt Bytes.

Module Rules.
Import Qt Bytes.

(** ** Data *)

(** The ways to use a value; casts from stored numbers reach other values too. *)
Definition Unused : Z := 0.
Definition DontAffect : Z := 1.
Definition Force : Z := 2.
Definition Apply : Z := 3.
Definition Remember : Z := 4.
Definition ApplyNow : Z := 5.
Definition ForceTemporarily : Z := 6.

Record set_ruler (T : Type) := mkSet { sdata : T; srule : Z }.
Record force_ruler (T : Type) := mkForce { fdata : T; frule : Z }.
Arguments mkSet {T} _ _.
Arguments sdata {T} _.
Arguments srule {T} _.
Arguments mkForce {T} _ _.
Arguments fdata {T} _.
Arguments frule {T} _.

(** StringMatch. *)
Definition UnimportantMatch : Z := 0.
Definition ExactMatch : Z := 1.
Definition SubstringMatch : Z := 2.
Definition RegExpMatch : Z := 3.

Record string_match := mkMatch { mdata : string; mmatch : Z }.

(** Placement::Policy. *)
Inductive Policy :=
  | NoPlacement | Default | UnknownPolicy | Random | Smart | Cascade | Centered | ZeroCornered
  | UnderMouse | OnMainWindow | Maximizing.
#[global] Instance Policy_eq_dec : EqDecision Policy.
Proof. solve_decision. Defined.

(** The values of NET::WindowType that rules mention. *)
Definition NET_Unknown : Z := -1.
Definition NET_Normal : Z := 0.
Definition NET_Splash : Z := 9.
Definition AllTypesMask : Z := 2 ^ 32 - 1.

(** src/utils.h: a point that is no position. *)
Definition invalidPoint : QPoint := mkPoint (- 2 ^ 31) (- 2 ^ 31).

Record Sets := mkSets {
  above : set_ruler bool;
  activity : set_ruler string;
  below : set_ruler bool;
  ignoregeometry : set_ruler bool;
  desktop : set_ruler Z;
  desktopfile : set_ruler string;
  fullscreen : set_ruler bool;
  maximizehoriz : set_ruler bool;
  maximizevert : set_ruler bool;
  minimize : set_ruler bool;
  noborder : set_ruler bool;
  position : set_ruler QPoint;
  screen : set_ruler Z;
  shortcut : set_ruler string;
  size : set_ruler QSize;
  skippager : set_ruler bool;
  skipswitcher : set_ruler bool;
  skiptaskbar : set_ruler bool;
}.

Record Forces := mkForces {
  acceptfocus : force_ruler bool;
  autogroup : force_ruler bool;
  autogroupfg : force_ruler bool;
  autogroupid : force_ruler string;
  blockcompositing : force_ruler bool;
  closeable : force_ruler bool;
  decocolor : force_ruler string;
  disableglobalshortcuts : force_ruler bool;
  fpplevel : force_ruler Z;
  fsplevel : force_ruler Z;
  maxsize : force_ruler QSize;
  minsize : force_ruler QSize;
  opacityactive : force_ruler Z;
  opacityinactive : force_ruler Z;
  placement : force_ruler Policy;
  strictgeometry : force_ruler bool;
  type : force_ruler Z;
}.

Record Rules := mkRules {
  wmclass : string_match;
  windowrole : string_match;
  clientmachine : string_match;
  title : string_match;
  temporary_state : Z;
  description : string;
  wmclasscomplete : bool;
  types : Z;
  sets : Sets;
  forces : Forces;
}.
#[global] Instance Rules_eta : RecordEta Rules := fun r =>
  mkRules (wmclass r) (windowrole r) (clientmachine r) (title r) (temporary_state r)
    (description r) (wmclasscomplete r) (types r) (sets r) (forces r).

(** The entries of a group of the rules configuration. *)
Record RuleSettings := mkSettings {
  st_description : string;
  st_descriptionLegacy : string;
  st_wmclass : string_match;
  st_wmclasscomplete : bool;
  st_windowrole : string_match;
  st_title : string_match;
  st_clientmachine : string_match;
  st_types : Z;
  st_sets : Sets;
  st_forces : Forces;
}.
#[global] Instance RuleSettings_eta : RecordEta RuleSettings := fun s =>
  mkSettings (st_description s) (st_descriptionLegacy s) (st_wmclass s) (st_wmclasscomplete s)
    (st_windowrole s) (st_title s) (st_clientmachine s) (st_types s) (st_sets s) (st_forces s).

(** *** The same step for every ruler *)

Definition map_sets (f : forall T, set_ruler T -> set_ruler T) (s : Sets) : Sets :=
  mkSets (f _ (above s)) (f _ (activity s)) (f _ (below s)) (f _ (ignoregeometry s))
    (f _ (desktop s)) (f _ (desktopfile s)) (f _ (fullscreen s)) (f _ (maximizehoriz s))
    (f _ (maximizevert s)) (f _ (minimize s)) (f _ (noborder s)) (f _ (position s))
    (f _ (screen s)) (f _ (shortcut s)) (f _ (size s)) (f _ (skippager s))
    (f _ (skipswitcher s)) (f _ (skiptaskbar s)).

Definition map_forces (f : forall T, force_ruler T -> force_ruler T) (s : Forces) : Forces :=
  mkForces (f _ (acceptfocus s)) (f _ (autogroup s)) (f _ (autogroupfg s)) (f _ (autogroupid s))
    (f _ (blockcompositing s)) (f _ (closeable s)) (f _ (decocolor s))
    (f _ (disableglobalshortcuts s)) (f _ (fpplevel s)) (f _ (fsplevel s)) (f _ (maxsize s))
    (f _ (minsize s)) (f _ (opacityactive s)) (f _ (opacityinactive s)) (f _ (placement s))
    (f _ (strictgeometry s)) (f _ (type s)).

(** The rules of all rulers, in the order of the record. *)
Definition set_rules_of (s : Sets) : list Z :=
  [srule (above s); srule (activity s); srule (below s); srule (ignoregeometry s);
   srule (desktop s); srule (desktopfile s); srule (fullscreen s); srule (maximizehoriz s);
   srule (maximizevert s); srule (minimize s); srule (noborder s); srule (position s);
   srule (screen s); srule (shortcut s); srule (size s); srule (skippager s);
   srule (skipswitcher s); srule (skiptaskbar s)].

Definition force_rules_of (s : Forces) : list Z :=
  [frule (acceptfocus s); frule (autogroup s); frule (autogroupfg s); frule (autogroupid s);
   frule (blockcompositing s); frule (closeable s); frule (decocolor s);
   frule (disableglobalshortcuts s); frule (fpplevel s); frule (fsplevel s);
   frule (maxsize s); frule (minsize s); frule (opacityactive s); frule (opacityinactive s);
   frule (placement s); frule (strictgeometry s); frule (type s)].

(** ** Settings *)

(** The values of the entries without an entry in the file. *)
Definition default_sets : Sets :=
  mkSets (mkSet false 0) (mkSet "" 0) (mkSet false 0) (mkSet false 0) (mkSet 0 0) (mkSet "" 0)
    (mkSet false 0) (mkSet false 0) (mkSet false 0) (mkSet false 0) (mkSet false 0)
    (mkSet invalidPoint 0) (mkSet 0 0) (mkSet "" 0) (mkSet (mkSize (-1) (-1)) 0) (mkSet false 0)
    (mkSet false 0) (mkSet false 0).

Definition default_forces : Forces :=
  mkForces (mkForce false 0) (mkForce false 0) (mkForce true 0) (mkForce "" 0) (mkForce false 0)
    (mkForce false 0) (mkForce "" 0) (mkForce false 0) (mkForce 0 0) (mkForce 0 0)
    (mkForce (mkSize (-1) (-1)) 0) (mkForce (mkSize (-1) (-1)) 0) (mkForce 0 0) (mkForce 0 0)
    (mkForce Smart 0) (mkForce false 0) (mkForce NET_Unknown 0).

Definition default_settings : RuleSettings :=
  mkSettings "" "" (mkMatch "" 0) false (mkMatch "" 0) (mkMatch "" 0) (mkMatch "" 0) AllTypesMask
    default_sets default_forces.

(** toLower(). *)
Definition lower_char (c : ascii) : ascii :=
  if is_upper c then Ascii.ascii_of_N (Z.to_N (code c + 32)) else c.
Fixpoint toLower (s : string) : string :=
  match s with EmptyString => "" | String c s' => String (lower_char c) (toLower s') end.

(** QFileInfo(path).baseName(): the file name up to its first dot. *)
Definition file_name (path : string) : string := default "" (last (split "/" path)).
Definition baseName (path : string) : string :=
  take_while (fun c => negb (Ascii.eqb c ".")) (file_name path).

Fixpoint endsWith (s suffix : string) : bool :=
  String.eqb s suffix ||
  match s with EmptyString => false | String _ s' => endsWith s' suffix end.

Section Reading.
(** [QStandardPaths::locate] of a color scheme file: its path, empty when there is
    no such file. *)
Variable locate : string -> string.
Implicit Types (s : RuleSettings) (r : Rules).

Definition getDecoColor (themeName : string) : string :=
  if String.eqb themeName "" then "" else locate ("color-schemes/" +:+ (themeName +:+ ".colors")).

Definition read_bytes_match (m : string_match) : string_match :=
  mkMatch (toLower (mdata m)) (mmatch m).

(** The settings' value, with the exceptions for some properties. *)
Definition read_sets (st : Sets) : Sets :=
  mkSets (above st) (activity st) (below st) (ignoregeometry st) (desktop st) (desktopfile st)
    (fullscreen st) (maximizehoriz st) (maximizevert st) (minimize st) (noborder st)
    (position st) (screen st) (shortcut st)
    (if size_isEmpty (sdata (size st)) && negb (srule (size st) =? Remember)
     then mkSet (sdata (size st)) Unused else size st)
    (skippager st) (skipswitcher st) (skiptaskbar st).

Definition read_forces (st : Forces) : Forces :=
  let color := getDecoColor (fdata (decocolor st)) in
  mkForces (acceptfocus st) (autogroup st) (autogroupfg st) (autogroupid st)
    (blockcompositing st) (closeable st)
    (mkForce color (if String.eqb color "" then Unused else frule (decocolor st)))
    (disableglobalshortcuts st) (fpplevel st) (fsplevel st)
    (if size_isEmpty (fdata (maxsize st)) then mkForce (mkSize 32767 32767) (frule (maxsize st))
     else maxsize st)
    (if size_isValid (fdata (minsize st)) then minsize st
     else mkForce (mkSize 1 1) (frule (minsize st)))
    (opacityactive st) (opacityinactive st) (placement st) (strictgeometry st)
    (if fdata (type st) =? NET_Unknown then mkForce (fdata (type st)) Unused else type st).

Definition readFromSettings (temporary_state : Z) s : Rules :=
  mkRules (read_bytes_match (st_wmclass s)) (read_bytes_match (st_windowrole s))
    (read_bytes_match (st_clientmachine s)) (st_title s) temporary_state
    (if String.eqb (st_description s) "" then st_descriptionLegacy s else st_description s)
    (st_wmclasscomplete s) (st_types s) (read_sets (st_sets s)) (read_forces (st_forces s)).

(** Rules(str, temporary), from the settings that the text holds. *)
Definition Rules_from_text (s : RuleSettings) (temporary : bool) : Rules :=
  let r := readFromSettings (if temporary then 2 else 0) s in
  if String.eqb (description r) "" then r <| description := "temporary" |> else r.

(** *** Writing: a setter keeps an entry inside its range. *)

Definition clamp (lo hi v : Z) : Z := if v <? lo then lo else if hi <? v then hi else v.

Definition write_string (force : bool) (m st : string_match) : string_match :=
  mkMatch (if negb (String.eqb (mdata m) "") || force then mdata m else mdata st)
    (clamp UnimportantMatch RegExpMatch (mmatch m)).

Definition write_set {T} (ruler st : set_ruler T) : set_ruler T :=
  mkSet (if srule ruler =? Unused then sdata st else sdata ruler)
    (clamp Unused ForceTemporarily (srule ruler)).

Definition convert_write_force {T} (converter : T -> T) (ruler st : force_ruler T) : force_ruler T :=
  mkForce (if frule ruler =? Unused then fdata st else converter (fdata ruler)) (frule ruler).
Definition write_force {T} : force_ruler T -> force_ruler T -> force_ruler T :=
  convert_write_force id.

Definition colorToString (value : string) : string :=
  if endsWith value ".colors" then baseName value else value.

Definition write_sets (r st : Sets) : Sets :=
  mkSets (write_set (above r) (above st)) (write_set (activity r) (activity st))
    (write_set (below r) (below st)) (write_set (ignoregeometry r) (ignoregeometry st))
    (write_set (desktop r) (desktop st)) (write_set (desktopfile r) (desktopfile st))
    (write_set (fullscreen r) (fullscreen st))
    (write_set (maximizehoriz r) (maximizehoriz st))
    (write_set (maximizevert r) (maximizevert st)) (write_set (minimize r) (minimize st))
    (write_set (noborder r) (noborder st)) (write_set (position r) (position st))
    (write_set (screen r) (screen st)) (write_set (shortcut r) (shortcut st))
    (write_set (size r) (size st)) (write_set (skippager r) (skippager st))
    (write_set (skipswitcher r) (skipswitcher st)) (write_set (skiptaskbar r) (skiptaskbar st)).

Definition write_forces (r st : Forces) : Forces :=
  mkForces (write_force (acceptfocus r) (acceptfocus st)) (write_force (autogroup r) (autogroup st))
    (write_force (autogroupfg r) (autogroupfg st)) (write_force (autogroupid r) (autogroupid st))
    (write_force (blockcompositing r) (blockcompositing st))
    (write_force (closeable r) (closeable st))
    (convert_write_force colorToString (decocolor r) (decocolor st))
    (write_force (disableglobalshortcuts r) (disableglobalshortcuts st))
    (convert_write_force (clamp 0 4) (fpplevel r) (fpplevel st))
    (convert_write_force (clamp 0 4) (fsplevel r) (fsplevel st))
    (write_force (maxsize r) (maxsize st)) (write_force (minsize r) (minsize st))
    (convert_write_force (clamp 0 100) (opacityactive r) (opacityactive st))
    (convert_write_force (clamp 0 100) (opacityinactive r) (opacityinactive st))
    (write_force (placement r) (placement st)) (write_force (strictgeometry r) (strictgeometry st))
    (convert_write_force (clamp NET_Normal NET_Splash) (type r) (type st)).

Definition write r s : RuleSettings :=
  mkSettings (description r) (st_descriptionLegacy s)
    (write_string true (wmclass r) (st_wmclass s)) (wmclasscomplete r)
    (write_string false (windowrole r) (st_windowrole s))
    (write_string false (title r) (st_title s))
    (write_string false (clientmachine r) (st_clientmachine s))
    (types r) (write_sets (sets r) (st_sets s)) (write_forces (forces r) (st_forces s)).
End Reading.

(** isEmpty: the rule does not affect anything. *)
Definition isEmpty (r : Rules) : bool :=
  forallb (fun v => v =? Unused) (set_rules_of (sets r)) &&
  forallb (fun v => v =? Unused) (force_rules_of (forces r)).

(** ** Matching *)

(** What the rules read of a window. *)
Record RuleWindow := mkRuleWindow {
  w_type : Z;                  (** windowType(true) *)
  w_resourceClass : string;
  w_resourceName : string;
  w_role : string;
  w_hostName : string;
  w_isLocal : bool;
  w_caption : string;
  w_keep_above : bool;
  w_keep_below : bool;
  w_activities : list string;
  w_desktop : Z;
  w_desktop_file_name : string;
  w_fullscreen : bool;
  w_maximizeMode : Z;
  w_minimized : bool;
  w_noBorder : bool;
  w_pos : QPoint;
  w_screen : Z;
  w_size : QSize;
  w_skip_pager : bool;
  w_skip_switcher : bool;
  w_skip_taskbar : bool;
}.

(** win::maximize_mode. *)
Definition mode_vertical : Z := 1.
Definition mode_horizontal : Z := 2.
Definition mode_has (mode flag : Z) : bool := negb (Z.land mode flag =? 0).

Section Matching.
(** [NET::typeMatchesMask], and whether the regular expression (first argument)
    occurs in a text: [QRegExp(pattern).indexIn(text) != -1]. *)
Variable typeMatchesMask : Z -> Z -> bool.
Variable regexp_found : string -> string -> bool.
Implicit Types (r : Rules).

Definition matchType r (match_type : Z) : bool :=
  if types r =? AllTypesMask then true
  else typeMatchesMask (if match_type =? NET_Unknown then NET_Normal else match_type) (types r).

(** The three comparisons that may refuse a text. *)
Definition string_matches (m : string_match) (text : string) : bool :=
  if mmatch m =? UnimportantMatch then true
  else if (mmatch m =? RegExpMatch) && negb (regexp_found (mdata m) text) then false
  else if (mmatch m =? ExactMatch) && negb (String.eqb (mdata m) text) then false
  else negb ((mmatch m =? SubstringMatch) && negb (str_contains text (mdata m))).

Definition matchWMClass r (match_class match_name : string) : bool :=
  string_matches (wmclass r)
    (if wmclasscomplete r then match_name +:+ String " " match_class else match_class).

Definition matchRole r (match_role : string) : bool := string_matches (windowrole r) match_role.
Definition matchTitle r (match_title : string) : bool := string_matches (title r) match_title.

(** The recursive call is for "localhost", which does not recurse. *)
Definition matchClientMachine r (match_machine : string) (isLocal : bool) : bool :=
  if mmatch (clientmachine r) =? UnimportantMatch then true
  else if negb (String.eqb match_machine "localhost") && isLocal &&
          string_matches (clientmachine r) "localhost" then true
  else string_matches (clientmachine r) match_machine.

(** match: the answer, and whether changes of the caption are tracked from now on. *)
Definition rule_match r (w : RuleWindow) : bool * bool :=
  if negb (matchType r (w_type w)) then (false, false)
  else if negb (matchWMClass r (w_resourceClass w) (w_resourceName w)) then (false, false)
  else if negb (matchRole r (toLower (w_role w))) then (false, false)
  else if negb (matchClientMachine r (w_hostName w) (w_isLocal w)) then (false, false)
  else (matchTitle r (w_caption w), negb (mmatch (title r) =? UnimportantMatch)).
End Matching.

(** ** Applying *)

Definition checkSetRule (rule : Z) (init : bool) : bool :=
  (DontAffect <? rule) &&
  ((rule =? Force) || (rule =? ApplyNow) || (rule =? ForceTemporarily) || init).
Definition checkForceRule (rule : Z) : bool := (rule =? Force) || (rule =? ForceTemporarily).
Definition checkSetStop (rule : Z) : bool := negb (rule =? Unused).
Definition checkForceStop (rule : Z) : bool := negb (rule =? Unused).

(** The new value of the target and the answer. *)
Definition apply_set {T} (target : T) (ruler : set_ruler T) (init : bool) : T * bool :=
  (if checkSetRule (srule ruler) init then sdata ruler else target, checkSetStop (srule ruler)).
Definition apply_force {T} (target : T) (ruler : force_ruler T) : T * bool :=
  (if checkForceRule (frule ruler) then fdata ruler else target, checkForceStop (frule ruler)).

Section Applying.
Implicit Types (r : Rules) (init : bool).

Definition applyPosition r (pos : QPoint) init : QPoint * bool :=
  (if negb (bool_decide (sdata (position (sets r)) = invalidPoint)) &&
      checkSetRule (srule (position (sets r))) init
   then sdata (position (sets r)) else pos,
   checkSetStop (srule (position (sets r)))).
Definition applySize r (s : QSize) init : QSize * bool :=
  (if size_isValid (sdata (size (sets r))) && checkSetRule (srule (size (sets r))) init
   then sdata (size (sets r)) else s,
   checkSetStop (srule (size (sets r)))).

Definition applyGeometry r (rect : QRect) init : QRect * bool :=
  let '(p, moved) := applyPosition r (topLeft rect) init in
  let '(s, resized) := applySize r (Qt.size rect) init in
  let rect1 := if moved then moveTo rect p else rect in
  (if resized then setSize rect1 s else rect1, moved || resized).

Definition applyActivity r v init := apply_set v (activity (sets r)) init.
Definition applyMinimize r v init := apply_set v (minimize (sets r)) init.
Definition applySkipTaskbar r v init := apply_set v (skiptaskbar (sets r)) init.
Definition applySkipPager r v init := apply_set v (skippager (sets r)) init.
Definition applySkipSwitcher r v init := apply_set v (skipswitcher (sets r)) init.
Definition applyKeepAbove r v init := apply_set v (above (sets r)) init.
Definition applyKeepBelow r v init := apply_set v (below (sets r)) init.
Definition applyFullScreen r v init := apply_set v (fullscreen (sets r)) init.
Definition applyDesktop r v init := apply_set v (desktop (sets r)) init.
Definition applyScreen r v init := apply_set v (screen (sets r)) init.
Definition applyNoBorder r v init := apply_set v (noborder (sets r)) init.
Definition applyShortcut r v init := apply_set v (shortcut (sets r)) init.
Definition applyDesktopFile r v init := apply_set v (desktopfile (sets r)) init.
Definition applyIgnoreGeometry r v init := apply_set v (ignoregeometry (sets r)) init.
Definition applyPlacement r v := apply_force v (placement (forces r)).
Definition applyMinSize r v := apply_force v (minsize (forces r)).
Definition applyMaxSize r v := apply_force v (maxsize (forces r)).
Definition applyOpacityActive r v := apply_force v (opacityactive (forces r)).
Definition applyOpacityInactive r v := apply_force v (opacityinactive (forces r)).
Definition applyType r v := apply_force v (type (forces r)).
Definition applyDecoColor r v := apply_force v (decocolor (forces r)).
Definition applyBlockCompositing r v := apply_force v (blockcompositing (forces r)).
Definition applyFSP r v := apply_force v (fsplevel (forces r)).
Definition applyFPP r v := apply_force v (fpplevel (forces r)).
Definition applyAcceptFocus r v := apply_force v (acceptfocus (forces r)).
Definition applyCloseable r v := apply_force v (closeable (forces r)).
Definition applyAutogrouping r v := apply_force v (autogroup (forces r)).
Definition applyAutogroupInForeground r v := apply_force v (autogroupfg (forces r)).
Definition applyAutogroupById r v := apply_force v (autogroupid (forces r)).
Definition applyStrictGeometry r v := apply_force v (strictgeometry (forces r)).
Definition applyDisableGlobalShortcuts r v := apply_force v (disableglobalshortcuts (forces r)).

(** The two directions add to the mode. *)
Definition apply_maximize (flag : Z) (ruler : set_ruler bool) (mode : Z) init : Z * bool :=
  (if checkSetRule (srule ruler) init && sdata ruler then Z.lor mode flag else mode,
   checkSetStop (srule ruler)).
Definition applyMaximizeHoriz r (mode : Z) init : Z * bool :=
  apply_maximize mode_horizontal (maximizehoriz (sets r)) mode init.
Definition applyMaximizeVert r (mode : Z) init : Z * bool :=
  apply_maximize mode_vertical (maximizevert (sets r)) mode init.

Definition isTemporary r : bool := 0 <? temporary_state r.

(** discardTemporary: [None] when the rule is deleted. *)
Definition discardTemporary r (force : bool) : option Rules :=
  if temporary_state r =? 0 then Some r
  else if force then None
  else let r1 := r <| temporary_state := temporary_state r - 1 |> in
       if temporary_state r1 =? 0 then None else Some r1.

Definition discard_used_set (withdrawn : bool) T (ruler : set_ruler T) : set_ruler T :=
  if (srule ruler =? ApplyNow) || (srule ruler =? ForceTemporarily) && withdrawn
  then mkSet (sdata ruler) Unused else ruler.
Definition discard_used_force (withdrawn : bool) T (ruler : force_ruler T) : force_ruler T :=
  if withdrawn && (frule ruler =? ForceTemporarily)
  then mkForce (fdata ruler) Unused else ruler.

(** discardUsed: the rule and whether it changed. *)
Definition discardUsed r (withdrawn : bool) : Rules * bool :=
  (r <| sets := map_sets (discard_used_set withdrawn) (sets r) |>
     <| forces := map_forces (discard_used_force withdrawn) (forces r) |>,
   existsb (fun v => (v =? ApplyNow) || (v =? ForceTemporarily) && withdrawn) (set_rules_of (sets r)) ||
   existsb (fun v => withdrawn && (v =? ForceTemporarily)) (force_rules_of (forces r))).
End Applying.

(** ** Remembering the values of a window *)

(** The bits of Rules::Type that select properties. *)
Definition sel_Position : Z := 2 ^ 0.
Definition sel_Size : Z := 2 ^ 1.
Definition sel_Desktop : Z := 2 ^ 2.
Definition sel_MaximizeVert : Z := 2 ^ 3.
Definition sel_MaximizeHoriz : Z := 2 ^ 4.
Definition sel_Minimize : Z := 2 ^ 5.
Definition sel_SkipTaskbar : Z := 2 ^ 7.
Definition sel_SkipPager : Z := 2 ^ 8.
Definition sel_SkipSwitcher : Z := 2 ^ 9.
Definition sel_Above : Z := 2 ^ 10.
Definition sel_Below : Z := 2 ^ 11.
Definition sel_Fullscreen : Z := 2 ^ 12.
Definition sel_NoBorder : Z := 2 ^ 13.
Definition sel_Activity : Z := 2 ^ 16.
Definition sel_Screen : Z := 2 ^ 17.
Definition sel_DesktopFile : Z := 2 ^ 18.
Definition sel_All : Z := 2 ^ 32 - 1.

Section Updating.
Variable selection : Z.
Variable w : RuleWindow.

Definition selected (flag : Z) {T} (ruler : set_ruler T) : bool :=
  mode_has selection flag && (srule ruler =? Remember).

(** The ruler with the value of the window, and whether that is a change. *)
Definition remember (flag : Z) {T} `{EqDecision T} (value : T) (ruler : set_ruler T) : set_ruler T * bool :=
  if selected flag ruler
  then (mkSet value (srule ruler), negb (bool_decide (sdata ruler = value)))
  else (ruler, false).

(** A direction in which the window is maximized keeps the old value; nothing is
    remembered of a fullscreen window. *)
Definition new_position (old : QPoint) : QPoint :=
  mkPoint (if mode_has (w_maximizeMode w) mode_horizontal then px old else px (w_pos w))
    (if mode_has (w_maximizeMode w) mode_vertical then py old else py (w_pos w)).
Definition new_size (old : QSize) : QSize :=
  mkSize (if mode_has (w_maximizeMode w) mode_horizontal then sw old else sw (w_size w))
    (if mode_has (w_maximizeMode w) mode_vertical then sh old else sh (w_size w)).
Definition remember_position (ruler : set_ruler QPoint) : set_ruler QPoint * bool :=
  if w_fullscreen w then (ruler, false)
  else remember sel_Position (new_position (sdata ruler)) ruler.
Definition remember_size (ruler : set_ruler QSize) : set_ruler QSize * bool :=
  if w_fullscreen w then (ruler, false)
  else remember sel_Size (new_size (sdata ruler)) ruler.

Definition update_sets (s : Sets) : Sets * bool :=
  let '(above', u1) := remember sel_Above (w_keep_above w) (above s) in
  let '(activity', u2) := remember sel_Activity (String.concat "," (w_activities w)) (activity s) in
  let '(below', u3) := remember sel_Below (w_keep_below w) (below s) in
  let '(desktop', u4) := remember sel_Desktop (w_desktop w) (desktop s) in
  let '(desktopfile', u5) := remember sel_DesktopFile (w_desktop_file_name w) (desktopfile s) in
  let '(fullscreen', u6) := remember sel_Fullscreen (w_fullscreen w) (fullscreen s) in
  let '(maximizehoriz', u7) :=
    remember sel_MaximizeHoriz (mode_has (w_maximizeMode w) mode_horizontal) (maximizehoriz s) in
  let '(maximizevert', u8) :=
    remember sel_MaximizeVert (mode_has (w_maximizeMode w) mode_vertical) (maximizevert s) in
  let '(minimize', u9) := remember sel_Minimize (w_minimized w) (minimize s) in
  let '(noborder', u10) := remember sel_NoBorder (w_noBorder w) (noborder s) in
  let '(position', u11) := remember_position (position s) in
  let '(screen', u12) := remember sel_Screen (w_screen w) (screen s) in
  let '(size', u13) := remember_size (size s) in
  let '(skippager', u14) := remember sel_SkipPager (w_skip_pager w) (skippager s) in
  let '(skipswitcher', u15) := remember sel_SkipSwitcher (w_skip_switcher w) (skipswitcher s) in
  let '(skiptaskbar', u16) := remember sel_SkipTaskbar (w_skip_taskbar w) (skiptaskbar s) in
  (mkSets above' activity' below' (ignoregeometry s) desktop' desktopfile' fullscreen' maximizehoriz'
     maximizevert' minimize' noborder' position' screen' (shortcut s) size' skippager' skipswitcher'
     skiptaskbar',
   existsb id [u1; u2; u3; u4; u5; u6; u7; u8; u9; u10; u11; u12; u13; u14; u15; u16]).

(** Rules::update. *)
Definition update (r : Rules) : Rules * bool :=
  let '(s, updated) := update_sets (sets r) in (r <| sets := s |>, updated).
End Updating.

(** ** WindowRules: the rules of one window, the most important first *)

Section Checks.
Variable rules : list Rules.
Implicit Types (init : bool).

Fixpoint check_set_in {T} (l : list Rules) (apply_call : Rules -> T -> bool -> T * bool)
    (data : T) init : T :=
  match l with
  | [] => data
  | rule :: l' =>
      let '(data', stop) := apply_call rule data init in
      if stop then data' else check_set_in l' apply_call data' init
  end.

Fixpoint check_force_in {T} (l : list Rules) (apply_call : Rules -> T -> T * bool) (data : T) : T :=
  match l with
  | [] => data
  | rule :: l' =>
      let '(data', stop) := apply_call rule data in
      if stop then data' else check_force_in l' apply_call data'
  end.

Definition check_set {T} (data : T) init apply_call : T := check_set_in rules apply_call data init.
Definition check_force {T} (data : T) apply_call : T := check_force_in rules apply_call data.

Definition checkPosition pos init := check_set pos init applyPosition.
Definition checkSize s init := check_set s init applySize.
Definition checkGeometry (rect : QRect) init : QRect :=
  rect_at (checkPosition (topLeft rect) init) (checkSize (Qt.size rect) init).
Definition checkIgnoreGeometry v init := check_set v init applyIgnoreGeometry.
Definition checkDesktop v init := check_set v init applyDesktop.
Definition checkActivity v init := check_set v init applyActivity.
Definition checkMaximizeVert v init := check_set v init applyMaximizeVert.
Definition checkMaximizeHoriz v init := check_set v init applyMaximizeHoriz.
Definition checkMinimize v init := check_set v init applyMinimize.
Definition checkSkipTaskbar v init := check_set v init applySkipTaskbar.
Definition checkSkipPager v init := check_set v init applySkipPager.
Definition checkSkipSwitcher v init := check_set v init applySkipSwitcher.
Definition checkKeepAbove v init := check_set v init applyKeepAbove.
Definition checkKeepBelow v init := check_set v init applyKeepBelow.
Definition checkFullScreen v init := check_set v init applyFullScreen.
Definition checkNoBorder v init := check_set v init applyNoBorder.
Definition checkShortcut v init := check_set v init applyShortcut.
Definition checkDesktopFile v init := check_set v init applyDesktopFile.
Definition checkPlacement v := check_force v applyPlacement.
Definition checkMinSize v := check_force v applyMinSize.
Definition checkMaxSize v := check_force v applyMaxSize.
Definition checkOpacityActive v := check_force v applyOpacityActive.
Definition checkOpacityInactive v := check_force v applyOpacityInactive.
Definition checkType v := check_force v applyType.
Definition checkDecoColor v := check_force v applyDecoColor.
Definition checkBlockCompositing v := check_force v applyBlockCompositing.
Definition checkFSP v := check_force v applyFSP.
Definition checkFPP v := check_force v applyFPP.
Definition checkAcceptFocus v := check_force v applyAcceptFocus.
Definition checkCloseable v := check_force v applyCloseable.
Definition checkAutogrouping v := check_force v applyAutogrouping.
Definition checkAutogroupInForeground v := check_force v applyAutogroupInForeground.
Definition checkAutogroupById v := check_force v applyAutogroupById.
Definition checkStrictGeometry v := check_force v applyStrictGeometry.
Definition checkDisableGlobalShortcuts v := check_force v applyDisableGlobalShortcuts.

Definition checkMaximize (mode : Z) init : Z :=
  Z.lor (Z.land (checkMaximizeVert mode init) mode_vertical)
    (Z.land (checkMaximizeHoriz mode init) mode_horizontal).

Definition checkScreen (screens : Z) (v : Z) init : Z :=
  let ret := check_set v init applyScreen in
  if screens <=? ret then v else ret.
End Checks.
End Rules.
