(* ===== verification/RuleBook.v ===== *)
(** * The rule book (src/rules/rule_book.cpp, rule_book_settings.cpp, src/win/setup.h, rules.h)

    The rule objects are shared: the book lists all of them, a window the ones that
    matched it. They live in a heap, and both lists hold references; a read through
    a reference to a deleted rule is [None]. Also here: storing the book in the
    settings and the timers that the book starts. *)

From S2P Require Import Prelude Qt Bytes Rules.

Module RuleBook.
Import Rules.

Abbreviation rid := nat (only parsing).
Abbreviation wid := nat (only parsing).

Record Book := mkBook {
  b_heap : gmap rid Rules;          (** the live rule objects *)
  b_next : rid;                     (** the next fresh reference *)
  m_rules : list rid;
  m_updatesDisabled : bool;
  m_updateTimer : bool;             (** saving is scheduled *)
  cleanup_timers : nat;             (** single shots of cleanupTemporaryRules *)
  config : option (list RuleSettings);    (** m_config: the groups "1" to count *)
  window_rules : gmap wid (list rid);     (** control's m_rules of each window *)
  caption_tracked : list wid;       (** windows that evaluate their rules on caption changes *)
}.
#[global] Instance Book_eta : RecordEta Book := fun b =>
  mkBook (b_heap b) (b_next b) (m_rules b) (m_updatesDisabled b) (m_updateTimer b)
    (cleanup_timers b) (config b) (window_rules b) (caption_tracked b).

Definition rules_of (w : wid) (b : Book) : list rid := default [] (window_rules b !! w).
Definition set_rules (w : wid) (l : list rid) (b : Book) : Book :=
  b <| window_rules := <[w := l]> (window_rules b) |>.

(** The rule objects behind references. *)
Definition deref (b : Book) (l : list rid) : option (list Rules) := mapM (fun id => b_heap b !! id) l.

Definition alloc (r : Rules) (b : Book) : Book * rid :=
  (b <| b_heap := <[b_next b := r]> (b_heap b) |> <| b_next := S (b_next b) |>, b_next b).

Definition free (id : rid) (b : Book) : Book := b <| b_heap := delete id (b_heap b) |>.

(** QVector::removeOne. *)
Fixpoint removeOne (id : rid) (l : list rid) : list rid :=
  match l with
  | [] => []
  | x :: l' => if (x =? id)%nat then l' else x :: removeOne id l'
  end.

Section Book.
Variable typeMatchesMask : Z -> Z -> bool.
Variable regexp_found : string -> string -> bool.
Variable locate : string -> string.
Variable windows : wid -> RuleWindow.
Implicit Types (b : Book) (w : wid) (id : rid) (l : list rid).

Definition matches (r : Rules) w : bool * bool :=
  rule_match typeMatchesMask regexp_found r (windows w).

(** *** Finding the rules of a window *)

(** The loop of find: the rules that stay in the book, those found, and whether
    a rule connected to changes of the caption. *)
Fixpoint find_in (heap : gmap rid Rules) w (ignore_temporary : bool) l
    : option (list rid * list rid * bool) :=
  match l with
  | [] => Some ([], [], false)
  | id :: l' =>
      r ← heap !! id;
      '(kept, found, tracked) ← find_in heap w ignore_temporary l';
      if ignore_temporary && isTemporary r then Some (id :: kept, found, tracked)
      else let '(matched, track) := matches r w in
           if matched
           then Some (if isTemporary r then kept else id :: kept, id :: found, track || tracked)
           else Some (id :: kept, found, track || tracked)
  end.

(** setup_rules. *)
Definition setup_rules w (ignore_temporary : bool) b : option Book :=
  '(kept, found, tracked) ← find_in (b_heap b) w ignore_temporary (m_rules b);
  let others := remove_all w (caption_tracked b) in
  Some (set_rules w found
          (b <| m_rules := kept |>
             <| caption_tracked := if tracked : bool then w :: others else others |>)).

(** *** Storing and loading *)

(** RuleBookSettings::setRules: the cached groups are reset before they are
    written; a new group has nothing stored, as saving deletes the groups above
    the count. *)
Fixpoint write_groups (rules : list Rules) (cached : list RuleSettings) : list RuleSettings :=
  match rules with
  | [] => cached
  | r :: rules' => write r default_settings :: write_groups rules' (tail cached)
  end.
Definition setRules (rules : list Rules) (cached : list RuleSettings) : list RuleSettings * nat :=
  (write_groups rules cached, length rules).

(** RuleBookSettings::rules. *)
Definition settings_rules (m_list : list RuleSettings) (count : nat) : list Rules :=
  readFromSettings locate 0 <$> take count m_list.

Definition save b : option Book :=
  let b1 := b <| m_updateTimer := false |> in
  match config b1 with
  | None => Some b1
  | Some groups =>
      rules ← deref b1 (m_rules b1);
      let '(m_list, count) := setRules (filter (fun r => isTemporary r = false) rules) groups in
      Some (b1 <| config := Some (take count m_list) |>)
  end.

Definition deleteAll b : Book :=
  (foldl (fun b id => free id b) b (m_rules b)) <| m_rules := [] |>.

Fixpoint alloc_all (rules : list Rules) b : Book * list rid :=
  match rules with
  | [] => (b, [])
  | r :: rules' =>
      let '(b1, id) := alloc r b in
      let '(b2, ids) := alloc_all rules' b1 in (b2, id :: ids)
  end.

(** load, where [file] is what the configuration file holds. *)
Definition load (file : list RuleSettings) b : Book :=
  let '(b1, ids) := alloc_all (settings_rules file (length file))
                      ((deleteAll b) <| config := Some file |>) in
  b1 <| m_rules := ids |>.

Definition requestDiskStorage b : Book := b <| m_updateTimer := true |>.

(** *** Temporary rules *)

Definition is_temporary_id b id : option bool := isTemporary <$> b_heap b !! id.

(** temporaryRulesMessage with the settings that the message holds. *)
Definition temporaryRulesMessage (message : RuleSettings) b : option Book :=
  temporaries ← mapM (is_temporary_id b) (m_rules b);
  let '(b1, id) := alloc (Rules_from_text locate message true) b in
  let b2 := b1 <| m_rules := id :: m_rules b1 |> in
  Some (if existsb (fun t : bool => t) temporaries then b2 else b2 <| cleanup_timers := S (cleanup_timers b2) |>).

Fixpoint cleanup_in l b : option (Book * list rid * bool) :=
  match l with
  | [] => Some (b, [], false)
  | id :: l' =>
      r ← b_heap b !! id;
      match discardTemporary r false with
      | None => cleanup_in l' (free id b)
      | Some r' =>
          '(b2, kept, has_temporary) ← cleanup_in l' (b <| b_heap := <[id := r']> (b_heap b) |>);
          Some (b2, id :: kept, isTemporary r' || has_temporary)
      end
  end.

(** cleanupTemporaryRules, when its single shot fires. *)
Definition cleanupTemporaryRules b : option Book :=
  '(b1, kept, has_temporary) ← cleanup_in (m_rules b) (b <| cleanup_timers := pred (cleanup_timers b) |>);
  let b2 := b1 <| m_rules := kept |> in
  Some (if has_temporary : bool then b2 <| cleanup_timers := S (cleanup_timers b2) |> else b2).

(** WindowRules::discardTemporary of a window. *)
Fixpoint discard_temporary_in l b : option (Book * list rid) :=
  match l with
  | [] => Some (b, [])
  | id :: l' =>
      r ← b_heap b !! id;
      match discardTemporary r true with
      | None => discard_temporary_in l' (free id b)
      | Some _ => '(b2, kept) ← discard_temporary_in l' b; Some (b2, id :: kept)
      end
  end.

Definition discard_temporary_rules w b : option Book :=
  '(b1, kept) ← discard_temporary_in (rules_of w b) b; Some (set_rules w kept b1).

(** *** Used rules *)

(** The loop of discardUsed: the rules that stay in the book, and whether one
    changed. *)
Fixpoint discard_used_in w (withdrawn : bool) l b : option (Book * list rid * bool) :=
  match l with
  | [] => Some (b, [], false)
  | id :: l' =>
      if contains (rules_of w b) id then
        r ← b_heap b !! id;
        let '(r', changed) := discardUsed r withdrawn in
        let b1 := b <| b_heap := <[id := r']> (b_heap b) |> in
        if isEmpty r' then
          let b2 := free id (set_rules w (removeOne id (rules_of w b1)) b1) in
          '(b3, kept, updated) ← discard_used_in w withdrawn l' b2;
          Some (b3, kept, changed || updated)
        else
          '(b3, kept, updated) ← discard_used_in w withdrawn l' b1;
          Some (b3, id :: kept, changed || updated)
      else
        '(b3, kept, updated) ← discard_used_in w withdrawn l' b;
        Some (b3, id :: kept, updated)
  end.

Definition book_discardUsed w (withdrawn : bool) b : option Book :=
  '(b1, kept, updated) ← discard_used_in w withdrawn (m_rules b) b;
  let b2 := b1 <| m_rules := kept |> in
  Some (if updated : bool then requestDiskStorage b2 else b2).

(** *** Remembering *)

(** WindowRules::update. *)
Fixpoint update_in w (selection : Z) l b : option (Book * bool) :=
  match l with
  | [] => Some (b, false)
  | id :: l' =>
      r ← b_heap b !! id;
      let '(r', updated) := update selection (windows w) r in
      '(b2, rest) ← update_in w selection l' (b <| b_heap := <[id := r']> (b_heap b) |>);
      Some (b2, updated || rest)
  end.

Definition window_update w (selection : Z) b : option Book :=
  '(b1, updated) ← update_in w selection (rules_of w b) b;
  Some (if updated : bool then requestDiskStorage b1 else b1).

(** Toplevel::updateWindowRules. *)
Definition updateWindowRules w (selection : Z) b : option Book :=
  if m_updatesDisabled b then Some b else window_update w selection b.

Definition setUpdatesDisabled (disable : bool) (allClientList : list wid) b : option Book :=
  let b1 := b <| m_updatesDisabled := disable |> in
  if disable then Some b1
  else foldl (fun ob w => b ← ob; updateWindowRules w sel_All b) (Some b1) allClientList.

(** win::finish_rules. *)
Definition finish_rules w b : option Book :=
  b1 ← updateWindowRules w sel_All b; Some (set_rules w [] b1).
End Book.
End RuleBook.
