(* ===== verification/RulesProps.v ===== *)
(** * Properties of the window rules

    Rules survive being written to and read from the settings; the first used rule
    of a window decides a property; remembered values come back for the next
    window; used rules are discarded once. *)

From Stdlib Require Import Ascii.
From S2P Require Import Prelude Qt Bytes Rules.

Module RulesProps.
Import Qt Bytes Rules.

(** ** Equivalent rules

    A value without a rule is never read: rules are compared up to such values and
    up to their temporary state. *)

Definition set_equiv T (a b : set_ruler T) : Prop :=
  srule a = srule b /\ (srule a <> Unused -> sdata a = sdata b).
Definition force_equiv T (a b : force_ruler T) : Prop :=
  frule a = frule b /\ (frule a <> Unused -> fdata a = fdata b).

Definition all_sets2 (R : forall T, set_ruler T -> set_ruler T -> Prop) (a b : Sets) : Prop :=
  R _ (above a) (above b) /\ R _ (activity a) (activity b) /\ R _ (below a) (below b) /\
  R _ (ignoregeometry a) (ignoregeometry b) /\ R _ (desktop a) (desktop b) /\
  R _ (desktopfile a) (desktopfile b) /\ R _ (fullscreen a) (fullscreen b) /\
  R _ (maximizehoriz a) (maximizehoriz b) /\ R _ (maximizevert a) (maximizevert b) /\
  R _ (minimize a) (minimize b) /\ R _ (noborder a) (noborder b) /\
  R _ (position a) (position b) /\ R _ (screen a) (screen b) /\ R _ (shortcut a) (shortcut b) /\
  R _ (size a) (size b) /\ R _ (skippager a) (skippager b) /\
  R _ (skipswitcher a) (skipswitcher b) /\ R _ (skiptaskbar a) (skiptaskbar b).

Definition all_forces2 (R : forall T, force_ruler T -> force_ruler T -> Prop) (a b : Forces) : Prop :=
  R _ (acceptfocus a) (acceptfocus b) /\ R _ (autogroup a) (autogroup b) /\
  R _ (autogroupfg a) (autogroupfg b) /\ R _ (autogroupid a) (autogroupid b) /\
  R _ (blockcompositing a) (blockcompositing b) /\ R _ (closeable a) (closeable b) /\
  R _ (decocolor a) (decocolor b) /\ R _ (disableglobalshortcuts a) (disableglobalshortcuts b) /\
  R _ (fpplevel a) (fpplevel b) /\ R _ (fsplevel a) (fsplevel b) /\
  R _ (maxsize a) (maxsize b) /\ R _ (minsize a) (minsize b) /\
  R _ (opacityactive a) (opacityactive b) /\ R _ (opacityinactive a) (opacityinactive b) /\
  R _ (placement a) (placement b) /\ R _ (strictgeometry a) (strictgeometry b) /\
  R _ (type a) (type b).

Definition rules_equiv (a b : Rules) : Prop :=
  wmclass a = wmclass b /\ windowrole a = windowrole b /\ clientmachine a = clientmachine b /\
  title a = title b /\ description a = description b /\ wmclasscomplete a = wmclasscomplete b /\
  types a = types b /\ all_sets2 set_equiv (sets a) (sets b) /\
  all_forces2 force_equiv (forces a) (forces b).

Lemma set_equiv_unused T (a b : set_ruler T) : srule a = Unused -> srule b = Unused -> set_equiv T a b.
Proof. intros Ha Hb. split; [congruence|done]. Qed.
Lemma force_equiv_unused T (a b : force_ruler T) :
  frule a = Unused -> frule b = Unused -> force_equiv T a b.
Proof. intros Ha Hb. split; [congruence|done]. Qed.

(** Equivalent rules match the same windows and apply alike. *)
#[export] Instance rule_match_proper types_mask regexp :
  Proper (rules_equiv ==> eq ==> eq) (rule_match types_mask regexp).
Proof.
  intros a b (E1 & E2 & E3 & E4 & _ & E5 & E6 & _) w _ <-.
  unfold rule_match, matchType, matchWMClass, matchRole, matchClientMachine, matchTitle.
  by rewrite E1, E2, E3, E4, E5, E6.
Qed.

#[export] Instance apply_set_proper T : Proper (eq ==> set_equiv T ==> eq ==> eq) apply_set.
Proof.
  intros v _ <- [d1 r1] [d2 r2] [Hr Hd] init _ <-. simpl in *. subst r2. unfold apply_set. simpl.
  destruct (Z.eq_dec r1 Unused) as [->|Hne]; [done|]. by rewrite Hd.
Qed.

#[export] Instance apply_force_proper T : Proper (eq ==> force_equiv T ==> eq) apply_force.
Proof.
  intros v _ <- [d1 r1] [d2 r2] [Hr Hd]. simpl in *. subst r2. unfold apply_force. simpl.
  destruct (Z.eq_dec r1 Unused) as [->|Hne]; [done|]. by rewrite Hd.
Qed.

(** ** Writing and reading *)

(** What the entries' ranges allow. *)
Definition match_ok (m : string_match) : Prop := UnimportantMatch <= mmatch m <= RegExpMatch.
Definition settings_ok (s : RuleSettings) : Prop :=
  match_ok (st_wmclass s) /\ match_ok (st_windowrole s) /\ match_ok (st_title s) /\
  match_ok (st_clientmachine s) /\
  Forall (fun v => Unused <= v <= ForceTemporarily) (set_rules_of (st_sets s)) /\
  0 <= fdata (fpplevel (st_forces s)) <= 4 /\ 0 <= fdata (fsplevel (st_forces s)) <= 4 /\
  0 <= fdata (opacityactive (st_forces s)) <= 100 /\
  0 <= fdata (opacityinactive (st_forces s)) <= 100 /\
  (fdata (type (st_forces s)) = NET_Unknown \/
   NET_Normal <= fdata (type (st_forces s)) <= NET_Splash).

(** The file that is located has the name asked for. *)
Definition locate_ok (locate : string -> string) : Prop :=
  forall name, locate name = "" \/ exists dir, locate name = dir +:+ String "/" name.

(** A theme name without a dot or a directory. *)
Definition plain_name (s : string) : Prop :=
  all_chars (fun c => negb (Ascii.eqb c ".")) s = true /\
  all_chars (fun c => negb (Ascii.eqb c "/")) s = true.

(** The path of a color scheme with a plain name. *)
Definition located (locate : string -> string) (color : string) : Prop :=
  exists name, plain_name name /\ color = getDecoColor locate name /\ color <> "".

(** What reading establishes of the values in use. *)
Definition rule_ok (locate : string -> string) (r : Rules) : Prop :=
  (match_ok (wmclass r) /\ match_ok (windowrole r) /\ match_ok (clientmachine r) /\
   match_ok (title r) /\ toLower (mdata (wmclass r)) = mdata (wmclass r) /\
   toLower (mdata (windowrole r)) = mdata (windowrole r) /\
   toLower (mdata (clientmachine r)) = mdata (clientmachine r)) /\
  Forall (fun v => Unused <= v <= ForceTemporarily) (set_rules_of (sets r)) /\
  (srule (size (sets r)) <> Unused -> srule (size (sets r)) <> Remember ->
   size_isEmpty (sdata (size (sets r))) = false) /\
  (frule (fpplevel (forces r)) <> Unused -> 0 <= fdata (fpplevel (forces r)) <= 4) /\
  (frule (fsplevel (forces r)) <> Unused -> 0 <= fdata (fsplevel (forces r)) <= 4) /\
  (frule (opacityactive (forces r)) <> Unused -> 0 <= fdata (opacityactive (forces r)) <= 100) /\
  (frule (opacityinactive (forces r)) <> Unused -> 0 <= fdata (opacityinactive (forces r)) <= 100) /\
  (frule (type (forces r)) <> Unused -> NET_Normal <= fdata (type (forces r)) <= NET_Splash) /\
  (frule (maxsize (forces r)) <> Unused -> size_isEmpty (fdata (maxsize (forces r))) = false) /\
  (frule (minsize (forces r)) <> Unused -> size_isValid (fdata (minsize (forces r))) = true) /\
  (frule (decocolor (forces r)) <> Unused -> located locate (fdata (decocolor (forces r)))).

Lemma clamp_id lo hi v : lo <= v <= hi -> clamp lo hi v = v.
Proof. unfold clamp. intros ?. by rewrite !(proj2 (Z.ltb_ge _ _)) by lia. Qed.

Lemma lower_char_idem c : lower_char (lower_char c) = lower_char c.
Proof. by destruct c as [[] [] [] [] [] [] [] []]. Qed.

Lemma toLower_idem s : toLower (toLower s) = toLower s.
Proof. induction s as [|c s IH]; [done|]. simpl. by rewrite lower_char_idem, IH. Qed.

Lemma write_set_equiv T (a st : set_ruler T) :
  Unused <= srule a <= ForceTemporarily -> set_equiv T a (write_set a st).
Proof.
  intros Hr. unfold set_equiv, write_set. simpl. rewrite clamp_id by done. split; [done|].
  intros Hne. by rewrite (proj2 (Z.eqb_neq _ _)) by done.
Qed.

Lemma write_force_equiv T (f : T -> T) (a st : force_ruler T) :
  (frule a <> Unused -> f (fdata a) = fdata a) -> force_equiv T a (convert_write_force f a st).
Proof.
  intros Hf. unfold force_equiv, convert_write_force. simpl. split; [done|].
  intros Hne. rewrite (proj2 (Z.eqb_neq _ _)) by done. symmetry. auto.
Qed.

Lemma read_write_bytes force m :
  match_ok m -> toLower (mdata m) = mdata m ->
  read_bytes_match (write_string force m (mkMatch "" 0)) = m.
Proof.
  destruct m as [d v]. cbn [mdata]. intros Hm Hl. unfold read_bytes_match, write_string. simpl.
  rewrite clamp_id by done.
  destruct (String.eqb_spec d "") as [->|]; simpl; [by destruct force|]. by rewrite Hl.
Qed.

Lemma write_title m : match_ok m -> write_string false m (mkMatch "" 0) = m.
Proof.
  intros Hm. unfold write_string. rewrite clamp_id by done. destruct m as [d v]. simpl.
  destruct (String.eqb_spec d "") as [->|]; done.
Qed.

(** The size is the one set property that reading may change. *)
Definition read_size (r : set_ruler QSize) : set_ruler QSize :=
  if size_isEmpty (sdata r) && negb (srule r =? Remember) then mkSet (sdata r) Unused else r.

Lemma read_size_equiv r st :
  Unused <= srule r <= ForceTemporarily ->
  (srule r <> Unused -> srule r <> Remember -> size_isEmpty (sdata r) = false) ->
  size_isEmpty (sdata st) = true -> set_equiv _ r (read_size (write_set r st)).
Proof.
  destruct r as [d v]. cbn [srule sdata]. intros Hr Hd Hst. unfold read_size, write_set.
  cbn [srule sdata]. rewrite clamp_id by done.
  destruct (Z.eqb_spec v Unused) as [->|Hne]; [apply set_equiv_unused; [done|by rewrite Hst]|].
  destruct (Z.eqb_spec v Remember) as [->|Hne']; [by rewrite andb_false_r|]. by rewrite Hd.
Qed.

Lemma write_sets_equiv locate r :
  rule_ok locate r -> all_sets2 set_equiv (sets r) (read_sets (write_sets (sets r) default_sets)).
Proof.
  intros (_ & Hst & Hsize & _). unfold set_rules_of in Hst. rewrite !Forall_cons in Hst.
  unfold all_sets2. split_and!.
  all: first [ apply (read_size_equiv (size (sets r)) (size default_sets)); [tauto|done..]
             | apply write_set_equiv; tauto ].
Qed.

(** *** The color scheme *)

Lemma endsWith_app s t : endsWith (s +:+ t) t = true.
Proof.
  induction s as [|c s IH].
  - change ("" +:+ t) with t. destruct t; simpl; by rewrite ?Ascii.eqb_refl, ?String.eqb_refl.
  - rewrite string_app_cons. simpl. rewrite IH. apply orb_true_r.
Qed.

Lemma baseName_scheme dir name :
  plain_name name -> baseName (dir +:+ String "/" ("color-schemes/" +:+ (name +:+ ".colors"))) = name.
Proof.
  intros [Hdot Hslash]. unfold baseName, file_name.
  change ("color-schemes/" +:+ (name +:+ ".colors")) with
    ("color-schemes" +:+ String "/" (name +:+ ".colors")).
  change (String "/" ("color-schemes" +:+ String "/" (name +:+ ".colors"))) with
    ("/color-schemes" +:+ String "/" (name +:+ ".colors")).
  rewrite <- string_app_assoc, last_split_app, split_no_sep.
  - simpl. by apply take_while_app.
  - rewrite all_chars_app, Hslash. done.
Qed.

Lemma colorToString_located locate name :
  locate_ok locate -> plain_name name -> name <> "" ->
  getDecoColor locate name <> "" -> colorToString (getDecoColor locate name) = name.
Proof.
  intros Hloc Hname Hne Hfound. unfold getDecoColor in *.
  destruct (String.eqb_spec name ""); [done|].
  destruct (Hloc ("color-schemes/" +:+ (name +:+ ".colors"))) as [?|(dir & E)]; [done|].
  rewrite E. unfold colorToString.
  assert (endsWith (dir +:+ String "/" ("color-schemes/" +:+ (name +:+ ".colors"))) ".colors" = true) as ->.
  { change (String "/" ("color-schemes/" +:+ (name +:+ ".colors"))) with
      ("/color-schemes/" +:+ (name +:+ ".colors")).
    rewrite <- !string_app_assoc. apply endsWith_app. }
  by apply baseName_scheme.
Qed.

Definition read_color (locate : string -> string) (r : force_ruler string) : force_ruler string :=
  let color := getDecoColor locate (fdata r) in
  mkForce color (if String.eqb color "" then Unused else frule r).

Lemma read_color_equiv locate r :
  locate_ok locate -> (frule r <> Unused -> located locate (fdata r)) ->
  force_equiv _ r (read_color locate (convert_write_force colorToString r (mkForce "" 0))).
Proof.
  intros Hloc Hr. destruct r as [color v]. unfold read_color, convert_write_force.
  cbn [fdata frule] in *. destruct (Z.eqb_spec v Unused) as [->|Hv]; [done|].
  destruct (Hr Hv) as (name & Hname & -> & Hfound).
  assert (name <> "") as Hne by (by intros ->).
  rewrite colorToString_located by done.
  destruct (String.eqb_spec (getDecoColor locate name) ""); done.
Qed.

Definition read_max (r : force_ruler QSize) : force_ruler QSize :=
  if size_isEmpty (fdata r) then mkForce (mkSize 32767 32767) (frule r) else r.
Definition read_min (r : force_ruler QSize) : force_ruler QSize :=
  if size_isValid (fdata r) then r else mkForce (mkSize 1 1) (frule r).
Definition read_type (r : force_ruler Z) : force_ruler Z :=
  if fdata r =? NET_Unknown then mkForce (fdata r) Unused else r.

Lemma read_max_equiv r st :
  (frule r <> Unused -> size_isEmpty (fdata r) = false) ->
  force_equiv _ r (read_max (write_force r st)).
Proof.
  destruct r as [d v]. unfold read_max, write_force, convert_write_force. cbn [fdata frule].
  intros Hd. destruct (Z.eqb_spec v Unused) as [->|Hne]; [apply force_equiv_unused; [done|by destruct (size_isEmpty (fdata st))]|].
  unfold id. by rewrite Hd.
Qed.

Lemma read_min_equiv r st :
  (frule r <> Unused -> size_isValid (fdata r) = true) ->
  force_equiv _ r (read_min (write_force r st)).
Proof.
  destruct r as [d v]. unfold read_min, write_force, convert_write_force. cbn [fdata frule].
  intros Hd. destruct (Z.eqb_spec v Unused) as [->|Hne]; [apply force_equiv_unused; [done|by destruct (size_isValid (fdata st))]|].
  unfold id. by rewrite Hd.
Qed.

Lemma read_type_equiv r st :
  (frule r <> Unused -> NET_Normal <= fdata r <= NET_Splash) ->
  force_equiv _ r (read_type (convert_write_force (clamp NET_Normal NET_Splash) r st)).
Proof.
  destruct r as [d v]. unfold read_type, convert_write_force. cbn [fdata frule]. intros Hd.
  destruct (Z.eqb_spec v Unused) as [->|Hne]; [apply force_equiv_unused; [done|by destruct (fdata st =? NET_Unknown)]|].
  rewrite clamp_id by auto. specialize (Hd Hne). unfold NET_Normal, NET_Unknown in *.
  by rewrite (proj2 (Z.eqb_neq _ _)) by lia.
Qed.

Lemma write_forces_equiv locate r :
  locate_ok locate -> rule_ok locate r ->
  all_forces2 force_equiv (forces r) (read_forces locate (write_forces (forces r) default_forces)).
Proof.
  intros Hloc (_ & _ & _ & Hfpp & Hfsp & Hoa & Hoi & Hty & Hmax & Hmin & Hcol).
  unfold all_forces2. split_and!.
  all: first
    [ by apply (read_color_equiv locate)
    | by apply (read_max_equiv (maxsize (forces r)))
    | by apply (read_min_equiv (minsize (forces r)))
    | by apply (read_type_equiv (type (forces r)))
    | by (apply write_force_equiv; intros ?; apply clamp_id; auto)
    | by (apply write_force_equiv) ].
Qed.

(** Writing a rule and reading it back gives an equivalent rule. *)
Lemma read_write_equiv locate t r :
  locate_ok locate -> rule_ok locate r ->
  rules_equiv r (readFromSettings locate t (write r default_settings)).
Proof.
  intros Hloc Hr. pose proof (write_forces_equiv locate r Hloc Hr) as Hforces.
  pose proof (write_sets_equiv locate r Hr) as Hsets.
  destruct Hr as ((Hwc & Hwr & Hcm & Hti & Lwc & Lwr & Lcm) & _).
  unfold rules_equiv. split_and!; [..|exact Hsets|exact Hforces]; try done.
  - symmetry. by apply read_write_bytes.
  - symmetry. by apply read_write_bytes.
  - symmetry. by apply read_write_bytes.
  - symmetry. by apply write_title.
  - change (description r = if String.eqb (description r) "" then "" else description r).
    by destruct (String.eqb_spec (description r) "") as [E|E].
Qed.

(** A located scheme, for any name. *)
Definition sample_locate (name : string) : string := "/usr/share/" +:+ name.

(** A rule that keeps a window above, remembers its size and forces a scheme. *)
Definition sample_settings : RuleSettings :=
  mkSettings "Konsole" "" (mkMatch "Konsole" ExactMatch) false (mkMatch "" 0) (mkMatch "" 0)
    (mkMatch "" 0) AllTypesMask
    (mkSets (mkSet true Force) (mkSet "" 0) (mkSet false 0) (mkSet false 0) (mkSet 0 0)
       (mkSet "" 0) (mkSet false 0) (mkSet false 0) (mkSet false 0) (mkSet false 0)
       (mkSet false 0) (mkSet invalidPoint 0) (mkSet 0 0) (mkSet "" 0)
       (mkSet (mkSize 800 600) Remember) (mkSet false 0) (mkSet false 0) (mkSet false 0))
    (mkForces (mkForce false 0) (mkForce false 0) (mkForce true 0) (mkForce "" 0) (mkForce false 0)
       (mkForce false 0) (mkForce "Breeze" Force) (mkForce false 0) (mkForce 0 0) (mkForce 0 0)
       (mkForce (mkSize (-1) (-1)) 0) (mkForce (mkSize (-1) (-1)) 0) (mkForce 0 0) (mkForce 0 0)
       (mkForce Smart 0) (mkForce false 0) (mkForce NET_Unknown 0)).

(** A color scheme whose name has a dot is lost when the rule is saved: the base
    name of its file ends at the first dot. *)
Definition dotted_locate (name : string) : string :=
  if String.eqb name "color-schemes/Breeze.Dark.colors" then "/usr/share/" +:+ name else "".

Theorem dotted_scheme_lost :
  let s := sample_settings <| st_forces := default_forces |> in
  let dotted := mkForces (mkForce false 0) (mkForce false 0) (mkForce true 0) (mkForce "" 0)
    (mkForce false 0) (mkForce false 0) (mkForce "Breeze.Dark" Force) (mkForce false 0)
    (mkForce 0 0) (mkForce 0 0) (mkForce (mkSize (-1) (-1)) 0) (mkForce (mkSize (-1) (-1)) 0)
    (mkForce 0 0) (mkForce 0 0) (mkForce Smart 0) (mkForce false 0) (mkForce NET_Unknown 0) in
  let r := readFromSettings dotted_locate 0 (s <| st_forces := dotted |>) in
  let r' := readFromSettings dotted_locate 0 (write r default_settings) in
  frule (decocolor (forces r)) = Force /\ frule (decocolor (forces r')) = Unused.
Proof. by vm_compute. Qed.

(** ** The first used rule decides *)

Definition first_used {T} (ruler : Rules -> set_ruler T) (l : list Rules) : option (set_ruler T) :=
  ruler <$> head (filter (fun r => srule (ruler r) <> Unused) l).
Definition first_used_force {T} (ruler : Rules -> force_ruler T) (l : list Rules) : option (force_ruler T) :=
  ruler <$> head (filter (fun r => frule (ruler r) <> Unused) l).

(** For every property that a window's rules set or force, the checked value is
    decided by the first rule of the window that uses the property: its value if
    its kind of rule applies (Force, ApplyNow and ForceTemporarily always, Apply and
    Remember only when the window is set up), the given value otherwise, whatever
    the later rules say; without such a rule the value stays. *)
Theorem first_used_decides T (ruler : Rules -> set_ruler T) (fruler : Rules -> force_ruler T)
    (l : list Rules) (v : T) init :
  check_set l v init (fun r v i => apply_set v (ruler r) i) =
    match first_used ruler l with
    | Some s => if checkSetRule (srule s) init then sdata s else v
    | None => v
    end /\
  check_force l v (fun r v => apply_force v (fruler r)) =
    match first_used_force fruler l with
    | Some s => if checkForceRule (frule s) then fdata s else v
    | None => v
    end.
Proof.
  unfold check_set, check_force, first_used, first_used_force. split.
  - induction l as [|r l IH]; [done|]. rewrite filter_cons. cbn [check_set_in].
    unfold apply_set at 1, checkSetStop.
    destruct (Z.eqb_spec (srule (ruler r)) Unused) as [E|E]; cbn [negb].
    + rewrite decide_False by auto. by rewrite <- IH, E.
    + by rewrite decide_True.
  - induction l as [|r l IH]; [done|]. rewrite filter_cons. cbn [check_force_in].
    unfold apply_force at 1, checkForceStop.
    destruct (Z.eqb_spec (frule (fruler r)) Unused) as [E|E]; cbn [negb].
    + rewrite decide_False by auto. by rewrite <- IH, E.
    + by rewrite decide_True.
Qed.

(** ** Remembered values *)

Lemma remember_apply flag T `{EqDecision T} (value v : T) ruler :
  mode_has sel_All flag = true -> srule ruler = Remember ->
  apply_set v (fst (remember sel_All flag value ruler)) true = (value, true).
Proof. intros Hf Hr. unfold remember, selected. rewrite Hf, Hr. done. Qed.

Lemma remember_twice flag T `{EqDecision T} (value : T) ruler :
  remember sel_All flag value (fst (remember sel_All flag value ruler)) =
  (fst (remember sel_All flag value ruler), false).
Proof.
  unfold remember at 2 3. destruct (selected sel_All flag ruler) eqn:E; cbn; unfold remember.
  - unfold selected in *. cbn. rewrite E. cbn. by rewrite bool_decide_true.
  - by rewrite E.
Qed.

Lemma remember_rule sel flag T `{EqDecision T} (value : T) ruler :
  srule (fst (remember sel flag value ruler)) = srule ruler.
Proof. unfold remember. by destruct (selected _ _ _). Qed.

Lemma remember_position_rule sel w ruler :
  srule (fst (remember_position sel w ruler)) = srule ruler.
Proof. unfold remember_position. destruct (w_fullscreen w); [done|apply remember_rule]. Qed.

Lemma remember_size_rule sel w ruler : srule (fst (remember_size sel w ruler)) = srule ruler.
Proof. unfold remember_size. destruct (w_fullscreen w); [done|apply remember_rule]. Qed.

Lemma update_fields sel w r :
  let r' := fst (update sel w r) in
  forces r' = forces r /\ ignoregeometry (sets r') = ignoregeometry (sets r) /\
  shortcut (sets r') = shortcut (sets r) /\
  above (sets r') = fst (remember sel sel_Above (w_keep_above w) (above (sets r))) /\
  activity (sets r') =
    fst (remember sel sel_Activity (String.concat "," (w_activities w)) (activity (sets r))) /\
  below (sets r') = fst (remember sel sel_Below (w_keep_below w) (below (sets r))) /\
  desktop (sets r') = fst (remember sel sel_Desktop (w_desktop w) (desktop (sets r))) /\
  desktopfile (sets r') =
    fst (remember sel sel_DesktopFile (w_desktop_file_name w) (desktopfile (sets r))) /\
  fullscreen (sets r') = fst (remember sel sel_Fullscreen (w_fullscreen w) (fullscreen (sets r))) /\
  minimize (sets r') = fst (remember sel sel_Minimize (w_minimized w) (minimize (sets r))) /\
  noborder (sets r') = fst (remember sel sel_NoBorder (w_noBorder w) (noborder (sets r))) /\
  screen (sets r') = fst (remember sel sel_Screen (w_screen w) (screen (sets r))) /\
  skippager (sets r') = fst (remember sel sel_SkipPager (w_skip_pager w) (skippager (sets r))) /\
  skipswitcher (sets r') =
    fst (remember sel sel_SkipSwitcher (w_skip_switcher w) (skipswitcher (sets r))) /\
  skiptaskbar (sets r') =
    fst (remember sel sel_SkipTaskbar (w_skip_taskbar w) (skiptaskbar (sets r))) /\
  position (sets r') = fst (remember_position sel w (position (sets r))) /\
  size (sets r') = fst (remember_size sel w (size (sets r))) /\
  set_rules_of (sets r') = set_rules_of (sets r).
Proof.
  unfold update, update_sets.
  repeat match goal with |- context [remember ?a ?b ?c ?d] =>
    pose proof (remember_rule a b _ c d); destruct (remember a b c d) end.
  pose proof (remember_position_rule sel w (position (sets r))).
  destruct (remember_position sel w (position (sets r))).
  pose proof (remember_size_rule sel w (size (sets r))).
  destruct (remember_size sel w (size (sets r))). cbn in *. split_and!; try done.
  unfold set_rules_of. cbn. congruence.
Qed.

(** A property with a Remember rule comes back at the next set up. *)
Definition comes_back {T} (ruler : Rules -> set_ruler T) (value : T)
    (apply_call : Rules -> T -> bool -> T * bool) (r r' : Rules) : Prop :=
  srule (ruler r) = Remember -> forall v, apply_call r' v true = (value, true).

Lemma comes_back_intro flag T `{EqDecision T} (ruler : Rules -> set_ruler T) (value : T) r r' :
  mode_has sel_All flag = true -> ruler r' = fst (remember sel_All flag value (ruler r)) ->
  comes_back ruler value (fun r v i => apply_set v (ruler r) i) r r'.
Proof. intros Hf E Hr v. rewrite E. by apply remember_apply. Qed.


(** Two windows of a rule that remembers keep above, position and size. *)
Definition sample_rule : Rules :=
  let r := readFromSettings sample_locate 0 sample_settings in
  r <| sets := mkSets (mkSet true Remember) (mkSet "" 0) (mkSet false 0) (mkSet false 0) (mkSet 0 0)
       (mkSet "" 0) (mkSet false 0) (mkSet false 0) (mkSet false 0) (mkSet false 0)
       (mkSet false 0) (mkSet invalidPoint Remember) (mkSet 0 0) (mkSet "" 0)
       (mkSet (mkSize 800 600) Remember) (mkSet false 0) (mkSet false 0) (mkSet false 0) |>.

Definition sample_window : RuleWindow :=
  mkRuleWindow 0 "konsole" "konsole" "main" "localhost" true "Konsole" false false [] 1 "konsole"
    false mode_vertical false false (mkPoint 10 20) 0 (mkSize 300 1000) false false false.

(** A vertically maximized window leaves the remembered height alone. *)
Example remembered_size :
  fst (applySize (fst (update sel_All sample_window sample_rule)) (mkSize 1 1) true) = mkSize 300 600.
Proof. by vm_compute. Qed.

(** ** Used rules *)

Definition used_up (withdrawn : bool) (rule : Z) : Prop :=
  rule = ApplyNow \/ rule = ForceTemporarily /\ withdrawn = true.

Definition set_discarded (withdrawn : bool) T (a b : set_ruler T) : Prop :=
  sdata b = sdata a /\ ~ used_up withdrawn (srule b) /\
  (srule b = srule a \/ used_up withdrawn (srule a) /\ srule b = Unused).
Definition force_discarded (withdrawn : bool) T (a b : force_ruler T) : Prop :=
  fdata b = fdata a /\ ~ (frule b = ForceTemporarily /\ withdrawn = true) /\
  (frule b = frule a \/ (frule a = ForceTemporarily /\ withdrawn = true) /\ frule b = Unused).

Lemma discard_used_set_spec withdrawn T (a : set_ruler T) :
  set_discarded withdrawn T a (discard_used_set withdrawn T a).
Proof.
  destruct a as [d v]. unfold set_discarded, discard_used_set, used_up.
  unfold ApplyNow, ForceTemporarily, Unused. cbn [sdata srule].
  destruct (Z.eqb_spec v 5), (Z.eqb_spec v 6), withdrawn; cbn; intuition (lia || congruence).
Qed.

Lemma discard_used_force_spec withdrawn T (a : force_ruler T) :
  force_discarded withdrawn T a (discard_used_force withdrawn T a).
Proof.
  destruct a as [d v]. unfold force_discarded, discard_used_force.
  unfold ForceTemporarily, Unused. cbn [fdata frule].
  destruct (Z.eqb_spec v 6), withdrawn; cbn; intuition (lia || congruence).
Qed.

Lemma map_sets_spec (f : forall T, set_ruler T -> set_ruler T) R s :
  (forall T (x : set_ruler T), R T x (f T x)) -> all_sets2 R s (map_sets f s).
Proof. intros Hf. unfold all_sets2. cbn. split_and!; apply Hf. Qed.

Lemma map_forces_spec (f : forall T, force_ruler T -> force_ruler T) R s :
  (forall T (x : force_ruler T), R T x (f T x)) -> all_forces2 R s (map_forces f s).
Proof. intros Hf. unfold all_forces2. cbn. split_and!; apply Hf. Qed.

Lemma set_used_id withdrawn T (a : set_ruler T) :
  (srule a =? ApplyNow) || (srule a =? ForceTemporarily) && withdrawn = false ->
  discard_used_set withdrawn T a = a.
Proof. unfold discard_used_set. by intros ->. Qed.

Lemma force_used_id withdrawn T (a : force_ruler T) :
  withdrawn && (frule a =? ForceTemporarily) = false -> discard_used_force withdrawn T a = a.
Proof. unfold discard_used_force. by intros ->. Qed.

Lemma discardUsed_unchanged r withdrawn :
  snd (discardUsed r withdrawn) = false -> fst (discardUsed r withdrawn) = r.
Proof.
  destruct r as [? ? ? ? ? ? ? ? s f]. unfold discardUsed. cbn [fst snd sets forces].
  rewrite orb_false_iff. intros [Hs Hf].
  assert (map_sets (discard_used_set withdrawn) s = s) as Es.
  { unfold set_rules_of in Hs. cbn in Hs. rewrite !orb_false_iff in Hs. destruct s. unfold map_sets.
    cbn in *. f_equal; apply set_used_id, orb_false_iff; tauto. }
  assert (map_forces (discard_used_force withdrawn) f = f) as Ef.
  { unfold force_rules_of in Hf. cbn in Hf. rewrite !orb_false_iff in Hf. destruct f. unfold map_forces.
    cbn in *. f_equal; apply force_used_id; tauto. }
  cbn. by rewrite Es, Ef.
Qed.

Lemma set_not_used withdrawn T (a : set_ruler T) :
  let v := srule (discard_used_set withdrawn T a) in
  (v =? ApplyNow) || (v =? ForceTemporarily) && withdrawn = false.
Proof.
  destruct (discard_used_set_spec withdrawn T a) as (_ & Hn & _). cbn zeta. unfold used_up in Hn.
  destruct (Z.eqb_spec (srule (discard_used_set withdrawn T a)) ApplyNow); [tauto|].
  destruct (Z.eqb_spec (srule (discard_used_set withdrawn T a)) ForceTemporarily), withdrawn; tauto.
Qed.

Lemma force_not_used withdrawn T (a : force_ruler T) :
  withdrawn && (frule (discard_used_force withdrawn T a) =? ForceTemporarily) = false.
Proof.
  destruct (discard_used_force_spec withdrawn T a) as (_ & Hn & _).
  destruct (Z.eqb_spec (frule (discard_used_force withdrawn T a)) ForceTemporarily), withdrawn; tauto.
Qed.

Lemma existsb_false {A} (p : A -> bool) l : (forall x, x ∈ l -> p x = false) -> existsb p l = false.
Proof.
  intros Hp. induction l as [|x l IH]; [done|]. cbn. rewrite Hp by left. apply IH. intros y Hy.
  apply Hp. by right.
Qed.

Lemma discardUsed_again r withdrawn : snd (discardUsed (fst (discardUsed r withdrawn)) withdrawn) = false.
Proof.
  destruct r as [? ? ? ? ? ? ? ? s f]. unfold discardUsed. cbn [fst snd sets forces update].
  apply orb_false_iff. split; apply existsb_false; intros v Hv.
  - unfold set_rules_of, map_sets in Hv. cbn in Hv. rewrite !elem_of_cons, elem_of_nil in Hv.
    destruct_or! Hv; try done; subst v; apply set_not_used.
  - unfold force_rules_of, map_forces in Hv. cbn in Hv. rewrite !elem_of_cons, elem_of_nil in Hv.
    destruct_or! Hv; try done; subst v; apply force_not_used.
Qed.

(** Discarding used rules removes exactly the rules that are used up, ApplyNow
    always and ForceTemporarily when the window is withdrawn, and keeps every value
    and every other rule; it reports no change only when the rule stays the same,
    and discarding again changes nothing. *)
Theorem discardUsed_once r withdrawn :
  let r' := fst (discardUsed r withdrawn) in
  all_sets2 (set_discarded withdrawn) (sets r) (sets r') /\
  all_forces2 (force_discarded withdrawn) (forces r) (forces r') /\
  (snd (discardUsed r withdrawn) = true \/ r' = r) /\
  discardUsed r' withdrawn = (r', false).
Proof.
  intros r'. split_and!.
  - apply map_sets_spec. intros T x. apply discard_used_set_spec.
  - apply map_forces_spec. intros T x. apply discard_used_force_spec.
  - destruct (snd (discardUsed r withdrawn)) eqn:E; [by left|]. right. by apply discardUsed_unchanged.
  - rewrite (surjective_pairing (discardUsed r' withdrawn)).
    unfold r'. rewrite discardUsed_again. f_equal. apply discardUsed_unchanged, discardUsed_again.
Qed.

(** ** The rules that the program holds *)

(** A rule comes from the settings, remembers windows, loses used rules and ages. *)
Inductive rule_state (locate : string -> string) : Rules -> Prop :=
  | rule_read t s :
      settings_ok s -> fdata (decocolor (st_forces s)) = "" \/ plain_name (fdata (decocolor (st_forces s))) ->
      rule_state locate (readFromSettings locate t s)
  | rule_update r sel w : rule_state locate r -> rule_state locate (fst (update sel w r))
  | rule_discard r withdrawn : rule_state locate r -> rule_state locate (fst (discardUsed r withdrawn))
  | rule_age r r' : rule_state locate r -> discardTemporary r false = Some r' -> rule_state locate r'.

Lemma read_sets_rules st :
  Forall (fun v => Unused <= v <= ForceTemporarily) (set_rules_of st) ->
  Forall (fun v => Unused <= v <= ForceTemporarily) (set_rules_of (read_sets st)).
Proof.
  unfold set_rules_of, read_sets. cbn. rewrite !Forall_cons. intros H.
  repeat (split; [first [tauto|case_match; [done|tauto]]|]). done.
Qed.

Lemma read_ok locate t s :
  settings_ok s -> fdata (decocolor (st_forces s)) = "" \/ plain_name (fdata (decocolor (st_forces s))) ->
  rule_ok locate (readFromSettings locate t s).
Proof.
  intros (Hwc & Hwr & Hti & Hcm & Hsets & Hfpp & Hfsp & Hoa & Hoi & Hty) Hname.
  unfold rule_ok. split; [split_and!; first [done|apply toLower_idem]|].
  split; [by apply read_sets_rules|]. cbn [sets forces readFromSettings].
  split_and!; try done.
  - cbn. intros H1 H2. destruct (size_isEmpty _) eqn:E; [|done].
    destruct (Z.eqb_spec (srule (size (st_sets s))) Remember) as [Er|]; cbn in *; done.
  - cbn. case_match; [done|]. destruct Hty as [Hty|Hty]; [|done]. rewrite Hty in *. done.
  - unfold read_forces. cbn [maxsize]. intros _.
    destruct (size_isEmpty (fdata (maxsize (st_forces s)))) eqn:E; [done|exact E].
  - unfold read_forces. cbn [minsize]. intros _.
    destruct (size_isValid (fdata (minsize (st_forces s)))) eqn:E; [exact E|done].
  - cbn. destruct (String.eqb_spec (getDecoColor locate (fdata (decocolor (st_forces s)))) "") as [|Hne];
      [done|]. intros _. destruct Hname as [E|Hname]; [rewrite E in Hne; by destruct Hne|].
    exists (fdata (decocolor (st_forces s))). by split_and!.
Qed.

Lemma update_ok locate sel w r : rule_ok locate r -> rule_ok locate (fst (update sel w r)).
Proof.
  intros (Hm & Hs & Hsize & Hrest).
  destruct (update_fields sel w r) as (Hf & _ & _ & _ & _ & _ & _ & _ & _ & _ & _ & _ & _ & _ & _ & _ & Es & Er).
  unfold rule_ok. rewrite Hf, Er, Es, remember_size_rule.
  split; [|split; [done|split; [|done]]].
  - unfold update. by destruct (update_sets sel w (sets r)).
  - intros H1 H2. rewrite <- (Hsize H1 H2). unfold remember_size, remember, selected.
    rewrite (proj2 (Z.eqb_neq _ _) H2), andb_false_r. by destruct (w_fullscreen w).
Qed.

Lemma discard_ok locate withdrawn r :
  rule_ok locate r -> rule_ok locate (fst (discardUsed r withdrawn)).
Proof.
  intros (Hm & Hs & Hsize & Hrest). unfold rule_ok.
  change (sets (fst (discardUsed r withdrawn))) with (map_sets (discard_used_set withdrawn) (sets r)).
  change (forces (fst (discardUsed r withdrawn))) with
    (map_forces (discard_used_force withdrawn) (forces r)).
  generalize dependent (forces r). generalize dependent (sets r). intros s Hs Hsize f Hrest.
  assert (forall T (a : set_ruler T), Unused <= srule a <= ForceTemporarily ->
    Unused <= srule (discard_used_set withdrawn T a) <= ForceTemporarily) as Hr.
  { intros T a Ha. unfold discard_used_set. case_match; [cbn; unfold Unused, ForceTemporarily; lia|done]. }
  split; [done|]. split.
  { unfold set_rules_of, map_sets in *. cbn. rewrite !Forall_cons in *.
    repeat (split; [apply Hr; tauto|]). done. }
  destruct Hrest as (H1 & H2 & H3 & H4 & H5 & H6 & H7 & H8).
  assert (forall T (a : force_ruler T) (P : T -> Prop), (frule a <> Unused -> P (fdata a)) ->
    frule (discard_used_force withdrawn T a) <> Unused -> P (fdata (discard_used_force withdrawn T a))) as Hf.
  { intros T a P HP. unfold discard_used_force.
    destruct (_ && _); [by intros []|done]. }
  split; [|split_and!].
  - unfold map_sets, discard_used_set. cbn [size].
    destruct (_ || _); [by intros []|done].
  - by apply (Hf _ (fpplevel f) (fun v => 0 <= v <= 4)).
  - by apply (Hf _ (fsplevel f) (fun v => 0 <= v <= 4)).
  - by apply (Hf _ (opacityactive f) (fun v => 0 <= v <= 100)).
  - by apply (Hf _ (opacityinactive f) (fun v => 0 <= v <= 100)).
  - by apply (Hf _ (type f) (fun v => NET_Normal <= v <= NET_Splash)).
  - by apply (Hf _ (maxsize f) (fun v => size_isEmpty v = false)).
  - by apply (Hf _ (minsize f) (fun v => size_isValid v = true)).
  - by apply (Hf _ (decocolor f) (located locate)).
Qed.

Lemma rule_state_ok locate r : rule_state locate r -> rule_ok locate r.
Proof.
  induction 1 as [t s Hs Hname|r sel w _ IH|r withdrawn _ IH|r r' _ IH Hr].
  - by apply read_ok.
  - by apply update_ok.
  - by apply discard_ok.
  - unfold discardTemporary in Hr. destruct (temporary_state r =? 0); [by simplify_eq|].
    destruct (temporary_state _ =? 0); [done|]. simplify_eq. apply IH.
Qed.

(** A rule survives saving and loading: whatever it has remembered and
    discarded since it was read, writing it and reading it back gives an equivalent
    rule, one that matches the same windows, with the same kind of rule and value
    for every property in use. The settings it came from are within the ranges of
    the entries and name a color scheme without a dot or a directory, and a file
    that is located has a path that ends with the name asked for. *)
Theorem rules_roundtrip locate t r :
  locate_ok locate -> rule_state locate r ->
  rules_equiv r (readFromSettings locate t (write r default_settings)).
Proof. intros Hloc Hr. apply read_write_equiv; [done|]. by apply rule_state_ok. Qed.

Lemma sample_settings_ok : settings_ok sample_settings.
Proof.
  unfold settings_ok, match_ok. vm_compute. split_and!; try done; [repeat constructor; done|by left].
Qed.

Lemma rules_roundtrip_witness :
  let r := fst (update sel_All sample_window (readFromSettings sample_locate 0 sample_settings)) in
  fdata (decocolor (forces r)) = "/usr/share/color-schemes/Breeze.colors" /\
  sdata (size (sets r)) = mkSize 300 600 /\
  rules_equiv r (readFromSettings sample_locate 0 (write r default_settings)).
Proof.
  split; [by vm_compute|]. split; [by vm_compute|]. apply rules_roundtrip.
  - intros name. right. by exists "/usr/share".
  - apply rule_update, rule_read; [apply sample_settings_ok|]. right. by split; vm_compute.
Defined.
End RulesProps.
