(* ===== verification/RuleBookProps.v ===== *)
(** * Properties of the rule book

    The references that the book and the windows hold: finding the rules of a
    window, the expiry of temporary rules, discarding used rules, and storing the
    book. *)

From S2P Require Import Prelude Qt Bytes Rules RulesProps RuleBook.

Module RuleBookProps.
Import Qt Rules RulesProps RuleBook.

(** ** Well-formed books *)

(** Every reference is to a live rule; a temporary rule is in the book or with one
    window. *)
Record book_ok (b : Book) : Prop := mkBookOk {
  ok_nodup : NoDup (m_rules b);
  ok_live : forall id, id ∈ m_rules b -> is_Some (b_heap b !! id);
  ok_fresh : forall id, is_Some (b_heap b !! id) -> (id < b_next b)%nat;
  ok_windows_nodup : forall w, NoDup (rules_of w b);
  ok_windows_live : forall w id, id ∈ rules_of w b -> is_Some (b_heap b !! id);
  ok_temporary : forall w id r, id ∈ rules_of w b -> b_heap b !! id = Some r -> isTemporary r = true ->
    id ∉ m_rules b /\ forall w', id ∈ rules_of w' b -> w' = w;
}.

Lemma rules_of_set_eq w l b : rules_of w (set_rules w l b) = l.
Proof. unfold rules_of, set_rules. simpl. by rewrite lookup_insert_eq. Qed.

Lemma rules_of_set_ne w w' l b : w' <> w -> rules_of w' (set_rules w l b) = rules_of w' b.
Proof. intros Hne. unfold rules_of, set_rules. simpl. by rewrite lookup_insert_ne. Qed.

Section Finding.
Variable typeMatchesMask : Z -> Z -> bool.
Variable regexp_found : string -> string -> bool.
Variable windows : wid -> RuleWindow.
Implicit Types (b : Book) (w : wid) (id : rid) (heap : gmap rid Rules).

(** The rule is considered and matches the window. *)
Definition found_in heap w (ignore_temporary : bool) id : bool :=
  match heap !! id with
  | Some r => negb (ignore_temporary && isTemporary r) &&
              fst (matches typeMatchesMask regexp_found windows r w)
  | None => false
  end.
Definition temporary_in heap id : bool :=
  match heap !! id with Some r => isTemporary r | None => false end.

Lemma find_in_spec heap w ig l :
  (forall id, id ∈ l -> is_Some (heap !! id)) ->
  exists tracked, find_in typeMatchesMask regexp_found windows heap w ig l =
    Some (filter (fun id => found_in heap w ig id && temporary_in heap id = false) l,
          filter (fun id => found_in heap w ig id = true) l, tracked).
Proof.
  induction l as [|id l IH]; intros Hlive; [by eexists|]. cbn [find_in].
  destruct (Hlive id ltac:(by left)) as [r Hr]. rewrite Hr. cbn [mbind option_bind].
  destruct IH as [tracked ->]; [intros x Hx; apply Hlive; by right|]. cbn [mbind option_bind].
  rewrite !filter_cons.
  assert (found_in heap w ig id = negb (ig && isTemporary r) &&
          fst (matches typeMatchesMask regexp_found windows r w)) as -> by (unfold found_in; by rewrite Hr).
  assert (temporary_in heap id = isTemporary r) as -> by (unfold temporary_in; by rewrite Hr).
  destruct (ig && isTemporary r); cbn [negb andb]; [by eexists|].
  destruct (matches typeMatchesMask regexp_found windows r w) as [[] track]; cbn [fst andb].
  - destruct (isTemporary r); by eexists.
  - by eexists.
Qed.

(** Setting up the rules of a window finds, in the order of the book, exactly
    the rules that match it, without the temporary ones when these are ignored. A
    temporary rule that is found leaves the book, so that no later window gets it;
    all other rules stay, the rules of the other windows do not change, and every
    reference is still to a live rule. *)
Theorem setup_rules_finds w ig b :
  book_ok b ->
  exists b', setup_rules typeMatchesMask regexp_found windows w ig b = Some b' /\ book_ok b' /\
    rules_of w b' = filter (fun id => found_in (b_heap b) w ig id = true) (m_rules b) /\
    m_rules b' =
      filter (fun id => found_in (b_heap b) w ig id && temporary_in (b_heap b) id = false) (m_rules b) /\
    (forall w', w' <> w -> rules_of w' b' = rules_of w' b) /\ b_heap b' = b_heap b.
Proof.
  intros [Hnd Hlive Hfresh Hwnd Hwlive Htmp].
  destruct (find_in_spec (b_heap b) w ig (m_rules b) Hlive) as [tracked Hfind].
  unfold setup_rules. rewrite Hfind. cbn [mbind option_bind].
  set (found := filter (fun id => found_in (b_heap b) w ig id = true) (m_rules b)).
  set (kept := filter _ (m_rules b)). eexists. split; [done|].
  assert (forall w' b0, w' <> w -> window_rules b0 = window_rules b ->
    rules_of w' (set_rules w found b0) = rules_of w' b) as Hother.
  { intros w' b0 Hne E. rewrite rules_of_set_ne by done. unfold rules_of. by rewrite E. }
  split_and!; [|by rewrite rules_of_set_eq|done|intros w' Hne; by apply Hother|done].
  assert (forall id, id ∈ found -> id ∈ m_rules b) as Hfound.
  { intros id [_ ?]%list_elem_of_filter. done. }
  split; cbn.
  - by apply NoDup_filter.
  - intros id [_ ?]%list_elem_of_filter. auto.
  - done.
  - intros w'. destruct (decide (w' = w)) as [->|Hne].
    + rewrite rules_of_set_eq. by apply NoDup_filter.
    + by rewrite Hother.
  - intros w' id. destruct (decide (w' = w)) as [->|Hne].
    + rewrite rules_of_set_eq. auto.
    + rewrite Hother by done. apply Hwlive.
  - intros w' id r Hin Hr Ht. destruct (decide (w' = w)) as [->|Hne].
    + rewrite rules_of_set_eq in Hin. split.
      * intros [Hk _]%list_elem_of_filter. apply list_elem_of_filter in Hin as [Hf _].
        unfold temporary_in in Hk. rewrite Hr, Ht, Hf in Hk. done.
      * intros w' Hw'. destruct (decide (w' = w)) as [|Hne]; [done|]. rewrite Hother in Hw' by done.
        destruct (Htmp _ _ _ Hw' Hr Ht) as [[] _]. auto.
    + rewrite Hother in Hin by done. destruct (Htmp _ _ _ Hin Hr Ht) as [Hn Hu]. split.
      * intros [_ ?]%list_elem_of_filter. done.
      * intros w2 Hw2. destruct (decide (w2 = w)) as [->|Hne2].
        -- rewrite rules_of_set_eq in Hw2. by apply Hfound in Hw2.
        -- rewrite Hother in Hw2 by done. auto.
Qed.
End Finding.

(** ** Temporary rules expire *)

Definition age (r : Rules) : Z := temporary_state r.

(** What a firing of the timer makes of a rule. *)
Definition aged (r : Rules) : option Rules := discardTemporary r false.

Lemma aged_spec r :
  0 <= age r ->
  (isTemporary r = false /\ aged r = Some r) \/
  (age r = 1 /\ aged r = None) \/
  (1 < age r /\ exists r', aged r = Some r' /\ age r' = age r - 1).
Proof.
  intros Hr. unfold isTemporary, aged, discardTemporary, age in *.
  destruct (Z.eqb_spec (temporary_state r) 0) as [E|E]; [left; by rewrite E|].
  change (temporary_state (r <| temporary_state := temporary_state r - 1 |>)) with
    (temporary_state r - 1). destruct (Z.eqb_spec (temporary_state r - 1) 0) as [E1|E1].
  - right. left. split; [lia|done].
  - right. right. split; [lia|]. eauto.
Qed.

Definition age_in (heap : gmap rid Rules) (id : rid) : Z :=
  match heap !! id with Some r => age r | None => 0 end.

Lemma cleanup_in_spec l b :
  NoDup l -> (forall id, id ∈ l -> is_Some (b_heap b !! id)) -> (forall id, 0 <= age_in (b_heap b) id) ->
  exists b' has, cleanup_in l b = Some (b', filter (fun id => age_in (b_heap b) id <> 1) l, has) /\
    (forall id, b_heap b' !! id = if decide (id ∈ l) then b_heap b !! id ≫= aged else b_heap b !! id) /\
    has = existsb (fun id => 1 <? age_in (b_heap b) id) l /\
    m_rules b' = m_rules b /\ b_next b' = b_next b /\ window_rules b' = window_rules b /\
    cleanup_timers b' = cleanup_timers b.
Proof.
  revert b. induction l as [|id l IH]; intros b Hnd Hlive Hage.
  - exists b, false. by split_and!.
  - apply NoDup_cons in Hnd as [Hid Hnd]. cbn [cleanup_in].
    destruct (Hlive id ltac:(by left)) as [r Hr]. rewrite Hr. cbn [mbind option_bind].
    assert (age_in (b_heap b) id = age r) as Ea by (unfold age_in; by rewrite Hr).
    pose proof (Hage id) as Har. rewrite Ea in Har. fold (aged r).
    (* the book with which the loop goes on *)
    set (b1 := match aged r with
               | None => free id b
               | Some r' => b <| b_heap := <[id := r']> (b_heap b) |>
               end).
    assert (forall x, x <> id -> b_heap b1 !! x = b_heap b !! x) as Hne.
    { intros x Hx. unfold b1. destruct (aged r); cbn; [by rewrite lookup_insert_ne|by rewrite lookup_delete_ne]. }
    assert (b_heap b1 !! id = aged r) as Heq.
    { unfold b1. destruct (aged r); cbn; [by rewrite lookup_insert_eq|by rewrite lookup_delete_eq]. }
    assert (forall x, x ∈ l -> age_in (b_heap b1) x = age_in (b_heap b) x) as Hages.
    { intros x Hx. unfold age_in. rewrite Hne; [done|]. by intros ->. }
    destruct (IH b1) as (b2 & has & Hc & Hheap & Hhas & Hm & Hn & Hw & Ht); [done|..].
    { intros x Hx. rewrite Hne by (by intros ->). apply Hlive. by right. }
    { intros x. destruct (decide (x = id)) as [->|Hx].
      - unfold age_in. rewrite Heq. destruct (aged_spec r Har) as [[_ ->]|[[_ ->]|(? & r' & -> & E)]];
          [done|done|lia].
      - unfold age_in. rewrite Hne by done. apply Hage. }
    assert (filter (fun x => age_in (b_heap b1) x <> 1) l = filter (fun x => age_in (b_heap b) x <> 1) l) as Ef.
    { apply filter_iff_in. intros x Hx. by rewrite Hages. }
    assert (existsb (fun x => 1 <? age_in (b_heap b1) x) l = existsb (fun x => 1 <? age_in (b_heap b) x) l) as Ee.
    { clear - Hages. induction l as [|x l IHl]; [done|]. cbn. rewrite Hages by left. f_equal. apply IHl.
      intros y Hy. apply Hages. by right. }
    rewrite Ef in Hc. rewrite Ee in Hhas. rewrite filter_cons, Ea.
    assert (forall x, b_heap b2 !! x =
      if decide (x ∈ id :: l) then b_heap b !! x ≫= aged else b_heap b !! x) as Hfinal.
    { intros x. rewrite Hheap. destruct (decide (x = id)) as [->|Hx].
      - rewrite decide_False by done. rewrite decide_True by left. by rewrite Heq, Hr.
      - rewrite Hne by done. destruct (decide (x ∈ l)).
        + rewrite decide_True by (by right). done.
        + rewrite decide_False; [done|]. rewrite elem_of_cons. tauto. }
    assert (m_rules b1 = m_rules b /\ b_next b1 = b_next b /\ window_rules b1 = window_rules b /\
      cleanup_timers b1 = cleanup_timers b) as (E1 & E2 & E3 & E4).
    { unfold b1. by destruct (aged r). }
    unfold b1 in Hc. cbn [existsb]. rewrite Ea.
    destruct (aged_spec r Har) as [[Ht0 Eag]|[[E Eag]|(Hlt & r' & Eag & E)]]; rewrite Eag in Hc |- *.
    + rewrite Hc. cbn [mbind option_bind]. rewrite decide_True by (unfold isTemporary, age in *; zify_bools; lia).
      eexists _, _. split; [done|]. rewrite Ht0. rewrite (proj2 (Z.ltb_ge 1 (age r))).
      * split_and!; try done; congruence.
      * unfold isTemporary, age in *. zify_bools. lia.
    + rewrite Hc, decide_False by (by intros []). eexists _, _. split; [done|].
      rewrite E. split_and!; try done; congruence.
    + rewrite Hc. cbn [mbind option_bind]. rewrite decide_True by lia. eexists _, _. split; [done|].
      rewrite (proj2 (Z.ltb_lt 1 (age r))) by done.
      assert (isTemporary r' = true) as -> by (unfold isTemporary, age in *; zify_bools; lia).
      split_and!; try done; congruence.
Qed.

(** One firing of the timer. *)
Lemma cleanup_ok b :
  book_ok b -> (forall id, 0 <= age_in (b_heap b) id) ->
  exists b', cleanupTemporaryRules b = Some b' /\ book_ok b' /\
    m_rules b' = filter (fun id => age_in (b_heap b) id <> 1) (m_rules b) /\
    (forall id, b_heap b' !! id =
       if decide (id ∈ m_rules b) then b_heap b !! id ≫= aged else b_heap b !! id) /\
    (forall w, rules_of w b' = rules_of w b) /\
    cleanup_timers b' = (pred (cleanup_timers b) +
      if existsb (fun id => (1 <? age_in (b_heap b) id)%Z) (m_rules b) then 1 else 0)%nat.
Proof.
  intros [Hnd Hlive Hfresh Hwnd Hwlive Htmp] Hage. unfold cleanupTemporaryRules.
  destruct (cleanup_in_spec (m_rules b) (b <| cleanup_timers := pred (cleanup_timers b) |>))
    as (b1 & has & -> & Hheap & -> & Hm & Hn & Hw & Ht); [done..|].
  cbn [mbind option_bind b_heap cleanup_timers] in *.
  assert (forall b2, m_rules b2 = filter (fun id => age_in (b_heap b) id <> 1) (m_rules b) ->
    b_heap b2 = b_heap b1 -> b_next b2 = b_next b1 -> window_rules b2 = window_rules b1 ->
    book_ok b2) as Hok.
  { intros b2 Em Eh En Ew.
    assert (forall w, rules_of w b2 = rules_of w b) as Er by (intros w; unfold rules_of; by rewrite Ew, Hw).
    split.
    - rewrite Em. by apply NoDup_filter.
    - intros id. rewrite Em, Eh. intros [Ha Hin]%list_elem_of_filter. rewrite Hheap, decide_True by done.
      destruct (Hlive id Hin) as [r Hr]. change (b_heap (b <| cleanup_timers := _ |>)) with (b_heap b).
      rewrite Hr. cbn. pose proof (Hage id) as Hag. unfold age_in in Ha, Hag. rewrite Hr in Ha, Hag.
      destruct (aged_spec r Hag) as [[_ ->]|[[? _]|(_ & r' & -> & _)]]; [eauto|done|eauto].
    - intros id. rewrite Eh, En, Hheap, Hn. intros Hs. apply Hfresh.
      change (b_heap (b <| cleanup_timers := _ |>)) with (b_heap b) in Hs.
      destruct (decide _); [|done]. destruct (b_heap b !! id); [eauto|by destruct Hs].
    - intros w. by rewrite Er.
    - intros w id. rewrite Er, Eh, Hheap. intros Hin. destruct (Hwlive w id Hin) as [r Hr].
      change (b_heap (b <| cleanup_timers := _ |>)) with (b_heap b). rewrite Hr.
      destruct (decide (id ∈ m_rules b)) as [Hb|]; [|eauto]. cbn. pose proof (Hage id) as Hag.
      unfold age_in in Hag. rewrite Hr in Hag.
      destruct (aged_spec r Hag) as [[_ ->]|[[Ha _]|(Ha & _)]]; [eauto|..];
        destruct (Htmp w id r Hin Hr) as [[] _]; try done; unfold isTemporary, age in *; zify_bools; lia.
    - intros w id r. rewrite Er, Eh, Hheap, Em.
      change (b_heap (b <| cleanup_timers := _ |>)) with (b_heap b). intros Hin Hr Ht'.
      destruct (decide (id ∈ m_rules b)) as [Hb|Hb].
      + exfalso. destruct (Hwlive w id Hin) as [r0 Hr0]. rewrite Hr0 in Hr. cbn in Hr.
        pose proof (Hage id) as Hag. unfold age_in in Hag. rewrite Hr0 in Hag.
        destruct (aged_spec r0 Hag) as [[Hf E]|[[Ha E]|(Ha & _)]].
        * rewrite E in Hr. congruence.
        * by rewrite E in Hr.
        * destruct (Htmp w id r0 Hin Hr0) as [[] _]; [|done]. unfold isTemporary, age in *. zify_bools. lia.
      + split; [by intros [_ ?]%list_elem_of_filter|]. intros w'. rewrite Er. by apply (Htmp w id r). }
  eexists. split; [done|].
  destruct (existsb _ (m_rules b)); (split; [by apply Hok|split_and!; try done]).
  all: try (intros w; unfold rules_of; cbn; by rewrite Hw).
  all: cbn; rewrite Ht; cbn; lia.
Qed.

Lemma aged_age heap heap' (l : list rid) id :
  0 <= age_in heap id ->
  (forall x, heap' !! x = if decide (x ∈ l) then heap !! x ≫= aged else heap !! x) ->
  id ∈ l -> age_in heap' id = Z.max 0 (age_in heap id - 1).
Proof.
  intros Ha Hh Hin. unfold age_in in *. rewrite Hh, decide_True by done.
  destruct (heap !! id) as [r|] eqn:Hr; cbn; [|lia].
  destruct (aged_spec r Ha) as [[Hf ->]|[[E ->]|(Hlt & r' & -> & E)]]; [|lia|lia].
  unfold isTemporary, age in *. zify_bools. lia.
Qed.

(** A temporary rule that no window has claimed expires: two firings of the
    cleanup timer later it is gone, while the other rules of the book, and the rules
    that windows hold, are as before. After the first firing the timer is running
    again if a temporary rule is left. *)
Theorem temporary_rules_expire b :
  book_ok b -> (forall id, 0 <= age_in (b_heap b) id <= 2) ->
  exists b1 b2, cleanupTemporaryRules b = Some b1 /\ cleanupTemporaryRules b1 = Some b2 /\
    book_ok b2 /\
    m_rules b2 = filter (fun id => temporary_in (b_heap b) id = false) (m_rules b) /\
    (forall id, id ∈ m_rules b2 -> b_heap b2 !! id = b_heap b !! id) /\
    (forall w, rules_of w b2 = rules_of w b) /\
    (existsb (temporary_in (b_heap b1)) (m_rules b1) = true -> (0 < cleanup_timers b1)%nat).
Proof.
  intros Hok Hage. destruct (cleanup_ok b Hok) as (b1 & H1 & Hok1 & Hm1 & Hh1 & Hw1 & Ht1); [apply Hage|].
  assert (forall id, 0 <= age_in (b_heap b1) id) as Hage1.
  { intros id. destruct (decide (id ∈ m_rules b)) as [Hin|Hout].
    - rewrite (aged_age (b_heap b) _ (m_rules b) id) by first [done|apply Hage]. lia.
    - unfold age_in. rewrite Hh1, decide_False by done. apply Hage. }
  destruct (cleanup_ok b1 Hok1 Hage1) as (b2 & H2 & Hok2 & Hm2 & Hh2 & Hw2 & _).
  assert (forall id, id ∈ m_rules b -> age_in (b_heap b1) id = Z.max 0 (age_in (b_heap b) id - 1)) as Ha1.
  { intros id Hin. apply (aged_age _ _ (m_rules b) id); try done. apply Hage. }
  assert (forall id, temporary_in (b_heap b) id = false <-> age_in (b_heap b) id = 0) as Htemp.
  { intros id. pose proof (Hage id). unfold temporary_in, age_in, isTemporary, age in *.
    destruct (b_heap b !! id); [zify_bools; lia|done]. }
  assert (m_rules b2 = filter (fun id => temporary_in (b_heap b) id = false) (m_rules b)) as Hm.
  { rewrite Hm2, Hm1, list_filter_filter. apply filter_iff_in. intros id Hin. rewrite Htemp, Ha1 by done.
    pose proof (Hage id). lia. }
  exists b1, b2. split_and!; try done.
  - intros id. rewrite Hm. intros [Hf Hin]%list_elem_of_filter. apply Htemp in Hf.
    assert (b_heap b1 !! id = b_heap b !! id) as E1.
    { rewrite Hh1, decide_True by done. unfold age_in in Hf. destruct (b_heap b !! id) as [r|]; [|done].
      cbn. destruct (aged_spec r) as [[_ ->]|[[? _]|[? _]]]; [lia|done|lia|lia]. }
    rewrite Hh2. rewrite E1. destruct (decide _); [|done].
    unfold age_in in Hf. destruct (b_heap b !! id) as [r|]; [|done].
    cbn. destruct (aged_spec r) as [[_ ->]|[[? _]|[? _]]]; [lia|done|lia|lia].
  - intros w. by rewrite Hw2, Hw1.
  - rewrite Ht1, !existsb_exists, Hm1. intros (id & Hin & Ht).
    apply list_elem_of_In, list_elem_of_filter in Hin as [Hne Hin].
    assert (existsb (fun id => 1 <? age_in (b_heap b) id) (m_rules b) = true) as ->; [|lia].
    apply existsb_exists. exists id. split; [by apply list_elem_of_In|]. apply Z.ltb_lt.
    specialize (Ha1 id Hin). unfold temporary_in in Ht. unfold age_in at 1 in Ha1.
    destruct (b_heap b1 !! id) as [r1|]; [|done]. unfold isTemporary, age in *. zify_bools. lia.
Qed.

(** ** Used rules *)

Section Discarding.
Variable w : wid.
Variable withdrawn : bool.
Implicit Types (b : Book) (id : rid) (l : list rid).

Definition used (r : Rules) : Rules := fst (discardUsed r withdrawn).

(** The rule is one of the window and has nothing left after discarding. *)
Definition emptied b id : bool :=
  contains (rules_of w b) id && match b_heap b !! id with Some r => isEmpty (used r) | None => false end.

Lemma removeOne_remove_all id l : NoDup l -> removeOne id l = remove_all id l.
Proof.
  induction l as [|x l IH]; [done|]. intros [Hx Hl]%NoDup_cons. cbn [removeOne].
  destruct (Nat.eqb_spec x id) as [->|Hne].
  - by rewrite remove_all_cons_eq, remove_all_id.
  - rewrite remove_all_cons_ne by done. by rewrite IH.
Qed.

(** What the loop does at one rule. *)
Definition discard_step id b : Book :=
  if contains (rules_of w b) id then
    match b_heap b !! id with
    | Some r =>
        let b1 := b <| b_heap := <[id := used r]> (b_heap b) |> in
        if isEmpty (used r) then free id (set_rules w (removeOne id (rules_of w b1)) b1) else b1
    | None => b
    end
  else b.

Lemma discard_used_in_step id l b :
  is_Some (b_heap b !! id) ->
  exists u, discard_used_in w withdrawn (id :: l) b =
    '(b3, kept, updated) ← discard_used_in w withdrawn l (discard_step id b);
    Some (b3, if emptied b id then kept else id :: kept, u || updated).
Proof.
  intros [r Hr]. unfold discard_step, emptied. cbn [discard_used_in]. rewrite Hr.
  destruct (contains (rules_of w b) id); cbn [mbind option_bind andb]; [|by exists false].
  exists (snd (discardUsed r withdrawn)). unfold used.
  destruct (discardUsed r withdrawn) as [r' changed]. cbn [fst snd]. by destruct (isEmpty r').
Qed.

Lemma discard_step_spec id b :
  is_Some (b_heap b !! id) -> NoDup (rules_of w b) ->
  let b1 := discard_step id b in
  (forall x, x <> id -> b_heap b1 !! x = b_heap b !! x) /\
  b_heap b1 !! id = (if emptied b id then None
                     else if contains (rules_of w b) id then used <$> b_heap b !! id else b_heap b !! id) /\
  rules_of w b1 = (if emptied b id then remove_all id (rules_of w b) else rules_of w b) /\
  (forall w', w' <> w -> rules_of w' b1 = rules_of w' b) /\
  m_rules b1 = m_rules b /\ b_next b1 = b_next b.
Proof.
  intros [r Hr] Hnd. unfold discard_step, emptied. rewrite Hr.
  destruct (contains (rules_of w b) id) eqn:Ec; cbn [andb]; [|by split_and!].
  destruct (isEmpty (used r)) eqn:Ee.
  - rewrite removeOne_remove_all by done. split_and!; try done.
    + intros x Hx. cbn. by rewrite lookup_delete_ne, lookup_insert_ne.
    + cbn. by rewrite lookup_delete_eq.
    + unfold free, rules_of. cbn. by rewrite lookup_insert_eq.
    + intros w' Hw'. unfold free, rules_of. cbn. by rewrite lookup_insert_ne.
  - split_and!; try done.
    + intros x Hx. cbn. by rewrite lookup_insert_ne.
    + cbn. by rewrite lookup_insert_eq.
Qed.

Lemma discard_used_in_spec l b :
  NoDup l -> (forall id, id ∈ l -> is_Some (b_heap b !! id)) -> NoDup (rules_of w b) ->
  exists b' u, discard_used_in w withdrawn l b = Some (b', filter (fun id => emptied b id = false) l, u) /\
    (forall id, b_heap b' !! id =
       if decide (id ∈ l /\ id ∈ rules_of w b)
       then (if emptied b id then None else used <$> b_heap b !! id) else b_heap b !! id) /\
    rules_of w b' = filter (fun id => ~ (id ∈ l /\ emptied b id = true)) (rules_of w b) /\
    (forall w', w' <> w -> rules_of w' b' = rules_of w' b) /\
    m_rules b' = m_rules b /\ b_next b' = b_next b.
Proof.
  revert b. induction l as [|id l IH]; intros b Hnd Hlive Hw.
  { exists b, false. split_and!; try done.
    symmetry. apply filter_all_in. by intros x _ [?%not_elem_of_nil _]. }
  apply NoDup_cons in Hnd as [Hid Hnd]. pose proof (Hlive id ltac:(by left)) as Hs.
  destruct (discard_used_in_step id l b Hs) as [u ->].
  destruct (discard_step_spec id b Hs Hw) as (Hne & Heq & Hr & Hr' & Hm & Hn).
  set (b1 := discard_step id b) in *.
  assert (forall x, x <> id -> x ∈ rules_of w b1 <-> x ∈ rules_of w b) as Hin.
  { intros x Hx. rewrite Hr. destruct (emptied b id); [|done]. rewrite elem_of_remove_all. tauto. }
  assert (forall x, x <> id -> emptied b1 x = emptied b x) as Hemp.
  { intros x Hx. unfold emptied. rewrite Hne by done. f_equal. apply bool_decide_ext. auto. }
  destruct (IH b1) as (b' & u' & E & Hheap & Hrules & Hothers & Hm' & Hn'); [done|..].
  { intros x Hx. rewrite Hne by (by intros ->). apply Hlive. by right. }
  { rewrite Hr. destruct (emptied b id); [by apply NoDup_remove_all|done]. }
  rewrite E. cbn [mbind option_bind].
  assert (filter (fun x => emptied b1 x = false) l = filter (fun x => emptied b x = false) l) as Ef.
  { apply filter_iff_in. intros x Hx. rewrite Hemp; [done|]. by intros ->. }
  eexists _, _. split; [rewrite filter_cons, Ef; by destruct (emptied b id)|].
  split; [|split; [|split; [intros w' Hw'; rewrite Hothers by done; by apply Hr'|split; congruence]]].
  - intros x. rewrite Hheap. destruct (decide (x = id)) as [->|Hx].
    + rewrite decide_False by tauto. rewrite Heq. unfold emptied.
      destruct (contains (rules_of w b) id) eqn:Ec.
      * apply contains_true in Ec. rewrite decide_True by (split; [by left|done]). done.
      * apply contains_false in Ec. rewrite decide_False by tauto. done.
    + rewrite Hne, Hemp by done. apply decide_ext. rewrite elem_of_cons, Hin by done. tauto.
  - rewrite Hrules, Hr. destruct (emptied b id) eqn:Ee.
    + unfold remove_all. rewrite list_filter_filter. apply filter_iff_in. intros x Hx.
      rewrite elem_of_cons. destruct (decide (x = id)) as [->|Hx']; [naive_solver|].
      rewrite Hemp by done. naive_solver.
    + apply filter_iff_in. intros x Hx. rewrite elem_of_cons.
      destruct (decide (x = id)) as [->|Hx']; [|rewrite Hemp by done; naive_solver].
      rewrite Ee. naive_solver.
Qed.
End Discarding.

(** Discarding the used rules of a window reduces each of its rules in the book
    to what is not used up, and deletes those with nothing left from the book, from
    the window and from memory; no other rule and no other window changes. The book
    stays well-formed as long as no other window still holds a rule that is
    deleted. *)
Theorem discardUsed_keeps_book w withdrawn b :
  book_ok b ->
  (forall id w', id ∈ m_rules b -> emptied w withdrawn b id = true -> id ∈ rules_of w' b -> w' = w) ->
  exists b', book_discardUsed w withdrawn b = Some b' /\ book_ok b' /\
    m_rules b' = filter (fun id => emptied w withdrawn b id = false) (m_rules b) /\
    rules_of w b' =
      filter (fun id => ~ (id ∈ m_rules b /\ emptied w withdrawn b id = true)) (rules_of w b) /\
    (forall w', w' <> w -> rules_of w' b' = rules_of w' b) /\
    (forall id, b_heap b' !! id =
       if decide (id ∈ m_rules b /\ id ∈ rules_of w b)
       then (if emptied w withdrawn b id then None else used withdrawn <$> b_heap b !! id)
       else b_heap b !! id).
Proof.
  intros [Hnd Hlive Hfresh Hwnd Hwlive Htmp] Halone. unfold book_discardUsed.
  destruct (discard_used_in_spec w withdrawn (m_rules b) b Hnd Hlive (Hwnd w))
    as (b1 & u & -> & Hheap & Hw & Hothers & Hm & Hn).
  cbn [mbind option_bind].
  set (kept := filter _ (m_rules b)) in *.
  assert (forall w' x, x ∈ rules_of w' b1 -> x ∈ rules_of w' b) as Hsub.
  { intros w' x. destruct (decide (w' = w)) as [->|Hne]; [|by rewrite Hothers].
    rewrite Hw. by intros [_ ?]%list_elem_of_filter. }
  assert (forall x r, b_heap b1 !! x = Some r ->
    exists r0, b_heap b !! x = Some r0 /\ isTemporary r = isTemporary r0) as Hback.
  { intros x r. rewrite Hheap. destruct (decide _); [|by eauto]. destruct (emptied _ _ _ _); [done|].
    intros (r0 & Hr0 & ->)%fmap_Some. by exists r0. }
  assert (book_ok (b1 <| m_rules := kept |>)) as Hok.
  { split; cbn.
    - by apply NoDup_filter.
    - intros x [He Hx]%list_elem_of_filter. rewrite Hheap, He. destruct (Hlive x Hx) as [r ->].
      destruct (decide _); cbn; eauto.
    - intros x [r Hr]. destruct (Hback x r Hr) as (r0 & Hr0 & _). rewrite Hn. apply Hfresh. eauto.
    - intros w'. change (NoDup (rules_of w' b1)). destruct (decide (w' = w)) as [->|Hne].
      + rewrite Hw. by apply NoDup_filter.
      + by rewrite Hothers.
    - intros w' x. change (x ∈ rules_of w' b1 -> is_Some (b_heap b1 !! x)). intros Hx.
      rewrite Hheap. destruct (Hwlive w' x (Hsub w' x Hx)) as [r Hr]. rewrite Hr.
      destruct (decide _) as [[Hxm Hxw]|]; [|eauto].
      destruct (emptied w withdrawn b x) eqn:Ee; [|cbn; eauto]. exfalso.
      assert (w' = w) as -> by (apply (Halone x w'); auto).
      rewrite Hw in Hx. apply list_elem_of_filter in Hx as [[] _]. done.
    - intros w' x r. change (x ∈ rules_of w' b1 -> b_heap b1 !! x = Some r -> isTemporary r = true ->
        x ∉ kept /\ forall w2, x ∈ rules_of w2 b1 -> w2 = w').
      intros Hx (r0 & Hr0 & ->)%Hback Ht. destruct (Htmp w' x r0 (Hsub w' x Hx) Hr0 Ht) as [Hout Huniq].
      split; [|eauto]. by intros [_ ?]%list_elem_of_filter. }
  destruct u; eexists; (split; [done|split; [|done]]); [|exact Hok].
  by destruct Hok; split.
Qed.

(** *** A shared rule

    Two windows hold a rule that is forced until the window is withdrawn; the first
    window is withdrawn. *)
Definition shared_rule : Rules :=
  let r := readFromSettings sample_locate 0 default_settings in
  r <| sets := mkSets (mkSet true ForceTemporarily) (mkSet "" 0) (mkSet false 0) (mkSet false 0) (mkSet 0 0)
       (mkSet "" 0) (mkSet false 0) (mkSet false 0) (mkSet false 0) (mkSet false 0)
       (mkSet false 0) (mkSet invalidPoint 0) (mkSet 0 0) (mkSet "" 0)
       (mkSet (mkSize (-1) (-1)) 0) (mkSet false 0) (mkSet false 0) (mkSet false 0) |>.

Definition empty_book : Book := mkBook ∅ 0 [] false false 0 (Some []) ∅ [].

Definition shared_book : Book :=
  let '(b, id) := alloc shared_rule empty_book in b <| m_rules := [id] |>.

Definition all_windows (w : wid) : RuleWindow := sample_window.
Definition all_types (type mask : Z) : bool := true.
Definition no_regexp (pattern text : string) : bool := false.

(** The rules of both windows, found one after the other. *)
Definition both_set_up : option Book :=
  b1 ← setup_rules all_types no_regexp all_windows 1 false shared_book;
  setup_rules all_types no_regexp all_windows 2 false b1.

Lemma shared_book_ok : book_ok shared_book.
Proof.
  split.
  - apply NoDup_singleton.
  - intros id ->%list_elem_of_singleton. by eexists.
  - intros id. cbn. intros [r Hr]. destruct (decide (id = 0%nat)) as [->|Hne]; [lia|].
    rewrite lookup_insert_ne in Hr by done. done.
  - intros w. apply NoDup_nil_2.
  - by intros w id ?%not_elem_of_nil.
  - by intros w id r ?%not_elem_of_nil.
Qed.

(** Deleting a rule that is used up leaves the other windows that matched it
    with a dangling reference: of two windows that hold one rule, forced until the
    window is withdrawn, the first one is withdrawn; the rule is then empty, it is
    deleted and dropped from the book and from that window only, and the next update
    of the other window reads the deleted object. *)
Theorem deleted_rule_dangles :
  exists b b', both_set_up = Some b /\ rules_of 2 b = [0%nat] /\
    book_discardUsed 1 true b = Some b' /\ rules_of 2 b' = [0%nat] /\ b_heap b' !! 0%nat = None /\
    updateWindowRules all_windows 2 sel_All b' = None.
Proof. eexists _, _. split_and!; by vm_compute. Qed.

(** ** Storing the book *)

Lemma take_write_groups rules cached :
  take (length rules) (write_groups rules cached) = (fun r => write r default_settings) <$> rules.
Proof.
  revert cached. induction rules as [|r rules IH]; intros cached; [done|]. cbn. f_equal. apply IH.
Qed.

Definition fresh_ok (b : Book) : Prop := forall id, is_Some (b_heap b !! id) -> (id < b_next b)%nat.

Lemma alloc_all_spec rules b :
  fresh_ok b ->
  let '(b', ids) := alloc_all rules b in
  deref b' ids = Some rules /\ fresh_ok b' /\
  (forall id, (id < b_next b)%nat -> b_heap b' !! id = b_heap b !! id) /\ (b_next b <= b_next b')%nat.
Proof.
  revert b. induction rules as [|r rules IH]; intros b Hb; [by split_and!|].
  cbn [alloc_all]. set (b1 := (alloc r b).1).
  assert (fresh_ok b1) as Hb1.
  { intros id. cbn. destruct (decide (id = b_next b)) as [->|]; [lia|].
    rewrite lookup_insert_ne by done. intros H%Hb. lia. }
  specialize (IH b1 Hb1). unfold alloc. fold (alloc r b). change (b <| b_heap := _ |> <| b_next := _ |>) with b1.
  destruct (alloc_all rules b1) as [b2 ids]. destruct IH as (Hd & Hf & Hold & Hle).
  assert (b_next b1 = S (b_next b)) as En by done.
  split_and!; [|done| |lia].
  - unfold deref in *. cbn. rewrite Hold by lia. cbn. rewrite lookup_insert_eq. cbn. by rewrite Hd.
  - intros id Hid. rewrite Hold by lia. cbn. by rewrite lookup_insert_ne by lia.
Qed.

Lemma deleteAll_fresh b : fresh_ok b -> fresh_ok (deleteAll b).
Proof.
  intros Hb. unfold deleteAll. assert (forall l b0, fresh_ok b0 -> fresh_ok (foldl (fun b id => free id b) b0 l)) as H.
  { induction l as [|x l IH]; intros b0 Hb0; [done|]. cbn. apply IH. intros id. cbn.
    destruct (decide (id = x)) as [->|]; [by rewrite lookup_delete_eq; intros []|].
    rewrite lookup_delete_ne by done. apply Hb0. }
  intros id. apply (H (m_rules b) b Hb id).
Qed.

(** The rule objects of the book, in its order. *)
Definition book_rules (b : Book) : option (list Rules) := deref b (m_rules b).


(** ** Concrete books *)

(** A book of one rule, which no window holds. *)
Definition one_rule (r : Rules) : Book :=
  let '(b, id) := alloc r empty_book in b <| m_rules := [id] |>.

Lemma one_rule_ok r : book_ok (one_rule r).
Proof.
  split.
  - apply NoDup_singleton.
  - intros id ->%list_elem_of_singleton. by eexists.
  - intros id. cbn. intros [x Hx]. destruct (decide (id = 0%nat)) as [->|Hne]; [lia|].
    by rewrite lookup_insert_ne in Hx.
  - intros w. apply NoDup_nil_2.
  - by intros w id ?%not_elem_of_nil.
  - by intros w id r' ?%not_elem_of_nil.
Qed.

Lemma setup_rules_finds_witness :
  exists b', setup_rules all_types no_regexp all_windows 1 false (one_rule shared_rule) = Some b' /\
    rules_of 1 b' = [0%nat].
Proof.
  destruct (setup_rules_finds all_types no_regexp all_windows 1 false (one_rule shared_rule)
              (one_rule_ok _)) as (b' & E & _ & Hr & _).
  exists b'. split; [exact E|]. rewrite Hr. by vm_compute.
Defined.

Definition temporary_rule : Rules := Rules_from_text sample_locate default_settings true.

Lemma temporary_rules_expire_witness :
  exists b1 b2, cleanupTemporaryRules (one_rule temporary_rule) = Some b1 /\ m_rules b1 = [0%nat] /\
    cleanupTemporaryRules b1 = Some b2 /\ m_rules b2 = [].
Proof.
  destruct (temporary_rules_expire (one_rule temporary_rule) (one_rule_ok _)) as (b1 & b2 & E1 & E2 & _ & Hm & _).
  { intros id. unfold age_in. cbn. destruct (decide (id = 0%nat)) as [->|Hne].
    - rewrite lookup_insert_eq. vm_compute. split; discriminate.
    - rewrite lookup_insert_ne by done. vm_compute. split; discriminate. }
  exists b1, b2. split; [exact E1|]. split; [|split; [exact E2|rewrite Hm; by vm_compute]].
  revert E1. vm_compute. by intros [= <-].
Defined.

(** The shared rule, found by one window only. *)
Definition held_book : Book := set_rules 1 [0%nat] (one_rule shared_rule).

Lemma held_book_ok : book_ok held_book.
Proof.
  assert (forall w, w <> 1%nat -> rules_of w held_book = []) as Hne.
  { intros w Hw. unfold held_book. by rewrite rules_of_set_ne. }
  assert (rules_of 1 held_book = [0%nat]) as Heq by apply rules_of_set_eq.
  split.
  - apply (ok_nodup _ (one_rule_ok shared_rule)).
  - apply (ok_live _ (one_rule_ok shared_rule)).
  - apply (ok_fresh _ (one_rule_ok shared_rule)).
  - intros w. destruct (decide (w = 1%nat)) as [->|Hw]; [rewrite Heq; apply NoDup_singleton|].
    rewrite Hne by done. apply NoDup_nil_2.
  - intros w id. destruct (decide (w = 1%nat)) as [->|Hw]; [|by rewrite Hne by done; intros ?%not_elem_of_nil].
    rewrite Heq. intros ->%list_elem_of_singleton. by eexists.
  - intros w id r. destruct (decide (w = 1%nat)) as [->|Hw]; [|by rewrite Hne by done; intros ?%not_elem_of_nil].
    rewrite Heq. intros ->%list_elem_of_singleton [= <-] Ht. by vm_compute in Ht.
Qed.

Lemma discardUsed_keeps_book_witness :
  exists b', book_discardUsed 1 true held_book = Some b' /\ m_rules b' = [] /\ b_heap b' !! 0%nat = None.
Proof.
  destruct (discardUsed_keeps_book 1 true held_book held_book_ok) as (b' & E & _ & Hm & _ & _ & Hh).
  { intros id w' _ _. destruct (decide (w' = 1%nat)) as [|Hne]; [done|].
    unfold held_book. rewrite rules_of_set_ne by done. by intros ?%not_elem_of_nil. }
  exists b'. split; [exact E|]. split; [rewrite Hm; by vm_compute|].
  rewrite Hh. by vm_compute.
Defined.

End RuleBookProps.
