(* ===== verification/Gestures.v ===== *)
(** * Swipe gestures (src/gestures.h, gestures.cpp)

    The recognizer starts every registered gesture that fits the fingers and the
    position at which a swipe starts, cancels those that the movement contradicts,
    and triggers or cancels the rest when the swipe ends. Lengths are rational
    numbers: the rounding of [qreal] is not modelled. *)

From Stdlib Require Import QArith Qabs.
From S2P Require Import Prelude Qt.

Module Gestures.
Import Qt.

Abbreviation gid := nat (only parsing).

Inductive Direction := Down | Left | Up | Right.
#[global] Instance Direction_eq_dec : EqDecision Direction.
Proof. solve_decision. Defined.

(** QSizeF and QPointF. *)
Record QSizeF := mkSizeF { width : Q; height : Q }.
Record QPointF := mkPointF { fx : Q; fy : Q }.

(** Comparisons of lengths. *)
Definition Qlt_b (a b : Q) : bool := negb (Qle_bool b a).

(** The members of SwipeGesture; [None] is a criterion that is not relevant. *)
Record SwipeGesture := mkSwipe {
  m_minimumFingerCount : option Z;
  m_maximumFingerCount : option Z;
  m_direction : Direction;
  m_minimumX : option Z;
  m_minimumY : option Z;
  m_maximumX : option Z;
  m_maximumY : option Z;
  m_minimumDelta : option QSizeF;
}.
#[global] Instance SwipeGesture_eta : RecordEta SwipeGesture := fun g =>
  mkSwipe (m_minimumFingerCount g) (m_maximumFingerCount g) (m_direction g) (m_minimumX g)
    (m_minimumY g) (m_maximumX g) (m_maximumY g) (m_minimumDelta g).

Definition new_gesture : SwipeGesture := mkSwipe None None Down None None None None None.

Definition setMinimumFingerCount (count : Z) (g : SwipeGesture) := g <| m_minimumFingerCount := Some count |>.
Definition setMaximumFingerCount (count : Z) (g : SwipeGesture) := g <| m_maximumFingerCount := Some count |>.
Definition setDirection (direction : Direction) (g : SwipeGesture) := g <| m_direction := direction |>.
Definition setMinimumX (x : Z) (g : SwipeGesture) := g <| m_minimumX := Some x |>.
Definition setMinimumY (y : Z) (g : SwipeGesture) := g <| m_minimumY := Some y |>.
Definition setMaximumX (x : Z) (g : SwipeGesture) := g <| m_maximumX := Some x |>.
Definition setMaximumY (y : Z) (g : SwipeGesture) := g <| m_maximumY := Some y |>.
Definition setMinimumDelta (delta : QSizeF) (g : SwipeGesture) := g <| m_minimumDelta := Some delta |>.

Definition setStartGeometry (geometry : QRect) (g : SwipeGesture) : SwipeGesture :=
  setMaximumY (ry geometry + rh geometry) (setMaximumX (rx geometry + rw geometry)
    (setMinimumY (ry geometry) (setMinimumX (rx geometry) g))).

(** A progress is a number, or not one after a division of zero by zero. *)
Definition size_isNull (s : QSizeF) : bool := Qeq_bool (width s) 0 && Qeq_bool (height s) 0.

(** [std::min(std::abs(a) / std::abs(b), 1.0)]. *)
Definition ratio (a b : Q) : option Q :=
  if Qeq_bool b 0 then (if Qeq_bool a 0 then None else Some 1%Q)
  else Some (let q := Qabs a / Qabs b in if Qlt_b 1 q then 1 else q)%Q.

Definition minimumDeltaReachedProgress (g : SwipeGesture) (delta : QSizeF) : option Q :=
  match m_minimumDelta g with
  | None => Some 1%Q
  | Some minimum =>
      if size_isNull minimum then Some 1%Q
      else match m_direction g with
           | Up | Down => ratio (height delta) (height minimum)
           | Left | Right => ratio (width delta) (width minimum)
           end
  end.

Definition minimumDeltaReached (g : SwipeGesture) (delta : QSizeF) : bool :=
  match minimumDeltaReachedProgress g delta with Some p => Qle_bool 1 p | None => false end.

(** ** The recognizer *)

Inductive Signal := started (g : gid) | triggered (g : gid) | cancelled (g : gid)
  | progress (g : gid) (p : option Q).

Record GestureRecognizer := mkRecognizer {
  m_gestures : list gid;
  m_activeSwipeGestures : list gid;
  m_swipeUpdates : list QSizeF;
  signals : list Signal;             (** all signals emitted, the last one first *)
}.
#[global] Instance GestureRecognizer_eta : RecordEta GestureRecognizer := fun r =>
  mkRecognizer (m_gestures r) (m_activeSwipeGestures r) (m_swipeUpdates r) (signals r).

Definition new_recognizer : GestureRecognizer := mkRecognizer [] [] [] [].

Inductive StartPositionBehavior := Relevant | Irrelevant.
#[global] Instance StartPositionBehavior_eq_dec : EqDecision StartPositionBehavior.
Proof. solve_decision. Defined.

Section Recognizer.
(** The gesture objects. *)
Variable G : gid -> SwipeGesture.
Implicit Types (r : GestureRecognizer) (g : gid).

Definition emit (s : Signal) r : GestureRecognizer := r <| signals := s :: signals r |>.

Definition registerGesture g r : GestureRecognizer := r <| m_gestures := m_gestures r ++ [g] |>.

(** [removeOne] of an element. *)
Fixpoint removeOne g (l : list gid) : list gid :=
  match l with [] => [] | x :: l' => if (x =? g)%nat then l' else x :: removeOne g l' end.

Definition unregisterGesture g r : GestureRecognizer :=
  let r1 := r <| m_gestures := remove_all g (m_gestures r) |> in
  if contains (m_activeSwipeGestures r1) g
  then emit (cancelled g) (r1 <| m_activeSwipeGestures := removeOne g (m_activeSwipeGestures r1) |>)
  else r1.

(** The criteria of the loop of startSwipeGesture. *)
Definition at_least (bound : option Z) (v : Q) : bool :=
  match bound with Some b => negb (Qlt_b v (inject_Z b)) | None => true end.
Definition at_most (bound : option Z) (v : Q) : bool :=
  match bound with Some b => negb (Qlt_b (inject_Z b) v) | None => true end.

Definition starts (fingerCount : Z) (startPos : QPointF) (behavior : StartPositionBehavior) g : bool :=
  let s := G g in
  at_least (m_minimumFingerCount s) (inject_Z fingerCount) &&
  at_most (m_maximumFingerCount s) (inject_Z fingerCount) &&
  match behavior with
  | Relevant => at_least (m_minimumX s) (fx startPos) && at_most (m_maximumX s) (fx startPos) &&
                at_least (m_minimumY s) (fy startPos) && at_most (m_maximumY s) (fy startPos)
  | Irrelevant => true
  end.

(** startSwipeGesture: the recognizer and the number of gestures started. *)
Fixpoint start_loop (fingerCount : Z) (startPos : QPointF) (behavior : StartPositionBehavior)
    (l : list gid) r (count : Z) : GestureRecognizer * Z :=
  match l with
  | [] => (r, count)
  | g :: l' =>
      if starts fingerCount startPos behavior g
      then start_loop fingerCount startPos behavior l'
             (emit (started g) (r <| m_activeSwipeGestures := m_activeSwipeGestures r ++ [g] |>))
             (count + 1)
      else start_loop fingerCount startPos behavior l' r count
  end.

Definition startSwipeGesture (fingerCount : Z) (startPos : QPointF)
    (behavior : StartPositionBehavior) r : GestureRecognizer * Z :=
  start_loop fingerCount startPos behavior (m_gestures r) r 0.

(** [std::accumulate] of the updates. *)
Definition combined (updates : list QSizeF) : QSizeF :=
  foldl (fun s d => mkSizeF (width s + width d) (height s + height d)) (mkSizeF 0 0) updates.

Definition cancelActiveSwipeGestures r : GestureRecognizer :=
  (foldl (fun r g => emit (cancelled g) r) r (m_activeSwipeGestures r)) <| m_activeSwipeGestures := [] |>.

(** The kinds of movement that updateSwipeGesture distinguishes. *)
Inductive Movement := Ignored | Diagonal | Towards (d : Direction).

Definition movement (delta : QSizeF) : Movement :=
  if Qlt_b (Qabs (width delta)) 1 && Qlt_b (Qabs (height delta)) 1 then Ignored
  else if Qeq_bool (width delta) (height delta) then Diagonal
  else if Qlt_b (Qabs (height delta)) (Qabs (width delta))
       then Towards (if Qlt_b (width delta) 0 then Left else Right)
       else Towards (if Qlt_b (height delta) 0 then Up else Down).

(** The loop over the active gestures: the remaining ones. *)
Fixpoint update_loop (direction : Direction) (combinedDelta : QSizeF) (l : list gid) r
    : GestureRecognizer * list gid :=
  match l with
  | [] => (r, [])
  | g :: l' =>
      if bool_decide (m_direction (G g) = direction) then
        let r1 := match m_minimumDelta (G g) with
                  | Some _ => emit (progress g (minimumDeltaReachedProgress (G g) combinedDelta)) r
                  | None => r
                  end in
        let '(r2, kept) := update_loop direction combinedDelta l' r1 in (r2, g :: kept)
      else update_loop direction combinedDelta l' (emit (cancelled g) r)
  end.

Definition updateSwipeGesture (delta : QSizeF) r : GestureRecognizer :=
  let r1 := r <| m_swipeUpdates := m_swipeUpdates r ++ [delta] |> in
  match movement delta with
  | Ignored => r1
  | Diagonal => cancelActiveSwipeGestures r1
  | Towards direction =>
      let '(r2, kept) :=
        update_loop direction (combined (m_swipeUpdates r1)) (m_activeSwipeGestures r1) r1 in
      r2 <| m_activeSwipeGestures := kept |>
  end.

Definition cancelSwipeGesture r : GestureRecognizer :=
  (cancelActiveSwipeGestures r) <| m_swipeUpdates := [] |>.

Definition endSwipeGesture r : GestureRecognizer :=
  let delta := combined (m_swipeUpdates r) in
  let r1 := foldl (fun r g => emit (if minimumDeltaReached (G g) delta then triggered g else cancelled g) r)
              r (m_activeSwipeGestures r) in
  r1 <| m_activeSwipeGestures := [] |> <| m_swipeUpdates := [] |>.

(** ** Events *)

Inductive Event :=
  | Register (g : gid) | Unregister (g : gid)
  | Start (fingerCount : Z) (startPos : QPointF) (behavior : StartPositionBehavior)
  | Update (delta : QSizeF) | Cancel | End.

Definition step (e : Event) r : GestureRecognizer :=
  match e with
  | Register g => registerGesture g r
  | Unregister g => unregisterGesture g r
  | Start n pos behavior => fst (startSwipeGesture n pos behavior r)
  | Update delta => updateSwipeGesture delta r
  | Cancel => cancelSwipeGesture r
  | End => endSwipeGesture r
  end.

Definition run (es : list Event) r : GestureRecognizer := foldl (fun r e => step e r) r es.
End Recognizer.

(** ** Signals *)

Definition is_started (g : gid) (s : Signal) : bool :=
  match s with started x => (x =? g)%nat | _ => false end.
Definition is_triggered (g : gid) (s : Signal) : bool :=
  match s with triggered x => (x =? g)%nat | _ => false end.
Definition is_cancelled (g : gid) (s : Signal) : bool :=
  match s with cancelled x => (x =? g)%nat | _ => false end.

(** How often a signal of a kind was emitted. *)
Fixpoint times (p : Signal -> bool) (l : list Signal) : nat :=
  match l with [] => O | s :: l' => ((if p s then 1 else 0) + times p l')%nat end.

(** How often a gesture is in a list. *)
Fixpoint occurrences (g : gid) (l : list gid) : nat :=
  match l with [] => O | x :: l' => ((if (x =? g)%nat then 1 else 0) + occurrences g l')%nat end.

Lemma times_app p l k : times p (l ++ k) = (times p l + times p k)%nat.
Proof. induction l as [|s l IH]; [done|]. cbn. rewrite IH. lia. Qed.

Lemma occurrences_app g l k : occurrences g (l ++ k) = (occurrences g l + occurrences g k)%nat.
Proof. induction l as [|x l IH]; [done|]. cbn. rewrite IH. lia. Qed.

Lemma occurrences_in g l : g ∈ l -> (0 < occurrences g l)%nat.
Proof.
  induction l as [|x l IH]; [by intros ?%not_elem_of_nil|]. intros [->|Hin]%elem_of_cons; cbn.
  - rewrite Nat.eqb_refl. lia.
  - specialize (IH Hin). lia.
Qed.

Lemma occurrences_removeOne g h l :
  occurrences g (removeOne h l) = (occurrences g l - (if (h =? g)%nat && contains l h then 1 else 0))%nat.
Proof.
  induction l as [|x l IH]; cbn; [destruct (h =? g)%nat; done|].
  destruct (Nat.eqb_spec x h) as [->|Hne].
  - assert (contains (h :: l) h = true) as -> by (apply contains_true; by left).
    rewrite andb_true_r. destruct (h =? g)%nat; lia.
  - cbn. rewrite IH. assert (contains (x :: l) h = contains l h) as ->.
    { unfold contains. apply bool_decide_ext. rewrite elem_of_cons. naive_solver. }
    destruct (Nat.eqb_spec h g) as [->|]; cbn [andb]; [|lia].
    destruct (contains l g) eqn:E; [|lia]. apply contains_true, occurrences_in in E.
    destruct (x =? g)%nat; lia.
Qed.

(** A movement that does not contradict a direction. *)
Definition agrees (direction : Direction) (delta : QSizeF) : bool :=
  match movement delta with
  | Ignored => true
  | Diagonal => false
  | Towards d => bool_decide (direction = d)
  end.

(** The balance of a gesture: it was started as often as it has come to an end or
    is still active. *)
Definition balanced (g : gid) (r : GestureRecognizer) : Prop :=
  times (is_started g) (signals r) =
  (times (is_triggered g) (signals r) + times (is_cancelled g) (signals r) +
   occurrences g (m_activeSwipeGestures r))%nat.

Section Balance.
Variable G : gid -> SwipeGesture.
Implicit Types (r : GestureRecognizer) (g : gid).

Lemma start_balanced n pos behavior l r c g :
  balanced g r -> balanced g (fst (start_loop G n pos behavior l r c)).
Proof.
  revert r c. induction l as [|x l IH]; intros r c Hr; [done|]. cbn.
  destruct (starts G n pos behavior x); apply IH; [|done].
  unfold balanced in *. cbn. rewrite occurrences_app. cbn. lia.
Qed.

Lemma unregister_balanced h r g : balanced g r -> balanced g (unregisterGesture h r).
Proof.
  unfold balanced, unregisterGesture. cbn. intros Hr.
  destruct (contains (m_activeSwipeGestures r) h) eqn:E; cbn; [|done].
  rewrite occurrences_removeOne, E, andb_true_r.
  destruct (Nat.eqb_spec h g) as [->|]; [|lia].
  apply contains_true, occurrences_in in E. lia.
Qed.

(** Emitting a final signal for every element of a list. *)
Lemma finish_times (f : gid -> Signal) l r g :
  (forall x, f x = triggered x \/ f x = cancelled x) ->
  let r' := foldl (fun r x => emit (f x) r) r l in
  times (is_started g) (signals r') = times (is_started g) (signals r) /\
  (times (is_triggered g) (signals r') + times (is_cancelled g) (signals r') =
   times (is_triggered g) (signals r) + times (is_cancelled g) (signals r) + occurrences g l)%nat.
Proof.
  intros Hf. revert r. induction l as [|x l IH]; intros r; cbn; [lia|].
  destruct (IH (emit (f x) r)) as [E1 E2]. rewrite E1, E2. cbn.
  destruct (Hf x) as [-> | ->]; cbn; lia.
Qed.

Lemma cancel_balanced r g : balanced g r -> balanced g (cancelActiveSwipeGestures r).
Proof.
  unfold balanced, cancelActiveSwipeGestures. cbn. intros Hr.
  destruct (finish_times cancelled (m_activeSwipeGestures r) r g) as [E1 E2]; [by right|].
  cbn in *. lia.
Qed.

Lemma end_balanced r g : balanced g r -> balanced g (endSwipeGesture G r).
Proof.
  unfold balanced, endSwipeGesture. cbn. intros Hr.
  destruct (finish_times (fun x => if minimumDeltaReached (G x) (combined (m_swipeUpdates r))
    then triggered x else cancelled x) (m_activeSwipeGestures r) r g) as [E1 E2].
  { intros x. destruct (minimumDeltaReached _ _); auto. }
  cbn in *. lia.
Qed.

Lemma update_loop_times direction delta l r g :
  let '(r', kept) := update_loop G direction delta l r in
  times (is_started g) (signals r') = times (is_started g) (signals r) /\
  times (is_triggered g) (signals r') = times (is_triggered g) (signals r) /\
  (times (is_cancelled g) (signals r') + occurrences g kept =
   times (is_cancelled g) (signals r) + occurrences g l)%nat /\
  kept = filter (fun x => m_direction (G x) = direction) l /\
  m_swipeUpdates r' = m_swipeUpdates r /\ m_gestures r' = m_gestures r.
Proof.
  revert r. induction l as [|x l IH]; intros r; [by split_and!|]. cbn [update_loop].
  rewrite filter_cons. case_bool_decide as Hd.
  - rewrite decide_True by done.
    set (r1 := match m_minimumDelta (G x) with Some _ => _ | None => _ end).
    specialize (IH r1). destruct (update_loop G direction delta l r1) as [r2 kept].
    assert (forall p, p (progress x (minimumDeltaReachedProgress (G x) delta)) = false ->
      times p (signals r1) = times p (signals r)) as H1.
    { intros p Hp. unfold r1. destruct (m_minimumDelta (G x)); [|done]. cbn. by rewrite Hp. }
    rewrite !H1 in IH by done. destruct IH as (E1 & E2 & E3 & -> & E5 & E6). cbn [occurrences].
    split_and!; [done..|lia|done| |]; rewrite ?E5, ?E6; unfold r1; by destruct (m_minimumDelta (G x)).
  - rewrite decide_False by done. specialize (IH (emit (cancelled x) r)).
    destruct (update_loop G direction delta l _) as [r2 kept]. cbn in IH |- *.
    destruct IH as (E1 & E2 & E3 & E4 & E5 & E6). split_and!; try done. lia.
Qed.

Lemma update_balanced delta r g : balanced g r -> balanced g (updateSwipeGesture G delta r).
Proof.
  intros Hr. unfold updateSwipeGesture.
  set (r1 := r <| m_swipeUpdates := m_swipeUpdates r ++ [delta] |>).
  assert (balanced g r1) as Hr1 by done. destruct (movement delta) as [| |direction]; [done| |].
  - by apply cancel_balanced.
  - pose proof (update_loop_times direction (combined (m_swipeUpdates r1)) (m_activeSwipeGestures r1) r1 g) as H.
    destruct (update_loop G direction _ _ r1) as [r2 kept]. unfold balanced in *. cbn in *. lia.
Qed.

Lemma run_balanced es r g : balanced g r -> balanced g (run G es r).
Proof.
  revert r. induction es as [|e es IH]; intros r Hr; [done|]. cbn. apply IH.
  destruct e as [h|h|n pos behavior|delta| |]; cbn [step].
  - done.
  - by apply unregister_balanced.
  - by apply start_balanced.
  - by apply update_balanced.
  - by apply (cancel_balanced r g Hr).
  - by apply end_balanced.
Qed.

(** A gesture that is started comes to exactly one end. Whatever is registered,
    unregistered, moved and restarted, it has never ended more often than it was
    started; and when the swipe ends or is cancelled, every start has been answered
    by one triggered or cancelled signal. *)
Theorem started_gestures_end es g :
  let ended l := (times (is_triggered g) l + times (is_cancelled g) l)%nat in
  let l := signals (run G es new_recognizer) in
  let l_end := signals (run G (es ++ [End]) new_recognizer) in
  let l_cancel := signals (run G (es ++ [Cancel]) new_recognizer) in
  (ended l <= times (is_started g) l)%nat /\
  times (is_started g) l_end = ended l_end /\
  times (is_started g) l_cancel = ended l_cancel.
Proof.
  assert (balanced g new_recognizer) as H0 by done.
  pose proof (run_balanced es _ g H0) as H1.
  pose proof (run_balanced (es ++ [End]) _ g H0) as H2.
  pose proof (run_balanced (es ++ [Cancel]) _ g H0) as H3.
  unfold balanced in H1, H2, H3. cbn zeta. unfold run in *. rewrite !foldl_app in *. cbn in *. lia.
Qed.
End Balance.

(** ** Which gestures trigger *)

Section Triggering.
Variable G : gid -> SwipeGesture.
Implicit Types (r : GestureRecognizer) (g : gid).

Lemma start_loop_active n pos behavior l r c :
  let r' := fst (start_loop G n pos behavior l r c) in
  m_activeSwipeGestures r' =
    m_activeSwipeGestures r ++ filter (fun g => starts G n pos behavior g = true) l /\
  m_swipeUpdates r' = m_swipeUpdates r /\
  forall g, times (is_triggered g) (signals r') = times (is_triggered g) (signals r).
Proof.
  revert r c. induction l as [|x l IH]; intros r c; [by rewrite app_nil_r|]. cbn [start_loop].
  rewrite filter_cons. destruct (starts G n pos behavior x) eqn:E.
  - rewrite decide_True by done. destruct (IH (emit (started x) (r <| m_activeSwipeGestures :=
      m_activeSwipeGestures r ++ [x] |>)) (c + 1)) as (E1 & E2 & E3).
    cbn zeta. rewrite E1, E2. split_and!; [cbn; by rewrite <- app_assoc|done|]. intros g. by rewrite E3.
  - by rewrite decide_False.
Qed.

Lemma foldl_cancelled (l : list gid) r :
  let r' := foldl (fun r x => emit (cancelled x) r) r l in
  m_swipeUpdates r' = m_swipeUpdates r /\
  forall g, times (is_triggered g) (signals r') = times (is_triggered g) (signals r).
Proof.
  revert r. induction l as [|x l IH]; intros r; [done|]. destruct (IH (emit (cancelled x) r)) as [E1 E2].
  split; [exact E1|exact E2].
Qed.

Lemma update_active delta r :
  let r' := updateSwipeGesture G delta r in
  m_activeSwipeGestures r' =
    filter (fun g => agrees (m_direction (G g)) delta = true) (m_activeSwipeGestures r) /\
  m_swipeUpdates r' = m_swipeUpdates r ++ [delta] /\
  forall g, times (is_triggered g) (signals r') = times (is_triggered g) (signals r).
Proof.
  unfold updateSwipeGesture, agrees. set (r1 := r <| m_swipeUpdates := m_swipeUpdates r ++ [delta] |>).
  destruct (movement delta) as [| |direction].
  - split_and!; [symmetry; by apply filter_all_in|done..].
  - destruct (foldl_cancelled (m_activeSwipeGestures r1) r1) as [E1 E2]. split_and!; [|exact E1|exact E2].
    cbn. induction (m_activeSwipeGestures r) as [|x l IH]; [done|]. by rewrite filter_cons, decide_False.
  - pose proof (update_loop_times G direction (combined (m_swipeUpdates r1)) (m_activeSwipeGestures r1) r1) as H.
    destruct (update_loop G direction _ _ r1) as [r2 kept]. cbn.
    destruct (H O) as (_ & _ & _ & -> & Eu & _). split_and!; [|done|intros g; apply (H g)].
    apply filter_iff_in. intros x _. by rewrite bool_decide_eq_true.
Qed.

Lemma updates_active ds r :
  let r' := run G (Update <$> ds) r in
  m_activeSwipeGestures r' =
    filter (fun g => forallb (agrees (m_direction (G g))) ds = true) (m_activeSwipeGestures r) /\
  m_swipeUpdates r' = m_swipeUpdates r ++ ds /\
  forall g, times (is_triggered g) (signals r') = times (is_triggered g) (signals r).
Proof.
  revert r. induction ds as [|d ds IH]; intros r.
  - split_and!; [symmetry; by apply filter_all_in|by rewrite app_nil_r|done].
  - destruct (update_active d r) as (E1 & E2 & E3). destruct (IH (updateSwipeGesture G d r)) as (F1 & F2 & F3).
    cbn zeta in *. change (run G (Update <$> d :: ds) r) with
      (run G (Update <$> ds) (updateSwipeGesture G d r)).
    rewrite F1, F2, E1, E2. split_and!.
    + rewrite list_filter_filter. apply filter_iff_in. intros x _. cbn. rewrite andb_true_iff. tauto.
    + by rewrite <- app_assoc.
    + intros g. by rewrite F3, E3.
Qed.

Lemma end_triggers (l : list gid) (p : gid -> bool) r g :
  times (is_triggered g) (signals (foldl (fun r x => emit (if p x then triggered x else cancelled x) r) r l)) =
  (times (is_triggered g) (signals r) + if p g then occurrences g l else 0)%nat.
Proof.
  revert r. induction l as [|x l IH]; intros r; cbn; [destruct (p g); lia|]. rewrite IH. cbn.
  destruct (Nat.eqb_spec x g) as [->|Hne].
  - destruct (p g); cbn; [rewrite Nat.eqb_refl|]; lia.
  - destruct (p x); cbn; [rewrite (proj2 (Nat.eqb_neq _ _)) by done|]; destruct (p g); lia.
Qed.

Lemma occurrences_NoDup g l : NoDup l -> occurrences g l = if contains l g then 1%nat else O.
Proof.
  induction l as [|x l IH]; [done|]. intros [Hx Hl]%NoDup_cons. cbn. rewrite IH by done.
  destruct (Nat.eqb_spec x g) as [->|Hne].
  - assert (contains l g = false) as -> by (by apply contains_false).
    assert (contains (g :: l) g = true) as -> by (apply contains_true; by left). done.
  - assert (contains (x :: l) g = contains l g) as ->; [|done].
    unfold contains. apply bool_decide_ext. rewrite elem_of_cons. naive_solver.
Qed.

(** One whole swipe, from a recognizer without a running gesture: a gesture is
    triggered once if it is registered, the number of fingers and the start position
    fit it, no movement goes against its direction or along the diagonal (movements
    below one pixel do not count), and the movements together reach its minimal
    length; otherwise it is not triggered. *)
Theorem swipe_triggers n pos behavior ds r g :
  m_activeSwipeGestures r = [] -> m_swipeUpdates r = [] -> NoDup (m_gestures r) ->
  let r' := run G (Start n pos behavior :: (Update <$> ds) ++ [End]) r in
  times (is_triggered g) (signals r') =
    (times (is_triggered g) (signals r) +
     if contains (m_gestures r) g && starts G n pos behavior g &&
        forallb (agrees (m_direction (G g))) ds && minimumDeltaReached (G g) (combined ds)
     then 1 else 0)%nat.
Proof.
  intros Ha Hu Hnd. cbn zeta. unfold run. cbn [foldl step]. rewrite foldl_app. cbn [foldl step].
  fold (run G (Update <$> ds) (fst (startSwipeGesture G n pos behavior r))).
  destruct (start_loop_active n pos behavior (m_gestures r) r 0) as (E1 & E2 & E3).
  fold (startSwipeGesture G n pos behavior r) in E1, E2, E3.
  set (r1 := fst (startSwipeGesture G n pos behavior r)) in *. cbn zeta in *.
  destruct (updates_active ds r1) as (F1 & F2 & F3). cbn zeta in *.
  set (r2 := run G (Update <$> ds) r1) in *.
  unfold endSwipeGesture. change (signals (?a <| m_activeSwipeGestures := [] |> <| m_swipeUpdates := [] |>))
    with (signals a).
  rewrite (end_triggers _ (fun x => minimumDeltaReached (G x) (combined (m_swipeUpdates r2)))).
  rewrite F3, E3, F2, E2, Hu, F1, E1, Ha. cbn [app]. f_equal.
  rewrite occurrences_NoDup by (by apply NoDup_filter, NoDup_filter).
  destruct (minimumDeltaReached (G g) (combined ds)); [|by rewrite andb_false_r].
  rewrite andb_true_r.
  match goal with |- (if contains ?l g then _ else _) = _ =>
    assert (contains l g = contains (m_gestures r) g && starts G n pos behavior g &&
      forallb (agrees (m_direction (G g))) ds) as -> end; [|done].
  apply eq_bool_prop_intro. rewrite !andb_True, !Is_true_true, !contains_true.
  rewrite !list_elem_of_filter. tauto.
Qed.
End Triggering.

(** A swipe to the left with four fingers that has to be 20 long. *)
Definition left_swipe (g : gid) : SwipeGesture :=
  setMinimumDelta (mkSizeF 20 20) (setDirection Left (setMinimumFingerCount 4
    (setMaximumFingerCount 4 new_gesture))).
Definition one_gesture : GestureRecognizer := registerGesture 7 new_recognizer.

Lemma swipe_triggers_witness :
  times (is_triggered 7) (signals (run left_swipe (Start 4 (mkPointF 0 0) Irrelevant ::
    (Update <$> [mkSizeF (-15) 3; mkSizeF (1#2) (1#3); mkSizeF (-8) 1]) ++ [End]) one_gesture)) = 1%nat.
Proof.
  rewrite (swipe_triggers left_swipe 4 (mkPointF 0 0) Irrelevant
    [mkSizeF (-15) 3; mkSizeF (1#2) (1#3); mkSizeF (-8) 1] one_gesture 7); [by vm_compute|done|done|].
  apply NoDup_singleton.
Defined.

(** Of the two diagonals only the one along which both lengths have the same sign
    counts as one. *)
Example diagonals :
  movement (mkSizeF 5 5) = Diagonal /\ movement (mkSizeF 5 (-5)) = Towards Up.
Proof. by vm_compute. Qed.

End Gestures.
