(* ===== verification/WorkArea.v ===== *)
(** * Screens and work areas (src/screens.cpp, workspace.cpp, win/x11/geo.h)

    The geometry of the outputs, the areas that docks and panels leave to the
    other windows, and the lookup of areas that placement, maximizing and moving
    start from. A vector that is read outside of its bounds is undefined behaviour
    in the program; here the read gives an empty rectangle and a write does
    nothing, and the theorems assume desktops that exist. *)

From S2P Require Import Prelude Qt.

Module WorkArea.
Import Qt.

(** [QRect()] *)
Definition null_rect : QRect := mkRect 0 0 0 0.
#[global] Instance QRect_inhabited : Inhabited QRect := populate null_rect.

(** ** Screens *)

Record Screens := mkScreens {
  outputs : list QRect;           (** the geometries of the enabled outputs *)
  m_count : Z;
  m_current : Z;
  m_currentFollowsMouse : bool;
  m_boundingSize : QSize;
}.
#[global] Instance Screens_eta : RecordEta Screens := fun s =>
  mkScreens (outputs s) (m_count s) (m_current s) (m_currentFollowsMouse s) (m_boundingSize s).

Definition findOutput (s : Screens) (screen : Z) : option QRect :=
  if screen <? 0 then None else outputs s !! Z.to_nat screen.

Definition geometry (s : Screens) (screen : Z) : QRect := default null_rect (findOutput s screen).

Definition screen_geometries (s : Screens) : list QRect :=
  (fun i => geometry s (Z.of_nat i)) <$> seq 0 (Z.to_nat (m_count s)).

Definition displaySize (s : Screens) : QSize := m_boundingSize s.

Definition updateSize (s : Screens) : Screens :=
  s <| m_boundingSize := size (foldl united null_rect (screen_geometries s)) |>.
Definition updateCount (s : Screens) : Screens := s <| m_count := Z.of_nat (length (outputs s)) |>.
Definition updateAll (s : Screens) : Screens := updateSize (updateCount s).

Definition intersecting (s : Screens) (r : QRect) : Z :=
  foldl (fun cnt g => if intersects g r then cnt + 1 else cnt) 0 (screen_geometries s).

Definition manhattanLength (p : QPoint) : Z := Z.abs (px p) + Z.abs (py p).

(** The distance of a position to a screen: to the nearest corner. *)
Definition corner_distance (geo : QRect) (pos : QPoint) : Z :=
  let distance := manhattanLength (psub (topLeft geo) pos) in
  let distance := Z.min distance (manhattanLength (psub (topRight geo) pos)) in
  let distance := Z.min distance (manhattanLength (psub (bottomRight geo) pos)) in
  Z.min distance (manhattanLength (psub (bottomLeft geo) pos)).

(** The loop of Screens::number. *)
Fixpoint number_loop (pos : QPoint) (l : list QRect) (i bestScreen minDistance : Z) : Z :=
  match l with
  | [] => bestScreen
  | geo :: l' =>
      if contains_point geo pos then i
      else let distance := corner_distance geo pos in
           if distance <? minDistance then number_loop pos l' (i + 1) i distance
           else number_loop pos l' (i + 1) bestScreen minDistance
  end.
Definition number (s : Screens) (pos : QPoint) : Z := number_loop pos (outputs s) 0 0 INT_MAX.

Definition setCurrent (current : Z) (s : Screens) : Screens := s <| m_current := current |>.

(** The current screen: of the cursor, or of the active window, given by its frame
    and its screen. *)
Definition current (s : Screens) (cursor : QPoint) (active : option (QRect * Z)) : Z :=
  if m_currentFollowsMouse s then number s cursor
  else match active with
       | Some (frame, screen) =>
           if negb (intersects (geometry s (m_current s)) frame) then screen else m_current s
       | None => m_current s
       end.

(** ** Struts *)

Inductive StrutArea := StrutAreaInvalid | StrutAreaTop | StrutAreaRight | StrutAreaBottom | StrutAreaLeft.
#[global] Instance StrutArea_eq_dec : EqDecision StrutArea.
Proof. solve_decision. Defined.

Record StrutRect := mkStrutRect { rect : QRect; area : StrutArea }.
#[global] Instance StrutRect_eq_dec : EqDecision StrutRect.
Proof. solve_decision. Defined.

(** NETStrut and NETExtendedStrut. *)
Record NETStrut := mkStrut { s_left : Z; s_right : Z; s_top : Z; s_bottom : Z }.
Record NETExtendedStrut := mkExtStrut {
  left_width : Z; left_start : Z; left_end : Z;
  right_width : Z; right_start : Z; right_end : Z;
  top_width : Z; top_start : Z; top_end : Z;
  bottom_width : Z; bottom_start : Z; bottom_end : Z;
}.

(** A shell surface as far as it decides about struts. *)
Record PlasmaSurface := mkPlasma { is_panel : bool; always_visible : bool }.

Inductive Client :=
  | X11Client (extended : NETExtendedStrut) (simple : NETStrut)
  | WaylandClient (shown : bool) (plasma_shell_surface : option PlasmaSurface)
      (layer_surface : option Z)          (** the exclusive zone *)
  | OtherClient.

Record AreaWindow := mkAreaWindow {
  client : Client;
  w_screen : Z;
  w_desktop : Z;
  w_onAllDesktops : bool;
  w_frameGeometry : QRect;
  w_pending : QRect;               (** pending_frame_geometry *)
}.

(** ** Areas *)

Inductive clientAreaOption :=
  | PlacementArea | MovementArea | MaximizeArea | MaximizeFullArea | FullScreenArea
  | WorkAreaOption | FullArea | ScreenArea.
#[global] Instance clientAreaOption_eq_dec : EqDecision clientAreaOption.
Proof. solve_decision. Defined.

(** The members of Workspace. *)
Record Areas := mkAreas {
  workarea : list QRect;
  restrictedmovearea : list (list StrutRect);
  oldrestrictedmovearea : list (list StrutRect);
  screenarea : list (list QRect);
  oldscreensizes : list QRect;
  olddisplaysize : QSize;
}.
#[global] Instance Areas_eta : RecordEta Areas := fun a =>
  mkAreas (workarea a) (restrictedmovearea a) (oldrestrictedmovearea a) (screenarea a)
    (oldscreensizes a) (olddisplaysize a).

Definition OnAllDesktops : Z := -1.

Section Lookup.
Variable s : Screens.
Variable current_screen current_desktop : Z.
Variable a : Areas.

Definition resolve_desktop (desktop : Z) : nat :=
  Z.to_nat (if (desktop =? OnAllDesktops) || (desktop =? 0) then current_desktop else desktop).

(** Workspace::clientArea of a screen. *)
Definition clientArea_screen (opt : clientAreaOption) (screen desktop : Z) : QRect :=
  let desktop := resolve_desktop desktop in
  let screen := if screen =? -1 then current_screen else screen in
  let display := mkRect 0 0 (sw (displaySize s)) (sh (displaySize s)) in
  let sarea := if negb (bool_decide (screenarea a = [])) &&
                  (screen <? Z.of_nat (length (screenarea a !!! desktop)))
               then (screenarea a !!! desktop) !!! Z.to_nat screen
               else geometry s screen in
  let warea := if isNull (workarea a !!! desktop) then display else workarea a !!! desktop in
  match opt with
  | MaximizeArea | PlacementArea => sarea
  | MaximizeFullArea | FullScreenArea | MovementArea | ScreenArea => geometry s screen
  | WorkAreaOption => warea
  | FullArea => display
  end.

(** Of a point. *)
Definition clientArea (opt : clientAreaOption) (p : QPoint) (desktop : Z) : QRect :=
  clientArea_screen opt (number s p) desktop.

(** Of a window. *)
Definition clientArea_window (opt : clientAreaOption) (w : AreaWindow) : QRect :=
  clientArea opt (center (w_pending w)) (w_desktop w).

(** The rectangles of the region that a window may not be moved into. *)
Definition strutsToRegion (desktop : Z) (which : StrutArea -> bool) (struts : list (list StrutRect))
    : list QRect :=
  rect <$> filter (fun r => which (area r) = true) (struts !!! resolve_desktop desktop).

Definition restrictedMoveArea (desktop : Z) (which : StrutArea -> bool) : list QRect :=
  strutsToRegion desktop which (restrictedmovearea a).
Definition previousRestrictedMoveArea (desktop : Z) (which : StrutArea -> bool) : list QRect :=
  strutsToRegion desktop which (oldrestrictedmovearea a).
Definition inUpdateClientArea : bool := negb (bool_decide (oldrestrictedmovearea a = [])).
End Lookup.

Section Struts.
Variable s : Screens.

(** win::x11::strut *)
Definition strut (ext : NETExtendedStrut) (str : NETStrut) : NETExtendedStrut :=
  let d := displaySize s in
  if (left_width ext =? 0) && (right_width ext =? 0) && (top_width ext =? 0) && (bottom_width ext =? 0) &&
     (negb (s_left str =? 0) || negb (s_right str =? 0) || negb (s_top str =? 0) || negb (s_bottom str =? 0))
  then
    let l := if s_left str =? 0 then (left_width ext, left_start ext, left_end ext)
             else (s_left str, 0, sh d) in
    let r := if s_right str =? 0 then (right_width ext, right_start ext, right_end ext)
             else (s_right str, 0, sh d) in
    let t := if s_top str =? 0 then (top_width ext, top_start ext, top_end ext)
             else (s_top str, 0, sw d) in
    let b := if s_bottom str =? 0 then (bottom_width ext, bottom_start ext, bottom_end ext)
             else (s_bottom str, 0, sw d) in
    mkExtStrut l.1.1 l.1.2 l.2 r.1.1 r.1.2 r.2 t.1.1 t.1.2 t.2 b.1.1 b.1.2 b.2
  else ext.

Definition no_strut : NETExtendedStrut := mkExtStrut 0 0 0 0 0 0 0 0 0 0 0 0.
Definition client_strut (w : AreaWindow) : NETExtendedStrut :=
  match client w with X11Client ext str => strut ext str | _ => no_strut end.

Definition hasStrut (w : AreaWindow) : bool :=
  match client w with
  | X11Client _ _ =>
      let ext := client_strut w in
      negb ((left_width ext =? 0) && (right_width ext =? 0) && (top_width ext =? 0) && (bottom_width ext =? 0))
  | WaylandClient shown plasma layer =>
      if negb shown then false
      else match plasma with
           | Some p => is_panel p && always_visible p
           | None => match layer with Some zone => 0 <? zone | None => false end
           end
  | OtherClient => false
  end.

(** The zones that adjusted_client_area computes from a strut: left, right, top and
    bottom, before and after they are limited to the screen of the window. *)
Definition staL (str : NETExtendedStrut) : QRect :=
  mkRect 0 (left_start str) (left_width str) (left_end str - left_start str + 1).
Definition staR (desktopArea : QRect) (str : NETExtendedStrut) : QRect :=
  mkRect (right desktopArea - right_width str + 1) (right_start str) (right_width str)
    (right_end str - right_start str + 1).
Definition staT (str : NETExtendedStrut) : QRect :=
  mkRect (top_start str) 0 (top_end str - top_start str + 1) (top_width str).
Definition staB (desktopArea : QRect) (str : NETExtendedStrut) : QRect :=
  mkRect (bottom_start str) (bottom desktopArea - bottom_width str + 1)
    (bottom_end str - bottom_start str + 1) (bottom_width str).

Definition zones (w : AreaWindow) (desktopArea area screenarea : QRect) : QRect * QRect * QRect * QRect :=
  let str := client_strut w in
  let whole := bool_decide (area = mkRect 0 0 (sw (displaySize s)) (sh (displaySize s))) in
  let l := staL str in let r := staR desktopArea str in let t := staT str in let b := staB desktopArea str in
  let l := if whole && (left l <? left screenarea) then null_rect else l in
  let r := if whole && (right screenarea <? right r) then null_rect else r in
  let t := if whole && (top t <? top screenarea) then null_rect else t in
  let b := if whole && (bottom b <? bottom screenarea) then null_rect else b in
  (setLeft l (Z.max (left l) (left screenarea)), setRight r (Z.min (right r) (right screenarea)),
   setTop t (Z.max (top t) (top screenarea)), setBottom b (Z.min (bottom b) (bottom screenarea))).

(** win::x11::adjusted_client_area; the screen of the window is given. *)
Definition adjusted_area_on (w : AreaWindow) (desktopArea area screenarea : QRect) : QRect :=
  let '(l, r, t, b) := zones w desktopArea area screenarea in
  let rect := area in
  let rect := if intersects l area then setLeft rect (right l + 1) else rect in
  let rect := if intersects r area then setRight rect (left r - 1) else rect in
  let rect := if intersects t area then setTop rect (bottom t + 1) else rect in
  if intersects b area then setBottom rect (top b - 1) else rect.

Definition adjusted_client_area (w : AreaWindow) (desktopArea area : QRect) : QRect :=
  adjusted_area_on w desktopArea area (geometry s (number s (center (w_pending w)))).

Definition strut_rect (w : AreaWindow) (which : StrutArea) : StrutRect :=
  let d := displaySize s in
  let str := client_strut w in
  let none := mkStrutRect null_rect StrutAreaInvalid in
  match which with
  | StrutAreaTop =>
      if top_width str =? 0 then none
      else mkStrutRect (mkRect (top_start str) 0 (top_end str - top_start str) (top_width str)) which
  | StrutAreaRight =>
      if right_width str =? 0 then none
      else mkStrutRect (mkRect (sw d - right_width str) (right_start str) (right_width str)
             (right_end str - right_start str)) which
  | StrutAreaBottom =>
      if bottom_width str =? 0 then none
      else mkStrutRect (mkRect (bottom_start str) (sh d - bottom_width str)
             (bottom_end str - bottom_start str) (bottom_width str)) which
  | StrutAreaLeft =>
      if left_width str =? 0 then none
      else mkStrutRect (mkRect 0 (left_start str) (left_width str) (left_end str - left_start str)) which
  | StrutAreaInvalid => none
  end.

Definition strut_rects (w : AreaWindow) : list StrutRect :=
  [strut_rect w StrutAreaTop; strut_rect w StrutAreaRight; strut_rect w StrutAreaBottom;
   strut_rect w StrutAreaLeft].
End Struts.

Section Update.
Variable s : Screens.
Variable numberOfDesktops : nat.

(** The areas under construction. *)
Record NewAreas := mkNewAreas {
  new_wareas : list QRect;
  new_rmoveareas : list (list StrutRect);
  new_sareas : list (list QRect);
}.

Definition desktopArea : QRect := foldl united null_rect (screen_geometries s).

Definition initial_areas : NewAreas :=
  mkNewAreas (null_rect :: replicate numberOfDesktops desktopArea)
    (replicate (S numberOfDesktops) [])
    ([] :: replicate numberOfDesktops (screen_geometries s)).

(** The desktops whose areas a window takes part in. *)
Definition target_desktops (w : AreaWindow) : list nat :=
  if w_onAllDesktops w then seq 1 numberOfDesktops else [Z.to_nat (w_desktop w)].

(** The area that an X11 window leaves of the whole desktop. *)
Definition x11_desktop_area (w : AreaWindow) : QRect :=
  let r := adjusted_client_area s w desktopArea desktopArea in
  if forallb (fun g => intersects r g) (screen_geometries s) then r else desktopArea.

Definition x11_strut_region (w : AreaWindow) : list StrutRect :=
  (fun r => mkStrutRect (intersected (rect r) (geometry s (w_screen w))) (area r)) <$> strut_rects s w.

(** Is a part of a strut outside of all screens? The rectangles of a QRegion, from
    which the screens are cut out one by one. *)
Definition rect_minus (r g : QRect) : list QRect :=
  if intersects r g then
    filter (fun x => isEmpty x = false)
      [of_edges (left r) (top r) (right r) (top g - 1);
       of_edges (left r) (bottom g + 1) (right r) (bottom r);
       of_edges (left r) (Z.max (top r) (top g)) (left g - 1) (Z.min (bottom r) (bottom g));
       of_edges (right g + 1) (Z.max (top r) (top g)) (right r) (Z.min (bottom r) (bottom g))]
  else [r].
Definition region_minus (region : list QRect) (g : QRect) : list QRect :=
  if isEmpty g then region else mbind (fun r => rect_minus r g) region.
Definition has_offscreen_xinerama_strut (w : AreaWindow) : bool :=
  let region := filter (fun r => isEmpty r = false) (rect <$> strut_rects s w) in
  negb (bool_decide (foldl region_minus region (screen_geometries s) = [])).

(** What an X11 window leaves of the area of a screen. *)
Definition x11_screen_area (w : AreaWindow) (screen old : QRect) : QRect :=
  let geo := intersected old (adjusted_client_area s w desktopArea screen) in
  if isEmpty geo then old else geo.

Definition x11_on_desktop (w : AreaWindow) (n : NewAreas) (i : nat) : NewAreas :=
  mkNewAreas
    (if has_offscreen_xinerama_strut w then new_wareas n
     else alter (fun r => intersected r (x11_desktop_area w)) i (new_wareas n))
    (alter (fun r => r ++ x11_strut_region w) i (new_rmoveareas n))
    (alter (zip_with (x11_screen_area w) (screen_geometries s)) i (new_sareas n)).

Definition is_x11 (w : AreaWindow) : bool := match client w with X11Client _ _ => true | _ => false end.
Definition is_wayland (w : AreaWindow) : bool :=
  match client w with WaylandClient _ _ _ => true | _ => false end.

(** One round of the first loop of updateClientArea. *)
Definition x11_step (n : NewAreas) (w : AreaWindow) : NewAreas :=
  if is_x11 w && hasStrut s w then foldl (x11_on_desktop w) n (target_desktops w) else n.

(** The margins that a panel takes from a rectangle, and the area they stand for. *)
Definition panel_margins (w : AreaWindow) (geometry : QRect) : QMargins :=
  let f := w_frameGeometry w in
  if negb (intersects geometry f) then mkMargins 0 0 0 0
  else
    let l := left f =? left geometry in let r := right f =? right geometry in
    let t := top f =? top geometry in let b := bottom f =? bottom geometry in
    let horizontal := rh f <=? rw f in
    mkMargins (if l && ((negb t && negb b) || negb horizontal) then rw f else 0)
              (if t && ((negb l && negb r) || horizontal) then rh f else 0)
              (if r && ((negb t && negb b) || negb horizontal) then rw f else 0)
              (if b && ((negb l && negb r) || horizontal) then rh f else 0).

Definition marginsToStrutArea (m : QMargins) : StrutArea :=
  if negb (ml m =? 0) then StrutAreaLeft
  else if negb (mr m =? 0) then StrutAreaRight
  else if negb (mt m =? 0) then StrutAreaTop
  else if negb (mb m =? 0) then StrutAreaBottom
  else StrutAreaInvalid.

(** [operator-] of a rectangle and margins. *)
Definition minus_margins (r : QRect) (m : QMargins) : QRect :=
  of_edges (left r + ml m) (top r + mt m) (right r - mr m) (bottom r - mb m).
Definition plus_margins (r : QRect) (m : QMargins) : QRect :=
  of_edges (left r - ml m) (top r - mt m) (right r + mr m) (bottom r + mb m).

(** [Screens::geometry()] *)
Definition whole_geometry : QRect := mkRect 0 0 (sw (m_boundingSize s)) (sh (m_boundingSize s)).

Definition wayland_screen_area (w : AreaWindow) (screen old : QRect) : QRect :=
  intersected old (minus_margins screen (panel_margins w screen)).

Definition wayland_on_desktop (w : AreaWindow) (n : NewAreas) (i : nat) : NewAreas :=
  let strut := panel_margins w (geometry s (w_screen w)) in
  mkNewAreas
    (alter (fun r => intersected r (minus_margins desktopArea (panel_margins w whole_geometry)))
       i (new_wareas n))
    (alter (fun r => r ++ [mkStrutRect (w_frameGeometry w) (marginsToStrutArea strut)]) i (new_rmoveareas n))
    (alter (zip_with (wayland_screen_area w) (screen_geometries s)) i (new_sareas n)).

Definition wayland_step (n : NewAreas) (w : AreaWindow) : NewAreas :=
  if is_wayland w && hasStrut s w then foldl (wayland_on_desktop w) n (target_desktops w) else n.

(** The areas that updateClientArea computes; without a Wayland server there is no
    second loop. *)
Definition new_areas (m_allClients : list AreaWindow) (waylandServer : option (list AreaWindow)) : NewAreas :=
  let n := foldl x11_step initial_areas m_allClients in
  match waylandServer with Some windows => foldl wayland_step n windows | None => n end.

(** Do the new areas differ from those in use? Strut rectangles are compared with the
    equality of QRect, which does not look at the side they stand for. *)
Definition areas_changed (force : bool) (n : NewAreas) (a : Areas) : bool :=
  force || bool_decide (screenarea a = []) ||
  existsb (fun i =>
    negb (bool_decide (workarea a !!! i = new_wareas n !!! i)) ||
    negb (bool_decide (rect <$> restrictedmovearea a !!! i = rect <$> new_rmoveareas n !!! i)) ||
    negb (bool_decide (length (screenarea a !!! i) = length (new_sareas n !!! i))) ||
    existsb (fun iS => negb (bool_decide (new_sareas n !!! i !!! iS = screenarea a !!! i !!! iS)))
      (seq 0 (Z.to_nat (m_count s))))
    (seq 1 numberOfDesktops).

(** The assignments when something changed, up to the propagation to the windows,
    during which the previous restricted areas are kept. *)
Definition install_areas (n : NewAreas) (a : Areas) : Areas :=
  a <| workarea := new_wareas n |> <| oldrestrictedmovearea := restrictedmovearea a |>
    <| restrictedmovearea := new_rmoveareas n |> <| screenarea := new_sareas n |>.

(** Workspace::updateClientArea around the propagation of the areas to the windows,
    which is given as a function of the workspace's areas on some state of the windows. *)
Definition updateClientArea {W} (check_workspace_position : Areas -> W -> W) (force : bool)
    (m_allClients : list AreaWindow) (waylandServer : option (list AreaWindow)) (a : Areas)
    (windows : list W) : Areas * list W :=
  let n := new_areas m_allClients waylandServer in
  if areas_changed force n a then
    let a1 := install_areas n a in
    let windows' := check_workspace_position a1 <$> windows in
    (a1 <| oldrestrictedmovearea := [] |>, windows')
  else (a, windows).

(** Workspace::resetClientAreas: for a new number of desktops. *)
Definition cleared_areas (a : Areas) : Areas :=
  a <| workarea := replicate (S numberOfDesktops) null_rect |>
    <| restrictedmovearea := replicate (S numberOfDesktops) [] |> <| screenarea := [] |>.
Definition resetClientAreas {W} (check_workspace_position : Areas -> W -> W)
    (m_allClients : list AreaWindow) (waylandServer : option (list AreaWindow)) (a : Areas)
    (windows : list W) : Areas * list W :=
  updateClientArea check_workspace_position true m_allClients waylandServer (cleared_areas a) windows.

Definition saveOldScreenSizes (a : Areas) : Areas :=
  a <| olddisplaysize := displaySize s |> <| oldscreensizes := screen_geometries s |>.
End Update.

End WorkArea.
