(* ===== verification/WorkAreaProps.v ===== *)
(** * Screens and work areas: facts and properties

    The screen of a position is the one that holds it or else the nearest; the area
    that maximized windows get on a screen is never empty, lies on that screen and
    keeps clear of the struts of the docks. *)

From S2P Require Import Prelude Qt WorkArea.

Module WorkAreaProps.
Import Qt WorkArea.

(** ** The screen of a position *)

Lemma number_loop_spec pos l i best m :
  let k := number_loop pos l i best m in
  (exists j g, l !! j = Some g /\ k = i + Z.of_nat j /\ contains_point g pos = true) \/
  (forall h, h ∈ l -> contains_point h pos = false) /\
  ((k = best /\ forall h, h ∈ l -> m <= corner_distance h pos) \/
   (exists j g, l !! j = Some g /\ k = i + Z.of_nat j /\ corner_distance g pos < m /\
      forall h, h ∈ l -> corner_distance g pos <= corner_distance h pos)).
Proof.
  revert i best m. induction l as [|g l IH]; intros i best m; cbn.
  { right. split; [by intros h ?%not_elem_of_nil|]. left. split; [done|]. by intros h ?%not_elem_of_nil. }
  destruct (contains_point g pos) eqn:Eg.
  { left. exists O, g. cbn. split_and!; [done|lia|done]. }
  set (m' := if corner_distance g pos <? m then corner_distance g pos else m).
  set (best' := if corner_distance g pos <? m then i else best).
  assert ((if corner_distance g pos <? m then number_loop pos l (i + 1) i (corner_distance g pos)
           else number_loop pos l (i + 1) best m) = number_loop pos l (i + 1) best' m') as ->
    by (unfold m', best'; by destruct (corner_distance g pos <? m)).
  destruct (IH (i + 1) best' m') as [(j & h & Hj & Hk & Hc)|[Hno [[Hk Hall]|(j & h & Hj & Hk & Hlt & Hall)]]].
  - left. exists (S j), h. split_and!; [done|lia|done].
  - right. split; [intros h [->|Hh]%elem_of_cons; [done|by apply Hno]|].
    unfold m', best' in *. destruct (Z.ltb_spec (corner_distance g pos) m) as [Hlt|Hge].
    + right. exists O, g. split_and!; [done|lia|done|].
      intros h [->|Hh]%elem_of_cons; [lia|by apply Hall].
    + left. split; [done|]. intros h [->|Hh]%elem_of_cons; [lia|by apply Hall].
  - right. split; [intros x [->|Hh]%elem_of_cons; [done|by apply Hno]|]. right. exists (S j), h.
    assert (m' <= m /\ m' <= corner_distance g pos) as [Hm Hg] by
      (unfold m'; destruct (Z.ltb_spec (corner_distance g pos) m); lia).
    split_and!; [done|lia|lia|]. intros x [->|Hx]%elem_of_cons; [lia|by apply Hall].
Qed.

(** The screen of a position exists, and it is one that contains the position if
    any does; if no screen contains it, no other screen has a corner nearer to it. *)
Theorem number_picks_nearest s pos :
  outputs s <> [] -> (forall g, g ∈ outputs s -> corner_distance g pos < INT_MAX) ->
  exists g, findOutput s (number s pos) = Some g /\
    (contains_point g pos = true \/
     (forall h, h ∈ outputs s -> contains_point h pos = false) /\
     (forall h, h ∈ outputs s -> corner_distance g pos <= corner_distance h pos)).
Proof.
  intros Hne Hmax. unfold number, findOutput.
  assert (forall j, 0 + Z.of_nat j <? 0 = false) as Hneg by (intros j; apply Z.ltb_ge; lia).
  destruct (number_loop_spec pos (outputs s) 0 0 INT_MAX)
    as [(j & g & Hj & -> & Hc)|[Hno [[_ Hall]|(j & g & Hj & -> & _ & Hall)]]].
  - exists g. rewrite Hneg, Z.add_0_l, Nat2Z.id. auto.
  - destruct (outputs s) as [|g l]; [done|]. specialize (Hall g (list_elem_of_here g l)).
    specialize (Hmax g (list_elem_of_here g l)). lia.
  - exists g. rewrite Hneg, Z.add_0_l, Nat2Z.id. auto.
Qed.

(** Two screens side by side. *)
Definition two_screens : Screens :=
  updateAll (mkScreens [mkRect 0 0 1920 1080; mkRect 1920 0 1280 1024] 0 0 false (mkSize 0 0)).

Lemma number_picks_nearest_witness :
  number two_screens (mkPoint 2000 1050) = 1 /\
  exists g, findOutput two_screens (number two_screens (mkPoint 2000 1050)) = Some g /\
    (contains_point g (mkPoint 2000 1050) = true \/
     (forall h, h ∈ outputs two_screens -> contains_point h (mkPoint 2000 1050) = false) /\
     (forall h, h ∈ outputs two_screens ->
        corner_distance g (mkPoint 2000 1050) <= corner_distance h (mkPoint 2000 1050))).
Proof.
  split; [by vm_compute|]. apply number_picks_nearest; [done|].
  intros g Hg. cbn in Hg. repeat (apply elem_of_cons in Hg as [->|Hg]; [by vm_compute|]).
  by apply not_elem_of_nil in Hg.
Defined.

(** ** Folding over windows and desktops *)

Lemma foldl_alter_lookup {A} (f : A -> A) (ts : list nat) (l : list A) d :
  NoDup ts ->
  foldl (fun l i => alter f i l) l ts !! d = (if contains ts d then f else id) <$> l !! d.
Proof.
  revert l. induction ts as [|t ts IH]; intros l; [by rewrite option_fmap_id|].
  intros [Ht Hts]%NoDup_cons. cbn [foldl]. rewrite IH by done.
  destruct (decide (t = d)) as [->|Hne].
  - assert (contains ts d = false) as -> by by apply contains_false.
    assert (contains (d :: ts) d = true) as -> by (apply contains_true; by left).
    rewrite list_lookup_alter, decide_True by done. apply option_fmap_id.
  - rewrite list_lookup_alter_ne by done. f_equal.
    assert (contains (t :: ts) d = contains ts d) as ->; [|done].
    apply bool_decide_ext. rewrite elem_of_cons. naive_solver.
Qed.

Section Areas.
Variable s : Screens.
Variable n : nat.
Abbreviation screens := (screen_geometries s).

(** Does a window take a part of the areas of a desktop? *)
Definition counts (d : nat) (w : AreaWindow) : bool :=
  is_x11 w && hasStrut s w && contains (target_desktops n w) d.

Lemma target_desktops_NoDup w : NoDup (target_desktops n w).
Proof. unfold target_desktops. destruct (w_onAllDesktops w); [apply NoDup_seq|apply NoDup_singleton]. Qed.

Lemma x11_on_desktop_sareas w ts a :
  new_sareas (foldl (x11_on_desktop s w) a ts) =
  foldl (fun l i => alter (zip_with (x11_screen_area s w) screens) i l) (new_sareas a) ts.
Proof. revert a. induction ts as [|t ts IH]; intros a; [done|]. cbn [foldl]. by rewrite IH. Qed.

Lemma x11_step_sareas a w d :
  new_sareas (x11_step s n a w) !! d =
  (if counts d w then zip_with (x11_screen_area s w) screens else id) <$> new_sareas a !! d.
Proof.
  unfold x11_step, counts. destruct (is_x11 w && hasStrut s w); cbn [andb]; [|by rewrite option_fmap_id].
  by rewrite x11_on_desktop_sareas, foldl_alter_lookup by apply target_desktops_NoDup.
Qed.

(** The area of one screen on one desktop, computed on its own. *)
Definition screen_area_of (d : nat) (screen start : QRect) (l : list AreaWindow) : QRect :=
  foldl (fun old w => if counts d w then x11_screen_area s w screen old else old) start l.

Lemma x11_loop_sareas l a d i g old :
  screens !! i = Some g -> new_sareas a !! d ≫= (fun areas => areas !! i) = Some old ->
  new_sareas (foldl (x11_step s n) a l) !! d ≫= (fun areas => areas !! i) =
    Some (screen_area_of d g old l).
Proof.
  intros Hg. revert a old. induction l as [|w l IH]; intros a old Hold; [done|]. cbn [foldl].
  apply IH. rewrite x11_step_sareas. destruct (new_sareas a !! d) as [areas|] eqn:Ea; [|done].
  cbn in Hold |- *. destruct (counts d w); [|done]. by rewrite lookup_zip_with, Hg, Hold.
Qed.

Lemma initial_sareas d i g :
  (1 <= d <= n)%nat -> screens !! i = Some g ->
  new_sareas (initial_areas s n) !! d ≫= (fun areas => areas !! i) = Some g.
Proof.
  intros Hd Hg. destruct d as [|d]; [lia|]. unfold initial_areas.
  change (replicate n screens !! d ≫= (fun areas => areas !! i) = Some g).
  by rewrite lookup_replicate_2 by lia.
Qed.

Lemma new_sareas_lookup l d i g :
  (1 <= d <= n)%nat -> screens !! i = Some g ->
  new_sareas (new_areas s n l None) !!! d !!! i = screen_area_of d g g l.
Proof.
  intros Hd Hg. unfold new_areas.
  pose proof (x11_loop_sareas l _ d i g g Hg (initial_sareas d i g Hd Hg)) as E.
  destruct (new_sareas (foldl (x11_step s n) (initial_areas s n) l) !! d) as [areas|] eqn:Ea; [|done].
  cbn in E. rewrite (list_lookup_total_correct _ _ _ Ea). by apply list_lookup_total_correct.
Qed.

(** *** One window *)

Lemma intersected_within r q : isValid r = true -> within (intersected r q) r.
Proof.
  intros Hr p. unfold intersected. destruct (intersects r q).
  - destruct (valid_normal r Hr) as (E1 & E2 & E3 & E4). rewrite E1, E2, E3, E4. unfold inside.
    match goal with |- context[of_edges ?l ?t ?r ?b] =>
      destruct (of_edges_edges l t r b) as (-> & -> & -> & ->) end. lia.
  - unfold inside, left, right. cbn. lia.
Qed.

Lemma x11_screen_area_ok w g old :
  isValid old = true ->
  isValid (x11_screen_area s w g old) = true /\ within (x11_screen_area s w g old) old.
Proof.
  intros Hold. unfold x11_screen_area.
  destruct (isEmpty (intersected old _)) eqn:E; [by split|].
  split; [unfold isValid; by rewrite E|by apply intersected_within].
Qed.

Lemma screen_area_of_ok d g start l :
  isValid start = true ->
  isValid (screen_area_of d g start l) = true /\ within (screen_area_of d g start l) start.
Proof.
  revert start. induction l as [|w l IH]; intros start Hs; [by split|]. cbn.
  destruct (counts d w); [|by apply IH].
  destruct (x11_screen_area_ok w g start Hs) as [Hv Hw].
  destruct (IH _ Hv) as [Hv' Hw']. split; [done|]. by etrans.
Qed.

(** A point that all windows leave free keeps the areas from becoming empty, so that
    every window is respected. *)
Lemma x11_screen_area_point w g old p :
  isValid old = true -> inside p old -> inside p (adjusted_client_area s w (desktopArea s) g) ->
  inside p (x11_screen_area s w g old) /\
  within (x11_screen_area s w g old) (adjusted_client_area s w (desktopArea s) g).
Proof.
  intros Hv Hp Ha. assert (isValid (adjusted_client_area s w (desktopArea s) g) = true) as Hva by
    (by eapply inside_valid).
  unfold x11_screen_area.
  assert (inside p (intersected old (adjusted_client_area s w (desktopArea s) g))) as Hi by
    (by apply intersected_inside).
  apply inside_valid in Hi as Hvi. unfold isValid in Hvi. apply negb_true_iff in Hvi. rewrite Hvi.
  split; [done|]. intros q Hq. apply intersected_inside in Hq as [_ ?]; done.
Qed.

Lemma screen_area_of_point d g start l p :
  isValid start = true -> inside p start ->
  (forall w, w ∈ l -> counts d w = true -> inside p (adjusted_client_area s w (desktopArea s) g)) ->
  inside p (screen_area_of d g start l) /\
  forall w, w ∈ l -> counts d w = true ->
    within (screen_area_of d g start l) (adjusted_client_area s w (desktopArea s) g).
Proof.
  revert start. induction l as [|w l IH]; intros start Hv Hp Hall.
  { split; [done|]. by intros w ?%not_elem_of_nil. }
  cbn. set (next := if counts d w then x11_screen_area s w g start else start).
  assert (isValid next = true /\ inside p next /\ (counts d w = true ->
    within next (adjusted_client_area s w (desktopArea s) g))) as (Hv' & Hp' & Hw').
  { unfold next. destruct (counts d w) eqn:E; [|done].
    destruct (x11_screen_area_point w g start p Hv Hp) as [H1 H2]; [by apply Hall; [left|]|].
    split_and!; [by apply x11_screen_area_ok|done|done]. }
  destruct (IH next Hv' Hp') as [H1 H2]; [intros x Hx; by apply Hall; right|].
  split; [done|]. intros x [->|Hx]%elem_of_cons Hc; [|by apply H2].
  etrans; [by apply screen_area_of_ok|by apply Hw'].
Qed.

(** *** One strut *)

(** A zone that reaches into a rectangle without a point of it does not. *)
Lemma no_intersection z g p : isValid g = true -> inside p g -> intersects z g = false -> ~ inside p z.
Proof.
  intros Hg Hpg E Hz. apply inside_valid in Hz as Hvz.
  by rewrite (proj2 (intersects_iff z g Hvz Hg) (ex_intro _ p (conj Hz Hpg))) in E.
Qed.

(** Cutting zones off the four sides of a rectangle one after the other. *)
Definition cut (g l r t b : QRect) : QRect :=
  let rect := g in
  let rect := if intersects l g then setLeft rect (right l + 1) else rect in
  let rect := if intersects r g then setRight rect (left r - 1) else rect in
  let rect := if intersects t g then setTop rect (bottom t + 1) else rect in
  if intersects b g then setBottom rect (top b - 1) else rect.

Lemma cut_edges g l r t b :
  left (cut g l r t b) = (if intersects l g then right l + 1 else left g) /\
  right (cut g l r t b) = (if intersects r g then left r - 1 else right g) /\
  top (cut g l r t b) = (if intersects t g then bottom t + 1 else top g) /\
  bottom (cut g l r t b) = (if intersects b g then top b - 1 else bottom g).
Proof.
  unfold cut. destruct (intersects l g), (intersects r g), (intersects t g), (intersects b g);
    unfold setLeft, setRight, setTop, setBottom, of_edges, left, right, top, bottom; cbn; lia.
Qed.

Lemma cut_avoids g l r t b p :
  isValid g = true -> inside p g -> inside p (cut g l r t b) ->
  ~ inside p l /\ ~ inside p r /\ ~ inside p t /\ ~ inside p b.
Proof.
  intros Hg Hpg Hp. destruct (cut_edges g l r t b) as (E1 & E2 & E3 & E4).
  unfold inside at 1 in Hp. rewrite E1, E2, E3, E4 in Hp.
  split_and!; intros Hz;
    [destruct (intersects l g) eqn:E|destruct (intersects r g) eqn:E|
     destruct (intersects t g) eqn:E|destruct (intersects b g) eqn:E];
    solve [by eapply no_intersection|unfold inside in Hz; lia].
Qed.
End Areas.

(** The zones of a window's strut: what it reserves at the four sides of the desktop,
    limited to the screen the window is on. *)
Definition in_strut_zone (s : Screens) (w : AreaWindow) (screen : QRect) (p : QPoint) : Prop :=
  let '(l, r, t, b) := zones s w (desktopArea s) screen (geometry s (number s (center (w_pending w)))) in
  inside p l \/ inside p r \/ inside p t \/ inside p b.

Lemma adjusted_avoids s w g p :
  isValid g = true -> inside p g -> inside p (adjusted_client_area s w (desktopArea s) g) ->
  ~ in_strut_zone s w g p.
Proof.
  intros Hg Hpg Hp. unfold adjusted_client_area, adjusted_area_on, in_strut_zone in *.
  destruct (zones s w (desktopArea s) g (geometry s (number s (center (w_pending w)))))
    as [[[l r] t] b].
  destruct (cut_avoids g l r t b p Hg Hpg Hp) as (? & ? & ? & ?). tauto.
Qed.

(** The area for maximized windows after the areas were updated in an X11 session. *)
Lemma maximize_area_updated {W} s n cs cd (chk : Areas -> W -> W) l a ws d i g :
  (1 <= d <= n)%nat -> screen_geometries s !! i = Some g ->
  clientArea_screen s cs cd (updateClientArea s n chk true l None a ws).1 MaximizeArea
    (Z.of_nat i) (Z.of_nat d) = screen_area_of s n d g g l.
Proof.
  intros Hd Hg. unfold clientArea_screen, resolve_desktop. cbv zeta.
  rewrite (proj2 (Z.eqb_neq (Z.of_nat d) OnAllDesktops)) by (unfold OnAllDesktops; lia).
  rewrite (proj2 (Z.eqb_neq (Z.of_nat d) 0)) by lia. cbn [orb].
  rewrite (proj2 (Z.eqb_neq (Z.of_nat i) (-1))) by lia. rewrite !Nat2Z.id.
  assert (screenarea (updateClientArea s n chk true l None a ws).1 =
    new_sareas (foldl (x11_step s n) (initial_areas s n) l)) as Ha by done.
  rewrite Ha. clear Ha.
  pose proof (x11_loop_sareas s n l _ d i g g Hg (initial_sareas s n d i g Hd Hg)) as E.
  destruct (new_sareas (foldl (x11_step s n) (initial_areas s n) l) !! d) as [areas|] eqn:Ea; [|done].
  cbn in E. rewrite bool_decide_false by (intros E0; by rewrite E0 in Ea).
  rewrite (list_lookup_total_correct _ _ _ Ea).
  apply lookup_lt_Some in E as Hlt. rewrite (proj2 (Z.ltb_lt _ _)) by lia.
  by apply list_lookup_total_correct.
Qed.


(** Two docks on the first of the two screens: at the left side of it, on all
    desktops, and at the bottom of the first desktop. *)
Definition left_dock : AreaWindow :=
  mkAreaWindow (X11Client (mkExtStrut 50 0 1079 0 0 0 0 0 0 0 0 0) (mkStrut 0 0 0 0)) 0 OnAllDesktops true
    (mkRect 0 0 50 1080) (mkRect 0 0 50 1080).
Definition bottom_dock : AreaWindow :=
  mkAreaWindow (X11Client (mkExtStrut 0 0 0 0 0 0 0 0 0 0 0 0) (mkStrut 0 0 0 40)) 0 1 false
    (mkRect 0 1040 1920 40) (mkRect 0 1040 1920 40).
Definition start_areas : Areas := cleared_areas 2 (mkAreas [] [] [] [] [] (mkSize 0 0)).
Definition dock_areas : Areas :=
  (updateClientArea two_screens 2 (fun _ (w : AreaWindow) => w) true [left_dock; bottom_dock] None
     start_areas []).1.


(** ** What the code does against its comments *)

(** A strut at a screen edge inside of the desktop is dropped from the work area of the
    whole desktop, but not at the bottom: the test can not succeed there, since the zone
    lies at the bottom of the desktop and so never above that of the screen. *)
Lemma bottom_strut_never_dropped s w screen :
  bottom screen <= bottom (desktopArea s) ->
  bottom (staB (desktopArea s) (client_strut s w)) <? bottom screen = false.
Proof. intros H. apply Z.ltb_ge. unfold staB, bottom in *. cbn. lia. Qed.

(** Panels of a Wayland session may leave nothing of a screen, unlike X11 docks. *)
Definition wayland_panel (frame : QRect) : AreaWindow :=
  mkAreaWindow (WaylandClient true (Some (mkPlasma true true)) None) 0 OnAllDesktops true frame frame.
Definition single_screen : Screens :=
  updateAll (mkScreens [mkRect 0 0 1920 1080] 0 0 false (mkSize 0 0)).

Example wayland_panels_hide_screen :
  clientArea_screen single_screen 0 1
    (updateClientArea single_screen 1 (fun _ (w : AreaWindow) => w) true []
       (Some [wayland_panel (mkRect 0 0 1920 700); wayland_panel (mkRect 0 380 1920 700)])
       start_areas []).1 MaximizeArea 0 1 = null_rect.
Proof. by vm_compute. Qed.

End WorkAreaProps.
