(* ===== verification/Geometry.v ===== *)
(** * The geometry of a window (src/win/geo.h, win/move.h, win/control.cpp, win/wayland/)

    The templates of src/win are taken at the class of Wayland toplevel windows. The
    geometry that is wanted for a window is kept in [geometry_update]; while updates
    are blocked it only collects changes, and what results is sent to the client as a
    configure event, which the client acknowledges and answers with a buffer. The
    frame geometry in use follows the buffers. *)

From S2P Require Import Prelude Qt WorkArea Rules.
From S2P Require Toplevel.

Module Geometry.
Import Qt WorkArea.

(** ** Data *)

(** win::maximize_mode and win::quicktiles, enums with flags. *)
Definition restore : Z := 0.
Definition vertical : Z := Rules.mode_vertical.
Definition horizontal : Z := Rules.mode_horizontal.
Definition full : Z := 3.

Module quicktiles.
Definition none : Z := 0.
Definition left : Z := 1.
Definition right : Z := 2.
Definition top : Z := 4.
Definition bottom : Z := 8.
Definition horizontal : Z := Z.lor left right.
Definition vertical : Z := Z.lor top bottom.
Definition maximize : Z := Z.lor horizontal vertical.
End quicktiles.

Definition flags (z : Z) : bool := negb (z =? 0).
(** [a & ~b] of flags. *)
Definition without (a b : Z) : Z := Z.land a (Z.lnot b).

Inductive pending_geometry := p_none | p_normal | p_forced.
#[global] Instance pending_geometry_eq_dec : EqDecision pending_geometry.
Proof. solve_decision. Defined.

(** win::position *)
Inductive position :=
  | center | p_left | p_top | p_right | p_bottom | top_left | top_right | bottom_left | bottom_right.
#[global] Instance position_eq_dec : EqDecision position.
Proof. solve_decision. Defined.

(** What win::move_resize_op says about the geometry. *)
Record MoveResize := mkMoveResize { enabled : bool; contact : position; mr_geometry : QRect }.
Definition no_move : MoveResize := mkMoveResize false center null_rect.

(** wayland::window::configure_event *)
Record ConfigureEvent := mkConfigure {
  ce_serial : Z; ce_frame : QRect; ce_max_mode : Z; ce_fullscreen : bool }.

Definition no_margins : QMargins := mkMargins 0 0 0 0.

Record Window := mkWindow {
  (* Toplevel *)
  frameGeometry : QRect;
  client_frame_extents : QMargins;
  block : Z;
  pending : pending_geometry;
  upd_frame : QRect;
  upd_max_mode : Z;
  upd_fullscreen : bool;
  restore_maximize : QRect;
  desktop : Z;
  windowType : Toplevel.Toplevel.WindowType;
  (* win::control and the decoration *)
  rules : list Rules.Rules;
  quicktiling : Z;
  electric : Z;
  electric_maximizing : bool;
  fullscreen : bool;
  move_resize : MoveResize;
  frame_margins : QMargins;
  (* wayland::window *)
  max_mode : Z;
  synced_window : QRect;
  synced_max_mode : Z;
  synced_fullscreen : bool;
  pending_configures : list ConfigureEvent;
  acked_configure : Z;
  minimumSize : QSize;
  maximumSize : QSize;
  plasma_shell_surface : option bool;      (** whether its role is Normal *)
  (* the server's side of the client's surface *)
  serial : Z;                              (** the last one given out *)
  sent : list (Z * QSize);                 (** configure events, the last one first *)
}.
#[global] Instance Window_eta : RecordEta Window := fun w =>
  mkWindow (frameGeometry w) (client_frame_extents w) (block w) (pending w) (upd_frame w)
    (upd_max_mode w) (upd_fullscreen w) (restore_maximize w) (desktop w) (windowType w) (rules w)
    (quicktiling w) (electric w) (electric_maximizing w) (fullscreen w) (move_resize w)
    (frame_margins w) (max_mode w) (synced_window w) (synced_max_mode w) (synced_fullscreen w)
    (pending_configures w) (acked_configure w) (minimumSize w) (maximumSize w)
    (plasma_shell_surface w) (serial w) (sent w).

(** What the operations read from the rest of the program. *)
Record Env := mkEnv {
  screens : Screens;
  areas : Areas;
  current_screen : Z;
  current_desktop : Z;
  cursor : QPoint;
}.

(** ** Margins *)

Definition plus_margins (r : QRect) (m : QMargins) : QRect :=
  of_edges (left r - ml m) (top r - mt m) (right r + mr m) (bottom r + mb m).
Definition minus_margins (r : QRect) (m : QMargins) : QRect :=
  of_edges (left r + ml m) (top r + mt m) (right r - mr m) (bottom r - mb m).

Definition client_to_frame_rect (w : Window) (content_rect : QRect) : QRect :=
  minus_margins (plus_margins content_rect (frame_margins w)) (client_frame_extents w).
Definition frame_to_client_rect (w : Window) (frame_rect : QRect) : QRect :=
  plus_margins (minus_margins frame_rect (frame_margins w)) (client_frame_extents w).
(** A null size and an invalid one: [QSize()] is (-1, -1). *)
Definition client_to_frame_pos (w : Window) (p : QPoint) : QPoint :=
  topLeft (client_to_frame_rect w (rect_at p (mkSize (-1) (-1)))).
Definition client_to_frame_size (w : Window) (s : QSize) : QSize :=
  size (client_to_frame_rect w (rect_at (mkPoint 0 0) s)).
Definition frame_to_client_pos (w : Window) (p : QPoint) : QPoint :=
  topLeft (frame_to_client_rect w (rect_at p (mkSize (-1) (-1)))).
Definition frame_to_client_size (w : Window) (s : QSize) : QSize :=
  size (frame_to_client_rect w (rect_at (mkPoint 0 0) s)).
Definition frame_relative_client_rect (w : Window) : QRect :=
  let f := topLeft (frameGeometry w) in
  translated (frame_to_client_rect w (frameGeometry w)) (mkPoint (- px f) (- py f)).

(** win::frame_size: the size of the borders. *)
Definition frame_size (w : Window) : QSize :=
  mkSize (ml (frame_margins w) + mr (frame_margins w)) (mt (frame_margins w) + mb (frame_margins w)).

(** ** Setting the frame geometry (src/win/wayland/window.cpp) *)

Definition is_move (w : Window) : bool :=
  enabled (move_resize w) && bool_decide (contact (move_resize w) = center).
Definition is_resize (w : Window) : bool :=
  enabled (move_resize w) && negb (bool_decide (contact (move_resize w) = center)).

Definition do_set_geometry (frame_geo : QRect) (w : Window) : Window :=
  if bool_decide (frameGeometry w = frame_geo) then w
  else let w1 := w <| frameGeometry := frame_geo |> in
       if bool_decide (pending w1 = p_none)
       then w1 <| upd_frame := setSize (upd_frame w1) (size frame_geo) |> else w1.

Definition do_set_maximize_mode (mode : Z) (w : Window) : Window :=
  if mode =? max_mode w then w else w <| max_mode := mode |>.

Definition do_set_fullscreen (full : bool) (w : Window) : Window :=
  let full := Rules.checkFullScreen (rules w) full false in
  if Bool.eqb (fullscreen w) full then w else w <| fullscreen := full |>.

(** The configure request of the client's toplevel: the server sends an event with the
    next serial and returns the serial. *)
Definition toplevel_configure (s : QSize) (w : Window) : Window * Z :=
  let n := serial w + 1 in (w <| serial := n |> <| sent := (n, s) :: sent w |>, n).

Definition configure_geometry (frame_geo : QRect) (w : Window) : Window :=
  let window_geo := if isValid frame_geo then minus_margins frame_geo (frame_margins w) else frame_geo in
  let w1 := w <| synced_window := window_geo |> <| synced_max_mode := upd_max_mode w |>
              <| synced_fullscreen := upd_fullscreen w |> in
  let '(w2, n) := toplevel_configure (size window_geo) w1 in
  w2 <| pending_configures := pending_configures w2 ++
          [mkConfigure n frame_geo (synced_max_mode w2) (synced_fullscreen w2)] |>.

(** win::wayland::needs_configure *)
Definition needs_configure (w : Window) : bool :=
  match plasma_shell_surface w with
  | Some _ => false
  | None =>
      if negb (upd_max_mode w =? synced_max_mode w) then true
      else if negb (Bool.eqb (upd_fullscreen w) (synced_fullscreen w)) then true
      else let ref_geo := minus_margins (upd_frame w) (frame_margins w) in
           isEmpty ref_geo || negb (bool_decide (size ref_geo = size (synced_window w)))
  end.

Definition move_event (p : QPoint) (e : ConfigureEvent) : ConfigureEvent :=
  mkConfigure (ce_serial e) (moveTo (ce_frame e) p) (ce_max_mode e) (ce_fullscreen e).

(** The change of the last element. *)
Definition alter_last {A} (f : A -> A) (l : list A) : list A := alter f (pred (length l)) l.

Definition setFrameGeometry (rect : QRect) (w : Window) : Window :=
  let frame_geo := Rules.checkGeometry (rules w) rect false in
  let w1 := w <| upd_frame := frame_geo |> in
  if negb (block w1 =? 0) then w1 <| pending := p_normal |>
  else
    let w2 := w1 <| pending := p_none |> in
    if needs_configure w2 then configure_geometry frame_geo w2
    else if negb (bool_decide (pending_configures w2 = []))
         then w2 <| pending_configures := alter_last (move_event (topLeft frame_geo)) (pending_configures w2) |>
         else do_set_geometry frame_geo w2.

(** win::block_geometry_updates, and the guard object that blocks in a scope. *)
Definition block_updates (w : Window) : Window := w <| block := block w + 1 |>.
Definition unblock_updates (w : Window) : Window :=
  let w1 := w <| block := block w - 1 |> in
  if (block w1 =? 0) && negb (bool_decide (pending w1 = p_none)) then setFrameGeometry (upd_frame w1) w1
  else w1.
Definition blocked (f : Window -> Window) (w : Window) : Window := unblock_updates (f (block_updates w)).

(** ** The client's answers *)

Definition handle_configure_ack (n : Z) (w : Window) : Window := w <| acked_configure := n |>.

(** The search for the acknowledged event in apply_pending_geometry: the event and
    the events behind it. *)
Fixpoint find_acked (acked : Z) (l : list ConfigureEvent) : option (ConfigureEvent * list ConfigureEvent) :=
  match l with
  | [] => None
  | e :: l' =>
      if acked <? ce_serial e then None
      else if ce_serial e =? acked then Some (e, l')
      else find_acked acked l'
  end.

(** The geometry is aligned to the interactive resize. *)
Definition align_resize (w : Window) (frame_geo : QRect) : QRect :=
  let g := mr_geometry (move_resize w) in
  match contact (move_resize w) with
  | top_left => moveBottom (moveRight frame_geo (right g)) (bottom g)
  | p_top | top_right => moveBottom (moveLeft frame_geo (left g)) (bottom g)
  | p_right | bottom_right | p_bottom => moveTop (moveLeft frame_geo (left g)) (top g)
  | bottom_left | p_left => moveTop (moveRight frame_geo (right g)) (top g)
  | center => frame_geo
  end.

(** apply_pending_geometry for a toplevel, on a commit with the window geometry and the
    margins that the client has set. *)
Definition apply_pending_geometry (ref_geo : QRect) (window_margins : QMargins) (w : Window) : Window :=
  let found := find_acked (acked_configure w) (pending_configures w) in
  let '(w1, position, mode, full, serial_match) :=
    match found with
    | Some (e, rest) => (w <| pending_configures := rest |>, topLeft (ce_frame e), ce_max_mode e, ce_fullscreen e, true)
    | None => (w, topLeft (frameGeometry w), max_mode w, fullscreen w, false)
    end in
  let frame_geo := rect_at position (sadd (size ref_geo) (frame_size w1)) in
  if bool_decide (frame_geo = frameGeometry w1) && negb serial_match &&
     bool_decide (client_frame_extents w1 = window_margins) then w1
  else
    let w2 := if isValid (synced_window w1) then w1
              else w1 <| synced_window := ref_geo |> <| upd_frame := frame_geo |> in
    let w3 := w2 <| client_frame_extents := window_margins |> in
    let frame_geo := if is_resize w3 then align_resize w3 frame_geo else frame_geo in
    do_set_maximize_mode mode (do_set_fullscreen full (do_set_geometry frame_geo w3)).

(** The configure event that is sent when the window becomes active or inactive; it is
    not kept among the pending ones. *)
Definition activation_configure (w : Window) : Window :=
  if negb (block w =? 0) then w else fst (toplevel_configure (size (synced_window w)) w).

(** ** Geometry helpers of win/geo.h and win/control.cpp *)

Definition pending_frame_geometry (w : Window) : QRect :=
  if bool_decide (pending w = p_none) then frameGeometry w else upd_frame w.

(** Both the minimal and the maximal size go through the rule for the minimal size. *)
Definition minSize (w : Window) : QSize := Rules.checkMinSize (rules w) (minimumSize w).
Definition maxSize (w : Window) : QSize := Rules.checkMinSize (rules w) (maximumSize w).

Definition adjusted_frame_size (w : Window) (frame_sz : QSize) : QSize :=
  let border_size := frame_size w in
  let min_size := sadd (minSize w) border_size in
  let max_size := maxSize w in
  let max_size := if sw max_size <=? INT_MAX - sw border_size
                  then mkSize (sw max_size + sw border_size) (sh max_size) else max_size in
  let max_size := if sh max_size <=? INT_MAX - sh border_size
                  then mkSize (sh max_size + sh border_size) (sh max_size) else max_size in
  boundedTo (expandedTo frame_sz min_size) max_size.

(** Toplevel::isResizable and isMovable of a Wayland toplevel. *)
Definition isResizable (w : Window) : bool :=
  if upd_fullscreen w then false
  else if size_isValid (Rules.checkSize (rules w) (mkSize (-1) (-1)) false) then false
  else match plasma_shell_surface w with
       | Some normal => normal
       | None => (sw (minSize w) <? sw (maxSize w)) || (sh (minSize w) <? sh (maxSize w))
       end.

Definition isMovable (w : Window) : bool :=
  if upd_fullscreen w then false
  else if negb (bool_decide (Rules.checkPosition (rules w) Rules.invalidPoint false = Rules.invalidPoint))
  then false
  else match plasma_shell_surface w with Some normal => normal | None => true end.

Definition isMaximizable (w : Window) : bool :=
  isResizable w &&
  (Rules.checkMaximize (rules w) restore false =? restore) &&
  (Rules.checkMaximize (rules w) full false =? full).

(** win::move *)
Definition move (point : QPoint) (w : Window) : Window :=
  let old_frame_geo := pending_frame_geometry w in
  if bool_decide (topLeft old_frame_geo = point) then w
  else setFrameGeometry (moveTo old_frame_geo point) w.

Section WithEnv.
Variable E : Env.

Definition area_at (opt : clientAreaOption) (p : QPoint) (desk : Z) : QRect :=
  clientArea (screens E) (current_screen E) (current_desktop E) (areas E) opt p desk.
Definition area_of (opt : clientAreaOption) (w : Window) : QRect :=
  area_at opt (Qt.center (pending_frame_geometry w)) (desktop w).

Definition constrain_and_adjust_size (w : Window) (s : QSize) : QSize :=
  let area := area_of WorkAreaOption w in
  adjusted_frame_size w (mkSize (Z.min (sw s) (rw area)) (Z.min (sh s) (rh area))).

Definition constrained_resize (s : QSize) (w : Window) : Window :=
  setFrameGeometry (rect_at (topLeft (upd_frame w)) (constrain_and_adjust_size w s)) w.

(** win::keep_in_area *)
Definition partial_area (area : QRect) (pos : QPoint) (s : QSize) : QRect :=
  let area := setLeft area (Z.min (px pos - sw s + 100) (left area)) in
  let area := setTop area (Z.min (top area - sh s + 100) (top area)) in
  let area := setRight area (Z.max (right area + sw s - 100) (right area)) in
  setBottom area (Z.max (bottom area + sh s - 100) (bottom area)).

Definition kept_pos (area : QRect) (pos : QPoint) (s : QSize) : QPoint :=
  let tx := if (right area <? px pos + sw s) && (sw s <=? rw area) then right area - sw s + 1 else px pos in
  let ty := if (bottom area <? py pos + sh s) && (sh s <=? rh area) then bottom area - sh s + 1 else py pos in
  if contains_point area pos then mkPoint tx ty
  else mkPoint (if tx <? rx area then rx area else tx) (if ty <? ry area then ry area else ty).

Definition keep_in_area (area : QRect) (partial : bool) (w : Window) : Window :=
  let frame_geo := pending_frame_geometry w in
  let '(w1, area, frame_geo) :=
    if partial then (w, partial_area area (topLeft frame_geo) (size frame_geo), frame_geo)
    else if (rw area <? rw frame_geo) || (rh area <? rh frame_geo) then
      let w1 := constrained_resize (mkSize (Z.min (rw area) (rw frame_geo)) (Z.min (rh area) (rh frame_geo))) w in
      (w1, area, upd_frame w1)
    else (w, area, frame_geo) in
  let p := kept_pos area (topLeft frame_geo) (size frame_geo) in
  if bool_decide (p = topLeft frame_geo) then w1 else move p w1.

(** win::electric_border_maximize_geometry *)
Definition tiled_rect (tiles : Z) (ret : QRect) : QRect :=
  let ret := if flags (Z.land tiles quicktiles.left)
             then setRight ret (left ret + Z.quot (rw ret) 2 - 1)
             else if flags (Z.land tiles quicktiles.right)
             then setLeft ret (right ret - (rw ret - Z.quot (rw ret) 2) + 1) else ret in
  if flags (Z.land tiles quicktiles.top)
  then setBottom ret (top ret + Z.quot (rh ret) 2 - 1)
  else if flags (Z.land tiles quicktiles.bottom)
  then setTop ret (bottom ret - (rh ret - Z.quot (rh ret) 2) + 1) else ret.

Definition electric_border_maximize_geometry (w : Window) (pos : QPoint) (desk : Z) : QRect :=
  let area := area_at MaximizeArea pos desk in
  if electric w =? quicktiles.maximize then
    if max_mode w =? full then restore_maximize w else area
  else tiled_rect (electric w) area.

(** The mode without its contradictory sides. *)
Definition sanitize (tiles : Z) : Z :=
  let tiles := if Z.land tiles quicktiles.horizontal =? quicktiles.horizontal
               then without tiles quicktiles.horizontal else tiles in
  if Z.land tiles quicktiles.vertical =? quicktiles.vertical
  then without tiles quicktiles.vertical else tiles.

(** win::set_electric *)
Definition set_electric (tiles : Z) (w : Window) : Window :=
  w <| electric := if tiles =? quicktiles.maximize then tiles else sanitize tiles |>.
End WithEnv.

End Geometry.
