(* ===== verification/GeometryProps.v ===== *)
(** * The geometry of a window: facts and properties

    Blocked updates collapse into one; the requested geometry and modes reach the
    window when the client has answered the last configure event; quick-tiled
    windows share their screen without overlap; windows are kept in an area by the
    shortest way. *)

From stdpp Require Import sorting.
From S2P Require Import Prelude Qt WorkArea Rules Geometry.
From S2P Require Toplevel.

Module GeometryProps.
Import Qt WorkArea Geometry.

(** ** Rules on the geometry *)

(** Applying rules that set a value or leave it alone twice is applying them once. *)
Lemma check_set_in_idempotent {T} (l : list Rules.Rules) f (v : T) init :
  (forall r, (exists k, forall v, fst (f r v init) = k) \/ (forall v, fst (f r v init) = v)) ->
  (forall r v v', snd (f r v init) = snd (f r v' init)) ->
  Rules.check_set_in l f (Rules.check_set_in l f v init) init = Rules.check_set_in l f v init.
Proof.
  intros Hset Hstop. revert v. induction l as [|r l IH]; intros v; [done|]. cbn.
  destruct (f r v init) as [v1 stop] eqn:E1.
  destruct (f r (if stop then v1 else Rules.check_set_in l f v1 init) init) as [v2 stop'] eqn:E2.
  assert (stop' = stop) as -> by (change (snd (v2, stop') = snd (v1, stop)); rewrite <- E1, <- E2; apply Hstop).
  destruct (Hset r) as [[k Hk]|Hid].
  - assert (v1 = k) as -> by (by rewrite <- (Hk v), E1).
    assert (v2 = k) as -> by (by rewrite <- (Hk (if stop then k else Rules.check_set_in l f k init)), E2).
    by destruct stop.
  - assert (v2 = if stop then v1 else Rules.check_set_in l f v1 init) as ->.
    { rewrite <- (Hid (if stop then v1 else Rules.check_set_in l f v1 init)). by rewrite E2. }
    destruct stop; [done|apply IH].
Qed.

Lemma checkPosition_idempotent rs p init :
  Rules.checkPosition rs (Rules.checkPosition rs p init) init = Rules.checkPosition rs p init.
Proof.
  apply check_set_in_idempotent; [|done]. intros r. unfold Rules.applyPosition. cbn.
  destruct (_ && _); [left; eauto|by right].
Qed.

Lemma checkSize_idempotent rs s init :
  Rules.checkSize rs (Rules.checkSize rs s init) init = Rules.checkSize rs s init.
Proof.
  apply check_set_in_idempotent; [|done]. intros r. unfold Rules.applySize. cbn.
  destruct (_ && _); [left; eauto|by right].
Qed.

Lemma rect_at_topLeft p s : topLeft (rect_at p s) = p.
Proof. by destruct p. Qed.
Lemma rect_at_size p s : size (rect_at p s) = s.
Proof. by destruct s. Qed.
Lemma rect_at_eta r : rect_at (topLeft r) (size r) = r.
Proof. by destruct r. Qed.

Lemma checkGeometry_idempotent rs r init :
  Rules.checkGeometry rs (Rules.checkGeometry rs r init) init = Rules.checkGeometry rs r init.
Proof.
  unfold Rules.checkGeometry.
  by rewrite rect_at_topLeft, rect_at_size, checkPosition_idempotent, checkSize_idempotent.
Qed.

Lemma checkGeometry_no_rules r init : Rules.checkGeometry [] r init = r.
Proof. apply rect_at_eta. Qed.

(** ** Blocked updates *)

(** A program fragment that sets the geometry, with scopes in which updates are
    blocked. *)
Inductive Script := SetFrame (r : QRect) | Sequence (a b : Script) | Scope (a : Script).

Fixpoint run_script (s : Script) (w : Window) : Window :=
  match s with
  | SetFrame r => setFrameGeometry r w
  | Sequence a b => run_script b (run_script a w)
  | Scope a => blocked (run_script a) w
  end.

Fixpoint last_frame (s : Script) : QRect :=
  match s with SetFrame r => r | Sequence a b => last_frame b | Scope a => last_frame a end.

(** While updates are blocked, all that remains of a fragment is its last geometry. *)
Definition noted (r : QRect) (w : Window) : Window :=
  w <| upd_frame := Rules.checkGeometry (rules w) r false |> <| pending := p_normal |>.

Lemma setFrame_blocked r w : block w <> 0 -> setFrameGeometry r w = noted r w.
Proof.
  intros Hb. unfold setFrameGeometry, noted. cbv zeta.
  change (block (w <| upd_frame := _ |>)) with (block w). by rewrite (proj2 (Z.eqb_neq _ _) Hb).
Qed.

Lemma run_script_blocked s w : 0 < block w -> run_script s w = noted (last_frame s) w.
Proof.
  revert w. induction s as [r|a IHa b IHb|a IH]; intros w Hb; cbn [run_script last_frame].
  - by apply setFrame_blocked; lia.
  - rewrite (IHa w Hb). by rewrite IHb.
  - unfold blocked. rewrite IH by (cbn; lia). unfold unblock_updates.
    unfold noted, block_updates. destruct w as [? ? b]. cbn in *.
    rewrite (proj2 (Z.eqb_neq (b + 1 - 1) 0)) by lia. cbn. f_equal; lia.
Qed.

(** What is noted while updates are blocked once is set when they are no longer. *)
Lemma unblock_noted r w : block w = 0 -> unblock_updates (noted r (block_updates w)) = setFrameGeometry r w.
Proof.
  intros Hb. unfold unblock_updates. set (r' := Rules.checkGeometry (rules w) r false).
  assert ((noted r (block_updates w)) <| block := block (noted r (block_updates w)) - 1 |> =
    w <| upd_frame := r' |> <| pending := p_normal |>) as ->.
  { unfold noted, block_updates. destruct w. cbn in *. subst. f_equal. }
  cbv zeta. change (block (w <| upd_frame := r' |> <| pending := p_normal |>)) with (block w).
  rewrite Hb. cbn [Z.eqb andb].
  change (pending (w <| upd_frame := r' |> <| pending := p_normal |>)) with p_normal.
  rewrite bool_decide_false by done. cbn [negb].
  change (upd_frame (w <| upd_frame := r' |> <| pending := p_normal |>)) with r'.
  unfold setFrameGeometry. cbv zeta.
  change (rules (w <| upd_frame := r' |> <| pending := p_normal |>)) with (rules w).
  unfold r'. rewrite !checkGeometry_idempotent. by destruct w.
Qed.

(** A fragment of geometry updates in a scope that blocks them, with further scopes
    inside, changes the window exactly as its last update alone would outside of any
    scope: no intermediate geometry is sent to the client or used. *)
Theorem blocked_updates_coalesce s w :
  block w = 0 -> blocked (run_script s) w = setFrameGeometry (last_frame s) w.
Proof.
  intros Hb. unfold blocked. rewrite run_script_blocked by (cbn; lia). by apply unblock_noted.
Qed.

(** ** Requests and answers

    A request is a scope of blocked updates that ends with a frame and the maximize and
    fullscreen modes. *)
Record Request := mkRequest { rq_frame : QRect; rq_mode : Z; rq_full : bool }.

Definition with_modes (q : Request) (w : Window) : Window :=
  w <| upd_max_mode := rq_mode q |> <| upd_fullscreen := rq_full q |>.
Definition request (q : Request) (w : Window) : Window :=
  blocked (fun w => setFrameGeometry (rq_frame q) (with_modes q w)) w.

Inductive Event :=
  | Ask (q : Request)                            (** by the user or the compositor *)
  | Activate                                     (** the window becomes active or inactive *)
  | Ack (n : Z)                                  (** by the client *)
  | Commit (ref_geo : QRect) (margins : QMargins).

Definition step (ev : Event) (w : Window) : Window :=
  match ev with
  | Ask q => request q w
  | Activate => activation_configure w
  | Ack n => handle_configure_ack n w
  | Commit ref_geo margins => apply_pending_geometry ref_geo margins w
  end.
Definition run (es : list Event) (w : Window) : Window := foldl (fun w ev => step ev w) w es.

Fixpoint last_request (q : Request) (es : list Event) : Request :=
  match es with
  | [] => q
  | Ask q' :: es' => last_request q' es'
  | _ :: es' => last_request q es'
  end.

(** A request that leaves room for the client inside of the decoration. *)
Definition roomy (m : QMargins) (q : Request) : bool :=
  isValid (rq_frame q) && isValid (minus_margins (rq_frame q) m).
Definition all_roomy (m : QMargins) (es : list Event) : bool :=
  forallb (fun ev => match ev with Ask q => roomy m q | _ => true end) es.

(** A window whose wishes have been fulfilled: no rules, not resized interactively. *)
Record settled (q : Request) (w : Window) : Prop := {
  settled_block : block w = 0;
  settled_pending : pending w = p_none;
  settled_rules : rules w = [];
  settled_plasma : plasma_shell_surface w = None;
  settled_resize : enabled (move_resize w) = false;
  settled_roomy : roomy (frame_margins w) q = true;
  settled_frame : frameGeometry w = rq_frame q;
  settled_mode : max_mode w = rq_mode q;
  settled_full : fullscreen w = rq_full q;
  settled_synced_mode : synced_max_mode w = rq_mode q;
  settled_synced_full : synced_fullscreen w = rq_full q;
  settled_window : synced_window w = minus_margins (rq_frame q) (frame_margins w);
  settled_configures : pending_configures w = [];
}.

(** The same while answers are outstanding. *)
Definition answered (q : Request) (w : Window) : Prop :=
  topLeft (frameGeometry w) = topLeft (rq_frame q) /\ max_mode w = rq_mode q /\ fullscreen w = rq_full q.

Definition asked (m : QMargins) (q : Request) (e : ConfigureEvent) (w : Window) : Prop :=
  ce_frame e = rq_frame q /\ ce_max_mode e = rq_mode q /\ ce_fullscreen e = rq_full q /\
  (ce_serial e, size (minus_margins (rq_frame q) m)) ∈ sent w.

Record tracked (m : QMargins) (q : Request) (w : Window) : Prop := {
  tr_block : block w = 0;
  tr_pending : pending w = p_none;
  tr_rules : rules w = [];
  tr_plasma : plasma_shell_surface w = None;
  tr_resize : enabled (move_resize w) = false;
  tr_margins : frame_margins w = m;
  tr_roomy : roomy m q = true;
  tr_synced_mode : synced_max_mode w = rq_mode q;
  tr_synced_full : synced_fullscreen w = rq_full q;
  tr_window : size (synced_window w) = size (minus_margins (rq_frame q) m);
  tr_serials : StronglySorted Z.lt (ce_serial <$> pending_configures w);
  tr_serial : Forall (fun e => ce_serial e <= serial w) (pending_configures w);
  tr_last : match last (pending_configures w) with
            | None => answered q w
            | Some e => asked m q e w
            end;
}.

Lemma settled_tracked q w : settled q w -> tracked (frame_margins w) q w.
Proof.
  intros []. split; try done.
  - by rewrite settled_window0.
  - rewrite settled_configures0. constructor.
  - rewrite settled_configures0. constructor.
  - rewrite settled_configures0. by split_and!; [rewrite settled_frame0| |].
Qed.

Lemma size_valid r s : size r = size s -> isValid r = isValid s.
Proof. destruct r, s. unfold size, isValid, isEmpty. cbn. congruence. Qed.

Lemma alter_last_app {A} (f : A -> A) l x : alter_last f (l ++ [x]) = l ++ [f x].
Proof.
  unfold alter_last. rewrite length_app. cbn [length].
  replace (pred (length l + 1)) with (length l + 0)%nat by lia.
  by rewrite alter_app_r.
Qed.

Lemma minus_margins_size r m :
  size (minus_margins r m) = mkSize (rw r - ml m - mr m) (rh r - mt m - mb m).
Proof. unfold minus_margins, of_edges, size, left, right, top, bottom. cbn. f_equal; lia. Qed.

Lemma minus_margins_size_inj r s m :
  size (minus_margins r m) = size (minus_margins s m) -> size r = size s.
Proof. rewrite !minus_margins_size. destruct r, s. unfold size. cbn. intros [= ??]. f_equal; lia. Qed.

Lemma request_open q w :
  block w = 0 -> request q w = setFrameGeometry (rq_frame q) (with_modes q w).
Proof.
  intros Hb. change (blocked (run_script (SetFrame (rq_frame q))) (with_modes q w) =
    setFrameGeometry (rq_frame q) (with_modes q w)). by apply blocked_updates_coalesce.
Qed.

(** The window with a wanted frame, before it is decided what to do about it. *)
Definition wanting (q : Request) (w : Window) : Window :=
  with_modes q w <| upd_frame := rq_frame q |> <| pending := p_none |>.

Lemma request_cases q w :
  block w = 0 -> rules w = [] ->
  request q w =
    let w2 := wanting q w in
    if needs_configure w2 then configure_geometry (rq_frame q) w2
    else if negb (bool_decide (pending_configures w2 = []))
         then w2 <| pending_configures := alter_last (move_event (topLeft (rq_frame q))) (pending_configures w2) |>
         else do_set_geometry (rq_frame q) w2.
Proof.
  intros Hb Hr. rewrite request_open by done. unfold setFrameGeometry.
  change (rules (with_modes q w)) with (rules w). rewrite Hr, checkGeometry_no_rules.
  destruct w. cbn in Hb. by subst.
Qed.

(** The three ways in which a request goes on. *)
Lemma tracked_configure m q0 q w :
  tracked m q0 w -> roomy m q = true -> tracked m q (configure_geometry (rq_frame q) (wanting q w)).
Proof.
  intros [] Hq. apply andb_prop in Hq as Hq'. destruct Hq' as [Hv Hv'].
  unfold configure_geometry. rewrite Hv.
  change (frame_margins (wanting q w)) with (frame_margins w). rewrite tr_margins0.
  split; try done; cbn.
  - rewrite fmap_app. cbn. apply StronglySorted_app_2; [|done|repeat constructor].
    intros x y Hx Hy. apply list_elem_of_singleton in Hy as ->. apply list_elem_of_fmap in Hx as (e & -> & He).
    rewrite Forall_forall in tr_serial0. specialize (tr_serial0 e He). lia.
  - apply Forall_app. split; [|by repeat constructor].
    eapply Forall_impl; [exact tr_serial0|]. cbn. lia.
  - rewrite last_snoc. split_and!; [done..|by left].
Qed.

Lemma no_configure m q0 q w :
  tracked m q0 w -> needs_configure (wanting q w) = false ->
  rq_mode q = rq_mode q0 /\ rq_full q = rq_full q0 /\ size (rq_frame q) = size (rq_frame q0).
Proof.
  intros []. unfold needs_configure.
  change (plasma_shell_surface (wanting q w)) with (plasma_shell_surface w). rewrite tr_plasma0.
  change (upd_max_mode (wanting q w)) with (rq_mode q). change (upd_fullscreen (wanting q w)) with (rq_full q).
  change (synced_max_mode (wanting q w)) with (synced_max_mode w).
  change (synced_fullscreen (wanting q w)) with (synced_fullscreen w).
  change (upd_frame (wanting q w)) with (rq_frame q). change (frame_margins (wanting q w)) with (frame_margins w).
  change (synced_window (wanting q w)) with (synced_window w). cbv zeta.
  rewrite tr_synced_mode0, tr_synced_full0, tr_margins0, tr_window0.
  destruct (Z.eqb_spec (rq_mode q) (rq_mode q0)) as [Em|]; [|done].
  destruct (Bool.eqb (rq_full q) (rq_full q0)) eqn:Ef; [|done]. apply Bool.eqb_prop in Ef.
  cbn [negb]. intros [_ Hs]%orb_false_iff. apply negb_false_iff, bool_decide_eq_true in Hs.
  split_and!; [done..|]. by apply (minus_margins_size_inj _ _ m).
Qed.

Lemma tracked_move m q0 q w :
  tracked m q0 w -> roomy m q = true -> needs_configure (wanting q w) = false ->
  pending_configures w <> [] ->
  tracked m q (wanting q w <| pending_configures :=
    alter_last (move_event (topLeft (rq_frame q))) (pending_configures w) |>).
Proof.
  intros Ht Hq Hn Hne. destruct (no_configure _ _ _ _ Ht Hn) as (Em & Ef & Es). destruct Ht.
  destruct (exists_last Hne) as (l & e & El). rewrite El, alter_last_app in *.
  rewrite last_snoc in tr_last0. destruct tr_last0 as (E1 & E2 & E3 & E4).
  split; try done; cbn.
  - by rewrite Em.
  - by rewrite Ef.
  - rewrite tr_window0, !minus_margins_size. unfold size in Es. injection Es as -> ->. done.
  - rewrite fmap_app in *. done.
  - apply Forall_app in tr_serial0 as [? H]. apply Forall_app. split; [done|].
    apply Forall_cons in H as [? _]. by repeat constructor.
  - rewrite last_snoc. split_and!; cbn.
    + rewrite E1. apply rect_eq; cbn; try done; unfold size in Es; by injection Es.
    + by rewrite Em.
    + by rewrite Ef.
    + replace (size (minus_margins (rq_frame q) m)) with (size (minus_margins (rq_frame q0) m)); [done|].
      rewrite !minus_margins_size. unfold size in Es. by injection Es as -> ->.
Qed.

Lemma do_set_geometry_frame r w : frameGeometry (do_set_geometry r w) = r.
Proof.
  unfold do_set_geometry. destruct (bool_decide_reflect (frameGeometry w = r)) as [E|E]; [done|].
  cbv zeta. by destruct (bool_decide _).
Qed.

(** Setting the frame changes nothing but the frame and the size in the update. *)
Lemma do_set_geometry_rest r w :
  exists f u, do_set_geometry r w = w <| frameGeometry := f |> <| upd_frame := u |>.
Proof.
  unfold do_set_geometry. destruct (bool_decide _).
  - exists (frameGeometry w), (upd_frame w). by destruct w.
  - cbv zeta. destruct (bool_decide _); [eauto|]. exists r, (upd_frame w). by destruct w.
Qed.

Lemma tracked_set m q0 q w :
  tracked m q0 w -> roomy m q = true -> needs_configure (wanting q w) = false ->
  pending_configures w = [] -> tracked m q (do_set_geometry (rq_frame q) (wanting q w)).
Proof.
  intros Ht Hq Hn Hne. destruct (no_configure _ _ _ _ Ht Hn) as (Em & Ef & Es). destruct Ht.
  rewrite Hne in *. destruct tr_last0 as (_ & E2 & E3).
  pose proof (do_set_geometry_frame (rq_frame q) (wanting q w)) as Hf.
  destruct (do_set_geometry_rest (rq_frame q) (wanting q w)) as (f & u & E). rewrite E in *. clear E.
  cbn in Hf. split; try done; cbn.
  - by rewrite Em.
  - by rewrite Ef.
  - rewrite tr_window0, !minus_margins_size. unfold size in Es. by injection Es as -> ->.
  - rewrite Hne. constructor.
  - rewrite Hne. constructor.
  - rewrite Hne. by split_and!; cbn; [rewrite Hf|rewrite Em|rewrite Ef].
Qed.

Lemma tracked_request m q0 q w : tracked m q0 w -> roomy m q = true -> tracked m q (request q w).
Proof.
  intros Ht Hq. rewrite request_cases by apply Ht. cbv zeta.
  destruct (needs_configure (wanting q w)) eqn:Hn; [by eapply tracked_configure|].
  change (pending_configures (wanting q w)) with (pending_configures w).
  destruct (bool_decide_reflect (pending_configures w = [])) as [E|E]; cbn [negb].
  - by eapply tracked_set.
  - by eapply tracked_move.
Qed.

(** *** Commits *)

Lemma do_set_maximize_mode_eq mode w : do_set_maximize_mode mode w = w <| max_mode := mode |>.
Proof. unfold do_set_maximize_mode. destruct (Z.eqb_spec mode (max_mode w)) as [->|]; [by destruct w|done]. Qed.

Lemma do_set_fullscreen_eq full w : rules w = [] -> do_set_fullscreen full w = w <| fullscreen := full |>.
Proof.
  intros Hr. unfold do_set_fullscreen. rewrite Hr. cbn.
  destruct (Bool.eqb (fullscreen w) full) eqn:E; [|done]. apply Bool.eqb_prop in E as <-. by destruct w.
Qed.

(** A window after a commit. *)
Definition committed (mg : QMargins) (f u : QRect) (full : bool) (mode : Z) (w : Window) : Window :=
  w <| client_frame_extents := mg |> <| frameGeometry := f |> <| upd_frame := u |>
    <| fullscreen := full |> <| max_mode := mode |>.

Lemma commit_acked ref_geo mg w e rest :
  rules w = [] -> enabled (move_resize w) = false -> isValid (synced_window w) = true ->
  find_acked (acked_configure w) (pending_configures w) = Some (e, rest) ->
  exists u, apply_pending_geometry ref_geo mg w =
    committed mg (rect_at (topLeft (ce_frame e)) (sadd (size ref_geo) (frame_size w))) u
      (ce_fullscreen e) (ce_max_mode e) (w <| pending_configures := rest |>).
Proof.
  intros Hr Hm Hs Hf. unfold apply_pending_geometry. rewrite Hf. cbn [negb].
  change (frame_size (w <| pending_configures := rest |>)) with (frame_size w).
  set (f := rect_at (topLeft (ce_frame e)) (sadd (size ref_geo) (frame_size w))).
  rewrite andb_false_r. cbn [andb].
  change (synced_window (w <| pending_configures := rest |>)) with (synced_window w). rewrite Hs.
  set (w3 := w <| pending_configures := rest |> <| client_frame_extents := mg |>).
  assert (is_resize w3 = false) as -> by (unfold is_resize; change (move_resize w3) with (move_resize w); by rewrite Hm).
  pose proof (do_set_geometry_frame f w3) as Hfr.
  destruct (do_set_geometry_rest f w3) as (f' & u & E). rewrite E in *. cbn in Hfr. subst f'.
  exists u. rewrite do_set_maximize_mode_eq, do_set_fullscreen_eq by done. by destruct w.
Qed.

Lemma commit_not_acked ref_geo mg w :
  rules w = [] -> enabled (move_resize w) = false -> isValid (synced_window w) = true ->
  find_acked (acked_configure w) (pending_configures w) = None ->
  exists mg' f u, apply_pending_geometry ref_geo mg w = committed mg' f u (fullscreen w) (max_mode w) w /\
    topLeft f = topLeft (frameGeometry w).
Proof.
  intros Hr Hm Hs Hf. unfold apply_pending_geometry. rewrite Hf. cbv zeta. cbn [negb].
  set (f := rect_at (topLeft (frameGeometry w)) (sadd (size ref_geo) (frame_size w))).
  destruct (_ && _ && _).
  { exists (client_frame_extents w), (frameGeometry w), (upd_frame w). split; [by destruct w|done]. }
  rewrite Hs. set (w3 := w <| client_frame_extents := mg |>).
  assert (is_resize w3 = false) as -> by (unfold is_resize; change (move_resize w3) with (move_resize w); by rewrite Hm).
  pose proof (do_set_geometry_frame f w3) as Hfr.
  destruct (do_set_geometry_rest f w3) as (f' & u & E). rewrite E in *. cbn in Hfr. subst f'.
  exists mg, f, u. rewrite do_set_maximize_mode_eq, do_set_fullscreen_eq by done.
  split; [by destruct w|apply rect_at_topLeft].
Qed.

Lemma find_acked_app acked l e rest :
  find_acked acked l = Some (e, rest) -> exists pre, l = pre ++ e :: rest.
Proof.
  induction l as [|x l IH]; [done|]. cbn. destruct (acked <? ce_serial x); [done|].
  destruct (ce_serial x =? acked).
  - intros [= -> ->]. by exists [].
  - intros H. destruct (IH H) as [pre ->]. by exists (x :: pre).
Qed.

Lemma tracked_valid m q w : tracked m q w -> isValid (synced_window w) = true.
Proof.
  intros []. rewrite (size_valid _ (minus_margins (rq_frame q) m)) by done.
  by apply andb_prop in tr_roomy0 as [_ ?].
Qed.

Lemma tracked_commit m q ref_geo mg w :
  tracked m q w -> tracked m q (apply_pending_geometry ref_geo mg w).
Proof.
  intros Ht. pose proof (tracked_valid _ _ _ Ht) as Hv.
  destruct (find_acked (acked_configure w) (pending_configures w)) as [[e rest]|] eqn:Hf.
  - destruct (commit_acked ref_geo mg w e rest) as [u E]; [apply Ht..|done|done|]. rewrite E.
    apply find_acked_app in Hf as [pre Ep]. destruct Ht. rewrite Ep in *.
    split; try done; cbn.
    + rewrite fmap_app in tr_serials0. apply StronglySorted_app_1_r in tr_serials0.
      by apply StronglySorted_inv in tr_serials0 as [? _].
    + apply Forall_app in tr_serial0 as [_ H]. by apply Forall_cons in H as [_ ?].
    + rewrite last_app in tr_last0. destruct rest as [|e' rest].
      * destruct tr_last0 as (E1 & E2 & E3 & _).
        split_and!; cbn; [by rewrite rect_at_topLeft, E1|done|done].
      * rewrite last_cons_cons in tr_last0.
        destruct (last (e' :: rest)) eqn:El; [exact tr_last0|by apply last_None in El].
  - destruct (commit_not_acked ref_geo mg w) as (mg' & f & u & E & Hfr); [apply Ht..|done|done|].
    rewrite E. destruct Ht. split; try done. cbn.
    destruct (last (pending_configures w)); [done|]. destruct tr_last0 as (E1 & E2 & E3).
    split_and!; cbn; [by rewrite Hfr|done|done].
Qed.

Lemma tracked_activate m q w : tracked m q w -> tracked m q (activation_configure w).
Proof.
  intros []. unfold activation_configure. rewrite tr_block0. cbn.
  split; try done; cbn.
  - eapply Forall_impl; [exact tr_serial0|]. cbn. lia.
  - destruct (last (pending_configures w)); [|done]. destruct tr_last0 as (?&?&?&?).
    split_and!; [done..|]. cbn. by right.
Qed.

Lemma tracked_run m es q w :
  tracked m q w -> all_roomy m es = true -> tracked m (last_request q es) (run es w).
Proof.
  revert q w. induction es as [|ev es IH]; intros q w Ht Hr; [done|].
  cbn in Hr. apply andb_prop in Hr as [Hq Hr]. cbn [run foldl]. fold (run es (step ev w)).
  destruct ev as [q'| |n|ref_geo mg]; cbn [last_request step]; apply IH; try done.
  - by eapply tracked_request.
  - by apply tracked_activate.
  - destruct Ht. by split.
  - by apply tracked_commit.
Qed.

(** The acknowledgement of the last event finds it. *)
Lemma find_acked_last l e :
  StronglySorted Z.lt (ce_serial <$> l ++ [e]) -> find_acked (ce_serial e) (l ++ [e]) = Some (e, []).
Proof.
  induction l as [|x l IH]; intros Hs; cbn.
  - by rewrite Z.ltb_irrefl, Z.eqb_refl.
  - cbn in Hs. apply StronglySorted_inv in Hs as [Hs Hx]. rewrite Forall_forall in Hx.
    assert (ce_serial x < ce_serial e) as Hlt.
    { apply Hx. apply list_elem_of_fmap. exists e. split; [done|]. apply elem_of_app. right. by left. }
    rewrite (proj2 (Z.ltb_ge _ _)) by lia. rewrite (proj2 (Z.eqb_neq _ _)) by lia. by apply IH.
Qed.


(** ** Sample data *)

(** A window of 300 by 200 with a decoration, in a session with one screen. *)
Definition plain_margins : QMargins := mkMargins 2 24 2 2.
Definition sample_frame : QRect := mkRect 100 80 304 226.
Definition sample_request : Request := mkRequest sample_frame restore false.
Definition sample : Window :=
  mkWindow sample_frame no_margins 0 p_none sample_frame restore false null_rect 1 Toplevel.Toplevel.Normal
    [] quicktiles.none quicktiles.none false false no_move plain_margins restore
    (minus_margins sample_frame plain_margins) restore false [] 7 (mkSize 0 0) (mkSize INT_MAX INT_MAX)
    None 7 [(7, mkSize 300 200)].

Lemma sample_settled : settled sample_request sample.
Proof. by split; vm_compute. Qed.

(** Two requests; the client answers the first one only with a smaller buffer, and is
    activated in between. *)
Definition sample_events : list Event :=
  [Ask (mkRequest (mkRect 0 0 1000 700) restore false); Activate;
   Ask (mkRequest (mkRect 0 0 1920 1080) full false); Ack 8; Commit (mkRect 0 0 900 600) no_margins;
   Ask (mkRequest (mkRect 0 20 1920 1080) full false)].


Lemma blocked_updates_coalesce_witness :
  blocked (run_script (Sequence (SetFrame (mkRect 5 5 50 50))
    (Scope (Sequence (SetFrame null_rect) (SetFrame (mkRect 10 10 304 226)))))) sample =
  setFrameGeometry (mkRect 10 10 304 226) sample.
Proof.
  exact (blocked_updates_coalesce (Sequence (SetFrame (mkRect 5 5 50 50))
    (Scope (Sequence (SetFrame null_rect) (SetFrame (mkRect 10 10 304 226))))) sample eq_refl).
Defined.

(** ** Requests that go astray

    A client may acknowledge a configure event that was only sent because the window
    became active. Then the events before it stay pending: the window does not take the
    requested frame or mode, and later moves change the pending event only. *)
Example activation_blocks_moves :
  let w := run [Ask (mkRequest (mkRect 0 0 1920 1080) full false); Activate; Ack 9;
                Commit (mkRect 0 0 1916 1054) no_margins] sample in
  max_mode w = restore /\ topLeft (frameGeometry w) = mkPoint 100 80 /\
  frameGeometry (move (mkPoint 300 300) w) = frameGeometry w.
Proof. by vm_compute. Qed.

(** A move starts from the frame in use, and so takes back the size of a request that
    the client has not answered yet. *)
Example move_takes_back_size :
  let w := run [Ask (mkRequest (mkRect 100 80 1004 826) restore false)] sample in
  ce_frame <$> last (pending_configures w) = Some (mkRect 100 80 1004 826) /\
  ce_frame <$> last (pending_configures (move (mkPoint 0 0) w)) = Some (mkRect 0 0 304 226).
Proof. by vm_compute. Qed.

(** ** Quick-tiled windows *)

Definition exactly_one (a b : Prop) : Prop := (a \/ b) /\ ~ (a /\ b).

(** The edges of a tile: the left or top half is the smaller one of an odd size. *)
Lemma tiled_edges tiles r :
  let h := Z.quot (rw r) 2 in let v := Z.quot (rh r) 2 in
  let l := flags (Z.land tiles quicktiles.left) in
  let t := flags (Z.land tiles quicktiles.top) in
  left (tiled_rect tiles r) =
    (if negb l && flags (Z.land tiles quicktiles.right) then left r + h else left r) /\
  right (tiled_rect tiles r) = (if l then left r + h - 1 else right r) /\
  top (tiled_rect tiles r) =
    (if negb t && flags (Z.land tiles quicktiles.bottom) then top r + v else top r) /\
  bottom (tiled_rect tiles r) = (if t then top r + v - 1 else bottom r).
Proof.
  cbv zeta. unfold tiled_rect.
  set (r1 := if flags (Z.land tiles quicktiles.left) then _ else _).
  assert (left r1 = (if negb (flags (Z.land tiles quicktiles.left)) &&
              flags (Z.land tiles quicktiles.right) then left r + Z.quot (rw r) 2 else left r) /\
    right r1 = (if flags (Z.land tiles quicktiles.left) then left r + Z.quot (rw r) 2 - 1 else right r) /\
    top r1 = top r /\ bottom r1 = bottom r /\ rh r1 = rh r) as (<- & <- & <- & <- & <-).
  { unfold r1, setRight, setLeft, of_edges, left, right, top, bottom.
    destruct (flags (Z.land tiles quicktiles.left)), (flags (Z.land tiles quicktiles.right));
      cbn; split_and!; lia. }
  clearbody r1. clear r. unfold setTop, setBottom, of_edges, left, right, top, bottom.
  destruct (flags (Z.land tiles quicktiles.top)), (flags (Z.land tiles quicktiles.bottom));
    cbn; split_and!; lia.
Qed.

(** Evaluate tests of constant flags. *)
Ltac compute_flags :=
  repeat match goal with
  | H : context[flags (Z.land ?a ?b)] |- _ =>
      let v := eval vm_compute in (flags (Z.land a b)) in change (flags (Z.land a b)) with v in H
  end; cbn [negb andb] in *.

(** The rectangles of windows tiled to the left and right half, or to the top and
    bottom half, of an area cover it without overlap, also when its size is odd; a
    window tiled to a corner gets what the two halves have in common; and no tile
    leaves the area. *)
Theorem tiles_partition area p :
  inside p area ->
  exactly_one (inside p (tiled_rect quicktiles.left area)) (inside p (tiled_rect quicktiles.right area)) /\
  exactly_one (inside p (tiled_rect quicktiles.top area)) (inside p (tiled_rect quicktiles.bottom area)) /\
  (forall h, h = quicktiles.left \/ h = quicktiles.right ->
     forall v, v = quicktiles.top \/ v = quicktiles.bottom ->
     (inside p (tiled_rect (Z.lor h v) area) <->
      inside p (tiled_rect h area) /\ inside p (tiled_rect v area))) /\
  (forall tiles, within (tiled_rect tiles area) area).
Proof.
  intros Hp. assert (0 <= Z.quot (rw area) 2 <= rw area /\ 0 <= Z.quot (rh area) 2 <= rh area) as Hq.
  { apply inside_valid, isValid_spec in Hp as [Hw Hh].
    rewrite !Z.quot_div_nonneg by lia.
    pose proof (Z.div_pos (rw area) 2). pose proof (Z.div_pos (rh area) 2).
    pose proof (Z.div_le_upper_bound (rw area) 2 (rw area)).
    pose proof (Z.div_le_upper_bound (rh area) 2 (rh area)). lia. }
  assert (right area = left area + rw area - 1 /\ bottom area = top area + rh area - 1) as [Er Eb] by done.
  assert (forall tiles, within (tiled_rect tiles area) area) as Hin.
  { intros tiles q. unfold inside. destruct (tiled_edges tiles area) as (-> & -> & -> & ->).
    destruct (flags (Z.land tiles quicktiles.left)), (flags (Z.land tiles quicktiles.right)),
      (flags (Z.land tiles quicktiles.top)), (flags (Z.land tiles quicktiles.bottom));
      cbn [negb andb]; lia. }
  destruct (tiled_edges quicktiles.left area) as (L1 & L2 & L3 & L4),
    (tiled_edges quicktiles.right area) as (R1 & R2 & R3 & R4),
    (tiled_edges quicktiles.top area) as (T1 & T2 & T3 & T4),
    (tiled_edges quicktiles.bottom area) as (B1 & B2 & B3 & B4).
  compute_flags.
  unfold exactly_one, inside in *. split_and!; [lia..| |done].
  intros h Hh v Hv. destruct (tiled_edges (Z.lor h v) area) as (H1 & H2 & H3 & H4).
  destruct Hh as [-> | ->], Hv as [-> | ->]; compute_flags; lia.
Qed.

Lemma tiles_partition_witness :
  inside (mkPoint 960 300) (mkRect 0 0 1921 1080) /\
  exactly_one (inside (mkPoint 960 300) (mkRect 0 0 960 1080))
    (inside (mkPoint 960 300) (mkRect 960 0 961 1080)).
Proof.
  assert (inside (mkPoint 960 300) (mkRect 0 0 1921 1080)) as H by
    (unfold inside, left, right, top, bottom; cbn; lia).
  split; [exact H|].
  destruct (tiles_partition (mkRect 0 0 1921 1080) (mkPoint 960 300) H) as [H1 _].
  change (tiled_rect quicktiles.left (mkRect 0 0 1921 1080)) with (mkRect 0 0 960 1080) in H1.
  change (tiled_rect quicktiles.right (mkRect 0 0 1921 1080)) with (mkRect 960 0 961 1080) in H1.
  exact H1.
Defined.

(** ** Keeping windows in an area *)

Lemma kept_pos_nearest area pos s :
  isValid area = true -> 0 < sw s <= rw area -> 0 < sh s <= rh area ->
  let p := kept_pos area pos s in
  within (rect_at p s) area /\
  forall q, within (rect_at q s) area ->
    Z.abs (px p - px pos) <= Z.abs (px q - px pos) /\ Z.abs (py p - py pos) <= Z.abs (py q - py pos).
Proof.
  intros Hv Hw Hh. cbv zeta. destruct (valid_normal area Hv) as (E1 & E2 & E3 & E4).
  assert (forall q, isValid (rect_at q s) = true) as Hvs by (intros q; apply isValid_spec; cbn; lia).
  assert (forall q, within (rect_at q s) area <->
    rx area <= px q /\ px q + sw s <= rx area + rw area /\
    ry area <= py q /\ py q + sh s <= ry area + rh area) as Hin.
  { intros q. rewrite within_edges by done. unfold left, right, top, bottom. cbn. lia. }
  setoid_rewrite Hin. unfold kept_pos, contains_point. rewrite E1, E2, E3, E4. clear Hin Hvs E1 E2 E3 E4.
  unfold left, right, top, bottom.
  destruct (Z.ltb_spec (rx area + rw area - 1) (px pos + sw s)), (Z.leb_spec (sw s) (rw area)),
    (Z.ltb_spec (ry area + rh area - 1) (py pos + sh s)), (Z.leb_spec (sh s) (rh area));
    cbn [andb]; try lia;
  destruct (Z.leb_spec (rx area) (px pos)), (Z.leb_spec (px pos) (rx area + rw area - 1)),
    (Z.leb_spec (ry area) (py pos)), (Z.leb_spec (py pos) (ry area + rh area - 1));
    cbn [andb px py]; repeat case_match; cbn [px py];
    try rewrite !Z.ltb_lt in *; try rewrite !Z.ltb_ge in *; split; try intros q; lia.
Qed.

Lemma setFrame_pending r w :
  rules w = [] -> block w <> 0 -> pending_frame_geometry (setFrameGeometry r w) = r.
Proof.
  intros Hr Hb. rewrite setFrame_blocked by done. unfold noted. by rewrite Hr, checkGeometry_no_rules.
Qed.

(** Keeping a window in an area it fits into leaves its size alone, brings the
    whole frame into the area, and does so by the shortest way in both directions; in
    particular a window that is inside already stays where it is. *)
Theorem keep_in_area_nearest E area w :
  isValid area = true -> rules w = [] -> block w <> 0 ->
  let f := pending_frame_geometry w in
  isValid f = true -> rw f <= rw area -> rh f <= rh area ->
  let f' := pending_frame_geometry (keep_in_area E area false w) in
  size f' = size f /\ within f' area /\
  forall p, within (moveTo f p) area ->
    Z.abs (left f' - left f) <= Z.abs (px p - left f) /\ Z.abs (top f' - top f) <= Z.abs (py p - top f).
Proof.
  intros Hv Hr Hb. cbv zeta. intros Hf Hw Hh. apply isValid_spec in Hf as Hf'. destruct Hf' as [Hfw Hfh].
  set (f := pending_frame_geometry w) in *.
  destruct (kept_pos_nearest area (topLeft f) (size f) Hv) as [H1 H2]; [cbn; lia..|].
  assert (pending_frame_geometry (keep_in_area E area false w) =
    rect_at (kept_pos area (topLeft f) (size f)) (size f)) as ->.
  { unfold keep_in_area. fold f. rewrite !(proj2 (Z.ltb_ge _ _)) by lia. cbn [orb].
    destruct (bool_decide_reflect (kept_pos area (topLeft f) (size f) = topLeft f)) as [E0|E0].
    - rewrite E0. symmetry. apply rect_at_eta.
    - unfold move. fold f. rewrite bool_decide_false by (intros E1; by apply E0).
      by rewrite setFrame_pending. }
  split_and!; [by destruct f|done|]. intros p Hp. apply (H2 p). by destruct f.
Qed.

Definition sample_env : Env := mkEnv (updateAll (mkScreens [mkRect 0 0 1920 1080] 0 0 false (mkSize 0 0)))
  (mkAreas [null_rect; mkRect 0 0 1920 1080] [[]; []] [] [[]; [mkRect 0 0 1920 1080]] [] (mkSize 1920 1080))
  0 1 (mkPoint 0 0).

Lemma keep_in_area_nearest_witness :
  pending_frame_geometry (keep_in_area sample_env (mkRect 0 0 1920 1080) false
    (setFrameGeometry (mkRect 1800 (-50) 304 226) (block_updates sample))) = mkRect 1616 0 304 226 /\
  within (mkRect 1616 0 304 226) (mkRect 0 0 1920 1080).
Proof.
  assert (pending_frame_geometry (keep_in_area sample_env (mkRect 0 0 1920 1080) false
    (setFrameGeometry (mkRect 1800 (-50) 304 226) (block_updates sample))) = mkRect 1616 0 304 226) as E
    by (by vm_compute).
  assert (block (setFrameGeometry (mkRect 1800 (-50) 304 226) (block_updates sample)) <> 0) as Hb
    by (by vm_compute).
  split; [exact E|]. rewrite <- E.
  destruct (keep_in_area_nearest sample_env (mkRect 0 0 1920 1080)
    (setFrameGeometry (mkRect 1800 (-50) 304 226) (block_updates sample)) eq_refl eq_refl Hb eq_refl)
    as (_ & H & _); [by vm_compute|by vm_compute|exact H].
Defined.

(** A window that only has to stay in an area with a part of it is not brought back
    from beyond the left side, since there the area is enlarged from the position of
    the window; from beyond the right side it is. *)
Example far_left_stays :
  pending_frame_geometry (keep_in_area sample_env (mkRect 0 0 1920 1080) true
    (setFrameGeometry (mkRect (-5000) 100 304 226) (block_updates sample))) = mkRect (-5000) 100 304 226 /\
  pending_frame_geometry (keep_in_area sample_env (mkRect 0 0 1920 1080) true
    (setFrameGeometry (mkRect 5000 100 304 226) (block_updates sample))) = mkRect 1820 100 304 226.
Proof. by vm_compute. Qed.

(** The maximal height limits the width: of a window that may be 800 by 600 at most. *)
Example max_height_limits_width :
  adjusted_frame_size (sample <| maximumSize := mkSize 800 600 |>) (mkSize 800 600) = mkSize 626 600.
Proof. by vm_compute. Qed.

End GeometryProps.
