(* ===== verification/Placement.v ===== *)
(** * Placement of windows (src/placement.cpp)

    The search for the position with the least overlap, the cascade, and the positions
    to which windows are packed. The windows around the placed one are those of the
    heap of windows; their pending frames are given next to it. *)

From S2P Require Import Prelude Qt WorkArea Rules Geometry.
From S2P Require Toplevel.

Module Placement.
Import Qt WorkArea Geometry.
Abbreviation wid := nat (only parsing).

(** What the placement reads of the workspace. *)
Record View := mkView {
  heap : Toplevel.Toplevel.Heap;
  tenv : Toplevel.Toplevel.Env;
  frame : wid -> QRect;                  (** geometry_update.frame *)
  stackingOrder : list wid;
  m_allClients : list wid;
}.

(** isIrrelevant: windows that are not taken into account. *)
Definition isIrrelevant (V : View) (desktop : Z) (regarding window : wid) : bool :=
  let w := heap V window in
  match Toplevel.Toplevel.control w with
  | None => true
  | Some _ =>
      (window =? regarding)%nat || negb (Toplevel.Toplevel.isShown w) ||
      negb (Toplevel.Toplevel.on_desktop (tenv V) w desktop) ||
      negb (Toplevel.Toplevel.isOnCurrentActivity (tenv V) w) || Toplevel.Toplevel.is_desktop w
  end.

(** The desktop of the placement: of the window, or the current one. *)
Definition placement_desktop (V : View) (window : wid) : Z :=
  let w := heap V window in
  if (Toplevel.Toplevel.desktop (tenv V) w =? 0) || Toplevel.Toplevel.on_all_desktops (tenv V) w
  then Toplevel.Toplevel.current_desktop (tenv V) else Toplevel.Toplevel.desktop (tenv V) w.

Definition relevant (V : View) (window : wid) (l : list wid) : list wid :=
  filter (fun x => isIrrelevant V (placement_desktop V window) window x = false) l.

(** ** The search of placeSmart *)

(** A window in the way: its frame and the weight of its overlap. *)
Record Obstacle := mkObstacle { o_frame : QRect; o_weight : Z }.

Definition overlap_weight (w : Toplevel.Toplevel.Window) : Z :=
  match Toplevel.Toplevel.control w with
  | Some c => if Toplevel.Toplevel.keep_above c then 16
              else if Toplevel.Toplevel.keep_below c && negb (Toplevel.Toplevel.is_dock w) then 0 else 1
  | None => 1
  end.

Definition obstacles (V : View) (window : wid) : list Obstacle :=
  (fun x => mkObstacle (frame V x) (overlap_weight (heap V x))) <$> relevant V window (stackingOrder V).

(** The overlap of a window at (x, y), of which [cw] and [ch] are the width and height
    less one, with one obstacle, and with all. *)
Definition overlap_with (x y cw ch : Z) (o : Obstacle) : Z :=
  let cxl := x in let cxr := x + cw in let cyt := y in let cyb := y + ch in
  let xl := rx (o_frame o) in let yt := ry (o_frame o) in
  let xr := xl + rw (o_frame o) in let yb := yt + rh (o_frame o) in
  if (cxl <? xr) && (xl <? cxr) && (cyt <? yb) && (yt <? cyb)
  then o_weight o * ((Z.min cxr xr - Z.max cxl xl) * (Z.min cyb yb - Z.max cyt yt))
  else 0.

Definition overlap_at (x y cw ch : Z) (l : list Obstacle) : Z :=
  foldl (fun overlap o => overlap + overlap_with x y cw ch o) 0 l.

Definition none : Z := 0.
Definition h_wrong : Z := -1.
Definition w_wrong : Z := -2.

Definition overlap_or_wrong (area : QRect) (x y cw ch : Z) (l : list Obstacle) : Z :=
  if (bottom area <? y + ch) && (ch <? rh area) then h_wrong
  else if right area <? x + cw then w_wrong
  else overlap_at x y cw ch l.

(** The next column to try: the nearest edge of a window in this row. *)
Definition next_x (area : QRect) (x y cw ch : Z) (l : list Obstacle) : Z :=
  let possible := right area in
  let possible := if x <? possible - cw then possible - cw else possible in
  foldl (fun possible o =>
    let xl := rx (o_frame o) in let yt := ry (o_frame o) in
    let xr := xl + rw (o_frame o) in let yb := yt + rh (o_frame o) in
    if (y <? yb) && (yt <? ch + y) then
      let possible := if (x <? xr) && (xr <? possible) then xr else possible in
      let basket := xl - cw in
      if (x <? basket) && (basket <? possible) then basket else possible
    else possible) possible l.

(** The next row. *)
Definition next_y (area : QRect) (y ch : Z) (l : list Obstacle) : Z :=
  let possible := bottom area in
  let possible := if y <? possible - ch then possible - ch else possible in
  foldl (fun possible o =>
    let yt := ry (o_frame o) in let yb := yt + rh (o_frame o) in
    let possible := if (y <? yb) && (yb <? possible) then yb else possible in
    let basket := yt - ch in
    if (y <? basket) && (basket <? possible) then basket else possible) possible l.

(** The state of the loop, and the rectangles' positions that were tried, the last one
    first. *)
Record Search := mkSearch {
  s_x : Z; s_y : Z;
  x_optimal : Z; y_optimal : Z;
  min_overlap : Z;
  first_pass : bool;
  tried : list QPoint;
}.
#[global] Instance Search_eta : RecordEta Search := fun s =>
  mkSearch (s_x s) (s_y s) (x_optimal s) (y_optimal s) (min_overlap s) (first_pass s) (tried s).

Section PlaceSmart.
Variable area : QRect.
Variable cw ch : Z.
Variable obs : list Obstacle.

(** One round: the state after it, and whether the loop goes on. *)
Definition smart_round (s : Search) : Search * bool :=
  let x := s_x s in let y := s_y s in
  let overlap := overlap_or_wrong area x y cw ch obs in
  let s := s <| tried := mkPoint x y :: tried s |> in
  if overlap =? none then (s <| x_optimal := x |> <| y_optimal := y |>, false)
  else
    let s :=
      if first_pass s then s <| first_pass := false |> <| min_overlap := overlap |>
      else if (none <=? overlap) && (overlap <? min_overlap s)
      then s <| min_overlap := overlap |> <| x_optimal := x |> <| y_optimal := y |> else s in
    let s :=
      if none <? overlap then s <| s_x := next_x area x y cw ch obs |>
      else if overlap =? w_wrong then s <| s_x := left area |> <| s_y := next_y area y ch obs |>
      else s in
    (s, negb (overlap =? h_wrong) && (s_y s <? bottom area)).

Fixpoint smart_loop (fuel : nat) (s : Search) : option Search :=
  match fuel with
  | O => None
  | S fuel' => let '(s', continue) := smart_round s in
               if continue then smart_loop fuel' s' else Some s'
  end.

Definition smart_start : Search :=
  mkSearch (left area) (top area) (left area) (top area) 0 true [].

(** Rounds enough for every area: the columns of every row. *)
Definition smart_fuel : nat := Z.to_nat ((rh area + 1) * (rw area + 2)).

Definition smart_position : option QPoint :=
  s ← smart_loop smart_fuel smart_start;
  Some (mkPoint (x_optimal s) (if rh area <=? ch then top area else y_optimal s)).
End PlaceSmart.

(** Placement::placeSmart; [None] would be a loop that does not end. *)
Definition placeSmart (V : View) (window : wid) (area : QRect) (w : Window) : option Window :=
  if negb (size_isValid (size (upd_frame w))) then Some w
  else
    let ch := rh (upd_frame w) - 1 in let cw := rw (upd_frame w) - 1 in
    p ← smart_position area cw ch (obstacles V window);
    Some (move p w).

(** ** Simple policies *)

Definition placeCentered (area : QRect) (w : Window) : Window :=
  move (mkPoint (left area + Z.quot (rw area - rw (upd_frame w)) 2)
                (top area + Z.quot (rh area - rh (upd_frame w)) 2)) w.

Definition placeZeroCornered (area : QRect) (w : Window) : Window := move (topLeft area) w.

Definition placeOnScreenDisplay (area : QRect) (w : Window) : Window :=
  move (mkPoint (left area + Z.quot (rw area - rw (upd_frame w)) 2)
                (top area + Z.quot (2 * rh area) 3 - Z.quot (rh (upd_frame w)) 2)) w.

Definition placeUnderMouse (E : Env) (area : QRect) (w : Window) : Window :=
  let geom := moveCenter (upd_frame w) (cursor E) in
  keep_in_area E area false (move (topLeft geom) w).

(** placeAtRandom: the static position [px], [py] is returned as well. *)
Definition placeAtRandom (area : QRect) (p : QPoint) (w : Window) : QPoint * Window :=
  let step := 24 in
  let x := if px p <? rx area then rx area else px p in
  let y := if py p <? ry area then ry area else py p in
  let x := x + step in let y := y + 2 * step in
  let x := if Z.quot (rw area) 2 <? x then rx area + step else x in
  let y := if Z.quot (rh area) 2 <? y then ry area + step else y in
  let sz := size (upd_frame w) in
  let tx := if right area <? x + sw sz then Z.max (right area - sw sz) 0 else x in
  let x' := if right area <? x + sw sz then rx area else x in
  let ty := if bottom area <? y + sh sz then Z.max (bottom area - sh sz) 0 else y in
  let y' := if bottom area <? y + sh sz then ry area else y in
  (mkPoint x' y', move (mkPoint tx ty) w).

(** ** The cascade *)

(** DesktopCascadingInfo *)
Record CascadingInfo := mkCascade { c_pos : QPoint; c_col : Z; c_row : Z }.
Definition new_cascade : CascadingInfo := mkCascade (mkPoint (-1) (-1)) 0 0.

Definition reinitCascading (desktop : Z) (count : nat) (cci : list CascadingInfo) : list CascadingInfo :=
  if desktop =? 0 then replicate count new_cascade
  else <[Z.to_nat (desktop - 1) := new_cascade]> cci.

Definition cascadeOffset (E : Env) (w : Window) : QPoint :=
  let area := area_at E PlacementArea (Qt.center (upd_frame w)) (desktop w) in
  mkPoint (Z.quot (rw area) 48) (Z.quot (rh area) 48).

(** What placeCascaded does with the information of the desktop: place the window and
    remember the next position, or leave it to the next policy. *)
Inductive Cascaded := place_at (p : QPoint) | place_otherwise.

Definition cascade_step (area : QRect) (delta : QPoint) (s : QSize) (inf : CascadingInfo)
    : CascadingInfo * Cascaded :=
  let ch := sh s in let cw := sw s in
  let X := left area in let Y := top area in let H := rh area in let W := rw area in
  let inf := if (px (c_pos inf) <? 0) || (px (c_pos inf) <? X) || (py (c_pos inf) <? Y)
             then mkCascade (mkPoint X Y) 0 0 else inf in
  let xp := px (c_pos inf) in let yp := py (c_pos inf) in
  let yp := if H <? yp + ch then Y else yp in
  if (W <? xp + cw) && (yp =? 0) then (inf, place_otherwise)
  else
    let xp := if W <? xp + cw then X else xp in
    let first := negb (negb (px (c_pos inf) =? X) && negb (py (c_pos inf) =? Y)) in
    let inf1 := if negb first && negb (xp =? X) && (yp =? Y)
                then mkCascade (c_pos inf) (c_col inf + 1) (c_row inf) else inf in
    let xp1 := if negb first && negb (xp =? X) && (yp =? Y) then px delta * c_col inf1 else xp in
    let inf2 := if negb first && negb (yp =? Y) && (xp1 =? X)
                then mkCascade (c_pos inf1) (c_col inf1) (c_row inf1 + 1) else inf1 in
    let yp1 := if negb first && negb (yp =? Y) && (xp1 =? X) then py delta * c_row inf2 else yp in
    if negb first && ((W - X <? xp1 + cw) || (H - Y <? yp1 + ch)) then (inf2, place_otherwise)
    else (mkCascade (mkPoint (xp1 + px delta) (yp1 + py delta)) (c_col inf2) (c_row inf2),
          place_at (mkPoint xp1 yp1)).

(** ** Packing *)

(** The position of a window that is moved in a direction until it meets an edge: the
    loops of the four functions, over the relevant windows that lie in the way. *)
Definition overlaps_vertically (f g : QRect) : bool :=
  negb ((bottom g <? top f) || (bottom f <? top g)).
Definition overlaps_horizontally (f g : QRect) : bool :=
  negb ((right g <? left f) || (right f <? left g)).

Definition pack_loop (candidate : QRect -> Z) (between : Z -> Z -> bool) (in_way : QRect -> bool)
    (start : Z) (l : list QRect) : Z :=
  foldl (fun new g => if between (candidate g) new && in_way g then candidate g else new) start l.

Section Pack.
Variable V : View.
Variable E : Env.
Variable window : wid.
Variable w : Window.

Definition pack_frames : list QRect := frame V <$> relevant V window (m_allClients V).

(** Where the window may go at most: the edge of its area, or of the next screen's, with
    the frame's border beyond it if that does not reach into another screen. *)
Definition pack_limit_left (oldX : Z) : Z :=
  let newX := left (area_of E MaximizeArea w) in
  let newX := if oldX <=? newX
              then left (area_at E MaximizeArea (mkPoint (left (upd_frame w) - 1) (py (Qt.center (upd_frame w)))) (desktop w))
              else newX in
  let right := newX - ml (frame_margins w) in
  if intersecting (screens E) (moveRight (upd_frame w) right) <? 2 then right else newX.

Definition packPositionLeft (oldX : Z) (leftEdge : bool) : Z :=
  let newX := pack_limit_left oldX in
  if oldX <=? newX then oldX
  else pack_loop (fun g => if leftEdge then right g + 1 else left g - 1)
         (fun x new => (new <? x) && (x <? oldX)) (overlaps_vertically (upd_frame w)) newX pack_frames.

Definition pack_limit_right (oldX : Z) : Z :=
  let newX := right (area_of E MaximizeArea w) in
  let newX := if newX <=? oldX
              then right (area_at E MaximizeArea (mkPoint (right (upd_frame w) + 1) (py (Qt.center (upd_frame w)))) (desktop w))
              else newX in
  let right := newX + mr (frame_margins w) in
  if intersecting (screens E) (moveRight (upd_frame w) right) <? 2 then right else newX.

Definition packPositionRight (oldX : Z) (rightEdge : bool) : Z :=
  let newX := pack_limit_right oldX in
  if newX <=? oldX then oldX
  else pack_loop (fun g => if rightEdge then left g - 1 else right g + 1)
         (fun x new => (x <? new) && (oldX <? x)) (overlaps_vertically (upd_frame w)) newX pack_frames.

Definition pack_limit_up (oldY : Z) : Z :=
  let newY := top (area_of E MaximizeArea w) in
  if oldY <=? newY
  then top (area_at E MaximizeArea (mkPoint (px (Qt.center (upd_frame w))) (top (upd_frame w) - 1)) (desktop w))
  else newY.

Definition packPositionUp (oldY : Z) (topEdge : bool) : Z :=
  let newY := pack_limit_up oldY in
  if oldY <=? newY then oldY
  else pack_loop (fun g => if topEdge then bottom g + 1 else top g - 1)
         (fun y new => (new <? y) && (y <? oldY)) (overlaps_horizontally (upd_frame w)) newY pack_frames.

Definition pack_limit_down (oldY : Z) : Z :=
  let newY := bottom (area_of E MaximizeArea w) in
  let newY := if newY <=? oldY
              then bottom (area_at E MaximizeArea (mkPoint (px (Qt.center (upd_frame w))) (bottom (upd_frame w) + 1)) (desktop w))
              else newY in
  let bottom := newY + mb (frame_margins w) in
  if intersecting (screens E) (moveBottom (upd_frame w) bottom) <? 2 then bottom else newY.

Definition packPositionDown (oldY : Z) (bottomEdge : bool) : Z :=
  let newY := pack_limit_down oldY in
  if newY <=? oldY then oldY
  else pack_loop (fun g => if bottomEdge then top g - 1 else bottom g + 1)
         (fun y new => (y <? new) && (oldY <? y)) (overlaps_horizontally (upd_frame w)) newY pack_frames.
End Pack.

End Placement.
