(* ===== verification/PlacementProps.v ===== *)
(** * Placement of windows: properties

    The search of the smart placement ends, stays in the area and yields the position
    with the least overlap among those it tries; packing moves a window to the nearest
    edge in its way. *)

From S2P Require Import Prelude Qt WorkArea Rules Geometry GeometryProps Placement.
From S2P Require Toplevel.

Module PlacementProps.
Import Qt WorkArea Geometry Placement.

(** ** Overlap *)

Definition sound (o : Obstacle) : Prop := 0 <= rw (o_frame o) /\ 0 <= rh (o_frame o) /\ 0 <= o_weight o.

Section Search.
Variable area : QRect.
Variable cw ch : Z.
Variable obs : list Obstacle.
Hypothesis Harea : isValid area = true.
Hypothesis Hcw : 0 <= cw.
Hypothesis Hch : 0 <= ch.
Hypothesis Hobs : Forall sound obs.

Lemma overlap_with_bounds x y o :
  sound o -> 0 <= overlap_with x y cw ch o /\ (0 < overlap_with x y cw ch o -> 0 < cw /\ 0 < ch).
Proof.
  intros (Hw & Hh & Hweight). unfold overlap_with. cbv zeta.
  destruct (_ && _) eqn:E; [|lia]. rewrite !andb_true_iff, !Z.ltb_lt in E. destruct E as [[[E1 E2] E3] E4].
  set (a := Z.min _ _ - Z.max _ _) at 1 3. set (b := Z.min (y + ch) _ - _).
  assert (0 <= a <= cw) by lia. assert (0 <= b <= ch) by lia. split; [nia|].
  intros Hp. assert (a <> 0 /\ b <> 0) as [Ha Hb] by (split; intros E; rewrite E in Hp; nia). lia.
Qed.

Lemma overlap_foldl x y l z :
  foldl (fun overlap o => overlap + overlap_with x y cw ch o) z l = z + overlap_at x y cw ch l.
Proof.
  unfold overlap_at. revert z. induction l as [|o l IH]; intros z; cbn; [lia|].
  rewrite IH, (IH (0 + _)). lia.
Qed.

Lemma overlap_at_cons x y o l :
  overlap_at x y cw ch (o :: l) = overlap_with x y cw ch o + overlap_at x y cw ch l.
Proof. unfold overlap_at at 1. cbn. by rewrite overlap_foldl. Qed.

Lemma overlap_at_bounds x y l :
  Forall sound l -> 0 <= overlap_at x y cw ch l /\ (0 < overlap_at x y cw ch l -> 0 < cw /\ 0 < ch).
Proof.
  induction 1 as [|o l Ho Hl IH]; [unfold overlap_at; cbn; lia|].
  rewrite overlap_at_cons. pose proof (overlap_with_bounds x y o Ho). lia.
Qed.

(** Without overlap no window in the way shares a point with the placed one, the last
    column and row of which are left out of account. *)
Lemma overlap_zero x y l :
  Forall sound l -> overlap_at x y cw ch l = 0 ->
  forall o, o ∈ l -> o_weight o <> 0 ->
  forall p, inside p (o_frame o) -> ~ inside p (mkRect x y cw ch).
Proof.
  induction 1 as [|o' l Ho Hl IH]; intros E o Hin Hw p Hp Hq; [by apply not_elem_of_nil in Hin|].
  rewrite overlap_at_cons in E.
  pose proof (overlap_with_bounds x y o' Ho). pose proof (overlap_at_bounds x y l Hl).
  apply elem_of_cons in Hin as [->|Hin]; [|by eapply IH; [lia|..]].
  destruct Ho as (Hw' & Hh & Hweight). unfold inside, left, right, top, bottom in Hp, Hq. cbn in Hq.
  assert (overlap_with x y cw ch o' = 0) as E' by lia. unfold overlap_with in E'. cbv zeta in E'.
  rewrite !(proj2 (Z.ltb_lt _ _)) in E' by lia. cbn [andb] in E'.
  apply Z.mul_eq_0 in E' as [E'|E']; [done|]. apply Z.mul_eq_0 in E'. lia.
Qed.

(** ** The steps of the search *)

(** The overlap at a position, negative if the window leaves the area there. *)
Definition ov (p : QPoint) : Z := overlap_or_wrong area (px p) (py p) cw ch obs.
#[local] Arguments ov : simpl never.

Lemma ov_cases p :
  ov p = h_wrong /\ bottom area < py p + ch /\ ch < rh area \/
  ov p = w_wrong /\ right area < px p + cw \/
  0 <= ov p /\ px p + cw <= right area /\ (py p + ch <= bottom area \/ rh area <= ch) /\
    (0 < ov p -> 0 < cw /\ 0 < ch).
Proof.
  unfold ov, overlap_or_wrong. pose proof (overlap_at_bounds (px p) (py p) obs Hobs).
  destruct (Z.ltb_spec (bottom area) (py p + ch)), (Z.ltb_spec ch (rh area)),
    (Z.ltb_spec (right area) (px p + cw)); cbn [andb]; lia.
Qed.

(** A candidate is taken when it lies between the current position and the best so far. *)
Lemma pick_range x c p :
  x <= p ->
  x <= (if (x <? c) && (c <? p) then c else p) <= p /\
  (x < p -> x < (if (x <? c) && (c <? p) then c else p)).
Proof. destruct (Z.ltb_spec x c), (Z.ltb_spec c p); cbn [andb]; lia. Qed.

Lemma next_x_range x y :
  x < right area -> x + cw <= right area -> x < next_x area x y cw ch obs <= right area.
Proof.
  intros Hx Hc. unfold next_x. cbv zeta.
  set (start := if x <? right area - cw then right area - cw else right area).
  assert (x < start <= right area) as Hs by (unfold start; destruct (Z.ltb_spec x (right area - cw)); lia).
  clearbody start. clear Hobs. revert start Hs. induction obs as [|o l IH]; intros start Hs; [done|]. cbn [foldl].
  apply IH. destruct (_ && _); [|done]. cbv zeta.
  pose proof (pick_range x (rx (o_frame o) + rw (o_frame o)) start) as H1.
  match goal with |- _ < (if _ && (?b <? ?q) then _ else _) <= _ => pose proof (pick_range x b q) as H2 end.
  lia.
Qed.

Lemma next_y_range y :
  y <= bottom area ->
  y <= next_y area y ch obs <= bottom area /\ (y < bottom area -> y < next_y area y ch obs).
Proof.
  intros Hy. unfold next_y. cbv zeta.
  set (start := if y <? bottom area - ch then bottom area - ch else bottom area).
  assert (y <= start <= bottom area /\ (y < bottom area -> y < start)) as Hs
    by (unfold start; destruct (Z.ltb_spec y (bottom area - ch)); lia).
  clearbody start. clear Hobs. revert start Hs. induction obs as [|o l IH]; intros start Hs; [done|]. cbn [foldl].
  apply IH. cbv zeta.
  pose proof (pick_range y (ry (o_frame o) + rh (o_frame o)) start) as H1.
  match goal with |- context[(_ <? ?b) && (?b <? ?q)] => pose proof (pick_range y b q) as H2 end.
  lia.
Qed.

(** What holds while the loop runs. *)
Record searching (s : Search) : Prop := {
  se_x : left area <= s_x s <= right area;
  se_y : top area <= s_y s <= bottom area;
  se_tried : forall p, p ∈ tried s -> left area <= px p /\ top area <= py p;
  se_first : first_pass s = true ->
    tried s = [] /\ s_x s = left area /\ s_y s = top area /\
    x_optimal s = left area /\ y_optimal s = top area;
  se_next : first_pass s = false ->
    let best := mkPoint (x_optimal s) (y_optimal s) in
    best ∈ tried s /\ topLeft area ∈ tried s /\ min_overlap s = ov best /\
    (ov best < 0 -> best = topLeft area) /\
    (forall p, p ∈ tried s -> 0 <= ov p -> ov best <= ov p);
}.

Definition measure (s : Search) : Z := (bottom area - s_y s) * (rw area + 1) + (right area - s_x s).

(** What holds at the end. *)
Definition found (s : Search) : Prop :=
  let best := mkPoint (x_optimal s) (y_optimal s) in
  best ∈ tried s /\ topLeft area ∈ tried s /\ (ov best < 0 -> best = topLeft area) /\
  (forall p, p ∈ tried s -> 0 <= ov p -> ov best <= ov p) /\
  (forall p, p ∈ tried s -> left area <= px p /\ top area <= py p).

Lemma area_size : 0 < rw area /\ 0 < rh area.
Proof. by apply isValid_spec. Qed.

(** The record of the best position after one more was tried. *)
Definition noted (s : Search) (overlap : Z) : Search :=
  if first_pass s then s <| first_pass := false |> <| min_overlap := overlap |>
  else if (none <=? overlap) && (overlap <? min_overlap s)
  then s <| min_overlap := overlap |> <| x_optimal := s_x s |> <| y_optimal := s_y s |> else s.

Lemma noted_best s :
  searching s ->
  let p := mkPoint (s_x s) (s_y s) in
  let s1 := noted (s <| tried := p :: tried s |>) (ov p) in
  let best := mkPoint (x_optimal s1) (y_optimal s1) in
  first_pass s1 = false /\ s_x s1 = s_x s /\ s_y s1 = s_y s /\ tried s1 = p :: tried s /\
  best ∈ tried s1 /\ topLeft area ∈ tried s1 /\ min_overlap s1 = ov best /\
  (ov best < 0 -> best = topLeft area) /\
  (forall q, q ∈ tried s1 -> 0 <= ov q -> ov best <= ov q).
Proof.
  intros []. cbv zeta. set (p := mkPoint (s_x s) (s_y s)). unfold noted.
  change (first_pass (s <| tried := p :: tried s |>)) with (first_pass s).
  destruct (first_pass s) eqn:Ef.
  - destruct (se_first0 eq_refl) as (Et & Ex & Ey & Eox & Eoy). cbn.
    assert (mkPoint (x_optimal s) (y_optimal s) = p) as Ep by (unfold p; congruence).
    assert (topLeft area = p) as Etl by (unfold p, topLeft; congruence).
    rewrite Ep, Et, Etl. split_and!; try done; try by left.
    intros q Hq%list_elem_of_singleton. by subst.
  - destruct (se_next0 eq_refl) as (H1 & H2 & H3 & H4 & H5).
    change (min_overlap (s <| tried := p :: tried s |>)) with (min_overlap s).
    set (best := mkPoint (x_optimal s) (y_optimal s)) in *.
    destruct ((none <=? ov p) && (ov p <? min_overlap s)) eqn:E; cbn.
    + apply andb_prop in E as [E1%Z.leb_le E2%Z.ltb_lt]. unfold none in E1.
      split_and!; try done; [by left|by right|fold p; lia|].
      intros q [->|Hq]%elem_of_cons Hq0; [done|]. fold p. specialize (H5 q Hq Hq0). lia.
    + fold best. split_and!; try done; [by right|by right|].
      intros q [->|Hq]%elem_of_cons Hq0; [|by apply H5].
      apply andb_false_iff in E as [E%Z.leb_gt|E%Z.ltb_ge]; unfold none in *; lia.
Qed.

Lemma smart_round_eq s :
  let p := mkPoint (s_x s) (s_y s) in
  let s0 := s <| tried := p :: tried s |> in
  smart_round area cw ch obs s =
    if ov p =? none then (s0 <| x_optimal := s_x s |> <| y_optimal := s_y s |>, false)
    else
      let s1 := noted s0 (ov p) in
      let s2 := if none <? ov p then s1 <| s_x := next_x area (s_x s) (s_y s) cw ch obs |>
                else if ov p =? w_wrong
                then s1 <| s_x := left area |> <| s_y := next_y area (s_y s) ch obs |> else s1 in
      (s2, negb (ov p =? h_wrong) && (s_y s2 <? bottom area)).
Proof. reflexivity. Qed.

Lemma smart_round_ok s :
  searching s ->
  let '(s', continue) := smart_round area cw ch obs s in
  if continue then searching s' /\ 0 <= measure s' < measure s else found s'.
Proof.
  intros Hs. rewrite smart_round_eq. cbv zeta. set (p := mkPoint (s_x s) (s_y s)).
  pose proof (ov_cases p) as Hc. pose proof area_size as [HW HH].
  destruct (noted_best s Hs) as (F1 & F2 & F3 & F4 & F5). fold p in F1, F2, F3, F4, F5.
  assert (forall q, q ∈ p :: tried s -> left area <= px q /\ top area <= py q) as Htried.
  { intros q [->|Hq]%elem_of_cons; [|by apply Hs]. destruct Hs. cbn. lia. }
  destruct (Z.eqb_spec (ov p) none) as [E0|E0].
  - (* a position without overlap *)
    unfold none in E0. assert (topLeft area ∈ p :: tried s) as Htl.
    { apply elem_of_cons. destruct Hs. destruct (first_pass s).
      - destruct se_first0 as (_ & Ex & Ey & _); [done|]. left. unfold p, topLeft. congruence.
      - right. by apply se_next0. }
    unfold found. cbn. fold p. split_and!; [by left|done|lia|intros q _ ?; lia|done].
  - set (s1 := noted (s <| tried := p :: tried s |>) (ov p)) in *.
    set (s2 := if none <? ov p then _ else _).
    assert (first_pass s2 = false /\ tried s2 = tried s1 /\ x_optimal s2 = x_optimal s1 /\
      y_optimal s2 = y_optimal s1 /\ min_overlap s2 = min_overlap s1) as (G1 & G2 & G3 & G4 & G5)
      by (unfold s2; destruct (none <? ov p), (ov p =? w_wrong); by cbn).
    destruct (negb (ov p =? h_wrong) && (s_y s2 <? bottom area)) eqn:Econt.
    + apply andb_prop in Econt as [Eh%negb_true_iff%Z.eqb_neq Ey%Z.ltb_lt].
      assert (left area <= s_x s2 <= right area /\ top area <= s_y s2 <= bottom area /\
        0 <= measure s2 < measure s) as (K1 & K2 & K3).
      { destruct Hs as [Hx Hy _ _ _]. revert Ey. unfold s2, measure. cbn in Hc.
        pose proof (next_y_range (s_y s)) as Hny. pose proof (next_x_range (s_x s) (s_y s)) as Hnx.
        assert (right area = left area + rw area - 1) as ER by done.
        destruct (Z.ltb_spec none (ov p)) as [Hpos|Hpos]; unfold none in *.
        - cbn. rewrite F3. unfold h_wrong, w_wrong in Hc.
          assert (s_x s + cw <= right area /\ 0 < cw) as [Hxr Hcw0] by (cbn in Hc; lia).
          intros Ey. split_and!; nia.
        - unfold h_wrong in Eh, Hc. rewrite (proj2 (Z.eqb_eq (ov p) w_wrong)) by lia. cbn. intros Ey. split_and!; nia. }
      split; [|done]. split; [done|done|by rewrite G2, F4|congruence|]. intros _. rewrite G2, G3, G4, G5. exact F5.
    + unfold found. rewrite G2, G3, G4. rewrite F4 in *. tauto.
Qed.

Lemma smart_loop_ok fuel s :
  searching s -> measure s < Z.of_nat fuel ->
  exists s', smart_loop area cw ch obs fuel s = Some s' /\ found s'.
Proof.
  revert s. induction fuel as [|fuel IH]; intros s Hs Hm.
  - exfalso. destruct Hs as [? ? _ _ _]. unfold measure in Hm. pose proof area_size. nia.
  - cbn [smart_loop]. pose proof (smart_round_ok s Hs) as Hr.
    destruct (smart_round area cw ch obs s) as [s' []]; [|by exists s'].
    destruct Hr as [Hs' Hlt]. apply IH; [done|lia].
Qed.

Lemma smart_start_searching : searching (smart_start area).
Proof.
  pose proof area_size as [HW HH]. split; cbn [smart_start s_x s_y first_pass tried x_optimal y_optimal]; try done;
    try (by intros p ?%not_elem_of_nil); unfold left, right, top, bottom; lia.
Qed.

Lemma smart_search_ok : exists s, smart_loop area cw ch obs (smart_fuel area) (smart_start area) = Some s /\ found s.
Proof.
  apply smart_loop_ok; [apply smart_start_searching|].
  pose proof area_size as [HW HH]. unfold measure, smart_fuel, right, bottom. cbn.
  unfold left, top.
  rewrite Z2Nat.id by nia. nia.
Qed.
End Search.

(** ** Smart placement *)

Lemma overlap_weight_nonneg w : 0 <= overlap_weight w.
Proof. unfold overlap_weight. repeat case_match; lia. Qed.

Lemma obstacles_sound V window :
  (forall x, x ∈ stackingOrder V -> 0 <= rw (frame V x) /\ 0 <= rh (frame V x)) ->
  Forall sound (obstacles V window).
Proof.
  intros H. apply Forall_forall. intros o Ho. apply list_elem_of_fmap in Ho as (x & -> & Hx).
  apply list_elem_of_filter in Hx as [_ Hx]. destruct (H x Hx).
  split_and!; [done|done|apply overlap_weight_nonneg].
Qed.

(** Inside of the area the overlap is that with the windows. *)
Lemma ov_within area cw ch obs p :
  isValid area = true -> 0 <= cw -> 0 <= ch ->
  within (mkRect (px p) (py p) (cw + 1) (ch + 1)) area ->
  ov area cw ch obs p = overlap_at (px p) (py p) cw ch obs.
Proof.
  intros Ha Hw Hh Hin. apply within_edges in Hin; [|apply isValid_spec; cbn; lia].
  unfold left, right, top, bottom in Hin. cbn in Hin. unfold ov, overlap_or_wrong, right, bottom.
  destruct (Z.ltb_spec (ry area + rh area - 1) (py p + ch)), (Z.ltb_spec ch (rh area)),
    (Z.ltb_spec (rx area + rw area - 1) (px p + cw)); cbn [andb]; lia.
Qed.

(** Smart placement moves the window, if its size and the area are valid. *)
Lemma placeSmart_moves V window area w :
  isValid area = true -> isValid (upd_frame w) = true ->
  (forall x, x ∈ stackingOrder V -> 0 <= rw (frame V x) /\ 0 <= rh (frame V x)) ->
  exists p, placeSmart V window area w = Some (move p w).
Proof.
  intros Ha [Hw Hh]%isValid_spec Hfr. unfold placeSmart, size_isValid. cbn [size sw sh].
  rewrite !(proj2 (Z.leb_le 0 _)) by lia. cbn [andb negb]. cbv zeta. unfold smart_position.
  destruct (smart_search_ok area (rw (upd_frame w) - 1) (rh (upd_frame w) - 1) (obstacles V window) Ha)
    as (s & -> & _); [lia|lia|by apply obstacles_sound|]. cbn. by eexists.
Qed.

(** C28: the smart placement always ends. It tries at least the top left corner of the
    area; a window that fits into the area is put inside of it, at a position whose
    overlap with the other windows is the least of all positions tried; and if that is
    no overlap, the window (without its last column and row) shares no point with any
    window in the way that is not kept below. *)
Theorem placeSmart_finds V window area w :
  isValid area = true -> isValid (upd_frame w) = true ->
  (forall x, x ∈ stackingOrder V -> 0 <= rw (frame V x) /\ 0 <= rh (frame V x)) ->
  let cw := rw (upd_frame w) - 1 in let ch := rh (upd_frame w) - 1 in
  let obs := obstacles V window in
  exists s, smart_loop area cw ch obs (smart_fuel area) (smart_start area) = Some s /\
  topLeft area ∈ tried s /\
  let p := mkPoint (x_optimal s) (if rh area <=? ch then top area else y_optimal s) in
  placeSmart V window area w = Some (move p w) /\
  (rw (upd_frame w) <= rw area -> rh (upd_frame w) <= rh area ->
   within (moveTo (upd_frame w) p) area /\
   (forall q, q ∈ tried s -> within (moveTo (upd_frame w) q) area ->
      overlap_at (px p) (py p) cw ch obs <= overlap_at (px q) (py q) cw ch obs) /\
   (overlap_at (px p) (py p) cw ch obs = 0 ->
    forall x, x ∈ relevant V window (stackingOrder V) -> overlap_weight (heap V x) <> 0 ->
    forall a, inside a (frame V x) -> ~ inside a (mkRect (px p) (py p) cw ch))).
Proof.
  intros Ha Hf Hfr. cbv zeta. apply isValid_spec in Ha as Ha', Hf as Hf'.
  destruct Ha' as [HW HH], Hf' as [Hw Hh].
  set (cw := rw (upd_frame w) - 1). set (ch := rh (upd_frame w) - 1). set (obs := obstacles V window).
  pose proof (obstacles_sound V window Hfr) as Hobs. fold obs in Hobs.
  destruct (smart_search_ok area cw ch obs Ha) as (s & Es & H1 & H2 & H3 & H4 & H5); [lia|lia|done|].
  exists s. split; [done|]. split; [done|]. split.
  { unfold placeSmart. unfold size_isValid. cbn [size sw sh].
    rewrite !(proj2 (Z.leb_le 0 _)) by lia. cbn [andb negb]. fold cw ch obs. unfold smart_position.
    by rewrite Es. }
  intros Hfw Hfh. rewrite (proj2 (Z.leb_gt _ _)) by lia.
  set (p := mkPoint (x_optimal s) (y_optimal s)) in *.
  assert (forall q, moveTo (upd_frame w) q = mkRect (px q) (py q) (cw + 1) (ch + 1)) as Em.
  { intros q. unfold moveTo, cw, ch. f_equal; lia. }
  assert (within (mkRect (px p) (py p) (cw + 1) (ch + 1)) area) as Hp.
  { apply within_edges; [apply isValid_spec; cbn; lia|]. unfold left, right, top, bottom. cbn.
    destruct (H5 p H1) as [Hl Ht]. unfold left, top in Hl, Ht. cbn in Hl, Ht.
    pose proof (ov_cases area cw ch obs) as Hc. specialize (Hc ltac:(lia) ltac:(lia) Hobs p).
    unfold h_wrong, w_wrong, right, bottom in Hc. cbn in Hc.
    destruct (Z.lt_ge_cases (ov area cw ch obs p) 0) as [Hneg|Hpos]; [|lia].
    pose proof (H3 Hneg) as Ep. unfold p, topLeft, left, top in Ep. injection Ep as Ex Ey. lia. }
  assert (ov area cw ch obs p = overlap_at (px p) (py p) cw ch obs) as Eov by
    (apply ov_within; [done|lia|lia|done]).
  rewrite Em. split_and!; [done| |].
  - intros q Hq Hin. rewrite Em in Hin. rewrite <- Eov.
    rewrite <- (ov_within area) by (done || lia). apply H4; [done|].
    rewrite (ov_within area) by (done || lia). apply overlap_at_bounds; [lia|lia|done].
  - intros E0 x Hx Hweight. apply (overlap_zero cw ch) with (l := obs) (o := mkObstacle (frame V x) (overlap_weight (heap V x)));
      [lia|lia|done|done| |done].
    apply list_elem_of_fmap. by exists x.
Qed.

(** A window of 304 by 226 on a screen of which another one covers the left half. *)
Definition half_covered : View := mkView (fun _ => Toplevel.Toplevel.plain_window) Toplevel.Toplevel.plain_env
  (fun _ => mkRect 0 0 960 1080) [2%nat] [].

Lemma placeSmart_finds_witness :
  upd_frame <$> placeSmart half_covered 1 (mkRect 0 0 1920 1080) (block_updates GeometryProps.sample) =
    Some (mkRect 960 0 304 226) /\
  exists s, smart_loop (mkRect 0 0 1920 1080) 303 225 (obstacles half_covered 1)
    (smart_fuel (mkRect 0 0 1920 1080)) (smart_start (mkRect 0 0 1920 1080)) = Some s /\
  topLeft (mkRect 0 0 1920 1080) ∈ tried s.
Proof.
  split; [by vm_compute|].
  destruct (placeSmart_finds half_covered 1 (mkRect 0 0 1920 1080) (block_updates GeometryProps.sample) eq_refl eq_refl)
    as (s & H1 & H2 & _); [by intros|]. exists s. exact (conj H1 H2).
Defined.

(** ** Packing *)

(** Of all the edges between a limit and the old position, the one nearest to the old
    position; or the limit itself. [up] is the direction in which coordinates grow. *)
Definition nearest_stop (up : bool) (cand : QRect -> Z) (in_way : QRect -> bool) (l : list QRect)
    (limit old r : Z) : Prop :=
  let before (a b : Z) := if up then b < a else a < b in
  (r = limit \/ exists g, g ∈ l /\ in_way g = true /\ r = cand g /\ before limit r /\ before r old) /\
  forall g, g ∈ l -> in_way g = true -> before limit (cand g) -> before (cand g) old ->
    cand g = r \/ before (cand g) r.

Lemma pack_loop_nearest (up : bool) (cand : QRect -> Z) in_way limit old l :
  (if up then old < limit else limit < old) ->
  nearest_stop up cand in_way l limit old
    (pack_loop cand (fun x new => if up then (x <? new) && (old <? x) else (new <? x) && (x <? old))
       in_way limit l).
Proof.
  intros Hlim.
  set (between := fun x new => if up then (x <? new) && (old <? x) else (new <? x) && (x <? old)).
  assert (forall l start, (if up then old < start <= limit else limit <= start < old) ->
    let r := pack_loop cand between in_way start l in
    (if up then old < r <= start else start <= r < old) /\
    (r = start \/ exists g, g ∈ l /\ in_way g = true /\ r = cand g) /\
    forall g, g ∈ l -> in_way g = true -> (if up then old < cand g < start else start < cand g < old) ->
      cand g = r \/ (if up then r < cand g else cand g < r)) as H.
  { clear l. intros l. induction l as [|g l IH]; intros start Hs; cbn [pack_loop foldl].
    { split_and!; [destruct up; cbn; lia|by left|by intros g ?%not_elem_of_nil]. }
    set (next := if between (cand g) start && in_way g then cand g else start).
    assert (if up then old < next <= start else start <= next < old) as Hn.
    { unfold next, between. destruct up, (in_way g); rewrite ?andb_false_r; try lia;
        [destruct (Z.ltb_spec (cand g) start), (Z.ltb_spec old (cand g))
        |destruct (Z.ltb_spec start (cand g)), (Z.ltb_spec (cand g) old)]; cbn [andb]; lia. }
    destruct (IH next) as (H1 & H2 & H3); [destruct up; lia|]. fold (pack_loop cand between in_way next l).
    set (r := pack_loop cand between in_way next l) in *. split_and!; [destruct up; lia| |].
    - destruct H2 as [->|(h & Hh & Hw & ->)]; [|right; exists h; split_and!; [by right|done|done]].
      unfold next. destruct (between (cand g) start && in_way g) eqn:E; [|by left].
      apply andb_prop in E as [_ E]. right. exists g. split_and!; [by left|done|done].
    - intros h [->|Hh]%elem_of_cons Hw Hb.
      + assert (next = cand g) as En.
        { unfold next, between. rewrite Hw, andb_true_r. destruct up; by rewrite !(proj2 (Z.ltb_lt _ _)) by lia. }
        destruct up; lia.
      + specialize (H3 h Hh Hw). clear -H1 H3 Hb Hn. clearbody next.
        destruct up; [destruct (Z.lt_ge_cases (cand h) next)|destruct (Z.lt_ge_cases next (cand h))]; lia. }
  destruct (H l limit) as (H1 & H2 & H3); [destruct up; lia|].
  set (r := pack_loop cand between in_way limit l) in *. split.
  - destruct (decide (r = limit)) as [|Hne]; [by left|right].
    destruct H2 as [|(g & Hg & Hw & E)]; [done|]. exists g. rewrite <- E.
    split_and!; [done|done|done|destruct up; lia|destruct up; lia].
  - intros g Hg Hw Hb1 Hb2. apply H3; [done|done|destruct up; lia].
Qed.

(** Packing a window in one of the four directions moves it to the nearest edge of
    another window in its way, no further than the limit of its area, and leaves it
    where it is if it has passed that limit. *)
Theorem packing_stops_at_nearest V E window w old edge :
  let frames := pack_frames V window in
  let f := upd_frame w in
  (packPositionLeft V E window w old edge = old /\ old <= pack_limit_left E w old \/
   nearest_stop false (fun g => if edge then right g + 1 else left g - 1) (overlaps_vertically f) frames
     (pack_limit_left E w old) old (packPositionLeft V E window w old edge)) /\
  (packPositionRight V E window w old edge = old /\ pack_limit_right E w old <= old \/
   nearest_stop true (fun g => if edge then left g - 1 else right g + 1) (overlaps_vertically f) frames
     (pack_limit_right E w old) old (packPositionRight V E window w old edge)) /\
  (packPositionUp V E window w old edge = old /\ old <= pack_limit_up E w old \/
   nearest_stop false (fun g => if edge then bottom g + 1 else top g - 1) (overlaps_horizontally f) frames
     (pack_limit_up E w old) old (packPositionUp V E window w old edge)) /\
  (packPositionDown V E window w old edge = old /\ pack_limit_down E w old <= old \/
   nearest_stop true (fun g => if edge then top g - 1 else bottom g + 1) (overlaps_horizontally f) frames
     (pack_limit_down E w old) old (packPositionDown V E window w old edge)).
Proof.
  cbv zeta.
  unfold packPositionLeft, packPositionRight, packPositionUp, packPositionDown. cbv zeta.
  split_and!.
  - destruct (Z.leb_spec old (pack_limit_left E w old)); [by left|right].
    by apply (pack_loop_nearest false).
  - destruct (Z.leb_spec (pack_limit_right E w old) old); [by left|right].
    by apply (pack_loop_nearest true).
  - destruct (Z.leb_spec old (pack_limit_up E w old)); [by left|right].
    by apply (pack_loop_nearest false).
  - destruct (Z.leb_spec (pack_limit_down E w old) old); [by left|right].
    by apply (pack_loop_nearest true).
Qed.

End PlacementProps.
