(* ===== verification/Maximize.v ===== *)
(** * Maximizing, quick tiling and fullscreen (src/win/maximize.h, move.h, fullscreen.h)

    The templates at the class of Wayland toplevel windows, as in [Geometry]. The option
    for borderless maximized windows is off, so that maximizing leaves the decoration
    alone; the signals about changed modes have no effect here. *)

From S2P Require Import Prelude Qt WorkArea Rules Geometry Placement.
From S2P Require Toplevel.

Module Maximize.
Import Qt WorkArea Geometry Placement.

Section WithEnv.
Variable E : Env.
Variable V : View.
Variable window : wid.             (** the window itself, to be left out of the placement *)

(** A smart placement that ends, as it does in every valid area. *)
Definition place_smart (area : QRect) (w : Window) : Window := default w (placeSmart V window area w).

(** ** Maximizing (win/maximize.h) *)

Definition set_restore_geometry (restore_geo : QRect) (w : Window) : Window :=
  if upd_fullscreen w then w
  else if negb (quicktiling w =? quicktiles.none) then w
  else if is_move w then w
  else w <| restore_maximize := restore_geo |>.

Definition get_maximizing_area (w : Window) : QRect :=
  if electric_maximizing w then area_at E MaximizeArea (cursor E) (desktop w)
  else area_of E MaximizeArea w.

(** rectify_restore_geometry: the geometry, and the window after the temporary
    placement. *)
Definition restore_size (area restore_geo : QRect) : QSize :=
  mkSize (if 0 <? rw restore_geo then rw restore_geo else Z.quot (rw area * 2) 3)
         (if 0 <? rh restore_geo then rh restore_geo else Z.quot (rh area * 2) 3).

Definition rectify_restore_geometry (restore_geo : QRect) (w : Window) : Window * QRect :=
  if isValid restore_geo then (w, restore_geo)
  else
    let area := get_maximizing_area w in
    let frame_sz := restore_size area restore_geo in
    let w1 := block_updates w in
    let old_frame_geo := upd_frame w1 in
    let w2 := place_smart area (setFrameGeometry (rect_at (mkPoint 0 0) frame_sz) w1) in
    let geo := upd_frame w2 in
    (unblock_updates (setFrameGeometry old_frame_geo w2), geo).

(** Of a Wayland window (win/wayland/maximize.h): without a valid geometry the client
    is asked for its size. *)
Definition update_frame_from_restore_geometry (restore_geo : QRect) (w : Window) : Window :=
  let '(w1, geo) := rectify_restore_geometry restore_geo w in
  setFrameGeometry (if isValid restore_geo then geo else setSize geo (mkSize (-1) (-1))) w1.

(** The part of the frame that was maximized is taken from the restore geometry. *)
Definition final_restore_geo (old_mode : Z) (restore_geo frame_geo : QRect) : QRect :=
  let geo := if flags (Z.land old_mode vertical)
             then setBottom (setTop frame_geo (top restore_geo)) (bottom restore_geo) else frame_geo in
  if flags (Z.land old_mode horizontal)
  then setRight (setLeft geo (left restore_geo)) (right restore_geo) else geo.

Definition maximize_restore (w : Window) : Window :=
  let geo := final_restore_geo (upd_max_mode w) (restore_maximize w) (upd_frame w) in
  blocked (fun w =>
    let w1 := update_frame_from_restore_geometry geo w in
    set_restore_geometry null_rect (w1 <| upd_max_mode := restore |>)) w.

Definition maximize_vertically (w : Window) : Window :=
  let old_frame_geo := upd_frame w in
  let area := get_maximizing_area w in
  let pos := Rules.checkPosition (rules w) (mkPoint (rx old_frame_geo) (top area)) false in
  let sz := adjusted_frame_size w (mkSize (rw old_frame_geo) (rh area)) in
  blocked (fun w =>
    let w1 := setFrameGeometry (rect_at pos sz) w in
    let w2 := w1 <| upd_max_mode := Z.lor (upd_max_mode w1) vertical |> in
    set_restore_geometry old_frame_geo w2) w.

Definition maximize_horizontally (w : Window) : Window :=
  let old_frame_geo := upd_frame w in
  let area := get_maximizing_area w in
  let pos := Rules.checkPosition (rules w) (mkPoint (left area) (ry old_frame_geo)) false in
  let sz := adjusted_frame_size w (mkSize (rw area) (rh old_frame_geo)) in
  blocked (fun w =>
    let w1 := setFrameGeometry (rect_at pos sz) w in
    let w2 := w1 <| upd_max_mode := Z.lor (upd_max_mode w1) horizontal |> in
    set_restore_geometry old_frame_geo w2) w.

Definition update_maximized_impl (mode : Z) (w : Window) : Window :=
  if mode =? restore then maximize_restore w
  else
    let old_frame_geo := upd_frame w in
    let old_mode := upd_max_mode w in
    let w1 :=
      if flags (Z.land mode vertical) then
        maximize_vertically
          (if flags (Z.land old_mode horizontal) && negb (flags (Z.land mode horizontal))
           then maximize_restore w else w)
      else w in
    let w2 :=
      if flags (Z.land mode horizontal) then
        maximize_horizontally
          (if flags (Z.land old_mode vertical) && negb (flags (Z.land mode vertical))
           then maximize_restore w1 else w1)
      else w1 in
    set_restore_geometry old_frame_geo w2.

(** The current size is brought up to date. *)
Definition remaximize (mode : Z) (w : Window) : Window :=
  let restore_geo := restore_maximize w in
  let w1 := if flags (Z.land mode vertical) then maximize_vertically w else w in
  let w2 := if flags (Z.land mode horizontal) then maximize_horizontally w1 else w1 in
  set_restore_geometry restore_geo w2.

(** A mode that differs from the current one. *)
Definition change_maximized (mode : Z) (w : Window) : Window :=
  let w1 :=
    if negb (upd_max_mode w =? restore) && negb (mode =? restore) then
      let restore_geo := restore_maximize w in
      (update_maximized_impl restore w) <| restore_maximize := restore_geo |>
    else w in
  let w2 := update_maximized_impl mode w1 in
  let tiles := if mode =? full then quicktiles.maximize else quicktiles.none in
  let w3 := w2 <| quicktiling := tiles |> in
  if quicktiling w2 =? tiles then w3 else setFrameGeometry (upd_frame w3) w3.

Definition update_maximized (mode : Z) (w : Window) : Window :=
  if negb (isResizable w) || bool_decide (windowType w = Toplevel.Toplevel.Toolbar) then w
  else
    let mode := Rules.checkMaximize (rules w) mode false in
    blocked (fun w => if mode =? upd_max_mode w then remaximize mode w else change_maximized mode w) w.

(** win::set_maximize and win::maximize *)
Definition set_maximize (vertically horizontally : bool) (w : Window) : Window :=
  update_maximized (Z.lor (if vertically then vertical else restore) (if horizontally then horizontal else restore)) w.

(** win::wayland::handle_maximize_request, from the client *)
Definition handle_maximize_request (maximized : bool) (w : Window) : Window :=
  let old_max_mode := upd_max_mode w in
  let w1 := update_maximized (if maximized then full else restore) w in
  if upd_max_mode w1 =? old_max_mode then
    let sync_geo := synced_window w1 in
    configure_geometry (if isValid sync_geo then plus_margins sync_geo (frame_margins w1) else sync_geo) w1
  else w1.

(** ** Following changes of the work area (win/move.h) *)

Definition check_offscreen_position (frame_geo screenArea : QRect) : QRect :=
  let g := if right screenArea <? left frame_geo
           then moveLeft frame_geo (right screenArea - Z.quot (rw screenArea) 4)
           else if right frame_geo <? left screenArea
           then moveRight frame_geo (left screenArea + Z.quot (rw screenArea) 4) else frame_geo in
  if bottom screenArea <? top g then moveTop g (bottom screenArea - Z.quot (rh screenArea) 4)
  else if bottom g <? top screenArea then moveBottom g (top screenArea + Z.quot (rw screenArea) 4) else g.

(** The limits of a screen where a window of some extent is, from the restricted areas
    at its four sides: left, top, right and bottom. *)
Record Limits := mkLimits { left_max : Z; top_max : Z; right_max : Z; bottom_max : Z }.

Definition is_area (a : StrutArea) (b : StrutArea) : bool := bool_decide (a = b).

Definition limits (struts : StrutArea -> list QRect) (screenArea frame_geo : QRect) : Limits :=
  let tall := mkRect (rx frame_geo) (ry screenArea) (rw frame_geo) (rh screenArea) in
  let wide := mkRect (rx screenArea) (ry frame_geo) (rw screenArea) (rh frame_geo) in
  let hit s rects := filter (fun r => isEmpty r = false) ((fun r => intersected r s) <$> rects) in
  mkLimits
    (foldl (fun m r => Z.max m (rx r + rw r)) (rx screenArea) (hit wide (struts StrutAreaLeft)))
    (foldl (fun m r => Z.max m (ry r + rh r)) (ry screenArea) (hit tall (struts StrutAreaTop)))
    (foldl (fun m r => Z.min m (rx r)) (rx screenArea + rw screenArea) (hit wide (struts StrutAreaRight)))
    (foldl (fun m r => Z.min m (ry r)) (ry screenArea + rh screenArea) (hit tall (struts StrutAreaBottom))).

(** What is to be done at a side: keep touching it, come back behind it, with the width
    of the border that lies outside. *)
Record Side := mkSide { save : bool; keep : bool; padding : Z }.

(** The screen area before the change, in updateClientArea: of the previous screen that
    is nearest to the window. *)
Definition previous_screen (a : Areas) (old_center : QPoint) : QRect :=
  (foldl (fun '(best, distance) r =>
     let d := if contains_point r old_center then 0 else manhattanLength (psub (Qt.center r) old_center) in
     if d <? distance then (r, d) else (best, distance))
     (mkRect 0 0 (sw (olddisplaysize a)) (sh (olddisplaysize a)), INT_MAX) (oldscreensizes a)).1.

Definition border_rect (w : Window) (r : QRect) : QRect :=
  let m := frame_margins w in adjusted r (ml m) (mt m) (- mr m) (- mb m).

(** The four sides, from the old and the new limits and frames. Where the top border is
    kept outside, the code takes the width of the left border. *)
Definition sides (m : QMargins) (old new : Limits) (old_frame old_client frame client : QRect)
    : Side * Side * Side * Side :=
  let mk inside touched touches old_client_touched client_touches beyond pad :=
    let keep1 := touched && negb touches in
    let padded := negb touched && (old_client_touched && negb client_touches) in
    mkSide (inside && beyond) (keep1 || padded) (if padded then pad else 0) in
  let l := mk (left_max old <=? rx old_frame) (rx old_frame =? left_max old) (rx frame =? left_max new)
              (rx old_client =? left_max old) (rx client =? left_max new) (rx frame <? left_max new) (ml m) in
  let t := mk (top_max old <=? ry old_frame) (ry old_frame =? top_max old) (ry frame =? top_max new)
              (ry old_client =? top_max old) (ry client =? top_max new) (ry frame <? top_max new) (ml m) in
  let r := mk (right old_frame <=? right_max old - 1) (right old_frame =? right_max old - 1)
              (right frame =? right_max new - 1) (right old_client =? right_max old - 1)
              (right client =? right_max new - 1) (right_max new - 1 <? right frame) (mr m) in
  let b := mk (bottom old_frame <=? bottom_max old - 1) (bottom old_frame =? bottom_max old - 1)
              (bottom frame =? bottom_max new - 1) (bottom old_client =? bottom_max old - 1)
              (bottom client =? bottom_max new - 1) (bottom_max new - 1 <? bottom frame) (mb m) in
  let '(l, r) := if keep l && keep r then (mkSide (save l) false 0, mkSide (save r) false 0) else (l, r) in
  let '(t, b) := if keep t && keep b then (mkSide (save t) false 0, mkSide (save b) false 0) else (t, b) in
  (l, t, r, b).

(** The frame moved and resized along the limits. *)
Definition follow_limits (s : Screens) (m : QMargins) (screenArea : QRect) (old new : Limits)
    (old_frame old_client frame client : QRect) : QRect :=
  let '(l, t, r, b) := sides m old new old_frame old_client frame client in
  let crosses g := 1 <? intersecting s g in
  let g := frame in
  let g := if save l || keep l then moveLeft g (Z.max (left_max new) (rx screenArea) - padding l) else g in
  let g := if negb (padding l =? 0) && crosses g then moveLeft g (left g + padding l) else g in
  let g := if save t || keep t then moveTop g (Z.max (top_max new) (ry screenArea) - padding t) else g in
  let g := if negb (padding t =? 0) && crosses g then moveTop g (top g + padding t) else g in
  let g := if save r || keep r
           then moveRight g (Z.min (right_max new - 1) (right screenArea) + padding r) else g in
  let g := if negb (padding r =? 0) && crosses g then moveRight g (right g - padding r) else g in
  let g := if (left_max old <=? rx old_frame) && (rx g <? left_max new)
           then setLeft g (Z.max (left_max new) (rx screenArea))
           else if (left_max old <=? rx old_client) && (rx g + ml m <? left_max new)
           then let g := setLeft g (Z.max (left_max new) (rx screenArea) - ml m) in
                if crosses g then setLeft g (left g + ml m) else g
           else g in
  let g := if save b || keep b
           then moveBottom g (Z.min (bottom_max new - 1) (bottom screenArea) + padding b) else g in
  let g := if negb (padding b =? 0) && crosses g then moveBottom g (bottom g - padding b) else g in
  let g := if (top_max old <=? ry old_frame) && (ry g <? top_max new)
           then setTop g (Z.max (top_max new) (ry screenArea))
           else if (top_max old <=? ry old_client) && (ry g + mt m <? top_max new)
           then let g := setTop g (Z.max (top_max new) (ry screenArea) - mt m) in
                if crosses g then setTop g (top g + mt m) else g
           else g in
  check_offscreen_position g screenArea.

(** win::check_workspace_position; [old_desktop] is [None] for the value -2. *)
Definition check_workspace_position (old_frame_geo : QRect) (old_desktop : option Z)
    (old_client_geo : QRect) (w : Window) : Window :=
  if bool_decide (windowType w = Toplevel.Toplevel.Desktop) then w
  else if bool_decide (windowType w = Toplevel.Toplevel.Dock) then w
  else if upd_fullscreen w then setFrameGeometry (area_of E FullScreenArea w) w
  else if negb (max_mode w =? restore) then
    blocked (fun w =>
      let w1 := update_maximized (upd_max_mode w) w in
      setFrameGeometry (check_offscreen_position (pending_frame_geometry w1) (area_of E ScreenArea w1)) w1) w
  else if negb (quicktiling w =? quicktiles.none) then
    setFrameGeometry (electric_border_maximize_geometry E w (Qt.center (pending_frame_geometry w)) (desktop w)) w
  else
    let old_frame := if isValid old_frame_geo then old_frame_geo else pending_frame_geometry w in
    let old_desk := default (desktop w) old_desktop in
    let old_client := if isValid old_client_geo then old_client_geo else border_rect w old_frame in
    let in_update := inUpdateClientArea (areas E) in
    let old_screen_area :=
      if in_update then previous_screen (areas E) (Qt.center old_frame)
      else area_at E ScreenArea (Qt.center old_frame) old_desk in
    let screenArea := area_at E ScreenArea (Qt.center (pending_frame_geometry w)) (desktop w) in
    let frame := pending_frame_geometry w in
    let client := border_rect w frame in
    let moveArea desk which := restrictedMoveArea (current_desktop E) (areas E) desk (is_area which) in
    let oldArea desk which :=
      if in_update then previousRestrictedMoveArea (current_desktop E) (areas E) desk (is_area which)
      else moveArea desk which in
    let old := limits (oldArea old_desk) old_screen_area old_frame in
    let new := limits (moveArea (desktop w)) screenArea frame in
    let g := follow_limits (screens E) (frame_margins w) screenArea old new old_frame old_client frame client in
    setFrameGeometry (setSize g (adjusted_frame_size w (size g))) w.

(** ** Quick tiling (win/move.h) *)

(** The screen to the left or right of the current one that a tiled window goes to. *)
Definition next_screen_step (mode : Z) (geos : list QRect) (old_screen : nat) (screen i : nat) : nat :=
  let geo j := geos !!! j in
  let cx j := px (Qt.center (geo j)) in
  if (i =? old_screen)%nat then screen
  else if (bottom (geo i) <=? top (geo old_screen)) || (bottom (geo old_screen) <=? top (geo i)) then screen
  else if Z.land mode quicktiles.horizontal =? quicktiles.left then
    if (cx old_screen <=? cx i) || (negb (old_screen =? screen)%nat && (cx i <=? cx screen)) then screen else i
  else if Z.land mode quicktiles.horizontal =? quicktiles.right then
    if (cx i <=? cx old_screen) || (negb (old_screen =? screen)%nat && (cx screen <=? cx i)) then screen else i
  else i.
Definition next_screen (mode : Z) (geos : list QRect) (old_screen : nat) : nat :=
  foldl (next_screen_step mode geos old_screen) old_screen (seq 0 (length geos)).

(** Toplevel::screen of the window is given as a number. *)
Variable screen_of : Window -> nat.

Definition tile_maximized (old_restore_geo : QRect) (w : Window) : Window :=
  let w1 := w <| quicktiling := quicktiles.none |> in
  if max_mode w1 =? full then set_maximize false false w1
  else
    let w2 := set_maximize true true (w1 <| quicktiling := quicktiles.maximize |>) in
    let clientArea := area_of E MaximizeArea w2 in
    let frame_geo := pending_frame_geometry w2 in
    let w3 := if top frame_geo =? top clientArea then w2
              else setFrameGeometry (moveTop frame_geo (top clientArea)) w2 in
    w3 <| restore_maximize := old_restore_geo |>.

(** Tiling a window that is maximized. *)
Definition tile_from_maximized (mode : Z) (keyboard : bool) (old_restore_geo : QRect) (w : Window) : Window :=
  if negb (mode =? quicktiles.none) then
    let w1 := set_maximize false false (w <| quicktiling := quicktiles.none |>) in
    let ref_pos := if keyboard then Qt.center (pending_frame_geometry w1) else cursor E in
    let w2 := setFrameGeometry (electric_border_maximize_geometry E w1 ref_pos (desktop w1)) w1 in
    w2 <| quicktiling := mode |> <| restore_maximize := old_restore_geo |>
  else set_maximize false false (w <| quicktiling := mode |>).

Definition swap_sides (mode : Z) : Z :=
  if flags (Z.land mode quicktiles.horizontal)
  then Z.lor (Z.land (Z.lnot mode) quicktiles.horizontal) (Z.land mode quicktiles.vertical) else mode.

(** The window is tiled to this side already: the mode to go on with, the target and the
    window. *)
Definition tile_again (mode : Z) (target : QPoint) (w : Window) : Z * QPoint * Window :=
  let geos := screen_geometries (screens E) in
  let old_screen := screen_of w in
  let screen := next_screen mode geos old_screen in
  let '(mode', target', w1) :=
    if (screen =? old_screen)%nat then (quicktiles.none, target, w)
    else (swap_sides mode, Qt.center (geos !!! screen),
          setFrameGeometry (translated (restore_maximize w)
            (psub (topLeft (geos !!! screen)) (topLeft (geos !!! old_screen)))) w) in
  (mode', target', set_electric mode' w1).

Definition tile_to_side (mode : Z) (keyboard : bool) (w : Window) : Z * Window :=
  let target := if keyboard then Qt.center (pending_frame_geometry w) else cursor E in
  let '(mode, target, w1) :=
    if quicktiling w =? mode then tile_again mode target w
    else (mode, target,
          if (quicktiling w =? quicktiles.none) && negb (isValid (restore_maximize w))
          then w <| restore_maximize := frameGeometry w |> else w) in
  let w2 :=
    if negb (mode =? quicktiles.none) then
      let w' := w1 <| quicktiling := quicktiles.none |> in
      setFrameGeometry (electric_border_maximize_geometry E w' target (desktop w')) w'
    else w1 in
  (mode, w2 <| quicktiling := mode |>).

(** Leaving the tiled state. *)
Definition untile (w : Window) : Window :=
  let w1 := w <| quicktiling := quicktiles.none |> in
  let w2 := setFrameGeometry (restore_maximize w1) w1 in
  (check_workspace_position null_rect None null_rect w2) <| restore_maximize := null_rect |>.

Definition set_quicktile_mode (mode : Z) (keyboard : bool) (w : Window) : Window :=
  if negb (isResizable w) then w
  else blocked (fun w =>
    let w := if isValid (restore_maximize w) then w else w <| restore_maximize := frameGeometry w |> in
    let old_restore_geo := restore_maximize w in
    if mode =? quicktiles.maximize then tile_maximized old_restore_geo w
    else
      let mode := sanitize mode in
      let w1 := w <| electric := mode |> in
      if negb (upd_max_mode w1 =? restore) then tile_from_maximized mode keyboard old_restore_geo w1
      else
        let '(mode, w2) := if negb (mode =? quicktiles.none) then tile_to_side mode keyboard w1 else (mode, w1) in
        if mode =? quicktiles.none then untile w2 else w2) w.

(** ** Fullscreen (win/fullscreen.h) *)

Definition has_special_geometry_mode_besides_fullscreen (w : Window) : bool :=
  negb (upd_max_mode w =? restore) || negb (quicktiling w =? quicktiles.none) || is_move w.

Definition rectify_fullscreen_restore_geometry (w : Window) : Window * QRect :=
  if isValid (restore_maximize w) then (w, restore_maximize w)
  else
    let client_area := area_of E PlacementArea w in
    let frame_sz := adjusted_frame_size w
      (mkSize (Z.quot (rw client_area * 2 + 1) 3) (Z.quot (rh client_area * 2 + 1) 3)) in
    let old_frame_geo := upd_frame w in
    let w1 := place_smart client_area (setFrameGeometry (rect_at (mkPoint 0 0) frame_sz) w) in
    (setFrameGeometry old_frame_geo w1, upd_frame w1).

Definition fullscreen_restore_special_mode (w : Window) : Window :=
  if negb (upd_max_mode w =? restore) then update_maximized (upd_max_mode w) w
  else if negb (quicktiling w =? quicktiles.none) then
    let old_quicktiling := quicktiling w in
    let old_restore_geo := restore_maximize w in
    let w1 := set_quicktile_mode old_quicktiling false (set_quicktile_mode quicktiles.none false w) in
    w1 <| restore_maximize := old_restore_geo |>
  else w.

(** Of a Wayland window (win/wayland/fullscreen.h). *)
Definition fullscreen_restore_geometry (w : Window) : Window :=
  let '(w1, geo) := rectify_fullscreen_restore_geometry w in
  let geo := if isValid (restore_maximize w1) then geo else setSize geo (mkSize 0 0) in
  (setFrameGeometry geo w1) <| restore_maximize := null_rect |>.

Definition update_fullscreen_enable (w : Window) : Window :=
  let w1 := if isValid (restore_maximize w) then w else w <| restore_maximize := upd_frame w |> in
  setFrameGeometry (area_of E FullScreenArea w1) w1.

(** Without the move back to the previous screen. *)
Definition update_fullscreen_disable (w : Window) : Window :=
  if has_special_geometry_mode_besides_fullscreen w then fullscreen_restore_special_mode w
  else fullscreen_restore_geometry w.

(** Ending an interactive move or resize and updating the decoration are not modelled:
    the window is not moved interactively and keeps its borders. *)
Definition update_fullscreen (full user userCanSetFullScreen : bool) (w : Window) : Window :=
  let full := Rules.checkFullScreen (rules w) full false in
  if Bool.eqb (upd_fullscreen w) full then w
  else if bool_decide (windowType w ∈ [Toplevel.Toplevel.Desktop; Toplevel.Toplevel.Dock;
    Toplevel.Toplevel.Splash; Toplevel.Toplevel.Toolbar; Toplevel.Toplevel.Notification;
    Toplevel.Toplevel.CriticalNotification; Toplevel.Toplevel.OnScreenDisplay]) then w
  else if user && negb userCanSetFullScreen then w
  else blocked (fun w =>
    let w1 := w <| upd_fullscreen := full |> in
    if full then update_fullscreen_enable w1 else update_fullscreen_disable w1) w.
End WithEnv.

End Maximize.
