(* ===== verification/MaximizeProps.v ===== *)
(** * Maximizing, quick tiling and fullscreen: properties

    A window that is maximized, tiled or made fullscreen and brought back has the frame
    that it had before. *)

From S2P Require Import Prelude Qt WorkArea Rules Geometry GeometryProps Placement Maximize.
From S2P Require Toplevel.

Module MaximizeProps.
Import Qt WorkArea Geometry GeometryProps Placement Maximize.

(** ** What setting the geometry leaves alone

    A part of the window is stable if it does not depend on the geometry in use, the
    wanted frame and the exchange with the client. *)
Definition forget (w : Window) : Window :=
  w <| frameGeometry := null_rect |> <| client_frame_extents := no_margins |>
    <| pending := p_none |> <| upd_frame := null_rect |> <| fullscreen := false |>
    <| max_mode := restore |> <| synced_window := null_rect |> <| synced_max_mode := restore |>
    <| synced_fullscreen := false |> <| pending_configures := [] |> <| acked_configure := 0 |>
    <| serial := 0 |> <| sent := [] |>.

Lemma forget_set r w : forget (setFrameGeometry r w) = forget w.
Proof.
  unfold setFrameGeometry, configure_geometry, do_set_geometry. cbv zeta.
  repeat (case_match; try done).
Qed.

Lemma forget_do_set_geometry r w : forget (do_set_geometry r w) = forget w.
Proof. unfold do_set_geometry. cbv zeta. by repeat case_match. Qed.

Lemma forget_do_set_fullscreen b w : forget (do_set_fullscreen b w) = forget w.
Proof. unfold do_set_fullscreen. cbv zeta. by case_match. Qed.
Lemma forget_do_set_maximize_mode m w : forget (do_set_maximize_mode m w) = forget w.
Proof. unfold do_set_maximize_mode. by case_match. Qed.

Lemma forget_commit ref_geo mg w : forget (apply_pending_geometry ref_geo mg w) = forget w.
Proof.
  unfold apply_pending_geometry. cbv zeta.
  destruct (match find_acked (acked_configure w) (pending_configures w) with
            | Some _ => _ | None => _ end) as [[[[w1 pos] mode] full] matched] eqn:Ep.
  assert (forget w1 = forget w) as <-
    by (destruct (find_acked _ _) as [[??]|]; by simplify_eq). clear Ep.
  case_match; [done|].
  rewrite forget_do_set_maximize_mode, forget_do_set_fullscreen, forget_do_set_geometry.
  by destruct (isValid (synced_window w1)).
Qed.

Class Stable {A} (f : Window -> A) := stable_forget : forall w, f (forget w) = f w.
(** It may depend on the number of blocks. *)
Class Blockless {A} (f : Window -> A) := blockless : forall n w, f (w <| block := n |>) = f w.

Section Stable.
Context {A} (f : Window -> A) `{!Stable f}.

Lemma stable_same w w' : forget w' = forget w -> f w' = f w.
Proof. intros H. by rewrite <- (@stable_forget _ f _ w'), H, (@stable_forget _ f _ w). Qed.
Lemma stable_set r w : f (setFrameGeometry r w) = f w.
Proof. apply stable_same, forget_set. Qed.
Lemma stable_commit ref_geo mg w : f (apply_pending_geometry ref_geo mg w) = f w.
Proof. apply stable_same, forget_commit. Qed.
Lemma stable_ack n w : f (handle_configure_ack n w) = f w.
Proof. by apply stable_same. Qed.
Lemma stable_activate w : f (activation_configure w) = f w.
Proof. apply stable_same. unfold activation_configure. by case_match. Qed.
Context `{!Blockless f}.
Lemma stable_unblock w : f (unblock_updates w) = f w.
Proof. unfold unblock_updates. case_match; [rewrite stable_set|]; apply blockless. Qed.
Lemma stable_blocked F w : f (blocked F w) = f (F (block_updates w)).
Proof. apply stable_unblock. Qed.
End Stable.

#[global] Instance block_stable : Stable block := fun w => eq_refl.
#[global] Instance upd_max_mode_stable : Stable upd_max_mode := fun w => eq_refl.
#[global] Instance upd_max_mode_blockless : Blockless upd_max_mode := fun n w => eq_refl.
#[global] Instance upd_fullscreen_stable : Stable upd_fullscreen := fun w => eq_refl.
#[global] Instance upd_fullscreen_blockless : Blockless upd_fullscreen := fun n w => eq_refl.
#[global] Instance restore_maximize_stable : Stable restore_maximize := fun w => eq_refl.
#[global] Instance restore_maximize_blockless : Blockless restore_maximize := fun n w => eq_refl.
#[global] Instance rules_stable : Stable rules := fun w => eq_refl.
#[global] Instance rules_blockless : Blockless rules := fun n w => eq_refl.
#[global] Instance quicktiling_stable : Stable quicktiling := fun w => eq_refl.
#[global] Instance quicktiling_blockless : Blockless quicktiling := fun n w => eq_refl.
#[global] Instance electric_stable : Stable electric := fun w => eq_refl.
#[global] Instance electric_blockless : Blockless electric := fun n w => eq_refl.
#[global] Instance electric_maximizing_stable : Stable electric_maximizing := fun w => eq_refl.
#[global] Instance electric_maximizing_blockless : Blockless electric_maximizing := fun n w => eq_refl.
#[global] Instance move_resize_stable : Stable move_resize := fun w => eq_refl.
#[global] Instance move_resize_blockless : Blockless move_resize := fun n w => eq_refl.
#[global] Instance frame_margins_stable : Stable frame_margins := fun w => eq_refl.
#[global] Instance frame_margins_blockless : Blockless frame_margins := fun n w => eq_refl.
#[global] Instance minimumSize_stable : Stable minimumSize := fun w => eq_refl.
#[global] Instance minimumSize_blockless : Blockless minimumSize := fun n w => eq_refl.
#[global] Instance maximumSize_stable : Stable maximumSize := fun w => eq_refl.
#[global] Instance maximumSize_blockless : Blockless maximumSize := fun n w => eq_refl.
#[global] Instance plasma_stable : Stable plasma_shell_surface := fun w => eq_refl.
#[global] Instance plasma_blockless : Blockless plasma_shell_surface := fun n w => eq_refl.
#[global] Instance windowType_stable : Stable windowType := fun w => eq_refl.
#[global] Instance windowType_blockless : Blockless windowType := fun n w => eq_refl.
#[global] Instance desktop_stable : Stable desktop := fun w => eq_refl.
#[global] Instance desktop_blockless : Blockless desktop := fun n w => eq_refl.

Lemma setFrame_upd_frame r w : rules w = [] -> upd_frame (setFrameGeometry r w) = r.
Proof.
  intros Hr. unfold setFrameGeometry. rewrite Hr, checkGeometry_no_rules. cbv zeta.
  case_match; [done|]. case_match; [done|]. case_match; [done|].
  unfold do_set_geometry. case_match; [done|]. cbv zeta. case_match; [|done]. by destruct r.
Qed.

Lemma unblock_upd_frame w : rules w = [] -> upd_frame (unblock_updates w) = upd_frame w.
Proof. intros Hr. unfold unblock_updates. case_match; [by rewrite setFrame_upd_frame|done]. Qed.

Lemma blocked_upd_frame F w :
  rules (F (block_updates w)) = [] -> upd_frame (blocked F w) = upd_frame (F (block_updates w)).
Proof. apply unblock_upd_frame. Qed.

(** ** Maximizing and restoring *)

(** The parts of a window that decide about maximizing, besides the mode. *)
Record plain (w : Window) : Prop := {
  plain_rules : rules w = [];
  plain_full : upd_fullscreen w = false;
  plain_move : enabled (move_resize w) = false;
}.

Lemma plain_set r w : plain w -> plain (setFrameGeometry r w).
Proof. intros []. split; by rewrite (stable_set _). Qed.
Lemma plain_unblock w : plain w -> plain (unblock_updates w).
Proof. intros []. split; by rewrite (stable_unblock _). Qed.
Lemma plain_block w : plain w -> plain (block_updates w).
Proof. by intros []. Qed.
Lemma plain_mode m w : plain w -> plain (w <| upd_max_mode := m |>).
Proof. by intros []. Qed.
Lemma plain_restore r w : plain w -> plain (w <| restore_maximize := r |>).
Proof. by intros []. Qed.
Lemma plain_tiles t w : plain w -> plain (w <| quicktiling := t |>).
Proof. by intros []. Qed.
Lemma plain_electric t w : plain w -> plain (w <| electric := t |>).
Proof. by intros []. Qed.
#[local] Hint Resolve plain_set plain_unblock plain_block plain_mode plain_restore plain_tiles
  plain_electric : kwin.

Lemma plain_not_moving w : plain w -> is_move w = false.
Proof. intros []. unfold is_move. by rewrite plain_move0. Qed.

Lemma set_restore_plain r w :
  plain w ->
  set_restore_geometry r w = if quicktiling w =? quicktiles.none then w <| restore_maximize := r |> else w.
Proof.
  intros Hw. unfold set_restore_geometry. rewrite (plain_full _ Hw), (plain_not_moving _ Hw).
  by destruct (quicktiling w =? quicktiles.none).
Qed.

Lemma plain_set_restore r w : plain w -> plain (set_restore_geometry r w).
Proof. intros Hw. rewrite set_restore_plain by done. case_match; auto with kwin. Qed.
#[local] Hint Resolve plain_set_restore : kwin.

(** What a step of maximizing does to a window: the mode, the frame, the restore
    geometry and the tiling, with the rest of it unchanged. *)
Record becomes (w w' : Window) (mode : Z) (frame restore_geo : QRect) (tiles : Z) : Prop := {
  b_plain : plain w';
  b_mode : upd_max_mode w' = mode;
  b_frame : upd_frame w' = frame;
  b_restore : restore_maximize w' = restore_geo;
  b_tiles : quicktiling w' = tiles;
  b_min : minimumSize w' = minimumSize w;
  b_max : maximumSize w' = maximumSize w;
  b_plasma : plasma_shell_surface w' = plasma_shell_surface w;
  b_type : windowType w' = windowType w;
  b_margins : frame_margins w' = frame_margins w;
  b_desktop : desktop w' = desktop w;
}.

Lemma becomes_same w : plain w ->
  becomes w w (upd_max_mode w) (upd_frame w) (restore_maximize w) (quicktiling w).
Proof. done. Qed.

Lemma becomes_set w w' m f r t g :
  becomes w w' m f r t -> becomes w (setFrameGeometry g w') m g r t.
Proof.
  intros []. split; rewrite ?(stable_set _); try done; [auto with kwin|].
  apply setFrame_upd_frame, b_plain0.
Qed.

Lemma becomes_blocked w0 w F m f r t :
  becomes w0 (F (block_updates w)) m f r t -> becomes w0 (blocked F w) m f r t.
Proof.
  intros []. split; rewrite ?(stable_blocked _); try done.
  - unfold blocked. auto with kwin.
  - rewrite blocked_upd_frame; [done|apply b_plain0].
Qed.

Lemma becomes_mode w w' m f r t m' :
  becomes w w' m f r t -> becomes w (w' <| upd_max_mode := m' |>) m' f r t.
Proof. intros []. split; try done. auto with kwin. Qed.

Lemma becomes_tiles w w' m f r t t' :
  becomes w w' m f r t -> becomes w (w' <| quicktiling := t' |>) m f r t'.
Proof. intros []. split; try done. auto with kwin. Qed.

Lemma becomes_restore w w' m f r t r' :
  becomes w w' m f r t -> becomes w (w' <| restore_maximize := r' |>) m f r' t.
Proof. intros []. split; try done. auto with kwin. Qed.

Lemma becomes_set_restore w w' m f r t r' :
  becomes w w' m f r t ->
  becomes w (set_restore_geometry r' w') m f (if t =? quicktiles.none then r' else r) t.
Proof.
  intros H. rewrite set_restore_plain by apply H. rewrite (b_tiles _ _ _ _ _ _ H).
  destruct (t =? quicktiles.none); [by eapply becomes_restore|done].
Qed.

Lemma becomes_trans w1 w2 w3 m2 f2 r2 t2 m3 f3 r3 t3 :
  becomes w1 w2 m2 f2 r2 t2 -> becomes w2 w3 m3 f3 r3 t3 -> becomes w1 w3 m3 f3 r3 t3.
Proof. intros [] []. split; congruence || done. Qed.

Lemma becomes_block w m f r t F :
  becomes (block_updates w) F m f r t -> becomes w F m f r t.
Proof. by intros []. Qed.

Lemma becomes_in_block w w' m f r t :
  becomes w w' m f r t -> becomes w (block_updates w') m f r t.
Proof. intros []. by split; [apply plain_block|..]. Qed.

Lemma becomes_electric w w' m f r t e :
  becomes w w' m f r t -> becomes w (w' <| electric := e |>) m f r t.
Proof. intros []. split; try done. auto with kwin. Qed.

Lemma becomes_unblocked w0 w m f r t :
  becomes w0 w m f r t -> becomes w0 (unblock_updates w) m f r t.
Proof.
  intros []. split; rewrite ?(stable_unblock _); try done; [auto with kwin|].
  rewrite unblock_upd_frame; [done|apply b_plain0].
Qed.

(** Answers of the client, and activations. *)
Definition is_answer (ev : Event) : bool := match ev with Ask _ => false | _ => true end.

Lemma stable_answers {A} (f : Window -> A) `{!Stable f} es w :
  forallb is_answer es = true -> f (run es w) = f w.
Proof.
  revert w. induction es as [|ev es IH]; intros w He; [done|]. cbn in He.
  apply andb_prop in He as [H1 H2]. unfold run. cbn [foldl]. fold (run es (step ev w)).
  rewrite IH by done. destruct ev; cbn [step is_answer] in *; [done| | |].
  - by rewrite (stable_activate _).
  - by rewrite (stable_ack _).
  - by rewrite (stable_commit _).
Qed.

Lemma becomes_answers w w' m f r t es :
  becomes w w' m f r t -> forallb is_answer es = true ->
  becomes w (run es w') m (upd_frame (run es w')) r t.
Proof.
  intros [] He. split; rewrite ?(stable_answers _ es) by done; try done.
  destruct b_plain0. split; by rewrite (stable_answers _ es).
Qed.

Lemma isResizable_becomes w w' m f r t :
  plain w -> becomes w w' m f r t -> isResizable w' = isResizable w.
Proof.
  intros [] [[]]. unfold isResizable, minSize, maxSize. by rewrite plain_rules0, plain_full0,
    plain_rules1, plain_full1, b_min0, b_max0, b_plasma0.
Qed.

Lemma final_full r f : final_restore_geo full r f = r.
Proof.
  unfold final_restore_geo. change (flags (Z.land full vertical)) with true.
  change (flags (Z.land full horizontal)) with true. cbv zeta iota.
  destruct r, f. unfold setRight, setLeft, setBottom, setTop, of_edges, right, left, bottom, top. cbn. f_equal; lia.
Qed.

Section Roundtrips.
Context (E : Env) (V : View) (window : wid).

Lemma becomes_vertically w0 w m f r t :
  becomes w0 w m f r t -> exists f',
  becomes w0 (maximize_vertically E w) (Z.lor m vertical) f' (if t =? quicktiles.none then f else r) t.
Proof.
  intros H. unfold maximize_vertically. cbv zeta. eexists. apply becomes_blocked.
  rewrite (b_frame _ _ _ _ _ _ H). apply becomes_set_restore.
  rewrite (stable_set upd_max_mode). change (upd_max_mode (block_updates w)) with (upd_max_mode w).
  rewrite (b_mode _ _ _ _ _ _ H). eapply becomes_mode, becomes_set, becomes_in_block, H.
Qed.

Lemma becomes_horizontally w0 w m f r t :
  becomes w0 w m f r t -> exists f',
  becomes w0 (maximize_horizontally E w) (Z.lor m horizontal) f' (if t =? quicktiles.none then f else r) t.
Proof.
  intros H. unfold maximize_horizontally. cbv zeta. eexists. apply becomes_blocked.
  rewrite (b_frame _ _ _ _ _ _ H). apply becomes_set_restore.
  rewrite (stable_set upd_max_mode). change (upd_max_mode (block_updates w)) with (upd_max_mode w).
  rewrite (b_mode _ _ _ _ _ _ H). eapply becomes_mode, becomes_set, becomes_in_block, H.
Qed.

(** Restoring brings the restore geometry back, if it is a valid one. *)
Lemma becomes_restored w0 w m f r t :
  becomes w0 w m f r t -> isValid (final_restore_geo m r f) = true ->
  becomes w0 (maximize_restore E V window w) restore (final_restore_geo m r f)
    (if t =? quicktiles.none then null_rect else r) t.
Proof.
  intros H Hv. unfold maximize_restore. cbv zeta. apply becomes_blocked.
  rewrite (b_frame _ _ _ _ _ _ H), (b_restore _ _ _ _ _ _ H), (b_mode _ _ _ _ _ _ H).
  apply becomes_set_restore. eapply becomes_mode.
  unfold update_frame_from_restore_geometry, rectify_restore_geometry. rewrite !Hv.
  eapply becomes_set, becomes_in_block, H.
Qed.

(** The end of a change of the mode. *)
Lemma becomes_changed w0 w m f r t t' :
  becomes w0 w m f r t ->
  becomes w0 (if quicktiling w =? t' then w <| quicktiling := t' |>
              else setFrameGeometry (upd_frame (w <| quicktiling := t' |>)) (w <| quicktiling := t' |>)) m f r t'.
Proof.
  intros H. case_match; [by eapply becomes_tiles|].
  change (upd_frame (w <| quicktiling := t' |>)) with (upd_frame w).
  rewrite (b_frame _ _ _ _ _ _ H). by eapply becomes_set, becomes_tiles.
Qed.

Lemma change_full w : upd_max_mode w = restore ->
  change_maximized E V window full w =
    let w2 := set_restore_geometry (upd_frame w) (maximize_horizontally E (maximize_vertically E w)) in
    let w3 := w2 <| quicktiling := quicktiles.maximize |> in
    if quicktiling w2 =? quicktiles.maximize then w3 else setFrameGeometry (upd_frame w3) w3.
Proof.
  intros Hm. unfold change_maximized, update_maximized_impl. rewrite Hm. cbv zeta.
  change (full =? restore) with false. change (full =? full) with true.
  change (restore =? restore) with true. change (flags (Z.land full vertical)) with true.
  change (flags (Z.land full horizontal)) with true.
  cbn [negb andb]. rewrite !andb_false_r. cbv iota. reflexivity.
Qed.

Lemma change_restore w :
  change_maximized E V window restore w =
    let w2 := maximize_restore E V window w in
    let w3 := w2 <| quicktiling := quicktiles.none |> in
    if quicktiling w2 =? quicktiles.none then w3 else setFrameGeometry (upd_frame w3) w3.
Proof.
  unfold change_maximized, update_maximized_impl. cbv zeta. change (restore =? restore) with true.
  change (restore =? full) with false. cbn [negb]. rewrite andb_false_r. cbv iota. reflexivity.
Qed.

(** Maximizing a window without tiles, fully. *)
Lemma becomes_maximized w :
  plain w -> upd_max_mode w = restore -> quicktiling w = quicktiles.none ->
  isResizable w = true -> windowType w <> Toplevel.Toplevel.Toolbar ->
  exists f, becomes w (update_maximized E V window full w) full f (upd_frame w) quicktiles.maximize.
Proof.
  intros Hw Hm Ht Hr Hy. unfold update_maximized. rewrite Hr, bool_decide_false by done. cbn [negb orb].
  rewrite (plain_rules _ Hw). change (Rules.checkMaximize [] full false) with full.
  assert (becomes w (block_updates w) restore (upd_frame w) (restore_maximize w) quicktiles.none) as H.
  { rewrite <- Hm, <- Ht. by split; try apply plain_block. }
  destruct (becomes_vertically _ _ _ _ _ _ H) as [f1 H1].
  destruct (becomes_horizontally _ _ _ _ _ _ H1) as [f2 H2].
  apply (becomes_set_restore _ _ _ _ _ _ (upd_frame w)) in H2.
  apply (becomes_changed _ _ _ _ _ _ quicktiles.maximize) in H2. exists f2.
  apply becomes_blocked. change (upd_max_mode (block_updates w)) with (upd_max_mode w). rewrite Hm.
  change (restore =? full) with false. change (full =? restore) with false. cbv iota.
  rewrite change_full by done. change (upd_frame (block_updates w)) with (upd_frame w).
  change (Z.lor (Z.lor restore vertical) horizontal) with full in H2.
  change (quicktiles.none =? quicktiles.none) with true in H2. cbv iota in H2. exact H2.
Qed.

(** Bringing a fully maximized window back. *)
Lemma becomes_unmaximized w0 w f r t :
  becomes w0 w full f r t -> isValid r = true ->
  isResizable w = true -> windowType w <> Toplevel.Toplevel.Toolbar ->
  becomes w0 (update_maximized E V window restore w) restore r
    (if t =? quicktiles.none then null_rect else r) quicktiles.none.
Proof.
  intros H Hv Hr Hy. unfold update_maximized. rewrite Hr, bool_decide_false by done. cbn [negb orb].
  rewrite (plain_rules _ (b_plain _ _ _ _ _ _ H)).
  change (Rules.checkMaximize [] restore false) with restore. apply becomes_blocked.
  change (upd_max_mode (block_updates w)) with (upd_max_mode w).
  rewrite (b_mode _ _ _ _ _ _ H). change (restore =? full) with false. cbv iota.
  assert (becomes w0 (block_updates w) full f r t) as H1 by by apply becomes_in_block.
  apply becomes_restored in H1; [|by rewrite final_full].
  rewrite final_full in H1. rewrite change_restore. exact (becomes_changed _ _ _ _ _ _ quicktiles.none H1).
Qed.

(** C14: a window that has been maximized in both directions and is restored later gets
    back the frame that it had before, and no mode or tiling is left behind - whatever
    acknowledgements, buffers (of any size) and activations came in between, even if
    they made the window's frame another one. *)
Theorem maximize_roundtrip w es :
  plain w -> isResizable w = true -> windowType w <> Toplevel.Toplevel.Toolbar ->
  upd_max_mode w = restore -> quicktiling w = quicktiles.none -> isValid (upd_frame w) = true ->
  forallb is_answer es = true ->
  let maximized := update_maximized E V window full w in
  let restored := update_maximized E V window restore (run es maximized) in
  upd_max_mode maximized = full /\ quicktiling maximized = quicktiles.maximize /\
  upd_frame restored = upd_frame w /\ upd_max_mode restored = restore /\
  quicktiling restored = quicktiles.none.
Proof.
  intros Hw Hr Hy Hm Ht Hv He. cbv zeta.
  destruct (becomes_maximized w) as [f H]; [done..|].
  pose proof (becomes_answers _ _ _ _ _ _ es H He) as Ha.
  apply becomes_unmaximized in Ha; [|done| |].
  - by destruct H, Ha.
  - by rewrite (isResizable_becomes _ _ _ _ _ _ Hw Ha).
  - by rewrite (b_type _ _ _ _ _ _ Ha).
Qed.

End Roundtrips.

(** ** Tiling and untiling *)

Lemma sides_unmoved m l f c :
  sides m l l f c f c = (mkSide false false 0, mkSide false false 0, mkSide false false 0, mkSide false false 0).
Proof.
  unfold sides. cbv zeta. rewrite !andb_negb_r, !andb_false_r. cbn [orb].
  repeat match goal with
  | |- context [(?a <=? ?b) && (?b <? ?a)] =>
      replace ((a <=? b) && (b <? a)) with false by (symmetry; apply andb_false_iff; lia)
  end. done.
Qed.

(** A window that has not moved keeps its frame, if the limits are the same. *)
Lemma follow_unmoved s m screenArea l f :
  follow_limits s m screenArea l l f (adjusted f (ml m) (mt m) (- mr m) (- mb m)) f
    (adjusted f (ml m) (mt m) (- mr m) (- mb m)) = check_offscreen_position f screenArea.
Proof.
  unfold follow_limits. rewrite sides_unmoved. cbn [save keep padding orb]. cbn [negb Z.eqb andb]. cbv zeta.
  assert (forall a b : Z, (a <=? b) && (b <? a) = false) as E by (intros; apply andb_false_iff; lia).
  rewrite E. cbn [adjusted rx ry]. rewrite E. cbv iota. by rewrite E, E.
Qed.

Lemma on_screen_stays f area :
  isValid f = true -> inside (Qt.center f) area -> check_offscreen_position f area = f.
Proof.
  intros Hf%isValid_spec Hc. destruct Hf, Hc as [H1 H2]. unfold check_offscreen_position.
  assert (left f <= px (Qt.center f) <= right f /\ top f <= py (Qt.center f) <= bottom f) as [].
  { unfold Qt.center, left, right, top, bottom. cbn. Z.to_euclidean_division_equations. lia. }
  set (c := Qt.center f) in *. clearbody c. unfold left, right, top, bottom in *. cbv zeta.
  rewrite (proj2 (Z.ltb_ge _ (rx f))), (proj2 (Z.ltb_ge _ (rx area))) by lia.
  by rewrite (proj2 (Z.ltb_ge _ (ry f))), (proj2 (Z.ltb_ge _ (ry area))) by lia.
Qed.

Section Tiling.
Context (E : Env) (V : View) (window : wid) (screen_of : Window -> nat).

(** A window of this geometry need not be moved into its screen. *)
Record placed (w : Window) (f : QRect) : Prop := {
  placed_valid : isValid f = true;
  placed_on_screen : inside (Qt.center f) (area_at E ScreenArea (Qt.center f) (desktop w));
  placed_size : adjusted_frame_size w (size f) = size f;
}.

Lemma adjusted_same w w' s :
  rules w' = rules w -> frame_margins w' = frame_margins w -> minimumSize w' = minimumSize w ->
  maximumSize w' = maximumSize w -> adjusted_frame_size w' s = adjusted_frame_size w s.
Proof. intros Hr Hm H1 H2. unfold adjusted_frame_size, minSize, maxSize, frame_size. by rewrite Hr, Hm, H1, H2. Qed.

Lemma still_restored w0 w f r t :
  becomes w0 w restore f r t -> 0 < block w -> pending w = p_normal ->
  let w1 := update_maximized E V window restore w in
  becomes w0 w1 restore f r t /\ pending_frame_geometry w1 = f /\ desktop w1 = desktop w.
Proof.
  intros H Hb Hp. cbv zeta. unfold update_maximized.
  assert (pending_frame_geometry w = f) as Hf.
  { unfold pending_frame_geometry. rewrite Hp, bool_decide_false by done. apply H. }
  case_match; [done|]. rewrite (plain_rules _ (b_plain _ _ _ _ _ _ H)).
  change (Rules.checkMaximize [] restore false) with restore.
  assert (blocked (fun w => if restore =? upd_max_mode w then remaximize E restore w
    else change_maximized E V window restore w) w = w) as ->; [|done].
  unfold blocked. change (upd_max_mode (block_updates w)) with (upd_max_mode w).
  rewrite (b_mode _ _ _ _ _ _ H). change (restore =? restore) with true. cbv iota.
  assert (remaximize E restore (block_updates w) = block_updates w) as ->.
  { change (remaximize E restore (block_updates w)) with
      (set_restore_geometry (restore_maximize w) (block_updates w)).
    unfold set_restore_geometry. repeat case_match; by destruct w. }
  unfold unblock_updates, block_updates. destruct w. cbn in *.
  rewrite (proj2 (Z.eqb_neq _ _)) by lia. cbn. f_equal. lia.
Qed.

(** A window that is placed well, and is not tiled or maximized, keeps its frame when
    its position is checked. *)
Lemma check_placed w0 w f r :
  becomes w0 w restore f r quicktiles.none -> 0 < block w -> pending w = p_normal ->
  windowType w <> Toplevel.Toplevel.Desktop -> windowType w <> Toplevel.Toplevel.Dock ->
  inUpdateClientArea (areas E) = false -> placed w f ->
  becomes w0 (check_workspace_position E V window null_rect None null_rect w) restore f r quicktiles.none.
Proof.
  intros H Hb Hp H1 H2 Hu [Hv Hs Ha]. unfold check_workspace_position.
  rewrite !bool_decide_false by done. rewrite (plain_full _ (b_plain _ _ _ _ _ _ H)).
  assert (pending_frame_geometry w = f) as Hf.
  { unfold pending_frame_geometry. rewrite Hp, bool_decide_false by done. apply H. }
  destruct (negb (max_mode w =? restore)).
  - apply becomes_blocked. cbv zeta. change (upd_max_mode (block_updates w)) with (upd_max_mode w).
    rewrite (b_mode _ _ _ _ _ _ H). destruct (still_restored w0 (block_updates w) f r quicktiles.none)
      as (Hw & Hg & Hd); [by apply becomes_in_block|cbn; lia|done|].
    unfold area_of. rewrite Hg, Hd, on_screen_stays by done. by eapply becomes_set.
  - rewrite (b_tiles _ _ _ _ _ _ H). cbn [negb Z.eqb]. rewrite Hf, Hu. cbn [isValid].
    change (isValid null_rect) with false. cbv zeta iota. unfold border_rect. cbn [default].
    rewrite follow_unmoved, on_screen_stays, Ha by done.
    replace (setSize f (size f)) with f by (by destruct f). by eapply becomes_set.
Qed.

(** A side or a corner. *)
Definition is_side (mode : Z) : Prop := sanitize mode = mode /\ mode <> quicktiles.none.

Lemma side_not_maximize mode : is_side mode -> (mode =? quicktiles.maximize) = false.
Proof. intros [H1 H2]. apply Z.eqb_neq. intros ->. by vm_compute in H1. Qed.

Definition tile_target (keyboard : bool) (w : Window) : QPoint :=
  if keyboard then Qt.center (pending_frame_geometry w) else cursor E.

Lemma tile_new_side mode keyboard u :
  quicktiling u <> mode -> isValid (restore_maximize u) = true -> electric u = mode -> is_side mode ->
  tile_to_side E screen_of mode keyboard u =
    (mode, (setFrameGeometry
              (tiled_rect mode (area_at E MaximizeArea (tile_target keyboard u) (desktop u)))
              (u <| quicktiling := quicktiles.none |>)) <| quicktiling := mode |>).
Proof.
  intros Ht Hv He Hs. pose proof (side_not_maximize _ Hs) as Hx. destruct Hs as [Hs Hn].
  unfold tile_to_side. rewrite (proj2 (Z.eqb_neq _ _) Ht), Hv, andb_false_r.
  rewrite (proj2 (Z.eqb_neq mode quicktiles.none)) by done. cbn [negb]. cbv zeta.
  unfold electric_border_maximize_geometry.
  change (electric (u <| quicktiling := quicktiles.none |>)) with (electric u). by rewrite He, Hx.
Qed.

Lemma tile_same_side mode keyboard u :
  quicktiling u = mode ->
  next_screen mode (screen_geometries (screens E)) (screen_of u) = screen_of u ->
  tile_to_side E screen_of mode keyboard u =
    (quicktiles.none, (set_electric quicktiles.none u) <| quicktiling := quicktiles.none |>).
Proof.
  intros Ht Hn. unfold tile_to_side, tile_again. rewrite Ht, Z.eqb_refl. cbv zeta.
  rewrite Hn, Nat.eqb_refl. done.
Qed.

(** Untiling brings the restore geometry back. *)
Lemma becomes_untiled w0 w f r t :
  becomes w0 w restore f r t -> 0 < block w ->
  windowType w <> Toplevel.Toplevel.Desktop -> windowType w <> Toplevel.Toplevel.Dock ->
  inUpdateClientArea (areas E) = false -> placed w r ->
  becomes w0 (untile E V window w) restore r null_rect quicktiles.none.
Proof.
  intros H Hb H1 H2 Hu Hp. unfold untile. cbv zeta. eapply becomes_restore.
  change (restore_maximize (w <| quicktiling := quicktiles.none |>)) with (restore_maximize w).
  rewrite (b_restore _ _ _ _ _ _ H). set (u := w <| quicktiling := quicktiles.none |>).
  assert (becomes w0 (setFrameGeometry r u) restore r r quicktiles.none) as Hr
    by by eapply becomes_set, becomes_tiles.
  apply (check_placed _ _ _ _ Hr); rewrite ?(stable_set _); try done.
  - rewrite setFrame_blocked by (unfold u; cbn; lia). done.
  - destruct Hp as [Hv Hs Ha]. split; [done|by rewrite (stable_set _)|].
    transitivity (adjusted_frame_size w (size r)); [|done]. apply adjusted_same; by rewrite (stable_set _).
Qed.

(** A new tile. *)
Lemma tile_first mode keyboard w :
  isResizable w = true -> upd_max_mode w = restore -> quicktiling w = quicktiles.none ->
  isValid (restore_maximize w) = false -> isValid (frameGeometry w) = true -> is_side mode ->
  set_quicktile_mode E V window screen_of mode keyboard w =
    let u := (block_updates w) <| restore_maximize := frameGeometry w |> <| electric := mode |> in
    unblock_updates ((setFrameGeometry
      (tiled_rect mode (area_at E MaximizeArea (tile_target keyboard w) (desktop w)))
      (u <| quicktiling := quicktiles.none |>)) <| quicktiling := mode |>).
Proof.
  intros Hr Hm Ht Hv Hf Hs. pose proof (side_not_maximize _ Hs) as Hx.
  unfold set_quicktile_mode. rewrite Hr. cbn [negb]. unfold blocked. cbv zeta.
  change (restore_maximize (block_updates w)) with (restore_maximize w). rewrite Hv, Hx, (proj1 Hs).
  cbv iota. change (frameGeometry (block_updates w)) with (frameGeometry w).
  set (u := (block_updates w) <| restore_maximize := frameGeometry w |> <| electric := mode |>).
  change (upd_max_mode u) with (upd_max_mode w). rewrite Hm. change (negb (restore =? restore)) with false.
  rewrite (proj2 (Z.eqb_neq mode quicktiles.none)) by apply Hs. cbn [negb].
  rewrite (tile_new_side mode keyboard u)
    by (done || change (quicktiling u) with (quicktiling w); rewrite Ht; intros E0; by apply Hs).
  by rewrite (proj2 (Z.eqb_neq mode quicktiles.none)) by apply Hs.
Qed.

(** Another tile of a window that is tiled already. *)
Lemma tile_other mode keyboard w :
  isResizable w = true -> upd_max_mode w = restore -> quicktiling w <> mode ->
  isValid (restore_maximize w) = true -> is_side mode ->
  set_quicktile_mode E V window screen_of mode keyboard w =
    let u := (block_updates w) <| electric := mode |> in
    unblock_updates ((setFrameGeometry
      (tiled_rect mode (area_at E MaximizeArea (tile_target keyboard w) (desktop w)))
      (u <| quicktiling := quicktiles.none |>)) <| quicktiling := mode |>).
Proof.
  intros Hr Hm Ht Hv Hs. pose proof (side_not_maximize _ Hs) as Hx.
  unfold set_quicktile_mode. rewrite Hr. cbn [negb]. unfold blocked. cbv zeta.
  change (restore_maximize (block_updates w)) with (restore_maximize w). rewrite Hv, Hx, (proj1 Hs).
  set (u := (block_updates w) <| electric := mode |>).
  change (upd_max_mode u) with (upd_max_mode w). rewrite Hm. change (negb (restore =? restore)) with false.
  rewrite (proj2 (Z.eqb_neq mode quicktiles.none)) by apply Hs. cbn [negb].
  rewrite (tile_new_side mode keyboard u) by done.
  by rewrite (proj2 (Z.eqb_neq mode quicktiles.none)) by apply Hs.
Qed.

Lemma becomes_retiled mode keyboard w0 w f r t :
  becomes w0 w restore f r t -> isResizable w = true -> t <> mode -> isValid r = true -> is_side mode ->
  becomes w0 (set_quicktile_mode E V window screen_of mode keyboard w) restore
    (tiled_rect mode (area_at E MaximizeArea (tile_target keyboard w) (desktop w))) r mode.
Proof.
  intros H Hr Ht Hv Hs.
  rewrite tile_other; [|done|apply H|by rewrite (b_tiles _ _ _ _ _ _ H)|by rewrite (b_restore _ _ _ _ _ _ H)|done].
  eapply becomes_unblocked, becomes_tiles, becomes_set, becomes_tiles, becomes_electric, becomes_in_block, H.
Qed.

(** The same tile again, with no screen to go on to. *)
Lemma tile_second mode keyboard w :
  isResizable w = true -> upd_max_mode w = restore -> quicktiling w = mode ->
  isValid (restore_maximize w) = true -> is_side mode ->
  (forall u, next_screen mode (screen_geometries (screens E)) (screen_of u) = screen_of u) ->
  set_quicktile_mode E V window screen_of mode keyboard w =
    let u := (block_updates w) <| electric := mode |> in
    unblock_updates (untile E V window ((set_electric quicktiles.none u) <| quicktiling := quicktiles.none |>)).
Proof.
  intros Hr Hm Ht Hv Hs Hn. pose proof (side_not_maximize _ Hs) as Hx.
  unfold set_quicktile_mode. rewrite Hr. cbn [negb]. unfold blocked. cbv zeta.
  change (restore_maximize (block_updates w)) with (restore_maximize w). rewrite Hv, Hx, (proj1 Hs).
  set (u := (block_updates w) <| electric := mode |>).
  change (upd_max_mode u) with (upd_max_mode w). rewrite Hm. change (negb (restore =? restore)) with false.
  rewrite (proj2 (Z.eqb_neq mode quicktiles.none)) by apply Hs. cbn [negb].
  by rewrite (tile_same_side mode keyboard u).
Qed.

Lemma becomes_tiled mode keyboard w :
  plain w -> isResizable w = true -> block w = 0 -> upd_max_mode w = restore ->
  quicktiling w = quicktiles.none -> isValid (restore_maximize w) = false ->
  isValid (frameGeometry w) = true -> is_side mode ->
  let tiled := set_quicktile_mode E V window screen_of mode keyboard w in
  becomes w tiled restore
    (tiled_rect mode (area_at E MaximizeArea (tile_target keyboard w) (desktop w))) (frameGeometry w) mode /\
  block tiled = 0.
Proof.
  intros Hw Hr Hb Hm Ht Hv Hf Hs. rewrite tile_first by done. cbv zeta. split.
  - eapply becomes_unblocked, becomes_tiles, becomes_set, becomes_tiles, becomes_electric, becomes_restore,
      becomes_in_block. rewrite <- Hm. by apply becomes_same.
  - set (T := tiled_rect _ _). set (u := (block_updates w) <| restore_maximize := frameGeometry w |>
      <| electric := mode |> <| quicktiling := quicktiles.none |>).
    unfold unblock_updates.
    change (block ((setFrameGeometry T u) <| quicktiling := mode |>)) with (block (setFrameGeometry T u)).
    rewrite (stable_set _). change (block u) with (block w + 1). rewrite Hb.
    case_match; [by rewrite (stable_set _)|done].
Qed.

Lemma placed_becomes w w' m f r t g :
  plain w -> placed w g -> becomes w w' m f r t -> placed w' g.
Proof.
  intros Hw [P1 P2 P3] H. split; [done|by rewrite (b_desktop _ _ _ _ _ _ H)|].
  rewrite <- P3 at 2. apply adjusted_same; [|apply H..].
  by rewrite (plain_rules _ (b_plain _ _ _ _ _ _ H)), (plain_rules _ Hw).
Qed.

(** Tiling a window to a side or corner gives it that part of the area for maximized
    windows, and tiling it to the same side again, when there is no further screen in
    that direction, brings back exactly the frame it had in the beginning - whatever the
    client answered in between, and without a trace in the tiling mode and the restore
    geometry. *)
Theorem quicktile_roundtrip mode keyboard w es :
  plain w -> isResizable w = true -> block w = 0 ->
  windowType w <> Toplevel.Toplevel.Desktop -> windowType w <> Toplevel.Toplevel.Dock ->
  upd_max_mode w = restore -> quicktiling w = quicktiles.none -> isValid (restore_maximize w) = false ->
  placed w (frameGeometry w) -> is_side mode -> inUpdateClientArea (areas E) = false ->
  (forall u, next_screen mode (screen_geometries (screens E)) (screen_of u) = screen_of u) ->
  forallb is_answer es = true ->
  let tile := set_quicktile_mode E V window screen_of mode keyboard in
  let tiled := tile w in let untiled := tile (run es tiled) in
  quicktiling tiled = mode /\
  upd_frame tiled = tiled_rect mode (area_at E MaximizeArea (tile_target keyboard w) (desktop w)) /\
  upd_frame untiled = frameGeometry w /\ quicktiling untiled = quicktiles.none /\
  restore_maximize untiled = null_rect.
Proof.
  intros Hw Hr Hb H1 H2 Hm Ht Hv Hp Hs Hu Hn He. cbv zeta.
  destruct (becomes_tiled mode keyboard w) as [H Hb']; [done..|apply Hp|done|].
  set (tiled := set_quicktile_mode E V window screen_of mode keyboard w) in *.
  pose proof (becomes_answers _ _ _ _ _ _ es H He) as Ha.
  assert (becomes w (set_quicktile_mode E V window screen_of mode keyboard (run es tiled)) restore
    (frameGeometry w) null_rect quicktiles.none) as Hf; [|by destruct H, Hf].
  rewrite tile_second; [| | | | | |done].
  - cbv zeta. apply becomes_unblocked. eapply becomes_untiled; [| | | |done|].
    + eapply becomes_tiles, becomes_electric, becomes_electric, becomes_in_block, Ha.
    + change (0 < block (run es tiled) + 1). rewrite (stable_answers _ es) by done. lia.
    + change (windowType (run es tiled) <> Toplevel.Toplevel.Desktop). by rewrite (b_type _ _ _ _ _ _ Ha).
    + change (windowType (run es tiled) <> Toplevel.Toplevel.Dock). by rewrite (b_type _ _ _ _ _ _ Ha).
    + by eapply placed_becomes; [| |eapply becomes_tiles, becomes_electric, becomes_electric, becomes_in_block, Ha].
  - by rewrite (isResizable_becomes _ _ _ _ _ _ Hw Ha).
  - apply Ha.
  - apply Ha.
  - rewrite (b_restore _ _ _ _ _ _ Ha). apply Hp.
  - done.
Qed.

End Tiling.

(** ** Samples *)

(** No other windows. *)
Definition no_view : View := mkView (fun _ => Toplevel.Toplevel.plain_window) Toplevel.Toplevel.plain_env
  (fun _ => null_rect) [] [].

Definition answers : list Event :=
  [Ack 8; Commit (mkRect 0 0 1900 1000) no_margins; Activate; Commit (mkRect 0 0 1800 900) no_margins].

Lemma maximize_roundtrip_witness :
  upd_frame (run answers (update_maximized sample_env no_view 1 full sample)) = mkRect 0 0 1804 926 /\
  upd_frame (update_maximized sample_env no_view 1 restore
    (run answers (update_maximized sample_env no_view 1 full sample))) = sample_frame.
Proof.
  split; [by vm_compute|].
  assert (plain sample) as Hp by by split.
  destruct (maximize_roundtrip sample_env no_view 1 sample answers Hp eq_refl ltac:(done) eq_refl eq_refl eq_refl eq_refl)
    as (_ & _ & H & _). exact H.
Defined.

(** Two screens; the window is on the right one and is tiled to the right. *)
Definition two_screens : Env := mkEnv
  (updateAll (mkScreens [mkRect 0 0 1920 1080; mkRect 1920 0 1280 1024] 0 0 false (mkSize 0 0)))
  (mkAreas [null_rect; mkRect 0 0 3200 1080] [[]; []] []
     [[]; [mkRect 0 0 1920 1080; mkRect 1920 0 1280 1024]] [] (mkSize 3200 1080)) 0 1 (mkPoint 0 0).
Definition right_sample : Window :=
  sample <| frameGeometry := mkRect 2000 80 304 226 |> <| upd_frame := mkRect 2000 80 304 226 |>.
Definition tile_answers : list Event := [Ack 8; Commit (mkRect 0 0 500 500) no_margins].

Lemma quicktile_roundtrip_witness :
  let tile := set_quicktile_mode two_screens no_view 1 (fun _ => 1%nat) quicktiles.right true in
  upd_frame (tile right_sample) = mkRect 2560 0 640 1024 /\
  frameGeometry (run tile_answers (tile right_sample)) = mkRect 2560 0 504 526 /\
  upd_frame (tile (run tile_answers (tile right_sample))) = mkRect 2000 80 304 226.
Proof.
  cbv zeta. split; [by vm_compute|]. split; [by vm_compute|].
  assert (plain right_sample) as Hp by by split.
  assert (placed two_screens right_sample (frameGeometry right_sample)) as Hpl.
  { split; [done| |by vm_compute]. by vm_compute. }
  assert (is_side quicktiles.right) as Hs by by split.
  assert (forall u : Window, next_screen quicktiles.right (screen_geometries (screens two_screens)) 1 = 1%nat) as Hn
    by (intros _; by vm_compute).
  destruct (quicktile_roundtrip two_screens no_view 1 (fun _ => 1%nat) quicktiles.right true right_sample
    tile_answers Hp eq_refl eq_refl ltac:(by cbn) ltac:(by cbn) eq_refl eq_refl eq_refl Hpl Hs eq_refl Hn eq_refl)
    as (_ & _ & H & _). exact H.
Defined.

(** ** What is left behind *)

Definition settle (n : Z) (w : Window) : Window :=
  run [Ack n; Commit (rect_at (mkPoint 0 0) (size (synced_window w))) no_margins] w.

(** The restore geometry of a window that has been maximized and restored is not reset,
    since its tiling mode still says that it is maximized. If the window is moved and
    made fullscreen afterwards, leaving fullscreen takes it back to the place where it was
    once maximized. *)
Definition once_maximized : Window :=
  settle 9 (update_maximized sample_env no_view 1 restore
    (settle 8 (update_maximized sample_env no_view 1 full sample))).

Example stale_restore_geometry :
  frameGeometry once_maximized = sample_frame /\ restore_maximize once_maximized = sample_frame /\
  let moved := move (mkPoint 700 500) once_maximized in
  frameGeometry moved = mkRect 700 500 304 226 /\
  let fullscreen := settle 10 (update_fullscreen sample_env no_view 1 (fun _ => 0%nat) true false true moved) in
  frameGeometry fullscreen = mkRect 0 0 1920 1080 /\
  upd_frame (update_fullscreen sample_env no_view 1 (fun _ => 0%nat) false false true fullscreen) = sample_frame.
Proof. by vm_compute. Qed.

(** The same without maximizing before: the window comes back to where it was. *)
Example fullscreen_roundtrip :
  let moved := move (mkPoint 700 500) sample in
  let fullscreen := settle 8 (update_fullscreen sample_env no_view 1 (fun _ => 0%nat) true false true moved) in
  upd_frame (update_fullscreen sample_env no_view 1 (fun _ => 0%nat) false false true fullscreen) =
    mkRect 700 500 304 226.
Proof. by vm_compute. Qed.

(** A client that asks to be restored although it is not maximized is moved back to the
    position at which it was configured last. *)
Example restore_request_moves_back :
  let moved := move (mkPoint 700 500) sample in
  frameGeometry moved = mkRect 700 500 304 226 /\
  frameGeometry (settle 8 (handle_maximize_request sample_env no_view 1 false moved)) = sample_frame.
Proof. by vm_compute. Qed.

(** A window above the screen is brought back by a quarter of the width of the screen. *)
Example offscreen_by_width :
  check_offscreen_position (mkRect 100 (-500) 304 226) (mkRect 0 0 1920 1080) = mkRect 100 255 304 226 /\
  check_offscreen_position (mkRect (-500) 100 304 226) (mkRect 0 0 1920 1080) = mkRect 177 100 304 226 /\
  check_offscreen_position (mkRect 100 2000 304 226) (mkRect 0 0 1920 1080) = mkRect 100 809 304 226.
Proof. by vm_compute. Qed.

End MaximizeProps.
