(* ===== verification/ScreenEdges.v ===== *)
(** * Screen edges (src/screenedge.cpp, src/screenedge.h)

    The edges and corners of the screens that react to the pointer and to swipes: their
    geometry, the counting of what reserves them, the times at which the pointer triggers
    them, and what a triggered edge does. Times are milliseconds; an invalid date is
    [None]. Windows of edges under X11, D-Bus calls and signals to effects are left out or
    appear as effects of an operation. *)

From S2P Require Import Prelude Qt WorkArea.
From S2P Require VirtualDesktops.

Module ScreenEdges.
Import Qt WorkArea.
Abbreviation wid := nat (only parsing).
Abbreviation qobject := nat (only parsing).

Inductive ElectricBorder :=
  | ElectricTop | ElectricTopRight | ElectricRight | ElectricBottomRight | ElectricBottom
  | ElectricBottomLeft | ElectricLeft | ElectricTopLeft | ElectricNone.
#[global] Instance ElectricBorder_eq_dec : EqDecision ElectricBorder.
Proof. solve_decision. Defined.

Inductive ElectricBorderAction :=
  | ElectricActionNone | ElectricActionShowDesktop | ElectricActionLockScreen | ElectricActionKRunner
  | ElectricActionActivityManager | ElectricActionApplicationLauncher.
#[global] Instance ElectricBorderAction_eq_dec : EqDecision ElectricBorderAction.
Proof. solve_decision. Defined.

Definition isBottom (b : ElectricBorder) : bool :=
  match b with ElectricBottom | ElectricBottomLeft | ElectricBottomRight => true | _ => false end.
Definition isLeft (b : ElectricBorder) : bool :=
  match b with ElectricLeft | ElectricTopLeft | ElectricBottomLeft => true | _ => false end.
Definition isRight (b : ElectricBorder) : bool :=
  match b with ElectricRight | ElectricTopRight | ElectricBottomRight => true | _ => false end.
Definition isTop (b : ElectricBorder) : bool :=
  match b with ElectricTop | ElectricTopLeft | ElectricTopRight => true | _ => false end.
Definition isCorner (b : ElectricBorder) : bool :=
  match b with
  | ElectricTopLeft | ElectricTopRight | ElectricBottomRight | ElectricBottomLeft => true
  | _ => false
  end.
Definition isScreenEdge (b : ElectricBorder) : bool :=
  match b with ElectricLeft | ElectricRight | ElectricTop | ElectricBottom => true | _ => false end.

(** Edge; [active] says whether doActivate has been called last, or doDeactivate, and
    [registered] whether the gesture is registered. *)
Record Edge := mkEdge {
  border : ElectricBorder;
  action : ElectricBorderAction;
  touchAction : ElectricBorderAction;
  reserved : Z;
  geometry : QRect;
  approachGeometry : QRect;
  lastTrigger : option Z;
  lastReset : option Z;
  triggeredPoint : QPoint;
  callBacks : list qobject;
  approaching : bool;
  lastApproachingFactor : Z;
  blocked : bool;
  pushBackBlocked : bool;
  client : option wid;
  touchActions : list qobject;
  active : bool;
  registered : bool;
}.
#[global] Instance Edge_eta : RecordEta Edge := fun e =>
  mkEdge (border e) (action e) (touchAction e) (reserved e) (geometry e) (approachGeometry e) (lastTrigger e)
    (lastReset e) (triggeredPoint e) (callBacks e) (approaching e) (lastApproachingFactor e) (blocked e)
    (pushBackBlocked e) (client e) (touchActions e) (active e) (registered e).

(** What the edges share: the configuration of ScreenEdges, and the client that is moved
    or resized with whether it is resized. *)
Record Config := mkConfig {
  timeThreshold : Z;
  reActivationThreshold : Z;
  cursorPushBackDistance : QSize;
  isDesktopSwitching : bool;
  isDesktopSwitchingMovingClients : bool;
  moveResizeClient : option bool;
  cornerOffset : Z;
}.

Inductive Effect :=
  | SetCursorPos (p : QPoint)
  | ShowOnScreenEdge (w : wid)
  | PerformAction (a : ElectricBorderAction)
  | InvokeCallback (o : qobject)
  | TriggerAction (a : qobject)
  | SwitchDesktop (p : QPoint).

(** ** Geometry *)

(** The area in which the pointer approaches the edge. *)
Definition approach_geometry (b : ElectricBorder) (size : Z) (g : QRect) : QRect :=
  let x := rx g in let y := ry g in let w := rw g in let h := rh g in
  if isCorner b then
    mkRect (if isRight b then x - size + 1 else x) (if isBottom b then y - size + 1 else y) size size
  else if isLeft b then mkRect x (y + (size + 1)) size (h - size * 2)
  else if isRight b then mkRect (x - size + 1) (y + size) size (h - size * 2)
  else if isTop b then mkRect (x + size) y (w - size * 2) size
  else if isBottom b then mkRect (x + size) (y - size + 1) (w - size * 2) size
  else g.

Definition setGeometry (size : Z) (g : QRect) (e : Edge) : Edge :=
  if bool_decide (geometry e = g) then e
  else e <| geometry := g |> <| approachGeometry := approach_geometry (border e) size g |>.

(** ** Approaching *)

Definition startApproaching (e : Edge) : Edge :=
  if approaching e then e else e <| approaching := true |> <| lastApproachingFactor := 0 |>.
Definition stopApproaching (e : Edge) : Edge :=
  if negb (approaching e) then e else e <| approaching := false |> <| lastApproachingFactor := 0 |>.

(** The distance from the edge, or from the corner in both directions, in parts of 256;
    the code does not divide otherwise than by a positive [size]. *)
Definition approach_factor (b : ElectricBorder) (size : Z) (g : QRect) (p : QPoint) : Z :=
  let cornerDistance c := Z.max (Z.abs (px c - px p)) (Z.abs (py c - py p)) in
  let part d := Z.quot (Z.shiftl d 8) size in
  256 - match b with
        | ElectricTopLeft => part (cornerDistance (topLeft g))
        | ElectricTopRight => part (cornerDistance (topRight g))
        | ElectricBottomRight => part (cornerDistance (bottomRight g))
        | ElectricBottomLeft => part (cornerDistance (bottomLeft g))
        | ElectricTop => part (Z.abs (py p - ry g))
        | ElectricRight => part (Z.abs (px p - right g))
        | ElectricBottom => part (Z.abs (py p - bottom g))
        | ElectricLeft => part (Z.abs (px p - rx g))
        | ElectricNone => 0
        end.

Definition updateApproaching (size : Z) (p : QPoint) (e : Edge) : Edge :=
  if contains_point (approachGeometry e) p then
    let factor := approach_factor (border e) size (approachGeometry e) p in
    if lastApproachingFactor e =? factor then e else e <| lastApproachingFactor := factor |>
  else stopApproaching e.

(** ** Reservations *)

Definition is_none (a : ElectricBorderAction) : bool := bool_decide (a = ElectricActionNone).

Definition activatesForTouchGesture (e : Edge) : bool :=
  isScreenEdge (border e) && negb (blocked e) &&
  (bool_decide (is_Some (client e)) || negb (is_none (touchAction e)) || negb (bool_decide (touchActions e = []))).

Definition isReserved (e : Edge) : bool := negb (reserved e =? 0).

Definition activate (e : Edge) : Edge :=
  let e1 := if activatesForTouchGesture e then e <| registered := true |> else e in
  e1 <| active := true |>.
Definition deactivate (e : Edge) : Edge := e <| registered := false |> <| active := false |>.

Definition reserve (e : Edge) : Edge :=
  let e1 := e <| reserved := reserved e + 1 |> in
  if reserved e1 =? 1 then activate e1 else e1.
Definition unreserve (e : Edge) : Edge :=
  let e1 := e <| reserved := reserved e - 1 |> in
  if reserved e1 =? 0 then deactivate (stopApproaching e1) else e1.

(** The callbacks are a hash: an object is in it at most once. *)
Definition insert_callback (o : qobject) (l : list qobject) : list qobject :=
  if decide (o ∈ l) then l else l ++ [o].
Definition reserve_object (o : qobject) (e : Edge) : Edge :=
  reserve (e <| callBacks := insert_callback o (callBacks e) |>).
Definition unreserve_object (o : qobject) (e : Edge) : Edge :=
  if decide (o ∈ callBacks e)
  then unreserve (e <| callBacks := filter (fun x => x <> o) (callBacks e) |>) else e.

Definition reserveTouchCallBack (a : qobject) (e : Edge) : Edge :=
  if decide (a ∈ touchActions e) then e
  else reserve (e <| touchActions := touchActions e ++ [a] |>).
Definition unreserveTouchCallBack (a : qobject) (e : Edge) : Edge :=
  match list_find (fun x => x = a) (touchActions e) with
  | Some (i, _) => unreserve (e <| touchActions := delete i (touchActions e) |>)
  | None => e
  end.

(** The signal activatesForTouchGestureChanged, if a change of the edge causes it. *)
Definition touch_changed (was : bool) (e : Edge) : Edge :=
  if Bool.eqb was (activatesForTouchGesture e) then e
  else if isReserved e then e <| registered := activatesForTouchGesture e |> else e.

Definition setAction (a : ElectricBorderAction) (e : Edge) : Edge := e <| action := a |>.
Definition setTouchAction (a : ElectricBorderAction) (e : Edge) : Edge :=
  touch_changed (activatesForTouchGesture e) (e <| touchAction := a |>).
Definition setClient (w : option wid) (e : Edge) : Edge :=
  touch_changed (activatesForTouchGesture e) (e <| client := w |>).

(** checkBlocking; the active client that covers the screen, by its frame. *)
Definition checkBlocking (fullscreen_frame : option QRect) (e : Edge) : Edge :=
  if isCorner (border e) then e
  else
    let newValue := match fullscreen_frame with
                    | Some f => contains_point f (Qt.center (geometry e))
                    | None => false
                    end in
    if Bool.eqb newValue (blocked e) then e
    else touch_changed (activatesForTouchGesture e) (e <| blocked := newValue |>).

(** ** Triggering *)

Section Triggering.
Variable cfg : Config.
(** What the callbacks of effects and scripts return. *)
Variable callback_result : qobject -> bool.

Definition moving : bool := match moveResizeClient cfg with Some resize => negb resize | None => false end.

Definition activatesForPointer (e : Edge) : bool :=
  bool_decide (is_Some (client e)) || isDesktopSwitching cfg ||
  (isDesktopSwitchingMovingClients cfg && moving) ||
  negb (bool_decide (callBacks e = [])) || negb (is_none (action e)).

Definition triggersFor (p : QPoint) (e : Edge) : bool :=
  let b := border e in let g := geometry e in
  negb (blocked e) && activatesForPointer e && contains_point g p &&
  negb (isLeft b && negb (px p =? rx g)) &&
  negb (isRight b && negb (px p =? rx g + rw g - 1)) &&
  negb (isTop b && negb (py p =? ry g)) &&
  negb (isBottom b && negb (py p =? ry g + rh g - 1)).

Definition markAsTriggered (p : QPoint) (t : Z) (e : Edge) : Edge :=
  e <| lastTrigger := Some t |> <| lastReset := None |> <| triggeredPoint := p |>.

Definition DISTANCE_RESET : Z := 30.

(** Whether the edge has been triggered so recently that it must rest. *)
Definition in_cooldown (t : Z) (e : Edge) : bool :=
  match lastTrigger e with
  | Some t0 => t - t0 <? reActivationThreshold cfg - timeThreshold cfg
  | None => false
  end.

Definition canActivate (p : QPoint) (t : Z) (e : Edge) : Edge * bool :=
  match lastReset e with
  | None => (e <| lastReset := Some t |>, false)
  | Some r =>
      if reActivationThreshold cfg <? t - r then (e <| lastReset := Some t |>, false)
      else if in_cooldown t e then (e, false)
      else if t - r <? timeThreshold cfg then (e, false)
      else if DISTANCE_RESET <? manhattanLength (psub p (triggeredPoint e)) then (e, false)
      else (e, true)
  end.

Definition pushCursorBack (p : QPoint) (e : Edge) : list Effect :=
  if pushBackBlocked e then []
  else
    let b := border e in let d := cursorPushBackDistance cfg in
    let x := px p in let y := py p in
    let x := if isLeft b then x + sw d else x in
    let x := if isRight b then x - sw d else x in
    let y := if isTop b then y + sh d else y in
    let y := if isBottom b then y - sh d else y in
    [SetCursorPos (mkPoint x y)].

Definition handleAction (a : ElectricBorderAction) : list Effect * bool :=
  if is_none a then ([], false) else ([PerformAction a], true).

(** The callbacks up to the first that accepts. *)
Fixpoint handleByCallback (l : list qobject) : list Effect * bool :=
  match l with
  | [] => ([], false)
  | o :: l' =>
      if callback_result o then ([InvokeCallback o], true)
      else let '(fx, r) := handleByCallback l' in (InvokeCallback o :: fx, r)
  end.

Definition handle (p : QPoint) (e : Edge) : Edge * list Effect :=
  if (isDesktopSwitchingMovingClients cfg && moving) || (isDesktopSwitching cfg && isScreenEdge (border e))
  then (e, [SwitchDesktop p])
  else match moveResizeClient cfg with
  | Some _ => (e, [])
  | None =>
    match client e with
    | Some w => (unreserve e, pushCursorBack p e ++ [ShowOnScreenEdge w])
    | None =>
        let '(fx1, r1) := handleAction (action e) in
        let '(fx2, r2) := if r1 then ([], true) else handleByCallback (callBacks e) in
        if r2 then (e, fx1 ++ fx2 ++ pushCursorBack p e)
        else if isDesktopSwitching cfg && isCorner (border e) then (e, fx1 ++ fx2 ++ [SwitchDesktop p])
        else (e, fx1 ++ fx2)
    end
  end.

(** QSize::isNull *)
Definition size_isNull (s : QSize) : bool := (sw s =? 0) && (sh s =? 0).

Definition check (p : QPoint) (t : Z) (forceNoPushBack : bool) (e : Edge) : Edge * list Effect * bool :=
  if negb (triggersFor p e) then (e, [], false)
  else if in_cooldown t e then (e, [], false)
  else
    let direct := forceNoPushBack || size_isNull (cursorPushBackDistance cfg) || bool_decide (is_Some (client e)) in
    let '(e1, can) := if direct then (e, true) else canActivate p t e in
    if can then let '(e2, fx) := handle p (markAsTriggered p t e1) in (e2, fx, true)
    else (e1 <| triggeredPoint := p |>, pushCursorBack p e1, false).

(** QAbstractEventDispatcher::aboutToBlock, after a switch of the desktop. *)
Definition about_to_block (e : Edge) : Edge := e <| pushBackBlocked := false |>.

(** The end of a swipe from the edge. *)
Definition gesture_triggered (e : Edge) : Edge * list Effect :=
  let e1 := stopApproaching e in
  match client e1 with
  | Some w => (unreserve e1, [ShowOnScreenEdge w])
  | None =>
      (e1, (handleAction (touchAction e1)).1 ++
           match touchActions e1 with a :: _ => [TriggerAction a] | [] => [] end)
  end.

(** ** All edges *)

(** ScreenEdges::check *)
Definition check_one (p : QPoint) (t : Z) (forceNoPushBack activatedForClient : bool) (e : Edge)
    : Edge * list Effect * bool :=
  if negb (isReserved e) then (e, [], activatedForClient)
  else if negb (activatesForPointer e) then (e, [], activatedForClient)
  else
    let e1 := if contains_point (approachGeometry e) p then startApproaching e else e in
    if bool_decide (is_Some (client e1)) && activatedForClient then (markAsTriggered p t e1, [], activatedForClient)
    else
      let '(e2, fx, triggered) := check p t forceNoPushBack e1 in
      (e2, fx, activatedForClient || (triggered && bool_decide (is_Some (client e2)))).

Fixpoint check_all (p : QPoint) (t : Z) (forceNoPushBack activatedForClient : bool) (l : list Edge)
    : list Edge * list Effect :=
  match l with
  | [] => ([], [])
  | e :: l' =>
      let '(e', fx, a) := check_one p t forceNoPushBack activatedForClient e in
      let '(l'', fx') := check_all p t forceNoPushBack a l' in
      (e' :: l'', fx ++ fx')
  end.

(** ScreenEdges::isEntered, for a movement of the pointer. *)
Definition enter_one (p : QPoint) (t : Z) (activatedForClient : bool) (e : Edge) : Edge * list Effect * bool :=
  if negb (isReserved e) || negb (activatesForPointer e) then (e, [], activatedForClient)
  else
    let e1 := if contains_point (approachGeometry e) p
              then (if negb (approaching e) then startApproaching e else updateApproaching (cornerOffset cfg) p e)
              else (if approaching e then stopApproaching e else e) in
    if contains_point (geometry e1) p then
      let '(e2, fx, triggered) := check p t false e1 in
      (e2, fx, activatedForClient || (triggered && bool_decide (is_Some (client e2))))
    else (e1, [], activatedForClient).

Fixpoint enter_all (p : QPoint) (t : Z) (activatedForClient : bool) (l : list Edge) : list Edge * list Effect * bool :=
  match l with
  | [] => ([], [], activatedForClient)
  | e :: l' =>
      let '(e', fx, a) := enter_one p t activatedForClient e in
      let '(l'', fx', a') := enter_all p t a l' in (e' :: l'', fx ++ fx', a')
  end.

Definition isEntered (p : QPoint) (t : Z) (l : list Edge) : list Edge * list Effect :=
  let '(l', fx, a) := enter_all p t false l in
  (if a then (fun e => if bool_decide (is_Some (client e)) then markAsTriggered p t e else e) <$> l' else l', fx).
End Triggering.

(** ** Switching desktops *)

Section Switching.
Context {R C : Type}.
Import VirtualDesktops.Manager.
Variable screens_size : QSize.

Definition OFFSET : Z := 2.

(** Going in one direction, with the new pointer position if the desktop changes. *)
Definition go (nav : Manager R C -> option nat -> bool -> option nat) (m : Manager R C)
    (moved : QPoint -> QPoint) (s : Z * QPoint) : option (Z * QPoint) :=
  d ← by_number nav m s.1 (m_navigationWrapsAround m);
  Some (d, if d =? s.1 then s.2 else moved s.2).

Definition switch_target (b : ElectricBorder) (m : Manager R C) (s : Z * QPoint) : option (Z * QPoint) :=
  s1 ← if isLeft b then go toLeft m (fun p => mkPoint (sw screens_size - 1 - OFFSET) (py p)) s
       else if isRight b then go toRight m (fun p => mkPoint OFFSET (py p)) s else Some s;
  if isTop b then go above m (fun p => mkPoint (px p) (sh screens_size - 1 - OFFSET)) s1
  else if isBottom b then go below m (fun p => mkPoint (px p) OFFSET) s1 else Some s1.

(** Edge::switchDesktop. [rule] is the desktop that the rules of a moved client allow, if
    one is moved. *)
Definition switchDesktop (rule : option (Z -> Z)) (p : QPoint) (m : Manager R C) (e : Edge)
    : option (Manager R C * Edge * list Effect) :=
  oldDesktop ← current m;
  s ← switch_target (border e) m (oldDesktop, p);
  let forbidden := match rule with Some f => negb (f s.1 =? s.1) | None => false end in
  if forbidden then Some (m, e, [])
  else
    r ← setCurrent s.1 m;
    new ← current r.2;
    Some (if new =? oldDesktop then (r.2, e, [])
          else (r.2, e <| pushBackBlocked := true |>, [SetCursorPos s.2])).
End Switching.

End ScreenEdges.
