(* ===== verification/EdgeManager.v ===== *)
(** * The manager of the screen edges (class ScreenEdges of src/screenedge.cpp)

    Which edges exist for the screens and for windows that hide at an edge, the actions and
    the reservations they carry, and the events that change them. An edge that exists only
    under X11 as a window is not distinguished from one that exists on Wayland. *)

From stdpp Require Import functions.
From S2P Require Import Prelude Qt WorkArea ScreenEdges.

Module EdgeManager.
Import Qt ScreenEdges.

Definition border_index (b : ElectricBorder) : nat :=
  match b with
  | ElectricTop => 0 | ElectricTopRight => 1 | ElectricRight => 2 | ElectricBottomRight => 3 | ElectricBottom => 4
  | ElectricBottomLeft => 5 | ElectricLeft => 6 | ElectricTopLeft => 7 | ElectricNone => 8
  end.
Definition border_at (n : nat) : ElectricBorder :=
  match n with
  | 0%nat => ElectricTop | 1%nat => ElectricTopRight | 2%nat => ElectricRight | 3%nat => ElectricBottomRight
  | 4%nat => ElectricBottom | 5%nat => ElectricBottomLeft | 6%nat => ElectricLeft | 7%nat => ElectricTopLeft
  | _ => ElectricNone
  end.
#[global] Instance ElectricBorder_countable : Countable ElectricBorder.
Proof. refine (inj_countable' border_index border_at _). by intros []. Defined.

(** ScreenEdges; the actions of the borders (m_actionTop and so on) are a function of the
    border, and Qt::Orientations two booleans. *)
Record EdgeManager := mkEdgeManager {
  m_edges : list Edge;
  m_config : Config;
  m_actions : ElectricBorder -> ElectricBorderAction;
  m_touchActions : gmap ElectricBorder ElectricBorderAction;
  m_virtualDesktopLayout : bool * bool;
}.
#[global] Instance EdgeManager_eta : RecordEta EdgeManager := fun m =>
  mkEdgeManager (m_edges m) (m_config m) (m_actions m) (m_touchActions m) (m_virtualDesktopLayout m).

#[global] Instance Config_eta : RecordEta Config := fun c =>
  mkConfig (timeThreshold c) (reActivationThreshold c) (cursorPushBackDistance c) (isDesktopSwitching c)
    (isDesktopSwitchingMovingClients c) (moveResizeClient c) (ScreenEdges.cornerOffset c).

(** Constructor, from the resolution of the first screen. *)
Definition corner_offset (physicalDpiX physicalDpiY : Z) : Z := Z.quot (physicalDpiX + physicalDpiY + 5) 6.
Definition initial (cornerOffset : Z) : EdgeManager :=
  mkEdgeManager [] (mkConfig 0 0 (mkSize (-1) (-1)) false false None cornerOffset) (fun _ => ElectricActionNone) ∅
    (false, false).

(** Applies [f] to the edges of a border. *)
Definition on_border (b : ElectricBorder) (f : Edge -> Edge) (l : list Edge) : list Edge :=
  (fun e => if bool_decide (border e = b) then f e else e) <$> l.

(** ** Actions *)

Definition setActionForBorder (b : ElectricBorder) (newValue : ElectricBorderAction) (m : EdgeManager) : EdgeManager :=
  let oldValue := m_actions m b in
  if bool_decide (oldValue = newValue) then m
  else
    let l := m_edges m in
    let l := if is_none oldValue then on_border b reserve l else l in
    let l := if is_none newValue then on_border b unreserve l else l in
    m <| m_actions := <[b := newValue]> (m_actions m) |> <| m_edges := on_border b (setAction newValue) l |>.

Definition setActionForTouchBorder (b : ElectricBorder) (newValue : ElectricBorderAction) (m : EdgeManager)
    : EdgeManager :=
  let oldValue := default ElectricActionNone (m_touchActions m !! b) in
  if bool_decide (oldValue = newValue) then m
  else
    let l := m_edges m in
    let l := if is_none oldValue then on_border b reserve l else l in
    let l := if is_none newValue then on_border b unreserve l else l in
    m <| m_touchActions := if is_none newValue then delete b (m_touchActions m)
                           else <[b := newValue]> (m_touchActions m) |>
      <| m_edges := on_border b (setTouchAction newValue) l |>.

(** ** Switching desktops *)

Definition isDesktopSwitching (m : EdgeManager) : bool := ScreenEdges.isDesktopSwitching (m_config m).

(** Whether the layout has the direction in which the edge leads. *)
Definition leads (layout : bool * bool) (e : Edge) : bool :=
  (layout.1 && (isLeft (border e) || isRight (border e))) || (layout.2 && (isTop (border e) || isBottom (border e))).
Definition layout_empty (layout : bool * bool) : bool := negb (layout.1 || layout.2).

Definition reserveDesktopSwitching (isToReserve : bool) (o : bool * bool) (m : EdgeManager) : EdgeManager :=
  if layout_empty o then m
  else m <| m_edges := (fun e => if isCorner (border e) || leads (m_virtualDesktopLayout m) e
                                 then if isToReserve then reserve e else unreserve e else e) <$> m_edges m |>.

Definition setDesktopSwitching (enable : bool) (m : EdgeManager) : EdgeManager :=
  if Bool.eqb enable (isDesktopSwitching m) then m
  else reserveDesktopSwitching enable (m_virtualDesktopLayout m)
         (m <| m_config := (m_config m) <| ScreenEdges.isDesktopSwitching := enable |> |>).
Definition setDesktopSwitchingMovingClients (enable : bool) (m : EdgeManager) : EdgeManager :=
  m <| m_config := (m_config m) <| isDesktopSwitchingMovingClients := enable |> |>.

(** The desktop matrix is the grid of the virtual desktops. *)
Definition updateLayout (desktopMatrix : QSize) (m : EdgeManager) : EdgeManager :=
  let newLayout := (1 <? sw desktopMatrix, 1 <? sh desktopMatrix) in
  if bool_decide (newLayout = m_virtualDesktopLayout m) then m
  else
    let m1 := if isDesktopSwitching m then reserveDesktopSwitching false (m_virtualDesktopLayout m) m else m in
    let m2 := m1 <| m_virtualDesktopLayout := newLayout |> in
    if isDesktopSwitching m2 then reserveDesktopSwitching true (m_virtualDesktopLayout m2) m2 else m2.

(** ** Which edges there are *)

Section Edges.
Variable screens : list QRect.

Definition no_other (f : QRect -> bool) (screen : QRect) : bool :=
  forallb (fun otherGeo => bool_decide (otherGeo = screen) || negb (f otherGeo)) screens.
Definition isLeftScreen (screen fullArea : QRect) : bool :=
  Nat.eqb (length screens) 1 || (rx screen =? rx fullArea) || no_other (fun o => rx o + rw o <=? rx screen) screen.
Definition isRightScreen (screen fullArea : QRect) : bool :=
  Nat.eqb (length screens) 1 || (rx screen + rw screen =? rx fullArea + rw fullArea) ||
  no_other (fun o => rx screen + rw screen <=? rx o) screen.
Definition isTopScreen (screen fullArea : QRect) : bool :=
  Nat.eqb (length screens) 1 || (ry screen =? ry fullArea) || no_other (fun o => ry o + rh o <=? ry screen) screen.
Definition isBottomScreen (screen fullArea : QRect) : bool :=
  Nat.eqb (length screens) 1 || (ry screen + rh screen =? ry fullArea + rh fullArea) ||
  no_other (fun o => ry screen + rh screen <=? ry o) screen.

Definition new_edge : Edge :=
  mkEdge ElectricNone ElectricActionNone ElectricActionNone 0 (mkRect 0 0 0 0) (mkRect 0 0 0 0) None None (mkPoint 0 0)
    [] false 0 false false None [] false false.

Definition actionForEdge (m : EdgeManager) (e : Edge) : ElectricBorderAction :=
  match border e with ElectricNone => ElectricActionNone | b => m_actions m b end.
Definition actionForTouchEdge (m : EdgeManager) (e : Edge) : ElectricBorderAction :=
  default ElectricActionNone (m_touchActions m !! border e).

(** The assertions that an edge has no negative size. *)
Definition createEdge_asserts (width height : Z) : bool := (0 <=? width) && (0 <=? height).

Definition createEdge (m : EdgeManager) (b : ElectricBorder) (x y width height : Z) (createAction : bool) : Edge :=
  let e := setGeometry (ScreenEdges.cornerOffset (m_config m)) (mkRect x y width height) (new_edge <| border := b |>) in
  let e := if createAction then
      let action := actionForEdge m e in
      let e := if is_none action then e else setAction action (reserve e) in
      let touchAction := actionForTouchEdge m e in
      if is_none touchAction then e else setTouchAction touchAction (reserve e)
    else e in
  if isDesktopSwitching m then
    if isCorner (border e) then reserve e
    else
      let l := m_virtualDesktopLayout m in
      let e := if l.1 && (isLeft (border e) || isRight (border e)) then reserve e else e in
      if l.2 && (isTop (border e) || isBottom (border e)) then reserve e else e
  else e.

(** The arguments of the calls of createEdge for a side of a screen. *)
Definition createVerticalEdge (cornerOffset : Z) (b : ElectricBorder) (screen fullArea : QRect)
    : list (ElectricBorder * QRect) :=
  let x := match b with ElectricLeft => rx screen | _ => rx screen + rw screen - 1 end in
  let y := ry screen in
  let height := rh screen in
  let '(corner1, y, height) :=
    if isTopScreen screen fullArea
    then ([(match b with ElectricLeft => ElectricTopLeft | _ => ElectricTopRight end, mkRect x (ry screen) 1 1)],
          y + cornerOffset, height - cornerOffset)
    else ([], y, height) in
  let '(corner2, height) :=
    if isBottomScreen screen fullArea
    then ([(match b with ElectricLeft => ElectricBottomLeft | _ => ElectricBottomRight end,
            mkRect x (ry screen + rh screen - 1) 1 1)], height - cornerOffset)
    else ([], height) in
  corner1 ++ corner2 ++ (if height <=? cornerOffset then [] else [(b, mkRect x y 1 height)]).

Definition createHorizontalEdge (cornerOffset : Z) (b : ElectricBorder) (screen fullArea : QRect)
    : list (ElectricBorder * QRect) :=
  let '(x, width) := if isLeftScreen screen fullArea then (rx screen + cornerOffset, rw screen - cornerOffset)
                     else (rx screen, rw screen) in
  let width := if isRightScreen screen fullArea then width - cornerOffset else width in
  if width <=? cornerOffset then []
  else [(b, mkRect x (match b with ElectricTop => ry screen | _ => ry screen + rh screen - 1 end) width 1)].

(** The edges of one rectangle of a screen. *)
Definition part_edges (cornerOffset : Z) (fullArea part : QRect) : list (ElectricBorder * QRect) :=
  (if isLeftScreen part fullArea then createVerticalEdge cornerOffset ElectricLeft part fullArea else []) ++
  (if isRightScreen part fullArea then createVerticalEdge cornerOffset ElectricRight part fullArea else []) ++
  (if isTopScreen part fullArea then createHorizontalEdge cornerOffset ElectricTop part fullArea else []) ++
  (if isBottomScreen part fullArea then createHorizontalEdge cornerOffset ElectricBottom part fullArea else []).

(** [fresh_parts] are, screen for screen, the rectangles of the screen's region that the
    screens before it leave (QRegion::subtracted); [fullArea] is screens()->geometry(). *)
Variable fresh_parts : list QRect.
Variable fullArea : QRect.

Definition create_edges (m : EdgeManager) : list Edge :=
  (fun '(b, g) => createEdge m b (rx g) (ry g) (rw g) (rh g) true)
    <$> (fresh_parts ≫= part_edges (ScreenEdges.cornerOffset (m_config m)) fullArea).

(** What an old edge hands over to a new one. *)
Definition copy_reservations (e : Edge) (oldEdge : Edge) : Edge :=
  match client oldEdge with
  | Some _ => e
  | None =>
      if bool_decide (border oldEdge = border e)
      then foldl (fun e a => reserveTouchCallBack a e) (foldl (fun e o => reserve_object o e) e (callBacks oldEdge))
             (touchActions oldEdge)
      else e
  end.

Definition recreateEdges (m : EdgeManager) : EdgeManager * list Effect :=
  let oldEdges := m_edges m in
  let new := create_edges m in
  (m <| m_edges := (fun e => foldl copy_reservations e oldEdges) <$> new |>,
   new ≫= fun _ => omap (fun o => ShowOnScreenEdge <$> client o) oldEdges).
End Edges.

(** ** Reservations *)

Definition reserve_border (b : ElectricBorder) (o : qobject) (m : EdgeManager) : EdgeManager :=
  m <| m_edges := on_border b (reserve_object o) (m_edges m) |>.
Definition unreserve_border (b : ElectricBorder) (o : qobject) (m : EdgeManager) : EdgeManager :=
  m <| m_edges := on_border b (unreserve_object o) (m_edges m) |>.
Definition reserveTouch (b : ElectricBorder) (a : qobject) (m : EdgeManager) : EdgeManager :=
  m <| m_edges := on_border b (reserveTouchCallBack a) (m_edges m) |>.
Definition unreserveTouch (b : ElectricBorder) (a : qobject) (m : EdgeManager) : EdgeManager :=
  m <| m_edges := on_border b (unreserveTouchCallBack a) (m_edges m) |>.

(** The end of an object that has reserved edges: QObject::destroyed is connected to the
    release of its reservations. *)
Definition object_destroyed (o : qobject) (m : EdgeManager) : EdgeManager :=
  m <| m_edges := unreserve_object o <$> m_edges m |>.
Definition touch_action_destroyed (a : qobject) (m : EdgeManager) : EdgeManager :=
  m <| m_edges := unreserveTouchCallBack a <$> m_edges m |>.

(** ** Edges of windows *)

Definition deleteEdgeForClient (w : wid) (m : EdgeManager) : EdgeManager :=
  m <| m_edges := filter (fun e => client e <> Some w) (m_edges m) |>.

Section ClientEdges.
Variable screens : list QRect.

(** The place of the edge on one screen: [None] if the next screen is tried. *)
Definition client_edge_on (b : ElectricBorder) (geo fullArea screen : QRect) : option QRect :=
  if negb (rect_contains screen geo) then None
  else
    let bordersTop := ry screen =? ry geo in
    let bordersLeft := rx screen =? rx geo in
    let bordersBottom := ry screen + rh screen =? ry geo + rh geo in
    let bordersRight := rx screen + rw screen =? rx geo + rw geo in
    if bordersTop && bool_decide (b = ElectricTop) then
      if negb (isTopScreen screens screen fullArea) then None else Some (mkRect (rx geo) (ry geo) (rw geo) 1)
    else if bordersBottom && bool_decide (b = ElectricBottom) then
      if negb (isBottomScreen screens screen fullArea) then None
      else Some (mkRect (rx geo) (ry geo + rh geo - 1) (rw geo) 1)
    else if bordersLeft && bool_decide (b = ElectricLeft) then
      if negb (isLeftScreen screens screen fullArea) then None else Some (mkRect (rx geo) (ry geo) 1 (rh geo))
    else if bordersRight && bool_decide (b = ElectricRight) then
      if negb (isRightScreen screens screen fullArea) then None
      else Some (mkRect (rx geo + rw geo - 1) (ry geo) 1 (rh geo))
    else None.

Definition client_edge_geometry (b : ElectricBorder) (geo fullArea : QRect) : option QRect :=
  match omap (client_edge_on b geo fullArea) screens with
  | g :: _ => if (0 <? rw g) && (0 <? rh g) then Some g else None
  | [] => None
  end.

Definition createEdgeForClient (fullArea geo : QRect) (w : wid) (b : ElectricBorder) (m : EdgeManager)
    : EdgeManager * list Effect :=
  match client_edge_geometry b geo fullArea with
  | Some g =>
      let e := reserve (setClient (Some w) (createEdge m b (rx g) (ry g) (rw g) (rh g) false)) in
      (m <| m_edges := m_edges m ++ [e] |>, [])
  | None => (m, [ShowOnScreenEdge w])
  end.

(** reserve(Toplevel*, ElectricBorder) *)
Definition reserve_client (fullArea geo : QRect) (w : wid) (b : ElectricBorder) (m : EdgeManager)
    : EdgeManager * list Effect :=
  let hadBorder := existsb (fun e => bool_decide (client e = Some w)) (m_edges m) in
  let m1 := deleteEdgeForClient w m in
  if bool_decide (b = ElectricNone) then (m1, if hadBorder then [ShowOnScreenEdge w] else [])
  else createEdgeForClient fullArea geo w b m1.
End ClientEdges.

(** ** Configuration *)

Definition electricBorderAction (lowerName : string) : ElectricBorderAction :=
  if String.eqb lowerName "showdesktop" then ElectricActionShowDesktop
  else if String.eqb lowerName "lockscreen" then ElectricActionLockScreen
  else if String.eqb lowerName "krunner" then ElectricActionKRunner
  else if String.eqb lowerName "activitymanager" then ElectricActionActivityManager
  else if String.eqb lowerName "applicationlauncher" then ElectricActionApplicationLauncher
  else ElectricActionNone.

(** The values of the configuration that reconfigure reads; the actions come as the names
    in lower case. *)
Record EdgeConfig := mkEdgeConfig {
  c_delay : Z;
  c_cooldown : Z;
  c_electricBorders : Z;
  c_pushBack : Z;
  c_action : ElectricBorder -> string;
  c_touch : ElectricBorder -> string;
}.

Definition pointer_borders : list ElectricBorder :=
  [ElectricTopLeft; ElectricTop; ElectricTopRight; ElectricRight; ElectricBottomRight; ElectricBottom;
   ElectricBottomLeft; ElectricLeft].
Definition touch_borders : list ElectricBorder := [ElectricTop; ElectricRight; ElectricBottom; ElectricLeft].

Definition set_thresholds (delay cooldown : Z) (m : EdgeManager) : EdgeManager :=
  m <| m_config := (m_config m) <| timeThreshold := delay |>
                     <| reActivationThreshold := Z.max (delay + 50) cooldown |> |>.

Definition set_switching (v : Z) (m : EdgeManager) : EdgeManager :=
  if v =? 0 then setDesktopSwitchingMovingClients false (setDesktopSwitching false m)
  else if v =? 1 then setDesktopSwitchingMovingClients true (setDesktopSwitching false m)
  else if v =? 2 then setDesktopSwitchingMovingClients true (setDesktopSwitching true m)
  else m.

Definition reconfigure (cfg : option EdgeConfig) (m : EdgeManager) : EdgeManager :=
  match cfg with
  | None => m
  | Some c =>
      let m := set_switching (c_electricBorders c) (set_thresholds (c_delay c) (c_cooldown c) m) in
      let m := m <| m_config := (m_config m) <| cursorPushBackDistance := mkSize (c_pushBack c) (c_pushBack c) |> |> in
      let m := foldl (fun m b => setActionForBorder b (electricBorderAction (c_action c b)) m) m pointer_borders in
      foldl (fun m b => setActionForTouchBorder b (electricBorderAction (c_touch c b)) m) m touch_borders
  end.

Definition init (cfg : option EdgeConfig) (desktopMatrix : QSize) (screens parts : list QRect) (fullArea : QRect)
    (m : EdgeManager) : EdgeManager * list Effect :=
  recreateEdges screens parts fullArea (updateLayout desktopMatrix (reconfigure cfg m)).

(** ** Pointer *)

Definition check (callback_result : qobject -> bool) (p : QPoint) (t : Z) (forceNoPushBack : bool) (m : EdgeManager)
    : EdgeManager * list Effect :=
  let '(l, fx) := check_all (m_config m) callback_result p t forceNoPushBack false (m_edges m) in
  (m <| m_edges := l |>, fx).
Definition entered (callback_result : qobject -> bool) (p : QPoint) (t : Z) (m : EdgeManager)
    : EdgeManager * list Effect :=
  let '(l, fx) := isEntered (m_config m) callback_result p t (m_edges m) in (m <| m_edges := l |>, fx).

(** Workspace's signal checkBlocking goes to the edges that are no corners. *)
Definition check_blocking (fullscreen_frame : option QRect) (m : EdgeManager) : EdgeManager :=
  m <| m_edges := (fun e => if isScreenEdge (border e) then checkBlocking fullscreen_frame e else e) <$> m_edges m |>.

(** ** Events *)

Inductive Event :=
  | EvAction (b : ElectricBorder) (a : ElectricBorderAction)
  | EvTouchAction (b : ElectricBorder) (a : ElectricBorderAction)
  | EvReconfigure (cfg : option EdgeConfig)
  | EvSwitching (enable : bool)
  | EvLayout (desktopMatrix : QSize)
  | EvReserve (b : ElectricBorder) (o : qobject)
  | EvUnreserve (b : ElectricBorder) (o : qobject)
  | EvTouch (b : ElectricBorder) (a : qobject)
  | EvUntouch (b : ElectricBorder) (a : qobject)
  | EvDestroyed (o : qobject)
  | EvTouchDestroyed (a : qobject)
  | EvClient (screens : list QRect) (fullArea geo : QRect) (w : wid) (b : ElectricBorder)
  | EvDeleteClient (w : wid)
  | EvRecreate (screens parts : list QRect) (fullArea : QRect)
  | EvBlocking (fullscreen_frame : option QRect)
  | EvMoveResize (resize : option bool)
  | EvCheck (p : QPoint) (t : Z) (forceNoPushBack : bool)
  | EvEntered (p : QPoint) (t : Z).

Definition step (callback_result : qobject -> bool) (ev : Event) (m : EdgeManager) : EdgeManager :=
  match ev with
  | EvAction b a => setActionForBorder b a m
  | EvTouchAction b a => setActionForTouchBorder b a m
  | EvReconfigure cfg => reconfigure cfg m
  | EvSwitching enable => setDesktopSwitching enable m
  | EvLayout s => updateLayout s m
  | EvReserve b o => reserve_border b o m
  | EvUnreserve b o => unreserve_border b o m
  | EvTouch b a => reserveTouch b a m
  | EvUntouch b a => unreserveTouch b a m
  | EvDestroyed o => object_destroyed o m
  | EvTouchDestroyed a => touch_action_destroyed a m
  | EvClient screens fullArea geo w b => (reserve_client screens fullArea geo w b m).1
  | EvDeleteClient w => deleteEdgeForClient w m
  | EvRecreate screens parts fullArea => (recreateEdges screens parts fullArea m).1
  | EvBlocking f => check_blocking f m
  | EvMoveResize r => m <| m_config := (m_config m) <| moveResizeClient := r |> |>
  | EvCheck p t force => (check callback_result p t force m).1
  | EvEntered p t => (entered callback_result p t m).1
  end.

End EdgeManager.
