(* ===== verification/ScreenEdgesFacts.v ===== *)
(** * Lemmas on the reservations of screen edges

    [counted n e] says that [e] is reserved [n] times and is active accordingly; each
    operation on an edge changes the count by what it reserves or releases. *)

From stdpp Require Import functions.
From S2P Require Import Prelude Qt WorkArea ScreenEdges EdgeManager.

Module ScreenEdgesFacts.
Import Qt ScreenEdges.
Import EdgeManager(EdgeManager, Event, m_edges, m_config, m_actions, m_touchActions, m_virtualDesktopLayout).

Definition counted (n : Z) (e : Edge) : Prop :=
  reserved e = n /\ 0 <= n /\ active e = isReserved e /\ (registered e = true -> isReserved e = true).

(** What of an edge the reservations do not touch. *)
Definition same_frame (e e' : Edge) : Prop :=
  border e' = border e /\ client e' = client e /\ action e' = action e /\ touchAction e' = touchAction e /\
  callBacks e' = callBacks e /\ touchActions e' = touchActions e.

#[global] Instance same_frame_refl : Reflexive same_frame.
Proof. intros e. repeat split. Qed.
#[global] Instance same_frame_trans : Transitive same_frame.
Proof. intros a b c (?&?&?&?&?&?) (?&?&?&?&?&?). repeat split; congruence. Qed.

(** Closes goals on a single edge by computing with its fields. *)
Ltac edge_auto :=
  unfold same_frame, counted, isReserved in *; intros; cbn in *; destruct_and?;
  repeat (case_match; cbn in *); simplify_eq; repeat split; auto; try lia; try (intros; congruence);
  try (symmetry; rewrite ?negb_true_iff, ?negb_false_iff, ?Z.eqb_neq, ?Z.eqb_eq in *; lia).

Lemma stop_frame e : same_frame e (stopApproaching e).
Proof. unfold stopApproaching. edge_auto. Qed.
Lemma reserve_frame e : same_frame e (reserve e).
Proof. unfold reserve, activate. edge_auto. Qed.
Lemma unreserve_frame e : same_frame e (unreserve e).
Proof. unfold unreserve, deactivate, stopApproaching. edge_auto. Qed.
Lemma touch_changed_frame b e : same_frame e (touch_changed b e).
Proof. unfold touch_changed. edge_auto. Qed.

Lemma reserve_counted n e : counted n e -> counted (n + 1) (reserve e).
Proof.
  unfold counted, reserve, activate, isReserved. intros (<- & Hn & Ha & Hr). cbn.
  destruct (Z.eqb_spec (reserved e + 1) 1) as [H|H].
  - assert (reserved e = 0) as -> by lia. destruct (activatesForTouchGesture _); cbn; repeat split; auto; lia.
  - cbn. destruct (Z.eqb_spec (reserved e) 0); [lia|]. destruct (Z.eqb_spec (reserved e + 1) 0); [lia|].
    cbn in *. repeat split; auto; lia.
Qed.

Lemma unreserve_counted n e : 0 < n -> counted n e -> counted (n - 1) (unreserve e).
Proof.
  unfold counted, unreserve, deactivate, stopApproaching, isReserved. intros Hp (<- & Hn & Ha & Hr). cbn.
  destruct (Z.eqb_spec (reserved e - 1) 0) as [H|H].
  - destruct (approaching e); cbn; rewrite H; cbn; repeat split; (done || lia).
  - cbn. destruct (Z.eqb_spec (reserved e) 0); [lia|]. destruct (Z.eqb_spec (reserved e - 1) 0); [lia|].
    cbn in *. repeat split; auto; lia.
Qed.

Lemma counted_ext n e e' :
  reserved e' = reserved e -> active e' = active e -> registered e' = registered e -> counted n e -> counted n e'.
Proof. unfold counted, isReserved. intros -> -> ->. done. Qed.

Lemma touch_changed_counted n b e : counted n e -> counted n (touch_changed b e).
Proof.
  unfold counted, touch_changed. intros (? & ? & ? & Hr).
  destruct (Bool.eqb _ _); [by auto|]. destruct (isReserved e) eqn:E; [|by rewrite E; auto].
  unfold isReserved in *. cbn. rewrite E. auto.
Qed.

(** ** The invariant of one edge

    [act], [tact] and [sw] say, for each border, the actions of the manager and whether
    switching the desktop reserves its edges. *)

Section Invariant.
Variable act tact : ElectricBorder -> ElectricBorderAction.
Variable sw : ElectricBorder -> bool.

Definition uses (a : ElectricBorderAction) : Z := Z.b2z (negb (is_none a)).

Definition reservations (e : Edge) : Z :=
  uses (action e) + uses (touchAction e) + Z.of_nat (length (callBacks e)) + Z.of_nat (length (touchActions e)) +
  Z.b2z (sw (border e)).

Definition edge_ok (e : Edge) : Prop :=
  client e = None ->
  action e = act (border e) /\ touchAction e = tact (border e) /\ NoDup (callBacks e) /\ counted (reservations e) e.
End Invariant.

Lemma uses_nonneg a : 0 <= uses a <= 1.
Proof. unfold uses. destruct (negb _); cbn; lia. Qed.
Lemma b2z_nonneg b : 0 <= Z.b2z b <= 1.
Proof. destruct b; cbn; lia. Qed.

(** An operation that reserves what it adds keeps the invariant; so does one that does not
    touch reservations. *)
Lemma frame_ok act tact sw e e' :
  same_frame e e' -> reserved e' = reserved e -> active e' = active e -> registered e' = registered e ->
  edge_ok act tact sw e -> edge_ok act tact sw e'.
Proof.
  intros (Hb & Hc & Ha & Ht & Hk & Hk') ? ? ? H. unfold edge_ok.
  rewrite Hc. intros Hcl. destruct (H Hcl) as (? & ? & ? & ?).
  unfold reservations in *. rewrite Hb, Ha, Ht, Hk, Hk'. repeat split_and; eauto using counted_ext.
Qed.

Lemma adjust_ok act tact sw act' tact' sw' e e' :
  border e' = border e -> client e' = client e ->
  (client e = None -> action e = act (border e) -> touchAction e = tact (border e) -> NoDup (callBacks e) ->
   counted (reservations sw e) e ->
   action e' = act' (border e) /\ touchAction e' = tact' (border e) /\ NoDup (callBacks e') /\
   counted (reservations sw' e') e') ->
  edge_ok act tact sw e -> edge_ok act' tact' sw' e'.
Proof.
  intros Hb Hc Hstep H. unfold edge_ok. rewrite Hc. intros Hcl.
  destruct (H Hcl) as (? & ? & ? & ?). rewrite Hb. by apply Hstep.
Qed.

(** Reserving or releasing under a condition, then setting fields that do not matter for
    being active. *)
Definition when (b : bool) (f : Edge -> Edge) (e : Edge) : Edge := if b then f e else e.

Lemma when_frame b f e : (forall e, same_frame e (f e)) -> same_frame e (when b f e).
Proof. intros H. unfold when. destruct b; [apply H|reflexivity]. Qed.

Lemma when_reserve n b e : counted n e -> counted (n + Z.b2z b) (when b reserve e).
Proof. unfold when. destruct b; cbn [Z.b2z]; [apply reserve_counted|]. by rewrite Z.add_0_r. Qed.

Lemma when_unreserve n b e : Z.b2z b <= n -> counted n e -> counted (n - Z.b2z b) (when b unreserve e).
Proof.
  unfold when. destruct b; cbn [Z.b2z]; intros; [apply unreserve_counted; [lia|done]|]. by rewrite Z.sub_0_r.
Qed.

(** ** The operations of the manager on one edge *)

Section Operations.
Variable act tact : ElectricBorder -> ElectricBorderAction.
Variable sw : ElectricBorder -> bool.
Notation ok := (edge_ok act tact sw).

(** The operation that changes an action from [old] to [new]: it reserves if there was
    none, and releases if there is none. *)
Definition change_action (set : ElectricBorderAction -> Edge -> Edge) (old new : ElectricBorderAction) (e : Edge)
    : Edge := set new (when (is_none new) unreserve (when (is_none old) reserve e)).

Lemma change_counted old new n e :
  0 <= n -> counted (uses old + n) e ->
  counted (uses new + n) (when (is_none new) unreserve (when (is_none old) reserve e)).
Proof.
  intros Hn H. apply (when_reserve _ (is_none old)) in H.
  apply (when_unreserve _ (is_none new)) in H.
  - replace (uses new + n) with (uses old + n + Z.b2z (is_none old) - Z.b2z (is_none new)); [done|].
    unfold uses. destruct (is_none old), (is_none new); cbn; lia.
  - unfold uses in *. destruct (is_none old), (is_none new); cbn; lia.
Qed.

Lemma change_frame old new e : same_frame e (when (is_none new) unreserve (when (is_none old) reserve e)).
Proof.
  transitivity (when (is_none old) reserve e); apply when_frame; auto using reserve_frame, unreserve_frame.
Qed.

Lemma setAction_frame a e :
  border (setAction a e) = border e /\ client (setAction a e) = client e /\ action (setAction a e) = a /\
  touchAction (setAction a e) = touchAction e /\ callBacks (setAction a e) = callBacks e /\
  touchActions (setAction a e) = touchActions e.
Proof. done. Qed.

Lemma setAction_ok b new e :
  ok e ->
  edge_ok (<[b := new]> act) tact sw (if bool_decide (border e = b) then change_action setAction (act b) new e else e).
Proof.
  destruct (bool_decide_reflect (border e = b)) as [Hb|Hb].
  - destruct (change_frame (act b) new e) as (Fb & Fc & Fa & Ft & Fk & Fk').
    unfold change_action.
    destruct (setAction_frame new (when (is_none new) unreserve (when (is_none (act b)) reserve e)))
      as (Gb & Gc & Ga & Gt & Gk & Gk').
    apply adjust_ok; [congruence..|].
    intros Hc Ha Ht Hk Hn. unfold reservations in *. rewrite Ga, Gt, Gk, Gk', Gb, Ft, Fk, Fk', Fb.
    rewrite Hb in *. rewrite fn_lookup_insert. repeat split_and; auto. eapply counted_ext; [reflexivity..|].
    rewrite Ha in Hn. rewrite <- !Z.add_assoc in *. apply change_counted; [|done].
    pose proof (uses_nonneg (touchAction e)). pose proof (b2z_nonneg (sw b)). lia.
  - apply adjust_ok; [done..|]. intros. by rewrite fn_lookup_insert_ne.
Qed.

Lemma setTouchAction_frame a e :
  border (setTouchAction a e) = border e /\ client (setTouchAction a e) = client e /\
  action (setTouchAction a e) = action e /\ touchAction (setTouchAction a e) = a /\
  callBacks (setTouchAction a e) = callBacks e /\ touchActions (setTouchAction a e) = touchActions e.
Proof.
  unfold setTouchAction. set (e1 := e <| touchAction := a |>).
  destruct (touch_changed_frame (activatesForTouchGesture e) e1) as (-> & -> & -> & -> & -> & ->). done.
Qed.

Lemma setTouchAction_counted n a e : counted n e -> counted n (setTouchAction a e).
Proof. intros H. apply touch_changed_counted. eapply counted_ext, H; reflexivity. Qed.

Lemma setTouchAction_ok b new e :
  ok e ->
  edge_ok act (<[b := new]> tact) sw
    (if bool_decide (border e = b) then change_action setTouchAction (tact b) new e else e).
Proof.
  destruct (bool_decide_reflect (border e = b)) as [Hb|Hb].
  - destruct (change_frame (tact b) new e) as (Fb & Fc & Fa & Ft & Fk & Fk').
    unfold change_action.
    destruct (setTouchAction_frame new (when (is_none new) unreserve (when (is_none (tact b)) reserve e)))
      as (Gb & Gc & Ga & Gt & Gk & Gk').
    apply adjust_ok; [congruence..|].
    intros Hc Ha Ht Hk Hn. unfold reservations in *. rewrite Ga, Gt, Gk, Gk', Gb, Fa, Fk, Fk', Fb.
    rewrite Hb in *. rewrite fn_lookup_insert. repeat split_and; auto. apply setTouchAction_counted.
    rewrite Ht in Hn.
    match type of Hn with counted (?x + _ + ?y + ?z + ?w) _ =>
      replace (x + uses new + y + z + w) with (uses new + (x + y + z + w)) by lia;
      replace (x + uses (tact b) + y + z + w) with (uses (tact b) + (x + y + z + w)) in Hn by lia end.
    apply change_counted; [|done].
    pose proof (uses_nonneg (action e)). pose proof (b2z_nonneg (sw b)). lia.
  - apply adjust_ok; [done..|]. intros. by rewrite fn_lookup_insert_ne.
Qed.

(** Switching for an edge on or off; the new situation is [sw']. *)
Lemma switch_on_ok (sw' : ElectricBorder -> bool) c e :
  sw (border e) = false -> sw' (border e) = c -> ok e -> edge_ok act tact sw' (when c reserve e).
Proof.
  intros Hs Hc. destruct (when_frame c reserve e reserve_frame) as (Fb & Fc & Fa & Ft & Fk & Fk').
  apply adjust_ok; [congruence..|]. intros Hcl Ha Ht Hk Hn. rewrite Fa, Ft, Fk. repeat split_and; auto.
  unfold reservations in *. rewrite Fb, Fa, Ft, Fk, Fk', Hc. rewrite Hs, Z.add_0_r in Hn. by apply when_reserve.
Qed.

Lemma switch_off_ok (sw' : ElectricBorder -> bool) c e :
  sw (border e) = c -> sw' (border e) = false -> ok e -> edge_ok act tact sw' (when c unreserve e).
Proof.
  intros Hs Hc. destruct (when_frame c unreserve e unreserve_frame) as (Fb & Fc & Fa & Ft & Fk & Fk').
  apply adjust_ok; [congruence..|]. intros Hcl Ha Ht Hk Hn. rewrite Fa, Ft, Fk. repeat split_and; auto.
  unfold reservations in *. rewrite Fb, Fa, Ft, Fk, Fk', Hc. rewrite Hs in Hn.
  pose proof (uses_nonneg (action e)). pose proof (uses_nonneg (touchAction e)).
  apply (when_unreserve _ c) in Hn; [|lia]. cbn [Z.b2z]. by rewrite Z.add_0_r, <- (Z.add_simpl_r _ (Z.b2z c)).
Qed.

(** ** Reservations by objects and by touch actions *)

Lemma insert_callback_new o l : o ∉ l -> insert_callback o l = l ++ [o].
Proof. intros. unfold insert_callback. by rewrite decide_False. Qed.

Definition holders (e : Edge) : Z := Z.of_nat (length (callBacks e)) + Z.of_nat (length (touchActions e)).

(** [e1] is [e] with other holders of reservations. *)
Definition same_but_holders (e e1 : Edge) : Prop :=
  border e1 = border e /\ client e1 = client e /\ action e1 = action e /\ touchAction e1 = touchAction e /\
  reserved e1 = reserved e /\ active e1 = active e /\ registered e1 = registered e.

Lemma adjust_holders_ok e e1 f d :
  (forall e, same_frame e (f e)) ->
  (forall n e, 0 <= n + d -> counted n e -> counted (n + d) (f e)) ->
  same_but_holders e e1 -> holders e1 = holders e + d ->
  (client e = None -> NoDup (callBacks e) -> NoDup (callBacks e1)) -> ok e -> ok (f e1).
Proof.
  intros Hframe Hcount (Eb & Ec & Ea & Et & Er & Eact & Ereg) Hd Hnd. unfold holders in Hd.
  destruct (Hframe e1) as (Fb & Fc & Fa & Ft & Fk & Fk').
  apply adjust_ok; [congruence..|]. intros Hc Ha Ht Hk Hn.
  apply (counted_ext _ _ e1) in Hn; [|done..]. unfold reservations in *.
  rewrite Fb, Fa, Ft, Fk, Fk', Eb, Ea, Et. repeat split_and; auto.
  pose proof (uses_nonneg (action e)). pose proof (uses_nonneg (touchAction e)).
  pose proof (b2z_nonneg (sw (border e))). apply Hcount in Hn; [|lia].
  match goal with |- counted ?a _ => match type of Hn with counted ?b _ => replace a with b by lia end end. done.
Qed.

Lemma reserve_holder_ok e e1 :
  same_but_holders e e1 -> holders e1 = holders e + 1 ->
  (client e = None -> NoDup (callBacks e) -> NoDup (callBacks e1)) -> ok e -> ok (reserve e1).
Proof. apply adjust_holders_ok; auto using reserve_frame, reserve_counted. Qed.

Lemma unreserve_holder_ok e e1 :
  same_but_holders e e1 -> holders e1 = holders e + -1 ->
  (client e = None -> NoDup (callBacks e) -> NoDup (callBacks e1)) -> ok e -> ok (unreserve e1).
Proof.
  apply adjust_holders_ok; [apply unreserve_frame|]. intros n x ? ?. apply unreserve_counted; [lia|done].
Qed.

Lemma reserve_object_ok o e : (client e = None -> o ∉ callBacks e) -> client e = None -> ok e -> ok (reserve_object o e).
Proof.
  intros Ho Hcl. apply reserve_holder_ok; [done| |]; unfold holders; cbn; rewrite insert_callback_new by auto.
  - rewrite length_app. cbn. lia.
  - intros _ Hk. apply NoDup_app. repeat split; auto using NoDup_singleton.
    intros x Hx ->%list_elem_of_singleton. by apply Ho.
Qed.

(** An edge with a client is not described by the invariant. *)
Lemma with_client_ok e : client e <> None -> ok e.
Proof. intros Hn ?. congruence. Qed.

Lemma length_filter_ne (o : qobject) l :
  NoDup l -> o ∈ l -> Z.of_nat (length (filter (fun x => x <> o) l)) = Z.of_nat (length l) + -1.
Proof.
  intros Hd Hin. pose proof (remove_all_Permutation o l Hd Hin) as H%Permutation_length.
  cbn in H. unfold remove_all in H. lia.
Qed.

Lemma unreserve_object_ok o e : ok e -> ok (unreserve_object o e).
Proof.
  unfold unreserve_object. destruct (decide (o ∈ callBacks e)) as [Ho|]; [|done]. intros Hok.
  destruct (client e) eqn:Hcl.
  { destruct (unreserve_frame (e <| callBacks := filter (fun x => x <> o) (callBacks e) |>)) as (_ & Fc & _).
    apply with_client_ok. rewrite Fc. cbn. congruence. }
  destruct (Hok Hcl) as (_ & _ & Hnd & _).
  revert Hok. apply unreserve_holder_ok; [done| |by intros; apply NoDup_filter].
  unfold holders. cbn. rewrite length_filter_ne by done. lia.
Qed.

Lemma reserveTouch_ok a e : ok e -> ok (reserveTouchCallBack a e).
Proof.
  unfold reserveTouchCallBack. destruct (decide (a ∈ touchActions e)); [done|].
  apply reserve_holder_ok; [done| |done]. unfold holders. cbn. rewrite length_app. cbn. lia.
Qed.

Lemma unreserveTouch_ok a e : ok e -> ok (unreserveTouchCallBack a e).
Proof.
  unfold unreserveTouchCallBack. destruct (list_find _ _) as [[i x]|] eqn:E; [|done].
  apply list_find_Some in E as (Hi & -> & _). pose proof (lookup_lt_Some _ _ _ Hi) as Hl.
  apply unreserve_holder_ok; [done| |done]. unfold holders. cbn. rewrite length_delete by done. lia.
Qed.

(** ** Pointer and blocking *)

(** Operations that change none of the fields of the invariant. *)
Definition unaffected (e e' : Edge) : Prop :=
  same_frame e e' /\ reserved e' = reserved e /\ active e' = active e /\ registered e' = registered e.

Lemma unaffected_ok e e' : unaffected e e' -> ok e -> ok e'.
Proof. intros (? & ? & ? & ?). by apply frame_ok. Qed.

Lemma startApproaching_unaffected e : unaffected e (startApproaching e).
Proof. unfold startApproaching. by case_match. Qed.
Lemma stopApproaching_unaffected e : unaffected e (stopApproaching e).
Proof. unfold stopApproaching. by case_match. Qed.
Lemma updateApproaching_unaffected size p e : unaffected e (updateApproaching size p e).
Proof. unfold updateApproaching. repeat case_match; try done. apply stopApproaching_unaffected. Qed.
Lemma canActivate_unaffected cfg p t e : unaffected e (canActivate cfg p t e).1.
Proof. unfold canActivate. by repeat case_match. Qed.

Lemma handle_ok cfg cb p e : ok e -> ok (handle cfg cb p e).1.
Proof.
  intros Hok. unfold handle. destruct (_ || _); [done|]. destruct (moveResizeClient cfg); [done|].
  destruct (client e) eqn:Hc.
  - destruct (unreserve_frame e) as (_ & Fc & _). apply with_client_ok. cbn [fst]. rewrite Fc. congruence.
  - destruct (handleAction _) as [? r1]. destruct (if r1 then _ else _) as [? []]; [done|]. by destruct (_ && _).
Qed.

Lemma check_ok cfg cb p t force e : ok e -> ok (check cfg cb p t force e).1.1.
Proof.
  intros Hok. unfold check. destruct (negb _); [done|]. destruct (in_cooldown _ _ _); [done|].
  set (d := _ || _ || _).
  assert (ok (if d then (e, true) else canActivate cfg p t e).1) as H1.
  { destruct d; [done|]. eapply unaffected_ok, Hok. apply canActivate_unaffected. }
  destruct (if d then (e, true) else canActivate cfg p t e) as [e1 can]. cbn [fst] in H1.
  assert (ok (markAsTriggered p t e1)) as H2 by (eapply unaffected_ok, H1; done).
  destruct can; [|eapply unaffected_ok, H1; done].
  pose proof (handle_ok cfg cb p _ H2) as H3. by destruct (handle cfg cb p _).
Qed.

Lemma check_one_ok cfg cb p t force a e : ok e -> ok (check_one cfg cb p t force a e).1.1.
Proof.
  intros Hok. unfold check_one. destruct (negb (isReserved e)); [done|]. destruct (negb _); [done|].
  set (e1 := if contains_point _ _ then _ else _).
  assert (ok e1) as H1.
  { unfold e1. case_match; [|done]. eapply unaffected_ok, Hok. apply startApproaching_unaffected. }
  destruct (_ && _); [by eapply unaffected_ok, H1|].
  pose proof (check_ok cfg cb p t force e1 H1). by destruct (check _ _ _ _ _ _) as [[? ?] ?].
Qed.

Lemma check_all_ok cfg cb p t force a l : Forall ok l -> Forall ok (check_all cfg cb p t force a l).1.
Proof.
  intros H. revert a. induction H as [|e l He Hl IH]; intros a; cbn [check_all]; [constructor|].
  pose proof (check_one_ok cfg cb p t force a e He) as H1. destruct (check_one _ _ _ _ _ _ _) as [[e' fx] a'].
  specialize (IH a'). destruct (check_all _ _ _ _ _ _ _) as [l' fx']. by constructor.
Qed.

Lemma enter_one_ok cfg cb p t a e : ok e -> ok (enter_one cfg cb p t a e).1.1.
Proof.
  intros Hok. unfold enter_one. destruct (_ || _); [done|].
  set (e1 := if contains_point (approachGeometry e) p then _ else _).
  assert (ok e1) as H1.
  { unfold e1. repeat case_match; try done; eapply unaffected_ok, Hok;
      auto using startApproaching_unaffected, updateApproaching_unaffected, stopApproaching_unaffected. }
  destruct (contains_point (geometry e1) p); [|done].
  pose proof (check_ok cfg cb p t false e1 H1). by destruct (check _ _ _ _ _ _) as [[? ?] ?].
Qed.

Lemma enter_all_ok cfg cb p t a l : Forall ok l -> Forall ok (enter_all cfg cb p t a l).1.1.
Proof.
  intros H. revert a. induction H as [|e l He Hl IH]; intros a; cbn [enter_all]; [constructor|].
  pose proof (enter_one_ok cfg cb p t a e He) as H1. destruct (enter_one _ _ _ _ _ _) as [[e' fx] a'].
  specialize (IH a'). destruct (enter_all _ _ _ _ _ _) as [[l' fx'] a'']. by constructor.
Qed.

Lemma isEntered_ok cfg cb p t l : Forall ok l -> Forall ok (isEntered cfg cb p t l).1.
Proof.
  intros H. unfold isEntered. pose proof (enter_all_ok cfg cb p t false l H) as H1.
  destruct (enter_all _ _ _ _ _ _) as [[l' fx] a]. cbn [fst] in *. destruct a; [|done].
  apply Forall_fmap. eapply Forall_impl; [exact H1|]. intros e He. cbn. case_match; [|done].
  by eapply unaffected_ok, He.
Qed.

Lemma touch_changed_ok was e e' : same_frame e e' -> reserved e' = reserved e -> active e' = active e ->
  registered e' = registered e -> ok e -> ok (touch_changed was e').
Proof.
  intros Hf Hr Ha Hg Hok. pose proof (frame_ok _ _ _ _ _ Hf Hr Ha Hg Hok) as H1.
  destruct (touch_changed_frame was e') as (Fb & Fc & Fa & Ft & Fk & Fk').
  revert H1. apply adjust_ok; [done..|]. intros. unfold reservations in *. rewrite Fa, Ft, Fk, Fk', Fb.
  auto using touch_changed_counted.
Qed.

Lemma checkBlocking_ok f e : ok e -> ok (checkBlocking f e).
Proof.
  intros Hok. unfold checkBlocking. case_match; [done|]. cbv zeta. case_match; [done|]. by eapply touch_changed_ok.
Qed.

(** ** Copying reservations *)

Lemma reserve_object_frame o e :
  client (reserve_object o e) = client e /\ border (reserve_object o e) = border e /\
  callBacks (reserve_object o e) = insert_callback o (callBacks e).
Proof.
  by destruct (reserve_frame (e <| callBacks := insert_callback o (callBacks e) |>)) as (Fb & Fc & _ & _ & Fk & _).
Qed.

Lemma reserve_objects_ok l e :
  client e = None -> NoDup l -> (forall o, o ∈ l -> o ∉ callBacks e) -> ok e ->
  ok (foldl (fun e o => reserve_object o e) e l) /\
  client (foldl (fun e o => reserve_object o e) e l) = None /\
  border (foldl (fun e o => reserve_object o e) e l) = border e /\
  callBacks (foldl (fun e o => reserve_object o e) e l) = callBacks e ++ l.
Proof.
  revert e. induction l as [|o l IH]; intros e Hc Hd Hl Hok; cbn [foldl]; [by rewrite app_nil_r|].
  apply NoDup_cons in Hd as [Ho Hd].
  assert (o ∉ callBacks e) as Hno by (apply Hl; left).
  destruct (reserve_object_frame o e) as (Fc & Fb & Fk). rewrite insert_callback_new in Fk by done.
  destruct (IH (reserve_object o e)) as (H1 & H2 & H3 & H4); [congruence|done| |by apply reserve_object_ok|].
  - intros x Hx. rewrite Fk. intros [H|Hs]%elem_of_app; [by eapply Hl; [right|]|].
    apply list_elem_of_singleton in Hs as ->. done.
  - rewrite H4, H3, Fb, Fk. by rewrite <- app_assoc.
Qed.

Lemma reserve_touches_ok l e :
  ok e -> ok (foldl (fun e a => reserveTouchCallBack a e) e l) /\
  client (foldl (fun e a => reserveTouchCallBack a e) e l) = client e /\
  border (foldl (fun e a => reserveTouchCallBack a e) e l) = border e /\
  callBacks (foldl (fun e a => reserveTouchCallBack a e) e l) = callBacks e.
Proof.
  revert e. induction l as [|a l IH]; intros e Hok; cbn [foldl]; [done|].
  destruct (IH (reserveTouchCallBack a e)) as (H1 & H2 & H3 & H4); [by apply reserveTouch_ok|].
  rewrite H2, H3, H4. split; [done|]. unfold reserveTouchCallBack. destruct (decide _); [done|].
  by destruct (reserve_frame (e <| touchActions := touchActions e ++ [a] |>)) as (? & ? & _ & _ & ? & _).
Qed.

End Operations.

End ScreenEdgesFacts.
