(* ===== verification/ScreenEdgesProps.v ===== *)
(** * Properties of the screen edges

    The reservations of an edge are counted exactly through every sequence of events; which
    edges are created; when a pointer at an edge triggers it, and when it does not. *)

From stdpp Require Import functions.
From S2P Require Import Prelude Qt WorkArea ScreenEdges EdgeManager ScreenEdgesFacts.

Module ScreenEdgesProps.
Import Qt ScreenEdges ScreenEdgesFacts.
Import EdgeManager(EdgeManager, Event, m_edges, m_config, m_actions, m_touchActions, m_virtualDesktopLayout, step).
Abbreviation EM := EdgeManager.EdgeManager (only parsing).

(** ** The invariant of the manager *)

Definition touch_action (m : EM) (b : ElectricBorder) : ElectricBorderAction :=
  default ElectricActionNone (m_touchActions m !! b).

(** Whether switching desktops reserves the edges of a border. *)
Definition switches (m : EM) (b : ElectricBorder) : bool :=
  EdgeManager.isDesktopSwitching m && negb (EdgeManager.layout_empty (m_virtualDesktopLayout m)) &&
  (isCorner b || (m_virtualDesktopLayout m).1 && (isLeft b || isRight b)
   || (m_virtualDesktopLayout m).2 && (isTop b || isBottom b)).

Definition manager_ok (m : EM) : Prop :=
  Forall (edge_ok (m_actions m) (touch_action m) (switches m)) (m_edges m).

(** Events the program produces only under conditions: an object reserves a border once,
    and edges are created anew only when switching desktops has a direction and no two old
    edges of a border are reserved by the same object. *)
Definition allowed (ev : Event) (m : EM) : Prop :=
  match ev with
  | EdgeManager.EvReserve b o => forall e, e ∈ m_edges m -> border e = b -> o ∉ callBacks e
  | EdgeManager.EvRecreate _ _ _ =>
      (EdgeManager.isDesktopSwitching m = true -> EdgeManager.layout_empty (m_virtualDesktopLayout m) = false) /\
      forall b, NoDup (filter (fun e => border e = b /\ client e = None) (m_edges m) ≫= callBacks)
  | EdgeManager.EvReconfigure _ | _ => True
  end.

Fixpoint run (cb : qobject -> bool) (evs : list Event) (m : EM) : EM :=
  match evs with [] => m | ev :: evs' => run cb evs' (step cb ev m) end.
Fixpoint all_allowed (cb : qobject -> bool) (evs : list Event) (m : EM) : Prop :=
  match evs with [] => True | ev :: evs' => allowed ev m /\ all_allowed cb evs' (step cb ev m) end.

(** A manager that shares all but the edges. *)
Lemma manager_ok_edges m l :
  Forall (edge_ok (m_actions m) (touch_action m) (switches m)) l -> manager_ok (m <| m_edges := l |>).
Proof. done. Qed.

Lemma Forall_map_ok {act tact sw act' tact' sw'} (f : Edge -> Edge) l :
  (forall e, e ∈ l -> edge_ok act tact sw e -> edge_ok act' tact' sw' (f e)) ->
  Forall (edge_ok act tact sw) l -> Forall (edge_ok act' tact' sw') (f <$> l).
Proof.
  intros H. rewrite !Forall_forall. intros Hl x (e & -> & He)%list_elem_of_fmap. auto.
Qed.

Lemma on_border_fuse b f g l :
  (forall e, border (f e) = border e) ->
  EdgeManager.on_border b g (EdgeManager.on_border b f l) = EdgeManager.on_border b (fun e => g (f e)) l.
Proof.
  intros Hf. unfold EdgeManager.on_border. rewrite <- list_fmap_compose. apply list_fmap_ext. intros _ e _. cbn.
  destruct (bool_decide_reflect (border e = b)) as [Hb|Hb].
  - by rewrite bool_decide_true by (by rewrite Hf).
  - by rewrite bool_decide_false.
Qed.

Lemma on_border_when b (c : bool) f l :
  (if c then EdgeManager.on_border b f l else l) = EdgeManager.on_border b (when c f) l.
Proof.
  destruct c; [done|]. unfold EdgeManager.on_border. symmetry. rewrite <- (list_fmap_id l) at 2.
  apply list_fmap_ext. intros _ e _. cbn. by destruct (bool_decide _).
Qed.

Lemma when_border b f e : (forall e, same_frame e (f e)) -> border (when b f e) = border e.
Proof. intros H. by destruct (when_frame b f e H). Qed.

(** The three passes over the edges that change an action are one. *)
Lemma change_action_edges set b old new l :
  EdgeManager.on_border b (set new)
    (if is_none new then EdgeManager.on_border b unreserve (if is_none old then EdgeManager.on_border b reserve l else l)
     else if is_none old then EdgeManager.on_border b reserve l else l)
  = EdgeManager.on_border b (change_action set old new) l.
Proof.
  rewrite !on_border_when, !on_border_fuse; [done|..]; intros; rewrite ?when_border;
    auto using reserve_frame, unreserve_frame.
Qed.

Lemma setActionForBorder_ok b a m : manager_ok m -> manager_ok (EdgeManager.setActionForBorder b a m).
Proof.
  intros H. unfold EdgeManager.setActionForBorder. case_match; [done|]. rewrite change_action_edges.
  unfold manager_ok. cbn. apply (Forall_map_ok (act := m_actions m) (tact := touch_action m) (sw := switches m)); [|done].
  intros e _ He. by apply setAction_ok.
Qed.

Lemma edge_ok_ext act tact sw act' tact' sw' e :
  act (border e) = act' (border e) -> tact (border e) = tact' (border e) -> sw (border e) = sw' (border e) ->
  edge_ok act tact sw e -> edge_ok act' tact' sw' e.
Proof. unfold edge_ok, reservations. by intros -> -> ->. Qed.

Lemma setActionForTouchBorder_ok b a m : manager_ok m -> manager_ok (EdgeManager.setActionForTouchBorder b a m).
Proof.
  intros H. unfold EdgeManager.setActionForTouchBorder. case_match; [done|]. rewrite change_action_edges.
  unfold manager_ok. cbn. apply (Forall_map_ok (act := m_actions m) (tact := touch_action m) (sw := switches m)); [|done].
  intros e _ He. pose proof (setTouchAction_ok _ _ _ b a e He) as H1. revert H1. apply edge_ok_ext; [done| |done].
  unfold touch_action. cbn. set (b' := border _). unfold is_none.
  destruct (decide (b' = b)) as [->|Hne]; destruct (bool_decide_reflect (a = ElectricActionNone)) as [->|].
  - by rewrite fn_lookup_insert, lookup_delete_eq.
  - by rewrite fn_lookup_insert, lookup_insert_eq.
  - by rewrite fn_lookup_insert_ne, lookup_delete_ne.
  - by rewrite fn_lookup_insert_ne, lookup_insert_ne.
Qed.

(** ** Switching *)

Lemma leads_switch (m : EM) e :
  isCorner (border e) || EdgeManager.leads (m_virtualDesktopLayout m) e =
  isCorner (border e) || (m_virtualDesktopLayout m).1 && (isLeft (border e) || isRight (border e))
   || (m_virtualDesktopLayout m).2 && (isTop (border e) || isBottom (border e)).
Proof. unfold EdgeManager.leads. by rewrite orb_assoc. Qed.

(** Reserving for a situation in which nothing was reserved, and releasing. *)
Lemma reserve_switching_ok m sw :
  EdgeManager.isDesktopSwitching m = true -> (forall b, sw b = false) ->
  Forall (edge_ok (m_actions m) (touch_action m) sw) (m_edges m) ->
  manager_ok (EdgeManager.reserveDesktopSwitching true (m_virtualDesktopLayout m) m).
Proof.
  intros Hs Hsw H. unfold EdgeManager.reserveDesktopSwitching, manager_ok.
  destruct (EdgeManager.layout_empty _) eqn:He.
  - eapply Forall_impl; [exact H|]. intros e. apply edge_ok_ext; [done..|]. unfold switches.
    by rewrite Hs, He, Hsw.
  - cbn. eapply Forall_map_ok; [|exact H]. intros e _ Hok. change (switches _) with (switches m).
    apply (switch_on_ok _ _ sw); [done| |done]. unfold switches. by rewrite Hs, He, leads_switch.
Qed.

Lemma release_switching_ok m (sw : ElectricBorder -> bool) :
  EdgeManager.isDesktopSwitching m = true -> (forall b, sw b = false) -> manager_ok m ->
  Forall (edge_ok (m_actions m) (touch_action m) sw)
    (m_edges (EdgeManager.reserveDesktopSwitching false (m_virtualDesktopLayout m) m)).
Proof.
  intros Hs Hsw H. unfold EdgeManager.reserveDesktopSwitching.
  destruct (EdgeManager.layout_empty _) eqn:He.
  - eapply Forall_impl; [exact H|]. intros e. apply edge_ok_ext; [done..|]. unfold switches.
    by rewrite Hs, He, Hsw.
  - cbn. eapply Forall_map_ok; [|exact H]. intros e _ Hok.
    apply (switch_off_ok _ _ (switches m)); [|done|done]. unfold switches. by rewrite Hs, He, leads_switch.
Qed.

Lemma switches_off m b : EdgeManager.isDesktopSwitching m = false -> switches m b = false.
Proof. unfold switches. by intros ->. Qed.

Lemma reserveDesktopSwitching_keeps r o m :
  let m' := EdgeManager.reserveDesktopSwitching r o m in
  m_config m' = m_config m /\ m_actions m' = m_actions m /\ m_touchActions m' = m_touchActions m /\
  m_virtualDesktopLayout m' = m_virtualDesktopLayout m.
Proof. unfold EdgeManager.reserveDesktopSwitching. by case_match. Qed.

Lemma setDesktopSwitching_ok b m : manager_ok m -> manager_ok (EdgeManager.setDesktopSwitching b m).
Proof.
  intros H. unfold EdgeManager.setDesktopSwitching. destruct (Bool.eqb b _) eqn:E; [done|].
  apply eqb_false_iff in E. set (m1 := m <| m_config := _ |>).
  destruct b.
  - apply (reserve_switching_ok m1 (switches m)); [done| |exact H].
    intros b. apply switches_off. by destruct (EdgeManager.isDesktopSwitching m).
  - assert (EdgeManager.isDesktopSwitching m = true) as Hs by (by destruct (EdgeManager.isDesktopSwitching m)).
    pose proof (release_switching_ok m (fun _ => false) Hs (fun _ => eq_refl) H) as H1.
    assert (m_edges (EdgeManager.reserveDesktopSwitching false (m_virtualDesktopLayout m) m1) =
            m_edges (EdgeManager.reserveDesktopSwitching false (m_virtualDesktopLayout m) m)) as H2.
    { unfold EdgeManager.reserveDesktopSwitching. cbn. by case_match. }
    unfold manager_ok. rewrite H2.
    destruct (reserveDesktopSwitching_keeps false (m_virtualDesktopLayout m) m1) as (Ec & Ea & Et & El).
    eapply Forall_impl; [exact H1|]. intros e. apply edge_ok_ext.
    + by rewrite Ea.
    + unfold touch_action. by rewrite Et.
    + symmetry. apply switches_off. unfold EdgeManager.isDesktopSwitching. by rewrite Ec.
Qed.

Lemma edges_updateLayout_ok s m : manager_ok m -> manager_ok (EdgeManager.updateLayout s m).
Proof.
  intros H. unfold EdgeManager.updateLayout. case_match; [done|].
  destruct (EdgeManager.isDesktopSwitching m) eqn:Hs.
  - pose proof (release_switching_ok m (fun _ => false) Hs (fun _ => eq_refl) H) as H1.
    destruct (reserveDesktopSwitching_keeps false (m_virtualDesktopLayout m) m) as (Ec & Ea & Et & El).
    set (m1 := EdgeManager.reserveDesktopSwitching false _ _) in *.
    set (m2 := m1 <| m_virtualDesktopLayout := _ |>).
    assert (EdgeManager.isDesktopSwitching m2 = true) as Hs2.
    { unfold EdgeManager.isDesktopSwitching in *. cbn. by rewrite Ec. }
    rewrite Hs2. apply (reserve_switching_ok m2 (fun _ => false)); [done..|].
    unfold touch_action in *. change (m_actions m2) with (m_actions m1).
    change (m_touchActions m2) with (m_touchActions m1). rewrite Ea, Et. exact H1.
  - change (EdgeManager.isDesktopSwitching (m <| m_virtualDesktopLayout := _ |>)) with (EdgeManager.isDesktopSwitching m).
    rewrite Hs. unfold manager_ok. cbn. eapply Forall_impl; [exact H|]. intros e. apply edge_ok_ext; [done..|].
    by rewrite !switches_off.
Qed.

(** ** Creating edges *)

Lemma setGeometry_frame size g e :
  same_frame e (setGeometry size g e) /\ reserved (setGeometry size g e) = reserved e /\
  active (setGeometry size g e) = active e /\ registered (setGeometry size g e) = registered e.
Proof. unfold setGeometry. by case_match. Qed.

Lemma fresh_frame size g b :
  border (setGeometry size g (EdgeManager.new_edge <| border := b |>)) = b /\
  client (setGeometry size g (EdgeManager.new_edge <| border := b |>)) = None.
Proof. by destruct (setGeometry_frame size g (EdgeManager.new_edge <| border := b |>)) as ((-> & -> & _) & _). Qed.

(** The stages of createEdge: without reservations, with the actions, with switching. *)
Definition no_action : ElectricBorder -> ElectricBorderAction := fun _ => ElectricActionNone.
Definition never : ElectricBorder -> bool := fun _ => false.

Lemma fresh_edge_ok size g b :
  edge_ok no_action no_action never (setGeometry size g (EdgeManager.new_edge <| border := b |>)).
Proof.
  destruct (setGeometry_frame size g (EdgeManager.new_edge <| border := b |>)) as (? & ? & ? & ?).
  eapply frame_ok; [done..|]. intros _. repeat split; try done. constructor.
Qed.

Lemma create_action_ok tact a e :
  edge_ok no_action tact never e ->
  edge_ok (fun _ => a) tact never (if is_none a then e else setAction a (reserve e)).
Proof.
  intros H. pose proof (setAction_ok _ _ _ (border e) a e H) as H1. rewrite bool_decide_true in H1 by done.
  unfold change_action, when in H1. change (is_none (no_action (border e))) with true in H1. cbv iota in H1.
  destruct (is_none a) eqn:Ha.
  - apply bool_decide_eq_true in Ha as ->. revert H. by apply edge_ok_ext.
  - destruct (reserve_frame e) as (Fb & _). revert H1. apply edge_ok_ext; [|done..].
    change (border (setAction a (reserve e))) with (border (reserve e)). by rewrite Fb, fn_lookup_insert.
Qed.

Lemma create_touch_ok act a e :
  edge_ok act no_action never e ->
  edge_ok act (fun _ => a) never (if is_none a then e else setTouchAction a (reserve e)).
Proof.
  intros H. pose proof (setTouchAction_ok _ _ _ (border e) a e H) as H1. rewrite bool_decide_true in H1 by done.
  unfold change_action, when in H1. change (is_none (no_action (border e))) with true in H1. cbv iota in H1.
  destruct (is_none a) eqn:Ha.
  - apply bool_decide_eq_true in Ha as ->. revert H. by apply edge_ok_ext.
  - destruct (reserve_frame e) as (Fb & _). revert H1. apply edge_ok_ext; [done| |done].
    destruct (setTouchAction_frame a (reserve e)) as (-> & _). by rewrite Fb, fn_lookup_insert.
Qed.

Lemma create_switch_ok act tact l e :
  EdgeManager.layout_empty l = false ->
  edge_ok act tact never e ->
  edge_ok act tact (fun b => isCorner b || l.1 && (isLeft b || isRight b) || l.2 && (isTop b || isBottom b))
    (if isCorner (border e) then reserve e
     else let e := if l.1 && (isLeft (border e) || isRight (border e)) then reserve e else e in
          if l.2 && (isTop (border e) || isBottom (border e)) then reserve e else e).
Proof.
  intros Hl H. set (sw := fun b => _).
  pose proof (switch_on_ok act tact never sw (sw (border e)) e eq_refl eq_refl H) as H1.
  unfold when in H1. destruct (reserve_frame e) as (Fb & _). unfold sw in H1 at 2. cbv zeta.
  destruct (border e) eqn:Hb, l as [[] []]; cbn in *; rewrite ?Fb, ?Hb; cbn; rewrite ?Fb, ?Hb; cbn; done.
Qed.

(** A field that neither reserving nor the actions touch keeps its value. *)
Lemma createEdge_field {A} (fld : Edge -> A) m b x y w h c :
  (forall e, fld (reserve e) = fld e) -> (forall a e, fld (setTouchAction a e) = fld e) ->
  (forall a e, fld (setAction a e) = fld e) ->
  fld (EdgeManager.createEdge m b x y w h c) =
  fld (setGeometry (ScreenEdges.cornerOffset (m_config m)) (mkRect x y w h) (EdgeManager.new_edge <| border := b |>)).
Proof.
  intros Hr Ht Ha. unfold EdgeManager.createEdge. set (e0 := setGeometry _ _ _). cbv zeta.
  repeat match goal with
    | |- fld (if ?c then _ else _) = _ => destruct c
    | |- fld (_ _) = _ => rewrite ?Hr, ?Ht, ?Ha
    end; done.
Qed.

Lemma createEdge_frame m b x y w h c :
  border (EdgeManager.createEdge m b x y w h c) = b /\ client (EdgeManager.createEdge m b x y w h c) = None /\
  callBacks (EdgeManager.createEdge m b x y w h c) = [].
Proof.
  rewrite !createEdge_field;
    try (intros; first [by destruct (setTouchAction_frame a e) as (? & ? & ? & ? & ? & ?)
                       |by destruct (reserve_frame e) as (? & ? & ? & ? & ? & ?)|done]).
  unfold setGeometry. by destruct (bool_decide _).
Qed.

Lemma createEdge_ok m b x y w h :
  (EdgeManager.isDesktopSwitching m = true -> EdgeManager.layout_empty (m_virtualDesktopLayout m) = false) ->
  b <> ElectricNone ->
  edge_ok (m_actions m) (touch_action m) (switches m) (EdgeManager.createEdge m b x y w h true).
Proof.
  intros Hl Hb. destruct (createEdge_frame m b x y w h true) as (Hbord & _). revert Hbord.
  unfold EdgeManager.createEdge.
  set (e0 := setGeometry _ _ _). pose proof (fresh_edge_ok (ScreenEdges.cornerOffset (m_config m)) (mkRect x y w h) b) as H0.
  fold e0 in H0. assert (border e0 = b) as Hb0 by apply fresh_frame. cbv iota zeta.
  assert (EdgeManager.actionForEdge m e0 = m_actions m b) as Ha.
  { unfold EdgeManager.actionForEdge. rewrite Hb0. by destruct b. }
  rewrite Ha. apply (create_action_ok _ (m_actions m b)) in H0.
  set (e1 := if is_none _ then _ else _) in *.
  assert (border e1 = b) as Hb1.
  { unfold e1. case_match; [done|]. destruct (setAction_frame (m_actions m b) (reserve e0)) as (-> & _). destruct (reserve_frame e0) as (-> & _). done. }
  unfold EdgeManager.actionForTouchEdge. rewrite Hb1. fold (touch_action m b).
  apply (create_touch_ok _ (touch_action m b)) in H0. set (e2 := if is_none (touch_action m b) then _ else _) in *.
  destruct (EdgeManager.isDesktopSwitching m) eqn:Hs.
  - apply (create_switch_ok _ _ (m_virtualDesktopLayout m)) in H0; [|by apply Hl].
    set (e3 := if isCorner (border e2) then _ else _) in *. intros E. cbv zeta in H0. revert H0.
    apply edge_ok_ext; rewrite E; [done..|]. unfold switches. by rewrite Hs, Hl.
  - intros E. revert H0. apply edge_ok_ext; rewrite E; [done..|]. by rewrite switches_off.
Qed.

(** The edge [b] with geometry [g] lies on its side or in its corner of [part]. *)
Definition on_side (part : QRect) (bg : ElectricBorder * QRect) : Prop :=
  let '(b, g) := bg in
  b <> ElectricNone /\ 0 < rw g /\ 0 < rh g /\
  left part <= left g /\ right g <= right part /\ top part <= top g /\ bottom g <= bottom part /\
  (isLeft b = true -> left g = left part /\ rw g = 1) /\ (isRight b = true -> right g = right part /\ rw g = 1) /\
  (isTop b = true -> top g = top part /\ rh g = 1) /\ (isBottom b = true -> bottom g = bottom part /\ rh g = 1).

Section PartEdges.
Variable screens : list QRect.
Variable c : Z.
Variable fullArea part : QRect.
Hypothesis Hc : 0 <= c.
Hypothesis Hpart : isValid part = true.

Lemma vertical_on_side b :
  b = ElectricLeft \/ b = ElectricRight ->
  Forall (on_side part) (EdgeManager.createVerticalEdge screens c b part fullArea).
Proof using Hc Hpart.
  apply isValid_spec in Hpart as [? ?]. unfold EdgeManager.createVerticalEdge.
  intros [-> | ->]; destruct (EdgeManager.isTopScreen _ _ _), (EdgeManager.isBottomScreen _ _ _);
    cbn [app]; case_match; cbn [app]; rewrite ?Z.leb_le, ?Z.leb_gt in *; repeat constructor;
    unfold right, bottom, left, top; cbn; try done; lia.
Qed.

Lemma horizontal_on_side b :
  b = ElectricTop \/ b = ElectricBottom ->
  Forall (on_side part) (EdgeManager.createHorizontalEdge screens c b part fullArea).
Proof using Hc Hpart.
  apply isValid_spec in Hpart as [? ?]. unfold EdgeManager.createHorizontalEdge.
  intros [-> | ->]; destruct (EdgeManager.isLeftScreen _ _ _), (EdgeManager.isRightScreen _ _ _);
    cbn [app]; case_match; cbn [app]; rewrite ?Z.leb_le, ?Z.leb_gt in *; repeat constructor;
    unfold right, bottom, left, top; cbn; try done; lia.
Qed.

Lemma part_edges_on_side : Forall (on_side part) (EdgeManager.part_edges screens c fullArea part).
Proof using Hc Hpart.
  unfold EdgeManager.part_edges. rewrite !Forall_app.
  repeat split; case_match; auto using vertical_on_side, horizontal_on_side.
Qed.
End PartEdges.

Definition borders_only (l : list (ElectricBorder * QRect)) : Prop := Forall (fun bg => bg.1 <> ElectricNone) l.

Lemma part_edges_border screens c fullArea part : borders_only (EdgeManager.part_edges screens c fullArea part).
Proof.
  unfold EdgeManager.part_edges, EdgeManager.createVerticalEdge, EdgeManager.createHorizontalEdge, borders_only.
  rewrite !Forall_app.
  destruct (EdgeManager.isLeftScreen _ _ _), (EdgeManager.isRightScreen _ _ _), (EdgeManager.isTopScreen _ _ _),
    (EdgeManager.isBottomScreen _ _ _); repeat split; rewrite ?Forall_app; repeat split; repeat case_match; by repeat constructor.
Qed.

Lemma create_edges_ok screens parts fullArea m :
  (EdgeManager.isDesktopSwitching m = true -> EdgeManager.layout_empty (m_virtualDesktopLayout m) = false) ->
  Forall (fun e => edge_ok (m_actions m) (touch_action m) (switches m) e /\ client e = None /\ callBacks e = [])
    (EdgeManager.create_edges screens parts fullArea m).
Proof.
  intros Hl. apply Forall_fmap, Forall_forall. intros [b g] Hin. cbn.
  apply list_elem_of_bind in Hin as (part & Hin & _). 
  pose proof (part_edges_border screens (ScreenEdges.cornerOffset (m_config m)) fullArea part) as Hb.
  eapply (proj1 (Forall_forall _ _)) in Hb; [|exact Hin].
  destruct (createEdge_frame m b (rx g) (ry g) (rw g) (rh g) true) as (_ & ? & ?). auto using createEdge_ok.
Qed.

(** ** Handing over reservations *)

Section Copy.
Variable act tact : ElectricBorder -> ElectricBorderAction.
Variable sw : ElectricBorder -> bool.

Definition handed_over (b : ElectricBorder) (olds : list Edge) : list qobject :=
  filter (fun e => border e = b /\ client e = None) olds ≫= callBacks.

Lemma copy_reservations_ok old e :
  client e = None -> NoDup (callBacks e ++ handed_over (border e) [old]) -> edge_ok act tact sw e ->
  let e' := EdgeManager.copy_reservations e old in
  edge_ok act tact sw e' /\ client e' = None /\ border e' = border e /\
  callBacks e' = callBacks e ++ handed_over (border e) [old].
Proof.
  intros Hc Hd Hok. unfold EdgeManager.copy_reservations, handed_over in *. rewrite filter_cons in *.
  destruct (client old) eqn:Ho.
  { rewrite decide_False in * by naive_solver. cbn in *. by rewrite app_nil_r. }
  destruct (bool_decide_reflect (border old = border e)) as [Hb|Hb].
  - rewrite decide_True in * by done. cbn in *. rewrite app_nil_r in *.
    apply NoDup_app in Hd as (? & Hdis & ?).
    destruct (reserve_objects_ok act tact sw (callBacks old) e) as (H1 & H2 & H3 & H4); [done..| |done|].
    { intros o Ho1 Ho2. by eapply Hdis. }
    destruct (reserve_touches_ok act tact sw (touchActions old) _ H1) as (K1 & K2 & K3 & K4).
    by rewrite K2, K3, K4, H2, H3, H4.
  - rewrite decide_False in * by naive_solver. cbn in *. by rewrite app_nil_r.
Qed.

Lemma handed_over_cons b old olds : handed_over b (old :: olds) = handed_over b [old] ++ handed_over b olds.
Proof.
  unfold handed_over. rewrite !filter_cons. destruct (decide _); [|done]. cbn. by rewrite app_nil_r.
Qed.

Lemma copy_all_ok olds e :
  client e = None -> NoDup (callBacks e ++ handed_over (border e) olds) -> edge_ok act tact sw e ->
  edge_ok act tact sw (foldl EdgeManager.copy_reservations e olds).
Proof.
  revert e. induction olds as [|old olds IH]; intros e Hc Hd Hok; cbn [foldl]; [done|].
  rewrite handed_over_cons, app_assoc in Hd. pose proof Hd as (Hd1 & _ & _)%NoDup_app.
  destruct (copy_reservations_ok old e Hc Hd1 Hok) as (H1 & H2 & H3 & H4).
  apply IH; [done| |done]. by rewrite H3, H4.
Qed.
End Copy.

Lemma recreateEdges_ok screens parts fullArea m :
  allowed (EdgeManager.EvRecreate screens parts fullArea) m ->
  manager_ok (EdgeManager.recreateEdges screens parts fullArea m).1.
Proof.
  intros [Hl Hd]. unfold manager_ok. cbn. apply Forall_fmap.
  eapply Forall_impl; [by apply create_edges_ok|]. intros e (Hok & Hc & Hk). cbn.
  apply copy_all_ok; [done| |done]. rewrite Hk. apply Hd.
Qed.

(** ** The remaining events *)

Lemma createEdgeForClient_ok screens fullArea geo w b m :
  manager_ok m -> manager_ok (EdgeManager.createEdgeForClient screens fullArea geo w b m).1.
Proof.
  intros H. unfold EdgeManager.createEdgeForClient. case_match; [|done]. apply manager_ok_edges, Forall_app.
  split; [done|]. apply Forall_singleton, with_client_ok.
  match goal with |- client (reserve ?x) <> None => destruct (reserve_frame x) as (_ & -> & _) end.
  unfold setClient.
  match goal with |- client (touch_changed ?b ?x) <> None => destruct (touch_changed_frame b x) as (_ & -> & _) end. done.
Qed.

Lemma deleteEdgeForClient_ok w m : manager_ok m -> manager_ok (EdgeManager.deleteEdgeForClient w m).
Proof.
  unfold manager_ok at 1. intros H. apply manager_ok_edges. rewrite Forall_forall in *.
  intros e [_ He]%list_elem_of_filter. by apply H.
Qed.

Lemma reserve_client_ok screens fullArea geo w b m :
  manager_ok m -> manager_ok (EdgeManager.reserve_client screens fullArea geo w b m).1.
Proof.
  intros H. unfold EdgeManager.reserve_client. case_match; [by apply deleteEdgeForClient_ok|].
  by apply createEdgeForClient_ok, deleteEdgeForClient_ok.
Qed.

Lemma on_border_ok (b : ElectricBorder) f m :
  (forall e, e ∈ m_edges m -> border e = b ->
     edge_ok (m_actions m) (touch_action m) (switches m) e -> edge_ok (m_actions m) (touch_action m) (switches m) (f e)) ->
  manager_ok m -> manager_ok (m <| m_edges := EdgeManager.on_border b f (m_edges m) |>).
Proof.
  intros Hf H. apply manager_ok_edges. eapply Forall_map_ok; [|exact H]. intros e He Hok.
  destruct (bool_decide_reflect (border e = b)); auto.
Qed.

Lemma all_edges_ok f m :
  (forall e, edge_ok (m_actions m) (touch_action m) (switches m) e ->
             edge_ok (m_actions m) (touch_action m) (switches m) (f e)) ->
  manager_ok m -> manager_ok (m <| m_edges := f <$> m_edges m |>).
Proof. intros Hf H. apply manager_ok_edges. eapply Forall_map_ok; [|exact H]. auto. Qed.

(** Changes of the configuration alone. *)
Lemma config_ok m m' :
  m_edges m' = m_edges m -> m_actions m' = m_actions m -> m_touchActions m' = m_touchActions m ->
  m_virtualDesktopLayout m' = m_virtualDesktopLayout m ->
  EdgeManager.isDesktopSwitching m' = EdgeManager.isDesktopSwitching m -> manager_ok m -> manager_ok m'.
Proof.
  unfold manager_ok. intros -> -> Ht Hl Hs H. eapply Forall_impl; [exact H|]. intros e. apply edge_ok_ext.
  - done.
  - unfold touch_action. by rewrite Ht.
  - unfold switches. by rewrite Hl, Hs.
Qed.

Lemma foldl_manager_ok {A} (f : EM -> A -> EM) l m :
  (forall m a, manager_ok m -> manager_ok (f m a)) -> manager_ok m -> manager_ok (foldl f m l).
Proof. intros Hf. revert m. induction l; cbn; auto. Qed.

Lemma set_switching_ok v m : manager_ok m -> manager_ok (EdgeManager.set_switching v m).
Proof.
  intros H. unfold EdgeManager.set_switching.
  repeat case_match; try done; (eapply config_ok; [..|by apply setDesktopSwitching_ok, H]; done).
Qed.

Lemma reconfigure_ok cfg m : manager_ok m -> manager_ok (EdgeManager.reconfigure cfg m).
Proof.
  intros H. unfold EdgeManager.reconfigure. destruct cfg as [c|]; [|done].
  apply foldl_manager_ok; [intros; by apply setActionForTouchBorder_ok|].
  apply foldl_manager_ok; [intros; by apply setActionForBorder_ok|].
  eapply config_ok; [..|apply set_switching_ok, (config_ok m (EdgeManager.set_thresholds (c.(EdgeManager.c_delay))
    (c.(EdgeManager.c_cooldown)) m)); [..|exact H]]; done.
Qed.

Lemma step_ok cb ev m : allowed ev m -> manager_ok m -> manager_ok (step cb ev m).
Proof.
  intros Hev H. destruct ev; cbn [step].
  - by apply setActionForBorder_ok.
  - by apply setActionForTouchBorder_ok.
  - by apply reconfigure_ok.
  - by apply setDesktopSwitching_ok.
  - by apply edges_updateLayout_ok.
  - apply on_border_ok; [|done]. intros e He Hb Hok. destruct (client e) eqn:Hc.
    + apply with_client_ok. destruct (reserve_object_frame o e) as (-> & _). congruence.
    + apply reserve_object_ok; [|done..]. intros _. by apply Hev.
  - apply on_border_ok; [|done]. auto using unreserve_object_ok.
  - apply on_border_ok; [|done]. auto using reserveTouch_ok.
  - apply on_border_ok; [|done]. auto using unreserveTouch_ok.
  - apply all_edges_ok; [|done]. apply unreserve_object_ok.
  - apply all_edges_ok; [|done]. apply unreserveTouch_ok.
  - by apply reserve_client_ok.
  - by apply deleteEdgeForClient_ok.
  - by apply recreateEdges_ok.
  - apply all_edges_ok; [|done]. intros e Hok. case_match; [by apply checkBlocking_ok|done].
  - by apply (config_ok m).
  - unfold EdgeManager.check. pose proof (check_all_ok _ _ _ (m_config m) cb p t forceNoPushBack false _ H) as H1.
    destruct (check_all _ _ _ _ _ _ _). by apply manager_ok_edges.
  - unfold EdgeManager.entered. pose proof (isEntered_ok _ _ _ (m_config m) cb p t _ H) as H1.
    destruct (isEntered _ _ _ _ _). by apply manager_ok_edges.
Qed.

Lemma run_ok cb evs m : all_allowed cb evs m -> manager_ok m -> manager_ok (run cb evs m).
Proof. revert m. induction evs; cbn; [done|]. intros m [? ?] ?. eauto using step_ok. Qed.


(** ** Witness and boundary behaviour *)

Definition one_screen : list QRect := [mkRect 0 0 100 80].
Definition screen_of_100 : Event := EdgeManager.EvRecreate one_screen one_screen (mkRect 0 0 100 80).
Definition demo_events : list Event :=
  [EdgeManager.EvLayout (mkSize 2 1); EdgeManager.EvSwitching true; EdgeManager.EvAction ElectricTop ElectricActionKRunner;
   screen_of_100; EdgeManager.EvReserve ElectricTop 7; EdgeManager.EvTouch ElectricTop 8;
   EdgeManager.EvAction ElectricTop ElectricActionNone; screen_of_100].

(** The reservation counts of the edges of a border. *)
Definition counts (b : ElectricBorder) (m : EM) : list Z := reserved <$> filter (fun e => border e = b) (m_edges m).


(** Corners are reserved for switching desktops when they are created although there is
    only one desktop, and again when there are more. *)
Example corners_reserved_twice :
  counts ElectricTopLeft (run (fun _ => true)
    [EdgeManager.EvSwitching true; screen_of_100; EdgeManager.EvLayout (mkSize 2 1)] (EdgeManager.initial 10)) = [2].
Proof. reflexivity. Qed.

(** Two edges of a border hand the same callback over to a new edge twice; its end releases
    only one reservation. *)
Example merged_edges_leak :
  let two := [mkRect 0 0 100 80; mkRect 0 80 100 80] in
  counts ElectricLeft (run (fun _ => true)
    [EdgeManager.EvRecreate two two (mkRect 0 0 100 160); EdgeManager.EvReserve ElectricLeft 7; screen_of_100;
     EdgeManager.EvDestroyed 7] (EdgeManager.initial 10)) = [1].
Proof. reflexivity. Qed.

(** An object that reserves a border twice and releases it leaves a reservation. *)
Example reserving_twice_leaks :
  counts ElectricTop (run (fun _ => true)
    [screen_of_100; EdgeManager.EvReserve ElectricTop 7; EdgeManager.EvReserve ElectricTop 7;
     EdgeManager.EvUnreserve ElectricTop 7] (EdgeManager.initial 10)) = [1].
Proof. reflexivity. Qed.

(** A touch action on an edge that is reserved already does not register the gesture. *)
Example touch_action_not_registered :
  let m := run (fun _ => true)
    [EdgeManager.EvAction ElectricTop ElectricActionKRunner; screen_of_100; EdgeManager.EvTouch ElectricTop 8]
    (EdgeManager.initial 10) in
  (fun e => (activatesForTouchGesture e, registered e)) <$> filter (fun e => border e = ElectricTop) (m_edges m)
  = [(true, false)].
Proof. reflexivity. Qed.

(** The edge of a hidden window is given up when the action of its border is removed. *)
Example window_edge_released :
  let m := run (fun _ => true)
    [EdgeManager.EvAction ElectricTop ElectricActionKRunner; screen_of_100;
     EdgeManager.EvClient one_screen (mkRect 0 0 100 80) (mkRect 0 0 100 20) 3 ElectricTop;
     EdgeManager.EvAction ElectricTop ElectricActionNone] (EdgeManager.initial 10) in
  (fun e => (client e, reserved e, active e)) <$> filter (fun e => client e = Some 3%nat) (m_edges m)
  = [(Some 3%nat, 0, false)].
Proof. reflexivity. Qed.

End ScreenEdgesProps.
