(* ===== verification/EdgeTriggerProps.v ===== *)
(** * When a screen edge triggers

    The pointer must hit an edge twice, the second time neither too early nor too late, and
    a triggered edge rests; a pointer held at the edge triggers it. Which edges the screens
    get, and how near the pointer is said to be. *)

From S2P Require Import Prelude Qt WorkArea ScreenEdges EdgeManager ScreenEdgesFacts ScreenEdgesProps.

Module EdgeTriggerProps.
Import Qt ScreenEdges ScreenEdgesFacts ScreenEdgesProps.
Import WorkArea(manhattanLength).
Import EdgeManager(m_config, m_edges).

Section Timing.
Variable cfg : Config.
Variable cb : qobject -> bool.

(** The outcomes of checking an edge at a sequence of points and times. *)
Fixpoint outcomes (l : list (QPoint * Z)) (e : Edge) : list bool :=
  match l with
  | [] => []
  | (p, t) :: l' => let '(e', _, r) := check cfg cb p t false e in r :: outcomes l' e'
  end.

Fixpoint sorted_from (t0 : Z) (l : list (QPoint * Z)) : Prop :=
  match l with [] => True | (_, t) :: l' => t0 <= t /\ sorted_from t l' end.

(** What one check does to an edge that pushes the pointer back. *)
Inductive Checked (p : QPoint) (t : Z) (e : Edge) : Edge -> bool -> Prop :=
  | checked_ignored : triggersFor cfg p e = false \/ in_cooldown cfg t e = true -> Checked p t e e false
  | checked_first e' : triggersFor cfg p e = true -> in_cooldown cfg t e = false ->
      (forall r, lastReset e = Some r -> reActivationThreshold cfg < t - r) ->
      e' = e <| lastReset := Some t |> <| triggeredPoint := p |> -> Checked p t e e' false
  | checked_refused r e' : triggersFor cfg p e = true -> in_cooldown cfg t e = false -> lastReset e = Some r ->
      t - r <= reActivationThreshold cfg ->
      t - r < timeThreshold cfg \/ DISTANCE_RESET < manhattanLength (psub p (triggeredPoint e)) ->
      e' = e <| triggeredPoint := p |> -> Checked p t e e' false
  | checked_triggered r e' : triggersFor cfg p e = true -> in_cooldown cfg t e = false -> lastReset e = Some r ->
      timeThreshold cfg <= t - r <= reActivationThreshold cfg ->
      manhattanLength (psub p (triggeredPoint e)) <= DISTANCE_RESET ->
      e' = markAsTriggered p t e -> Checked p t e e' true.

Lemma handle_keeps p e : client e = None -> (handle cfg cb p e).1 = e.
Proof.
  intros Hc. unfold handle. destruct (_ || _); [done|]. destruct (moveResizeClient cfg); [done|]. rewrite Hc.
  destruct (handleAction _) as [? r1]. destruct (if r1 then _ else _) as [? []]; [done|]. by destruct (_ && _).
Qed.

Lemma check_spec p t e :
  client e = None -> size_isNull (cursorPushBackDistance cfg) = false ->
  Checked p t e (check cfg cb p t false e).1.1 (check cfg cb p t false e).2.
Proof.
  intros Hc Hs. unfold check. rewrite Hc, Hs. cbn [orb bool_decide].
  destruct (triggersFor cfg p e) eqn:Htr; cbn [negb]; [|by constructor; left].
  destruct (in_cooldown cfg t e) eqn:Hcd; [by constructor; right|].
  rewrite bool_decide_false by (by intros [? ?]). cbv iota. unfold canActivate. rewrite Hcd.
  destruct (lastReset e) as [r|] eqn:Hr.
  - destruct (Z.ltb_spec (reActivationThreshold cfg) (t - r)).
    { eapply checked_first; [done..| |done]. intros r' Hr'. assert (r' = r) by congruence. lia. }
    destruct (Z.ltb_spec (t - r) (timeThreshold cfg)); [by eapply checked_refused; eauto|].
    destruct (Z.ltb_spec DISTANCE_RESET (manhattanLength (psub p (triggeredPoint e)))); [by eapply checked_refused; eauto|].
    pose proof (handle_keeps p (markAsTriggered p t e) Hc) as Hk.
    destruct (handle cfg cb p _) as [e2 fx]. cbn [fst snd] in *. subst. by eapply checked_triggered; eauto.
  - eapply checked_first; [done..| |done]. intros r' Hr'. congruence.
Qed.

(** What the checks of an edge never change. *)
Definition stable (e e' : Edge) : Prop :=
  client e' = client e /\ forall p, triggersFor cfg p e' = triggersFor cfg p e.

Lemma Checked_stable p t e e' r : Checked p t e e' r -> stable e e'.
Proof. intros []; subst; by split. Qed.

Lemma outcomes_cons p t l e :
  outcomes ((p, t) :: l) e = (check cfg cb p t false e).2 :: outcomes l (check cfg cb p t false e).1.1.
Proof. cbn. by destruct (check cfg cb p t false e) as [[? ?] ?]. Qed.

Hypothesis Hpush : size_isNull (cursorPushBackDistance cfg) = false.

(** A trigger after one at [T] keeps the distance of the cooldown. *)
Lemma trigger_rests l e T k p t :
  client e = None -> lastTrigger e = Some T -> sorted_from T l ->
  l !! k = Some (p, t) -> outcomes l e !! k = Some true ->
  reActivationThreshold cfg - timeThreshold cfg <= t - T.
Proof using Hpush.
  revert e T k. induction l as [|[p0 t0] l IH]; intros e T k Hc HT Hs Hk Ho; [done|].
  rewrite outcomes_cons in Ho. destruct Hs as [Ht Hs].
  pose proof (check_spec p0 t0 e Hc Hpush) as Hspec.
  destruct (check cfg cb p0 t0 false e) as [[e' fx] r]. cbn [fst snd] in *.
  pose proof (Checked_stable _ _ _ _ _ Hspec) as [Hc' _].
  assert (r = true -> reActivationThreshold cfg - timeThreshold cfg <= t0 - T) as Hhead.
  { destruct Hspec as [| | |r' e' ? Hcd]; try done. intros _. unfold in_cooldown in Hcd. rewrite HT in Hcd. lia. }
  destruct k as [|k]; cbn in Hk, Ho.
  { simplify_eq. auto. }
  assert (forall T', T <= T' <= t0 -> lastTrigger e' = Some T' ->
    reActivationThreshold cfg - timeThreshold cfg <= t - T') as Hrec.
  { intros T' HT' HlT. apply (IH e' T' k); [congruence|done| |done..].
    destruct l as [|[p1 t1] l]; [done|]. destruct Hs as [? Hs]. split; [lia|done]. }
  destruct r.
  - assert (lastTrigger e' = Some t0) as Hl by (inversion Hspec; subst; done). specialize (Hrec t0 ltac:(lia) Hl). lia.
  - assert (lastTrigger e' = Some T) as Hl by (inversion Hspec; subst; done). apply Hrec; [lia|done].
Qed.

(** A trigger comes from a hit in between the two thresholds before, recorded in the edge
    or seen in the sequence. *)
Lemma trigger_reason l e k p t :
  client e = None -> l !! k = Some (p, t) -> outcomes l e !! k = Some true ->
  (exists r, lastReset e = Some r /\ timeThreshold cfg <= t - r <= reActivationThreshold cfg /\
     forall i, (i < k)%nat -> outcomes l e !! i = Some false) \/
  (exists j p' t', (j < k)%nat /\ l !! j = Some (p', t') /\ triggersFor cfg p' e = true /\
     timeThreshold cfg <= t - t' <= reActivationThreshold cfg /\
     forall i, (j <= i < k)%nat -> outcomes l e !! i = Some false).
Proof using Hpush.
  revert e k. induction l as [|[p0 t0] l IH]; intros e k Hc Hk Ho; [done|].
  rewrite outcomes_cons in *. pose proof (check_spec p0 t0 e Hc Hpush) as Hspec.
  destruct (check cfg cb p0 t0 false e) as [[e' fx] r]. cbn [fst snd] in *.
  pose proof (Checked_stable _ _ _ _ _ Hspec) as [Hc' Htr].
  destruct k as [|k]; cbn in Hk, Ho.
  { simplify_eq. left. inversion Hspec; subst. eexists. repeat split; [done|lia..|]. intros i Hi. lia. }
  destruct (IH e' k ltac:(congruence) Hk Ho) as [(r0 & Hr0 & Ht & Hno)|(j & p' & t' & Hj & Hl & Hhit & Ht & Hno)].
  - assert (r = false -> forall i, (i < S k)%nat -> (r :: outcomes l e') !! i = Some false) as Hall.
    { intros -> [|i] Hi; [done|]. cbn. apply Hno. lia. }
    inversion Hspec; subst; cbn in Hr0; simplify_eq.
    + left. exists r0. split; [done|]. split; [done|]. by apply Hall.
    + right. exists 0%nat, p0, r0. split_and!; [lia|done|done|lia|lia|]. intros i Hi. apply Hall; [done|lia].
    + left. exists r0. split; [done|]. split; [done|]. by apply Hall.
  - right. exists (S j), p', t'. rewrite <- Htr. split_and!; [lia|done|done|lia|lia|].
    intros [|i] Hi; [lia|]. cbn. apply Hno. lia.
Qed.

Lemma sorted_drop t0 l j p t : sorted_from t0 l -> l !! j = Some (p, t) -> sorted_from t (drop (S j) l).
Proof.
  revert t0 j. induction l as [|[p0 t1] l IH]; intros t0 [|j] Hs Hj; try done; destruct Hs as [_ Hs].
  - cbn in *. by simplify_eq.
  - cbn in Hj. by eapply IH.
Qed.

(** The state of the edge after some checks. *)
Fixpoint after (l : list (QPoint * Z)) (e : Edge) : Edge :=
  match l with [] => e | (p, t) :: l' => after l' (check cfg cb p t false e).1.1 end.

Lemma outcomes_drop j l e : drop j (outcomes l e) = outcomes (drop j l) (after (take j l) e).
Proof.
  revert l e. induction j as [|j IH]; intros [|[p t] l] e; try done. rewrite outcomes_cons. cbn. apply IH.
Qed.

Lemma after_client l e : client e = None -> client (after l e) = None.
Proof using Hpush.
  revert e. induction l as [|[p t] l IH]; intros e Hc; [done|]. cbn. apply IH.
  pose proof (check_spec p t e Hc Hpush) as H%Checked_stable. by destruct H as [-> _].
Qed.

Lemma after_trigger j l e p t :
  client e = None -> l !! j = Some (p, t) -> outcomes l e !! j = Some true ->
  lastTrigger (after (take (S j) l) e) = Some t.
Proof using Hpush.
  revert j e. induction l as [|[p0 t0] l IH]; intros j e Hc Hj Ho; [done|].
  rewrite outcomes_cons in Ho. pose proof (check_spec p0 t0 e Hc Hpush) as Hspec. cbn [take after].
  destruct (check cfg cb p0 t0 false e) as [[e' fx] r]. cbn [fst snd] in *.
  pose proof (Checked_stable _ _ _ _ _ Hspec) as [Hc' _].
  destruct j as [|j]; cbn in Hj, Ho; [|apply IH; [congruence|done..]].
  simplify_eq. cbn. inversion Hspec; subst; done.
Qed.


(** ** A pointer held at the edge *)

Fixpoint held (q : QPoint) (l : list (QPoint * Z)) (e : Edge) : Prop :=
  match l with
  | [] => True
  | (p, _) :: l' => triggersFor cfg p e = true /\ manhattanLength (psub p q) <= DISTANCE_RESET /\ held p l' e
  end.

Lemma held_stable q l e e' : stable e e' -> held q l e -> held q l e'.
Proof. intros [_ Hs]. revert q. induction l as [|[p t] l IH]; intros q; [done|]. cbn. rewrite Hs. naive_solver. Qed.

Lemma in_cooldown_mono t t' e : t <= t' -> in_cooldown cfg t e = false -> in_cooldown cfg t' e = false.
Proof. unfold in_cooldown. destruct (lastTrigger e); [|done]. rewrite !Z.ltb_ge. lia. Qed.

(** The edge remembers its first hit, which was not long ago. *)
Ltac ignored_hit :=
  match goal with H : triggersFor _ _ _ = false \/ in_cooldown _ _ _ = true |- _ => destruct H; congruence end.
Ltac remembered Hr :=
  match goal with Hf : _ |- _ => specialize (Hf _ Hr) end.

Lemma held_waits l e r t0 k p t :
  client e = None -> lastReset e = Some r -> in_cooldown cfg t0 e = false -> sorted_from t0 l ->
  held (triggeredPoint e) l e -> l !! k = Some (p, t) ->
  (forall i p' t', (i < k)%nat -> l !! i = Some (p', t') -> t' - r < timeThreshold cfg) ->
  timeThreshold cfg <= t - r <= reActivationThreshold cfg ->
  outcomes l e !! k = Some true /\ forall i, (i < k)%nat -> outcomes l e !! i = Some false.
Proof using Hpush.
  revert e t0 k. induction l as [|[p0 t1] l IH]; intros e t0 k Hc Hr Hcd Hs Hheld Hk Hearly Ht; [done|].
  destruct Hs as [Hle Hs].
  rewrite outcomes_cons. pose proof (check_spec p0 t1 e Hc Hpush) as Hspec.
  destruct (check cfg cb p0 t1 false e) as [[e' fx] o]. cbn [fst snd] in *.
  pose proof (Checked_stable _ _ _ _ _ Hspec) as Hst. destruct Hheld as (Hhit & Hdist & Hheld).
  pose proof (in_cooldown_mono _ t1 _ Hle Hcd) as Hcd1.
  destruct k as [|k]; cbn in Hk.
  - simplify_eq. split; [|intros i Hi; lia]. cbn. f_equal.
    inversion Hspec; subst; try done; [by ignored_hit|..].
    + remembered Hr. lia.
    + simplify_eq. lia.
  - pose proof (Hearly 0%nat _ _ ltac:(lia) eq_refl) as He0.
    assert (o = false /\ e' = e <| triggeredPoint := p0 |>) as [-> ->].
    { assert (t1 <= t) as Ht1.
      { clear -Hs Hk. revert t1 k Hs Hk. induction l as [|[q s] l IH]; intros t1 [|k] Hs Hk; try done;
          destruct Hs as [? Hs]; cbn in Hk; simplify_eq; [done|]. etrans; [done|]. by eapply IH. }
      inversion Hspec; subst; try done; [by ignored_hit|..].
      - remembered Hr. lia.
      - simplify_eq. lia. }
    destruct (IH (e <| triggeredPoint := p0 |>) t1 k) as [H1 H2]; try done.
    + by eapply held_stable.
    + intros i p' t' Hi Hl. by apply (Hearly (S i) p' t'); [lia|].
    + split; [done|]. intros [|i] Hi; [done|]. cbn. apply H2. lia.
Qed.

(** A pointer held at an edge triggers it: if the pointer hits an edge that has not
    been hit before and rests no longer, and goes on hitting it without jumps of more than
    30 pixels, the edge is triggered at the first hit that comes the time threshold after
    the first one (unless it comes only after the reactivation threshold), and not
    before. *)
Theorem held_pointer_triggers p0 t0 l e k p t :
  client e = None -> lastReset e = None -> in_cooldown cfg t0 e = false -> 0 < timeThreshold cfg ->
  triggersFor cfg p0 e = true -> sorted_from t0 l -> held p0 l e -> l !! k = Some (p, t) ->
  (forall i p' t', (i < k)%nat -> l !! i = Some (p', t') -> t' - t0 < timeThreshold cfg) ->
  timeThreshold cfg <= t - t0 <= reActivationThreshold cfg ->
  outcomes ((p0, t0) :: l) e !! S k = Some true /\
  forall i, (i < S k)%nat -> outcomes ((p0, t0) :: l) e !! i = Some false.
Proof using Hpush.
  intros Hc Hr Hcd Hthr Hhit Hs Hheld Hk Hearly Ht. rewrite outcomes_cons.
  pose proof (check_spec p0 t0 e Hc Hpush) as Hspec.
  destruct (check cfg cb p0 t0 false e) as [[e' fx] o]. cbn [fst snd] in *.
  assert (o = false /\ e' = e <| lastReset := Some t0 |> <| triggeredPoint := p0 |>) as [-> ->].
  { inversion Hspec; subst; try done; [by ignored_hit|congruence..]. }
  destruct (held_waits l (e <| lastReset := Some t0 |> <| triggeredPoint := p0 |>) t0 t0 k p t) as [H1 H2]; try done.
  { apply (held_stable p0 l e); [split; [done|intros q; reflexivity]|exact Hheld]. }
  split; [done|]. intros [|i] Hi; [done|]. cbn. apply H2. lia.
Qed.
End Timing.

(** ** Witnesses *)

Definition demo_config : Config := mkConfig 150 350 (mkSize 1 1) false false None 10.
Definition top_edge : Edge :=
  mkEdge ElectricTop ElectricActionKRunner ElectricActionNone 1 (mkRect 10 0 80 1) (mkRect 20 0 60 10) None None
    (mkPoint 0 0) [] false 0 false false None [] true false.
Definition demo_run : list (QPoint * Z) :=
  [(mkPoint 50 0, 1000); (mkPoint 51 0, 1100); (mkPoint 52 0, 1200); (mkPoint 52 0, 1300); (mkPoint 52 0, 1400);
   (mkPoint 52 0, 1600)].

Example demo_outcomes : outcomes demo_config (fun _ => true) demo_run top_edge = [false; false; true; false; false; true].
Proof. reflexivity. Qed.


Lemma held_pointer_triggers_witness :
  outcomes demo_config (fun _ => true) demo_run top_edge !! 2%nat = Some true /\
  forall i, (i < 2)%nat -> outcomes demo_config (fun _ => true) demo_run top_edge !! i = Some false.
Proof.
  apply (held_pointer_triggers demo_config (fun _ => true) eq_refl (mkPoint 50 0) 1000 (tail demo_run) top_edge 1
           (mkPoint 52 0) 1200); try reflexivity.
  - cbn. lia.
  - repeat split; vm_compute; discriminate.
  - intros [|i] p' t' Hi; cbn; [|lia]. intros ?. simplify_eq. cbn. lia.
  - cbn. lia.
Defined.

(** ** The edges of the screens *)

Lemma recreated_frame olds e :
  let e' := foldl EdgeManager.copy_reservations e olds in
  border e' = border e /\ client e' = client e /\ geometry e' = geometry e /\ approachGeometry e' = approachGeometry e.
Proof.
  assert (forall e, geometry (reserve e) = geometry e /\ approachGeometry (reserve e) = approachGeometry e) as Hg
    by (intros x; unfold reserve, activate; repeat case_match; done).
  assert (forall l e, let e' := foldl (fun e o => reserve_object o e) e l in
    border e' = border e /\ client e' = client e /\ geometry e' = geometry e /\ approachGeometry e' = approachGeometry e)
    as Hobj.
  { intros l. induction l as [|o l IH]; intros x; cbn; [done|]. destruct (IH (reserve_object o x)) as (-> & -> & -> & ->).
    destruct (reserve_object_frame o x) as (-> & -> & _). unfold reserve_object.
    by destruct (Hg (x <| callBacks := insert_callback o (callBacks x) |>)) as [-> ->]. }
  assert (forall l e, let e' := foldl (fun e a => reserveTouchCallBack a e) e l in
    border e' = border e /\ client e' = client e /\ geometry e' = geometry e /\ approachGeometry e' = approachGeometry e)
    as Htouch.
  { intros l. induction l as [|o l IH]; intros x; cbn; [done|].
    destruct (IH (reserveTouchCallBack o x)) as (-> & -> & -> & ->).
    unfold reserveTouchCallBack. destruct (decide _); [done|].
    destruct (reserve_frame (x <| touchActions := touchActions x ++ [o] |>)) as (-> & -> & _).
    by destruct (Hg (x <| touchActions := touchActions x ++ [o] |>)) as [-> ->]. }
  revert e. induction olds as [|o olds IH]; intros e; cbn; [done|].
  destruct (IH (EdgeManager.copy_reservations e o)) as (-> & -> & -> & ->). unfold EdgeManager.copy_reservations.
  destruct (client o); [done|]. case_match; [|done].
  destruct (Htouch (touchActions o) (foldl (fun e o => reserve_object o e) e (callBacks o))) as (-> & -> & -> & ->).
  apply Hobj.
Qed.

Lemma createEdge_geometry m b x y w h c :
  0 < w -> geometry (EdgeManager.createEdge m b x y w h c) = mkRect x y w h /\
  approachGeometry (EdgeManager.createEdge m b x y w h c) =
    approach_geometry b (cornerOffset (m_config m)) (mkRect x y w h).
Proof.
  intros Hw. rewrite !createEdge_field;
    try (intros; unfold setTouchAction, touch_changed, reserve, activate; by repeat case_match).
  unfold setGeometry. rewrite bool_decide_false; [done|]. cbn. intros [=]. lia.
Qed.

(** The edges that are created for the screens are well formed: however the screens are
    arranged, each edge belongs to a border or corner, is no window's, lies on that side or
    in that corner of one of the rectangles the screens consist of, one pixel thick and
    never empty (so the assertions of createEdge hold), and its approach area is that of its
    geometry. *)
Theorem created_edges_wf screens parts fullArea m e :
  0 <= cornerOffset (m_config m) -> Forall (fun part => isValid part = true) parts ->
  e ∈ m_edges (EdgeManager.recreateEdges screens parts fullArea m).1 ->
  client e = None /\
  (exists part, part ∈ parts /\ on_side part (border e, geometry e)) /\
  EdgeManager.createEdge_asserts (rw (geometry e)) (rh (geometry e)) = true /\
  approachGeometry e = approach_geometry (border e) (cornerOffset (m_config m)) (geometry e).
Proof.
  intros Hc Hparts He. cbn in He. apply list_elem_of_fmap in He as (e0 & -> & He0).
  apply list_elem_of_fmap in He0 as ([b g] & -> & Hin). apply list_elem_of_bind in Hin as (part & Hin & Hpart).
  rewrite Forall_forall in Hparts. pose proof (part_edges_on_side screens _ fullArea part Hc (Hparts _ Hpart)) as Hs.
  rewrite Forall_forall in Hs. specialize (Hs _ Hin). pose proof Hs as (Hb & Hw & Hh & _).
  destruct (recreated_frame (m_edges m) (EdgeManager.createEdge m b (rx g) (ry g) (rw g) (rh g) true))
    as (-> & -> & -> & ->).
  destruct (createEdge_frame m b (rx g) (ry g) (rw g) (rh g) true) as (-> & -> & _).
  destruct (createEdge_geometry m b (rx g) (ry g) (rw g) (rh g) true Hw) as [-> ->].
  split; [done|]. destruct g as [x y w h]. cbn [rx ry rw rh] in *. split; [by exists part|]. split; [|done].
  unfold EdgeManager.createEdge_asserts. lia.
Qed.

Lemma created_edges_wf_witness :
  let m := EdgeManager.initial 10 in
  let screens := [mkRect 0 0 100 80; mkRect 100 0 60 40] in
  length (m_edges (EdgeManager.recreateEdges screens screens (mkRect 0 0 160 80) m).1) = 10%nat /\
  Forall (fun e => client e = None) (m_edges (EdgeManager.recreateEdges screens screens (mkRect 0 0 160 80) m).1).
Proof.
  intros m screens. split; [reflexivity|]. apply Forall_forall. intros e He.
  eapply (created_edges_wf screens screens (mkRect 0 0 160 80) m e); [cbn; lia| |exact He]. by repeat constructor.
Defined.

(** ** How near the pointer is *)

Lemma part_bounds size d : 0 < size -> 0 <= d < size -> 0 <= Z.quot (Z.shiftl d 8) size < 256.
Proof.
  intros Hs Hd. rewrite Z.shiftl_mul_pow2 by lia. rewrite Z.quot_div_nonneg by lia.
  split; [apply Z.div_pos; lia|]. apply Z.div_lt_upper_bound; lia.
Qed.

(** CX: the strength with which an edge is said to be approached is a positive number of at
    most 256 (a part of 256) as long as the pointer is in the approach area. *)
Theorem approach_factor_range b size g p :
  0 < size -> b <> ElectricNone -> isValid (approach_geometry b size g) = true ->
  contains_point (approach_geometry b size g) p = true ->
  1 <= approach_factor b size (approach_geometry b size g) p <= 256.
Proof.
  intros Hs Hb Hv Hp. apply contains_point_inside in Hp; [|done]. unfold inside in Hp.
  unfold approach_factor.
  assert (forall d, 0 <= d < size -> 1 <= 256 - Z.quot (Z.shiftl d 8) size <= 256) as H
    by (intros d Hd; pose proof (part_bounds size d Hs Hd); lia).
  destruct b; try done; apply H; unfold approach_geometry, topLeft, topRight, bottomLeft, bottomRight, left, right, top,
    bottom in *; cbn in *; lia.
Qed.

Lemma approach_factor_range_witness :
  contains_point (approach_geometry ElectricLeft 10 (mkRect 0 10 1 60)) (mkPoint 3 40) = true /\
  1 <= approach_factor ElectricLeft 10 (approach_geometry ElectricLeft 10 (mkRect 0 10 1 60)) (mkPoint 3 40) <= 256.
Proof. split; [reflexivity|]. by apply (approach_factor_range ElectricLeft 10 (mkRect 0 10 1 60) (mkPoint 3 40)). Defined.

End EdgeTriggerProps.
