(* ===== verification/Snapping.v ===== *)
(** * Snapping (Workspace::adjustClientPosition and adjustClientSize, src/workspace.cpp)

    How a window that is moved or resized is attracted by the borders and the centre of its
    area and by other windows. The factor by which the snap zones are scaled (a double) is a
    function on the zones. *)

From S2P Require Import Prelude Qt WorkArea Rules Geometry Placement.
From S2P Require Toplevel.

Module Snapping.
Import Qt WorkArea Geometry.
Import Placement(View, heap, tenv, m_allClients).
Abbreviation wid := nat (only parsing).

(** The options. *)
Record SnapOptions := mkSnap {
  borderSnapZone : Z;
  windowSnapZone : Z;
  centerSnapZone : Z;
  isSnapOnlyWhenOverlapping : bool;
}.

(** The position being adjusted, with the distances that must be undercut. *)
Record Snap := mkState { nx : Z; ny : Z; deltaX : Z; deltaY : Z }.
#[global] Instance Snap_eta : RecordEta Snap := fun s => mkState (nx s) (ny s) (deltaX s) (deltaY s).

(** Whether the intervals [a1, a2] and [b1, b2] meet. *)
Definition meet (a1 a2 b1 b2 : Z) : bool :=
  ((a1 <=? b2) && (b1 <=? a1)) || ((b1 <=? a2) && (a2 <=? b2)) || ((a1 <=? b1) && (b2 <=? a2)).

(** ** Moving *)

Section Position.
Variable E : Env.
Variable V : View.
Variable opts : SnapOptions.
Variable window : wid.
Variable w : Window.
Variable scaled : Z -> Z.

(** The windows that attract a moved window. *)
Definition attracts (l : wid) : bool :=
  let o := heap V l in
  negb (Nat.eqb l window) &&
  negb (match Toplevel.Toplevel.control o with Some c => Toplevel.Toplevel.minimized c | None => false end) &&
  Toplevel.Toplevel.isShown o &&
  (Toplevel.Toplevel.on_desktop (tenv V) o (Toplevel.Toplevel.desktop (tenv V) (heap V window)) ||
   Toplevel.Toplevel.on_desktop (tenv V) (heap V window) (Toplevel.Toplevel.desktop (tenv V) o)) &&
  Toplevel.Toplevel.isOnCurrentActivity (tenv V) o &&
  negb (Toplevel.Toplevel.is_desktop o || Toplevel.Toplevel.is_splash o).

Definition other_frames : list QRect :=
  (fun l => Toplevel.Toplevel.frameGeometry (heap V l)) <$> filter (fun l => attracts l = true) (m_allClients V).

Definition sOWO : bool := isSnapOnlyWhenOverlapping opts.

(** The guide of a maximized window: the directions in which it stays at the area's
    border, with the wider snap zone. *)
Record Guide := mkGuide { g_rect : QRect; g_horizontal : bool; g_vertical : bool; g_zone : QSize }.

Definition position_center (pos : QPoint) : QPoint := padd pos (Qt.center (rect_at (mkPoint 0 0) (size (frameGeometry w)))).

Definition guide (pos : QPoint) : Guide :=
  let zone := mkSize (borderSnapZone opts) (borderSnapZone opts) in
  if max_mode w =? restore then mkGuide null_rect false false zone
  else
    let maxRect := area_at E MaximizeArea (position_center pos) (desktop w) in
    let geo := frameGeometry w in
    let h := flags (Z.land (max_mode w) horizontal) &&
             ((rx geo =? Qt.left maxRect) || (Qt.right geo =? Qt.right maxRect)) in
    let v := flags (Z.land (max_mode w) vertical) &&
             ((ry geo =? Qt.top maxRect) || (Qt.bottom geo =? Qt.bottom maxRect)) in
    mkGuide maxRect h v
      (mkSize (if h then Z.max (sw zone + 2) (Z.quot (rw maxRect) 16) else sw zone)
              (if v then Z.max (sh zone + 2) (Z.quot (rh maxRect) 16) else sh zone)).

(** Inside the area and at the window's position. *)
Section At.
Variable maxRect : QRect.
Variable g_h g_v : bool.
Variable pos : QPoint.

Definition xmin : Z := Qt.left maxRect.
Definition xmax : Z := Qt.right maxRect + 1.
Definition ymin : Z := Qt.top maxRect.
Definition ymax : Z := Qt.bottom maxRect + 1.
Definition cx : Z := px pos.
Definition cy : Z := py pos.
Definition cw : Z := rw (frameGeometry w).
Definition ch : Z := rh (frameGeometry w).
Definition rx' : Z := cx + cw.
Definition ry' : Z := cy + ch.

(** The margins by which the frame may leave the area; they count neither where a
    neighbouring screen is nor for a maximized window, and never at the top. *)
Definition snap_margins : QMargins :=
  let geo := frameGeometry w in
  let m := frame_margins w in
  let crosses p := 1 <? intersecting (screens E) (translated geo p) in
  mkMargins
    (if negb (ml m =? 0) && (flags (Z.land (max_mode w) horizontal) || crosses (mkPoint (rx maxRect - (ml m + rx geo)) 0))
     then 0 else ml m)
    0
    (if negb (mr m =? 0) &&
        (flags (Z.land (max_mode w) horizontal) || crosses (mkPoint (Qt.right maxRect + mr m - Qt.right geo) 0))
     then 0 else mr m)
    (if negb (mb m =? 0) &&
        (flags (Z.land (max_mode w) vertical) || crosses (mkPoint 0 (Qt.bottom maxRect + mb m - Qt.bottom geo)))
     then 0 else mb m).

Definition snap_border (snapX snapY : Z) (s : Snap) : Snap :=
  if (snapX =? 0) && (snapY =? 0) then s
  else
    let m := snap_margins in
    let s := if (if sOWO then cx <? xmin else true) && (Z.abs (xmin - cx) <? snapX)
             then s <| deltaX := xmin - cx |> <| nx := xmin - ml m |> else s in
    let s := if (if sOWO then xmax <? rx' else true) && (Z.abs (rx' - xmax) <? snapX) && (Z.abs (xmax - rx') <? deltaX s)
             then s <| deltaX := rx' - xmax |> <| nx := xmax - cw + mr m |> else s in
    let s := if (if sOWO then cy <? ymin else true) && (Z.abs (ymin - cy) <? snapY)
             then s <| deltaY := ymin - cy |> <| ny := ymin - mt m |> else s in
    if (if sOWO then ymax <? ry' else true) && (Z.abs (ry' - ymax) <? snapY) && (Z.abs (ymax - ry') <? deltaY s)
    then s <| deltaY := ry' - ymax |> <| ny := ymax - ch + mb m |> else s.

(** An attraction over the distance [d], to the position [target]. *)
Definition pull_x (snap : Z) (c overlapping : bool) (d target : Z) (s : Snap) : Snap :=
  if c && (if sOWO then overlapping else true) && (Z.abs d <? snap) && (Z.abs d <? deltaX s)
  then s <| deltaX := Z.abs d |> <| nx := target |> else s.
Definition pull_y (snap : Z) (c overlapping : bool) (d target : Z) (s : Snap) : Snap :=
  if c && (if sOWO then overlapping else true) && (Z.abs d <? snap) && (Z.abs d <? deltaY s)
  then s <| deltaY := Z.abs d |> <| ny := target |> else s.

(** One window: its edges, then its corners. *)
Definition snap_window (snap : Z) (s : Snap) (l : QRect) : Snap :=
  let lx := rx l in let ly := ry l in
  let lrx := lx + rw l in let lry := ly + rh l in
  let beside := negb g_h && meet cy ry' ly lry in
  let s := pull_x snap beside (cx <? lrx) (lrx - cx) lrx s in
  let s := pull_x snap beside (lx <? rx') (rx' - lx) (lx - cw) s in
  let above := negb g_v && meet cx rx' lx lrx in
  let s := pull_y snap above (cy <? lry) (lry - cy) lry s in
  let s := pull_y snap above (ly <? ry') (ry' - ly) (ly - ch) s in
  let corner := negb g_v && ((nx s =? lrx) || (nx s + cw =? lx)) in
  let s := pull_y snap corner (lry <? ry') (lry - ry') (lry - ch) s in
  let s := pull_y snap corner (cy <? ly) (cy - ly) ly s in
  let corner := negb g_h && ((ny s =? lry) || (ny s + ch =? ly)) in
  let s := pull_x snap corner (lrx <? rx') (lrx - rx') (lrx - cw) s in
  pull_x snap corner (cx <? lx) (cx - lx) lx s.

Definition snap_windows (snap : Z) (others : list QRect) (s : Snap) : Snap :=
  if snap =? 0 then s else foldl (snap_window snap) s others.

Definition center_x : Z := Z.quot (xmin + xmax) 2 - Z.quot cw 2.
Definition center_y : Z := Z.quot (ymin + ymax) 2 - Z.quot ch 2.

Definition snap_center (unrestricted : bool) (snap : Z) (s : Snap) : Snap :=
  if snap =? 0 then s
  else
    let diffX := Z.abs (Z.quot (xmin + xmax) 2 - (cx + Z.quot cw 2)) in
    let diffY := Z.abs (Z.quot (ymin + ymax) 2 - (cy + Z.quot ch 2)) in
    if (diffX <? snap) && (diffY <? snap) && (diffX <? deltaX s) && (diffY <? deltaY s)
    then s <| nx := center_x |> <| ny := center_y |>
    else if borderSnapZone opts =? 0 then s
    else if ((nx s =? xmin) || (nx s =? xmax - cw)) && (diffY <? snap) && (diffY <? deltaY s)
    then s <| ny := center_y |>
    else if ((if unrestricted then ny s =? ymin else ny s <=? ymin) || (ny s =? ymax - ch)) &&
            (diffX <? snap) && (diffX <? deltaX s)
    then s <| nx := center_x |> else s.

Definition snapped (unrestricted : bool) (zone : QSize) : Snap :=
  snap_center unrestricted (scaled (centerSnapZone opts))
    (snap_windows (scaled (windowSnapZone opts)) other_frames
       (snap_border (scaled (sw zone)) (scaled (sh zone)) (mkState cx cy xmax ymax))).
End At.

(** The rectangle in which the window is snapped. *)
Definition snap_area (g : Guide) (pos : QPoint) : QRect :=
  if isNull (g_rect g)
  then clientArea_screen (screens E) (current_screen E) (current_desktop E) (areas E) MovementArea
         (number (screens E) (position_center pos)) (desktop w)
  else g_rect g.

Definition adjustClientPosition (pos : QPoint) (unrestricted : bool) : QPoint :=
  let g := guide pos in
  if (windowSnapZone opts =? 0) && (sw (g_zone g) =? 0) && (sh (g_zone g) =? 0) && (centerSnapZone opts =? 0) then pos
  else
    let s := snapped (snap_area g pos) (g_horizontal g) (g_vertical g) pos unrestricted (g_zone g) in
    mkPoint (nx s) (ny s).
End Position.

(** ** Resizing *)

(** The edges being adjusted; all are coordinates of pixels inside. *)
Record Edges := mkEdges { newcx : Z; newcy : Z; newrx : Z; newry : Z; dX : Z; dY : Z }.
#[global] Instance Edges_eta : RecordEta Edges := fun e =>
  mkEdges (newcx e) (newcy e) (newrx e) (newry e) (dX e) (dY e).

Section Size.
Variable E : Env.
Variable V : View.
Variable opts : SnapOptions.
Variable window : wid.
Variable w : Window.

Definition only_overlapping : bool := isSnapOnlyWhenOverlapping opts.
Definition unless_overlapping (c : bool) : bool := if only_overlapping then c else true.

(** The macros SNAP_BORDER_*; the bottom one measures the distance it keeps from the top. *)
Definition snap_border_top (r : QRect) (e : Edges) : Edges :=
  let y := Qt.top r in
  if unless_overlapping (newcy e <? y) && (Z.abs (y - newcy e) <? dY e)
  then e <| dY := Z.abs (y - newcy e) |> <| newcy := y |> else e.
Definition snap_border_bottom (r : QRect) (e : Edges) : Edges :=
  let y := Qt.bottom r in
  if unless_overlapping (y <? newry e) && (Z.abs (y - newry e) <? dY e)
  then e <| dY := Z.abs (y - newcy e) |> <| newry := y |> else e.
Definition snap_border_left (r : QRect) (e : Edges) : Edges :=
  let x := Qt.left r in
  if unless_overlapping (newcx e <? x) && (Z.abs (x - newcx e) <? dX e)
  then e <| dX := Z.abs (x - newcx e) |> <| newcx := x |> else e.
Definition snap_border_right (r : QRect) (e : Edges) : Edges :=
  let x := Qt.right r in
  if unless_overlapping (x <? newrx e) && (Z.abs (x - newrx e) <? dX e)
  then e <| dX := Z.abs (x - newrx e) |> <| newrx := x |> else e.

(** The switches over the mode; [None] is abort(). *)
Definition snap_borders (mode : position) (r : QRect) (e : Edges) : option Edges :=
  match mode with
  | bottom_right => Some (snap_border_right r (snap_border_bottom r e))
  | p_right => Some (snap_border_right r e)
  | p_bottom => Some (snap_border_bottom r e)
  | top_left => Some (snap_border_left r (snap_border_top r e))
  | p_left => Some (snap_border_left r e)
  | p_top => Some (snap_border_top r e)
  | top_right => Some (snap_border_right r (snap_border_top r e))
  | bottom_left => Some (snap_border_left r (snap_border_bottom r e))
  | center => None
  end.

(** The macros SNAP_WINDOW_*, for the window with frame [l] and a window that is resized
    from [geo]. *)
Section Window.
Variable geo l : QRect.
Definition lx : Z := rx l - 1.
Definition ly : Z := ry l - 1.
Definition lrx : Z := rx l + rw l.
Definition lry : Z := ry l + rh l.
Definition within_height (e : Edges) : bool := meet (newcy e) (newry e) ly lry.
Definition within_width : bool := meet (Qt.left geo) (Qt.right geo) lx lrx.

Definition snap_window_top (e : Edges) : Edges :=
  if unless_overlapping (newcy e <? lry) && within_width && (Z.abs (lry - newcy e) <? dY e)
  then e <| dY := Z.abs (lry - newcy e) |> <| newcy := lry |> else e.
Definition snap_window_bottom (e : Edges) : Edges :=
  if unless_overlapping (ly <? newry e) && within_width && (Z.abs (ly - newry e) <? dY e)
  then e <| dY := Z.abs (ly - newry e) |> <| newry := ly |> else e.
Definition snap_window_left (e : Edges) : Edges :=
  if unless_overlapping (newcx e <? lrx) && within_height e && (Z.abs (lrx - newcx e) <? dX e)
  then e <| dX := Z.abs (lrx - newcx e) |> <| newcx := lrx |> else e.
Definition snap_window_right (e : Edges) : Edges :=
  if unless_overlapping (lx <? newrx e) && within_height e && (Z.abs (lx - newrx e) <? dX e)
  then e <| dX := Z.abs (lx - newrx e) |> <| newrx := lx |> else e.

Definition beside (e : Edges) : bool := (newcx e =? lrx) || (newrx e =? lx).
Definition over (e : Edges) : bool := (newcy e =? lry) || (newry e =? ly).
Definition snap_window_c_top (e : Edges) : Edges :=
  if unless_overlapping (newcy e <? ly) && beside e && (Z.abs (ly - newcy e) <? dY e)
  then e <| dY := Z.abs (ly - newcy e + 1) |> <| newcy := ly + 1 |> else e.
Definition snap_window_c_bottom (e : Edges) : Edges :=
  if unless_overlapping (lry <? newry e) && beside e && (Z.abs (lry - newry e) <? dY e)
  then e <| dY := Z.abs (lry - newry e - 1) |> <| newry := lry - 1 |> else e.
Definition snap_window_c_left (e : Edges) : Edges :=
  if unless_overlapping (newcx e <? lx) && over e && (Z.abs (lx - newcx e) <? dX e)
  then e <| dX := Z.abs (lx - newcx e + 1) |> <| newcx := lx + 1 |> else e.
Definition snap_window_c_right (e : Edges) : Edges :=
  if unless_overlapping (lrx <? newrx e) && over e && (Z.abs (lrx - newrx e) <? dX e)
  then e <| dX := Z.abs (lrx - newrx e - 1) |> <| newrx := lrx - 1 |> else e.

Definition snap_to_window (mode : position) (e : Edges) : option Edges :=
  match mode with
  | bottom_right => Some (snap_window_c_right (snap_window_c_bottom (snap_window_right (snap_window_bottom e))))
  | p_right => Some (snap_window_c_right (snap_window_right e))
  | p_bottom => Some (snap_window_c_bottom (snap_window_bottom e))
  | top_left => Some (snap_window_c_left (snap_window_c_top (snap_window_left (snap_window_top e))))
  | p_left => Some (snap_window_c_left (snap_window_left e))
  | p_top => Some (snap_window_c_top (snap_window_top e))
  | top_right => Some (snap_window_c_right (snap_window_c_top (snap_window_right (snap_window_top e))))
  | bottom_left => Some (snap_window_c_left (snap_window_c_bottom (snap_window_left (snap_window_bottom e))))
  | center => None
  end.
End Window.

(** The windows that attract the edges of a resized window. *)
Definition attracts_edges (l : wid) : bool :=
  let o := heap V l in
  Toplevel.Toplevel.on_desktop (tenv V) o (Toplevel.Toplevel.current_desktop (tenv V)) &&
  negb (match Toplevel.Toplevel.control o with Some c => Toplevel.Toplevel.minimized c | None => false end) &&
  negb (Nat.eqb l window).
Definition edge_frames : list QRect :=
  (fun l => Toplevel.Toplevel.frameGeometry (heap V l)) <$> filter (fun l => attracts_edges l = true) (m_allClients V).

Definition fold_windows (geo : QRect) (mode : position) (others : list QRect) (e : Edges) : option Edges :=
  foldl (fun e l => e ← e; snap_to_window geo l mode e) (Some e) others.

(** The area is looked up at the centre of a rectangle at the origin. *)
Definition size_area : QRect :=
  area_at E MovementArea (Qt.center (rect_at (mkPoint 0 0) (size (frameGeometry w)))) (desktop w).

Definition snap_edges (maxRect : QRect) (others : list QRect) (geo : QRect) (mode : position) : option Edges :=
  let e := mkEdges (Qt.left geo) (Qt.top geo) (Qt.right geo) (Qt.bottom geo) (Qt.right maxRect) (Qt.bottom maxRect) in
  let snap := borderSnapZone opts in
  e ← (if snap =? 0 then Some e else snap_borders mode maxRect (e <| dX := snap |> <| dY := snap |>));
  let snap := windowSnapZone opts in
  if snap =? 0 then Some e else fold_windows geo mode others (e <| dX := snap |> <| dY := snap |>).

Definition adjustClientSize (moveResizeGeom : QRect) (mode : position) : option QRect :=
  if (windowSnapZone opts =? 0) && (borderSnapZone opts =? 0) then Some moveResizeGeom
  else
    e ← snap_edges size_area edge_frames moveResizeGeom mode;
    Some (of_edges (newcx e) (newcy e) (newrx e) (newry e)).
End Size.

End Snapping.
