(* ===== verification/SnappingProps.v ===== *)
(** * Properties of snapping

    A snapped window is aligned with what attracted it and moves no further than the snap
    zones reach; a resized window changes only the edges that are dragged, and those only
    to lines of the area or of other windows. *)

From S2P Require Import Prelude Qt WorkArea Rules Geometry GeometryProps Placement Snapping.
From S2P Require Toplevel.

Module SnappingProps.
Import Qt WorkArea Geometry Snapping.
Import Placement(View, mkView).
#[local] Arguments snap_margins : simpl never.

(** The comparisons of a condition that holds. *)
Ltac conditions H := repeat (apply andb_true_iff in H as [H ?]); rewrite ?Z.ltb_lt in *.

(** ** Moving *)

Section Position.
Variable E : Env.
Variable opts : SnapOptions.
Variable w : Window.
Variable maxRect : QRect.
Variable g_h g_v : bool.
Variable pos : QPoint.
Variable others : list QRect.
(** How far the three kinds of snapping reach. *)
Variable reach_x reach_y : Z.

Notation m := (snap_margins E w maxRect).

(** The positions that snapping may choose. *)
Definition line_x (x : Z) : Prop :=
  x = xmin maxRect - ml m \/ x = xmax maxRect - cw w + mr m \/ x = center_x w maxRect \/
  exists l, l ∈ others /\ x ∈ [rx l + rw l; rx l - cw w; rx l + rw l - cw w; rx l].
Definition line_y (y : Z) : Prop :=
  y = ymin maxRect - mt m \/ y = ymax maxRect - ch w + mb m \/ y = center_y w maxRect \/
  exists l, l ∈ others /\ y ∈ [ry l + rh l; ry l - ch w; ry l + rh l - ch w; ry l].

Definition x_ok (x : Z) : Prop := x = cx pos \/ (line_x x /\ Z.abs (x - cx pos) < reach_x).
Definition y_ok (y : Z) : Prop := y = cy pos \/ (line_y y /\ Z.abs (y - cy pos) < reach_y).
Definition snap_ok (s : Snap) : Prop := x_ok (nx s) /\ y_ok (ny s).

Lemma if_ok (c : bool) s s' : snap_ok s -> (c = true -> snap_ok s') -> snap_ok (if c then s' else s).
Proof. destruct c; auto. Qed.

Lemma pull_x_ok snap c o d target s :
  snap <= reach_x -> line_x target -> Z.abs d = Z.abs (target - cx pos) -> snap_ok s -> snap_ok (pull_x opts snap c o d target s).
Proof.
  intros Hs Hl Hd [Hx Hy]. unfold pull_x. case_match; [|done]. split; [|done]. right. cbn. split; [done|]. lia.
Qed.

Lemma pull_y_ok snap c o d target s :
  snap <= reach_y -> line_y target -> Z.abs d = Z.abs (target - cy pos) -> snap_ok s -> snap_ok (pull_y opts snap c o d target s).
Proof.
  intros Hs Hl Hd [Hx Hy]. unfold pull_y. case_match; [|done]. split; [done|]. right. cbn. split; [done|]. lia.
Qed.

Lemma snap_window_ok snap s l :
  snap <= reach_x -> snap <= reach_y -> l ∈ others -> snap_ok s -> snap_ok (snap_window opts w g_h g_v pos snap s l).
Proof.
  intros Hx Hy Hl Hs. unfold snap_window. cbv zeta.
  assert (forall x, x ∈ [rx l + rw l; rx l - cw w; rx l + rw l - cw w; rx l] -> line_x x) as Lx
    by (intros x ?; right; right; right; by exists l).
  assert (forall y, y ∈ [ry l + rh l; ry l - ch w; ry l + rh l - ch w; ry l] -> line_y y) as Ly
    by (intros y ?; right; right; right; by exists l).
  repeat first [apply pull_x_ok; [done|apply Lx; rewrite !elem_of_cons; tauto|unfold rx'; lia|]
               |apply pull_y_ok; [done|apply Ly; rewrite !elem_of_cons; tauto|unfold ry'; lia|]]. done.
Qed.

Lemma snap_windows_ok snap l s :
  snap <= reach_x -> snap <= reach_y -> (forall r, r ∈ l -> r ∈ others) -> snap_ok s ->
  snap_ok (snap_windows opts w g_h g_v pos snap l s).
Proof.
  intros Hx Hy Hl Hs. unfold snap_windows. case_match; [done|]. clear -Hx Hy Hl Hs. revert s Hs.
  induction l as [|r l IH]; intros s Hs; cbn [foldl]; [done|]. apply IH; [set_solver|].
  apply snap_window_ok; set_solver.
Qed.

Lemma snap_border_ok snapX snapY s :
  0 <= ml m -> 0 <= mr m -> 0 <= mb m -> mt m = 0 ->
  snapX + Z.max (ml m) (mr m) <= reach_x -> snapY + mb m <= reach_y -> snap_ok s ->
  snap_ok (snap_border E opts w maxRect pos snapX snapY s).
Proof.
  intros Hml Hmr Hmb Hmt Hx Hy Hs. unfold snap_border. destruct (_ && _); [done|]. cbv zeta.
  set (s1 := if _ && (_ <? snapX) then _ else s).
  assert (snap_ok s1) as H1.
  { apply if_ok; [done|]. intros Hb. conditions Hb. destruct Hs. split; [|done]. right. cbn.
    split; [by left|]. lia. }
  set (s2 := if _ && (_ <? snapX) && _ then _ else s1).
  assert (snap_ok s2) as H2.
  { apply if_ok; [done|]. intros Hb. conditions Hb. destruct H1. split; [|done]. right. cbn.
    split; [right; left; done|]. unfold rx' in *. lia. }
  set (s3 := if _ && (_ <? snapY) then _ else s2).
  assert (snap_ok s3) as H3.
  { apply if_ok; [done|]. intros Hb. conditions Hb. destruct H2. split; [done|]. right. cbn.
    split; [by left|]. lia. }
  apply if_ok; [done|]. intros Hb. conditions Hb. destruct H3. split; [done|]. right. cbn.
  split; [right; left; done|]. unfold ry' in *. lia.
Qed.

Lemma snap_center_ok unrestricted snap s :
  snap <= reach_x -> snap <= reach_y -> snap_ok s -> snap_ok (snap_center opts w maxRect pos unrestricted snap s).
Proof.
  intros Hx Hy [Sx Sy]. unfold snap_center. destruct (snap =? 0); [done|]. cbv zeta.
  assert (Z.abs (Z.quot (xmin maxRect + xmax maxRect) 2 - (cx pos + Z.quot (cw w) 2)) < snap ->
          x_ok (center_x w maxRect)) as Cx.
  { intros H. right. split; [right; right; left; done|]. unfold center_x. lia. }
  assert (Z.abs (Z.quot (ymin maxRect + ymax maxRect) 2 - (cy pos + Z.quot (ch w) 2)) < snap ->
          y_ok (center_y w maxRect)) as Cy.
  { intros H. right. split; [right; right; left; done|]. unfold center_y. lia. }
  repeat case_match; split; cbn; auto; (apply Cx || apply Cy); lia.
Qed.
End Position.

Definition margins_nonneg (m : QMargins) : Prop := 0 <= ml m /\ 0 <= mr m /\ 0 <= mt m /\ 0 <= mb m.

Lemma snap_margins_bounds E w maxRect :
  margins_nonneg (frame_margins w) ->
  let m := snap_margins E w maxRect in
  0 <= ml m <= ml (frame_margins w) /\ 0 <= mr m <= mr (frame_margins w) /\ mt m = 0 /\
  0 <= mb m <= mb (frame_margins w).
Proof.
  unfold margins_nonneg, snap_margins. intros (? & ? & ? & ?). cbn. repeat case_match; repeat split; lia.
Qed.

(** C30: a window that is moved snaps only to what is near: in each direction the adjusted
    position is the given one, or the window is aligned with a border of its area (up to
    its frame margin), with the area's centre, or with an edge of another window, and then
    it has moved by less than the reach of the snap zones. *)
Theorem snap_aligns E V opts window w scaled pos unrestricted :
  margins_nonneg (frame_margins w) ->
  let g := guide E opts w pos in
  let zone := Z.max (scaled (windowSnapZone opts)) (scaled (centerSnapZone opts)) in
  let reach_x := Z.max (scaled (sw (g_zone g)) + Z.max (ml (frame_margins w)) (mr (frame_margins w))) zone in
  let reach_y := Z.max (scaled (sh (g_zone g)) + mb (frame_margins w)) zone in
  let p := adjustClientPosition E V opts window w scaled pos unrestricted in
  let area := snap_area E w g pos in
  x_ok E w area pos (other_frames V window) reach_x (px p) /\
  y_ok E w area pos (other_frames V window) reach_y (py p).
Proof.
  intros Hm g zone reach_x reach_y p area. unfold p, adjustClientPosition. fold g.
  destruct (_ && _ && _ && _); [split; by left|]. fold area. cbv zeta. cbn [px py].
  destruct (snap_margins_bounds E w area Hm) as (? & ? & ? & ?).
  assert (scaled (windowSnapZone opts) <= reach_x /\ scaled (windowSnapZone opts) <= reach_y /\
          scaled (centerSnapZone opts) <= reach_x /\ scaled (centerSnapZone opts) <= reach_y) as (? & ? & ? & ?)
    by (unfold reach_x, reach_y, zone; lia).
  apply (snap_center_ok E opts w area pos (other_frames V window) reach_x reach_y); [done..|].
  apply snap_windows_ok; [done..|].
  apply snap_border_ok; try lia.
  split; by left.
Qed.

(** ** Resizing *)

Definition moves_left (mode : position) : bool :=
  match mode with p_left | top_left | bottom_left => true | _ => false end.
Definition moves_right (mode : position) : bool :=
  match mode with p_right | top_right | bottom_right => true | _ => false end.
Definition moves_top (mode : position) : bool :=
  match mode with p_top | top_left | top_right => true | _ => false end.
Definition moves_bottom (mode : position) : bool :=
  match mode with p_bottom | bottom_left | bottom_right => true | _ => false end.

Section Size.
Variable opts : SnapOptions.
Variable area geo : QRect.
Variable others : list QRect.
Variable mode : position.

(** An edge is where it was, or it is dragged and lies at the area's edge, at the same
    edge of another window or beside one. *)
Definition left_ok (x : Z) : Prop :=
  x = Qt.left geo \/ moves_left mode = true /\
    (x = Qt.left area \/ exists l, l ∈ others /\ (x = Qt.left l \/ x = Qt.right l + 1)).
Definition right_ok (x : Z) : Prop :=
  x = Qt.right geo \/ moves_right mode = true /\
    (x = Qt.right area \/ exists l, l ∈ others /\ (x = Qt.right l \/ x = Qt.left l - 1)).
Definition top_ok (y : Z) : Prop :=
  y = Qt.top geo \/ moves_top mode = true /\
    (y = Qt.top area \/ exists l, l ∈ others /\ (y = Qt.top l \/ y = Qt.bottom l + 1)).
Definition bottom_ok (y : Z) : Prop :=
  y = Qt.bottom geo \/ moves_bottom mode = true /\
    (y = Qt.bottom area \/ exists l, l ∈ others /\ (y = Qt.bottom l \/ y = Qt.top l - 1)).

Definition edges_ok (e : Edges) : Prop :=
  left_ok (newcx e) /\ top_ok (newcy e) /\ right_ok (newrx e) /\ bottom_ok (newry e).

Lemma deltas_ok dx dy e : edges_ok e -> edges_ok (e <| dX := dx |> <| dY := dy |>).
Proof. done. Qed.

(** Closes the preservation of [edges_ok] by one of the macros. *)
Ltac edge_snap op :=
  intros ? (?Hl & ?Ht & ?Hr & ?Hb); unfold op; cbv zeta; case_match; [|by repeat split];
  repeat split; cbn; auto; right; (split; [done|]).
Ltac to_window l :=
  right; exists l; split; [done|]; unfold lrx, lry, lx, ly, Qt.left, Qt.right, Qt.top, Qt.bottom; lia.

Lemma border_left_ok : moves_left mode = true -> forall e, edges_ok e -> edges_ok (snap_border_left opts area e).
Proof. intros Hm. edge_snap snap_border_left. by left. Qed.
Lemma border_right_ok : moves_right mode = true -> forall e, edges_ok e -> edges_ok (snap_border_right opts area e).
Proof. intros Hm. edge_snap snap_border_right. by left. Qed.
Lemma border_top_ok : moves_top mode = true -> forall e, edges_ok e -> edges_ok (snap_border_top opts area e).
Proof. intros Hm. edge_snap snap_border_top. by left. Qed.
Lemma border_bottom_ok : moves_bottom mode = true -> forall e, edges_ok e -> edges_ok (snap_border_bottom opts area e).
Proof. intros Hm. edge_snap snap_border_bottom. by left. Qed.

Section OneWindow.
Variable l : QRect.
Hypothesis Hl : l ∈ others.
Lemma window_left_ok : moves_left mode = true -> forall e, edges_ok e -> edges_ok (snap_window_left opts l e).
Proof using Hl. intros Hm. edge_snap snap_window_left. to_window l. Qed.
Lemma window_right_ok : moves_right mode = true -> forall e, edges_ok e -> edges_ok (snap_window_right opts l e).
Proof using Hl. intros Hm. edge_snap snap_window_right. to_window l. Qed.
Lemma window_top_ok : moves_top mode = true -> forall e, edges_ok e -> edges_ok (snap_window_top opts geo l e).
Proof using Hl. intros Hm. edge_snap snap_window_top. to_window l. Qed.
Lemma window_bottom_ok : moves_bottom mode = true -> forall e, edges_ok e -> edges_ok (snap_window_bottom opts geo l e).
Proof using Hl. intros Hm. edge_snap snap_window_bottom. to_window l. Qed.
Lemma corner_left_ok : moves_left mode = true -> forall e, edges_ok e -> edges_ok (snap_window_c_left opts l e).
Proof using Hl. intros Hm. edge_snap snap_window_c_left. to_window l. Qed.
Lemma corner_right_ok : moves_right mode = true -> forall e, edges_ok e -> edges_ok (snap_window_c_right opts l e).
Proof using Hl. intros Hm. edge_snap snap_window_c_right. to_window l. Qed.
Lemma corner_top_ok : moves_top mode = true -> forall e, edges_ok e -> edges_ok (snap_window_c_top opts l e).
Proof using Hl. intros Hm. edge_snap snap_window_c_top. to_window l. Qed.
Lemma corner_bottom_ok : moves_bottom mode = true -> forall e, edges_ok e -> edges_ok (snap_window_c_bottom opts l e).
Proof using Hl. intros Hm. edge_snap snap_window_c_bottom. to_window l. Qed.
End OneWindow.

End Size.

#[local] Hint Resolve border_left_ok border_right_ok border_top_ok border_bottom_ok window_left_ok window_right_ok
  window_top_ok window_bottom_ok corner_left_ok corner_right_ok corner_top_ok corner_bottom_ok : core.

Section Modes.
Variable opts : SnapOptions.
Variable area geo : QRect.
Variable others : list QRect.

Lemma snap_borders_ok mode e :
  mode <> center -> edges_ok area geo others mode e ->
  exists e', snap_borders opts mode area e = Some e' /\ edges_ok area geo others mode e'.
Proof. intros Hm He. unfold snap_borders. destruct mode eqn:Hmode; try done; eexists; (split; [done|]); auto 10. Qed.

Lemma snap_to_window_ok mode l e :
  l ∈ others -> mode <> center -> edges_ok area geo others mode e ->
  exists e', snap_to_window opts geo l mode e = Some e' /\ edges_ok area geo others mode e'.
Proof.
  intros Hl Hm He. unfold snap_to_window. destruct mode eqn:Hmode; try done; eexists; (split; [done|]); auto 10.
Qed.

Lemma fold_windows_ok mode l e :
  (forall r, r ∈ l -> r ∈ others) -> mode <> center -> edges_ok area geo others mode e ->
  exists e', fold_windows opts geo mode l e = Some e' /\ edges_ok area geo others mode e'.
Proof.
  unfold fold_windows. intros Hl Hm. revert e. induction l as [|r l IH]; intros e He; cbn [foldl]; [by exists e|].
  destruct (snap_to_window_ok mode r e) as (e' & Hs & He'); [set_solver|done..|]. cbn. rewrite Hs. apply IH; [set_solver|done].
Qed.
End Modes.

Lemma adjust_edges E V opts window w geo mode :
  mode <> center ->
  exists r, adjustClientSize E V opts window w geo mode = Some r /\
    let area := size_area E w in let others := edge_frames V window in
    left_ok area geo others mode (Qt.left r) /\ top_ok area geo others mode (Qt.top r) /\
    right_ok area geo others mode (Qt.right r) /\ bottom_ok area geo others mode (Qt.bottom r).
Proof.
  intros Hm. unfold adjustClientSize. destruct (_ && _).
  { eexists. split; [done|]. repeat split; by left. }
  unfold snap_edges. set (e0 := mkEdges _ _ _ _ _ _).
  assert (edges_ok (size_area E w) geo (edge_frames V window) mode e0) as H0 by (repeat split; by left).
  assert (exists e1, (if borderSnapZone opts =? 0 then Some e0 else
      snap_borders opts mode (size_area E w) (e0 <| dX := borderSnapZone opts |> <| dY := borderSnapZone opts |>)) = Some e1 /\
      edges_ok (size_area E w) geo (edge_frames V window) mode e1) as (e1 & -> & H1).
  { case_match; [by exists e0|]. by apply snap_borders_ok. }
  cbn [mbind option_bind].
  assert (exists e2, (if windowSnapZone opts =? 0 then Some e1 else
      fold_windows opts geo mode (edge_frames V window) (e1 <| dX := windowSnapZone opts |> <| dY := windowSnapZone opts |>))
        = Some e2 /\ edges_ok (size_area E w) geo (edge_frames V window) mode e2) as (e2 & -> & (? & ? & ? & ?)).
  { case_match; [by exists e1|]. by apply fold_windows_ok. }
  eexists. split; [done|]. destruct (of_edges_edges (newcx e2) (newcy e2) (newrx e2) (newry e2)) as (-> & -> & -> & ->).
  done.
Qed.

Lemma adjust_total E V opts window w geo mode :
  mode <> center -> exists r, adjustClientSize E V opts window w geo mode = Some r.
Proof. intros Hm. destruct (adjust_edges E V opts window w geo mode Hm) as (r & ? & _). by exists r. Qed.

(** Resizing snaps only the edges that are dragged: adjusting the geometry of a resize
    never aborts, leaves the other edges where they are, and moves a dragged edge only to
    the edge of the area, to the same edge of another window or right beside a window. *)
Theorem resize_snaps_dragged_edges E V opts window w geo mode :
  mode <> center ->
  exists r, adjustClientSize E V opts window w geo mode = Some r /\
    let area := size_area E w in let others := edge_frames V window in
    left_ok area geo others mode (Qt.left r) /\ top_ok area geo others mode (Qt.top r) /\
    right_ok area geo others mode (Qt.right r) /\ bottom_ok area geo others mode (Qt.bottom r).
Proof. apply adjust_edges. Qed.

(** ** Witnesses and boundary behaviour *)

(** Window 1 among windows with the frames [l], which have the numbers from 2. *)
Definition windows_at (l : list QRect) : View :=
  mkView (fun x => Toplevel.Toplevel.plain_window
                     <| Toplevel.Toplevel.frameGeometry := nth (x - 2) l (GeometryProps.sample_frame) |>)
    Toplevel.Toplevel.plain_env (fun _ => null_rect) [] (seq 1 (S (length l))).
Definition zones_10 : SnapOptions := mkSnap 10 10 0 false.
Definition no_frame : Window := GeometryProps.sample <| frame_margins := no_margins |>.

Lemma snap_aligns_witness :
  let V := windows_at [mkRect 500 300 200 200] in
  let p := adjustClientPosition GeometryProps.sample_env V zones_10 1 no_frame id (mkPoint 190 305) false in
  p = mkPoint 196 300 /\
  x_ok GeometryProps.sample_env no_frame (mkRect 0 0 1920 1080) (mkPoint 190 305) [mkRect 500 300 200 200] 10 (px p).
Proof.
  intros V p. split; [reflexivity|].
  apply (snap_aligns GeometryProps.sample_env V zones_10 1 no_frame id (mkPoint 190 305) false).
  repeat split; vm_compute; discriminate.
Defined.

Lemma resize_snaps_dragged_edges_witness :
  exists r, adjustClientSize GeometryProps.sample_env (windows_at [mkRect 500 300 200 200]) zones_10 1 no_frame
              (mkRect 100 80 395 226) p_right = Some r /\
    Qt.left r = 100 /\ Qt.right r = 499 /\ rh r = 226.
Proof.
  destruct (resize_snaps_dragged_edges GeometryProps.sample_env (windows_at [mkRect 500 300 200 200]) zones_10 1 no_frame
              (mkRect 100 80 395 226) p_right ltac:(discriminate)) as (r & Hr & _).
  exists r. split; [exact Hr|]. vm_compute in Hr. injection Hr as <-. by vm_compute.
Defined.

(** The distances of borders are kept with their sign: of a window at the left of its
    area, 5 pixels inside, another window at 1 pixel is forgotten, while 5 pixels outside
    the other window is preferred. *)
Example border_hides_window :
  let V := windows_at [mkRect (-294) 80 300 226] in
  px (adjustClientPosition GeometryProps.sample_env V zones_10 1 no_frame id (mkPoint 5 80) false) = 0.
Proof. reflexivity. Qed.
Example window_nearer_than_border :
  let V := windows_at [mkRect (-304) 80 300 226] in
  px (adjustClientPosition GeometryProps.sample_env V zones_10 1 no_frame id (mkPoint (-5) 80) false) = -4.
Proof. reflexivity. Qed.

(** A dragged edge is pulled from window to window, each time by less, so that it can end
    farther away than the snap zone of 10. *)
Example resizing_drifts :
  (Qt.right <$> adjustClientSize GeometryProps.sample_env
     (windows_at [mkRect 500 80 50 50; mkRect 508 80 50 50; mkRect 515 80 50 50]) zones_10 1 no_frame
     (mkRect 100 80 391 226) p_right) = Some 514.
Proof. reflexivity. Qed.

(** The area for resizing is the one of the screen at the origin, wherever the window is. *)
Definition two_screens : Env :=
  mkEnv (updateAll (mkScreens [mkRect 0 0 1000 1080; mkRect 1000 0 920 1080] 0 0 false (mkSize 0 0)))
    (areas GeometryProps.sample_env) 0 1 (mkPoint 0 0).
Example resizing_uses_first_screen :
  adjustClientSize two_screens (windows_at []) zones_10 1 (no_frame <| Geometry.frameGeometry := mkRect 1100 0 300 200 |>)
    (mkRect 1100 0 815 200) p_right = Some (mkRect 1100 0 815 200) /\
  size_area two_screens (no_frame <| Geometry.frameGeometry := mkRect 1100 0 300 200 |>) = mkRect 0 0 1000 1080.
Proof. split; reflexivity. Qed.

End SnappingProps.
