(* ===== verification/MoveResize.v ===== *)
(** * Interactive moving and resizing (src/win/move.h, src/win/input.h)

    The state of an interactive operation (win::move_resize_op), its start, its steps with
    the pointer, and its end. A window is the one of [Geometry], at the class of Wayland
    toplevels. QRegion's decomposition of the area that is not covered by panels into
    rectangles is a parameter; cursor shapes, the outline and effects are left out. *)

From S2P Require Import Prelude Qt WorkArea Rules Geometry Placement Maximize ScreenEdges EdgeManager Snapping.
From S2P Require Toplevel.

Module MoveResize.
Import Qt WorkArea Geometry Maximize.
Import Placement(View).
Import Snapping(SnapOptions, adjustClientPosition, adjustClientSize).
Abbreviation wid := nat (only parsing).

(** move_resize_op, without what the window of [Geometry] holds of it (enabled, contact and
    geometry). *)
Record Op := mkOp {
  unrestricted : bool;
  offset : QPoint;
  inverted_offset : QPoint;
  initial_geometry : QRect;
  button_down : bool;
  start_screen : nat;
  delay_timer : bool;
}.
#[global] Instance Op_eta : RecordEta Op := fun o =>
  mkOp (unrestricted o) (offset o) (inverted_offset o) (initial_geometry o) (button_down o) (start_screen o)
    (delay_timer o).

#[global] Instance MoveResize_eta : RecordEta MoveResize := fun m =>
  mkMoveResize (enabled m) (contact m) (mr_geometry m).

(** The window, the operation, whether the window is the workspace's moveResizeClient, and
    the screen edges. *)
Record Inter := mkInter {
  win : Window;
  op : Op;
  moveResizeClient : bool;
  edges : EdgeManager.EdgeManager;
}.
#[global] Instance Inter_eta : RecordEta Inter := fun s => mkInter (win s) (op s) (moveResizeClient s) (edges s).

Definition set_geometry (g : QRect) (w : Window) : Window :=
  w <| move_resize := (move_resize w) <| mr_geometry := g |> |>.
Definition set_enabled (b : bool) (w : Window) : Window := w <| move_resize := (move_resize w) <| enabled := b |> |>.
Definition set_contact (c : position) (w : Window) : Window := w <| move_resize := (move_resize w) <| contact := c |> |>.
Definition geo (s : Inter) : QRect := mr_geometry (move_resize (win s)).

Definition sign (v : Z) : Z := Z.b2z (0 <? v) - Z.b2z (v <? 0).

(** isMovableAcrossScreens of a Wayland toplevel. *)
Definition isMovableAcrossScreens (w : Window) : bool :=
  if negb (bool_decide (Rules.checkPosition (rules w) Rules.invalidPoint false = Rules.invalidPoint)) then false
  else match plasma_shell_surface w with Some normal => normal | None => true end.

(** ** Restricted or not *)

Section Margins.
Variable E : Env.

Definition has_unrestricted_resize (area : QRect) (m : QMargins) (g : QRect) : bool :=
  let left_marge := Z.min (100 + mr m) (rw g) in
  let right_marge := Z.min (100 + ml m) (rw g) in
  let top_marge := mb m in
  let bottom_marge := mt m in
  (bottom g <? top area + top_marge) || (bottom area - bottom_marge <? top g) ||
  (right g <? left area + left_marge) || (right area - right_marge <? left g) || (top g <? top area).

Definition has_unrestricted_move (area : QRect) (m : QMargins) (titlebar_marge : Z) (g : QRect) : bool :=
  let left_marge := Z.min (100 + mr m) (rw g) in
  let right_marge := Z.min (100 + ml m) (rw g) in
  let bottom_marge := mt m in
  (bottom g <? top area + titlebar_marge - 1) || (bottom area - bottom_marge + 1 <? top g) ||
  (right g <? left area + left_marge) || (right area - right_marge <? left g).

Definition check_unrestricted_move_resize (s : Inter) : Inter :=
  if unrestricted (op s) then s
  else
    let w := win s in
    let area := area_at E WorkAreaOption (Qt.center (geo s)) (desktop w) in
    let m := frame_margins w in
    let o := op s in
    let o := if is_resize w && has_unrestricted_resize area m (geo s) then o <| unrestricted := true |> else o in
    let o := if is_move w && has_unrestricted_move area m (rh (initial_geometry o)) (geo s)
             then o <| unrestricted := true |> else o in
    s <| op := o |>.
End Margins.

(** ** Start *)

Definition stop_delayed_move_resize (s : Inter) : Inter := s <| op := (op s) <| delay_timer := false |> |>.

Section Operation.
Variable E : Env.
Variable V : View.
Variable window : wid.
Variable screen_of : Window -> nat.

(** The restore geometry of a window that is to be moved. *)
Definition prepare_move (w : Window) : Window :=
  if negb (max_mode w =? full) && (quicktiling w =? quicktiles.none) && negb (upd_fullscreen w)
  then w <| restore_maximize := frameGeometry w |> else w.

(** A window that is to be resized leaves the maximized and the tiled state. *)
Definition prepare_resize (w : Window) : Window :=
  let was_maxed_full := max_mode w =? full in
  let w1 := w <| restore_maximize := frameGeometry w |> in
  let w2 := if was_maxed_full then set_maximize E V window false false w1 else w1 in
  let w3 := if negb (quicktiling w2 =? quicktiles.none)
            then set_quicktile_mode E V window screen_of quicktiles.none false w2 else w2 in
  w3 <| restore_maximize := null_rect |>.

Definition begin_operation (s : Inter) : Inter :=
  let w := win s in
  let w1 := if bool_decide (contact (move_resize w) = center) then prepare_move w else prepare_resize w in
  let g := pending_frame_geometry w1 in
  let s1 := s <| win := set_geometry g (set_enabled true w1) |> <| moveResizeClient := true |>
              <| op := (op s) <| initial_geometry := g |> <| start_screen := screen_of w1 |> |> in
  let s2 := check_unrestricted_move_resize E s1 in
  if ScreenEdges.isDesktopSwitchingMovingClients (EdgeManager.m_config (edges s2))
  then s2 <| edges := EdgeManager.reserveDesktopSwitching true (true, true) (edges s2) |> else s2.

(** [popup] is whether a popup of the program has the grab. *)
Definition start_move_resize (popup : bool) (s : Inter) : Inter * bool :=
  let s := stop_delayed_move_resize s in
  if popup then (s, false)
  else if fullscreen (win s) && ((m_count (screens E) <? 2) || negb (isMovableAcrossScreens (win s))) then (s, false)
  else (begin_operation s, true).

(** ** Resizing with the pointer *)

(** The geometry that a drag to the two corner points gives; [None] is abort(). *)
Definition calculate (mode : position) (topleft bottomright : QPoint) (orig : QRect) : option QRect :=
  match mode with
  | top_left => Some (of_edges (px topleft) (py topleft) (right orig) (bottom orig))
  | bottom_right => Some (of_edges (left orig) (top orig) (px bottomright) (py bottomright))
  | bottom_left => Some (of_edges (px topleft) (ry orig) (right orig) (py bottomright))
  | top_right => Some (of_edges (rx orig) (py topleft) (px bottomright) (bottom orig))
  | p_top => Some (of_edges (left orig) (py topleft) (right orig) (bottom orig))
  | p_bottom => Some (of_edges (left orig) (top orig) (right orig) (py bottomright))
  | p_left => Some (of_edges (px topleft) (top orig) (right orig) (bottom orig))
  | p_right => Some (of_edges (left orig) (top orig) (px bottomright) (bottom orig))
  | center => None
  end.

(** The title bar of the geometry, at the origin, and the pixels of it that must stay
    visible. *)
Definition title_rect (w : Window) (g : QRect) : QRect := mkRect 0 0 (rw g) (mt (frame_margins w)).
Definition required_pixels (r g : QRect) : Z := Z.min (100 * rh r) (rw g * rh g).

Definition pixels (r : QRect) : Z := rw r * rh r.
(** All visible pixels of the title, and those in areas of its full height. *)
Definition real_visible (available : list QRect) (title : QRect) : Z :=
  foldl (fun n r => n + pixels (intersected r title)) 0 available.
Definition visible (available : list QRect) (title : QRect) : Z :=
  foldl (fun n r => let i := intersected r title in if rh i =? rh title then n + pixels i else n) 0 available.
Definition title_at (title g : QRect) : QRect := translated title (topLeft g).

Section Restrict.
Variable available : list QRect.
Variable title : QRect.
Variable required : Z.
Variable previous : QRect.

(** One edge of [g] moved by a pixel towards the one of [previous]; the bottom edge is
    never moved. *)
Definition move_edge_back (titleFailed : bool) (g : QRect) : option QRect :=
  let topChanged := negb (top previous =? top g) && negb titleFailed in
  let leftChanged := negb (left previous =? left g) && negb topChanged in
  let rightChanged := negb (right previous =? right g) && negb topChanged in
  if topChanged then Some (setTop g (ry g + sign (ry previous - ry g)))
  else if leftChanged then Some (setLeft g (rx g + sign (rx previous - rx g)))
  else if rightChanged then Some (setRight g (right g + sign (right previous - right g)))
  else None.

Record Restriction := mkRestriction { r_geo : QRect; lastTry : QRect; titleFailed : bool; lastVisiblePixels : Z }.

(** One round: the result, or the state with which to go on. *)
Definition restrict_round (r : Restriction) : QRect + Restriction :=
  let t := title_at title (r_geo r) in
  let real := real_visible available t in
  if required <=? visible available t then inl (r_geo r)
  else if (real <=? lastVisiblePixels r) && titleFailed r && (real <? lastVisiblePixels r) then inl (r_geo r)
  else
    let worse := real <=? lastVisiblePixels r in
    let g := if worse && negb (titleFailed r) then lastTry r else r_geo r in
    let failed := worse || titleFailed r in
    match move_edge_back failed g with
    | Some g' => inr (mkRestriction g' g failed real)
    | None => inl g
    end.

Fixpoint restrict_loop (fuel : nat) (r : Restriction) : option QRect :=
  match fuel with
  | O => None
  | S fuel' => match restrict_round r with inl g => Some g | inr r' => restrict_loop fuel' r' end
  end.

(** As many rounds as the edges are away from the previous ones, and three more. *)
Definition restrict_fuel (g : QRect) : nat :=
  Z.to_nat (Z.abs (top previous - top g) + Z.abs (left previous - left g) + Z.abs (right previous - right g) + 3).

Definition restrict_resize (g : QRect) : option QRect :=
  restrict_loop (restrict_fuel g) (mkRestriction g g false (-1)).

(** Moving: back by a pixel in one direction, or under a panel at the top. *)
Variable struts : list QRect.
Variable many_screens : bool.

Definition below_panel (g : QRect) : option Z :=
  (fun r => bottom r + 1) <$>
    head (filter (fun r => (top r =? 0) && (rh r <? rw r) && intersects r g && (top g <? bottom r) = true) struts).

Definition move_back_step (visiblePixels : Z) (g : QRect) : QRect :=
  let dx := sign (rx previous - rx g) in
  let dy := sign (ry previous - ry g) in
  let '(dx, dy) := if negb (visiblePixels =? 0) && negb (dx =? 0) then (dx, 0)
                   else if negb (dy =? 0) then (0, dy) else (dx, dy) in
  translated g (mkPoint dx dy).

Fixpoint move_back (fuel : nat) (g : QRect) : option QRect :=
  match fuel with
  | O => None
  | S fuel' =>
      let n := visible available (title_at title g) in
      if required <=? n then Some g
      else match (if many_screens then below_panel g else None) with
      | Some newTitleTop =>
          if -1 <? newTitleTop then Some (moveTop g newTitleTop)
          else let g' := move_back_step n g in if bool_decide (g' = previous) then Some g' else move_back fuel' g'
      | None => let g' := move_back_step n g in if bool_decide (g' = previous) then Some g' else move_back fuel' g'
      end
  end.

Definition move_back_fuel (g : QRect) : nat :=
  Z.to_nat (Z.abs (rx previous - rx g) + Z.abs (ry previous - ry g) + 1).
End Restrict.

(** ** A step with the pointer *)

Variable opts : SnapOptions.
(** The rectangles of the area that panels leave free, for the desktop of a window. *)
Variable available : Window -> list QRect.
Variable have_resize_effect : bool.
Variable startDragDistance : Z.

Definition many_screens : bool := 1 <? m_count (screens E).
Definition struts_of (w : Window) : list QRect :=
  restrictedMoveArea (current_desktop E) (areas E) (desktop w) (fun _ => true).

(** The new geometry of a resize. *)
Definition resize_geometry (s : Inter) (global : QPoint) : option QRect :=
  let w := win s in
  let mode := contact (move_resize w) in
  let previous := geo s in
  g1 ← calculate mode (psub global (offset (op s))) (padd global (inverted_offset (op s))) (initial_geometry (op s));
  g2 ← adjustClientSize E V opts window w g1 mode;
  g3 ← (if unrestricted (op s) then Some g2
        else let title := title_rect w g2 in
             restrict_resize (available w) title (required_pixels title g2) previous g2);
  let sz := adjusted_frame_size w (size g3) in
  let topleft := mkPoint (right g3 - sw sz + 1) (bottom g3 - sh sz + 1) in
  let bottomright := mkPoint (left g3 + sw sz - 1) (top g3 + sh sz - 1) in
  let orig := match mode with
              | p_top | p_bottom => setRight g3 (px bottomright)
              | p_left | p_right => setBottom g3 (py bottomright)
              | _ => g3
              end in
  calculate mode topleft bottomright orig.

(** The new geometry of a move; a window that may only change the screen fills it. *)
Definition move_geometry (s : Inter) (global : QPoint) : option QRect :=
  let w := win s in
  let previous := geo s in
  if negb (isMovable w) then
    let screen := number (screens E) global in
    let area opt := clientArea_screen (screens E) (current_screen E) (current_desktop E) (areas E) opt screen 0 in
    if fullscreen w then Some (area FullScreenArea)
    else
      let g := area MaximizeArea in
      let adjSize := adjusted_frame_size w (size g) in
      Some (if bool_decide (adjSize = size g) then g else moveCenter (setSize g adjSize) (Qt.center g))
  else
    let g := moveTo previous (psub global (offset (op s))) in
    let g := moveTo g (adjustClientPosition E V opts window w id (topLeft g) (unrestricted (op s))) in
    if unrestricted (op s) then Some g
    else let title := title_rect w g in
         move_back (available w) title (required_pixels title g) previous (struts_of w) many_screens
           (move_back_fuel previous g) g.

(** perform_move_resize and doResizeSync. *)
Definition perform_move_resize (w : Window) : Window :=
  if is_move w then setFrameGeometry (mr_geometry (move_resize w)) w else w.
Definition apply_step (w : Window) : Window :=
  if is_resize w && negb have_resize_effect then configure_geometry (mr_geometry (move_resize w)) w
  else perform_move_resize w.

(** A step of an operation that has started: whether something changed. *)
Definition step_operation (s : Inter) (global : QPoint) : option (Inter * bool) :=
  let previous := geo s in
  if is_resize (win s) then
    g ← resize_geometry s global;
    Some (s <| win := set_geometry g (win s) |>, negb (bool_decide (size g = size previous)))
  else if is_move (win s) then
    g ← move_geometry s global;
    Some (s <| win := set_geometry g (win s) |>, negb (bool_decide (topLeft g = topLeft previous)))
  else None.

(** move_resize_impl; the result says at which point the screen edges are checked. *)
Definition move_resize_impl (popup : bool) (p global : QPoint) (s : Inter) : option (Inter * option QPoint) :=
  let w := win s in
  let mode := contact (move_resize w) in
  if (bool_decide (mode = center) && negb (isMovableAcrossScreens w)) ||
     (negb (bool_decide (mode = center)) && negb (isResizable w)) then Some (s, None)
  else
    let '(s1, go_on) :=
      if enabled (move_resize w) then (s, true)
      else if startDragDistance <=? manhattanLength (psub p (offset (op s))) then
        let '(s', ok) := start_move_resize popup s in
        if ok then (s', true) else (s' <| op := (op s') <| button_down := false |> |>, false)
      else (s, false) in
    if negb go_on then Some (s1, None)
    else
      r ← step_operation s1 global;
      if negb r.2 then Some (r.1, None)
      else
        let s2 := r.1 <| win := apply_step (win r.1) |> in
        Some (s2, if is_move (win s2) then Some global else None).

(** ** Tiling at the borders *)

Record TilingOptions := mkTiling {
  electricBorderTiling : bool;
  electricBorderMaximize : bool;
  corner_height : Z -> Z;                  (** the height times the corner ratio, rounded down *)
}.
Variable tiling : TilingOptions.

Definition in_other_screen (i : nat) (p : QPoint) : bool :=
  existsb (fun '(j, g) => negb (Nat.eqb j i) && contains_point g p) (imap pair (screen_geometries (screens E))).

(** The mode that a point asks for, and whether it is at a border to another screen. *)
Definition zone_mode (w : Window) (p : QPoint) : Z * bool :=
  match list_find (fun g => contains_point g p = true) (screen_geometries (screens E)) with
  | None => (quicktiles.none, false)
  | Some (i, _) =>
      let area := area_at E MaximizeArea p (desktop w) in
      let '(mode, inner) :=
        if electricBorderTiling tiling then
          if px p <=? rx area + 20 then (quicktiles.left, in_other_screen i (mkPoint (rx area - 1) (py p)))
          else if rx area + rw area - 20 <=? px p
          then (quicktiles.right, in_other_screen i (mkPoint (right area + 1) (py p)))
          else (quicktiles.none, false)
        else (quicktiles.none, false) in
      if negb (mode =? quicktiles.none) then
        (if py p <=? ry area + corner_height tiling (rh area) then Z.lor mode quicktiles.top
         else if ry area + rh area - corner_height tiling (rh area) <=? py p then Z.lor mode quicktiles.bottom
         else mode, inner)
      else if electricBorderMaximize tiling && (py p <=? ry area + 5) && isMaximizable w
      then (quicktiles.maximize, in_other_screen i (mkPoint (px p) (ry area - 1)))
      else (mode, inner)
  end.

(** check_quicktile_maximization_zones; the flag says that a timer has been started. *)
Definition check_quicktile_maximization_zones (p : QPoint) (w : Window) : Window * bool :=
  let '(mode, inner) := zone_mode w p in
  if mode =? electric w then (w, false)
  else
    let w1 := set_electric mode w in
    if inner then (w1, true) else (w1 <| electric_maximizing := negb (mode =? quicktiles.none) |>, false).

(** The timer of delayed_electric_maximize. *)
Definition electric_timeout (w : Window) : Window :=
  if is_move w then w <| electric_maximizing := negb (electric w =? quicktiles.none) |> else w.

(** The offset of the pointer in a window of another size; the code computes with doubles,
    here with exact fractions, rounded towards zero. *)
Definition scaled_offset (o : QPoint) (old new : QSize) : QPoint :=
  mkPoint (Z.quot (px o * sw new) (sw old)) (Z.quot (py o * sh new) (sh old)).

(** move_resize *)
Definition move_resize_window (popup : bool) (local global : QPoint) (s : Inter) : option Inter :=
  let old_geo := frameGeometry (win s) in
  let restore_geo := restore_maximize (win s) in
  r ← move_resize_impl popup local global s;
  let s1 := r.1 in
  let w1 := win s1 in
  if fullscreen w1 || negb (is_move w1) then Some s1
  else if quicktiling w1 =? quicktiles.none then
    Some (if isResizable w1 then s1 <| win := (check_quicktile_maximization_zones global w1).1 |> else s1)
  else if bool_decide (old_geo = upd_frame w1) then Some s1
  else
    let w2 := set_quicktile_mode E V window screen_of quicktiles.none false (block_updates w1) in
    let old_restore := if isValid restore_geo then restore_geo else frameGeometry w2 in
    let o := scaled_offset (offset (op s1)) (size old_geo) (size old_restore) in
    let w3 := if Rules.checkMaximize (rules w2) restore false =? restore then set_geometry old_restore w2 else w2 in
    r' ← move_resize_impl popup local global (s1 <| win := w3 |> <| op := (op s1) <| offset := o |> |>);
    Some (r'.1 <| win := unblock_updates (win r'.1) |>).

(** ** End *)

(** Toplevel::leaveMoveResize *)
Definition leaveMoveResize (s : Inter) : Inter :=
  let s1 := s <| moveResizeClient := false |> <| win := set_enabled false (win s) |> in
  if ScreenEdges.isDesktopSwitchingMovingClients (EdgeManager.m_config (edges s1))
  then s1 <| edges := EdgeManager.reserveDesktopSwitching false (true, true) (edges s1) |> else s1.

(** send_to_screen, of the window without its transient children. *)
Definition send_to_screen (new_screen : Z) (w : Window) : Window :=
  let new_screen := Rules.checkScreen (rules w) (m_count (screens E)) new_screen false in
  if Z.of_nat (screen_of w) =? new_screen then w
  else blocked (fun w =>
    let old_restore_geo := restore_maximize w in
    let old_frame_geo := upd_frame w in
    let frame_geo := if isValid old_restore_geo then old_restore_geo else old_frame_geo in
    let max_mode := upd_max_mode w in
    let qtMode := quicktiling w in
    let w1 := if negb (max_mode =? restore) then update_maximized E V window restore w else w in
    let w2 := if negb (qtMode =? quicktiles.none)
              then set_quicktile_mode E V window screen_of quicktiles.none true w1 else w1 in
    let oldScreenArea := area_of E MaximizeArea w2 in
    let screenArea := clientArea_screen (screens E) (current_screen E) (current_desktop E) (areas E) MaximizeArea
                        new_screen (desktop w2) in
    let w3 := if negb (qtMode =? quicktiles.none) then keep_in_area E oldScreenArea false w2 else w2 in
    let c := psub (Qt.center frame_geo) (Qt.center oldScreenArea) in
    let c := mkPoint (Z.quot (px c * rw screenArea) (rw oldScreenArea)) (Z.quot (py c * rh screenArea) (rh oldScreenArea)) in
    let w4 := setFrameGeometry (moveCenter frame_geo (padd c (Qt.center screenArea))) w3 in
    let w5 := if rect_contains oldScreenArea old_frame_geo then keep_in_area E screenArea false w4 else w4 in
    let restore_geo := upd_frame w5 in
    let w6 := check_workspace_position E V window old_frame_geo None null_rect w5 in
    let w7 := if negb (max_mode =? restore)
              then (update_maximized E V window max_mode w6) <| restore_maximize := restore_geo |> else w6 in
    if negb (qtMode =? quicktiles.none) && negb (qtMode =? quicktiling w7)
    then (set_quicktile_mode E V window screen_of qtMode true w7) <| restore_maximize := restore_geo |> else w7) w.

(** The geometry at the end: back to the initial one, or the new one, with which a window
    that is resized in its maximized direction is no longer maximized. *)
Definition final_geometry (cancel wasResize : bool) (o : Op) (w : Window) : Window :=
  if cancel then setFrameGeometry (initial_geometry o) w
  else
    let g := mr_geometry (move_resize w) in
    let w1 := if wasResize then
        let mode := upd_max_mode w in
        let mode := if ((mode =? horizontal) && negb (rw g =? rw (initial_geometry o))) ||
                       ((mode =? vertical) && negb (rh g =? rh (initial_geometry o))) then restore else mode in
        update_maximized E V window mode w
      else w in
    setFrameGeometry g w1.

Definition follow_screen (o : Op) (w : Window) : Window :=
  if Nat.eqb (screen_of w) (start_screen o) then w
  else let w1 := send_to_screen (Z.of_nat (screen_of w)) w in
       if negb (upd_max_mode w1 =? restore) then check_workspace_position E V window null_rect None null_rect w1 else w1.

Definition finish_tiling (w : Window) : Window :=
  if electric_maximizing w
  then (set_quicktile_mode E V window screen_of (electric w) false w) <| electric_maximizing := false |> else w.

Definition forget_restore (w : Window) : Window :=
  if (upd_max_mode w =? restore) && (quicktiling w =? quicktiles.none) && negb (upd_fullscreen w)
  then w <| restore_maximize := null_rect |> else w.

Definition finish_move_resize (cancel : bool) (s : Inter) : Inter :=
  let wasResize := is_resize (win s) in
  let s1 := leaveMoveResize (s <| win := set_enabled false (block_updates (win s)) |>) in
  let w1 := final_geometry cancel wasResize (op s1) (win s1) in
  let w2 := forget_restore (finish_tiling (follow_screen (op s1) w1)) in
  s1 <| win := unblock_updates w2 |>.

(** [section] is the position of the pointer on the decoration. *)
Definition end_move_resize (section : position) (s : Inter) : Inter :=
  let s1 := stop_delayed_move_resize (s <| op := (op s) <| button_down := false |> |>) in
  if enabled (move_resize (win s1)) then
    let s2 := finish_move_resize false s1 in s2 <| win := set_contact section (win s2) |>
  else s1.

(** ** Mouse commands and keys (src/win/input.h) *)

(** The commands for moving and resizing. *)
Definition command_move (popup restricted : bool) (globalPos : QPoint) (s : Inter) : Inter :=
  if negb (isMovableAcrossScreens (win s)) then s
  else
    let s := if enabled (move_resize (win s)) then finish_move_resize false s else s in
    let f := frameGeometry (win s) in
    let off := psub globalPos (topLeft f) in
    let s := s <| win := set_contact center (win s) |>
               <| op := (op s) <| button_down := true |> <| offset := off |>
                          <| inverted_offset := psub (mkPoint (rw f - 1) (rh f - 1)) off |>
                          <| unrestricted := negb restricted |> |> in
    let '(s', ok) := start_move_resize popup s in
    if ok then s' else s' <| op := (op s') <| button_down := false |> |>.

(** The part of the window under the pointer, in thirds. *)
Definition resize_contact (p : QPoint) (sz : QSize) : position :=
  let l := px p <? Z.quot (sw sz) 3 in
  let r := Z.quot (2 * sw sz) 3 <=? px p in
  let t := py p <? Z.quot (sh sz) 3 in
  let b := Z.quot (2 * sh sz) 3 <=? py p in
  if t then (if l then top_left else if r then top_right else p_top)
  else if b then (if l then bottom_left else if r then bottom_right else p_bottom)
  else if px p <? Z.quot (sw sz) 2 then p_left else p_right.

Definition command_resize (popup restricted : bool) (globalPos : QPoint) (s : Inter) : Inter :=
  if negb (isResizable (win s)) then s
  else
    let s := if enabled (move_resize (win s)) then finish_move_resize false s else s in
    let f := frameGeometry (win s) in
    let off := psub globalPos (topLeft f) in
    let s := s <| win := set_contact (resize_contact off (size f)) (win s) |>
               <| op := (op s) <| button_down := true |> <| offset := off |>
                          <| inverted_offset := psub (mkPoint (rw f - 1) (rh f - 1)) off |>
                          <| unrestricted := negb restricted |> |> in
    let '(s', ok) := start_move_resize popup s in
    if ok then s' else s' <| op := (op s') <| button_down := false |> |>.

(** The left button on the decoration starts a delayed operation. *)
Definition start_delayed_move_resize (s : Inter) : Inter := s <| op := (op s) <| delay_timer := true |> |>.
Definition decoration_press (section : position) (p : QPoint) (s : Inter) : Inter :=
  let f := frameGeometry (win s) in
  start_delayed_move_resize
    (s <| win := set_contact section (win s) |>
       <| op := (op s) <| button_down := true |> <| offset := p |>
                  <| inverted_offset := psub (mkPoint (rw f - 1) (rh f - 1)) p |> <| unrestricted := false |> |>).
Definition delay_timeout (popup : bool) (s : Inter) : Inter :=
  let '(s', ok) := start_move_resize popup s in
  stop_delayed_move_resize (if ok then s' else s' <| op := (op s') <| button_down := false |> |>).

Definition process_decoration_move (popup : bool) (section : position) (local global : QPoint) (s : Inter)
    : option Inter :=
  if button_down (op s) then fst <$> move_resize_impl popup local global s
  else Some (if bool_decide (section = contact (move_resize (win s))) then s
             else s <| win := set_contact section (win s) |>).

Definition decoration_release (section : position) (no_buttons : bool) (s : Inter) : Inter :=
  if no_buttons then end_move_resize section s else s.

Inductive Key := Key_Left | Key_Right | Key_Up | Key_Down | Key_Accept | Key_Escape | Key_Other.

(** key_press_event, with the pointer's new position if it is set. *)
Definition key_press_event (k : Key) (is_control is_alt : bool) (pos : QPoint) (s : Inter) : Inter * option QPoint :=
  if negb (is_move (win s)) && negb (is_resize (win s)) then (s, None)
  else
    let delta := if is_control then 1 else if is_alt then 32 else 8 in
    let finish cancel := finish_move_resize cancel (s <| op := (op s) <| button_down := false |> |>) in
    match k with
    | Key_Left => (s, Some (mkPoint (px pos - delta) (py pos)))
    | Key_Right => (s, Some (mkPoint (px pos + delta) (py pos)))
    | Key_Up => (s, Some (mkPoint (px pos) (py pos - delta)))
    | Key_Down => (s, Some (mkPoint (px pos) (py pos + delta)))
    | Key_Accept => (finish false, Some pos)
    | Key_Escape => (finish true, Some pos)
    | Key_Other => (s, None)
    end.
End Operation.

End MoveResize.
