(* ===== verification/MoveResizeProps.v ===== *)
(** * Properties of interactive moving and resizing

    Every step with the pointer ends; a resize keeps the edges that are not dragged and obeys
    the size limits; a restricted move leaves the title bar reachable; a cancelled operation
    goes back to where it began. *)

From S2P Require Import Prelude Qt WorkArea Rules Geometry GeometryProps Placement Maximize ScreenEdges EdgeManager ScreenEdgesFacts ScreenEdgesProps Snapping SnappingProps MoveResize.
From S2P Require Toplevel.

Module MoveResizeProps.
Import Qt WorkArea Geometry Maximize MoveResize.
Import GeometryProps(noted, setFrame_blocked, unblock_noted).
Import Placement(View).
Import ScreenEdges(reserved, border, action, touchAction, isCorner, reserve, unreserve, activate, deactivate, stopApproaching).
Import ScreenEdgesFacts ScreenEdgesProps.
Import EdgeManager(m_edges, m_config, m_actions, m_virtualDesktopLayout).
Import Snapping(SnapOptions, adjustClientSize).
Import SnappingProps(adjust_total, adjust_edges).

(** ** The loops end *)

Lemma sign_step v : v <> 0 -> Z.abs (v - sign v) = Z.abs v - 1.
Proof. unfold sign. intros. destruct (Z.ltb_spec 0 v), (Z.ltb_spec v 0); cbn [Z.b2z]; lia. Qed.

Lemma sign_zero v : sign v = 0 <-> v = 0.
Proof. unfold sign. destruct (Z.ltb_spec 0 v), (Z.ltb_spec v 0); cbn [Z.b2z]; lia. Qed.

Section Restrict.
Variable available : list QRect.
Variable title : QRect.
Variable required : Z.
Variable previous : QRect.

Definition top_away (g : QRect) : Z := Z.abs (top previous - top g).
Definition sides_away (g : QRect) : Z := Z.abs (left previous - left g) + Z.abs (right previous - right g).

(** A step back moves an edge nearer: a side, or the top if that is allowed. *)
Lemma move_edge_back_nearer failed g g' :
  move_edge_back previous failed g = Some g' ->
  (sides_away g' = sides_away g - 1 /\ top_away g' = top_away g) \/
  (failed = false /\ sides_away g' = sides_away g /\ top_away g' = top_away g - 1).
Proof.
  unfold move_edge_back, sides_away, top_away. intros H.
  destruct (negb (top previous =? top g) && negb failed) eqn:Ht.
  - right. injection H as <-. destruct failed; [lia|]. unfold setTop. rewrite andb_true_r in Ht.
    destruct (of_edges_edges (left g) (ry g + sign (ry previous - ry g)) (right g) (bottom g)) as (-> & -> & -> & _).
    unfold top in *. split_and!; [done|done|].
    rewrite <- (sign_step (ry previous - ry g)) by lia. lia.
  - cbn [negb] in H. rewrite !andb_true_r in H. left.
    destruct (left previous =? left g) eqn:Hl; cbn [negb] in H.
    + destruct (right previous =? right g) eqn:Hr; cbn [negb] in H; [done|]. injection H as <-. unfold setRight.
      destruct (of_edges_edges (left g) (top g) (right g + sign (right previous - right g)) (bottom g)) as (-> & -> & -> & _).
      split; [|done]. pose proof (sign_step (right previous - right g)). lia.
    + injection H as <-. unfold setLeft.
      destruct (of_edges_edges (rx g + sign (rx previous - rx g)) (top g) (right g) (bottom g)) as (-> & -> & -> & _).
      split; [|done]. unfold left in *. pose proof (sign_step (rx previous - rx g)). lia.
Qed.

(** What is left to do: once the title has failed, only the sides move. *)
Definition rounds_left (r : Restriction) : Z :=
  sides_away (r_geo r) + (if titleFailed r then 0 else top_away (r_geo r) + 2).
Definition near_last (r : Restriction) : Prop :=
  titleFailed r = true \/ sides_away (lastTry r) <= sides_away (r_geo r) + 1.

(** Arithmetic on distances, without the conditions of the round. *)
Ltac only_distances :=
  repeat match goal with H : @eq bool _ _ |- _ => clear H end;
  repeat match goal with x := _ : bool |- _ => clear x end; lia.

Lemma restrict_round_nearer r r' :
  near_last r -> restrict_round available title required previous r = inr r' ->
  rounds_left r' < rounds_left r /\ near_last r'.
Proof.
  intros Hn H. unfold restrict_round in H. case_match; [done|]. case_match; [done|].
  match type of H with context [move_edge_back previous ?f ?g] =>
    destruct (move_edge_back previous f g) as [g'|] eqn:Hm; [|done]; set (failed := f) in *; set (g0 := g) in * end.
  injection H as <-. unfold rounds_left, near_last in *. cbn [r_geo titleFailed lastTry].
  apply move_edge_back_nearer in Hm. unfold sides_away, top_away in *.
  destruct (titleFailed r) eqn:Hf.
  - assert (failed = true) as -> by (unfold failed; by rewrite orb_true_r).
    assert (g0 = r_geo r) as -> by (unfold g0; by rewrite andb_false_r).
    split; [|by left]. destruct Hm as [[? ?]|[? _]]; [lia|done].
  - destruct Hn as [?|Hn]; [congruence|].
    destruct failed eqn:Hfl.
    + split; [|by left]. destruct Hm as [[? ?]|[? _]]; [|done].
      assert (g0 = r_geo r \/ g0 = lastTry r) as [E|E] by (unfold g0; case_match; auto);
        clearbody g0; subst g0; cbv iota; only_distances.
    + assert (g0 = r_geo r) as E.
      { unfold g0, failed in *. apply orb_false_iff in Hfl as [-> _]. done. }
      clearbody g0. subst g0. cbv iota. split; [|right]; destruct Hm as [[? ?]|(_ & ? & ?)]; only_distances.
Qed.

Lemma restrict_loop_ends fuel r :
  near_last r -> rounds_left r < Z.of_nat fuel -> is_Some (restrict_loop available title required previous fuel r).
Proof.
  revert r. induction fuel as [|fuel IH]; intros r Hn Hf.
  - unfold rounds_left, sides_away, top_away in Hf. destruct (titleFailed r); lia.
  - cbn. destruct (restrict_round available title required previous r) as [g|r'] eqn:E; [done|].
    destruct (restrict_round_nearer r r' Hn E). apply IH; [done|lia].
Qed.

Lemma restrict_resize_ends g : is_Some (restrict_resize available title required previous g).
Proof.
  apply restrict_loop_ends; [right; cbn; lia|]. unfold rounds_left, restrict_fuel, sides_away, top_away.
  cbn [r_geo titleFailed]. lia.
Qed.

(** *** Moving back *)

Variable struts : list QRect.
Variable many : bool.

Definition away (g : QRect) : Z := Z.abs (rx previous - rx g) + Z.abs (ry previous - ry g).

Lemma move_back_step_nearer n g :
  size g = size previous -> g <> previous ->
  away (move_back_step previous n g) = away g - 1 /\ size (move_back_step previous n g) = size previous.
Proof.
  intros Hs Hne. unfold move_back_step, away.
  assert (rx previous - rx g <> 0 \/ ry previous - ry g <> 0) as Hd.
  { destruct (decide (rx previous = rx g)); [|lia]. right. intros ?. apply Hne. destruct g, previous. cbn in *.
    unfold size in Hs. cbn in Hs. injection Hs as -> ->. f_equal; lia. }
  set (dx := sign (rx previous - rx g)). set (dy := sign (ry previous - ry g)).
  pose proof (sign_step (rx previous - rx g)) as Sx. pose proof (sign_step (ry previous - ry g)) as Sy.
  pose proof (sign_zero (rx previous - rx g)) as Zx. pose proof (sign_zero (ry previous - ry g)) as Zy.
  fold dx in Sx, Zx. fold dy in Sy, Zy.
  destruct (negb (n =? 0) && negb (dx =? 0)) eqn:Hc.
  - apply andb_true_iff in Hc as [_ Hc]. cbn. split; [|by rewrite <- Hs]. lia.
  - destruct (dy =? 0) eqn:Hy; cbn; (split; [|by rewrite <- Hs]).
    + assert (dx <> 0) by lia. lia.
    + lia.
Qed.

Lemma move_back_step_same n g :
  g = previous -> move_back_step previous n g = previous.
Proof.
  intros ->. unfold move_back_step.
  rewrite !Z.sub_diag. change (sign 0) with 0. cbn. rewrite andb_false_r. destruct previous. unfold translated. cbn.
  f_equal; lia.
Qed.

(** Where moving back can end. *)
Definition moved_back (g' : QRect) : Prop :=
  size g' = size previous /\
  (required <= visible available (title_at title g') \/ g' = previous \/
   exists r g, r ∈ struts /\ top r = 0 /\ rh r < rw r /\ g' = moveTop g (bottom r + 1)).

Lemma move_back_ends fuel g :
  size g = size previous -> away g < Z.of_nat fuel ->
  exists g', move_back available title required previous struts many fuel g = Some g' /\ moved_back g'.
Proof.
  revert g. induction fuel as [|fuel IH]; intros g Hs Hf; [unfold away in Hf; lia|]. cbn [move_back].
  destruct (Z.leb_spec required (visible available (title_at title g))) as [Hv|_].
  { exists g. split; [done|]. split; [done|]. by left. }
  assert (exists g', (if bool_decide (move_back_step previous (visible available (title_at title g)) g = previous)
    then Some (move_back_step previous (visible available (title_at title g)) g)
    else move_back available title required previous struts many fuel
           (move_back_step previous (visible available (title_at title g)) g)) = Some g' /\ moved_back g') as Hstep.
  { set (n := visible available (title_at title g)).
    destruct (decide (g = previous)) as [E|Hne].
    - rewrite (move_back_step_same n g E), bool_decide_true by done. exists previous. split; [done|].
      split; [done|]. right. by left.
    - destruct (move_back_step_nearer n g Hs Hne) as [Ha Hs'].
      destruct (bool_decide_reflect (move_back_step previous n g = previous)) as [E|_].
      + rewrite E. exists previous. split; [done|]. split; [done|]. right. by left.
      + apply IH; [done|lia]. }
  destruct (if many then below_panel struts g else None) as [t|] eqn:Hp; [|exact Hstep].
  destruct (-1 <? t); [|exact Hstep].
  destruct many; [|done]. unfold below_panel in Hp.
  destruct (filter _ struts) as [|r l] eqn:Hl; [done|]. cbn in Hp. injection Hp as <-.
  assert (r ∈ filter (fun r => (top r =? 0) && (rh r <? rw r) && intersects r g && (top g <? bottom r) = true) struts)
    as Hr by (rewrite Hl; left).
  apply list_elem_of_filter in Hr as [Hr Hin].
  apply andb_true_iff in Hr as [[[Hr1 Hr2]%andb_true_iff _]%andb_true_iff _].
  exists (moveTop g (bottom r + 1)). split; [done|]. split; [done|]. right. right.
  exists r, g. split; [done|]. split_and!; [lia|lia|done].
Qed.
End Restrict.

Section Operation.
Variable E : Env.
Variable V : View.
Variable window : wid.
Variable screen_of : Window -> nat.
Variable opts : SnapOptions.
Variable available : Window -> list QRect.
Variable have_resize_effect : bool.
Variable startDragDistance : Z.

Notation resize_geometry := (resize_geometry E V window opts available).
Notation move_geometry := (move_geometry E V window opts available).
Notation step_operation := (step_operation E V window opts available).
Notation move_resize_impl := (move_resize_impl E V window screen_of opts available have_resize_effect startDragDistance).

Lemma calculate_some mode p q orig : mode <> center -> is_Some (calculate mode p q orig).
Proof. destruct mode; done. Qed.

Lemma resize_geometry_ends s global :
  is_resize (win s) = true -> is_Some (resize_geometry s global).
Proof.
  intros Hr. unfold MoveResize.resize_geometry.
  assert (contact (move_resize (win s)) <> center) as Hc.
  { unfold is_resize in Hr. destruct (bool_decide_reflect (contact (move_resize (win s)) = center)); [|done].
    by rewrite andb_false_r in Hr. }
  set (mode := contact (move_resize (win s))) in *.
  match goal with |- context [calculate mode ?p ?q ?o] => destruct (calculate_some mode p q o Hc) as [g1 ->] end.
  cbn [mbind option_bind].
  destruct (adjust_total E V opts window (win s) g1 mode Hc) as (g2 & ->). cbn [mbind option_bind].
  assert (exists g3, (if unrestricted (op s) then Some g2
    else restrict_resize (available (win s)) (title_rect (win s) g2) (required_pixels (title_rect (win s) g2) g2)
           (geo s) g2) = Some g3) as (g3 & E3).
  { destruct (unrestricted (op s)); [by exists g2|]. apply restrict_resize_ends. }
  cbv zeta. rewrite E3. cbn [mbind option_bind]. by apply calculate_some.
Qed.

Lemma moved_back_start g previous : size (moveTo previous g) = size previous.
Proof. done. Qed.

Lemma move_geometry_ends s global :
  isMovable (win s) = true -> unrestricted (op s) = false ->
  exists g required, move_geometry s global = Some g /\
    moved_back (available (win s)) (title_rect (win s) (geo s)) required (geo s) (struts_of E (win s)) g /\
    required = required_pixels (title_rect (win s) (geo s)) (geo s).
Proof.
  intros Hm Hu. unfold MoveResize.move_geometry. rewrite Hm, Hu. cbn [negb]. cbv zeta.
  set (g0 := moveTo (moveTo (geo s) _) _).
  assert (size g0 = size (geo s)) as Hs by done.
  assert (title_rect (win s) g0 = title_rect (win s) (geo s)) as Ht by done.
  assert (forall t, required_pixels t g0 = required_pixels t (geo s)) as Hq by done.
  rewrite Ht, Hq.
  destruct (move_back_ends (available (win s)) (title_rect (win s) (geo s))
    (required_pixels (title_rect (win s) (geo s)) (geo s)) (geo s) (struts_of E (win s)) (many_screens E)
    (move_back_fuel (geo s) g0) g0 Hs) as (g & Hg & Hb).
  { unfold away, move_back_fuel. lia. }
  exists g, (required_pixels (title_rect (win s) (geo s)) (geo s)). done.
Qed.

Lemma move_geometry_some s global : is_Some (move_geometry s global).
Proof.
  destruct (isMovable (win s)) eqn:Hm.
  - destruct (unrestricted (op s)) eqn:Hu.
    + unfold MoveResize.move_geometry. rewrite Hm, Hu. cbn [negb]. cbv zeta. done.
    + destruct (move_geometry_ends s global Hm Hu) as (g & r & -> & _). done.
  - unfold MoveResize.move_geometry. rewrite Hm. cbn [negb]. cbv zeta. by destruct (fullscreen _).
Qed.

Lemma step_operation_ends s global : enabled (move_resize (win s)) = true -> is_Some (step_operation s global).
Proof.
  intros He. unfold MoveResize.step_operation. destruct (is_resize (win s)) eqn:Hr.
  - by destruct (resize_geometry_ends s global Hr) as [g ->].
  - assert (is_move (win s) = true) as ->.
    { unfold is_resize, is_move in *. rewrite He in *. by destruct (bool_decide _). }
    by destruct (move_geometry_some s global) as [g ->].
Qed.

Lemma begin_enabled s : enabled (move_resize (win (begin_operation E V window screen_of s))) = true.
Proof.
  unfold begin_operation. cbv zeta. set (s1 := _ <| op := _ |>).
  assert (win (check_unrestricted_move_resize E s1) = win s1) as Hw
    by (unfold check_unrestricted_move_resize; by case_match).
  match goal with |- context [if ?c then _ else _] => destruct c end; cbn [win update]; by rewrite ?Hw.
Qed.

(** C31: every step of an interactive move or resize ends: whatever the windows, screens,
    panels and options are, handling a movement of the pointer neither aborts nor loops
    for ever, although the geometry is moved back pixel by pixel until enough of the title
    bar is visible. *)
Theorem pointer_steps_end popup p global s : exists s' check, move_resize_impl popup p global s = Some (s', check).
Proof.
  unfold MoveResize.move_resize_impl. cbv zeta. destruct (_ || _); [by eexists _, _|].
  set (start := if enabled _ then _ else _).
  assert (start.2 = true -> enabled (move_resize (win start.1)) = true) as He.
  { unfold start. destruct (enabled (move_resize (win s))) eqn:He; [done|].
    destruct (_ <=? _); [|done]. unfold start_move_resize. destruct popup; [done|].
    destruct (fullscreen _ && _); [done|]. cbn. intros _. apply begin_enabled. }
  destruct start as [s1 go_on]. cbn [fst snd] in He. destruct go_on; cbn [negb]; [|by eexists _, _].
  destruct (step_operation_ends s1 global (He eq_refl)) as [[s2 c] ->]. cbn [mbind option_bind fst snd].
  destruct c; by eexists _, _.
Qed.


(** ** The edges that are not dragged *)

(** The edges that a resize in a mode never touches are those of [r0]. *)
Definition anchored (mode : position) (r0 g : QRect) : Prop :=
  (match mode with p_right | top_right | bottom_right | p_top | p_bottom => left g = left r0 | _ => True end) /\
  (match mode with top_left | bottom_left | p_left => right g = right r0 | _ => True end) /\
  (match mode with p_bottom | bottom_left | bottom_right | p_left | p_right => top g = top r0 | _ => True end) /\
  (match mode with p_top | top_left | top_right => bottom g = bottom r0 | _ => True end).

Lemma anchored_refl mode r : anchored mode r r.
Proof. destruct mode; repeat split. Qed.

(** Moving an edge back towards a geometry with the same anchors keeps them. *)
Lemma move_edge_back_anchored mode r0 previous failed g g' :
  anchored mode r0 previous -> anchored mode r0 g -> move_edge_back previous failed g = Some g' -> anchored mode r0 g'.
Proof.
  unfold move_edge_back. intros (Pl & Pr & Pt & Pb) (Gl & Gr & Gt & Gb) H.
  destruct (negb (top previous =? top g) && negb failed) eqn:Ht.
  - injection H as <-. unfold setTop.
    destruct (of_edges_edges (left g) (ry g + sign (ry previous - ry g)) (right g) (bottom g)) as (El & Et & Er & Eb).
    unfold anchored. rewrite El, Et, Er, Eb. apply andb_true_iff in Ht as [Ht _].
    destruct mode; repeat split; auto; lia.
  - cbn [negb] in H. rewrite !andb_true_r in H. destruct (left previous =? left g) eqn:Hl; cbn [negb] in H.
    + destruct (right previous =? right g) eqn:Hr; cbn [negb] in H; [done|]. injection H as <-. unfold setRight.
      destruct (of_edges_edges (left g) (top g) (right g + sign (right previous - right g)) (bottom g)) as (El & Et & Er & Eb).
      unfold anchored. rewrite El, Et, Er, Eb. destruct mode; repeat split; auto; lia.
    + injection H as <-. unfold setLeft.
      destruct (of_edges_edges (rx g + sign (rx previous - rx g)) (top g) (right g) (bottom g)) as (El & Et & Er & Eb).
      unfold anchored. rewrite El, Et, Er, Eb. destruct mode; repeat split; auto; lia.
Qed.

Lemma restrict_loop_anchored mode r0 av title required previous fuel r g :
  anchored mode r0 previous -> anchored mode r0 (r_geo r) -> anchored mode r0 (lastTry r) ->
  restrict_loop av title required previous fuel r = Some g -> anchored mode r0 g.
Proof.
  intros Hp. revert r. induction fuel as [|fuel IH]; intros r Hg Hl H; [done|]. cbn in H.
  destruct (restrict_round av title required previous r) as [g1|r1] eqn:Er.
  - injection H as <-. unfold restrict_round in Er. repeat case_match; simplify_eq; done.
  - unfold restrict_round in Er. case_match; [done|]. case_match; [done|].
    match type of Er with context [move_edge_back previous ?f ?g0] =>
      assert (anchored mode r0 g0) as Hg0 by (destruct (_ && negb _); assumption);
      destruct (move_edge_back previous f g0) as [g'|] eqn:Hm; [|done] end.
    injection Er as <-. eapply IH, H; [|exact Hg0]. cbn [r_geo].
    eapply move_edge_back_anchored; [exact Hp|exact Hg0|exact Hm].
Qed.

Lemma adjusted_idempotent w sz : adjusted_frame_size w (adjusted_frame_size w sz) = adjusted_frame_size w sz.
Proof.
  unfold adjusted_frame_size. cbv zeta. set (mx := if _ <=? INT_MAX - sh _ then _ else _).
  set (mn := sadd _ _). unfold boundedTo, expandedTo. cbn [sw sh]. f_equal; lia.
Qed.

(** The geometry from which the size is taken, with the anchors kept, and the result. *)
Lemma calculate_anchored mode p q r0 g : calculate mode p q r0 = Some g -> anchored mode r0 g.
Proof.
  destruct mode; cbn; intros [= <-]; unfold anchored;
    match goal with |- context [of_edges ?l ?t ?r ?b] => destruct (of_edges_edges l t r b) as (E1 & E2 & E3 & E4); rewrite ?E1, ?E2, ?E3, ?E4 end;
    done.
Qed.

Lemma final_resize mode sz g3 g :
  calculate mode (mkPoint (right g3 - sw sz + 1) (bottom g3 - sh sz + 1))
    (mkPoint (left g3 + sw sz - 1) (top g3 + sh sz - 1))
    (match mode with
     | p_top | p_bottom => setRight g3 (left g3 + sw sz - 1)
     | p_left | p_right => setBottom g3 (top g3 + sh sz - 1)
     | _ => g3
     end) = Some g ->
  size g = sz /\ anchored mode g3 g.
Proof.
  unfold setRight, setBottom.
  destruct (of_edges_edges (left g3) (top g3) (left g3 + sw sz - 1) (bottom g3)) as (A1 & A2 & A3 & A4).
  destruct (of_edges_edges (left g3) (top g3) (right g3) (top g3 + sh sz - 1)) as (B1 & B2 & B3 & B4).
  destruct mode; cbn; intros [= <-]; unfold anchored;
    rewrite ?A1, ?A2, ?A3, ?A4, ?B1, ?B2, ?B3, ?B4;
    match goal with |- context [of_edges ?l ?t ?r ?b] => destruct (of_edges_edges l t r b) as (E1 & E2 & E3 & E4); rewrite ?E1, ?E2, ?E3, ?E4 end;
    (split; [apply size_eq; unfold of_edges, size; cbn; unfold left, top, right, bottom in *; cbn in *; lia|]);
    repeat split; unfold left, top, right, bottom in *; cbn in *; lia.
Qed.

Lemma anchored_trans mode r0 g g' : anchored mode r0 g -> anchored mode g g' -> anchored mode r0 g'.
Proof. intros (? & ? & ? & ?) (? & ? & ? & ?). destruct mode; repeat split; congruence. Qed.

(** Snapping touches only dragged edges. *)
Lemma adjust_anchored w mode g g' :
  mode <> center -> adjustClientSize E V opts window w g mode = Some g' -> anchored mode g g'.
Proof.
  intros Hm H. destruct (adjust_edges E V opts window w g mode Hm) as (r & Hr & Hl & Ht & Hrr & Hb).
  rewrite H in Hr. injection Hr as <-. unfold anchored.
  destruct mode; repeat split; destruct Hl as [?|[? _]], Ht as [?|[? _]], Hrr as [?|[? _]], Hb as [?|[? _]]; done.
Qed.

Lemma resize_geometry_anchored s global g :
  is_resize (win s) = true ->
  anchored (contact (move_resize (win s))) (initial_geometry (op s)) (geo s) ->
  resize_geometry s global = Some g ->
  anchored (contact (move_resize (win s))) (initial_geometry (op s)) g /\
  adjusted_frame_size (win s) (size g) = size g.
Proof.
  intros Hr Ha H. unfold MoveResize.resize_geometry in H.
  assert (contact (move_resize (win s)) <> center) as Hc.
  { unfold is_resize in Hr. destruct (bool_decide_reflect (contact (move_resize (win s)) = center)); [|done].
    by rewrite andb_false_r in Hr. }
  set (mode := contact (move_resize (win s))) in *.
  apply bind_Some in H as (g1 & H1 & H). apply calculate_anchored in H1.
  apply bind_Some in H as (g2 & H2 & H). apply adjust_anchored in H2; [|done].
  apply bind_Some in H as (g3 & H3 & H).
  pose proof (anchored_trans _ _ _ _ H1 H2) as H12.
  assert (anchored mode (initial_geometry (op s)) g3) as H13.
  { destruct (unrestricted (op s)); [by simplify_eq|]. by eapply restrict_loop_anchored in H3. }
  apply final_resize in H as [Hs Hf]. split; [by eapply anchored_trans|].
  by rewrite Hs, adjusted_idempotent.
Qed.

(** ** A drag as a sequence of steps *)

Fixpoint drag (l : list (QPoint * QPoint)) (s : Inter) : option Inter :=
  match l with
  | [] => Some s
  | (p, global) :: l' => r ← move_resize_impl false p global s; drag l' r.1
  end.

Lemma do_set_geometry_move r w : move_resize (do_set_geometry r w) = move_resize w.
Proof. unfold do_set_geometry. repeat case_match; done. Qed.

Lemma configure_move r w : move_resize (configure_geometry r w) = move_resize w.
Proof. done. Qed.

Lemma setFrame_move r w : move_resize (setFrameGeometry r w) = move_resize w.
Proof.
  unfold setFrameGeometry. cbv zeta. case_match; [done|]. case_match; [done|]. case_match; [done|].
  by rewrite do_set_geometry_move.
Qed.

Lemma apply_step_move w : move_resize (apply_step have_resize_effect w) = move_resize w.
Proof. unfold apply_step, perform_move_resize. repeat case_match; rewrite ?setFrame_move; done. Qed.

Lemma apply_step_adjusted w sz :
  is_resize w = true -> adjusted_frame_size (apply_step have_resize_effect w) sz = adjusted_frame_size w sz.
Proof.
  unfold apply_step, perform_move_resize. intros Hr.
  assert (is_move w = false) as ->.
  { unfold is_resize, is_move in *. destruct (enabled _); [|done]. by destruct (bool_decide _). }
  by destruct (_ && _).
Qed.

(** What stays the same in a drag, and what holds of the geometry. *)
Definition resizing (mode : position) (r0 : QRect) (s : Inter) : Prop :=
  enabled (move_resize (win s)) = true /\ contact (move_resize (win s)) = mode /\ initial_geometry (op s) = r0 /\
  anchored mode r0 (geo s) /\ (geo s = r0 \/ adjusted_frame_size (win s) (size (geo s)) = size (geo s)).

Lemma drag_step mode r0 p global s s' c :
  mode <> center -> resizing mode r0 s -> move_resize_impl false p global s = Some (s', c) -> resizing mode r0 s'.
Proof.
  intros Hm (He & Hc & Hi & Ha & Hsz) H. unfold MoveResize.move_resize_impl in H. rewrite He in H. cbv zeta in H.
  destruct (_ || _); [by simplify_eq|]. cbn [negb] in H.
  apply bind_Some in H as ([s1 ch] & H1 & H). unfold MoveResize.step_operation in H1.
  assert (is_resize (win s) = true) as Hr.
  { unfold is_resize. rewrite He, Hc. by rewrite bool_decide_false. }
  rewrite Hr in H1. apply bind_Some in H1 as (g & Hg & [= <- <-]).
  assert (anchored mode r0 g /\ adjusted_frame_size (win s) (size g) = size g) as [Hag Had].
  { subst mode r0. by eapply resize_geometry_anchored. }
  assert (resizing mode r0 (s <| win := set_geometry g (win s) |>)) as Hres by (split_and!; try done; by right).
  cbn [fst snd] in H. destruct (negb (bool_decide (size g = size (geo s)))); cbn [negb] in H; [|by simplify_eq].
  cbv zeta in H. injection H as <- _. unfold resizing, geo in *. cbn [win op update] in *.
  rewrite apply_step_move, apply_step_adjusted; [exact Hres|exact Hr].
Qed.


(** ** The end *)

Notation finish_move_resize := (finish_move_resize E V window screen_of).

Lemma forget_noted r w : forget_restore (noted r w) = noted r (forget_restore w).
Proof. unfold forget_restore, noted. cbn. by destruct (_ && _ && _). Qed.

Lemma forget_block w : forget_restore (block_updates w) = block_updates (forget_restore w).
Proof. unfold forget_restore, block_updates. cbn. by destruct (_ && _ && _). Qed.

Lemma leave_op s : op (leaveMoveResize s) = op s.
Proof. unfold leaveMoveResize. cbv zeta. by case_match. Qed.
Lemma leave_win s : win (leaveMoveResize s) = set_enabled false (win s).
Proof. unfold leaveMoveResize. cbv zeta. by case_match. Qed.

(** Cancelling an interactive move or resize undoes it: the window asks for the
    geometry it had at the start, with nothing in between reaching the client, keeps no
    geometry to restore unless it is maximized, tiled or fullscreen, and the operation is
    over (for a window that is still on its screen and not about to be tiled). *)
Theorem cancel_goes_back s :
  let w := win s in
  block w = 0 -> electric_maximizing w = false ->
  (forall r, screen_of (noted r (block_updates (set_enabled false w))) = start_screen (op s)) ->
  win (finish_move_resize true s) =
    setFrameGeometry (initial_geometry (op s)) (forget_restore (set_enabled false w)) /\
  enabled (move_resize (win (finish_move_resize true s))) = false /\ moveResizeClient (finish_move_resize true s) = false.
Proof.
  intros w Hb He Hscr. unfold MoveResize.finish_move_resize. cbv zeta. rewrite leave_op, leave_win. cbn [win op update].
  fold w. change (set_enabled false (set_enabled false (block_updates w))) with (block_updates (set_enabled false w)).
  unfold final_geometry. rewrite setFrame_blocked by (cbn; lia).
  unfold follow_screen. rewrite Hscr, Nat.eqb_refl.
  unfold finish_tiling.
  change (electric_maximizing (noted (initial_geometry (op s)) (block_updates (set_enabled false w))))
    with (electric_maximizing w). rewrite He.
  rewrite forget_noted, forget_block, unblock_noted by (unfold forget_restore; by case_match).
  split; [done|]. split.
  - rewrite setFrame_move. unfold forget_restore. by case_match.
  - unfold leaveMoveResize. cbv zeta. by case_match.
Qed.

(** ** The screen edges *)

Lemma reserve_unreserve_frame e : same_frame e (unreserve (reserve e)).
Proof. transitivity (reserve e); auto using reserve_frame, unreserve_frame. Qed.

Lemma reserve_unreserve_reserved e : reserved (unreserve (reserve e)) = reserved e.
Proof.
  assert (forall x, reserved (reserve x) = reserved x + 1) as H1
    by (intros x; unfold reserve, activate; repeat case_match; done).
  assert (forall x, reserved (unreserve x) = reserved x - 1) as H2
    by (intros x; unfold unreserve, deactivate, stopApproaching; repeat case_match; done).
  rewrite H2, H1. lia.
Qed.

Lemma reserve_unreserve_ok act tact sw e : edge_ok act tact sw e -> edge_ok act tact sw (unreserve (reserve e)).
Proof.
  destruct (reserve_unreserve_frame e) as (Fb & Fc & Fa & Ft & Fk & Fk').
  apply adjust_ok; [done..|]. intros Hc Ha Ht Hk Hn. unfold reservations in *. rewrite Fb, Fa, Ft, Fk, Fk'.
  repeat split_and; try done. apply reserve_counted in Hn. apply unreserve_counted in Hn; [|].
  - by rewrite Z.add_simpl_r in Hn.
  - pose proof (uses_nonneg (action e)). pose proof (uses_nonneg (touchAction e)). pose proof (b2z_nonneg (sw (border e))).
    lia.
Qed.

Definition bothways : bool * bool := (true, true).

Lemma reserve_and_release m :
  let m' := EdgeManager.reserveDesktopSwitching false bothways (EdgeManager.reserveDesktopSwitching true bothways m) in
  m_edges m' = (fun e => if isCorner (border e) || EdgeManager.leads (m_virtualDesktopLayout m) e
                         then unreserve (reserve e) else e) <$> m_edges m /\
  m' = m <| m_edges := m_edges m' |>.
Proof.
  unfold EdgeManager.reserveDesktopSwitching. cbn [EdgeManager.layout_empty bothways fst snd orb negb m_edges update].
  split; [|done]. rewrite <- list_fmap_compose. apply list_fmap_ext. intros _ e _. cbn.
  destruct (isCorner (border e) || EdgeManager.leads (m_virtualDesktopLayout m) e) eqn:Hc; [|by rewrite Hc].
  destruct (reserve_frame e) as (Fb & _). unfold EdgeManager.leads in *. cbn. rewrite Fb. by rewrite Hc.
Qed.

(** An interactive operation gives the screen edges back: moving a window reserves the
    edges that lead to other desktops while it lasts (if the option is on), and when the
    operation ends their reservations are what they were, and exact if they were exact. *)
Theorem operation_releases_edges s :
  manager_ok (edges s) ->
  let s' := leaveMoveResize (begin_operation E V window screen_of s) in
  manager_ok (edges s') /\ reserved <$> m_edges (edges s') = reserved <$> m_edges (edges s).
Proof.
  intros Hok. unfold begin_operation. cbv zeta.
  set (s1 := s <| win := _ |> <| moveResizeClient := true |> <| op := _ |>).
  assert (edges (check_unrestricted_move_resize E s1) = edges s) as He
    by (unfold check_unrestricted_move_resize; by case_match).
  set (s2 := check_unrestricted_move_resize E s1) in *. clearbody s2. rewrite He.
  destruct (ScreenEdges.isDesktopSwitchingMovingClients (m_config (edges s))) eqn:Hopt.
  - set (m1 := EdgeManager.reserveDesktopSwitching true (true, true) (edges s)).
    assert (m_config m1 = m_config (edges s)) as Hm1 by done.
    unfold leaveMoveResize. cbv zeta. cbn [edges win moveResizeClient update]. rewrite Hm1, Hopt. cbn [edges update].
    destruct (reserve_and_release (edges s)) as [H1 H2]. unfold bothways in H1, H2. fold m1 in H1, H2.
    rewrite H1. split.
    + rewrite H2. apply manager_ok_edges. rewrite H1.
      apply (Forall_map_ok (act := m_actions (edges s)) (tact := touch_action (edges s)) (sw := switches (edges s))); [|exact Hok].
      intros e _ Hx. case_match; [by apply reserve_unreserve_ok|done].
    + rewrite <- list_fmap_compose. apply list_fmap_ext. intros _ e _. cbn. case_match; [|done].
      apply reserve_unreserve_reserved.
  - destruct s2 as [w2 o2 b2 e2]. cbn in He. subst e2. unfold leaveMoveResize. cbn. by rewrite Hopt.
Qed.

End Operation.

(** ** Witnesses and boundary behaviour *)

Definition sample := GeometryProps.sample.
Definition sample_env := GeometryProps.sample_env.
Definition no_windows : View := SnappingProps.windows_at [].
Definition no_zones : SnapOptions := Snapping.mkSnap 0 0 0 false.
Definition on_screen_0 (w : Window) : nat := 0%nat.
(** The whole screen but for a panel of 30 pixels at the top. *)
Definition free_area (w : Window) : list QRect := [mkRect 0 30 1920 1050].

Definition idle_op (restricted : bool) : Op :=
  mkOp (negb restricted) (mkPoint 10 10) (mkPoint 293 215) null_rect true 0 false.
Definition idle (c : position) (restricted : bool) : Inter :=
  mkInter (set_contact c sample) (idle_op restricted) false (EdgeManager.initial 10).
(** The operation begun on the sample window. *)
Definition begun (c : position) (restricted : bool) : Inter :=
  begin_operation sample_env no_windows 1 on_screen_0 (idle c restricted).


Definition demo_drag : list (QPoint * QPoint) := [(mkPoint 0 0, mkPoint 60 60); (mkPoint 0 0, mkPoint 300 250)].


Lemma cancel_goes_back_witness :
  let s := begun center true in
  upd_frame (win (finish_move_resize sample_env no_windows 1 on_screen_0 true s)) = mkRect 100 80 304 226 /\
  win (finish_move_resize sample_env no_windows 1 on_screen_0 true s) =
    setFrameGeometry (initial_geometry (op s)) (forget_restore (set_enabled false (win s))).
Proof.
  intros s. split; [by vm_compute|].
  assert (block (win s) = 0) as Hb by (by vm_compute).
  assert (electric_maximizing (win s) = false) as He by (by vm_compute).
  apply (cancel_goes_back sample_env no_windows 1 on_screen_0 s Hb He). intros r. by vm_compute.
Defined.

(** The move option is on, two edges lead to other desktops. *)
Definition moving_edges : EdgeManager.EdgeManager :=
  EdgeManager.setDesktopSwitchingMovingClients true
    (run (fun _ => true) [EdgeManager.EvLayout (mkSize 2 1); screen_of_100] (EdgeManager.initial 10)).
Definition moving_state : Inter := (idle center true) <| edges := moving_edges |>.

Lemma operation_releases_edges_witness :
  counts ScreenEdges.ElectricLeft (edges (begin_operation sample_env no_windows 1 on_screen_0 moving_state)) = [1] /\
  reserved <$> m_edges (edges (leaveMoveResize (begin_operation sample_env no_windows 1 on_screen_0 moving_state)))
  = reserved <$> m_edges moving_edges.
Proof.
  split; [by vm_compute|].
  apply (operation_releases_edges sample_env no_windows 1 on_screen_0 moving_state).
  apply (config_ok (run (fun _ => true) [EdgeManager.EvLayout (mkSize 2 1); screen_of_100] (EdgeManager.initial 10)));
    [reflexivity..|].
  apply run_ok; [|constructor]. repeat split; try discriminate.
  intros b. refine (bool_decide_eq_true_1 _ _). by destruct b; vm_compute.
Defined.

(** Cancelling a move at the left border of the screen tiles the window. *)
Example cancel_still_tiles :
  let s := begun center true in
  let s := s <| win := (win s) <| electric := quicktiles.left |> <| electric_maximizing := true |> |> in
  let w := win (finish_move_resize sample_env no_windows 1 on_screen_0 true s) in
  (quicktiling w, upd_frame w) = (quicktiles.left, mkRect 0 0 960 1080).
Proof. by vm_compute. Qed.

(** Dragging the left edge until less than 100 pixels of title remain does not stop there:
    the width of the title is taken once, so that moving the edge back shows no more of it,
    and the edge goes back to where it was before the step. *)
Example narrow_resize_goes_back :
  geo <$> drag sample_env no_windows 1 on_screen_0 no_zones free_area false 4
    [(mkPoint 0 0, mkPoint 60 60); (mkPoint 0 0, mkPoint 350 60)] (begun top_left true) = Some (mkRect 50 50 354 256).
Proof. by vm_compute. Qed.

(** Turning the option off during a move leaves the edges reserved. *)
Example option_off_leaks :
  let s := begin_operation sample_env no_windows 1 on_screen_0 moving_state in
  let s := s <| edges := EdgeManager.setDesktopSwitchingMovingClients false (edges s) |> in
  counts ScreenEdges.ElectricLeft (edges (leaveMoveResize s)) = [1].
Proof. by vm_compute. Qed.

End MoveResizeProps.
