(* ===== verification/Popup.v ===== *)
(** * Placement of popups (src/win/wayland/xdg_shell.h)

    Where a popup of a Wayland client goes, from the positioner that the client has given,
    and the constraint adjustments by which it is brought into the bounds of the screen. *)

From S2P Require Import Prelude Qt WorkArea Rules Geometry.

Module Popup.
Import Qt WorkArea Geometry.

(** Qt::Edges *)
Definition TopEdge : Z := 1.
Definition LeftEdge : Z := 2.
Definition RightEdge : Z := 4.
Definition BottomEdge : Z := 8.
Definition horizontal_edges : Z := Z.lor LeftEdge RightEdge.
Definition vertical_edges : Z := Z.lor TopEdge BottomEdge.
Definition all_edges : Z := Z.lor horizontal_edges vertical_edges.

(** XdgShellSurface::ConstraintAdjustments *)
Record Adjustments := mkAdjustments {
  FlipX : bool; SlideX : bool; ResizeX : bool;
  FlipY : bool; SlideY : bool; ResizeY : bool;
}.

(** What the popup says about its position. *)
Record Positioner := mkPositioner {
  anchorRect : QRect; anchorEdge : Z; gravity : Z; anchorOffset : QPoint;
  constraintAdjustments : Adjustments; initialSize : QSize;
}.

(** Whether a rectangle is within the bounds, at some of the sides. *)
Definition in_bounds (bounds target : QRect) (edges : Z) : bool :=
  negb (flags (Z.land edges LeftEdge) && (left target <? left bounds)) &&
  negb (flags (Z.land edges TopEdge) && (top target <? top bounds)) &&
  negb (flags (Z.land edges RightEdge) && (right bounds <? right target)) &&
  negb (flags (Z.land edges BottomEdge) && (bottom bounds <? bottom target)).

(** qRound(z / 2.0): halves are rounded up. *)
Definition round_half (z : Z) : Z := (z + 1) / 2.

(** Where the top left corner of a popup of this size goes. *)
Definition get_anchor (r : QRect) (edge gravity : Z) (s : QSize) : QPoint :=
  let h := Z.land edge horizontal_edges in
  let v := Z.land edge vertical_edges in
  let pos_x := if h =? LeftEdge then rx r else if h =? RightEdge then rx r + rw r
               else round_half (2 * rx r + rw r) in
  let pos_y := if v =? TopEdge then ry r else if v =? BottomEdge then ry r + rh r
               else round_half (2 * ry r + rh r) in
  let gh := Z.land gravity horizontal_edges in
  let gv := Z.land gravity vertical_edges in
  let adjust_x := if gh =? LeftEdge then - sw s else if gh =? RightEdge then 0 else round_half (- sw s) in
  let adjust_y := if gv =? TopEdge then - sh s else if gv =? BottomEdge then 0 else round_half (- sh s) in
  mkPoint (pos_x + adjust_x) (pos_y + adjust_y).

(** The opposite edges, if one of them is set. *)
Definition flip (both edge : Z) : Z := if flags (Z.land edge both) then Z.lxor edge both else edge.

Section Placement.
Variable bounds : QRect.
Variable p : Positioner.
Variable parent_pos : QPoint.
Variable s : QSize.

Definition placed_at (edge gravity : Z) : QRect :=
  rect_at (padd (padd (get_anchor (anchorRect p) edge gravity s) (anchorOffset p)) parent_pos) s.

Definition flip_x (place : QRect) : QRect :=
  if FlipX (constraintAdjustments p) && negb (in_bounds bounds place horizontal_edges) then
    let flipped_place := placed_at (flip horizontal_edges (anchorEdge p)) (flip horizontal_edges (gravity p)) in
    if in_bounds bounds flipped_place horizontal_edges then moveLeft place (left flipped_place) else place
  else place.
Definition slide_x (place : QRect) : QRect :=
  if SlideX (constraintAdjustments p) then
    let place := if in_bounds bounds place LeftEdge then place else moveLeft place (left bounds) in
    if in_bounds bounds place RightEdge then place else moveRight place (right bounds)
  else place.
Definition resize_x (place : QRect) : QRect :=
  if ResizeX (constraintAdjustments p) then
    let u := if in_bounds bounds place LeftEdge then place else setLeft place (left bounds) in
    let u := if in_bounds bounds u RightEdge then u else setRight u (right bounds) in
    if isValid u then u else place
  else place.

Definition flip_y (place : QRect) : QRect :=
  if FlipY (constraintAdjustments p) && negb (in_bounds bounds place vertical_edges) then
    let flipped_place := placed_at (flip vertical_edges (anchorEdge p)) (flip vertical_edges (gravity p)) in
    if in_bounds bounds flipped_place vertical_edges then moveTop place (top flipped_place) else place
  else place.
Definition slide_y (place : QRect) : QRect :=
  if SlideY (constraintAdjustments p) then
    let place := if in_bounds bounds place TopEdge then place else moveTop place (top bounds) in
    if in_bounds bounds place BottomEdge then place else moveBottom place (bottom bounds)
  else place.
Definition resize_y (place : QRect) : QRect :=
  if ResizeY (constraintAdjustments p) then
    let u := if in_bounds bounds place TopEdge then place else setTop place (top bounds) in
    let u := if in_bounds bounds u BottomEdge then u else setBottom u (bottom bounds) in
    if isValid u then u else place
  else place.

(** The placement from the size that the popup has. *)
Definition placement : QRect :=
  let place := placed_at (anchorEdge p) (gravity p) in
  if in_bounds bounds place all_edges then place
  else resize_y (slide_y (flip_y (resize_x (slide_x (flip_x place))))).
End Placement.

(** win::popup_placement of a popup on its lead. *)
Definition parent_position (lead : Window) : QPoint :=
  padd (topLeft (frameGeometry lead)) (mkPoint (ml (frame_margins lead)) (mt (frame_margins lead))).
Definition popup_size (p : Positioner) (w : Window) : QSize :=
  if isValid (upd_frame w) then size (upd_frame w) else initialSize p.
Definition popup_placement (p : Positioner) (bounds : QRect) (lead w : Window) : QRect :=
  placement bounds p (parent_position lead) (popup_size p w).

(** win::move_annexed_children, for one of the children: it moves along with its lead. *)
Definition move_annexed (frame_pos_offset : QPoint) (child : Window) : Window :=
  setFrameGeometry (rect_at (padd (topLeft (upd_frame child)) frame_pos_offset) (size (upd_frame child))) child.

(** ** The axes

    A rectangle, a position or an edge with the axes exchanged. *)
Definition tr_point (q : QPoint) : QPoint := mkPoint (py q) (px q).
Definition tr_size (q : QSize) : QSize := mkSize (sh q) (sw q).
Definition tr_rect (r : QRect) : QRect := mkRect (ry r) (rx r) (rh r) (rw r).
Definition tr_edges (e : Z) : Z :=
  Z.lor (Z.lor (if flags (Z.land e LeftEdge) then TopEdge else 0) (if flags (Z.land e TopEdge) then LeftEdge else 0))
        (Z.lor (if flags (Z.land e RightEdge) then BottomEdge else 0) (if flags (Z.land e BottomEdge) then RightEdge else 0)).
Definition tr_adjustments (a : Adjustments) : Adjustments :=
  mkAdjustments (FlipY a) (SlideY a) (ResizeY a) (FlipX a) (SlideX a) (ResizeX a).
Definition tr_positioner (p : Positioner) : Positioner :=
  mkPositioner (tr_rect (anchorRect p)) (tr_edges (anchorEdge p)) (tr_edges (gravity p)) (tr_point (anchorOffset p))
    (tr_adjustments (constraintAdjustments p)) (tr_size (initialSize p)).

(** ** Along one axis

    What the adjustments do to a start and a length within limits. *)
Definition fits (lo hi x n : Z) : bool := (lo <=? x) && (x + n - 1 <=? hi).

Definition axis_flip (on : bool) (lo hi flipped x n : Z) : Z :=
  if on && negb (fits lo hi x n) && fits lo hi flipped n then flipped else x.
Definition axis_slide (on : bool) (lo hi : Z) (x n : Z) : Z :=
  if on then let x := Z.max lo x in if hi <? x + n - 1 then hi - n + 1 else x else x.
Definition axis_resize (on : bool) (lo hi : Z) (x n : Z) : Z * Z :=
  let lo' := Z.max lo x in let hi' := Z.min hi (x + n - 1) in
  if on && (lo' <=? hi') then (lo', hi' - lo' + 1) else (x, n).
Definition axis (f sl rs : bool) (lo hi flipped x n : Z) : Z * Z :=
  axis_resize rs lo hi (axis_slide sl lo hi (axis_flip f lo hi flipped x n) n) n.

End Popup.
