(* ===== verification/PopupProps.v ===== *)
(** * Placement of popups: properties

    The adjustments of a popup work on the two axes independently and in the same way, and
    bring the popup into its bounds where they can. *)

From S2P Require Import Prelude Qt WorkArea Rules Geometry Popup.

Module PopupProps.
Import Qt WorkArea Geometry Popup.

(** ** The tests at the sides *)

Section Bounds.
Variables b t : QRect.

Ltac sides :=
  unfold in_bounds, fits, left, right, top, bottom; cbn; rewrite !Z.leb_antisym;
  repeat match goal with |- context [?x <? ?y] => destruct (x <? y) end; done.

Lemma in_bounds_left : in_bounds b t LeftEdge = (left b <=? left t).
Proof. sides. Qed.
Lemma in_bounds_right : in_bounds b t RightEdge = (right t <=? right b).
Proof. sides. Qed.
Lemma in_bounds_top : in_bounds b t TopEdge = (top b <=? top t).
Proof. sides. Qed.
Lemma in_bounds_bottom : in_bounds b t BottomEdge = (bottom t <=? bottom b).
Proof. sides. Qed.
Lemma in_bounds_horizontal : in_bounds b t horizontal_edges = fits (left b) (right b) (rx t) (rw t).
Proof. sides. Qed.
Lemma in_bounds_vertical : in_bounds b t vertical_edges = fits (top b) (bottom b) (ry t) (rh t).
Proof. sides. Qed.
Lemma in_bounds_all :
  in_bounds b t all_edges =
    fits (left b) (right b) (rx t) (rw t) && fits (top b) (bottom b) (ry t) (rh t).
Proof. sides. Qed.
End Bounds.

(** ** The adjustments along the axes *)

Section Axes.
Variable bounds : QRect.
Variable p : Positioner.
Variable parent_pos : QPoint.
Variable s : QSize.

Definition flipped_x : Z :=
  left (placed_at p parent_pos s (flip horizontal_edges (anchorEdge p)) (flip horizontal_edges (gravity p))).
Definition flipped_y : Z :=
  top (placed_at p parent_pos s (flip vertical_edges (anchorEdge p)) (flip vertical_edges (gravity p))).

Lemma flip_x_axis r :
  rw r = sw s ->
  flip_x bounds p parent_pos s r =
    moveLeft r (axis_flip (FlipX (constraintAdjustments p)) (left bounds) (right bounds) flipped_x (rx r) (rw r)).
Proof.
  intros Hw. unfold flip_x, axis_flip. cbv zeta. rewrite !in_bounds_horizontal.
  change (rw (placed_at p parent_pos s _ _)) with (sw s).
  change (rx (placed_at p parent_pos s _ _)) with flipped_x.
  change (left (placed_at p parent_pos s _ _)) with flipped_x. rewrite Hw.
  destruct (FlipX (constraintAdjustments p)), (fits _ _ (rx r) _), (fits _ _ flipped_x _); cbn;
    try done; by destruct r.
Qed.

(** Case analysis of both sides, to linear arithmetic. *)
Ltac by_cases :=
  unfold moveLeft, moveRight, moveTop, moveBottom, setLeft, setRight, setTop, setBottom, of_edges,
    left, right, top, bottom in *; cbn [rx ry rw rh] in *;
  repeat match goal with
  | |- context [Z.leb ?a ?b] => destruct (Z.leb_spec a b); cbn [rx ry rw rh andb orb negb]
  | |- context [Z.ltb ?a ?b] => destruct (Z.ltb_spec a b); cbn [rx ry rw rh andb orb negb]
  end; try (apply rect_eq; cbn [rx ry rw rh fst snd]); try lia.

Lemma slide_x_axis r :
  slide_x bounds p r =
    moveLeft r (axis_slide (SlideX (constraintAdjustments p)) (left bounds) (right bounds) (rx r) (rw r)).
Proof.
  unfold slide_x, axis_slide. destruct (SlideX _); [|by destruct r]. cbv zeta.
  rewrite in_bounds_left. destruct (Z.leb_spec (left bounds) (left r)); rewrite in_bounds_right; by_cases.
Qed.

Lemma slide_y_axis r :
  slide_y bounds p r =
    moveTop r (axis_slide (SlideY (constraintAdjustments p)) (top bounds) (bottom bounds) (ry r) (rh r)).
Proof.
  unfold slide_y, axis_slide. destruct (SlideY _); [|by destruct r]. cbv zeta.
  rewrite in_bounds_top. destruct (Z.leb_spec (top bounds) (top r)); rewrite in_bounds_bottom; by_cases.
Qed.

Lemma flip_y_axis r :
  rh r = sh s ->
  flip_y bounds p parent_pos s r =
    moveTop r (axis_flip (FlipY (constraintAdjustments p)) (top bounds) (bottom bounds) flipped_y (ry r) (rh r)).
Proof.
  intros Hw. unfold flip_y, axis_flip. cbv zeta. rewrite !in_bounds_vertical.
  change (rh (placed_at p parent_pos s _ _)) with (sh s).
  change (ry (placed_at p parent_pos s _ _)) with flipped_y.
  change (top (placed_at p parent_pos s _ _)) with flipped_y. rewrite Hw.
  destruct (FlipY (constraintAdjustments p)), (fits _ _ (ry r) _), (fits _ _ flipped_y _); cbn;
    try done; by destruct r.
Qed.

Definition set_x (r : QRect) (a : Z * Z) : QRect := mkRect a.1 (ry r) a.2 (rh r).
Definition set_y (r : QRect) (a : Z * Z) : QRect := mkRect (rx r) a.1 (rw r) a.2.

Lemma isValid_leb r : isValid r = (1 <=? rw r) && (1 <=? rh r).
Proof. unfold isValid, isEmpty. rewrite negb_orb, !Z.leb_antisym. done. Qed.

Lemma resize_x_axis r :
  isValid r = true ->
  resize_x bounds p r =
    set_x r (axis_resize (ResizeX (constraintAdjustments p)) (left bounds) (right bounds) (rx r) (rw r)).
Proof.
  intros [Hw Hh]%isValid_spec. unfold resize_x, axis_resize, set_x. cbv zeta.
  destruct (ResizeX _); cbn [andb]; [|by destruct r].
  rewrite in_bounds_left. destruct (Z.leb_spec (left bounds) (left r)); rewrite in_bounds_right;
    match goal with |- context [right ?u <=? right bounds] => destruct (Z.leb_spec (right u) (right bounds)) end;
    rewrite isValid_leb; by_cases.
Qed.

Lemma resize_y_axis r :
  isValid r = true ->
  resize_y bounds p r =
    set_y r (axis_resize (ResizeY (constraintAdjustments p)) (top bounds) (bottom bounds) (ry r) (rh r)).
Proof.
  intros [Hw Hh]%isValid_spec. unfold resize_y, axis_resize, set_y. cbv zeta.
  destruct (ResizeY _); cbn [andb]; [|by destruct r].
  rewrite in_bounds_top. destruct (Z.leb_spec (top bounds) (top r)); rewrite in_bounds_bottom;
    match goal with |- context [bottom ?u <=? bottom bounds] => destruct (Z.leb_spec (bottom u) (bottom bounds)) end;
    rewrite isValid_leb; by_cases.
Qed.
End Axes.

(** ** The reference

    The result of the placement, axis by axis. *)
Definition axes_placement (bounds : QRect) (p : Positioner) (parent_pos : QPoint) (s : QSize) : QRect :=
  let a := constraintAdjustments p in
  let place := placed_at p parent_pos s (anchorEdge p) (gravity p) in
  let h := axis (FlipX a) (SlideX a) (ResizeX a) (left bounds) (right bounds) (flipped_x p parent_pos s)
             (rx place) (sw s) in
  let v := axis (FlipY a) (SlideY a) (ResizeY a) (top bounds) (bottom bounds) (flipped_y p parent_pos s)
             (ry place) (sh s) in
  mkRect h.1 v.1 h.2 v.2.

(** What lies within the limits is left alone. *)
Lemma axis_fits f sl rs lo hi flipped x n :
  fits lo hi x n = true -> 0 < n -> axis f sl rs lo hi flipped x n = (x, n).
Proof.
  unfold axis, axis_flip. intros H Hn. rewrite H, andb_false_r. cbn [andb].
  unfold fits in H. apply andb_prop in H as [H1%Z.leb_le H2%Z.leb_le].
  unfold axis_slide, axis_resize. destruct sl, rs; cbn [andb]; cbv zeta;
    repeat match goal with
    | |- context [Z.ltb ?a ?b] => destruct (Z.ltb_spec a b)
    | |- context [Z.leb ?a ?b] => destruct (Z.leb_spec a b)
    end; f_equal; lia.
Qed.

Lemma axis_resize_positive on lo hi x n : 0 < n -> 0 < (axis_resize on lo hi x n).2.
Proof. intros Hn. unfold axis_resize. destruct on; cbn; [case_match; cbn; lia|done]. Qed.

Lemma placement_axes bounds p parent_pos s :
  0 < sw s -> 0 < sh s ->
  placement bounds p parent_pos s = axes_placement bounds p parent_pos s.
Proof.
  intros Hw Hh. unfold placement, axes_placement. cbv zeta.
  set (place := placed_at p parent_pos s (anchorEdge p) (gravity p)). rewrite in_bounds_all.
  change (rw place) with (sw s). change (rh place) with (sh s).
  destruct (fits (left bounds) (right bounds) (rx place) (sw s) && fits (top bounds) (bottom bounds) (ry place) (sh s))
    eqn:E.
  - apply andb_prop in E as [E1 E2]. by rewrite !axis_fits.
  - rewrite flip_x_axis by done. rewrite slide_x_axis. cbn [moveLeft rx rw]. rewrite resize_x_axis by
      (apply isValid_spec; done).
    cbn [moveLeft rx ry rw rh set_x].
    rewrite flip_y_axis by done. rewrite slide_y_axis. cbn [moveTop moveLeft rx ry rw rh set_x].
    rewrite resize_y_axis by (apply isValid_spec; cbn; split; [by apply axis_resize_positive|done]).
    done.
Qed.

(** ** Consequences *)

Lemma axis_within f sl rs lo hi flipped x n :
  0 < n -> lo <= hi -> sl = true -> (n <= hi - lo + 1 \/ rs = true) ->
  let a := axis f sl rs lo hi flipped x n in lo <= a.1 /\ a.1 + a.2 - 1 <= hi /\ 0 < a.2 <= n.
Proof.
  intros Hn Hl -> Hr. unfold axis. cbv zeta.
  generalize (axis_flip f lo hi flipped x n). intros y. unfold axis_slide, axis_resize. cbv zeta.
  set (z := if hi <? Z.max lo y + n - 1 then hi - n + 1 else Z.max lo y).
  assert (z + n - 1 <= hi /\ (lo <= z \/ n > hi - lo + 1) /\ lo <= z + n - 1) as Hz.
  { unfold z. destruct (Z.ltb_spec hi (Z.max lo y + n - 1)); lia. }
  clearbody z. destruct rs; cbn [andb].
  - rewrite (proj2 (Z.leb_le _ _)) by lia. cbn. lia.
  - cbn. destruct Hr as [Hr|Hr]; [lia|done].
Qed.

(** A popup that may slide along an axis, and fits into the bounds or may also be
    resized along it, ends up within the bounds on that axis, and is never larger than it
    was; a popup that fits without adjustments stays where its anchor puts it. *)
Theorem popup_within_bounds bounds p parent_pos s :
  isValid bounds = true -> 0 < sw s -> 0 < sh s ->
  let a := constraintAdjustments p in
  let place := placement bounds p parent_pos s in
  (SlideX a = true -> sw s <= rw bounds \/ ResizeX a = true ->
     left bounds <= left place /\ right place <= right bounds /\ 0 < rw place <= sw s) /\
  (SlideY a = true -> sh s <= rh bounds \/ ResizeY a = true ->
     top bounds <= top place /\ bottom place <= bottom bounds /\ 0 < rh place <= sh s) /\
  (let anchored := placed_at p parent_pos s (anchorEdge p) (gravity p) in
   within anchored bounds -> place = anchored).
Proof.
  intros [Hbw Hbh]%isValid_spec Hw Hh. cbv zeta. rewrite placement_axes by done. split_and!.
  - intros Hs Hr. unfold axes_placement. cbv zeta.
    destruct (axis_within (FlipX (constraintAdjustments p)) (SlideX (constraintAdjustments p))
      (ResizeX (constraintAdjustments p)) (left bounds) (right bounds) (flipped_x p parent_pos s)
      (rx (placed_at p parent_pos s (anchorEdge p) (gravity p))) (sw s)) as (H1 & H2 & H3);
      [done|unfold left, right; lia|done|unfold left, right; destruct Hr; [left; lia|by right]|].
    split_and!; unfold left, right in *; cbn [rx rw]; lia.
  - intros Hs Hr. unfold axes_placement. cbv zeta.
    destruct (axis_within (FlipY (constraintAdjustments p)) (SlideY (constraintAdjustments p))
      (ResizeY (constraintAdjustments p)) (top bounds) (bottom bounds) (flipped_y p parent_pos s)
      (ry (placed_at p parent_pos s (anchorEdge p) (gravity p))) (sh s)) as (H1 & H2 & H3);
      [done|unfold top, bottom; lia|done|unfold top, bottom; destruct Hr; [left; lia|by right]|].
    split_and!; unfold top, bottom in *; cbn [ry rh]; lia.
  - intros Hin. set (place := placed_at p parent_pos s (anchorEdge p) (gravity p)) in *.
    apply within_edges in Hin; [|by apply isValid_spec].
    unfold left, right, top, bottom in Hin. unfold axes_placement. cbv zeta. fold place.
    rewrite !axis_fits; try done; unfold fits, left, right, top, bottom;
      apply andb_true_intro; split; apply Z.leb_le; change (sw s) with (rw place);
      change (sh s) with (rh place); lia.
Qed.

(** ** The axes are alike *)

(** Qt::Edges as the positioners have them. *)
Definition is_edges (e : Z) : Prop := 0 <= e < 16.

Lemma edges_cases (P : Z -> Prop) e :
  is_edges e -> Forall P [0; 1; 2; 3; 4; 5; 6; 7; 8; 9; 10; 11; 12; 13; 14; 15] -> P e.
Proof.
  intros He HP. rewrite Forall_forall in HP. apply HP. unfold is_edges in He.
  rewrite !elem_of_cons. lia.
Qed.

Ltac edge_table :=
  match goal with |- ?P ?e => apply (edges_cases P e); [done|] end; unfold is_edges;
  repeat (apply Forall_cons_2; [split_and!; by vm_compute|]); apply Forall_nil_2.

Lemma tr_edges_land e :
  is_edges e ->
  (Z.land (tr_edges e) horizontal_edges =? LeftEdge) = (Z.land e vertical_edges =? TopEdge) /\
  (Z.land (tr_edges e) horizontal_edges =? RightEdge) = (Z.land e vertical_edges =? BottomEdge) /\
  (Z.land (tr_edges e) vertical_edges =? TopEdge) = (Z.land e horizontal_edges =? LeftEdge) /\
  (Z.land (tr_edges e) vertical_edges =? BottomEdge) = (Z.land e horizontal_edges =? RightEdge).
Proof. intros He. pattern e. edge_table. Qed.

Lemma tr_edges_flip e :
  is_edges e ->
  flip horizontal_edges (tr_edges e) = tr_edges (flip vertical_edges e) /\
  flip vertical_edges (tr_edges e) = tr_edges (flip horizontal_edges e) /\
  is_edges (flip horizontal_edges e) /\ is_edges (flip vertical_edges e).
Proof. intros He. pattern e. edge_table. Qed.

Lemma get_anchor_tr r e g s :
  is_edges e -> is_edges g ->
  get_anchor (tr_rect r) (tr_edges e) (tr_edges g) (tr_size s) = tr_point (get_anchor r e g s).
Proof.
  intros He Hg. unfold get_anchor. cbv zeta.
  destruct (tr_edges_land e He) as (-> & -> & -> & ->). destruct (tr_edges_land g Hg) as (-> & -> & -> & ->).
  done.
Qed.

Lemma placed_at_tr p parent_pos s e g :
  is_edges e -> is_edges g ->
  placed_at (tr_positioner p) (tr_point parent_pos) (tr_size s) (tr_edges e) (tr_edges g) =
    tr_rect (placed_at p parent_pos s e g).
Proof.
  intros He Hg. unfold placed_at. cbn [tr_positioner anchorRect anchorOffset]. by rewrite get_anchor_tr.
Qed.

(** C29: the placement of a popup treats both axes alike: exchanging the axes of the
    anchor, its edges, the gravity, the offsets, the adjustments, the bounds and the size
    exchanges the axes of the result. *)
Theorem popup_axes_alike bounds p parent_pos s :
  0 < sw s -> 0 < sh s -> is_edges (anchorEdge p) -> is_edges (gravity p) ->
  placement (tr_rect bounds) (tr_positioner p) (tr_point parent_pos) (tr_size s) =
    tr_rect (placement bounds p parent_pos s).
Proof.
  intros Hw Hh He Hg. rewrite !placement_axes by done.
  destruct (tr_edges_flip _ He) as (F1 & F2 & F3 & F4). destruct (tr_edges_flip _ Hg) as (G1 & G2 & G3 & G4).
  unfold axes_placement, flipped_x, flipped_y.
  cbn [tr_positioner anchorEdge gravity constraintAdjustments tr_adjustments FlipX SlideX ResizeX FlipY SlideY ResizeY].
  rewrite F1, F2, G1, G2, !placed_at_tr by done. done.
Qed.

(** A context menu at the right edge of a screen, that may flip and slide. *)
Definition sample_menu : Positioner :=
  mkPositioner (mkRect 1900 100 10 10) (Z.lor BottomEdge RightEdge) (Z.lor BottomEdge RightEdge) (mkPoint 0 0)
    (mkAdjustments true true false false true true) (mkSize 200 300).

Lemma popup_axes_alike_witness :
  placement (mkRect 0 0 1080 1920) (tr_positioner sample_menu) (mkPoint 0 0) (mkSize 300 200) =
    mkRect 110 1700 300 200.
Proof.
  assert (is_edges (anchorEdge sample_menu) /\ is_edges (gravity sample_menu)) as [He Hg]
    by (split; split; by vm_compute).
  pose proof (popup_axes_alike (mkRect 0 0 1920 1080) sample_menu (mkPoint 0 0) (mkSize 200 300) eq_refl eq_refl He Hg) as H.
  etransitivity; [exact H|]. by vm_compute.
Defined.

Lemma popup_within_bounds_witness :
  placement (mkRect 0 0 1920 400) sample_menu (mkPoint 0 200) (mkSize 200 500) = mkRect 1700 0 200 400 /\
  right (placement (mkRect 0 0 1920 400) sample_menu (mkPoint 0 200) (mkSize 200 500)) <= 1919.
Proof.
  split; [by vm_compute|].
  destruct (popup_within_bounds (mkRect 0 0 1920 400) sample_menu (mkPoint 0 200) (mkSize 200 500) eq_refl eq_refl eq_refl)
    as [H _]. destruct (H eq_refl) as (_ & H2 & _); [left; by vm_compute|]. exact H2.
Defined.

End PopupProps.
