(* ===== verification/Policies.v ===== *)
(** * Placement policies and the commands of the user (src/placement.cpp)

    How Placement::place chooses among the policies, with the policies that fall back to
    others, and the slots of the workspace that pack windows, grow and shrink them and
    tile them. Snapping to the outer edges after a placement is included. *)

From S2P Require Import Prelude Qt WorkArea Rules Geometry Placement Maximize.
From S2P Require Toplevel.

Module Policies.
Import Qt WorkArea Geometry Placement Maximize.

(** What the placement knows: the window, the cascades of the desktops and the position of
    the random placement, which is static. *)
Record Placing := mkPlacing { p_window : Window; cci : list CascadingInfo; random : QPoint }.
#[global] Instance Placing_eta : RecordEta Placing := fun s => mkPlacing (p_window s) (cci s) (random s).

Section Place.
Variable E : Env.
Variable V : View.
Variable window : wid.
(** Of the options: the default policy and the snap zone of borders. *)
Variable placement : Rules.Policy.
Variable borderSnapZone : Z.
(** Whether the window has a surface. *)
Variable surface : bool.

Definition is_type (t : Toplevel.Toplevel.WindowType) (s : Placing) : bool :=
  bool_decide (windowType (p_window s) = t).

Definition on_window (f : Window -> Window) (s : Placing) : Placing := s <| p_window := f (p_window s) |>.

(** Windows that touch the edge of everything are moved out by their border, in the
    directions in which they are not maximized. *)
Definition snap_corner (w : Window) : QPoint :=
  let geo := upd_frame w in let m := frame_margins w in
  let fullRect := area_of E FullArea w in
  let h := negb (flags (Z.land (max_mode w) horizontal)) in
  let v := negb (flags (Z.land (max_mode w) vertical)) in
  let x := left geo in
  let x := if h && (right geo =? right fullRect) then x + mr m else x in
  let x := if h && (left geo =? left fullRect) then x - ml m else x in
  let y := if v && (bottom geo =? bottom fullRect) then top geo + mb m else top geo in
  mkPoint x y.

Definition snap_border (w : Window) : Window :=
  if borderSnapZone =? 0 then w else move (snap_corner w) w.

(** The main window a dialog is placed on; [None] if it is to be centered. *)
Definition main_window : option wid :=
  let leads := Toplevel.Toplevel.leads (heap V window) in
  let considered := filter (fun x =>
    negb ((1 <? length leads)%nat && Toplevel.Toplevel.is_special_window (heap V x)) = true) leads in
  match filter (fun x => Toplevel.Toplevel.on_current_desktop (tenv V) (heap V x) = true) considered with
  | [x] => Some x
  | _ :: _ :: _ => None
  | [] => match considered with [x] => Some x | _ => None end
  end.

Section Policy.
(** Placement::place with a policy, for the ones that go on with another. *)
Variable place : QRect -> Rules.Policy -> Placing -> option Placing.

Definition placeCascaded (area : QRect) (next : Rules.Policy) (s : Placing) : option Placing :=
  let w := p_window s in
  if negb (size_isValid (size (upd_frame w))) then Some s
  else
    let dn := Z.to_nat (placement_desktop V window - 1) in
    let next := if decide (next = Rules.UnknownPolicy) then Rules.Smart else next in
    inf ← cci s !! dn;
    match cascade_step area (cascadeOffset E w) (size (upd_frame w)) inf with
    | (inf', place_at p) => Some (on_window (move p) (s <| cci := <[dn := inf']> (cci s) |>))
    | (inf', place_otherwise) => place area next (s <| cci := <[dn := inf']> (cci s) |>)
    end.

Definition placeMaximizing (area : QRect) (next : Rules.Policy) (s : Placing) : option Placing :=
  let w := p_window s in
  let next := if decide (next = Rules.UnknownPolicy) then Rules.Smart else next in
  if isMaximizable w && (rw area <=? sw (maxSize w)) && (rh area <=? sh (maxSize w)) then
    Some (on_window (if bool_decide (area_of E MaximizeArea w = area)
                     then update_maximized E V window full else setFrameGeometry area) s)
  else place area next (on_window (constrained_resize E (boundedTo (maxSize w) (size area))) s).

Definition placeOnMainWindow (area : QRect) (next : Rules.Policy) (s : Placing) : option Placing :=
  s1 ← if decide (next = Rules.Maximizing) then placeMaximizing area Rules.NoPlacement s else Some s;
  match main_window with
  | None => place area Rules.Centered s1
  | Some place_on =>
      if Toplevel.Toplevel.is_desktop (heap V place_on) then place area Rules.Centered s1
      else Some (on_window (fun w =>
        let geom := moveCenter (upd_frame w) (Qt.center (frame V place_on)) in
        let w1 := move (topLeft geom) w in
        keep_in_area E (area_of E PlacementArea w1) false w1) s1)
  end.

Definition place_by (area : QRect) (policy next : Rules.Policy) (s : Placing) : option Placing :=
  match policy with
  | Rules.NoPlacement => Some s
  | Rules.Random =>
      let '(p, w) := placeAtRandom area (random s) (p_window s) in
      Some (s <| p_window := w |> <| random := p |>)
  | Rules.Cascade => placeCascaded area next s
  | Rules.Centered => Some (on_window (placeCentered area) s)
  | Rules.ZeroCornered => Some (on_window (placeZeroCornered area) s)
  | Rules.UnderMouse => Some (on_window (placeUnderMouse E area) s)
  | Rules.OnMainWindow => placeOnMainWindow area next s
  | Rules.Maximizing => placeMaximizing area next s
  | Rules.Smart | Rules.Default | Rules.UnknownPolicy =>
      w ← placeSmart V window area (p_window s); Some (s <| p_window := w |>)
  end.
End Policy.

Definition resolve_policy (policy : Rules.Policy) : Rules.Policy :=
  if decide (policy = Rules.UnknownPolicy \/ policy = Rules.Default) then placement else policy.

(** The recursion of the policies. *)
Fixpoint place (fuel : nat) (area : QRect) (policy next : Rules.Policy) (s : Placing) : option Placing :=
  match fuel with
  | O => None
  | S fuel' =>
      let policy := resolve_policy policy in
      s1 ← place_by (fun area policy => place fuel' area policy Rules.UnknownPolicy) area policy next s;
      Some (if decide (policy = Rules.NoPlacement) then s1 else on_window snap_border s1)
  end.

(** Placement::place of a window. *)
Definition place_window (fuel : nat) (area : QRect) (s : Placing) : option Placing :=
  let go policy := place fuel area policy Rules.UnknownPolicy s in
  let dialog next := placeOnMainWindow (fun area policy => place fuel area policy Rules.UnknownPolicy) area next s in
  let policy := Rules.checkPlacement (rules (p_window s)) Rules.Default in
  if negb (bool_decide (policy = Rules.Default)) then go policy
  else if is_type Toplevel.Toplevel.Utility s then go Rules.Default
  else if is_type Toplevel.Toplevel.Dialog s then dialog placement
  else if is_type Toplevel.Toplevel.Splash s then dialog Rules.UnknownPolicy
  else if is_type Toplevel.Toplevel.OnScreenDisplay s || is_type Toplevel.Toplevel.Notification s ||
          is_type Toplevel.Toplevel.CriticalNotification s
  then Some (on_window (placeOnScreenDisplay area) s)
  else if Toplevel.Toplevel.isTransient (heap V window) && surface then dialog placement
  else go placement.
End Place.

(** ** The slots *)

Section Slots.
Variable E : Env.
Variable V : View.
Variable window : wid.

(** slotWindowPackLeft and so on; that a window on another screen is sent there is left
    out. *)
Definition slotWindowPackLeft (w : Window) : Window :=
  if negb (isMovable w) then w
  else let pos := topLeft (upd_frame w) in
       move (mkPoint (packPositionLeft V E window w (px pos) true) (py pos)) w.
Definition slotWindowPackRight (w : Window) : Window :=
  if negb (isMovable w) then w
  else let pos := topLeft (upd_frame w) in let width := rw (upd_frame w) in
       move (mkPoint (packPositionRight V E window w (px pos + width) true - width + 1) (py pos)) w.
Definition slotWindowPackUp (w : Window) : Window :=
  if negb (isMovable w) then w
  else let pos := topLeft (upd_frame w) in
       move (mkPoint (px pos) (packPositionUp V E window w (py pos) true)) w.
Definition slotWindowPackDown (w : Window) : Window :=
  if negb (isMovable w) then w
  else let pos := topLeft (upd_frame w) in let height := rh (upd_frame w) in
       move (mkPoint (px pos) (packPositionDown V E window w (py pos + height) true - height + 1)) w.

(** win::grow_horizontal and so on; the resize increments of a Wayland window are (1, 1). *)
Definition grow_horizontal (w : Window) : Window :=
  if negb (isResizable w) then w
  else
    let g := frameGeometry w in
    let g := setRight g (packPositionRight V E window w (right g) true) in
    let g := setSize g (adjusted_frame_size w (size g)) in
    setFrameGeometry (setSize g (adjusted_frame_size w (size g))) w.

Definition shrink_horizontal (w : Window) : Window :=
  if negb (isResizable w) then w
  else
    let g := frameGeometry w in
    let g := setRight g (packPositionLeft V E window w (right g) false) in
    if rw g <=? 1 then w
    else
      let g := setSize g (adjusted_frame_size w (size g)) in
      if 20 <? rw g then setFrameGeometry g w else w.

Definition grow_vertical (w : Window) : Window :=
  if negb (isResizable w) then w
  else
    let g := frameGeometry w in
    let g := setBottom g (packPositionDown V E window w (bottom g) true) in
    setFrameGeometry (setSize g (adjusted_frame_size w (size g))) w.

Definition shrink_vertical (w : Window) : Window :=
  if negb (isResizable w) then w
  else
    let g := frameGeometry w in
    let g := setBottom g (packPositionUp V E window w (bottom g) false) in
    if rh g <=? 1 then w
    else
      let g := setSize g (adjusted_frame_size w (size g)) in
      if 20 <? rh g then setFrameGeometry g w else w.

(** Workspace::quickTileWindow: two commands within the time of the timer are combined. *)
Record Combine := mkCombine { timer_active : bool; m_lastTilingMode : Z }.

Definition is_left_or_right (mode : Z) : bool := (mode =? quicktiles.left) || (mode =? quicktiles.right).
Definition is_top_or_bottom (mode : Z) : bool := (mode =? quicktiles.top) || (mode =? quicktiles.bottom).

Definition combine (mode : Z) (c : Combine) : Combine * Z :=
  if negb (timer_active c) then (mkCombine true mode, mode)
  else
    let last := m_lastTilingMode c in
    (mkCombine false last,
     if (is_left_or_right last && is_top_or_bottom mode) || (is_top_or_bottom last && is_left_or_right mode)
     then Z.lor mode last else mode).

Variable screen_of : Window -> nat.
Definition quickTileWindow (mode : Z) (c : Combine) (w : Window) : Combine * Window :=
  let '(c', mode') := combine mode c in (c', set_quicktile_mode E V window screen_of mode' true w).
End Slots.

End Policies.
