(* ===== verification/PoliciesProps.v ===== *)
(** * Placement policies and the commands of the user: properties

    Placing a window ends whatever policies are configured; two tiling commands give a
    corner, and the third brings the window back. *)

From S2P Require Import Prelude Qt WorkArea Rules Geometry GeometryProps Placement PlacementProps Maximize MaximizeProps Policies.
From S2P Require Toplevel.

Module PoliciesProps.
Import Qt WorkArea Geometry GeometryProps Placement Maximize MaximizeProps Policies.

(** ** The policies end *)

Section Ends.
Context (E : Env) (V : View) (window : wid) (placement : Rules.Policy) (zone : Z).
Context (area : QRect) (Harea : isValid area = true).
Context (Hframes : forall x, x ∈ stackingOrder V -> 0 <= rw (frame V x) /\ 0 <= rh (frame V x)).

(** What the placement needs of a window: updates are blocked, no rules apply any more
    to its geometry, its size is positive, and so are the sizes that it may get. *)
Record placeable (s : Placing) : Prop := {
  pl_rules : rules (p_window s) = [];
  pl_block : block (p_window s) <> 0;
  pl_frame : isValid (upd_frame (p_window s)) = true;
  pl_min : 0 <= sw (minimumSize (p_window s)) /\ 0 <= sh (minimumSize (p_window s));
  pl_max : 0 < sw (maximumSize (p_window s)) /\ 0 < sh (maximumSize (p_window s));
  pl_margins : 0 <= sw (frame_size (p_window s)) /\ 0 <= sh (frame_size (p_window s));
  pl_area : isValid (area_of E WorkAreaOption (p_window s)) = true;
  pl_cascade : (Z.to_nat (placement_desktop V window - 1) < length (cci s))%nat;
}.

Lemma area_of_work w : area_of E WorkAreaOption w = area_at E WorkAreaOption (mkPoint 0 0) (desktop w).
Proof. reflexivity. Qed.

#[local] Arguments area_of : simpl never.
#[local] Arguments area_at : simpl never.
#[local] Arguments frame_size : simpl never.
#[local] Arguments maxSize : simpl never.

Lemma adjusted_positive w s :
  rules w = [] -> 0 <= sw (minimumSize w) /\ 0 <= sh (minimumSize w) ->
  0 < sw (maximumSize w) /\ 0 < sh (maximumSize w) -> 0 <= sw (frame_size w) /\ 0 <= sh (frame_size w) ->
  0 < sw s /\ 0 < sh s ->
  0 < sw (adjusted_frame_size w s) /\ 0 < sh (adjusted_frame_size w s).
Proof.
  intros Hr Hmin Hmax Hb Hs. unfold adjusted_frame_size, minSize, maxSize. rewrite Hr.
  change (Rules.checkMinSize [] (minimumSize w)) with (minimumSize w).
  change (Rules.checkMinSize [] (maximumSize w)) with (maximumSize w).
  destruct (frame_size w), (minimumSize w), (maximumSize w), s. cbn in *. repeat case_match; cbn; lia.
Qed.

(** A window that is resized to fit remains placeable. *)
Lemma placeable_resized s :
  placeable s ->
  placeable (on_window (constrained_resize E (boundedTo (maxSize (p_window s)) (size area))) s).
Proof.
  intros Hp. destruct (proj1 (isValid_spec area) Harea) as [HW HH]. destruct Hp as [Hr Hb _ Hmin Hmax Hm Hw Hc].
  destruct s as [w cc rnd]. unfold on_window, constrained_resize. cbn in *.
  set (sz := constrain_and_adjust_size E w _). set (r := rect_at (topLeft (upd_frame w)) sz).
  assert (isValid r = true) as Hv.
  { apply isValid_spec. unfold r, sz, constrain_and_adjust_size. cbn [rect_at rw rh].
    rewrite area_of_work in Hw |- *. apply isValid_spec in Hw as [Hw1 Hw2].
    apply adjusted_positive; try done. cbn. unfold maxSize. rewrite Hr.
    change (Rules.checkMinSize [] (maximumSize w)) with (maximumSize w). lia. }
  split; cbn; rewrite ?(stable_set _); try done.
  - by rewrite setFrame_upd_frame.
  - unfold frame_size. by rewrite (stable_set _).
  - rewrite area_of_work in *. by rewrite (stable_set _).
Qed.

Lemma placeable_cascade s l :
  placeable s -> length l = length (cci s) -> placeable (s <| cci := l |>).
Proof. intros [] Hl. split; try done. cbn. by rewrite Hl. Qed.

Definition ends (f : Placing -> option Placing) : Prop := forall s, placeable s -> is_Some (f s).

(** The policies that do not fall back to others. *)
Definition simple (p : Rules.Policy) : bool :=
  match p with Rules.Cascade | Rules.OnMainWindow | Rules.Maximizing => false | _ => true end.

Lemma simple_ends rec policy next : simple policy = true -> ends (place_by E V window rec area policy next).
Proof.
  intros Hs s Hp.
  destruct (PlacementProps.placeSmart_moves V window area (p_window s)) as [p Ep]; [done|apply Hp|done|].
  destruct policy; try done; cbn [place_by]; rewrite ?Ep; by eexists.
Qed.

(** The others do, if the ones they fall back to end. *)
Lemma cascade_ends rec next :
  ends (rec area (if decide (next = Rules.UnknownPolicy) then Rules.Smart else next)) ->
  ends (placeCascaded E V window rec area next).
Proof.
  intros Hrec s Hp. unfold placeCascaded. cbv zeta. destruct (negb (size_isValid _)); [by eexists|].
  destruct (lookup_lt_is_Some_2 _ _ (pl_cascade _ Hp)) as [inf ->]. cbn.
  destruct (cascade_step _ _ _ _) as [inf' []]; [by eexists|].
  apply Hrec, placeable_cascade; [done|apply length_insert].
Qed.

Lemma maximizing_ends rec next :
  ends (rec area (if decide (next = Rules.UnknownPolicy) then Rules.Smart else next)) ->
  ends (placeMaximizing E V window rec area next).
Proof.
  intros Hrec s Hp. unfold placeMaximizing. cbv zeta. destruct (isMaximizable _ && _ && _); [by eexists|].
  by apply Hrec, placeable_resized.
Qed.

Lemma on_main_ends rec next :
  (forall s, is_Some (rec area Rules.Centered s)) ->
  (next = Rules.Maximizing -> ends (placeMaximizing E V window rec area Rules.NoPlacement)) ->
  ends (placeOnMainWindow E V window rec area next).
Proof.
  intros Hc Hm s Hp. unfold placeOnMainWindow.
  assert (is_Some (if decide (next = Rules.Maximizing)
    then placeMaximizing E V window rec area Rules.NoPlacement s else Some s)) as [s1 ->]
    by (case_decide; [by apply Hm|by eexists]). cbn.
  destruct (main_window V window); [|by apply Hc]. case_match; [by apply Hc|by eexists].
Qed.

Lemma place_succ n policy next s :
  is_Some (place_by E V window (fun area policy => place E V window placement zone n area policy Rules.UnknownPolicy)
    area (resolve_policy placement policy) next s) ->
  is_Some (place E V window placement zone (S n) area policy next s).
Proof. intros [s1 H]. cbn [place]. cbv zeta. rewrite H. by eexists. Qed.

Notation placing n policy next := (place E V window placement zone n area policy next).

Lemma fixed_ends n policy next s :
  policy = Rules.Centered \/ policy = Rules.NoPlacement -> is_Some (placing (S n) policy next s).
Proof. intros [->| ->]; apply place_succ; by eexists. Qed.

Lemma smart_ends n next : ends (placing (S n) Rules.Smart next).
Proof. intros s Hp. apply place_succ. by apply simple_ends. Qed.

(** A policy that falls back needs one more level than the one it falls back to. *)
Lemma place_by_ends n policy next :
  ends (placing (S n) (if decide (next = Rules.UnknownPolicy) then Rules.Smart else next) Rules.UnknownPolicy) ->
  ends (place_by E V window (fun area policy => placing (S n) policy Rules.UnknownPolicy) area policy next).
Proof.
  intros Hn. destruct policy; try by apply simple_ends.
  - by apply cascade_ends.
  - apply on_main_ends.
    + intros s. apply fixed_ends. by left.
    + intros _. apply maximizing_ends. intros s _. apply fixed_ends. by right.
  - by apply maximizing_ends.
Qed.

Lemma two_levels policy : ends (placing 2 policy Rules.UnknownPolicy).
Proof. intros s Hp. apply place_succ. revert s Hp. apply place_by_ends. apply smart_ends. Qed.

Lemma three_levels policy next : ends (placing 3 policy next).
Proof. intros s Hp. apply place_succ. revert s Hp. apply place_by_ends. apply two_levels. Qed.
End Ends.

(** Placing a window ends, whatever policy the options and the rules of the window
    name: the policies that fall back to others (cascading, placing on the main window,
    maximizing) do so at most three levels deep, also when the options name one of them
    again, and the searches on the way end. *)
Theorem place_ends E V window placement zone surface area s :
  isValid area = true ->
  (forall x, x ∈ stackingOrder V -> 0 <= rw (frame V x) /\ 0 <= rh (frame V x)) ->
  placeable E V window s ->
  (exists s', place_window E V window placement zone surface 3 area s = Some s') /\
  forall policy next, exists s', place E V window placement zone 3 area policy next s = Some s'.
Proof.
  intros Ha Hf Hp.
  assert (forall policy next, is_Some (place E V window placement zone 3 area policy next s)) as H
    by (intros; by apply three_levels).
  split; [|exact H]. unfold place_window. cbv zeta.
  assert (forall next, is_Some (placeOnMainWindow E V window
    (fun area policy => place E V window placement zone 3 area policy Rules.UnknownPolicy) area next s)) as Hd.
  { intros next. apply on_main_ends; [intros u; apply fixed_ends; by left| |done].
    intros _. apply maximizing_ends; [done|]. intros u _. apply fixed_ends. by right. }
  repeat case_match; (apply H || apply Hd || by eexists).
Qed.

(** A normal window placed in a session with one cascade. *)
Definition sample_placing : Placing := mkPlacing (block_updates sample) [new_cascade] (mkPoint 0 0).

Lemma place_ends_witness :
  (upd_max_mode ∘ p_window <$> place sample_env PlacementProps.half_covered 1 Rules.Maximizing 10 3
     (mkRect 0 0 1920 1080) Rules.Default Rules.UnknownPolicy sample_placing) = Some full /\
  exists s', place_window sample_env PlacementProps.half_covered 1 Rules.Cascade 10 true 3
    (mkRect 0 0 1920 1080) sample_placing = Some s'.
Proof.
  split; [by vm_compute|].
  assert (placeable sample_env PlacementProps.half_covered 1 sample_placing) as Hp by (split; vm_compute; done || lia).
  destruct (place_ends sample_env PlacementProps.half_covered 1 Rules.Cascade 10 true (mkRect 0 0 1920 1080)
    sample_placing eq_refl ltac:(intros; cbn; lia) Hp) as [H _]. exact H.
Defined.

(** ** Corner tiles *)

(** A command to tile to the left or right followed within the time of the timer by
    one to the top or bottom, in either order, puts the window into the quarter of the
    area in that corner and remembers its first frame; the timer is stopped, so that the
    next command stands for itself. *)
Theorem corner_tiling E V window screen_of c side1 side2 w es :
  plain w -> isResizable w = true -> block w = 0 ->
  upd_max_mode w = restore -> quicktiling w = quicktiles.none -> isValid (restore_maximize w) = false ->
  isValid (frameGeometry w) = true -> timer_active c = false ->
  is_left_or_right side1 && is_top_or_bottom side2 || is_top_or_bottom side1 && is_left_or_right side2 = true ->
  forallb is_answer es = true ->
  let press := quickTileWindow E V window screen_of in
  let '(c1, w1) := press side1 c w in
  let w1' := run es w1 in
  let '(c2, w2) := press side2 c1 w1' in
  quicktiling w1 = side1 /\
  upd_frame w1 = tiled_rect side1 (area_at E MaximizeArea (tile_target E true w) (desktop w)) /\
  quicktiling w2 = Z.lor side2 side1 /\
  upd_frame w2 = tiled_rect (Z.lor side2 side1) (area_at E MaximizeArea (tile_target E true w1') (desktop w1')) /\
  restore_maximize w2 = frameGeometry w /\ timer_active c2 = false.
Proof.
  intros Hw Hr Hb Hm Ht Hv Hf Hc Hs He. cbv zeta. unfold quickTileWindow, combine. rewrite Hc. cbn [negb].
  cbv iota zeta. cbn [timer_active negb m_lastTilingMode]. cbv iota.
  assert (is_side side1 /\ is_side (Z.lor side2 side1) /\ side1 <> Z.lor side2 side1)
    as (S1 & S2 & Hne).
  { revert Hs. unfold is_left_or_right, is_top_or_bottom.
    rewrite orb_true_iff, !andb_true_iff, !orb_true_iff, !Z.eqb_eq.
    intros [[[->| ->] [->| ->]]|[[->| ->] [->| ->]]];
      split_and!; try split; try (intros E0; by vm_compute in E0); by vm_compute. }
  rewrite Hs.
  destruct (becomes_tiled E V window screen_of side1 true w) as [H1 _]; [done..|].
  set (w1 := set_quicktile_mode E V window screen_of side1 true w) in *.
  pose proof (becomes_answers _ _ _ _ _ _ es H1 He) as Ha.
  pose proof (becomes_retiled E V window screen_of (Z.lor side2 side1) true _ _ _ _ _ Ha) as H2.
  destruct H2 as [_ _ F2 R2 T2 _ _ _ _ _ _];
    [by rewrite (isResizable_becomes _ _ _ _ _ _ Hw Ha)|done..|].
  by destruct H1.
Qed.

Lemma corner_tiling_witness :
  let press := quickTileWindow sample_env no_view 1 (fun _ => 0%nat) in
  upd_frame (press quicktiles.top (mkCombine true quicktiles.left)
    (run [Ack 8; Commit (mkRect 0 0 956 1054) no_margins]
       (press quicktiles.left (mkCombine false 0) sample).2)).2 = mkRect 0 0 960 540.
Proof.
  cbv zeta.
  assert (plain sample) as Hp by by split.
  pose proof (corner_tiling sample_env no_view 1 (fun _ => 0%nat) (mkCombine false 0) quicktiles.left quicktiles.top
    sample [Ack 8; Commit (mkRect 0 0 956 1054) no_margins] Hp eq_refl eq_refl eq_refl eq_refl eq_refl eq_refl
    eq_refl eq_refl eq_refl) as H.
  cbv zeta in H. destruct H as (_ & _ & _ & H & _). cbn [snd]. etransitivity; [exact H|]. by vm_compute.
Defined.

(** ** Creeping windows *)

(** A window that is packed to the right or bottom edge of its screen is moved one pixel
    further by each repetition of the command, since the old position that the search
    starts from is the first column or row outside of the window; packing to the left has
    no such effect. *)
Example packing_creeps :
  let right_ := slotWindowPackRight sample_env no_view 1 in
  let down := slotWindowPackDown sample_env no_view 1 in
  let left_ := slotWindowPackLeft sample_env no_view 1 in
  frameGeometry (right_ sample) = mkRect 1618 80 304 226 /\
  frameGeometry (right_ (right_ sample)) = mkRect 1619 80 304 226 /\
  frameGeometry (right_ (right_ (right_ sample))) = mkRect 1620 80 304 226 /\
  frameGeometry (down (down sample)) = mkRect 100 857 304 226 /\
  frameGeometry (left_ (left_ sample)) = frameGeometry (left_ sample).
Proof. by vm_compute. Qed.

End PoliciesProps.
