(* ===== verification/Edid.v ===== *)
(** * Display identification (src/plugins/platforms/drm/edid.cpp, drm_output.cpp)

    [Edid]: the parser of the identification block a monitor sends, and what the
    output of the DRM backend makes of it: the name of the manufacturer, the
    physical size, the refresh rates of the modes and the identifier of the
    output. A block is the list of its bytes; a byte string is a [string], in
    which every character holds one byte. The table of vendor names and the hash
    function are parameters. *)

From Stdlib Require Import Ascii.
From S2P Require Import Prelude Qt Bytes.

Module Edid.
Import Qt Bytes.

Abbreviation Block := (list Z) (only parsing).

Record Edid := mkEdid {
  m_physicalSize : QSize;
  m_vendor : string;
  m_eisaId : string;
  m_monitorName : string;
  m_serialNumber : string;
  m_isValid : bool;
}.
#[global] Instance Edid_eta : RecordEta Edid := fun e =>
  mkEdid (m_physicalSize e) (m_vendor e) (m_eisaId e) (m_monitorName e) (m_serialNumber e)
    (m_isValid e).

(** The default constructor; a default QSize is (-1, -1). *)
Definition empty_edid : Edid := mkEdid (mkSize (-1) (-1)) "" "" "" "" false.

(** ** The bytes of a block *)

(** [data[i]]. *)
Definition at_ (data : Block) (i : nat) : Z := nth i data 0.

(** The character with a code of 8 bits. *)
Definition chr (z : Z) : ascii := Ascii.ascii_of_N (Z.to_N (z mod 256)).

(** [QByteArray(&data[i], n)]. *)
Definition bytes_at (data : Block) (i n : nat) : string :=
  String.string_of_list_ascii ((fun k => chr (at_ data (i + k))) <$> seq 0 n).

Section Parser.
(** The lines of hwdata/pnp.ids, [None] when the file is missing. *)
Context (pnp_ids : option (list string)).
Implicit Types data : Block.

Definition verifyHeader data : bool :=
  if negb (at_ data 0 =? 0) || negb (at_ data 7 =? 0) then false
  else forallb (fun i => at_ data i =? 255) (seq 1 6).

Definition parsePhysicalSize data : QSize := mkSize (at_ data 21 * 10) (at_ data 22 * 10).

(** The three letters of the manufacturer, five bits each. *)
Definition parsePnpId data : string :=
  let b0 := at_ data 8 in let b1 := at_ data 9 in
  String (chr (65 + Z.land (Z.shiftr b0 2) 31 - 1))
    (String (chr (65 + Z.lor (Z.shiftl (Z.land b0 3) 3) (Z.land (Z.shiftr b1 5) 7) - 1))
       (String (chr (65 + Z.land b1 31 - 1)) "")).

(** The loops over the descriptors: the text of the first one in use as a
    monitor descriptor with the given tag. *)
Fixpoint find_descriptor (tag : Z) data (offsets : list nat) : option string :=
  match offsets with
  | [] => None
  | i :: rest =>
      if negb (at_ data i =? 0) then find_descriptor tag data rest
      else if negb (at_ data (i + 1) =? 0) then find_descriptor tag data rest
      else if at_ data (i + 3) =? tag then Some (trimmed (bytes_at data (i + 5) 12))
      else find_descriptor tag data rest
  end.

(** [for (int i = 72; i <= 108; i += 18)]. *)
Definition descriptors : list nat := [72; 90; 108]%nat.

Definition parseEisaId data : string :=
  match find_descriptor 254 data descriptors with
  | Some s => s
  | None => parsePnpId data
  end.

Definition parseMonitorName data : string :=
  match find_descriptor 252 data descriptors with Some s => s | None => "" end.

(** The number stored in the block, least significant byte first. *)
Definition serial_number data : Z :=
  Z.lor (Z.lor (Z.lor (at_ data 12) (u32 (Z.shiftl (at_ data 13) 8)))
           (u32 (Z.shiftl (at_ data 14) 16))) (u32 (Z.shiftl (at_ data 15) 24)).

Definition parseSerialNumber data : string :=
  match find_descriptor 255 data descriptors with
  | Some s => s
  | None =>
      let serialNumber := serial_number data in
      if negb (serialNumber =? 0) then number serialNumber else ""
  end.

Definition parseVendor data : string :=
  let pnpId := parsePnpId data in
  match pnp_ids with
  | Some file =>
      match list_find (fun line => startsWith line pnpId = true) file with
      | Some (_, line) => trimmed (drop_chars 4 line)
      | None => ""
      end
  | None => ""
  end.

(** The constructor; the block has [length data] bytes. *)
Definition parse data : Edid :=
  if (length data <? 128)%nat then empty_edid
  else if negb (verifyHeader data) then empty_edid
  else mkEdid (parsePhysicalSize data) (parseVendor data) (parseEisaId data)
         (parseMonitorName data) (parseSerialNumber data) true.
End Parser.

(** ** The output of the DRM backend *)

(** What the output reads of a mode of the kernel. *)
Record Mode := mkMode {
  clock : Z;
  htotal : Z;
  vtotal : Z;
  vscan : Z;
  interlace : bool;
  dblscan : bool;
}.

(** refreshRateForMode, in mHz; [None] is a division by zero. *)
Definition refreshRateForMode (m : Mode) : option Z :=
  if (htotal m =? 0) || (vtotal m =? 0) then None
  else
    let r := cdiv (cdiv (clock m * 1000000) (htotal m) + cdiv (vtotal m) 2) (vtotal m) in
    let r := if interlace m then r * 2 else r in
    let r := if dblscan m then cdiv r 2 else r in
    Some (if 1 <? vscan m then cdiv r (vscan m) else r).

(** DRM_MODE_CONNECTOR_*. *)
Definition get_connector_name (type : Z) : string :=
  match type with
  | 1 => "VGA" | 2 => "DVI-I" | 3 => "DVI-D" | 4 => "DVI-A" | 5 => "Composite"
  | 6 => "SVIDEO" | 7 => "LVDS" | 8 => "Component" | 9 => "DIN" | 10 => "DP"
  | 11 => "HDMI-A" | 12 => "HDMI-B" | 13 => "TV" | 14 => "eDP" | 15 => "Virtual"
  | 16 => "DSI" | 17 => "DPI" | 18 => "WRITEBACK"
  | _ => "Unknown"
  end.

(** DrmOutput::init: the connectors of panels that are built in. *)
Definition is_internal (type : Z) : bool := (type =? 7) || (type =? 14) || (type =? 16).

(** QSize::isEmpty. *)
Definition empty_size (s : QSize) : bool := (sw s <? 1) || (sh s <? 1).

Section Output.
(** The MD5 sum in hexadecimal. *)
Context (md5_hex : string -> string).
(** The size written for the monitor in the group EdidOverwrite, by the names of
    the nested groups. *)
Context (EdidOverwrite : string -> string -> string -> option QSize).

(** DrmOutput::initEdid: the blob of the last property that is an EDID. *)
Definition initEdid (pnp_ids : option (list string)) (blobs : list (option Block)) : Edid :=
  match last blobs with
  | Some (Some blob) => parse pnp_ids blob
  | _ => empty_edid
  end.

Definition initUuid (connector_id : Z) (e : Edid) : string :=
  String.substring 0 10
    (md5_hex (number connector_id +:+ m_eisaId e +:+ m_monitorName e +:+ m_serialNumber e)).

(** The manufacturer of initOutputDevice. *)
Definition manufacturer (e : Edid) : string :=
  if negb (String.eqb (m_vendor e) "") then m_vendor e
  else if negb (String.eqb (m_eisaId e) "") then m_eisaId e
  else "".

Definition or_unknown (s : string) : string := if String.eqb s "" then "unknown" else s.

Definition physical_size (e : Edid) (mmWidth mmHeight : Z) : QSize :=
  let size := if negb (empty_size (m_physicalSize e)) then m_physicalSize e
              else mkSize mmWidth mmHeight in
  match EdidOverwrite (or_unknown (m_eisaId e)) (or_unknown (m_monitorName e))
          (or_unknown (m_serialNumber e)) with
  | Some overwriteSize => overwriteSize
  | None => size
  end.

Definition connector_name (type type_id : Z) : string :=
  get_connector_name type +:+ "-" +:+ number type_id.
End Output.

(** ** Writing a block

    The reference for the round trips: how the standard lays out the letters of
    the manufacturer, the serial number and a text descriptor. *)

(** The two bytes of three letters. *)
Definition pnp_bytes (a b c : Z) : Z * Z :=
  let w := (a - 64) * 1024 + (b - 64) * 32 + (c - 64) in (w / 256, w mod 256).

(** The 18 bytes of a text descriptor: the text ends with a line feed, when it is
    shorter than the 13 bytes, and spaces fill the rest. *)
Definition padding (n : nat) : list Z :=
  match n with O => [] | S k => 10 :: replicate k 32 end.
Definition descriptor (tag : Z) (text : list Z) : list Z :=
  [0; 0; 0; tag; 0] ++ text ++ padding (13 - length text).

Definition header : list Z := [0; 255; 255; 255; 255; 255; 255; 0].

(** What a block says of a monitor. [basic] are the basic parameters up to the
    size, which is in centimetres, [colours] the bytes up to the first descriptor,
    [preferred] that descriptor, and [other] the last one. *)
Record Monitor := mkMonitor {
  letters : Z * Z * Z;
  product : list Z;
  serial : list Z;
  basic : list Z;
  width : Z;
  height : Z;
  colours : list Z;
  preferred : list Z;
  serial_text : list Z;
  name : list Z;
  other : list Z;
  trailer : list Z;
}.

(** The bytes up to the size. *)
Definition identification (m : Monitor) : Block :=
  let '(a, b, c) := letters m in
  let id := pnp_bytes a b c in
  header ++ [id.1; id.2] ++ product m ++ serial m ++ basic m ++ [width m; height m].

Definition encode (m : Monitor) : Block :=
  (identification m ++ colours m ++ preferred m) ++ descriptor 255 (serial_text m) ++
  descriptor 252 (name m) ++ other m ++ trailer m.

(** A sample monitor. *)
Definition sample : Monitor :=
  mkMonitor (68, 69, 76) [1; 2] [52; 18; 0; 0] [1; 20; 1; 3; 128] 52 29
    (replicate 31 1) (100 :: replicate 17 7) [65; 66; 49; 50]
    [68; 69; 76; 76; 32; 85; 50; 52] (descriptor 253 [50; 76]) [0; 123].

Example sample_parsed :
  parse (Some ["AAA Avolites Ltd"; "DEL Dell Inc."]) (encode sample)
  = mkEdid (mkSize 520 290) "Dell Inc." "DEL" "DELL U24" "AB12" true.
Proof. by vm_compute. Qed.

Example refresh_60Hz : refreshRateForMode (mkMode 148500 2200 1125 0 false false) = Some 60000.
Proof. by vm_compute. Qed.

End Edid.
