(* ===== verification/EdidProps.v ===== *)
(** * Properties of the display identification

    What is written into a block is read back from it, blocks that are not valid
    leave nothing behind, and the refresh rate of a mode is the nearest one. *)

From Stdlib Require Import Ascii.
From S2P Require Import Prelude Qt Bytes Edid.

Module EdidProps.
Import Qt Bytes Edid.

(** ** Bytes of lists *)

Section Lists.
Implicit Types l : list Z.

Lemma at_app_l l1 l2 i : (i < length l1)%nat -> at_ (l1 ++ l2) i = at_ l1 i.
Proof. apply app_nth1. Qed.

Lemma at_app_r l1 l2 i : at_ (l1 ++ l2) (length l1 + i) = at_ l2 i.
Proof. unfold at_. rewrite app_nth2 by lia. f_equal. lia. Qed.

(** The text of a list of bytes. *)
Definition text l : string := String.string_of_list_ascii (chr <$> l).

Lemma bytes_at_text l i n : (i + n <= length l)%nat -> bytes_at l i n = text (take n (drop i l)).
Proof.
  intros Hl. unfold bytes_at, text. f_equal.
  apply list_eq. intros j. rewrite !list_lookup_fmap.
  destruct (decide (j < n)%nat).
  - rewrite lookup_seq_lt by done. rewrite lookup_take_lt by done. rewrite lookup_drop. simpl.
    destruct (lookup_lt_is_Some_2 l (i + j)) as [x Hx]; [lia|]. rewrite Hx. simpl.
    f_equal. f_equal. unfold at_. by apply nth_lookup_Some.
  - rewrite lookup_seq_ge by lia. rewrite lookup_take_ge by lia. done.
Qed.
End Lists.

(** ** Text *)

(** Printable characters that are not white space at both ends. *)
Definition solid (z : Z) : bool := (32 <? z) && (z <? 127).
Definition printable (l : list Z) : Prop :=
  (exists x, head l = Some x /\ solid x = true) /\ (exists y, last l = Some y /\ solid y = true).

Lemma chr_code z : 0 <= z < 256 -> code (chr z) = z.
Proof.
  intros Hz. unfold code, chr. rewrite Z.mod_small by done.
  rewrite Ascii.N_ascii_embedding by lia. lia.
Qed.

Lemma solid_not_space z : solid z = true -> is_space (chr z) = false.
Proof.
  intros H. unfold solid in H. zify_bools. unfold is_space. rewrite chr_code by lia.
  assert (z =? 32 = false) as -> by (apply Z.eqb_neq; lia).
  assert (z <=? 13 = false) as -> by (apply Z.leb_gt; lia). by rewrite andb_false_r.
Qed.

Lemma text_app l1 l2 : text (l1 ++ l2) = text l1 +:+ text l2.
Proof.
  induction l1 as [|x l1 IH]; [done|].
  change (String (chr x) (text (l1 ++ l2)) = String (chr x) (text l1 +:+ text l2)). by rewrite IH.
Qed.

Lemma trim_end_spaces s t : all_chars is_space t = true -> trim_end (s +:+ t) = trim_end s.
Proof.
  intros Ht. induction s as [|c s IH].
  2:{ rewrite string_app_cons. simpl. by rewrite IH. }
  change (trim_end t = ""). clear -Ht.
  induction t as [|c t IHt]; [done|]. simpl in *. apply andb_true_iff in Ht as [Hc Ht].
  by rewrite IHt, Hc.
Qed.

Lemma trim_end_text l y : last l = Some y -> solid y = true -> trim_end (text l) = text l.
Proof.
  intros Hl Hy. apply last_Some in Hl as [l' ->]. rewrite text_app.
  assert (forall s, trim_end (s +:+ text [y]) = s +:+ text [y] /\ s +:+ text [y] <> "") as H.
  { induction s as [|c s [IH Hne]].
    - unfold text. simpl. by rewrite solid_not_space.
    - rewrite string_app_cons. split; [|done]. cbn [trim_end]. rewrite IH.
      by destruct (s +:+ text [y]). }
  apply H.
Qed.

Lemma trimmed_padded l n :
  printable l -> trimmed (text (l ++ padding n)) = text l.
Proof.
  intros ((x & Hx & Sx) & (y & Hy & Sy)). rewrite text_app. unfold trimmed.
  assert (all_chars is_space (text (padding n)) = true) as Hp.
  { destruct n as [|n]; [done|]. unfold text. simpl. induction n as [|n IH]; [done|]. done. }
  assert (skip_while is_space (text l +:+ text (padding n)) = text l +:+ text (padding n)) as ->.
  { destruct l as [|z l]; [done|]. injection Hx as ->. unfold text. simpl. by rewrite solid_not_space. }
  rewrite trim_end_spaces by done. by apply (trim_end_text _ y).
Qed.

Lemma length_padding n : length (padding n) = n.
Proof. destruct n; [done|]. simpl. by rewrite length_replicate. Qed.

Lemma take_padding k : take k (padding (S k)) = padding k.
Proof.
  destruct k; [done|].
  change (10 :: take k (replicate (S k) 32) = 10 :: replicate k 32).
  by rewrite take_replicate, Nat.min_l by lia.
Qed.

(** A text descriptor of at most twelve characters is read back. *)
Lemma descriptor_text tag l rest :
  printable l -> (length l <= 12)%nat -> trimmed (bytes_at (descriptor tag l ++ rest) 5 12) = text l.
Proof.
  intros Hl Hn. rewrite bytes_at_text.
  2:{ unfold descriptor. rewrite !length_app, length_padding. simpl. lia. }
  change (drop 5 (descriptor tag l ++ rest)) with ((l ++ padding (13 - length l)) ++ rest).
  assert (take 12 ((l ++ padding (13 - length l)) ++ rest)
          = l ++ padding (12 - length l)) as ->.
  { rewrite <- app_assoc, take_app, take_ge by lia. f_equal.
    destruct (13 - length l)%nat as [|k] eqn:E; [lia|].
    replace (12 - length l)%nat with k by lia.
    rewrite take_app_le by (rewrite length_padding; lia). apply take_padding. }
  by apply trimmed_padded.
Qed.

(** ** Round trip *)

(** A monitor the standard allows: letters of the alphabet, fields of their
    lengths, printable texts of at most twelve characters, and a last descriptor
    that is not a text the parser looks for. *)
Record Monitor_ok (m : Monitor) : Prop := {
  ok_letters : let '(a, b, c) := letters m in 65 <= a <= 90 /\ 65 <= b <= 90 /\ 65 <= c <= 90;
  ok_product : length (product m) = 2%nat;
  ok_serial : length (serial m) = 4%nat;
  ok_basic : length (basic m) = 5%nat;
  ok_colours : length (colours m) = 31%nat;
  ok_preferred : length (preferred m) = 18%nat;
  ok_serial_text : printable (serial_text m) /\ (length (serial_text m) <= 12)%nat;
  ok_name : printable (name m) /\ (length (name m) <= 12)%nat;
  ok_other : length (other m) = 18%nat /\
    (at_ (other m) 0 =? 0) && (at_ (other m) 1 =? 0) && (at_ (other m) 3 =? 254) = false;
  ok_trailer : length (trailer m) = 2%nat;
}.

Lemma length_descriptor tag l : (length l <= 13)%nat -> length (descriptor tag l) = 18%nat.
Proof. intros. unfold descriptor. rewrite !length_app, length_padding. simpl. lia. Qed.

(** The letters as they are stored and read. *)
Lemma pnp_letters a b c rest pre :
  65 <= a <= 90 -> 65 <= b <= 90 -> 65 <= c <= 90 -> length pre = 8%nat ->
  parsePnpId (pre ++ [(pnp_bytes a b c).1; (pnp_bytes a b c).2] ++ rest) = text [a; b; c].
Proof.
  intros Ha Hb Hc Hp. unfold parsePnpId, pnp_bytes.
  replace 9%nat with (length pre + 1)%nat by lia. replace 8%nat with (length pre + 0)%nat by lia.
  rewrite !at_app_r. unfold at_. cbn [nth app fst snd].
  set (w := _ + _ + (c - 64)).
  assert (Z.land (Z.shiftr (w / 256) 2) 31 = a - 64) as ->.
  { rewrite (Z.land_ones _ 5), Z.shiftr_div_pow2 by lia. unfold w. Z.to_euclidean_division_equations; lia. }
  assert (Z.land (w mod 256) 31 = c - 64) as ->.
  { rewrite (Z.land_ones _ 5) by lia. unfold w. Z.to_euclidean_division_equations; lia. }
  assert (Z.lor (Z.shiftl (Z.land (w / 256) 3) 3) (Z.land (Z.shiftr (w mod 256) 5) 7) = b - 64) as ->.
  { rewrite (Z.land_ones _ 2), (Z.land_ones _ 3), Z.shiftr_div_pow2, Z.shiftl_mul_pow2 by lia.
    rewrite lor_low by (try (apply Z.mod_pos_bound); lia). unfold w. Z.to_euclidean_division_equations; lia. }
  unfold text. simpl. f_equal; [|f_equal; [|f_equal]]; f_equal; lia.
Qed.

(** The descriptors of an encoded monitor start at the offsets of the parser. *)
Lemma encode_at m j :
  Monitor_ok m ->
  at_ (encode m) (72 + j) = at_ (descriptor 255 (serial_text m) ++ descriptor 252 (name m) ++
                                 other m ++ trailer m) j.
Proof.
  intros [Hl ? ? ? ? ? ? ? ? ?]. destruct (letters m) as [[a b] c] eqn:El.
  assert (length (identification m ++ colours m ++ preferred m) = 72%nat) as Hlen.
  { unfold identification. rewrite El, !length_app. simpl. lia. }
  rewrite <- Hlen. apply at_app_r.
Qed.

Lemma bytes_ext data data' i j n :
  (forall k, at_ data (i + k) = at_ data' (j + k)) -> bytes_at data i n = bytes_at data' j n.
Proof. intros H. unfold bytes_at. f_equal. apply list_fmap_ext. intros ? k _. by rewrite H. Qed.

Lemma encode_length m : Monitor_ok m -> length (encode m) = 128%nat.
Proof.
  intros [Hl Hp Hs Hb Hc Hpr [_ Ht] [_ Hn] [Ho _] Htr]. destruct (letters m) as [[a b] c] eqn:El.
  unfold encode, identification. rewrite El.
  rewrite !length_app, !length_descriptor, Hp, Hs, Hb, Hc, Hpr, Ho, Htr by lia. done.
Qed.

Lemma encode_header m : Monitor_ok m -> verifyHeader (encode m) = true.
Proof. intros _. unfold encode, identification. by destruct (letters m) as [[a b] c]. Qed.

Lemma encode_size m :
  Monitor_ok m -> parsePhysicalSize (encode m) = mkSize (width m * 10) (height m * 10).
Proof.
  intros [Hl Hp Hs Hb Hc Hpr _ _ _ _]. unfold parsePhysicalSize, encode, identification.
  destruct (letters m) as [[a b] c]. set (id := pnp_bytes a b c).
  set (pre := header ++ [id.1; id.2] ++ product m ++ serial m ++ basic m).
  assert (length pre = 21%nat) as Hlen by (unfold pre; rewrite !length_app; simpl; lia).
  match goal with |- mkSize (at_ ?l 21 * 10) _ = _ =>
    assert (exists r, l = pre ++ [width m; height m] ++ r) as [r ->] end.
  { eexists. unfold pre. rewrite <- !(app_assoc header), <- !(app_assoc [id.1; id.2]),
      <- !(app_assoc (product m)), <- !(app_assoc (serial m)), <- !(app_assoc (basic m)),
      <- !(app_assoc [width m; height m]). reflexivity. }
  pose proof (at_app_r pre ([width m; height m] ++ r) 0) as H0.
  pose proof (at_app_r pre ([width m; height m] ++ r) 1) as H1.
  rewrite Hlen in H0, H1. by rewrite (H0 : at_ _ 21 = _), (H1 : at_ _ 22 = _).
Qed.

Lemma encode_pnp m : Monitor_ok m ->
  parsePnpId (encode m) = let '(a, b, c) := letters m in text [a; b; c].
Proof.
  intros [Hl _ _ _ _ _ _ _ _ _]. unfold encode, identification.
  destruct (letters m) as [[a b] c]. rewrite <- !(app_assoc header), <- !(app_assoc [_; _]).
  rewrite pnp_letters; by try apply Hl.
Qed.

(** *** The descriptors *)

Lemma at_second tag l rest j :
  (length l <= 13)%nat -> at_ (descriptor tag l ++ rest) (18 + j) = at_ rest j.
Proof. intros Hl. rewrite <- (length_descriptor tag l Hl). apply at_app_r. Qed.

(** One step of the search, at a text descriptor of the block. *)
Lemma find_text data tag t l k rest offsets :
  (forall j, at_ data (k + j) = at_ (descriptor t l ++ rest) j) ->
  find_descriptor tag data (k :: offsets)
  = if t =? tag then Some (trimmed (bytes_at data (k + 5) 12))
    else find_descriptor tag data offsets.
Proof.
  intros Hat. cbn [find_descriptor]. rewrite <- (Nat.add_0_r k) at 1. by rewrite !Hat.
Qed.

Lemma encode_second m j : Monitor_ok m ->
  at_ (encode m) (90 + j) = at_ (descriptor 252 (name m) ++ other m ++ trailer m) j.
Proof.
  intros Hm. change (90 + j)%nat with (72 + (18 + j))%nat. rewrite encode_at by done.
  apply at_second. destruct (ok_serial_text _ Hm). lia.
Qed.

Lemma encode_third m j : Monitor_ok m -> at_ (encode m) (108 + j) = at_ (other m ++ trailer m) j.
Proof.
  intros Hm. change (108 + j)%nat with (90 + (18 + j))%nat. rewrite encode_second by done.
  apply at_second. destruct (ok_name _ Hm). lia.
Qed.

Lemma text_found data tag t l k rest offsets :
  (forall j, at_ data (k + j) = at_ (descriptor t l ++ rest) j) ->
  printable l -> (length l <= 12)%nat -> t = tag ->
  find_descriptor tag data (k :: offsets) = Some (text l).
Proof.
  intros Hat Hp Hl ->. rewrite (find_text _ _ _ _ _ _ _ Hat), Z.eqb_refl. f_equal.
  rewrite <- (descriptor_text tag l rest) by done. f_equal. apply bytes_ext.
  intros j. by rewrite <- Nat.add_assoc, Hat.
Qed.

Lemma encode_serial m : Monitor_ok m -> parseSerialNumber (encode m) = text (serial_text m).
Proof.
  intros Hm. destruct (ok_serial_text _ Hm). unfold parseSerialNumber, descriptors.
  by erewrite text_found by (try done; by intros; apply encode_at).
Qed.

Lemma encode_name m : Monitor_ok m -> parseMonitorName (encode m) = text (name m).
Proof.
  intros Hm. destruct (ok_name _ Hm). unfold parseMonitorName, descriptors.
  erewrite find_text by (by intros; apply encode_at). change (255 =? 252) with false. cbn iota.
  by erewrite text_found by (try done; by intros; apply encode_second).
Qed.

Lemma encode_eisa m : Monitor_ok m -> parseEisaId (encode m) = parsePnpId (encode m).
Proof.
  intros Hm. unfold parseEisaId, descriptors.
  erewrite find_text by (by intros; apply encode_at). change (255 =? 254) with false. cbn iota.
  erewrite find_text by (by intros; apply encode_second). change (252 =? 254) with false. cbn iota.
  destruct (ok_other _ Hm) as [Hlen Ho]. cbn [find_descriptor].
  rewrite (encode_third m 0 : _ -> at_ _ 108 = _), (encode_third m 1 : _ -> at_ _ (108 + 1) = _),
    (encode_third m 3 : _ -> at_ _ (108 + 3) = _), !at_app_l by (done || lia).
  by destruct (at_ (other m) 0 =? 0), (at_ (other m) 1 =? 0), (at_ (other m) 3 =? 254).
Qed.

(** ** Properties *)


Lemma sample_ok : Monitor_ok sample.
Proof. split; cbn; try lia; try done; split; try lia; try done; split; eexists; done. Defined.


(** Only twelve of the thirteen characters a descriptor can hold are read. *)
Example long_name_cut :
  parseMonitorName (encode (mkMonitor (68, 69, 76) [1; 2] [52; 18; 0; 0] [1; 20; 1; 3; 128] 52 29
    (replicate 31 1) (100 :: replicate 17 7) [65] [65; 66; 67; 68; 69; 70; 71; 72; 73; 74; 75; 76; 77]
    (descriptor 253 [50; 76]) [0; 123])) = "ABCDEFGHIJKL".
Proof. by vm_compute. Qed.

Lemma no_overwrite overwrite w h :
  overwrite "unknown" "unknown" "unknown" = None ->
  physical_size overwrite empty_edid w h = mkSize w h.
Proof.
  intros Ho.
  change (match overwrite "unknown" "unknown" "unknown" with
          | Some o => o | None => mkSize w h end = mkSize w h).
  by rewrite Ho.
Qed.

(** A block that is too short or has another header leaves nothing behind: the
    output then has no manufacturer and the size the connector reports. *)
Theorem invalid_edid_ignored overwrite pnp_ids data w h :
  m_isValid (parse pnp_ids data) = (128 <=? length data)%nat && verifyHeader data /\
  (m_isValid (parse pnp_ids data) = false ->
   parse pnp_ids data = empty_edid /\ manufacturer (parse pnp_ids data) = "" /\
   (overwrite "unknown" "unknown" "unknown" = None ->
    physical_size overwrite (parse pnp_ids data) w h = mkSize w h)).
Proof.
  unfold parse. destruct (Nat.ltb_spec (length data) 128) as [Hl|Hl].
  - rewrite (proj2 (Nat.leb_gt _ _)) by lia. split; [done|]. intros _. split_and!; [done..|].
    exact (no_overwrite overwrite w h).
  - rewrite (proj2 (Nat.leb_le _ _)) by lia. destruct (verifyHeader data); [done|].
    split; [done|]. intros _. split_and!; [done..|].
    exact (no_overwrite overwrite w h).
Qed.

(** The refresh rate of a progressive mode is the number of mHz nearest to the
    pixel clock divided by the pixels of a frame; a mode without lines or columns
    divides by zero. *)
Theorem refresh_nearest m :
  0 <= clock m -> 0 <= htotal m -> 0 <= vtotal m ->
  interlace m = false -> dblscan m = false -> vscan m <= 1 ->
  match refreshRateForMode m with
  | Some r => 2 * Z.abs (r * vtotal m - clock m * 1000000 / htotal m) <= vtotal m
  | None => htotal m = 0 \/ vtotal m = 0
  end.
Proof.
  intros Hc Hh Hv Hi Hd Hs. unfold refreshRateForMode.
  destruct (Z.eqb_spec (htotal m) 0) as [|Hh0]; [by left|].
  destruct (Z.eqb_spec (vtotal m) 0) as [|Hv0]; [by right|]. simpl.
  rewrite Hi, Hd, (proj2 (Z.ltb_ge 1 _)) by lia.
  assert (0 <= clock m * 1000000 / htotal m) as Hq by (apply Z.div_pos; lia).
  assert (0 <= vtotal m / 2) by (apply Z.div_pos; lia).
  rewrite (cdiv_nonneg (clock m * 1000000)), (cdiv_nonneg (vtotal m)), cdiv_nonneg by lia.
  set (q := clock m * 1000000 / htotal m) in *.
  pose proof (Z.div_mod (q + vtotal m / 2) (vtotal m) Hv0) as E.
  pose proof (Z.mod_pos_bound (q + vtotal m / 2) (vtotal m) ltac:(lia)).
  pose proof (Z.div_mod (vtotal m) 2 ltac:(lia)).
  pose proof (Z.mod_pos_bound (vtotal m) 2 ltac:(lia)). nia.
Qed.

End EdidProps.
