(* ===== verification/KeyboardLayout.v ===== *)
(** * Keyboard layouts (src/keyboard_layout.cpp, keyboard_layout_switching.cpp, xkb.cpp)

    The layout of the keyboard, the policies that remember a layout per virtual
    desktop, window or application, and their part of the saved session.

    The keymap and its state belong to libxkbcommon: the class [XkbLib] has its
    functions that the code calls, and what they promise. The hash maps of the
    policies are finite maps; the order in which one is iterated is a parameter. *)

From S2P Require Import Prelude Qt Bytes Toplevel.

(** The keymap together with the state of the keyboard. Setting the layout keeps
    the modifiers. The effective layout is one of the keymap. *)
Class XkbLib := {
  xkb_state : Type;
  xkb_keymap_num_layouts : xkb_state -> Z;
  xkb_state_serialize_layout : xkb_state -> Z;
  xkb_state_update_mask : Z -> xkb_state -> xkb_state;
  num_layouts_bounds s : 0 < xkb_keymap_num_layouts s < 2 ^ 32;
  effective_bounds s : 0 <= xkb_state_serialize_layout s < xkb_keymap_num_layouts s;
  update_mask_effective l s :
    0 <= l < xkb_keymap_num_layouts s -> xkb_state_serialize_layout (xkb_state_update_mask l s) = l;
  update_mask_num l s :
    xkb_keymap_num_layouts (xkb_state_update_mask l s) = xkb_keymap_num_layouts s;
}.

Module KeyboardLayout.
Import Toplevel Bytes.

Section Operations.
Context {X : XkbLib}.
Context (H : Heap).
Context (same_client : wid -> wid -> bool).
(** win::control::desktop_file_name. *)
Context (desktop_file_name : wid -> string).
(** VirtualDesktop::x11DesktopNumber. *)
Context (x11DesktopNumber : nat -> Z).
(** The order in which a hash map is iterated. *)
Context (iterate : gmap wid Z -> list (wid * Z)).

(** ** src/xkb.cpp *)

(** [m_keymap] and [m_state], [None] before a keymap was loaded. *)
Record Xkb := mkXkb { m_state : option xkb_state; m_currentLayout : Z }.
#[global] Instance Xkb_eta : RecordEta Xkb := fun x => mkXkb (m_state x) (m_currentLayout x).

Definition numberOfLayouts (x : Xkb) : Z :=
  match m_state x with Some s => xkb_keymap_num_layouts s | None => 0 end.

(** The part of updateModifiers that concerns the layout. *)
Definition updateModifiers (s : xkb_state) (x : Xkb) : Xkb :=
  x <| m_state := Some s |> <| m_currentLayout := xkb_state_serialize_layout s |>.

Definition xkb_switchToLayout (layout : Z) (x : Xkb) : Xkb * bool :=
  match m_state x with
  | None => (x, false)
  | Some s =>
      if xkb_keymap_num_layouts s <=? layout then (x, false)
      else (updateModifiers (xkb_state_update_mask layout s) x, true)
  end.

Definition xkb_switchToNextLayout (x : Xkb) : Xkb :=
  match m_state x with
  | None => x
  | Some s =>
      (xkb_switchToLayout (u32 (xkb_state_serialize_layout s + 1) mod xkb_keymap_num_layouts s) x).1
  end.

Definition xkb_switchToPreviousLayout (x : Xkb) : Xkb :=
  match m_state x with
  | None => x
  | Some _ =>
      (xkb_switchToLayout (if m_currentLayout x =? 0 then numberOfLayouts x - 1
                           else m_currentLayout x - 1) x).1
  end.

(** Xkb::updateKey and the variant of updateModifiers for the masks of a nested
    session: the library moves to another state of the same keymap. *)
Definition xkb_update (f : xkb_state -> xkb_state) (x : Xkb) : Xkb :=
  match m_state x with None => x | Some s => updateModifiers (f s) x end.

(** Xkb::reconfigure: the new keymap, [None] when none could be loaded. *)
Definition xkb_reconfigure (keymap : option xkb_state) (x : Xkb) : Xkb :=
  match keymap with Some s => updateModifiers s x | None => x end.

(** ** src/keyboard_layout_switching.cpp *)

Inductive Policy :=
  | GlobalPolicy
  | VirtualDesktopPolicy (m_layouts : gmap nat Z)
  | WindowPolicy (m_layouts : gmap wid Z)
  | ApplicationPolicy (m_layouts : gmap wid Z) (m_layoutsRestored : gmap string Z).

(** The group Layout of the configuration: the entries that hold a number. *)
Abbreviation Config := (gmap string Z) (only parsing).

(** KeyboardLayout with the objects it owns. [signals] are the emissions of
    layoutChanged, [osd] the requests for the on-screen display. *)
Record Keyboard := mkKeyboard {
  xkb : Xkb;
  m_layout : Z;
  m_policy : option Policy;
  m_config : Config;
  activeClient : option wid;
  currentDesktop : option nat;
  signals : list Z;
  osd : list Z;
}.
#[global] Instance Keyboard_eta : RecordEta Keyboard := fun k =>
  mkKeyboard (xkb k) (m_layout k) (m_policy k) (m_config k) (activeClient k) (currentDesktop k)
    (signals k) (osd k).
Implicit Types (k : Keyboard) (w : wid).

Definition currentLayout k : Z := m_currentLayout (xkb k).

Definition name (p : Policy) : string :=
  match p with
  | GlobalPolicy => "Global"
  | VirtualDesktopPolicy _ => "Desktop"
  | WindowPolicy _ => "Window"
  | ApplicationPolicy _ _ => "WinClass"
  end.

(** QString::toLower. *)
Definition lower_char (c : Ascii.ascii) : Ascii.ascii :=
  if is_upper c then Ascii.ascii_of_N (Ascii.N_of_ascii c + 32) else c.
Fixpoint to_lower (s : string) : string :=
  match s with EmptyString => "" | String c s' => String (lower_char c) (to_lower s') end.

Definition create (policy : string) : Policy :=
  if bool_decide (to_lower policy = "desktop") then VirtualDesktopPolicy ∅
  else if bool_decide (to_lower policy = "window") then WindowPolicy ∅
  else if bool_decide (to_lower policy = "winclass") then ApplicationPolicy ∅ ∅
  else GlobalPolicy.

Definition defaultLayoutEntryKeyPrefix : string := "LayoutDefault".
Definition defaultLayoutEntryKey (p : Policy) : string :=
  match p with
  | GlobalPolicy => defaultLayoutEntryKeyPrefix +:+ name p
  | _ => defaultLayoutEntryKeyPrefix +:+ name p +:+ "_"
  end.

Definition clearLayouts (c : Config) : Config :=
  filter (fun e => str_contains e.1 defaultLayoutEntryKeyPrefix = false) c.

(** The free function getLayout. *)
Definition getLayout {K} `{Countable K} (layouts : gmap K Z) (reference : K) : Z :=
  match layouts !! reference with Some l => l | None => 0 end.

(** The end of the layoutChanged of the policies: insert or assign. *)
Definition remember {K} `{Countable K} (reference : K) (index : Z) (layouts : gmap K Z) : gmap K Z :=
  <[reference := index]> layouts.

(** The special types the window policies ignore. *)
Definition ignored w : bool := is_desktop (H w) || is_dock (H w).

(** ApplicationPolicy: update all layouts for the application; an entry that had
    the layout already ends the update. *)
Definition remember_application w (index : Z) (layouts : gmap wid Z) : gmap wid Z :=
  if bool_decide (layouts !! w = Some index) then layouts
  else map_imap (fun v l => Some (if same_client v w then index else l)) (remember w index layouts).

(** The layoutChanged of the policies. *)
Definition policy_layoutChanged (index : Z) k : Keyboard :=
  match m_policy k with
  | Some (VirtualDesktopPolicy ls) =>
      match currentDesktop k with
      | None => k
      | Some d => k <| m_policy := Some (VirtualDesktopPolicy (remember d index ls)) |>
      end
  | Some (WindowPolicy ls) =>
      match activeClient k with
      | None => k
      | Some c => if ignored c then k
                  else k <| m_policy := Some (WindowPolicy (remember c index ls)) |>
      end
  | Some (ApplicationPolicy ls rs) =>
      match activeClient k with
      | None => k
      | Some c =>
          if ignored c then k
          else k <| m_policy := Some (ApplicationPolicy (remember_application c index ls) rs) |>
      end
  | _ => k
  end.

(** The signal layoutChanged. *)
Definition emit_layoutChanged (index : Z) k : Keyboard :=
  policy_layoutChanged index (k <| signals := signals k ++ [index] |>).

(** Policy::setLayout. *)
Definition setLayout (index : Z) k : Keyboard :=
  let previousLayout := currentLayout k in
  let k1 := k <| xkb := (xkb_switchToLayout index (xkb k)).1 |> in
  if negb (previousLayout =? currentLayout k1) then emit_layoutChanged (currentLayout k1) k1 else k1.

Definition clearCache (p : Policy) : Policy :=
  match p with
  | GlobalPolicy => GlobalPolicy
  | VirtualDesktopPolicy _ => VirtualDesktopPolicy ∅
  | WindowPolicy _ => WindowPolicy ∅
  | ApplicationPolicy _ rs => ApplicationPolicy ∅ rs
  end.

(** VirtualDesktopPolicy::desktopChanged. *)
Definition desktopChanged k : Keyboard :=
  match m_policy k, currentDesktop k with
  | Some (VirtualDesktopPolicy ls), Some d => setLayout (getLayout ls d) k
  | _, _ => k
  end.

(** ApplicationPolicy::clientActivated, for a window that is not ignored. *)
Definition application_activated w (ls : gmap wid Z) (rs : gmap string Z) k : Keyboard :=
  match ls !! w with
  | Some l => setLayout l k
  | None =>
      match list_find (fun e => same_client w e.1 = true) (iterate ls) with
      | Some (_, (_, layout)) => policy_layoutChanged layout (setLayout layout k)
      | None =>
          let restored := getLayout rs (desktop_file_name w) in
          let k1 := setLayout restored
            (k <| m_policy := Some (ApplicationPolicy ls (delete (desktop_file_name w) rs)) |>) in
          if negb (currentLayout k1 =? 0) then policy_layoutChanged (currentLayout k1) k1 else k1
      end
  end.

(** The handlers of Workspace::clientActivated. *)
Definition policy_activated (window : option wid) k : Keyboard :=
  match window with
  | None => k
  | Some w =>
      if ignored w then k
      else match m_policy k with
           | Some (WindowPolicy ls) => setLayout (getLayout ls w) k
           | Some (ApplicationPolicy ls rs) => application_activated w ls rs k
           | _ => k
           end
  end.

(** The handlers of Toplevel::windowClosed and VirtualDesktop::aboutToBeDestroyed. *)
Definition windowClosed w k : Keyboard :=
  match m_policy k with
  | Some (WindowPolicy ls) => k <| m_policy := Some (WindowPolicy (delete w ls)) |>
  | Some (ApplicationPolicy ls rs) => k <| m_policy := Some (ApplicationPolicy (delete w ls) rs) |>
  | _ => k
  end.

Definition desktopDestroyed (d : nat) k : Keyboard :=
  match m_policy k with
  | Some (VirtualDesktopPolicy ls) => k <| m_policy := Some (VirtualDesktopPolicy (delete d ls)) |>
  | _ => k
  end.

(** *** The session *)

(** The entries a policy writes, in the order of its map. *)
Definition saved_entries (p : Policy) (current : Z) (order : gmap nat Z -> list (nat * Z))
    : list (string * Z) :=
  match p with
  | GlobalPolicy => if current =? 0 then [] else [(defaultLayoutEntryKey p, current)]
  | VirtualDesktopPolicy ls =>
      omap (fun e => if e.2 =? 0 then None
                     else Some (defaultLayoutEntryKey p +:+ number (x11DesktopNumber e.1), e.2))
        (order ls)
  | WindowPolicy _ => []
  | ApplicationPolicy ls _ =>
      omap (fun e =>
          if e.2 =? 0 then None
          else if bool_decide (desktop_file_name e.1 = "") then None
          else Some (defaultLayoutEntryKey p +:+ desktop_file_name e.1, e.2))
        (iterate ls)
  end.

(** The handlers of SessionManager::prepareSessionSaveRequested. *)
Definition prepareSessionSave (order : gmap nat Z -> list (nat * Z)) k : Keyboard :=
  match m_policy k with
  | None | Some (WindowPolicy _) => k
  | Some p =>
      k <| m_config := foldl (fun c e => <[e.1 := e.2]> c) (clearLayouts (m_config k))
                         (saved_entries p (currentLayout k) order) |>
  end.

(** The handlers of SessionManager::loadSessionRequested; [desktops] are the
    virtual desktops. *)
Definition loadSession (desktops : list nat) k : Keyboard :=
  match m_policy k with
  | Some GlobalPolicy =>
      if 1 <? numberOfLayouts (xkb k)
      then setLayout (getLayout (m_config k) (defaultLayoutEntryKey GlobalPolicy)) k else k
  | Some (VirtualDesktopPolicy ls as p) =>
      if 1 <? numberOfLayouts (xkb k) then
        let ls' := foldl (fun acc d =>
            let layout := getLayout (m_config k)
                            (defaultLayoutEntryKey p +:+ number (x11DesktopNumber d)) in
            if negb (layout =? 0) then <[d := layout]> acc else acc) ls desktops in
        desktopChanged (k <| m_policy := Some (VirtualDesktopPolicy ls') |>)
      else k
  | Some (ApplicationPolicy ls rs as p) =>
      if 1 <? numberOfLayouts (xkb k) then
        let prefix := defaultLayoutEntryKey p in
        let rs' := foldl (fun acc e => <[drop_chars (String.length prefix) e.1 := e.2]> acc) rs
                     (map_to_list (filter (fun e => str_contains e.1 prefix = true) (m_config k))) in
        k <| m_policy := Some (ApplicationPolicy ls rs') |>
      else k
  | _ => k
  end.

(** ** src/keyboard_layout.cpp *)

Definition checkLayoutChange (previousLayout : Z) k : Keyboard :=
  let current := currentLayout k in
  if negb (m_layout k =? current) || negb (previousLayout =? current)
  then emit_layoutChanged current (k <| m_layout := current |> <| osd := osd k ++ [current] |>)
  else k.

Definition switchToNextLayout k : Keyboard :=
  checkLayoutChange (currentLayout k) (k <| xkb := xkb_switchToNextLayout (xkb k) |>).

Definition switchToPreviousLayout k : Keyboard :=
  checkLayoutChange (currentLayout k) (k <| xkb := xkb_switchToPreviousLayout (xkb k) |>).

Definition switchToLayout (index : Z) k : Keyboard :=
  checkLayoutChange (currentLayout k) (k <| xkb := (xkb_switchToLayout index (xkb k)).1 |>).

(** KeyboardLayoutDBusInterface::setLayout. *)
Definition dbus_setLayout (index : Z) k : Keyboard * bool :=
  let '(x, ok) := xkb_switchToLayout index (xkb k) in
  if negb ok then (k, false) else (checkLayoutChange (currentLayout k) (k <| xkb := x |>), true).

(** KeyboardInputRedirection::processKey: the layout is checked after a key press
    that is not part of a global shortcut. *)
Definition processKey (f : xkb_state -> xkb_state) (shortcut_modifiers release : bool) k : Keyboard :=
  let k1 := k <| xkb := xkb_update f (xkb k) |> in
  if negb shortcut_modifiers && negb release then checkLayoutChange (currentLayout k) k1 else k1.

(** resetLayout; the shortcuts and the D-Bus object are not part of the state. *)
Definition resetLayout k : Keyboard :=
  k <| m_layout := currentLayout k |> <| m_policy := clearCache <$> m_policy k |>.

(** reconfigure, with a group that is valid: [policyKey] is its entry SwitchMode. *)
Definition reconfigure (keymap : option xkb_state) (policyKey : string) k : Keyboard :=
  let k1 := k <| xkb := xkb_reconfigure keymap (xkb k) |> in
  let recreate := match m_policy k1 with
                  | None => true
                  | Some p => negb (bool_decide (name p = policyKey))
                  end in
  resetLayout (if recreate then k1 <| m_policy := Some (create policyKey) |> else k1).

(** Workspace::setActiveClient as the policies see it. *)
Definition activate (window : option wid) k : Keyboard :=
  policy_activated window (k <| activeClient := window |>).

(** VirtualDesktopManager::currentChanged as the policies see it. *)
Definition changeDesktop (d : nat) k : Keyboard :=
  desktopChanged (k <| currentDesktop := Some d |>).
End Operations.

End KeyboardLayout.
