(* ===== verification/KeyboardLayoutProps.v ===== *)
(** * Properties of the keyboard layouts

    Next and previous walk around the layouts, the policy for windows keeps a
    layout per window, as an abstract table does, and the layouts of the virtual
    desktops survive the session. *)

From S2P Require Import Prelude Qt Bytes Toplevel KeyboardLayout.

Module KeyboardLayoutProps.
Import Toplevel Bytes KeyboardLayout.

Section Facts.
Context {X : XkbLib}.
Context (H : Heap) (same_client : wid -> wid -> bool) (desktop_file_name : wid -> string).
Context (x11DesktopNumber : nat -> Z).
Context (iterate : gmap wid Z -> list (wid * Z)).
Implicit Types (k : Keyboard) (w a : wid) (x : Xkb) (n l : Z).

(** ** The keymap *)

(** The keymap has [n] layouts and [l] is the current one. *)
Definition xkb_at n l x : Prop :=
  exists s, m_state x = Some s /\ xkb_keymap_num_layouts s = n /\
    xkb_state_serialize_layout s = l /\ m_currentLayout x = l.

Lemma xkb_at_bounds n l x : xkb_at n l x -> 0 < n < 2 ^ 32 /\ 0 <= l < n.
Proof.
  intros (s & _ & <- & <- & _). split; [apply num_layouts_bounds|apply effective_bounds].
Qed.

Lemma switchToLayout_at n l l' x :
  xkb_at n l x -> 0 <= l' ->
  xkb_at n (if l' <? n then l' else l) (xkb_switchToLayout l' x).1 /\
  (xkb_switchToLayout l' x).2 = (l' <? n).
Proof.
  intros (s & Hs & Hn & He & Hc) Hl'. unfold xkb_switchToLayout. rewrite Hs, Hn.
  destruct (Z.leb_spec n l'); destruct (Z.ltb_spec l' n); try lia; simpl; split; try done.
  - by exists s.
  - exists (xkb_state_update_mask l' s). simpl. rewrite update_mask_num, update_mask_effective by lia.
    done.
Qed.

Lemma switchToNext_at n l x :
  xkb_at n l x -> xkb_at n ((l + 1) mod n) (xkb_switchToNextLayout x).
Proof.
  intros Hx. pose proof (xkb_at_bounds _ _ _ Hx) as [Hn Hl].
  pose proof Hx as (s & Hs & Hns & He & Hc). unfold xkb_switchToNextLayout. rewrite Hs, Hns, He.
  rewrite u32_small by lia. pose proof (Z.mod_pos_bound (l + 1) n ltac:(lia)).
  destruct (switchToLayout_at n l ((l + 1) mod n) x Hx) as [Hat _]; [lia|].
  by rewrite (proj2 (Z.ltb_lt _ _)) in Hat by lia.
Qed.

Lemma switchToPrevious_at n l x :
  xkb_at n l x -> xkb_at n ((l - 1) mod n) (xkb_switchToPreviousLayout x).
Proof.
  intros Hx. pose proof (xkb_at_bounds _ _ _ Hx) as [Hn Hl].
  pose proof Hx as (s & Hs & Hns & He & Hc). unfold xkb_switchToPreviousLayout, numberOfLayouts.
  rewrite Hs, Hns, Hc.
  assert ((if l =? 0 then n - 1 else l - 1) = (l - 1) mod n) as ->.
  { destruct (Z.eqb_spec l 0) as [->|].
    - rewrite <- (Z_mod_plus_full _ 1 n). rewrite Z.mod_small; lia.
    - rewrite Z.mod_small; lia. }
  pose proof (Z.mod_pos_bound (l - 1) n ltac:(lia)).
  destruct (switchToLayout_at n l ((l - 1) mod n) x Hx) as [Hat _]; [lia|].
  by rewrite (proj2 (Z.ltb_lt _ _)) in Hat by lia.
Qed.

(** ** One layout per window *)

(** What the policy promises: a table with the layout of every window, and the
    window that has the focus. *)
Record Table := mkTable { layout_of : wid -> Z; focus : wid }.

Inductive Event :=
  | Focus w           (** a window becomes active *)
  | Next | Previous   (** the shortcuts *)
  | Switch l          (** the shortcut of a layout, or a request over D-Bus *)
  | Close w.          (** another window is closed *)

Definition assign (t : Table) l : Table :=
  mkTable (fun w => if decide (w = focus t) then l else layout_of t w) (focus t).

Definition table_step n (t : Table) (e : Event) : Table :=
  match e with
  | Focus w => mkTable (layout_of t) w
  | Next => assign t ((layout_of t (focus t) + 1) mod n)
  | Previous => assign t ((layout_of t (focus t) - 1) mod n)
  | Switch l => if l <? n then assign t l else t
  | Close w => mkTable (fun v => if decide (v = w) then 0 else layout_of t v) (focus t)
  end.

Definition keyboard_step k (e : Event) : Keyboard :=
  match e with
  | Focus w => activate H same_client desktop_file_name iterate (Some w) k
  | Next => switchToNextLayout H same_client k
  | Previous => switchToPreviousLayout H same_client k
  | Switch l => switchToLayout H same_client l k
  | Close w => windowClosed w k
  end.

(** Events the window policy cares about. *)
Definition event_ok (t : Table) (e : Event) : Prop :=
  match e with
  | Focus w => ignored H w = false
  | Switch l => 0 <= l
  | Close w => w <> focus t
  | _ => True
  end.

Fixpoint events_ok n (t : Table) (es : list Event) : Prop :=
  match es with [] => True | e :: es' => event_ok t e /\ events_ok n (table_step n t e) es' end.

Record in_sync n k (t : Table) : Prop := {
  sync_policy : exists ls, m_policy k = Some (WindowPolicy ls) /\
    forall w, getLayout ls w = layout_of t w;
  sync_focus : activeClient k = Some (focus t);
  sync_special : ignored H (focus t) = false;
  sync_current : xkb_at n (layout_of t (focus t)) (xkb k);
  sync_range : forall w, 0 <= layout_of t w < n;
}.

(** After the keymap moved to layout [l] for the focused window and the policy
    recorded it, if that was necessary. *)
Lemma recorded n k t x l ls ls' k' :
  in_sync n k t -> m_policy k = Some (WindowPolicy ls) -> (forall w, getLayout ls w = layout_of t w) ->
  xkb_at n l x -> xkb k' = x -> activeClient k' = activeClient k ->
  m_policy k' = Some (WindowPolicy ls') ->
  ls' = <[focus t := l]> ls \/ (ls' = ls /\ l = layout_of t (focus t)) ->
  in_sync n k' (assign t l).
Proof.
  intros [_ Hf Hs Hc Hr] Hp Hls Hx <- Ha Hp' Hcase. split.
  - exists ls'. split; [done|]. intros w. simpl. case_decide as Hw.
    + subst w. destruct Hcase as [->|[-> ->]]; [|by apply Hls].
      unfold getLayout. by rewrite lookup_insert_eq.
    + destruct Hcase as [->|[-> ->]]; [|by apply Hls].
      unfold getLayout. rewrite lookup_insert_ne by done. apply Hls.
  - by rewrite Ha.
  - done.
  - simpl. by rewrite decide_True.
  - intros w. simpl. case_decide; [|by apply Hr]. by apply xkb_at_bounds in Hx as [_ ?].
Qed.

Lemma emit_window_policy ls index k a :
  m_policy k = Some (WindowPolicy ls) -> activeClient k = Some a -> ignored H a = false ->
  let k' := emit_layoutChanged H same_client index k in
  xkb k' = xkb k /\ activeClient k' = Some a /\
  m_policy k' = Some (WindowPolicy (<[a := index]> ls)).
Proof.
  intros Hp Ha Hi. unfold emit_layoutChanged, policy_layoutChanged. simpl.
  by rewrite Hp, Ha, Hi.
Qed.

Lemma check_sync n k t x l :
  in_sync n k t -> xkb_at n l x ->
  in_sync n (checkLayoutChange H same_client (currentLayout k) (k <| xkb := x |>)) (assign t l).
Proof.
  intros Hk Hx. pose proof Hk as [(ls & Hp & Hls) Hf Hs Hc Hr].
  assert (currentLayout k = layout_of t (focus t)) as Hcur by (by destruct Hc as (s & _ & _ & _ & ?)).
  assert (m_currentLayout x = l) as Hxl by (by destruct Hx as (s & _ & _ & _ & ?)).
  unfold checkLayoutChange. change (currentLayout (k <| xkb := x |>)) with (m_currentLayout x).
  rewrite Hxl, Hcur.
  destruct (negb (m_layout (k <| xkb := x |>) =? l) || negb (layout_of t (focus t) =? l)) eqn:E.
  - match goal with |- in_sync _ (emit_layoutChanged _ _ _ ?k0) _ => set (k1 := k0) end.
    destruct (emit_window_policy ls l k1 (focus t)) as (E1 & E2 & E3); [done..|].
    eapply (recorded n k t x l ls); try done; [by rewrite E2|by left].
  - zify_bools. eapply (recorded n k t x l ls ls); try done. right. split; [done|]. lia.
Qed.

Lemma setLayout_sync n k t l ls :
  m_policy k = Some (WindowPolicy ls) -> (forall w, getLayout ls w = layout_of t w) ->
  activeClient k = Some (focus t) -> ignored H (focus t) = false ->
  (exists c, xkb_at n c (xkb k)) -> (forall w, 0 <= layout_of t w < n) ->
  l = layout_of t (focus t) ->
  in_sync n (setLayout H same_client l k) t.
Proof.
  intros Hp Hls Hf Hs [c Hc] Hr ->. unfold setLayout.
  destruct (switchToLayout_at n c (layout_of t (focus t)) (xkb k) Hc) as [Hx _]; [apply Hr|].
  rewrite (proj2 (Z.ltb_lt _ _)) in Hx by apply Hr.
  set (k1 := k <| xkb := _ |>).
  assert (currentLayout k1 = layout_of t (focus t)) as -> by (by destruct Hx as (s & _ & _ & _ & ?)).
  destruct (negb (currentLayout k =? layout_of t (focus t))).
  - destruct (emit_window_policy ls (layout_of t (focus t)) k1 (focus t)) as (E1 & E2 & E3); [done..|].
    split; try done.
    + exists (<[focus t := layout_of t (focus t)]> ls). split; [done|]. intros w.
      unfold getLayout. destruct (decide (w = focus t)) as [->|].
      * by rewrite lookup_insert_eq.
      * rewrite lookup_insert_ne by done. apply Hls.
    + by rewrite E1.
  - split; try done. by exists ls.
Qed.

Lemma step_sync n k t e :
  in_sync n k t -> event_ok t e -> in_sync n (keyboard_step k e) (table_step n t e).
Proof.
  intros Hk He. pose proof Hk as [(ls & Hp & Hls) Hf Hs Hc Hr].
  destruct e as [w| | |l|w]; simpl in *.
  - unfold activate, policy_activated. simpl. rewrite He.
    change (m_policy (k <| activeClient := Some w |>)) with (m_policy k). rewrite Hp.
    eapply setLayout_sync; try done. by exists (layout_of t (focus t)).
  - apply check_sync; [done|]. by apply switchToNext_at.
  - apply check_sync; [done|]. by apply switchToPrevious_at.
  - destruct (switchToLayout_at n _ l (xkb k) Hc He) as [Hx _].
    pose proof (check_sync n k t _ _ Hk Hx) as Hck. destruct (l <? n); [done|].
    destruct Hck as [(ls' & Hp' & Hls') Hf' Hs' Hc' Hr']. simpl in *.
    rewrite decide_True in Hc' by done.
    split; try done. exists ls'. split; [done|]. intros w. rewrite Hls'. by case_decide; subst.
  - unfold windowClosed. rewrite Hp. split; simpl; try done.
    + eexists. split; [done|]. intros v. unfold getLayout. case_decide as Hv.
      * subst. by rewrite lookup_delete_eq.
      * rewrite lookup_delete_ne by done. apply Hls.
    + by rewrite decide_False.
    + intros v. pose proof (Hr v). case_decide; lia.
Qed.

Lemma steps_sync n es k t :
  in_sync n k t -> events_ok n t es ->
  in_sync n (foldl keyboard_step k es) (foldl (table_step n) t es).
Proof.
  revert k t. induction es as [|e es IH]; intros k t Hk Hes; [done|].
  destruct Hes as [He Hes]. apply IH; [by apply step_sync|done].
Qed.

(** ** The session of the virtual desktops *)

Lemma foldl_insert_notin {V} (l : list (string * V)) (c : gmap string V) key :
  key ∉ l.*1 -> foldl (fun c e => <[e.1 := e.2]> c) c l !! key = c !! key.
Proof.
  revert c. induction l as [|[key' v'] l IH]; intros c Hk; [done|].
  rewrite fmap_cons, not_elem_of_cons in Hk. destruct Hk as [Hne Hk].
  simpl. rewrite IH by done. by rewrite lookup_insert_ne.
Qed.

Lemma foldl_insert_in {V} (l : list (string * V)) (c : gmap string V) key v :
  NoDup l.*1 -> (key, v) ∈ l -> foldl (fun c e => <[e.1 := e.2]> c) c l !! key = Some v.
Proof.
  revert c. induction l as [|[key' v'] l IH]; intros c Hnd Hin; [by apply elem_of_nil in Hin|].
  rewrite fmap_cons in Hnd. apply NoDup_cons in Hnd as [Hk Hnd]. simpl.
  apply elem_of_cons in Hin as [[= -> ->]|Hin]; [|by apply IH].
  rewrite foldl_insert_notin by done. apply lookup_insert_eq.
Qed.

Definition desktop_key (d : nat) : string :=
  defaultLayoutEntryKey (VirtualDesktopPolicy ∅) +:+ number (x11DesktopNumber d).

Lemma str_contains_app (s t : string) : str_contains (s +:+ t) s = true.
Proof.
  assert (String.prefix s (s +:+ t) = true) as Hp.
  { induction s as [|c s IH]; [by destruct t|].
    rewrite string_app_cons. simpl. by destruct (Ascii.ascii_dec c c). }
  destruct (s +:+ t) as [|c u] eqn:E.
  - destruct s; [done|]. by rewrite string_app_cons in E.
  - cbn [str_contains]. by rewrite Hp.
Qed.

Lemma desktop_key_cleared c d : clearLayouts c !! desktop_key d = None.
Proof.
  assert (str_contains (desktop_key d) defaultLayoutEntryKeyPrefix = true) as Hk.
  { change (str_contains (defaultLayoutEntryKeyPrefix +:+
      ("Desktop_" +:+ number (x11DesktopNumber d))) defaultLayoutEntryKeyPrefix = true).
    apply str_contains_app. }
  unfold clearLayouts. apply map_lookup_filter_None. right. intros v _ E.
  change (str_contains (desktop_key d) defaultLayoutEntryKeyPrefix = false) in E.
  by rewrite Hk in E.
Qed.

Lemma string_app_inj (s t u : string) : s +:+ t = s +:+ u -> t = u.
Proof.
  induction s as [|c s IH]; [done|]. rewrite !string_app_cons. intros E. injection E. apply IH.
Qed.

Lemma number_inj (a b : Z) : 0 <= a < 2 ^ 31 -> 0 <= b < 2 ^ 31 -> number a = number b -> a = b.
Proof.
  intros Ha Hb. unfold number. rewrite !(proj2 (Z.ltb_ge _ _)) by lia. intros E.
  by rewrite <- (to_int_dec a), <- (to_int_dec b), E by done.
Qed.

(** The numbers of the desktops are positive and belong to one desktop each. *)
Definition numbered (desktops : list nat) : Prop :=
  (forall d, d ∈ desktops -> 0 <= x11DesktopNumber d < 2 ^ 31) /\
  (forall d e, d ∈ desktops -> e ∈ desktops -> x11DesktopNumber d = x11DesktopNumber e -> d = e).

Lemma desktop_key_inj desktops d e :
  numbered desktops -> d ∈ desktops -> e ∈ desktops -> desktop_key d = desktop_key e -> d = e.
Proof.
  intros [Hr Hi] Hd He E. unfold desktop_key in E. apply string_app_inj in E.
  apply Hi; try done. apply number_inj; auto.
Qed.

Section Session.
Context (order : gmap nat Z -> list (nat * Z)) (order_perm : forall m, order m ≡ₚ map_to_list m).
Context (desktops : list nat) (Hnum : numbered desktops).

Abbreviation entries ls := (saved_entries desktop_file_name x11DesktopNumber iterate
                              (VirtualDesktopPolicy ls) 0 order).

Lemma entries_elem ls key v :
  (key, v) ∈ entries ls <-> v <> 0 /\ exists d, key = desktop_key d /\ ls !! d = Some v.
Proof.
  simpl. rewrite list_elem_of_omap. setoid_rewrite order_perm.
  setoid_rewrite elem_of_map_to_list'. split.
  - intros ([d w] & Hin & He). simpl in *. destruct (Z.eqb_spec w 0) as [|Hw]; [done|].
    injection He as <- <-. split; [done|]. by exists d.
  - intros (Hv & d & -> & Hd). exists (d, v). split; [done|]. simpl.
    by rewrite (proj2 (Z.eqb_neq _ _)).
Qed.

Lemma entries_keys ls :
  (forall d, is_Some (ls !! d) -> d ∈ desktops) -> NoDup (entries ls).*1.
Proof.
  intros Hdom. simpl.
  assert (NoDup (order ls).*1) as Hnd by (rewrite order_perm; apply NoDup_fst_map_to_list).
  assert (forall d v, (d, v) ∈ order ls -> d ∈ desktops) as Hin.
  { intros d v Hd. rewrite order_perm in Hd. apply elem_of_map_to_list in Hd. eauto. }
  revert Hnd Hin. generalize (order ls) as l. induction l as [|[d v] l IH]; intros Hnd Hin.
  { apply NoDup_nil_2. }
  rewrite fmap_cons in Hnd. apply NoDup_cons in Hnd as [Hd Hnd].
  assert (NoDup (omap (fun e : nat * Z => if e.2 =? 0 then None else
    Some (defaultLayoutEntryKey (VirtualDesktopPolicy ls) +:+ number (x11DesktopNumber e.1), e.2)) l).*1)
    as IHl by (apply IH; [done|intros ???; eapply Hin; by right]).
  simpl. destruct (Z.eqb_spec v 0); [done|].
  apply NoDup_cons. split; [|done].
  intros Hin'. apply list_elem_of_fmap in Hin' as ([key w] & E & Hk). simpl in E. subst key.
  apply list_elem_of_omap in Hk as ([e u] & He & Hf). simpl in Hf.
  destruct (Z.eqb_spec u 0); [done|]. injection Hf as Hf _.
  assert (d = e) as ->.
  { assert (d ∈ desktops) by (eapply Hin; left). assert (e ∈ desktops) by (eapply Hin; right; exact He).
    apply (proj2 Hnum); [done..|]. symmetry. apply number_inj; [by apply (proj1 Hnum)..|exact Hf]. }
  apply Hd. apply list_elem_of_fmap. by exists (e, u).
Qed.

(** What a later session reads for a desktop. *)
Lemma saved_layout c ls d :
  (forall d, is_Some (ls !! d) -> d ∈ desktops) -> d ∈ desktops ->
  getLayout (foldl (fun c e => <[e.1 := e.2]> c) (clearLayouts c) (entries ls)) (desktop_key d)
  = getLayout ls d.
Proof.
  intros Hdom Hd. unfold getLayout at 1.
  assert (getLayout ls d = 0 \/ exists v, v <> 0 /\ ls !! d = Some v) as [H0|(v & Hv & Hl)].
  { unfold getLayout. destruct (ls !! d) as [v|]; [|by left].
    destruct (decide (v = 0)); [by left|right; eauto]. }
  - rewrite H0, foldl_insert_notin; [by rewrite desktop_key_cleared|].
    intros Hin. apply list_elem_of_fmap in Hin as ([key v] & Hkey & Hin).
    apply entries_elem in Hin as (Hv & e & Hk & He). simpl in Hkey. rewrite <- Hkey in Hk.
    assert (d = e) as <- by (eapply desktop_key_inj; eauto).
    unfold getLayout in H0. rewrite He in H0. done.
  - rewrite (foldl_insert_in _ _ _ v); [unfold getLayout; by rewrite Hl|by apply entries_keys|].
    apply entries_elem. eauto.
Qed.

(** The loop of the handler that loads a session into an empty table. *)
Lemma load_loop (c : gmap string Z) (ds : list nat) acc d :
  getLayout (foldl (fun acc d => let layout := getLayout c (desktop_key d) in
     if negb (layout =? 0) then <[d := layout]> acc else acc) acc ds) d
  = if bool_decide (d ∈ ds) && negb (getLayout c (desktop_key d) =? 0)
    then getLayout c (desktop_key d) else getLayout acc d.
Proof.
  revert acc. induction ds as [|e ds IH]; intros acc; [done|]. simpl. rewrite IH.
  destruct (decide (d = e)) as [->|Hne].
  - rewrite (bool_decide_eq_true_2 (e ∈ e :: ds)) by by left.
    destruct (negb (getLayout c (desktop_key e) =? 0)) eqn:E; [|by rewrite andb_false_r].
    rewrite andb_true_r. simpl. case_bool_decide; [done|].
    unfold getLayout at 1. by rewrite lookup_insert_eq.
  - assert (bool_decide (d ∈ e :: ds) = bool_decide (d ∈ ds)) as ->.
    { apply bool_decide_ext. rewrite elem_of_cons. naive_solver. }
    case_match; [done|]. unfold getLayout at 1 3.
    destruct (negb (getLayout c (desktop_key e) =? 0)); [|done]. by rewrite lookup_insert_ne.
Qed.
Abbreviation save := (prepareSessionSave desktop_file_name x11DesktopNumber iterate order).
Abbreviation load := (loadSession H same_client x11DesktopNumber desktops).

Lemma saved_layouts_config k ls :
  m_policy k = Some (VirtualDesktopPolicy ls) ->
  m_config (save k)
  = foldl (fun c e => <[e.1 := e.2]> c) (clearLayouts (m_config k)) (entries ls).
Proof. intros Hp. unfold prepareSessionSave. by rewrite Hp. Qed.

(** Showing a desktop switches to its layout and keeps the table. *)
Lemma desktop_shown n l k ls c :
  m_policy k = Some (VirtualDesktopPolicy ls) -> xkb_at n l (xkb k) -> currentDesktop k = Some c ->
  0 <= getLayout ls c < n ->
  exists ls2, m_policy (desktopChanged H same_client k) = Some (VirtualDesktopPolicy ls2) /\
    (forall d, getLayout ls2 d = getLayout ls d) /\
    currentLayout (desktopChanged H same_client k) = getLayout ls c.
Proof.
  intros Hp Hx Hc Hr. unfold desktopChanged. rewrite Hp, Hc. unfold setLayout.
  destruct (switchToLayout_at n l (getLayout ls c) (xkb k) Hx) as [Hat _]; [lia|].
  rewrite (proj2 (Z.ltb_lt _ _)) in Hat by lia.
  set (k1 := k <| xkb := (xkb_switchToLayout (getLayout ls c) (xkb k)).1 |>).
  assert (currentLayout k1 = getLayout ls c) as Hcur by (by destruct Hat as (s & _ & _ & _ & ?)).
  rewrite Hcur. destruct (negb (currentLayout k =? getLayout ls c)); [|by exists ls].
  unfold emit_layoutChanged, policy_layoutChanged. simpl. rewrite Hp, Hc.
  eexists. split; [done|]. split; [|done].
  intros d. unfold remember, getLayout at 1. destruct (decide (d = c)) as [->|].
  - by rewrite lookup_insert_eq.
  - by rewrite lookup_insert_ne.
Qed.

(** The layouts of the virtual desktops survive the session: a policy that
    saved them, and a new one that loads the configuration, agree on every
    desktop, and the keyboard has the layout of the current one. *)
Theorem desktop_layouts_restored n l k k2 ls c :
  m_policy k = Some (VirtualDesktopPolicy ls) ->
  (forall d, is_Some (ls !! d) -> d ∈ desktops) -> (forall d, 0 <= getLayout ls d < n) ->
  m_policy k2 = Some (VirtualDesktopPolicy ∅) -> m_config k2 = m_config (save k) ->
  xkb_at n l (xkb k2) -> 1 < n -> currentDesktop k2 = Some c -> c ∈ desktops ->
  exists ls2, m_policy (load k2) = Some (VirtualDesktopPolicy ls2) /\
    (forall d, d ∈ desktops -> getLayout ls2 d = getLayout ls d) /\
    currentLayout (load k2) = getLayout ls c.
Proof.
  intros Hp Hdom Hr Hp2 Hcfg Hx Hn Hc Hcin.
  unfold loadSession. rewrite Hp2.
  assert (numberOfLayouts (xkb k2) = n) as ->.
  { destruct Hx as (s & Hs & <- & _). unfold numberOfLayouts. by rewrite Hs. }
  rewrite (proj2 (Z.ltb_lt _ _)) by done.
  set (ls2 := foldl _ ∅ desktops).
  assert (forall d, d ∈ desktops -> getLayout ls2 d = getLayout ls d) as Hls2.
  { intros d Hd. unfold ls2. rewrite Hcfg, (saved_layouts_config k ls Hp).
    rewrite (load_loop _ desktops ∅ d), (saved_layout _ ls d Hdom Hd).
    rewrite bool_decide_eq_true_2 by done. simpl.
    destruct (Z.eqb_spec (getLayout ls d) 0) as [->|]; done. }
  destruct (desktop_shown n l (k2 <| m_policy := Some (VirtualDesktopPolicy ls2) |>) ls2 c)
    as (ls3 & E1 & E2 & E3); try done; [by rewrite Hls2|].
  exists ls3. rewrite E3, (Hls2 c Hcin). split_and!; [done| |done].
  intros d Hd. by rewrite E2, Hls2.
Qed.
End Session.


(** Switching to the next layout as often as there are layouts comes back. *)
Theorem next_cycles n l x (j : nat) :
  xkb_at n l x -> xkb_at n ((l + Z.of_nat j) mod n) (Nat.iter j xkb_switchToNextLayout x).
Proof.
  intros Hx. pose proof (xkb_at_bounds _ _ _ Hx) as [Hn Hl].
  induction j as [|j IH].
  - simpl. rewrite Z.add_0_r, Z.mod_small by lia. done.
  - pose proof (switchToNext_at _ _ _ IH) as Hs.
    rewrite Z.add_mod_idemp_l in Hs by lia. simpl.
    replace (l + Z.of_nat (S j)) with (l + Z.of_nat j + 1) by lia. done.
Qed.
End Facts.

(** ** A keyboard with three layouts *)

#[export] Program Instance three_layouts : XkbLib := {|
  xkb_state := Z;
  xkb_keymap_num_layouts := fun _ => 3;
  xkb_state_serialize_layout := fun s => s mod 3;
  xkb_state_update_mask := fun l _ => l;
|}.
Next Obligation. done. Qed.
Next Obligation. intros s. by apply Z.mod_pos_bound. Qed.
Next Obligation. intros l s Hl. by apply Z.mod_small. Qed.
Next Obligation. done. Qed.

Definition sample_keyboard (p : Policy) (c : gmap string Z) : Keyboard :=
  mkKeyboard (mkXkb (Some 0) 0) 0 (Some p) c (Some 1%nat) (Some 0%nat) [] [].

Definition sample_heap : Heap := fun _ => plain_window.
Definition same : wid -> wid -> bool := fun a b => bool_decide (a = b).

(** Window 1 gets layout 2, window 5 layout 1; back at window 1 it is 2 again. *)
Definition sample_events : list Event := [Next; Next; Focus 5; Switch 1; Focus 7; Previous; Close 5; Focus 1].


Definition saved_layouts : gmap nat Z := {[ 0%nat := 1; 2%nat := 2 ]}.
Definition sample_saved : Keyboard :=
  prepareSessionSave (fun _ => "") (fun d => Z.of_nat d + 1) map_to_list map_to_list
    (sample_keyboard (VirtualDesktopPolicy saved_layouts) ∅).

Lemma desktop_layouts_restored_witness :
  currentLayout (loadSession sample_heap same (fun d => Z.of_nat d + 1) [0; 1; 2]%nat
    (sample_keyboard (VirtualDesktopPolicy ∅) (m_config sample_saved))) = 1.
Proof.
  destruct (desktop_layouts_restored sample_heap same (fun _ => "") (fun d => Z.of_nat d + 1)
    map_to_list map_to_list (fun _ => reflexivity _) [0; 1; 2]%nat) with (n := 3) (l := 0)
    (k := sample_keyboard (VirtualDesktopPolicy saved_layouts) ∅)
    (k2 := sample_keyboard (VirtualDesktopPolicy ∅) (m_config sample_saved))
    (ls := saved_layouts) (c := 0%nat) as (ls2 & _ & _ & E); try done.
  - split; [intros d Hd|intros d e Hd He E; lia].
    repeat (apply elem_of_cons in Hd as [->|Hd]; [done|]). by apply elem_of_nil in Hd.
  - intros d [v Hv]. unfold saved_layouts in Hv.
    apply lookup_insert_Some in Hv as [[<- _]|[_ Hv]]; [by left|].
    apply lookup_singleton_Some in Hv as [<- _]. by right; right; left.
  - intros d. unfold getLayout, saved_layouts. destruct (decide (d = 0%nat)) as [->|]; [done|].
    rewrite lookup_insert_ne by done. destruct (decide (d = 2%nat)) as [->|]; [done|].
    by rewrite lookup_singleton_ne.
  - by exists 0.
  - by left.
Defined.
End KeyboardLayoutProps.
