(* ===== verification/WindowDesktops.v ===== *)
(** * The virtual desktops of windows (src/win/screen.h, src/workspace.cpp)

    Which desktops a window is on: [set_desktops] moves a window together with its
    children and, for a modal dialog, with its leads; the operations built on it.
    A [None] result is a null pointer dereference or, where a bound is given, a
    recursion deeper than the bound. *)

From S2P Require Import Prelude Qt Toplevel Transient FocusChain Stacking.

Module WindowDesktops.
Import Toplevel Transient Stacking.

Section Operations.
Context (E : Env).
(** VirtualDesktopManager::desktops. *)
Context (vds : list nat).
(** WindowRules::checkDesktop. *)
Context (checkDesktop : wid -> Z -> Z).
(** Whether the window has a [wayland_management]. *)
Context (managed : wid -> bool).
Implicit Types (s : Space) (w : wid) (D : list nat) (d : Z).

(** VirtualDesktopManager::count. *)
Definition desktops_count : Z := Z.of_nat (length vds).

(** The call of Toplevel::set_desktops and the update of the objects that mirror
    the desktops. *)
Definition write_desktops w D s : Space :=
  let s1 := s <| wins := modify w (fun x => x <| desktops := D |>) (wins s) |> in
  let s2 := if managed w then emit (plasmaVirtualDesktops w D) s1 else s1 in
  match info (wins s2 w) with
  | Some _ => emit (infoSetDesktop w (desktop E (wins s2 w))) s2
  | None => s2
  end.

(** QVector::removeOne. *)
Fixpoint removeOne (d : nat) D : list nat :=
  match D with [] => [] | x :: D' => if (x =? d)%nat then D' else x :: removeOne d D' end.

(** The virtual desktops of the plasma window: what is added to its desktops
    [current] and what remains of them to be removed. *)
Fixpoint sync_plasma (current : list nat) D : list nat * list nat :=
  match D with
  | [] => ([], current)
  | d :: D' =>
      if contains current d then sync_plasma (removeOne d current) D'
      else let '(added, removed) := sync_plasma current D' in (d :: added, removed)
  end.

(** On X11 a window is on one desktop or on all. *)
Definition one_desktop D : list nat :=
  if negb (wayland E) && (1 <? length D)%nat
  then match last D with Some d => [d] | None => [] end else D.

(** The last part of set_desktops, after the windows that move along. *)
Definition desktops_written w (was_desk : Z) (was_current : bool) s : Space :=
  let s1 := emit (doSetDesktop w (desktop E (wins s w)) was_desk) s in
  let s2 := s1 <| focus_chain :=
    FocusChain.update E (wins s1) w FocusChain.MakeFirst (focus_chain s1) |> in
  let s3 := emit (desktopChanged w) (emit (updateWindowRules_Desktop w) s2) in
  let s4 := if negb (Bool.eqb was_current (on_current_desktop E (wins s3 w)))
            then emit (desktopPresenceChanged w was_desk) s3 else s3 in
  emit (x11DesktopIdsChanged w) s4.

(** The functions below call set_desktops through [rec]. *)
Section Recursion.
Context (rec : wid -> list nat -> Space -> option Space).

(** set_desktop; a desktop that the manager does not know is an error. *)
Definition set_desktop_rec w d s : option Space :=
  _ ← control (wins s w);
  let d := if d =? OnAllDesktops then d else Z.max 1 (Z.min desktops_count d) in
  let d := Z.min desktops_count (checkDesktop w d) in
  if d =? OnAllDesktops then rec w [] s
  else vd ← desktopForX11Id E d; rec w [vd] s.

Definition set_on_all_desktops_rec w (set : bool) s : option Space :=
  if Bool.eqb set (on_all_desktops E (wins s w)) then Some s
  else if set then set_desktop_rec w OnAllDesktops s
  else set_desktop_rec w (current_desktop E) s.

(** The body of the loop of Workspace::updateOnAllDesktopsOfTransients. *)
Definition update_transient window (acc : option Space) (transient : wid) : option Space :=
  s ← acc;
  let b := on_all_desktops E (wins s window) in
  if Bool.eqb (on_all_desktops E (wins s transient)) b then Some s
  else set_on_all_desktops_rec transient b s.

Definition updateOnAllDesktopsOfTransients window s : option Space :=
  foldl (update_transient window) (Some s) (children (wins s window)).

(** The loops over the children and the leads. *)
Definition move_child D (acc : option Space) (child : wid) : option Space :=
  s ← acc; if annexed (wins s child) then Some s else rec child D s.

Definition move_lead D (acc : option Space) (l : wid) : option Space := s ← acc; rec l D s.

(** The part of set_desktops for a window whose desktops change to [D]. *)
Definition change_desktops w D s : option Space :=
  let x := wins s w in
  let was_desk := desktop E x in
  let was_current := on_current_desktop E x && (0 <=? was_desk) in
  _ ← control x;
  let s1 := write_desktops w D s in
  s2 ← (if Bool.eqb (was_desk =? OnAllDesktops) (desktop E (wins s1 w) =? OnAllDesktops)
        then Some s1 else updateOnAllDesktopsOfTransients w s1);
  s3 ← foldl (move_child D) (Some s2) (ensureStackingOrder s2 (children (wins s2 w)));
  s4 ← (if modal (wins s3 w) then foldl (move_lead D) (Some s3) (leads (wins s3 w)) else Some s3);
  Some (desktops_written w was_desk was_current s4).
End Recursion.

(** set_desktops; [n] bounds the depth of the recursion. *)
Fixpoint set_desktops (n : nat) w D s : option Space :=
  match n with
  | O => None
  | S n' =>
      let D := one_desktop D in
      if bool_decide (D = desktops (wins s w)) then Some s
      else change_desktops (set_desktops n') w D s
  end.

Definition set_desktop (n : nat) := set_desktop_rec (set_desktops n).
Definition set_on_all_desktops (n : nat) := set_on_all_desktops_rec (set_desktops n).

Definition x11_desktop_ids s w : list Z := x11DesktopNumber E <$> desktops (wins s w).

Definition enter_desktop (n : nat) w (vd : nat) s : option Space :=
  if contains (desktops (wins s w)) vd then Some s
  else set_desktops n w (desktops (wins s w) ++ [vd]) s.

Definition leave_desktop (n : nat) w (vd : nat) s : option Space :=
  let current := if bool_decide (desktops (wins s w) = []) then vds else desktops (wins s w) in
  if negb (contains current vd) then Some s
  else set_desktops n w (removeOne vd current) s.
End Operations.
End WindowDesktops.
