(* ===== verification/WindowDesktopsProps.v ===== *)
(** * Properties of the desktops of windows

    [set_desktops] ends and moves the whole family of a window, and whatever it
    does, windows only get the new desktops or the current one. *)

From S2P Require Import Prelude Qt Toplevel Transient FocusChain Stacking StackingFacts WindowDesktops.

Module WindowDesktopsProps.
Import Toplevel Transient Stacking StackingFacts WindowDesktops.

(** ** Loops over a preorder *)

Section Loops.
Context {A : Type} (R : relation Space) `{!PreOrder R} (P : A -> Space -> Prop).
Context (stable : forall x s s', R s s' -> P x s -> P x s').

Lemma foldl_preorder (f : option Space -> A -> option Space) xs s :
  (forall x s1, x ∈ xs -> R s s1 -> exists s2, f (Some s1) x = Some s2 /\ R s1 s2 /\ P x s2) ->
  exists s', foldl f (Some s) xs = Some s' /\ R s s' /\ forall x, x ∈ xs -> P x s'.
Proof.
  revert s. induction xs as [|x xs IH]; intros s Hf.
  { exists s. split_and!; [done|reflexivity|]. intros x Hx. by apply elem_of_nil in Hx. }
  destruct (Hf x s) as (s1 & E1 & R1 & P1); [by left|reflexivity|].
  destruct (IH s1) as (s2 & E2 & R2 & P2).
  { intros y s3 Hy R3. apply Hf; [by right|]. by transitivity s1. }
  exists s2. cbn [foldl]. rewrite E1. split_and!; [done|by transitivity s1|].
  intros y [->|Hy]%elem_of_cons; [by apply (stable _ s1)|auto].
Qed.
End Loops.

(** Counting the elements of a list that satisfy a predicate. *)
Section Count.
Context {A : Type}.
Implicit Types (P Q : A -> Prop) (l : list A).

Lemma count_le P Q `{!forall x, Decision (P x)} `{!forall x, Decision (Q x)} l :
  (forall x, x ∈ l -> Q x -> P x) -> (length (filter Q l) <= length (filter P l))%nat.
Proof.
  induction l as [|x l IH]; intros Himp; [done|]. rewrite !filter_cons.
  assert (length (filter Q l) <= length (filter P l))%nat by (apply IH; intros; apply Himp; [by right|done]).
  destruct (decide (Q x)) as [HQ|]; destruct (decide (P x)) as [|HP]; simpl; try lia.
  exfalso. apply HP, Himp; [by left|done].
Qed.

Lemma count_lt P Q `{!forall x, Decision (P x)} `{!forall x, Decision (Q x)} l y :
  (forall x, x ∈ l -> Q x -> P x) -> y ∈ l -> P y -> ~ Q y ->
  (length (filter Q l) < length (filter P l))%nat.
Proof.
  induction l as [|x l IH]; intros Himp Hy HP HQ; [by apply elem_of_nil in Hy|].
  assert (length (filter Q l) <= length (filter P l))%nat by (apply count_le; intros; apply Himp; [by right|done]).
  rewrite !filter_cons. apply elem_of_cons in Hy as [<-|Hy].
  - rewrite decide_False, decide_True by done. simpl. lia.
  - assert (length (filter Q l) < length (filter P l))%nat by (apply IH; try done; intros; apply Himp; [by right|done]).
    destruct (decide (Q x)) as [HQx|]; destruct (decide (P x)) as [|HPx]; simpl; try lia.
    exfalso. apply HPx, Himp; [by left|done].
Qed.
End Count.

(** ** What a call may change *)

(** Only the desktops of windows change. *)
Record moves (s s' : Space) : Prop := {
  mv_wins : forall v, wins s' v = (wins s v) <| desktops := desktops (wins s' v) |>;
  mv_stack : stacking_order s' = stacking_order s;
}.

#[global] Instance moves_preorder : PreOrder moves.
Proof.
  split.
  - intros s. split; [|done]. intros v. by destruct (wins s v).
  - intros s1 s2 s3 [A1 A2] [B1 B2]. split; [|congruence].
    intros v. rewrite B1 at 1. rewrite A1. by destruct (wins s1 v).
Qed.

Lemma moves_field {A} (f : Window -> A) s s' v :
  moves s s' -> (forall x D, f (x <| desktops := D |>) = f x) -> f (wins s' v) = f (wins s v).
Proof. intros [Hm _] Hf. by rewrite Hm, Hf. Qed.

Section Facts.
Context (E : Env) (vds : list nat) (checkDesktop : wid -> Z -> Z) (managed : wid -> bool).
(** The number of a desktop is not that of "all desktops". *)
Context (Hx11 : forall d, x11DesktopNumber E d <> OnAllDesktops).
Implicit Types (s : Space) (w v : wid) (D : list nat) (fam : list wid).

Lemma desktop_on_all x : (desktop E x =? OnAllDesktops) = bool_decide (desktops x = []).
Proof.
  unfold desktop. destruct (last (desktops x)) as [d|] eqn:El.
  - rewrite bool_decide_eq_false_2 by (intros Hn; by rewrite Hn in El). by apply Z.eqb_neq.
  - apply last_None in El. by rewrite El.
Qed.

Lemma on_all_nil x : on_all_desktops E x = bool_decide (desktops x = []).
Proof. unfold on_all_desktops. destruct (wayland E); [done|apply desktop_on_all]. Qed.

Lemma write_moves w D s : moves s (write_desktops E managed w D s).
Proof.
  assert (moves s (s <| wins := modify w (fun x => x <| desktops := D |>) (wins s) |>)) as [H1 H2].
  { split; [|done]. intros v. simpl. unfold modify. rewrite set_win_lookup.
    case_decide; [subst|]; simpl; by destruct (wins s _). }
  unfold write_desktops. destruct (managed w), (info _); by split.
Qed.

Lemma write_lookup w D s v :
  desktops (wins (write_desktops E managed w D s) v) = if decide (w = v) then D else desktops (wins s v).
Proof.
  assert (wins (write_desktops E managed w D s) = modify w (fun x => x <| desktops := D |>) (wins s)) as ->.
  { unfold write_desktops. destruct (managed w), (info _); done. }
  unfold modify. rewrite set_win_lookup. by case_decide; subst.
Qed.

Lemma written_wins w d b s :
  wins (desktops_written E w d b s) = wins s /\
  stacking_order (desktops_written E w d b s) = stacking_order s.
Proof. unfold desktops_written. by destruct (negb _). Qed.

Lemma one_desktop_idem D : one_desktop E (one_desktop E D) = one_desktop E D.
Proof.
  unfold one_desktop. destruct (negb (wayland E)); [|done].
  destruct (1 <? length D)%nat eqn:El; simpl; [|by rewrite El]. by destruct (last D).
Qed.

Lemma one_desktop_small D : (length D <= 1)%nat -> one_desktop E D = D.
Proof.
  intros. unfold one_desktop. rewrite (proj2 (Nat.ltb_ge 1 _)) by lia. by rewrite andb_false_r.
Qed.

(** ** Families

    [closed fam]: the windows of the family have a control, and their children
    and leads belong to it. *)
Definition closed fam s : Prop := forall v, v ∈ fam ->
  is_Some (control (wins s v)) /\
  (forall c, c ∈ children (wins s v) -> c ∈ fam) /\ (forall l, l ∈ leads (wins s v) -> l ∈ fam) /\ NoDup (children (wins s v)).

Lemma closed_moves fam s s' : moves s s' -> closed fam s -> closed fam s'.
Proof.
  intros Hm Hc v Hv. rewrite (moves_field control _ _ v Hm), (moves_field children _ _ v Hm),
    (moves_field leads _ _ v Hm) by done. by apply Hc.
Qed.

(** [b] moves along with [a]: a child, or a lead of a modal dialog. *)
Definition pulls s a b : Prop :=
  (b ∈ children (wins s a) /\ annexed (wins s b) = false) \/
  (modal (wins s a) = true /\ b ∈ leads (wins s a)).

Lemma pulls_moves s s' a b : moves s s' -> pulls s' a b <-> pulls s a b.
Proof.
  intros Hm. unfold pulls. by rewrite (moves_field children _ _ a Hm), (moves_field annexed _ _ b Hm),
    (moves_field modal _ _ a Hm), (moves_field leads _ _ a Hm) by done.
Qed.

(** ** The whole family goes to the same desktops *)

(** The windows that changed are on [D] now, and so are those they pull. *)
Record moved D s s' : Prop := {
  md_moves : moves s s';
  md_value : forall v, desktops (wins s' v) = desktops (wins s v) \/ desktops (wins s' v) = D;
  md_pulled : forall v u, desktops (wins s v) <> D -> desktops (wins s' v) = D -> pulls s v u ->
    desktops (wins s' u) = D;
}.

Lemma md_stays D s s' v : moved D s s' -> desktops (wins s v) = D -> desktops (wins s' v) = D.
Proof. intros [_ Hv _] Hd. by destruct (Hv v) as [->|]. Qed.

#[global] Instance moved_preorder D : PreOrder (moved D).
Proof.
  split.
  - intros s. split; [reflexivity|by left|done].
  - intros s1 s2 s3 H1 H2. pose proof H1 as [A1 A2 A3]. pose proof H2 as [B1 B2 B3].
    split; [by transitivity s2| |].
    + intros v. destruct (B2 v) as [->|]; [apply A2|by right].
    + intros v u Hv1 Hv3 Hp. destruct (decide (desktops (wins s2 v) = D)) as [Hv2|Hv2].
      * by eapply md_stays, A3.
      * apply (B3 v u); [done..|]. by apply (pulls_moves _ _ _ _ A1).
Qed.

Section Calm.
Context (fam : list wid).
Context (Hrules : forall w d, checkDesktop w d = d).
Abbreviation set_desktops := (set_desktops E vds checkDesktop managed).

(** The windows of the family that are not on [D] yet. *)
Definition others D s : nat := length (filter (fun v => desktops (wins s v) <> D) fam).

Lemma others_moved D s s' : moved D s s' -> (others D s' <= others D s)%nat.
Proof.
  intros [_ Hv _]. apply count_le. intros v _ Hd. destruct (Hv v) as [<-|]; done.
Qed.

Lemma others_write D w s :
  w ∈ fam -> D <> desktops (wins s w) -> (others D (write_desktops E managed w D s) < others D s)%nat.
Proof.
  intros Hw Hd. apply (count_lt _ _ _ w); [|done|by apply not_eq_sym|].
  - intros v _. rewrite write_lookup. by case_decide.
  - rewrite write_lookup, decide_True by done. auto.
Qed.

(** A window that is on all desktops becomes one when all its family does. *)
Definition calm D s : Prop := D = [] \/ forall v, v ∈ fam -> desktops (wins s v) <> [].

Lemma calm_moved D s s' : moved D s s' -> calm D s -> calm D s'.
Proof.
  intros [_ Hv _] [HD|Hc]; [by left|].
  destruct (decide (D = [])); [by left|right]. intros v Hvf. destruct (Hv v) as [Hd|Hd]; rewrite Hd; auto.
Qed.

Lemma set_on_all_calm (rec : wid -> list nat -> Space -> option Space) w s :
  is_Some (control (wins s w)) -> desktops (wins s w) <> [] ->
  set_on_all_desktops_rec E vds checkDesktop rec w true s = rec w [] s.
Proof.
  intros [c Hc] Hd. unfold set_on_all_desktops_rec, set_desktop_rec.
  rewrite on_all_nil, bool_decide_eq_false_2 by done. simpl. rewrite Hc. simpl.
  rewrite Hrules. unfold desktops_count. rewrite Z.min_r by (unfold OnAllDesktops; lia). done.
Qed.

Lemma ensured_perm s l : NoDup l -> ensureStackingOrder s l ≡ₚ l.
Proof. apply ensureStackingOrder_perm. Qed.

(** One window that changes, its family moved by [rec]. *)
Section Change.
Context (rec : wid -> list nat -> Space -> option Space) (w : wid) (D : list nat) (s : Space).
Abbreviation s1 := (write_desktops E managed w D s).
Context (Hclosed : closed fam s) (Hw : w ∈ fam) (HD : D <> desktops (wins s w)) (Hcalm : calm D s).
Context (Hrec : forall c s2, c ∈ fam -> moved D s1 s2 ->
  exists s3, rec c D s2 = Some s3 /\ moved D s2 s3 /\ desktops (wins s3 c) = D).

Lemma written_calm : calm D s1.
Proof.
  destruct Hcalm as [?|Hc]; [by left|]. destruct (decide (D = [])); [by left|right].
  intros v Hv. rewrite write_lookup. case_decide; auto.
Qed.

Lemma written_links s2 c : moved D s1 s2 ->
  children (wins s2 c) = children (wins s c) /\ leads (wins s2 c) = leads (wins s c) /\
  control (wins s2 c) = control (wins s c) /\ annexed (wins s2 c) = annexed (wins s c) /\
  modal (wins s2 c) = modal (wins s c).
Proof.
  intros [Hm _ _].
  assert (moves s s2) as Hm2 by (etransitivity; [apply write_moves|done]).
  by rewrite (moves_field children _ _ c Hm2), (moves_field leads _ _ c Hm2),
    (moves_field control _ _ c Hm2), (moves_field annexed _ _ c Hm2), (moves_field modal _ _ c Hm2).
Qed.

Lemma written_stays s2 : moved D s1 s2 -> desktops (wins s2 w) = D.
Proof. intros Hm. apply (md_stays _ _ _ _ Hm). by rewrite write_lookup, decide_True. Qed.

Lemma transients_calm : exists s2,
  (if Bool.eqb (desktop E (wins s w) =? OnAllDesktops) (desktop E (wins s1 w) =? OnAllDesktops)
   then Some s1 else updateOnAllDesktopsOfTransients E vds checkDesktop rec w s1) = Some s2 /\
  moved D s1 s2.
Proof.
  rewrite !desktop_on_all, write_lookup, decide_True by done.
  destruct (decide (D = [])) as [HD0|HD0].
  2:{ destruct Hcalm as [?|Hc]; [done|].
      rewrite !bool_decide_eq_false_2 by auto. eexists. split; [done|reflexivity]. }
  rewrite (bool_decide_eq_true_2 (D = [])), bool_decide_eq_false_2 by congruence. simpl.
  destruct (foldl_preorder (moved D) (fun _ _ => True) (fun _ _ _ _ _ => I)
    (update_transient E vds checkDesktop rec w) (children (wins s1 w)) s1)
    as (s2 & E2 & R2 & _); [|by exists s2].
  intros c s2 Hc R2. destruct (written_links s1 w) as (Hkids & _); [reflexivity|].
  rewrite Hkids in Hc. apply (Hclosed w Hw) in Hc as Hcf.
  destruct (written_links s2 c R2) as (_ & _ & Hctl & _).
  unfold update_transient. simpl. rewrite !on_all_nil.
  rewrite (bool_decide_eq_true_2 (desktops (wins s2 w) = [])) by (rewrite <- HD0; by apply written_stays).
  destruct (decide (desktops (wins s2 c) = [])) as [Hn|Hn].
  - rewrite bool_decide_eq_true_2 by done. simpl. exists s2. by split_and!.
  - rewrite bool_decide_eq_false_2 by done. simpl.
    rewrite set_on_all_calm by (done || rewrite Hctl; by apply Hclosed).
    destruct (Hrec c s2 Hcf R2) as (s3 & E3 & R3 & _). rewrite <- HD0. by exists s3.
Qed.

Lemma change_calm : exists s',
  change_desktops E vds checkDesktop managed rec w D s = Some s' /\ moved D s s' /\
  desktops (wins s' w) = D.
Proof.
  unfold change_desktops. destruct (Hclosed w Hw) as ((ctl & Hctl) & Hkids & Hleads & Hnd).
  rewrite Hctl. cbn [option_bind mbind].
  destruct transients_calm as (s2 & -> & R2). cbn [option_bind mbind].
  destruct (written_links s2 w R2) as (Hk2 & _).
  destruct (foldl_preorder (moved D)
    (fun c s => annexed (wins s c) = false -> desktops (wins s c) = D)) with
    (f := move_child rec D) (xs := ensureStackingOrder s2 (children (wins s2 w))) (s := s2)
    as (s3 & -> & R3 & P3).
  { intros c x y Hxy Hx Ha. apply (md_stays _ _ _ _ Hxy), Hx.
    by rewrite <- (moves_field annexed _ _ c (md_moves _ _ _ Hxy)). }
  { intros c x Hc Rx. assert (moved D s1 x) as Rx1 by (by etransitivity).
    rewrite ensured_perm, Hk2 in Hc by (by rewrite Hk2). unfold move_child. cbn [option_bind mbind].
    destruct (annexed (wins x c)) eqn:Ha.
    { exists x. split_and!; [done|reflexivity|congruence]. }
    destruct (Hrec c x (Hkids c Hc) Rx1) as (y & E3 & R3 & Hd). exists y. by split_and!. }
  cbn [option_bind mbind]. assert (moved D s1 s3) as R13 by (by etransitivity).
  assert (exists s4, (if modal (wins s3 w) then foldl (move_lead rec D) (Some s3) (leads (wins s3 w))
            else Some s3) = Some s4 /\ moved D s3 s4 /\
            (modal (wins s w) = true -> forall l, l ∈ leads (wins s w) -> desktops (wins s4 l) = D))
    as (s4 & -> & R4 & P4).
  { destruct (written_links s3 w R13) as (_ & Hl3 & _ & _ & Hm3). rewrite Hl3, Hm3.
    destruct (modal (wins s w)); [|exists s3; by split_and!].
    destruct (foldl_preorder (moved D) (fun l s => desktops (wins s l) = D)
      (fun l x y Hxy Hx => md_stays _ _ _ l Hxy Hx) (move_lead rec D) (leads (wins s w)) s3)
      as (s4 & E4 & R4 & P4); [|by exists s4].
    intros l x Hl Rx. apply Hrec; [by apply Hleads|by etransitivity]. }
  assert (moved D s1 s4) as R14 by (by etransitivity).
  cbn [option_bind mbind]. eexists. split; [done|].
  destruct (written_wins w (desktop E (wins s w))
    (on_current_desktop E (wins s w) && (0 <=? desktop E (wins s w))) s4) as [Hwins Hstk].
  assert (desktops (wins s4 w) = D) as Hw4 by (by apply written_stays).
  rewrite Hwins. split; [|done].
  assert (moves s s4) as Hm4.
  { etransitivity; [apply (write_moves w D)|exact (md_moves _ _ _ R14)]. }
  split.
  - split; [intros v; rewrite Hwins; apply Hm4|rewrite Hstk; apply Hm4].
  - intros v. rewrite Hwins. destruct (md_value _ _ _ R14 v) as [Hv|Hv]; [|by right].
    rewrite Hv, write_lookup. case_decide; auto.
  - intros v u Hv Hv' Hp. rewrite Hwins in *. destruct (decide (w = v)) as [<-|Hne].
    + destruct Hp as [[Hu Ha]|[Hm Hu]]; [|by apply P4].
      apply (md_stays _ _ _ _ R4), P3.
      * rewrite ensured_perm; by rewrite Hk2.
      * destruct (written_links s3 u R13) as (_ & _ & _ & Ha3 & _). by rewrite Ha3.
    + apply (md_pulled _ _ _ R14 v u); [|done|].
      * by rewrite write_lookup, decide_False.
      * by apply (pulls_moves _ _ _ _ (write_moves w D s)).
Qed.
End Change.

Lemma set_desktops_calm n : forall w D s,
  closed fam s -> w ∈ fam -> one_desktop E D = D -> calm D s -> (others D s < n)%nat ->
  exists s', set_desktops n w D s = Some s' /\ moved D s s' /\ desktops (wins s' w) = D.
Proof.
  induction n as [|n IH]; intros w D s Hc Hw HD Hcalm Hn; [lia|].
  cbn [WindowDesktops.set_desktops]. rewrite HD.
  case_bool_decide as Hd; [exists s; by split_and!|].
  apply change_calm; try done. intros c s2 Hcf R2.
  pose proof (others_write D w s Hw Hd). pose proof (others_moved D _ _ R2).
  apply IH; try done.
  - eapply closed_moves; [exact (md_moves _ _ _ R2)|]. eapply closed_moves; [apply write_moves|done].
  - apply (calm_moved D _ _ R2). by apply written_calm.
  - lia.
Qed.

(** ** Windows on all desktops

    A window that leaves the state of being on all desktops first puts its
    transients that are on all desktops on the current one. Every call makes the
    pair of the number of windows on all desktops and the number of windows that
    are not on the new desktops smaller. *)
Section Walk.
Context (cur : nat) (Hcur : desktopForX11Id E (current_desktop E) = Some cur).
Context (Hcur_range : 1 <= current_desktop E <= desktops_count vds).

Definition on_all s : nat := length (filter (fun v => desktops (wins s v) = []) fam).
Definition measure D s : nat := (on_all s * S (length fam) + others D s)%nat.

Record drifts D s s' : Prop := {
  dr_moves : moves s s';
  dr_value : forall v, desktops (wins s' v) = desktops (wins s v) \/ desktops (wins s' v) = D \/
                       desktops (wins s' v) = [cur];
  dr_all : (on_all s' <= on_all s)%nat;
}.

Definition lex D s s' : Prop := (on_all s' < on_all s)%nat \/ (others D s' <= others D s)%nat.
Definition walks D s s' : Prop := drifts D s s' /\ lex D s s'.

#[global] Instance drifts_preorder D : PreOrder (drifts D).
Proof.
  split.
  - intros s. split; [reflexivity|by left|lia].
  - intros s1 s2 s3 [A1 A2 A3] [B1 B2 B3]. split; [by transitivity s2| |lia].
    intros v. destruct (B2 v) as [->|]; auto.
Qed.

#[global] Instance walks_preorder D : PreOrder (walks D).
Proof.
  split.
  - intros s. split; [reflexivity|right; lia].
  - intros s1 s2 s3 [A1 A2] [B1 B2]. split; [by transitivity s2|].
    pose proof (dr_all _ _ _ A1). pose proof (dr_all _ _ _ B1). unfold lex in *. lia.
Qed.

Lemma others_le D s : (others D s <= length fam)%nat.
Proof. apply length_filter. Qed.

Lemma measure_walks D s s' : walks D s s' -> (measure D s' <= measure D s)%nat.
Proof.
  intros [[_ _ Ha] Hl]. unfold measure, lex in *. pose proof (others_le D s').
  pose proof (others_le D s). nia.
Qed.

Lemma measure_all D D' s s' : (on_all s' < on_all s)%nat -> (measure D' s' < measure D s)%nat.
Proof. intros Ha. unfold measure. pose proof (others_le D' s'). nia. Qed.

Lemma on_all_write D w s : D <> [] -> w ∈ fam ->
  (on_all (write_desktops E managed w D s) <= on_all s)%nat /\
  (desktops (wins s w) = [] -> (on_all (write_desktops E managed w D s) < on_all s)%nat).
Proof.
  intros HD Hw. split.
  - apply count_le. intros v _. rewrite write_lookup. by case_decide.
  - intros Hn. apply (count_lt _ _ _ w); [|done..|].
    + intros v _. rewrite write_lookup. by case_decide.
    + by rewrite write_lookup, decide_True.
Qed.

Lemma write_drifts D w s : D <> [] -> w ∈ fam -> drifts D s (write_desktops E managed w D s).
Proof.
  intros HD Hw. split; [apply write_moves| |by apply on_all_write].
  intros v. rewrite write_lookup. case_decide; auto.
Qed.

Section Change.
Context (rec : wid -> list nat -> Space -> option Space) (w : wid) (D : list nat) (s : Space).
Abbreviation s1 := (write_desktops E managed w D s).
Context (Hclosed : closed fam s) (Hw : w ∈ fam) (HD : D <> desktops (wins s w)) (HD0 : D <> []).
Context (Hrec : forall c D' s2, c ∈ fam -> D' = D \/ D' = [cur] -> closed fam s2 ->
  (measure D' s2 < measure D s)%nat -> exists s3, rec c D' s2 = Some s3 /\ walks D' s2 s3).

Lemma set_on_current c x :
  is_Some (control (wins x c)) -> desktops (wins x c) = [] ->
  set_on_all_desktops_rec E vds checkDesktop rec c false x = rec c [cur] x.
Proof.
  intros [ctl Hc] Hd. unfold set_on_all_desktops_rec, set_desktop_rec.
  rewrite on_all_nil, bool_decide_eq_true_2 by done. simpl. rewrite Hc. simpl. rewrite !Hrules.
  assert (current_desktop E =? OnAllDesktops = false) as -> by (apply Z.eqb_neq; unfold OnAllDesktops; lia).
  rewrite Z.min_r, Z.max_r, Z.min_r by lia.
  assert (current_desktop E =? OnAllDesktops = false) as -> by (apply Z.eqb_neq; unfold OnAllDesktops; lia).
  by rewrite Hcur.
Qed.

(** The transients, when the window was on all desktops. *)
Lemma transients_walk : exists s2,
  (if Bool.eqb (desktop E (wins s w) =? OnAllDesktops) (desktop E (wins s1 w) =? OnAllDesktops)
   then Some s1 else updateOnAllDesktopsOfTransients E vds checkDesktop rec w s1) = Some s2 /\
  drifts D s1 s2 /\ (s2 = s1 \/ (on_all s1 < on_all s)%nat).
Proof.
  rewrite !desktop_on_all, write_lookup, decide_True by done.
  rewrite (bool_decide_eq_false_2 (D = [])) by done.
  case_bool_decide as Hn; simpl; [|eexists; split_and!; [done|reflexivity|by left]].
  destruct (on_all_write D w s HD0 Hw) as [_ Hlt]. specialize (Hlt Hn).
  destruct (foldl_preorder (drifts D) (fun _ _ => True) (fun _ _ _ _ _ => I)
    (update_transient E vds checkDesktop rec w) (children (wins s1 w)) s1)
    as (s2 & E2 & R2 & _); [|exists s2; split_and!; [done..|by right]].
  intros c x Hc Rx.
  assert (moves s x) as Hmx by (etransitivity; [apply write_moves|exact (dr_moves _ _ _ Rx)]).
  rewrite (moves_field children _ _ w (write_moves w D s)) in Hc by done.
  apply (Hclosed w Hw) in Hc as Hcf. unfold update_transient. simpl. rewrite !on_all_nil.
  assert (desktops (wins x w) <> []) as Hxw.
  { destruct (dr_value _ _ _ Rx w) as [->|[->| ->]]; [|done..]. by rewrite write_lookup, decide_True. }
  rewrite (bool_decide_eq_false_2 (desktops (wins x w) = [])) by done.
  case_bool_decide as Hxc; simpl.
  - assert (closed fam x) as Hcx by (by eapply closed_moves).
    rewrite set_on_current by (done || by apply Hcx).
    destruct (Hrec c [cur] x Hcf) as (y & E3 & R3 & _); [by right|done| |].
    { apply measure_all. pose proof (dr_all _ _ _ Rx). lia. }
    exists y. split_and!; [done| |done]. destruct R3 as [M V A]. split; [done| |done].
    intros v. destruct (V v) as [?|[?|?]]; auto.
  - exists x. split_and!; [done|reflexivity|done].
Qed.

Lemma change_walks : exists s',
  change_desktops E vds checkDesktop managed rec w D s = Some s' /\ walks D s s'.
Proof.
  unfold change_desktops. destruct (Hclosed w Hw) as ((ctl & Hctl) & Hkids & Hleads & Hnd).
  rewrite Hctl. cbn [option_bind mbind].
  destruct transients_walk as (s2 & -> & R2 & Hor). cbn [option_bind mbind].
  assert (moves s s2) as Hm2 by (etransitivity; [apply (write_moves w D)|exact (dr_moves _ _ _ R2)]).
  destruct (on_all_write D w s HD0 Hw) as [Hall _].
  assert (walks D s s2 /\ (measure D s2 < measure D s)%nat) as [W2 M2].
  { pose proof (dr_all _ _ _ R2).
    assert (drifts D s s2) by (etransitivity; [by apply write_drifts|done]).
    pose proof (others_write D w s Hw HD) as Ho.
    destruct Hor as [->|Hlt].
    - split; [split; [done|right; lia]|]. unfold measure. nia.
    - split; [split; [done|left; lia]|]. apply measure_all. lia. }
  assert (forall c x, c ∈ fam -> walks D s2 x -> exists y, rec c D x = Some y /\ walks D x y) as Hstep.
  { intros c x Hc Rx. apply Hrec; [done|by left| |].
    - apply (closed_moves _ s); [|done]. etransitivity; [exact Hm2|]. apply Rx.
    - pose proof (measure_walks _ _ _ Rx). lia. }
  destruct (foldl_preorder (walks D) (fun _ _ => True) (fun _ _ _ _ _ => I)
    (move_child rec D) (ensureStackingOrder s2 (children (wins s2 w))) s2) as (s3 & -> & R3 & _).
  { intros c x Hc Rx. rewrite ensured_perm in Hc by (by rewrite (moves_field children _ _ w Hm2)).
    rewrite (moves_field children _ _ w Hm2) in Hc by done.
    unfold move_child. cbn [option_bind mbind]. destruct (annexed (wins x c)).
    { exists x. split_and!; [done|reflexivity|done]. }
    destruct (Hstep c x) as (y & Ey & Ry); [by apply Hkids|done|]. by exists y. }
  cbn [option_bind mbind].
  assert (exists s4, (if modal (wins s3 w) then foldl (move_lead rec D) (Some s3) (leads (wins s3 w))
            else Some s3) = Some s4 /\ walks D s3 s4) as (s4 & -> & R4).
  { assert (moves s s3) as Hm3 by (etransitivity; [exact Hm2|apply R3]).
    rewrite (moves_field leads _ _ w Hm3) by done.
    destruct (modal (wins s3 w)); [|exists s3; split; [done|reflexivity]].
    destruct (foldl_preorder (walks D) (fun _ _ => True) (fun _ _ _ _ _ => I)
      (move_lead rec D) (leads (wins s w)) s3) as (s4 & E4 & R4 & _); [|by exists s4].
    intros l x Hl Rx. destruct (Hstep l x) as (y & Ey & Ry); [by apply Hleads|by etransitivity|].
    by exists y. }
  cbn [option_bind mbind]. eexists. split; [done|].
  assert (walks D s s4) as [[M V A] L] by (etransitivity; [exact W2|by etransitivity]).
  destruct (written_wins w (desktop E (wins s w))
    (on_current_desktop E (wins s w) && (0 <=? desktop E (wins s w))) s4) as [Hwins Hstk].
  unfold walks, lex. split; [split|].
  - split; [intros v; rewrite Hwins; apply M|rewrite Hstk; apply M].
  - intros v. rewrite Hwins. apply V.
  - unfold on_all in *. by rewrite Hwins.
  - unfold lex, on_all, others in *. by rewrite Hwins.
Qed.
End Change.

Lemma set_desktops_walks n : forall w D s,
  closed fam s -> w ∈ fam -> one_desktop E D = D -> D <> [] -> (measure D s < n)%nat ->
  exists s', set_desktops n w D s = Some s' /\ walks D s s'.
Proof.
  induction n as [|n IH]; intros w D s Hc Hw HD HD0 Hn; [lia|].
  cbn [WindowDesktops.set_desktops]. rewrite HD.
  case_bool_decide as Hd; [exists s; split; [done|reflexivity]|].
  apply change_walks; try done. intros c D' s2 Hcf HD' Hc2 Hm2.
  apply IH; try done; [|by destruct HD' as [->| ->]|lia].
  destruct HD' as [->| ->]; [done|by apply one_desktop_small].
Qed.
End Walk.
End Calm.
End Facts.

(** ** Properties *)

Section Properties.
Context (E : Env) (vds : list nat) (checkDesktop : wid -> Z -> Z) (managed : wid -> bool).
Implicit Types (s : Space) (w v u : wid) (D : list nat) (fam : list wid).
Abbreviation set_desktops := (set_desktops E vds checkDesktop managed).

Lemma set_desktops_one n w D s : set_desktops n w (one_desktop E D) s = set_desktops n w D s.
Proof. destruct n; [done|]. cbn [WindowDesktops.set_desktops]. by rewrite one_desktop_idem. Qed.

(** C6: a window changes its desktops together with its family: the call ends
    within as many nested calls as the family has windows; the window is on the
    given desktops (on X11 on the last of them); nothing but desktops changes;
    every window keeps its desktops or gets the new ones; and wherever a window
    got them, so did its children and, if it is a modal dialog, its leads. *)
Theorem desktops_move_together fam n w D s :
  (forall d, x11DesktopNumber E d <> OnAllDesktops) -> (forall w d, checkDesktop w d = d) ->
  closed fam s -> w ∈ fam ->
  one_desktop E D = [] \/ (forall v, v ∈ fam -> desktops (wins s v) <> []) ->
  (length fam < n)%nat ->
  exists s', set_desktops n w D s = Some s' /\
    desktops (wins s' w) = one_desktop E D /\
    (forall v, wins s' v = (wins s v) <| desktops := desktops (wins s' v) |>) /\
    (forall v, desktops (wins s' v) = desktops (wins s v) \/ desktops (wins s' v) = one_desktop E D) /\
    (forall v u, desktops (wins s' v) <> desktops (wins s v) -> pulls s v u ->
       desktops (wins s' u) = one_desktop E D).
Proof.
  intros Hx Hr Hc Hw Hcalm Hn. rewrite <- set_desktops_one.
  destruct (set_desktops_calm E vds checkDesktop managed Hx fam Hr n w (one_desktop E D) s)
    as (s' & Es & [Hm Hv Hp] & Hd); try done; [by apply one_desktop_idem| |].
  { unfold others. pose proof (length_filter (fun v => desktops (wins s v) <> one_desktop E D) fam). lia. }
  exists s'. split_and!; [done|done|apply Hm|done|].
  - intros v u Hvd Hpu. destruct (Hv v) as [|HvD]; [done|]. apply (Hp v u); [congruence|done..].
Qed.

(** Setting the desktops of a window ends, also when windows of its family are
    on all desktops; every window keeps its desktops or is on the new ones or on
    the current one. *)
Theorem set_desktops_ends fam n w D s cur :
  (forall d, x11DesktopNumber E d <> OnAllDesktops) -> (forall w d, checkDesktop w d = d) ->
  desktopForX11Id E (current_desktop E) = Some cur -> 1 <= current_desktop E <= desktops_count vds ->
  closed fam s -> w ∈ fam -> (S (length fam) * S (length fam) <= n)%nat ->
  exists s', set_desktops n w D s = Some s' /\
    (forall v, desktops (wins s' v) = desktops (wins s v) \/
               desktops (wins s' v) = one_desktop E D \/ desktops (wins s' v) = [cur]).
Proof.
  intros Hx Hr Hcur Hrange Hc Hw Hn. rewrite <- set_desktops_one.
  destruct (decide (one_desktop E D = [])) as [HD|HD].
  - destruct (set_desktops_calm E vds checkDesktop managed Hx fam Hr n w (one_desktop E D) s)
      as (s' & Es & [_ Hv _] & _); try done; [by apply one_desktop_idem|by left| |].
    { unfold others. pose proof (length_filter (fun v => desktops (wins s v) <> one_desktop E D) fam). nia. }
    exists s'. split; [done|]. intros v. destruct (Hv v); auto.
  - destruct (set_desktops_walks E vds checkDesktop managed Hx fam Hr cur Hcur Hrange n w
      (one_desktop E D) s) as (s' & Es & [[_ Hv _] _]); try done; [by apply one_desktop_idem| |by exists s'].
    unfold measure, on_all, others.
    pose proof (length_filter (fun v => desktops (wins s v) <> one_desktop E D) fam).
    pose proof (length_filter (fun v => desktops (wins s v) = []) fam). nia.
Qed.
End Properties.

(** ** A window with a modal dialog and a popup *)

Definition desk_heap : Heap := fun v =>
  match v with
  | 1%nat => plain_window <| children := [2; 3]%nat |>
  | 2%nat => plain_window <| leads := [1]%nat |> <| modal := true |>
  | 3%nat => plain_window <| leads := [1]%nat |> <| annexed := true |>
  | _ => plain_window
  end.
Definition desk_space (H : Heap) : Space :=
  mkSpace H [1; 2; 3]%nat [1; 2; 3]%nat false 0 false None None []
    (FocusChain.resize 0 4 FocusChain.initial) [].
Definition desk_family : list wid := [1; 2; 3]%nat.
Definition desk_vds : list nat := [0; 1; 2; 3]%nat.

Lemma desk_closed (H : Heap) :
  (forall v, children (H v) = children (desk_heap v)) -> (forall v, leads (H v) = leads (desk_heap v)) ->
  (forall v, control (H v) = control (desk_heap v)) -> closed desk_family (desk_space H).
Proof.
  intros Hk Hl Hc v Hv. simpl. rewrite Hk, Hl, Hc. unfold desk_family in *.
  assert (v = 1%nat \/ v = 2%nat \/ v = 3%nat) as [->|[->| ->]] by set_solver;
    (split; [by eexists|]); simpl; (split; [set_solver|]); (split; [set_solver|]);
    repeat constructor; set_solver.
Defined.

Lemma desktops_move_together_witness :
  exists s', set_desktops plain_env desk_vds (fun _ d => d) (fun _ => true) 4 2%nat [2%nat]
               (desk_space desk_heap) = Some s' /\
    desktops (wins s' 2%nat) = [2%nat] /\ desktops (wins s' 1%nat) = [2%nat].
Proof.
  destruct (desktops_move_together plain_env desk_vds (fun _ d => d) (fun _ => true) desk_family 4 2%nat
    [2%nat] (desk_space desk_heap)) as (s' & Es & Hd & _ & _ & Hp).
  - intros d. unfold plain_env, OnAllDesktops. simpl. lia.
  - done.
  - by apply desk_closed.
  - right; left.
  - right. intros v _. by destruct v as [|[|[|[|]]]].
  - simpl. lia.
  - exists s'. split; [done|]. split; [done|]. apply (Hp 2%nat 1%nat).
    + by rewrite Hd.
    + right. split; [done|]. by left.
Defined.

(** The family starts on all desktops; the modal dialog first takes the window to
    the current desktop, and back. *)
Definition desk_all : Heap := fun v => (desk_heap v) <| desktops := [] |>.

Lemma set_desktops_ends_witness :
  exists s', set_desktops plain_env desk_vds (fun _ d => d) (fun _ => true) 16 1%nat [2%nat]
               (desk_space desk_all) = Some s' /\
    desktops (wins s' 7%nat) <> [3%nat].
Proof.
  destruct (set_desktops_ends plain_env desk_vds (fun _ d => d) (fun _ => true) desk_family 16 1%nat
    [2%nat] (desk_space desk_all) 0%nat) as (s' & Es & Hv).
  - intros d. unfold plain_env, OnAllDesktops. simpl. lia.
  - done.
  - done.
  - done.
  - by apply desk_closed.
  - by left.
  - simpl. lia.
  - exists s'. split; [done|]. by destruct (Hv 7%nat) as [->|[->| ->]].
Defined.

Example family_leaves_all :
  (fun s => (fun v => desktops (wins s v)) <$> [1; 2; 3]%nat) <$>
    set_desktops plain_env desk_vds (fun _ d => d) (fun _ => true) 16 1%nat [2%nat] (desk_space desk_all)
  = Some [[2%nat]; [2%nat]; [0%nat]].
Proof. by vm_compute. Qed.
End WindowDesktopsProps.
