(* ===== verification/Activation.v ===== *)
(** * Window activation and focus stealing prevention (src/activation.cpp)

    Which window is active, which windows were told to take the focus, which
    windows demand attention, and the decision whether a window may become active
    by itself, with the time stamps of the user's actions (src/win/x11/control.h)
    and the focus events of X11 clients (src/win/x11/event.h).

    What activation asks of other components, of the X server and of the window
    classes is recorded in order as a list of requests. A [None] result is a null
    pointer dereference or a recursion deeper than the bound. *)

From S2P Require Import Prelude Qt Toplevel Transient FocusChain Stacking.

Module Activation.
Import Qt Toplevel Transient Stacking.

(** XCB_TIME_CURRENT_TIME and [-1U], no time known. *)
Definition CURRENT_TIME : Z := 0.
Definition NO_TIME : Z := 2 ^ 32 - 1.

(** ** User time *)

Section UserTime.
(** NET::timestampCompare. *)
Context (timestampCompare : Z -> Z -> Z).

(** Group::updateUserTime and the first part of win::x11::update_user_time; [xTime]
    is the current time of the X server. *)
Definition updateUserTime (xTime time user_time : Z) : Z :=
  let time := if time =? CURRENT_TIME then xTime else time in
  if negb (time =? NO_TIME) &&
     ((user_time =? CURRENT_TIME) || (0 <? timestampCompare time user_time))
  then time else user_time.

(** win::x11::user_time, from the times of the window and of its group. *)
Definition user_time (own group : Z) : Z :=
  if own =? 0 then 0
  else if (own =? NO_TIME) || (negb (group =? NO_TIME) && (0 <? timestampCompare group own))
  then group else own.

(** Group::startupIdChanged, with the time stamp of a valid notification. *)
Definition startupIdChanged (timestamp user_time : Z) : Z :=
  if negb (timestamp =? 0) && negb (user_time =? NO_TIME) && (0 <? timestampCompare timestamp user_time)
  then timestamp else user_time.
End UserTime.

(** ** State *)

Inductive Request :=
  | focusToNull
  | focusWindow (w : wid)                  (** the X server sets the input focus *)
  | sendTakeFocus (w : wid)                (** the client message WM_TAKE_FOCUS *)
  | pingFocus (w : wid)
  | requestFocus (w : wid)                 (** Workspace::request_focus *)
  | raiseWindow (w : wid)
  | closePopup
  | closeMenu
  | setOpacity (w : wid) (active : bool)   (** the opacity of the rules *)
  | updateLayer (w : wid)
  | updateActiveLayers (w : wid)           (** the other active layer windows of its screen *)
  | updateStacking
  | blockStacking (block : bool)
  | hideWindow (w : wid) (hide : bool)
  | toolWindowsTimer (run : bool)
  | blockGlobalShortcuts (block : bool)
  | rootActiveClient (w : option wid)
  | clientActivated (w : option wid)
  | focusMousePosition
  | stateFocused (w : wid) (focused : bool)
  | activeChanged (w : wid)
  | updateMouseGrab (w : wid)
  | showDesktop (showing : bool)
  | timeUpdated
  | currentScreen (s : Z).
#[global] Instance Request_eq_dec : EqDecision Request.
Proof. solve_decision. Defined.

(** The members of Workspace that activation uses; [space] has the windows, the
    active client, should_get_focus, the stacking order and the focus chain.
    [active_popup] is the client of the popup that is open, [focus_out] the windows
    whose focus out timer runs. *)
Record State := mkState {
  space : Space;
  last_active_client : option wid;
  attention_chain : list wid;
  set_active_client_recursion : Z;
  active_popup : option (option wid);
  menu_client : option wid;
  global_shortcuts_disabled_for_client : bool;
  block_focus : Z;
  focus_out : list wid;
  requests : list Request;
}.
#[global] Instance State_eta : RecordEta State := fun s =>
  mkState (space s) (last_active_client s) (attention_chain s) (set_active_client_recursion s)
    (active_popup s) (menu_client s) (global_shortcuts_disabled_for_client s) (block_focus s)
    (focus_out s) (requests s).

Definition windows (st : State) : Heap := wins (space st).
Definition active (st : State) : option wid := active_client (space st).
Definition ask (r : Request) (st : State) : State := st <| requests := requests st ++ [r] |>.

(** What activation reads of the configuration and of the windows. *)
Record World := mkWorld {
  screens_count : Z;
  allClientList : list wid;
  focusPolicyIsReasonable : bool;
  isNextFocusPrefersMouse : bool;
  isHideUtilityWindowsForInactive : bool;
  group_members : nat -> list wid;
  has_root_info : bool;
  has_null_focus : bool;
  cursor_pos : QPoint;
  moving_client : option wid;
  saving_session : bool;
  same_application : wid -> wid -> bool;   (** with relaxed_for_active *)
  own_user_time : wid -> Z;
  group_user_time : wid -> Z;
  urgency : wid -> bool;
  accepts_input : wid -> bool;
  supports_take_focus : wid -> bool;
  checkAcceptFocus : wid -> bool -> bool;  (** the rules *)
  checkFSP : wid -> Z;
  checkFPP : wid -> Z -> Z;
  checkDisableGlobalShortcuts : wid -> bool;
}.
#[global] Instance World_eta : RecordEta World := fun w =>
  mkWorld (screens_count w) (allClientList w) (focusPolicyIsReasonable w) (isNextFocusPrefersMouse w)
    (isHideUtilityWindowsForInactive w) (group_members w) (has_root_info w) (has_null_focus w)
    (cursor_pos w) (moving_client w) (saving_session w) (same_application w) (own_user_time w)
    (group_user_time w) (urgency w) (accepts_input w) (supports_take_focus w) (checkAcceptFocus w)
    (checkFSP w) (checkFPP w) (checkDisableGlobalShortcuts w).

Section Operations.
Context (timestampCompare : Z -> Z -> Z).
Context (E : Env) (W : World).
Implicit Types (st : State) (w : wid) (H : Heap).

(** Toplevel::userTime. *)
Definition userTime st w : Z :=
  if is_x11 (windows st w) then user_time timestampCompare (own_user_time W w) (group_user_time W w)
  else CURRENT_TIME.

(** ** Demanding attention *)

(** Workspace::clientAttentionChanged. *)
Definition attentionChanged w (set : bool) st : State :=
  st <| attention_chain := (if set then [w] else []) ++ remove_all w (attention_chain st) |>.

(** win::set_demands_attention. *)
Definition set_demands_attention w (demand : bool) st : option State :=
  c ← control (windows st w);
  let demand := if Toplevel.active c then false else demand in
  if Bool.eqb (demands_attention c) demand then Some st
  else
    s1 ← Stacking.set_demands_attention w demand (space st);
    Some (attentionChanged w demand (st <| space := s1 |>)).

(** ** Tool windows (src/win/space.h) *)

(** The walk up the leads of the active window: the window it ends at and the
    group, when it ends at a group transient. *)
Fixpoint tool_root (n : nat) H (w : option wid) : option wid * option nat :=
  match w with
  | None => (None, None)
  | Some v =>
      if negb (isTransient (H v)) then (Some v, None)
      else if groupTransient (H v) then (Some v, group (H v))
      else match n with O => (Some v, None) | S n' => tool_root n' H (lead (H v)) end
  end.

(** Whether a utility window, menu or toolbar is shown. *)
Definition shows_tool (n : nat) H (root : option wid) (active_group : option nat) w : bool :=
  let x := H w in
  if isTransient x then
    match active_group, group x with Some g, Some g' => (g =? g')%nat | _, _ => false end ||
    match root with Some r => is_follower_of n H w r | None => false end
  else
    match group x with None => true | Some g => (length (group_members W g) =? 1)%nat end ||
    match root with Some r => bool_decide (group (H r) = group x) | None => false end.

Definition update_tool_windows (n : nat) (also_hide : bool) st : State :=
  let H := windows st in
  if negb (isHideUtilityWindowsForInactive W)
  then foldl (fun st w => ask (hideWindow w false) st) st (allClientList W)
  else
    let '(root, active_group) := tool_root n H (active st) in
    let tools := filter (fun w => is_Some (control (H w)) /\
                   is_utility (H w) || is_menu (H w) || is_toolbar (H w) = true)
                   (stacking_order (space st)) in
    let shown w := shows_tool n H root active_group w ||
                   (also_hide && (bool_decide (leads (H w) = []) ||
                                  existsb (fun l => is_special_window (H l)) (leads (H w)))) in
    let st1 := foldl (fun st w => ask (hideWindow w false) st) st
                 (reverse (filter (fun w => shown w = true) tools)) in
    if also_hide
    then ask (toolWindowsTimer false)
           (foldl (fun st w => ask (hideWindow w true) st) st1 (filter (fun w => shown w = false) tools))
    else ask (toolWindowsTimer true) st1.

(** ** The active window *)

Definition closeActivePopup st : State :=
  let st1 := match active_popup st with
             | Some _ => ask closePopup (st <| active_popup := None |>)
             | None => st
             end in
  ask closeMenu (st1 <| menu_client := None |>).

Definition disableGlobalShortcutsForClient (disable : bool) st : State :=
  if Bool.eqb (global_shortcuts_disabled_for_client st) disable then st
  else
    let st1 := (ask (blockGlobalShortcuts disable) st)
                 <| global_shortcuts_disabled_for_client := disable |> in
    foldl (fun st w => ask (updateMouseGrab w) st) st1 (allClientList W).

Definition null_focus st : State := if has_null_focus W then ask focusToNull st else st.

(** The guards of setActiveClient for popups and the menu. *)
Definition close_popups (window : option wid) st : State :=
  let outer := set_active_client_recursion st =? 0 in
  let st1 := match active_popup st with
             | Some p => if negb (bool_decide (p = window)) && outer then closeActivePopup st else st
             | None => st
             end in
  match menu_client st1 with
  | Some m => if negb (bool_decide (Some m = window)) && outer
              then ask closeMenu (st1 <| menu_client := None |>) else st1
  | None => st1
  end.

(** The part of setActiveClient for a new active window. *)
Definition becomes_active w st : option State :=
  let s := space st in
  let st1 := st <| last_active_client := Some w |>
    <| space := s <| focus_chain :=
         FocusChain.update E (wins s) w FocusChain.MakeFirst (focus_chain s) |> |> in
  st2 ← set_demands_attention w false st1;
  Some (if 1 <? screens_count W then ask (updateActiveLayers w) st2 else st2).

(** The part of setActiveClient before the old active window is deactivated. *)
Definition prepare_active (window : option wid) st : State :=
  let st1 := ask (blockStacking true) (close_popups window st) in
  ask focusMousePosition
    (st1 <| set_active_client_recursion := set_active_client_recursion st1 + 1 |>).

Definition set_active_client (window : option wid) st : State :=
  st <| space := (space st) <| active_client := window |> |>.

(** The part of setActiveClient that tells everybody. *)
Definition announce_active (n : nat) (window : option wid) st : State :=
  let st1 := update_tool_windows n false st in
  let st2 := disableGlobalShortcutsForClient
               (match window with Some w => checkDisableGlobalShortcuts W w | None => false end) st1 in
  let st3 := ask updateStacking st2 in
  let st4 := if has_root_info W then ask (rootActiveClient window) st3 else st3 in
  let s4 := space st4 in
  let st5 := ask (clientActivated window)
    (st4 <| space := s4 <| focus_chain := FocusChain.setActiveClient window (focus_chain s4) |> |>) in
  ask (blockStacking false)
    (st5 <| set_active_client_recursion := set_active_client_recursion st5 - 1 |>).

(** setActiveClient; [set_inactive] deactivates the window that was active, which
    may call setActiveClient again. *)
Definition setActiveClient_rec (n : nat) (set_inactive : wid -> State -> option State)
    (window : option wid) st : option State :=
  if bool_decide (active st = window) then Some st
  else
    let st1 := prepare_active window st in
    st2 ← match active st1 with Some a => set_inactive a st1 | None => Some st1 end;
    let st3 := set_active_client window st2 in
    st4 ← match window with Some w => becomes_active w st3 | None => Some st3 end;
    Some (announce_active n window st4).

(** The leads whose layer depends on the window. *)
Definition update_lead_layer (acc : option State) (l : wid) : option State :=
  st ← acc;
  let x := windows st l in
  match remnant x with
  | Some _ => Some st
  | None => c ← control x; Some (if fullscreen c then ask (updateLayer l) st else st)
  end.

(** doSetActive of the window classes. *)
Definition doSetActive w (is_active : bool) st : option State :=
  let x := windows st w in
  if isInternal x then Some st
  else if is_x11 x then
    st1 ← (if urgency W w then set_demands_attention w true st else Some st);
    Some (ask (stateFocused w is_active) st1)
  else if is_active then
    Some (ask (blockStacking false) (null_focus (ask (blockStacking true) st)))
  else Some st.

Definition set_control_active w (b : bool) st : option State :=
  s1 ← set_control w (fun c => c <| Toplevel.active := b |>) (space st);
  Some (st <| space := s1 |>).

(** The part of win::set_active after the call of setActiveClient. *)
Definition finish_active w (is_active : bool) st : option State :=
  st1 ← (if is_active then Some st
         else s ← cancel_auto_raise w (space st); Some (st <| space := s |>));
  let st2 := ask (updateLayer w) (ask (blockStacking true) st1) in
  st3 ← foldl update_lead_layer (Some st2) (leads (windows st2 w));
  st4 ← doSetActive w is_active st3;
  Some (ask (blockStacking false) (ask (updateMouseGrab w) (ask (activeChanged w) st4))).

(** win::set_active; [n] bounds the nested calls and the chains of leads. *)
Fixpoint set_active (n : nat) w (is_active : bool) st : option State :=
  match n with
  | O => None
  | S n' =>
      c ← control (windows st w);
      if Bool.eqb (Toplevel.active c) is_active then Some st
      else
        st1 ← set_control_active w is_active st;
        st2 ← setActiveClient_rec n (fun a => set_active n' a false)
                (if is_active then Some w else None) (ask (setOpacity w is_active) st1);
        finish_active w is_active st2
  end.

Definition setActiveClient (n : nat) : option wid -> State -> option State :=
  setActiveClient_rec n (fun a => set_active n a false).

(** ** Who should get the focus *)

Definition mostRecentlyActivated st : option wid := mostRecentlyActivatedClient (space st).

Definition set_should_get_focus (l : list wid) st : State :=
  st <| space := (space st) <| should_get_focus := l |> |>.

Fixpoint drop_through w (l : list wid) : list wid :=
  match l with [] => [] | x :: l' => if (x =? w)%nat then l' else drop_through w l' end.

Definition gotFocusIn w st : State :=
  let l := should_get_focus (space st) in
  if contains l w then set_should_get_focus (drop_through w l) st else st.

Definition setShouldGetFocus w st : State :=
  ask updateStacking (set_should_get_focus (should_get_focus (space st) ++ [w]) st).

(** takeFocus of the window classes. *)
Definition takeFocus (n : nat) w st : option State :=
  let x := windows st w in
  if isInternal x then Some st
  else
    c ← control x;
    if is_x11 x then
      st1 ← (if checkAcceptFocus W w (accepts_input W w)
             then Some (ask (focusWindow w) st) else set_demands_attention w false st);
      let st2 := if supports_take_focus W w then ask (sendTakeFocus w) (ask timeUpdated st1) else st1 in
      let st3 := setShouldGetFocus w st2 in
      let desktop_group := match group x with
                           | Some g => existsb (fun m => is_desktop (windows st m)) (group_members W g)
                           | None => false
                           end in
      Some (if negb (keep_above c) && negb desktop_group then ask (showDesktop false) st3 else st3)
    else
      st1 ← (if checkAcceptFocus W w (wantsInput x)
             then set_active n w true (ask (pingFocus w) st) else Some st);
      Some (if negb (keep_above c) && negb (is_on_screen_display x) && negb (belongsToDesktop x)
            then ask (showDesktop false) st1 else st1).

(** ** Focus stealing prevention *)

Definition FSP_None : Z := 0.
Definition FSP_Low : Z := 1.
Definition FSP_Medium : Z := 2.
Definition FSP_High : Z := 3.
Definition FSP_Extreme : Z := 4.

(** The decision of allowClientActivation, from the level of the window and the
    protection of the active one. *)
Definition allow_activation (level protection : Z) (ac : option wid) st w (time : Z)
    (ignore_desktop : bool) : bool :=
  let x := windows st w in
  if (level =? FSP_None) || (protection =? FSP_None) then true
  else if (level =? FSP_Extreme) || (protection =? FSP_Extreme) then false
  else if negb ignore_desktop && negb (on_current_desktop E x) then false
  else
    match ac with
    | None => true
    | Some a =>
        if is_desktop (windows st a) then true
        else if same_application W w a && (protection <? FSP_High) then true
        else if negb (on_current_desktop E x) then false
        else if (FSP_Medium <? level) && (FSP_Low <? protection) then false
        else if time =? NO_TIME then (level <? FSP_Medium) && (protection <? FSP_High)
        else 0 <=? timestampCompare time (userTime st a)
    end.

Definition allowClientActivation w (time : Z) (focus_in ignore_desktop : bool) st : option bool :=
  let time := if time =? NO_TIME then userTime st w else time in
  _ ← control (windows st w);
  let level := checkFSP W w in
  if saving_session W && (level <=? FSP_Medium) then Some true
  else if focus_in && contains (should_get_focus (space st)) w then Some true
  else
    let ac := if focus_in then last_active_client st else mostRecentlyActivated st in
    if (time =? 0) && negb (checkAcceptFocus W w false) then Some false
    else
      protection ← match ac with
                   | Some a => _ ← control (windows st a); Some (checkFPP W a 2)
                   | None => Some 0
                   end;
      Some (allow_activation level protection ac st w time ignore_desktop).

Definition allowFullClientRaising w (time : Z) st : option bool :=
  _ ← control (windows st w);
  let level := checkFSP W w in
  if saving_session W && (level <=? 2) then Some true
  else
    let ac := mostRecentlyActivated st in
    if level =? 0 then Some true
    else if level =? 4 then Some false
    else match ac with
         | None => Some true
         | Some a =>
             if is_desktop (windows st a) then Some true
             else if same_application W w a then Some true
             else if level =? 3 then Some false
             else Some (0 <=? timestampCompare time (userTime st a))
         end.

Definition restoreFocus st : State :=
  let st1 := ask timeUpdated st in
  match last (should_get_focus (space st1)) with
  | Some w => ask (requestFocus w) st1
  | None => match last_active_client st1 with
            | Some w => ask (requestFocus w) st1
            | None => st1
            end
  end.

(** *** Focus events of X11 clients (src/win/x11/event.h)

    Events of other windows and those the code ignores by their mode or detail
    are left out. *)

Definition focus_in_event (n : nat) w st : option State :=
  let x := windows st w in
  if negb (isShown x) || negb (on_current_desktop E x) then Some st
  else
    let st1 := st <| focus_out := [] |> in
    activate ← allowClientActivation w NO_TIME true false st1;
    let st2 := gotFocusIn w st1 in
    if (activate : bool) then set_active n w true st2
    else set_demands_attention w true (restoreFocus st2).

Definition focus_out_event w st : State :=
  st <| focus_out := w :: remove_all w (focus_out st) |>.

(** The timeout of the focus out timer. *)
Definition focus_out_timeout (n : nat) w st : option State :=
  set_active n w false (st <| focus_out := remove_all w (focus_out st) |>).

(** ** The next window *)

Definition focusChangeEnabled st : bool := block_focus st =? 0.

Definition clientUnderMouse (scr : Z) st : option wid :=
  find_last (fun w =>
      let x := windows st w in
      match control x with Some _ => true | None => false end &&
      isShown x && on_current_desktop E x && isOnCurrentActivity E x && on_screen E x scr &&
      contains_point (frameGeometry x) (cursor_pos W))
    (stacking_order (space st)).

Definition usable st w (prev : option wid) : bool :=
  FocusChain.isUsableFocusCandidate E (windows st) (focus_chain (space st)) w prev.

(** The candidates of activateNextClient, in the order they are tried. *)
Definition desktop_when_showing st : option wid :=
  if showing_desktop E then findDesktop E (space st) true (current_desktop E) else None.

Definition under_mouse (window : option wid) st : option wid :=
  if isNextFocusPrefersMouse W then
    f ← clientUnderMouse (match window with Some w => screen (windows st w) | None => current_screen E end) st;
    if bool_decide (Some f = window) || is_desktop (windows st f) then None else Some f
  else None.

Definition only_lead (window : option wid) st : option wid :=
  w ← window;
  match leads (windows st w) with
  | [l] => if usable st l window then Some l else None
  | _ => None
  end.

Definition activateNextClient (n : nat) (window : option wid) st : option (State * bool) :=
  if negb (bool_decide (window = active st)) &&
     negb (bool_decide (last (should_get_focus (space st)) = window /\ is_Some window))
  then Some (st, false)
  else
    let st1 := closeActivePopup st in
    st2 ← match window with
          | Some w =>
              st' ← (if bool_decide (window = active st1) then setActiveClient n None st1 else Some st1);
              Some (set_should_get_focus (remove_all w (should_get_focus (space st'))) st')
          | None => Some st1
          end;
    if negb (focusChangeEnabled st2) then Some (null_focus st2, true)
    else if negb (focusPolicyIsReasonable W) then Some (st2, false)
    else
      let get_focus := match desktop_when_showing st2 with
                       | Some f => Some f
                       | None => under_mouse window st2
                       end in
      let '(get_focus, st3) :=
        match get_focus with
        | Some f => (Some f, st2)
        | None =>
            match only_lead window st2 with
            | Some l => (Some l, ask (raiseWindow l) st2)
            | None =>
                (FocusChain.nextForDesktop E (windows st2) (focus_chain (space st2)) window
                   (current_desktop E), st2)
            end
        end in
      let get_focus := match get_focus with
                       | Some f => Some f
                       | None => findDesktop E (space st3) true (current_desktop E)
                       end in
      Some (match get_focus with Some f => ask (requestFocus f) st3 | None => null_focus st3 end, true).

(** Workspace::clientHidden. *)
Definition clientHidden (n : nat) w st : option State :=
  '(st1, _) ← activateNextClient n (Some w) st; Some st1.

(** Workspace::setCurrentScreen. *)
Definition changeScreen (new_screen : Z) st : State :=
  if (new_screen <? 0) || (screens_count W <=? new_screen) then st
  else if negb (focusPolicyIsReasonable W) then st
  else
    let st1 := closeActivePopup st in
    let get_focus :=
      match FocusChain.getForActivation E (windows st1) (focus_chain (space st1))
              (current_desktop E) new_screen with
      | Some f => Some f
      | None => findDesktop E (space st1) true (current_desktop E)
      end in
    let st2 := match get_focus with
               | Some f => if bool_decide (Some f = mostRecentlyActivated st1) then st1
                           else ask (requestFocus f) st1
               | None => st1
               end in
    ask (currentScreen new_screen) st2.

(** Workspace::findClientToActivateOnDesktop. *)
Definition findClientToActivateOnDesktop (d : Z) st : option wid :=
  let moved := match moving_client W with
               | Some m => bool_decide (active st = Some m) &&
                   FocusChain.contains_on (focus_chain (space st)) m d &&
                   isShown (windows st m) && on_current_desktop E (windows st m)
               | None => false
               end in
  if moved then active st
  else
    let hit :=
      if isNextFocusPrefersMouse W then
        find_last (fun w =>
          let x := windows st w in
          is_x11 x && isShown x && on_desktop E x d && isOnCurrentActivity E x &&
          on_active_screen E x && contains_point (frameGeometry x) (cursor_pos W))
          (stacking_order (space st))
      else None in
    match hit with
    | Some f => if negb (is_desktop (windows st f)) then Some f
                else FocusChain.getForActivation E (windows st) (focus_chain (space st)) d (current_screen E)
    | None => FocusChain.getForActivation E (windows st) (focus_chain (space st)) d (current_screen E)
    end.

(** Workspace::activateClientOnNewDesktop. *)
Definition activateClientOnNewDesktop (n : nat) (d : Z) st : option State :=
  let c :=
    if focusPolicyIsReasonable W then findClientToActivateOnDesktop d st
    else match active st with
         | Some a => if isShown (windows st a) && on_current_desktop E (windows st a)
                     then Some a else None
         | None => None
         end in
  let c := match c with Some f => Some f | None => findDesktop E (space st) true d end in
  st1 ← (if bool_decide (c = active st) then Some st else setActiveClient n None st);
  Some (match c with
        | Some f => ask (requestFocus f) st1
        | None => match findDesktop E (space st1) true d with
                  | Some f => ask (requestFocus f) st1
                  | None => null_focus st1
                  end
        end).

(** The part of Workspace::removeClient that forgets a window, which is not active
    any more. *)
Definition forget w st : State :=
  let st1 := set_should_get_focus (remove_all w (should_get_focus (space st)))
               (st <| attention_chain := remove_all w (attention_chain st) |>) in
  if bool_decide (last_active_client st1 = Some w) then st1 <| last_active_client := None |> else st1.

(** window::findModal: the first modal window below the children, depth first. *)
Fixpoint find_modal_from (n : nat) H (win : wid) : option wid :=
  match n with
  | O => None
  | S n' =>
      match foldl (fun acc c => match acc with Some m => Some m | None => find_modal_from n' H c end)
              None (children (H win)) with
      | Some m => Some m
      | None => if modal (H win) then Some win else None
      end
  end.
Definition findModal (n : nat) H w : option wid :=
  foldl (fun acc c => match acc with Some m => Some m | None => find_modal_from n H c end)
    None (children (H w)).
End Operations.
End Activation.
