(* ===== verification/ActivationProps.v ===== *)
(** * Properties of window activation

    The active client is the one window whose control is active, the attention
    chain lists the windows that demand attention, and these stay so over every
    order of events; focus stealing prevention is monotone; windows the program
    gave the focus to become active. *)

From S2P Require Import Prelude Qt Toplevel Transient FocusChain Stacking Activation.

Module ActivationProps.
Import Qt Toplevel Transient Stacking Activation.

(** ** Frames *)

(** What the steps that only ask for something leave as it is. *)
Record frame (st st' : State) : Prop := {
  fr_windows : windows st' = windows st;
  fr_active : active st' = active st;
  fr_focus : should_get_focus (space st') = should_get_focus (space st);
  fr_last : last_active_client st' = last_active_client st;
  fr_attention : attention_chain st' = attention_chain st;
}.

#[global] Instance frame_preorder : PreOrder frame.
Proof. split; [done|]. intros a b c [] []. split; congruence. Qed.

Lemma ask_frame r st : frame st (ask r st).
Proof. done. Qed.

Lemma foldl_ask {A} (f : A -> Request) l st :
  frame st (foldl (fun st w => ask (f w) st) st l).
Proof.
  revert st. induction l as [|x l IH]; intros st; [done|].
  cbn [foldl]. etransitivity; [|apply IH]. done.
Qed.

Section Frames.
Context (E : Env) (W : World).

Lemma tools_frame n b st : frame st (update_tool_windows W n b st).
Proof.
  unfold update_tool_windows. case_match; [apply (foldl_ask (fun w : wid => hideWindow w false))|].
  destruct (tool_root _ _ _). destruct b; (etransitivity; [|apply ask_frame]).
  - etransitivity; [|apply (foldl_ask (fun w : wid => hideWindow w true))].
    apply (foldl_ask (fun w : wid => hideWindow w false)).
  - apply (foldl_ask (fun w : wid => hideWindow w false)).
Qed.

Lemma shortcuts_frame b st : frame st (disableGlobalShortcutsForClient W b st).
Proof.
  unfold disableGlobalShortcutsForClient. case_match; [done|].
  etransitivity; [|apply (foldl_ask updateMouseGrab)]. done.
Qed.

Lemma popups_frame w st : frame st (close_popups w st).
Proof. unfold close_popups, closeActivePopup. repeat case_match; done. Qed.

Lemma close_frame st : frame st (closeActivePopup st).
Proof. unfold closeActivePopup. by destruct (active_popup st). Qed.

Lemma null_frame st : frame st (null_focus W st).
Proof. unfold null_focus. by destruct (has_null_focus W). Qed.
End Frames.

(** ** Flags

    Whether a window is active and whether it demands attention. *)

Definition flags (st : State) (v : wid) : option (bool * bool) :=
  (fun c => (Toplevel.active c, demands_attention c)) <$> control (windows st v).

(** A window without what activation writes. *)
Definition bare (x : Window) : Window := x <| control := None |> <| info := None |>.

(** The flags become [F] and nothing else of the windows changes. *)
Record flagged (F : wid -> option (bool * bool)) (st st' : State) : Prop := {
  fl_flags : forall v, flags st' v = F v;
  fl_bare : forall v, bare (windows st' v) = bare (windows st v);
}.

Definition put (F : wid -> option (bool * bool)) (w : wid) (b : bool * bool) : wid -> option (bool * bool) :=
  fun v => if decide (v = w) then Some b else F v.

Lemma put_eq F w b : put F w b w = Some b.
Proof. unfold put. by rewrite decide_True. Qed.
Lemma put_ne F w b v : v <> w -> put F w b v = F v.
Proof. intros. unfold put. by rewrite decide_False. Qed.
#[local] Hint Rewrite put_eq : kwin_simp.

Lemma flagged_frame F st st1 st' : flagged F st st1 -> frame st1 st' -> flagged F st st'.
Proof.
  intros [A B] [C _ _ _ _]. split; intros v; [|by rewrite C].
  unfold flags. rewrite C. apply A.
Qed.

Lemma frame_flags st st' v : frame st st' -> flags st' v = flags st v.
Proof. intros [H _ _ _ _]. unfold flags. by rewrite H. Qed.

Lemma flagged_bare {A} (f : Window -> A) F st st' v :
  flagged F st st' -> (forall x, f (bare x) = f x) -> f (windows st' v) = f (windows st v).
Proof. intros [_ H] Hf. by rewrite <- Hf, H, Hf. Qed.

(** Writing the control of one window. *)
Lemma set_control_flagged w g st c :
  control (windows st w) = Some c ->
  exists s1, set_control w g (space st) = Some s1 /\
    flagged (put (flags st) w (Toplevel.active (g c), demands_attention (g c))) st (st <| space := s1 |>) /\
    active_client s1 = active_client (space st) /\
    should_get_focus s1 = should_get_focus (space st) /\
    focus_chain s1 = focus_chain (space st).
Proof.
  unfold windows. intros Hc. unfold set_control. rewrite Hc. eexists. split; [done|].
  split; [|done]. split; intros v; unfold flags, windows, put; simpl; rewrite set_win_lookup;
    repeat case_decide; subst; done.
Qed.

(** *** Setting the active flag *)

Lemma set_control_active_spec w b st a d :
  flags st w = Some (a, d) ->
  exists st', set_control_active w b st = Some st' /\ flagged (put (flags st) w (b, d)) st st' /\
    active st' = active st /\ should_get_focus (space st') = should_get_focus (space st) /\
    last_active_client st' = last_active_client st /\ attention_chain st' = attention_chain st.
Proof.
  unfold flags. destruct (control (windows st w)) as [c|] eqn:Hc; [|done]. intros [= <- <-].
  destruct (set_control_flagged w (fun c => c <| Toplevel.active := b |>) st c Hc)
    as (s1 & E1 & F1 & A1 & G1 & C1).
  unfold set_control_active. rewrite E1. simpl. eexists. split; [done|]. by split.
Qed.

(** *** Demanding attention *)

(** The chain lists the windows that demand attention, once each. *)
Record attention_ok (st : State) : Prop := {
  at_nodup : NoDup (attention_chain st);
  at_elem : forall v, v ∈ attention_chain st <-> exists a, flags st v = Some (a, true);
}.

Lemma attention_frame st st' : frame st st' -> attention_ok st -> attention_ok st'.
Proof.
  intros Hf [A B]. pose proof Hf as [_ _ _ _ Hc]. split; rewrite Hc; [done|].
  intros v. rewrite B. by setoid_rewrite (frame_flags st st' v Hf).
Qed.

(** Writing flags that leave the second one. *)
Lemma attention_put st st' w a b d :
  flagged (put (flags st) w (b, d)) st st' -> flags st w = Some (a, d) ->
  attention_chain st' = attention_chain st -> attention_ok st -> attention_ok st'.
Proof.
  intros [F _] Hw Hc [A B]. split; rewrite Hc; [done|]. intros v. rewrite B, F. unfold put.
  case_decide as Hv; [subst v|done]. rewrite Hw. split; intros [x Hx]; simplify_eq; eauto.
Qed.

Lemma set_info_bare w g s v :
  bare (wins (set_info w g s) v) = bare (wins s v) /\
  control (wins (set_info w g s) v) = control (wins s v).
Proof.
  unfold set_info. simpl. rewrite set_win_lookup. case_decide; [subst|done].
  by destruct (wins s v).
Qed.

Lemma set_demands_attention_spec w demand st a d :
  flags st w = Some (a, d) -> attention_ok st ->
  exists st', set_demands_attention w demand st = Some st' /\
    flagged (put (flags st) w (a, demand && negb a)) st st' /\ attention_ok st' /\
    active st' = active st /\ should_get_focus (space st') = should_get_focus (space st) /\
    last_active_client st' = last_active_client st.
Proof.
  unfold flags. destruct (control (windows st w)) as [c|] eqn:Hc; [|done]. intros [= Ha Hd] Hat.
  fold (flags st) in *.
  unfold set_demands_attention. rewrite Hc. cbn [mbind option_bind]. rewrite Ha, Hd.
  assert ((if a then false else demand) = demand && negb a) as -> by (destruct a, demand; done).
  set (b := demand && negb a).
  assert (flags st w = Some (a, d)) as Hw by (unfold flags; rewrite Hc; simpl; by rewrite Ha, Hd).
  destruct (Bool.eqb d b) eqn:Eb.
  { apply Bool.eqb_prop in Eb as ->. exists st. split_and!; try done.
    split; [|done]. intros v. unfold put. by case_decide; subst. }
  unfold Stacking.set_demands_attention. unfold windows in Hc. rewrite Hc. cbn [mbind option_bind].
  rewrite Ha, Hd. assert ((if a then false else b) = b) as -> by (unfold b; destruct a, demand; done).
  rewrite Eb.
  destruct (set_control_flagged w (fun c => c <| demands_attention := b |>) st c Hc)
    as (s1 & E1 & [F1 B1] & A1 & G1 & C1).
  rewrite E1. cbn [mbind option_bind]. eexists. split; [done|].
  match goal with |- flagged _ _ ?s /\ _ => set (st' := s) end.
  assert (windows st' = wins (set_info w (fun i => i <| ni_attention := b |>) s1)) as Hwin by reflexivity.
  assert (forall v, flags st' v = put (flags st) w (a, b) v) as HF.
  { intros v. specialize (F1 v). simpl in F1. rewrite Ha in F1. rewrite <- F1.
    unfold flags. rewrite Hwin.
    by rewrite (proj2 (set_info_bare w (fun i => i <| ni_attention := b |>) s1 v)). }
  split_and!; try done.
  - split; [done|]. intros v. specialize (B1 v). simpl in B1. rewrite <- B1.
    rewrite Hwin.
    by rewrite (proj1 (set_info_bare w (fun i => i <| ni_attention := b |>) s1 v)).
  - destruct Hat as [Hnd Hel]. unfold st', attentionChanged. split; simpl.
    + destruct b; simpl; [|by apply NoDup_remove_all].
      constructor; [apply not_elem_of_remove_all|by apply NoDup_remove_all].
    + intros v. fold st'. rewrite HF. unfold put. rewrite elem_of_app, elem_of_remove_all, Hel.
      case_decide as Hv; [subst v|].
      * destruct b; split.
        -- intros _. by exists a.
        -- intros _. left. by left.
        -- intros [Hin|[_ ?]]; [by apply elem_of_nil in Hin|done].
        -- intros [x [=]].
      * destruct b; [rewrite list_elem_of_singleton|rewrite elem_of_nil]; tauto.
Qed.

(** ** The active window *)

Section Active.
Context (E : Env) (W : World).
Implicit Types (st : State) (w v a : wid) (n : nat).

Lemma prepare_frame o st : frame st (prepare_active o st).
Proof. unfold prepare_active. etransitivity; [apply (popups_frame o)|done]. Qed.

Lemma announce_frame n o st : frame st (announce_active W n o st).
Proof.
  unfold announce_active.
  set (st2 := disableGlobalShortcutsForClient _ _ _).
  assert (frame st st2) as [A B C D F] by (etransitivity; [apply tools_frame|apply shortcuts_frame]).
  by destruct (has_root_info W).
Qed.

(** A frame in which only the active client changes. *)
Record reframe (o : option wid) st st' : Prop := {
  rf_windows : windows st' = windows st;
  rf_active : active st' = o;
  rf_focus : should_get_focus (space st') = should_get_focus (space st);
  rf_last : last_active_client st' = last_active_client st;
  rf_attention : attention_chain st' = attention_chain st;
}.

Abbreviation set_active := (set_active E W).
Abbreviation setActiveClient_rec := (setActiveClient_rec E W).

Lemma set_active_same n w b st d :
  flags st w = Some (b, d) -> set_active (S n) w b st = Some st.
Proof.
  unfold flags. cbn [Activation.set_active].
  destruct (control (windows st w)) as [c|]; [|done]. intros [= <- _].
  cbn [mbind option_bind]. by rewrite Bool.eqb_reflx.
Qed.

(** No window becomes active, and the old one is inactive already. *)
Lemma set_none n m a st d :
  active st = Some a -> flags st a = Some (false, d) ->
  exists st', setActiveClient_rec n (fun a => set_active (S m) a false) None st = Some st' /\
    reframe None st st'.
Proof.
  intros Ha Hf. unfold Activation.setActiveClient_rec. rewrite bool_decide_eq_false_2 by (by rewrite Ha).
  set (st1 := prepare_active None st). pose proof (prepare_frame None st : frame st st1) as H1.
  rewrite (fr_active _ _ H1), Ha.
  rewrite (set_active_same m a false st1 d) by (by rewrite (frame_flags _ _ _ H1)).
  cbn [mbind option_bind]. eexists. split; [done|].
  set (st3 := set_active_client None st1).
  pose proof (announce_frame n None st3) as H3. destruct H1 as [A B C D F], H3 as [A3 B3 C3 D3 F3].
  split; [by rewrite A3|by rewrite B3|by rewrite C3|by rewrite D3|by rewrite F3].
Qed.

(** *** The end of set_active *)

(** Every lead is a remnant or has a control. *)
Definition leads_ok st : Prop := forall v l, l ∈ leads (windows st v) ->
  is_Some (remnant (windows st l)) \/ is_Some (flags st l).

Lemma flags_control st v : is_Some (flags st v) <-> is_Some (control (windows st v)).
Proof. unfold flags. destruct (control (windows st v)); simpl; split; intros [? ?]; eauto; done. Qed.

Lemma lead_layers_frame ls st :
  (forall l, l ∈ ls -> is_Some (remnant (windows st l)) \/ is_Some (flags st l)) ->
  exists st', foldl update_lead_layer (Some st) ls = Some st' /\ frame st st'.
Proof.
  revert st. induction ls as [|l ls IH]; intros st Hl; [by exists st|].
  assert (exists st1, update_lead_layer (Some st) l = Some st1 /\ frame st st1) as (st1 & E1 & F1).
  { unfold update_lead_layer. cbn [mbind option_bind].
    destruct (remnant (windows st l)) as [r|] eqn:Hr; [by exists st|].
    destruct (Hl l) as [[? ?]|[c Hc]%flags_control]; [by left|congruence|].
    rewrite Hc. cbn [mbind option_bind]. eexists. split; [done|]. by destruct (fullscreen c). }
  destruct (IH st1) as (st' & E' & F').
  { intros l' Hl'. rewrite (fr_windows _ _ F1), (frame_flags _ _ _ F1). apply Hl. by right. }
  exists st'. cbn [foldl]. rewrite E1. split; [done|]. by transitivity st1.
Qed.

(** doSetActive writes at most the second flag, and only of an inactive window. *)
Lemma doSetActive_spec w b st d :
  flags st w = Some (b, d) -> attention_ok st -> (b = true -> d = false) ->
  exists st' d', doSetActive W w b st = Some st' /\ flagged (put (flags st) w (b, d')) st st' /\
    attention_ok st' /\ active st' = active st /\
    should_get_focus (space st') = should_get_focus (space st) /\
    last_active_client st' = last_active_client st /\ (b = true -> d' = false).
Proof.
  intros Hf Hat Hbd.
  assert (forall st', frame st st' -> exists d',
    flagged (put (flags st) w (b, d')) st st' /\ attention_ok st' /\ active st' = active st /\
    should_get_focus (space st') = should_get_focus (space st) /\
    last_active_client st' = last_active_client st /\ (b = true -> d' = false)) as Hsame.
  { intros st' HF. exists d. pose proof HF as [A B C D F]. split_and!; try done.
    - split; intros v; [|by rewrite A]. rewrite (frame_flags _ _ _ HF). unfold put. by case_decide; subst.
    - by apply (attention_frame st). }
  unfold doSetActive. destruct (isInternal (windows st w)).
  { destruct (Hsame st) as (d' & H'); [done|]. by exists st, d'. }
  destruct (is_x11 (windows st w)).
  - destruct (urgency W w); cbn [mbind option_bind].
    + destruct (set_demands_attention_spec w true st b d Hf Hat) as (st1 & -> & F1 & A1 & B1 & C1 & D1).
      cbn [mbind option_bind]. eexists _, (negb b). split; [done|].
      split_and!; try done.
      * eapply flagged_frame; [exact F1|apply ask_frame].
      * by eapply attention_frame; [apply ask_frame|].
      * by destruct b.
    + destruct (Hsame (ask (stateFocused w b) st)) as (d' & H'); [done|]. by eexists _, d'.
  - destruct b.
    + destruct (Hsame (ask (blockStacking false) (null_focus W (ask (blockStacking true) st))))
        as (d' & H'); [|by eexists _, d'].
      etransitivity; [|apply ask_frame]. etransitivity; [apply ask_frame|apply null_frame].
    + destruct (Hsame st) as (d' & H'); [done|]. by exists st, d'.
Qed.

(** Flags that change without a window losing its control. *)
Lemma leads_ok_flagged F st st' :
  flagged F st st' -> (forall v, is_Some (flags st v) -> is_Some (F v)) -> leads_ok st -> leads_ok st'.
Proof.
  intros HF Hs Hl v l. rewrite (flagged_bare leads _ _ _ v HF), (flagged_bare remnant _ _ _ l HF) by done.
  intros H. destruct (Hl v l H) as [|H']; [by left|right]. rewrite (fl_flags _ _ _ HF). auto.
Qed.

Lemma put_some F w b v : is_Some (F v) -> is_Some (put F w b v).
Proof. unfold put. case_decide; eauto. Qed.

Lemma flagged_trans F G st st1 st' : flagged F st st1 -> flagged G st1 st' -> flagged G st st'.
Proof. intros [_ A] [B C]. split; [done|]. intros v. by rewrite C. Qed.

Lemma flagged_ext F G st st' : (forall v, F v = G v) -> flagged F st st' -> flagged G st st'.
Proof. intros H [A B]. split; [intros v; by rewrite <- H|done]. Qed.

Lemma finish_spec w b st d :
  flags st w = Some (b, d) -> attention_ok st -> leads_ok st -> (b = true -> d = false) ->
  exists st' d', finish_active W w b st = Some st' /\ flagged (put (flags st) w (b, d')) st st' /\
    attention_ok st' /\ active st' = active st /\
    should_get_focus (space st') = should_get_focus (space st) /\
    last_active_client st' = last_active_client st /\ (b = true -> d' = false).
Proof.
  intros Hf Hat Hl Hbd. unfold finish_active.
  assert (exists st1, (if b then Some st else s ← cancel_auto_raise w (space st);
      Some (st <| space := s |>)) = Some st1 /\ flagged (flags st) st st1 /\
      active st1 = active st /\ should_get_focus (space st1) = should_get_focus (space st) /\
      last_active_client st1 = last_active_client st /\ attention_chain st1 = attention_chain st)
    as (st1 & -> & F1 & A1 & B1 & C1 & D1).
  { destruct b; [by exists st|].
    assert (exists c, control (windows st w) = Some c) as [c Hc] by (apply flags_control; by rewrite Hf).
    destruct (set_control_flagged w (fun c => c <| auto_raise := false |>) st c Hc)
      as (s1 & E1 & F1 & A1 & G1 & _).
    change (cancel_auto_raise w (space st)) with (set_control w (fun c => c <| auto_raise := false |>) (space st)).
    rewrite E1. cbn [mbind option_bind]. eexists. split; [done|]. split_and!; try done.
    eapply flagged_ext; [|exact F1]. intros v. unfold put. case_decide; [subst|done].
    unfold flags. by rewrite Hc. }
  cbn [mbind option_bind].
  assert (leads_ok st1) as Hl1 by (by apply (leads_ok_flagged _ _ _ F1)).
  set (st2 := ask (updateLayer w) (ask (blockStacking true) st1)).
  destruct (lead_layers_frame (leads (windows st2 w)) st2) as (st3 & -> & F3).
  { intros l Hlead. by apply (Hl1 w). }
  cbn [mbind option_bind].
  assert (frame st1 st3) as F13 by (etransitivity; [apply (ask_frame (blockStacking true))|];
    etransitivity; [apply (ask_frame (updateLayer w))|exact F3]).
  assert (forall v, flags st3 v = flags st v) as Hf3.
  { intros v. rewrite (frame_flags _ _ _ F13). apply F1. }
  assert (attention_ok st3) as Hat3.
  { apply (attention_frame _ _ F13). destruct Hat as [X Y]. split; rewrite D1; [done|].
    intros v. rewrite Y. by setoid_rewrite (fl_flags _ _ _ F1). }
  destruct (doSetActive_spec w b st3 d) as (st4 & d' & -> & F4 & A4 & B4 & C4 & D4 & E4);
    [by rewrite Hf3|done..|].
  cbn [mbind option_bind]. pose proof F13 as [G1 G2 G3 G4 G5].
  eexists _, d'. split; [done|]. split_and!; try done.
  - eapply flagged_frame; [|apply ask_frame]. eapply flagged_frame; [|apply ask_frame].
    eapply flagged_frame; [|apply ask_frame].
    eapply flagged_ext; [|eapply (flagged_trans _ _ st st3 st4); [|exact F4]].
    + intros v. unfold put. case_decide; [done|]. apply Hf3.
    + eapply flagged_frame; [exact F1|done].
  - by eapply attention_frame; [apply ask_frame|]; eapply attention_frame; [apply ask_frame|];
      eapply attention_frame; [apply ask_frame|].
  - change (active st4 = active st). by rewrite B4, G2.
  - change (should_get_focus (space st4) = should_get_focus (space st)). by rewrite C4, G3.
  - change (last_active_client st4 = last_active_client st). by rewrite D4, G4.
Qed.

(** Deactivating the active window. *)
Lemma deactivate_spec n a st d :
  active st = Some a -> flags st a = Some (true, d) -> attention_ok st -> leads_ok st ->
  exists st' d', set_active (S (S n)) a false st = Some st' /\
    flagged (put (flags st) a (false, d')) st st' /\ attention_ok st' /\ active st' = None /\
    should_get_focus (space st') = should_get_focus (space st) /\
    last_active_client st' = last_active_client st.
Proof.
  intros Ha Hf Hat Hl.
  assert (exists c, control (windows st a) = Some c /\ Toplevel.active c = true) as (c & Hc & Hca).
  { unfold flags in Hf. destruct (control (windows st a)) as [c|]; [|done]. exists c. by injection Hf. }
  destruct (set_control_active_spec a false st _ _ Hf) as (st1 & E1 & F1 & A1 & B1 & C1 & D1).
  pose proof (attention_put _ _ _ _ _ _ F1 Hf D1 Hat) as Hat1.
  set (st2 := ask (setOpacity a false) st1).
  assert (flags st2 a = Some (false, d)) as Hf2.
  { change (flags st1 a = Some (false, d)). rewrite (fl_flags _ _ _ F1). apply put_eq. }
  destruct (set_none (S (S n)) n a st2 d) as (st3 & E3 & [P1 P2 P3 P4 P5]);
    [by change (active st1 = Some a); rewrite A1|done|].
  assert (forall v, flags st3 v = put (flags st) a (false, d) v) as Hf3.
  { intros v. unfold flags at 1. rewrite P1. apply (fl_flags _ _ _ F1). }
  assert (flagged (put (flags st) a (false, d)) st st3) as F3.
  { split; [done|]. intros v. rewrite P1. apply (fl_bare _ _ _ F1). }
  destruct (finish_spec a false st3 d) as (st4 & d' & E4 & F4 & A4 & B4 & C4 & D4 & _).
  - rewrite Hf3. apply put_eq.
  - change (attention_chain st2) with (attention_chain st1) in P5.
    split; rewrite P5; [apply Hat1|]. intros v. rewrite (at_elem _ Hat1).
    by setoid_rewrite Hf3; setoid_rewrite (fl_flags _ _ _ F1).
  - apply (leads_ok_flagged _ _ _ F3); [|done]. intros v. apply put_some.
  - done.
  - exists st4, d'. split_and!.
    + cbn [Activation.set_active]. rewrite Hc. cbn [mbind option_bind]. rewrite Hca. cbn [Bool.eqb].
      rewrite E1. cbn [mbind option_bind]. fold st2. cbn [Activation.set_active] in E3.
      rewrite E3. cbn [mbind option_bind]. done.
    + eapply flagged_ext; [|eapply flagged_trans; [exact F3|exact F4]].
      intros v. unfold put. case_decide; [done|]. rewrite Hf3. by rewrite put_ne.
    + done.
    + by rewrite B4.
    + rewrite C4, P3. exact B1.
    + rewrite D4, P4. exact C1.
Qed.

Lemma attention_same st st' :
  (forall v, flags st' v = flags st v) -> attention_chain st' = attention_chain st ->
  attention_ok st -> attention_ok st'.
Proof.
  intros Hf Hc [A B]. split; rewrite Hc; [done|]. intros v. rewrite B. by setoid_rewrite Hf.
Qed.

Lemma becomes_active_spec w st d :
  flags st w = Some (true, d) -> attention_ok st ->
  exists st', becomes_active E W w st = Some st' /\ flagged (put (flags st) w (true, false)) st st' /\
    attention_ok st' /\ active st' = active st /\
    should_get_focus (space st') = should_get_focus (space st) /\ last_active_client st' = Some w.
Proof.
  intros Hf Hat. unfold becomes_active. set (st1 := st <| last_active_client := _ |> <| space := _ |>).
  destruct (set_demands_attention_spec w false st1 true d) as (st2 & -> & F2 & A2 & B2 & C2 & D2);
    [done|by apply (attention_same st)|].
  cbn [mbind option_bind]. eexists. split; [done|].
  assert (frame st2 (if 1 <? screens_count W then ask (updateActiveLayers w) st2 else st2)) as HF
    by (by destruct (1 <? screens_count W)).
  pose proof HF as [P1 P2 P3 P4 P5]. split_and!.
  - eapply flagged_frame; [|exact HF]. split; [apply F2|]. apply (fl_bare _ _ _ F2).
  - by apply (attention_frame st2).
  - by rewrite P2, B2.
  - by rewrite P3, C2.
  - by rewrite P4, D2.
Qed.

(** Another window becomes active; [F] are the flags afterwards. *)
Record switched (w : wid) (F : wid -> option (bool * bool)) st st' : Prop := {
  sw_flags : flagged F st st';
  sw_new : F w = Some (true, false);
  sw_old : forall v, v <> w -> active st = Some v -> exists d, F v = Some (false, d);
  sw_other : forall v, v <> w -> active st <> Some v -> F v = flags st v;
  sw_attention : attention_ok st';
  sw_active : active st' = Some w;
  sw_focus : should_get_focus (space st') = should_get_focus (space st);
  sw_last : last_active_client st' = Some w;
}.

Definition active_flagged st : Prop := forall a, active st = Some a -> exists d, flags st a = Some (true, d).

Lemma make_active m n w st d :
  flags st w = Some (true, d) -> active st <> Some w -> active_flagged st ->
  attention_ok st -> leads_ok st ->
  exists st' F, setActiveClient_rec m (fun a => set_active (S (S n)) a false) (Some w) st = Some st' /\
    switched w F st st'.
Proof.
  intros Hf Hne Haf Hat Hl. unfold Activation.setActiveClient_rec.
  rewrite bool_decide_eq_false_2 by done. set (st1 := prepare_active (Some w) st).
  pose proof (prepare_frame (Some w) st : frame st st1) as H1.
  assert (exists st2 F2, match active st1 with Some a => set_active (S (S n)) a false st1
                                       | None => Some st1 end = Some st2 /\
    flagged F2 st st2 /\ F2 w = Some (true, d) /\
    (forall v, v <> w -> active st = Some v -> exists d, F2 v = Some (false, d)) /\
    (forall v, v <> w -> active st <> Some v -> F2 v = flags st v) /\
    attention_ok st2 /\ should_get_focus (space st2) = should_get_focus (space st))
    as (st2 & F2 & -> & K1 & K2 & K3 & K4 & K5 & K6).
  { rewrite (fr_active _ _ H1). destruct (active st) as [a|] eqn:Ha.
    - destruct (Haf a Ha) as [da Hfa].
      destruct (deactivate_spec n a st1 da) as (st2 & d' & E2 & F2 & A2 & B2 & C2 & D2).
      + by rewrite (fr_active _ _ H1).
      + by rewrite (frame_flags _ _ _ H1).
      + by apply (attention_frame st).
      + intros v l. rewrite (fr_windows _ _ H1), (frame_flags _ _ _ H1). apply Hl.
      + exists st2, (put (flags st) a (false, d')). split_and!; try done.
        * eapply flagged_ext; [|eapply (flagged_trans (flags st) _ st st1)].
          -- intros v. reflexivity.
          -- split; [intros v; by apply frame_flags|intros v; by rewrite (fr_windows _ _ H1)].
          -- eapply flagged_ext; [|exact F2]. intros v. unfold put.
             by rewrite (frame_flags _ _ _ H1).
        * rewrite put_ne; [done|congruence].
        * intros v Hv [= ->]. exists d'. apply put_eq.
        * intros v Hv Hva. apply put_ne. congruence.
        * rewrite C2. apply H1.
    - exists st1, (flags st). split_and!; try done.
      + split; [intros v; by apply frame_flags|intros v; by rewrite (fr_windows _ _ H1)].
      + by apply (attention_frame st).
      + apply H1. }
  cbn [mbind option_bind]. set (st3 := set_active_client (Some w) st2).
  destruct (becomes_active_spec w st3 d) as (st4 & -> & F4 & A4 & B4 & C4 & D4).
  { change (flags st2 w = Some (true, d)). by rewrite (fl_flags _ _ _ K1). }
  { by apply (attention_same st2). }
  cbn [mbind option_bind]. pose proof (announce_frame m (Some w) st4) as H4.
  exists (announce_active W m (Some w) st4), (put F2 w (true, false)). split; [done|]. split.
  - eapply flagged_frame; [|exact H4]. eapply flagged_ext; [|eapply (flagged_trans F2 (put (flags st3) w (true, false)) st st2 st4);
      [done|destruct F4; by split]].
    intros v. unfold put. case_decide; [done|]. apply (fl_flags _ _ _ K1).
  - apply put_eq.
  - intros v Hv Hva. rewrite put_ne by done. by apply K3.
  - intros v Hv Hva. rewrite put_ne by done. by apply K4.
  - by apply (attention_frame st4).
  - rewrite (fr_active _ _ H4), B4. done.
  - rewrite (fr_focus _ _ H4), C4. exact K6.
  - by rewrite (fr_last _ _ H4), D4.
Qed.

(** ** The invariant *)

(** The active client is the window with the active flag, which does not demand
    attention; the chain of attention is right; the windows on record have a
    control. *)
Record focus_ok st : Prop := {
  fo_active : forall v, active st = Some v <-> exists d, flags st v = Some (true, d);
  fo_calm : forall v, flags st v <> Some (true, true);
  fo_attention : attention_ok st;
  fo_focus : forall v, v ∈ should_get_focus (space st) -> is_Some (flags st v);
  fo_last : forall v, last_active_client st = Some v -> is_Some (flags st v);
  fo_leads : leads_ok st;
}.

Lemma fo_flagged st : focus_ok st -> active_flagged st.
Proof. intros Hok a. apply (fo_active _ Hok). Qed.

Lemma focus_ok_frame st st' : frame st st' -> focus_ok st -> focus_ok st'.
Proof.
  intros HF [A B C D F G]. pose proof HF as [H1 H2 H3 H4 H5]. split.
  - intros v. rewrite H2, A. by setoid_rewrite (frame_flags _ _ v HF).
  - intros v. by rewrite (frame_flags _ _ v HF).
  - by apply (attention_frame st).
  - intros v. rewrite H3, (frame_flags _ _ v HF). apply D.
  - intros v. rewrite H4, (frame_flags _ _ v HF). apply F.
  - intros v l. rewrite H1, (frame_flags _ _ l HF). apply G.
Qed.

(** Becoming active keeps the invariant, and the window is the active client. *)
Lemma activate_spec n w st :
  focus_ok st -> is_Some (flags st w) ->
  exists st', set_active (S (S (S n))) w true st = Some st' /\ focus_ok st' /\ active st' = Some w /\
    should_get_focus (space st') = should_get_focus (space st).
Proof.
  intros Hok [[b d] Hf].
  assert (exists c, control (windows st w) = Some c /\ Toplevel.active c = b) as (c & Hc & Hcb).
  { unfold flags in Hf. destruct (control (windows st w)) as [c|]; [|done]. exists c. by injection Hf. }
  destruct b.
  { rewrite (set_active_same _ w true st d) by done. exists st. split_and!; try done.
    apply (fo_active _ Hok). eauto. }
  assert (active st <> Some w) as Hne.
  { intros H. apply (fo_active _ Hok) in H as [d' H]. congruence. }
  destruct (set_control_active_spec w true st _ _ Hf) as (st1 & E1 & F1 & A1 & B1 & C1 & D1).
  pose proof (attention_put _ _ _ _ _ _ F1 Hf D1 (fo_attention _ Hok)) as Hat1.
  set (st2 := ask (setOpacity w true) st1).
  destruct (make_active (S (S (S n))) n w st2 d) as (st3 & F & E3 & S3).
  - change (flags st1 w = Some (true, d)). rewrite (fl_flags _ _ _ F1). apply put_eq.
  - change (active st1 <> Some w). by rewrite A1.
  - intros a Ha. change (active st1 = Some a) in Ha. rewrite A1 in Ha.
    change (exists d, flags st1 a = Some (true, d)). rewrite (fl_flags _ _ _ F1), put_ne by congruence.
    by apply (fo_flagged _ Hok).
  - exact (attention_frame _ _ (ask_frame _ st1) Hat1).
  - change (leads_ok st1). apply (leads_ok_flagged _ _ _ F1); [|apply Hok]. intros v. apply put_some.
  - pose proof S3 as [T1 T2 T3 T4 T5 T6 T7 T8].
    assert (forall v, v <> w -> active st = Some v -> exists d, F v = Some (false, d)) as Hold.
    { intros v Hv Ha. apply T3; [done|]. change (active st1 = Some v). by rewrite A1. }
    assert (forall v, v <> w -> active st <> Some v -> F v = flags st v) as Hother.
    { intros v Hv Ha. rewrite T4; [|done|by change (active st1 <> Some v); rewrite A1].
      change (flags st1 v = flags st v). by rewrite (fl_flags _ _ _ F1), put_ne. }
    assert (flagged F st st3) as Hst3.
    { split; [apply T1|]. intros v. rewrite (fl_bare _ _ _ T1). apply (fl_bare _ _ _ F1). }
    assert (forall v, is_Some (flags st v) -> is_Some (F v)) as Hsome.
    { intros v Hv. destruct (decide (v = w)) as [->|Hvw]; [by rewrite T2|].
      destruct (decide (active st = Some v)) as [Ha|Ha].
      - destruct (Hold v Hvw Ha) as [d' ->]. eauto.
      - by rewrite Hother. }
    destruct (finish_spec w true st3 false) as (st4 & d' & E4 & F4 & A4 & B4 & C4 & D4 & Hd').
    + by rewrite (fl_flags _ _ _ T1).
    + done.
    + by apply (leads_ok_flagged _ _ _ Hst3); [|apply Hok].
    + done.
    + specialize (Hd' eq_refl) as ->.
      assert (forall v, flags st4 v = F v) as HF4.
      { intros v. rewrite (fl_flags _ _ _ F4). unfold put. case_decide; [by subst|apply T1]. }
      exists st4. split_and!.
      * cbn [Activation.set_active]. rewrite Hc. cbn [mbind option_bind]. rewrite Hcb. cbn [Bool.eqb].
        rewrite E1. cbn [mbind option_bind]. fold st2. cbn [Activation.set_active] in E3.
        rewrite E3. cbn [mbind option_bind]. done.
      * split.
        -- intros v. rewrite B4, T6, HF4. split.
           ++ intros [= <-]. eauto.
           ++ intros [x Hx]. destruct (decide (v = w)) as [->|Hvw]; [done|].
              destruct (decide (active st = Some v)) as [Ha|Ha].
              ** destruct (Hold v Hvw Ha) as [y Hy]. congruence.
              ** rewrite Hother in Hx by done. exfalso. apply Ha, (fo_active _ Hok). eauto.
        -- intros v. rewrite HF4. destruct (decide (v = w)) as [->|Hvw]; [by rewrite T2|].
           destruct (decide (active st = Some v)) as [Ha|Ha].
           ++ destruct (Hold v Hvw Ha) as [y ->]. done.
           ++ rewrite Hother by done. apply Hok.
        -- done.
        -- intros v Hv. rewrite HF4. apply Hsome, (fo_focus _ Hok).
           rewrite C4, T7 in Hv. change (v ∈ should_get_focus (space st1)) in Hv. by rewrite B1 in Hv.
        -- intros v. rewrite D4, T8, HF4. intros [= <-]. rewrite T2. eauto.
        -- apply (leads_ok_flagged _ _ _ F4).
           ++ intros v. apply put_some.
           ++ by apply (leads_ok_flagged _ _ _ Hst3); [|apply Hok].
      * by rewrite B4.
      * rewrite C4, T7. exact B1.
Qed.

(** ** Every operation keeps the invariant *)

(** Flags of which none is lost, none becomes active and none demands attention
    while active. *)
Lemma focus_ok_flagged F st st' o :
  focus_ok st -> flagged F st st' -> active st' = o ->
  (forall v, o = Some v <-> exists d, F v = Some (true, d)) -> (forall v, F v <> Some (true, true)) ->
  (forall v, is_Some (flags st v) -> is_Some (F v)) -> attention_ok st' ->
  (forall v, v ∈ should_get_focus (space st') -> is_Some (F v)) ->
  (forall v, last_active_client st' = Some v -> is_Some (F v)) -> focus_ok st'.
Proof.
  intros Hok HF <- Ha Hc Hs Hat Hg Hl. pose proof (fl_flags _ _ _ HF) as E1. split.
  - intros v. rewrite Ha. by rewrite E1.
  - intros v. rewrite E1. apply Hc.
  - done.
  - intros v Hv. rewrite E1. auto.
  - intros v Hv. rewrite E1. auto.
  - apply (leads_ok_flagged _ _ _ HF Hs), Hok.
Qed.

Lemma deactivate_ok n a st :
  focus_ok st -> active st = Some a ->
  exists st', set_active (S (S n)) a false st = Some st' /\ focus_ok st' /\ active st' = None /\
    should_get_focus (space st') = should_get_focus (space st) /\
    last_active_client st' = last_active_client st.
Proof.
  intros Hok Ha. destruct (fo_flagged _ Hok a Ha) as [d Hf].
  destruct (deactivate_spec n a st d Ha Hf (fo_attention _ Hok) (fo_leads _ Hok))
    as (st' & d' & E1 & F1 & A1 & B1 & C1 & D1).
  exists st'. split_and!; try done. eapply (focus_ok_flagged _ st st'); try done.
  - intros v. split; [intros [=]|]. unfold put. intros [x Hx]. case_decide; [done|].
    exfalso. assert (active st = Some v) by (apply (fo_active _ Hok); eauto). congruence.
  - intros v. unfold put. case_decide; [done|]. apply Hok.
  - intros v. apply put_some.
  - intros v Hv. apply put_some, (fo_focus _ Hok). by rewrite <- C1.
  - intros v Hv. apply put_some, (fo_last _ Hok). by rewrite <- D1.
Qed.

Lemma inactive_ok n w st :
  focus_ok st -> is_Some (flags st w) ->
  exists st', set_active (S (S n)) w false st = Some st' /\ focus_ok st' /\ active st' <> Some w /\
    should_get_focus (space st') = should_get_focus (space st).
Proof.
  intros Hok [[b d] Hf]. destruct b.
  - destruct (deactivate_ok n w st Hok) as (st' & E1 & F1 & A1 & B1 & C1).
    { apply (fo_active _ Hok). eauto. }
    exists st'. split_and!; [done|done|by rewrite A1|done].
  - exists st. rewrite (set_active_same (S n) w false st d Hf). split_and!; try done.
    intros H. apply (fo_active _ Hok) in H as [x H]. congruence.
Qed.

Lemma set_none_ok n st :
  focus_ok st ->
  exists st', setActiveClient E W (S (S n)) None st = Some st' /\ focus_ok st' /\ active st' = None /\
    should_get_focus (space st') = should_get_focus (space st).
Proof.
  intros Hok. unfold setActiveClient, Activation.setActiveClient_rec.
  case_bool_decide as Ha; [by exists st|]. set (st1 := prepare_active None st).
  pose proof (prepare_frame None st : frame st st1) as H1.
  destruct (active st) as [a|] eqn:Hact; [|done]. rewrite (fr_active _ _ H1), Hact.
  destruct (deactivate_ok n a st1) as (st2 & -> & F2 & A2 & B2 & C2);
    [by apply (focus_ok_frame st)|by rewrite (fr_active _ _ H1)|].
  cbn [mbind option_bind]. eexists. split; [done|].
  pose proof (announce_frame (S (S n)) None (set_active_client None st2)) as H3.
  assert (focus_ok (set_active_client None st2)) as Hok3.
  { destruct F2 as [X1 X2 X3 X4 X5 X6]. split; try done.
    - intros v. rewrite A2 in X1. apply X1.
    - by apply (attention_same st2). }
  split_and!; [by apply (focus_ok_frame _ _ H3)|by rewrite (fr_active _ _ H3)|].
  rewrite (fr_focus _ _ H3). change (should_get_focus (space st2) = should_get_focus (space st)).
  rewrite B2. apply H1.
Qed.

Lemma attention_spec w b st :
  focus_ok st -> is_Some (flags st w) ->
  exists st', set_demands_attention w b st = Some st' /\ focus_ok st' /\ active st' = active st /\
    should_get_focus (space st') = should_get_focus (space st) /\
    (active st <> Some w -> exists d, flags st' w = Some (d, b)).
Proof.
  intros Hok [[a d] Hf].
  destruct (set_demands_attention_spec w b st a d Hf (fo_attention _ Hok))
    as (st' & E1 & F1 & A1 & B1 & C1 & D1).
  exists st'. split_and!; try done.
  - eapply (focus_ok_flagged _ st st'); try done.
    + intros v. rewrite (fo_active _ Hok). unfold put. case_decide; [subst|done].
      rewrite Hf. split; intros [x Hx]; simplify_eq; eauto.
    + intros v. unfold put. case_decide; [|apply Hok]. destruct a, b; done.
    + intros v. apply put_some.
    + intros v Hv. apply put_some, (fo_focus _ Hok). by rewrite <- C1.
    + intros v Hv. apply put_some, (fo_last _ Hok). by rewrite <- D1.
  - intros Hne. rewrite (fl_flags _ _ _ F1), put_eq. exists a.
    destruct a; [|by rewrite andb_true_r]. exfalso. apply Hne, (fo_active _ Hok). eauto.
Qed.

(** Changing the list of windows that should get the focus. *)
Lemma focus_list_ok l st :
  focus_ok st -> (forall v, v ∈ l -> is_Some (flags st v)) -> focus_ok (set_should_get_focus l st).
Proof.
  intros [A B C D F G] Hl. split; try done. by apply (attention_same st).
Qed.

Lemma drop_through_elem w l v : v ∈ drop_through w l -> v ∈ l.
Proof.
  induction l as [|x l IH]; [done|]. simpl. destruct (x =? w)%nat; [by right|].
  intros Hv. right. auto.
Qed.

Lemma gotFocusIn_ok w st : focus_ok st -> focus_ok (gotFocusIn w st) /\ active (gotFocusIn w st) = active st.
Proof.
  intros Hok. unfold gotFocusIn. destruct (Prelude.contains _ _); [|done]. split; [|done].
  apply focus_list_ok; [done|]. intros v Hv%drop_through_elem. by apply (fo_focus _ Hok).
Qed.

Lemma restore_frame st : frame st (restoreFocus st).
Proof. unfold restoreFocus. repeat case_match; done. Qed.

(** *** Focus events *)

Section Decision.
Context (compare : Z -> Z -> Z).

(** The decision is total. *)
Lemma allow_total w time focus_in ignore st :
  focus_ok st -> is_Some (flags st w) ->
  exists b, allowClientActivation compare E W w time focus_in ignore st = Some b.
Proof.
  intros Hok Hw. unfold allowClientActivation. apply flags_control in Hw as [c ->].
  cbn [mbind option_bind]. do 2 (case_match; [by eexists|]).
  set (ac := if focus_in then last_active_client st else mostRecentlyActivated st).
  assert (forall a, ac = Some a -> is_Some (control (windows st a))) as Hac.
  { intros a Ha. apply flags_control. unfold ac, mostRecentlyActivated, mostRecentlyActivatedClient in Ha.
    destruct focus_in; [by apply (fo_last _ Hok)|].
    destruct (last (should_get_focus (space st))) as [v|] eqn:Hl.
    - injection Ha as ->. apply (fo_focus _ Hok). apply last_Some in Hl as [l' ->]. set_solver.
    - destruct (fo_flagged _ Hok a Ha) as [d ->]. eauto. }
  case_match; [by eexists|].
  destruct ac as [a|]; [|by eexists]. destruct (Hac a eq_refl) as [ca ->]. by eexists.
Qed.

(** What a focus event of a window that is shown does, on both branches. *)
Lemma focus_in_spec n w st :
  focus_ok st -> is_Some (flags st w) -> isShown (windows st w) = true ->
  on_current_desktop E (windows st w) = true ->
  exists allowed st', allowClientActivation compare E W w NO_TIME true false st = Some allowed /\
    focus_in_event compare E W (S (S (S n))) w st = Some st' /\ focus_ok st' /\
    should_get_focus (space st') = should_get_focus (space (gotFocusIn w st)) /\
    (if allowed : bool then active st' = Some w
     else active st' = active st /\ (active st <> Some w -> exists d, flags st' w = Some (d, true))).
Proof.
  intros Hok Hw Hs Hd. unfold focus_in_event. rewrite Hs, Hd. cbn [negb orb].
  set (st1 := st <| focus_out := [] |>).
  assert (focus_ok st1) as Hok1 by (by apply (focus_ok_frame st)).
  destruct (allow_total w NO_TIME true false st1 Hok1 Hw) as [b Hb]. rewrite Hb. cbn [mbind option_bind].
  exists b. destruct (gotFocusIn_ok w st1 Hok1) as [Hok2 Ha2].
  assert (forall v, flags (gotFocusIn w st1) v = flags st v) as Hf2.
  { intros v. unfold gotFocusIn. by destruct (Prelude.contains _ _). }
  assert (should_get_focus (space (gotFocusIn w st1)) = should_get_focus (space (gotFocusIn w st))) as Hg.
  { unfold gotFocusIn. change (should_get_focus (space st1)) with (should_get_focus (space st)).
    by destruct (Prelude.contains _ _). }
  destruct b.
  - destruct (activate_spec n w (gotFocusIn w st1) Hok2) as (st' & E' & Hok' & A' & G').
    { by rewrite Hf2. }
    exists st'. split_and!; try done. by rewrite G'.
  - pose proof (restore_frame (gotFocusIn w st1)) as HF.
    destruct (attention_spec w true (restoreFocus (gotFocusIn w st1))) as (st' & E' & Hok' & A' & G' & D').
    { by apply (focus_ok_frame _ _ HF). }
    { by rewrite (frame_flags _ _ _ HF), Hf2. }
    rewrite (fr_active _ _ HF), Ha2 in A', D'. exists st'. split_and!; try done.
    by rewrite G', (fr_focus _ _ HF).
Qed.

Lemma activateNextClient_ok n window st :
  focus_ok st ->
  exists st' b, activateNextClient E W (S (S n)) window st = Some (st', b) /\ focus_ok st'.
Proof.
  intros Hok. unfold activateNextClient. case_match; [by eexists _, _|].
  set (st1 := closeActivePopup st).
  assert (focus_ok st1) as Hok1 by (apply (focus_ok_frame st); [apply close_frame|done]).
  assert (exists st2, match window with
     | Some w => st' ← (if bool_decide (window = active st1) then setActiveClient E W (S (S n)) None st1
                        else Some st1);
                 Some (set_should_get_focus (remove_all w (should_get_focus (space st'))) st')
     | None => Some st1 end = Some st2 /\ focus_ok st2) as (st2 & -> & Hok2).
  { destruct window as [w|]; [|by exists st1].
    assert (exists st', (if bool_decide (Some w = active st1) then setActiveClient E W (S (S n)) None st1
              else Some st1) = Some st' /\ focus_ok st') as (st' & -> & Hok').
    { destruct (bool_decide (Some w = active st1)); [|by exists st1]. destruct (set_none_ok n st1 Hok1) as (st' & ? & ? & _).
      by exists st'. }
    cbn [mbind option_bind]. eexists. split; [done|]. apply focus_list_ok; [done|].
    intros v Hv. apply elem_of_remove_all in Hv as [Hv _]. by apply (fo_focus _ Hok'). }
  cbn [mbind option_bind]. case_match.
  { eexists _, _. split; [done|]. by apply (focus_ok_frame _ _ (null_frame W st2)). }
  case_match; [by eexists _, _|].
  match goal with |- context [let '(g, st3) := ?p in _] => assert (frame st2 p.2) as HF; [|destruct p as [g st3]] end.
  { repeat case_match; done. }
  eexists _, _. split; [done|]. apply (focus_ok_frame st2); [|done].
  etransitivity; [exact HF|]. cbn [snd]. case_match; [done|apply null_frame].
Qed.
End Decision.

(** *** Levels *)

(** The decision for a higher level and protection implies that for lower ones. *)
Lemma allow_monotone compare level level' p p' ac st w time ignore :
  0 <= level <= level' -> level' <= 4 -> 0 <= p <= p' -> p' <= 4 ->
  allow_activation compare E W level' p' ac st w time ignore = true ->
  allow_activation compare E W level p ac st w time ignore = true.
Proof.
  intros Hl Hl' Hp Hp'. unfold allow_activation, FSP_None, FSP_Low, FSP_Medium, FSP_High, FSP_Extreme.
  destruct (Z.eqb_spec level 0), (Z.eqb_spec p 0); try done. cbn [orb].
  rewrite (proj2 (Z.eqb_neq level' 0)), (proj2 (Z.eqb_neq p' 0)) by lia. cbn [orb].
  destruct (Z.eqb_spec level' 4), (Z.eqb_spec p' 4); try done. cbn [orb].
  rewrite (proj2 (Z.eqb_neq level 4)), (proj2 (Z.eqb_neq p 4)) by lia. cbn [orb].
  destruct (negb ignore && _); [done|]. destruct ac as [a|]; [|done].
  destruct (is_desktop (windows st a)); [done|].
  destruct (same_application W w a); cbn [andb].
  - destruct (Z.ltb_spec p 3); [done|]. rewrite (proj2 (Z.ltb_ge p' 3)) by lia.
    destruct (negb (on_current_desktop _ _)); [done|].
    destruct (Z.ltb_spec 2 level), (Z.ltb_spec 2 level'), (Z.ltb_spec 1 p), (Z.ltb_spec 1 p');
      try lia; cbn [andb]; try done.
    destruct (time =? NO_TIME); [|done].
    destruct (Z.ltb_spec level 2), (Z.ltb_spec level' 2); try lia; done.
  - destruct (negb (on_current_desktop _ _)); [done|].
    destruct (Z.ltb_spec 2 level), (Z.ltb_spec 2 level'), (Z.ltb_spec 1 p), (Z.ltb_spec 1 p');
      try lia; cbn [andb]; try done;
      destruct (time =? NO_TIME); try done;
      destruct (Z.ltb_spec level 2), (Z.ltb_spec level' 2), (Z.ltb_spec p 3), (Z.ltb_spec p' 3);
      try lia; done.
Qed.

(** ** Sequences of events *)

Inductive FocusEvent :=
  | FocusIn w             (** the X server reports that a window got the focus *)
  | FocusOut w            (** or lost it *)
  | FocusOutTimeout w
  | TakeFocus w           (** the program gives a window the focus *)
  | Hidden w
  | Attention w (demand : bool)
  | NewDesktop (d : Z)
  | NoFocus               (** nothing is to be active *)
  | Removed w.            (** a window that is not active goes away *)

(** activateClient(nullptr). *)
Definition activate_nothing n st : option State :=
  setActiveClient E W n None (null_focus W st).

(** A window is forgotten and its control destroyed. *)
Definition remove_window w st : State :=
  let st1 := forget w st in
  st1 <| space := (space st1) <| wins := modify w (fun x => x <| control := None |>) (wins (space st1)) |> |>.

Definition apply_event (compare : Z -> Z -> Z) n (e : FocusEvent) st : option State :=
  match e with
  | FocusIn w => focus_in_event compare E W n w st
  | FocusOut w => Some (focus_out_event w st)
  | FocusOutTimeout w => focus_out_timeout E W n w st
  | TakeFocus w => takeFocus E W n w st
  | Hidden w => clientHidden E W n w st
  | Attention w b => set_demands_attention w b st
  | NewDesktop d => activateClientOnNewDesktop E W n d st
  | NoFocus => activate_nothing n st
  | Removed w => Some (remove_window w st)
  end.

(** The windows of an event are managed; a window goes away when it is not active
    and leads nobody. *)
Definition event_ok (e : FocusEvent) st : Prop :=
  match e with
  | FocusIn w | FocusOutTimeout w | TakeFocus w | Attention w _ => is_Some (flags st w)
  | Removed w => active st <> Some w /\ forall v, w ∉ leads (windows st v)
  | _ => True
  end.

Lemma takeFocus_ok n w st :
  focus_ok st -> is_Some (flags st w) ->
  exists st', takeFocus E W (S (S (S n))) w st = Some st' /\ focus_ok st'.
Proof.
  intros Hok Hw. unfold takeFocus. destruct (isInternal (windows st w)); [by exists st|].
  pose proof Hw as [c Hc]%flags_control. rewrite Hc. cbn [mbind option_bind].
  destruct (is_x11 (windows st w)).
  - assert (exists st1, (if checkAcceptFocus W w (accepts_input W w) then Some (ask (focusWindow w) st)
        else set_demands_attention w false st) = Some st1 /\ focus_ok st1 /\ is_Some (flags st1 w))
      as (st1 & -> & Hok1 & Hw1).
    { destruct (checkAcceptFocus W w (accepts_input W w)).
      - eexists. split; [done|]. split; [by apply (focus_ok_frame st)|done].
      - destruct Hw as [[a d] Hf].
        destruct (set_demands_attention_spec w false st a d Hf (fo_attention _ Hok)) as (st' & E' & F' & _).
        destruct (attention_spec w false st Hok) as (st2 & E2 & Hok2 & _); [eauto|].
        exists st2. rewrite E2 in E'. injection E' as ->. split_and!; [done..|].
        rewrite (fl_flags _ _ _ F'), put_eq. eauto. }
    cbn [mbind option_bind]. eexists. split; [done|].
    set (st2 := if supports_take_focus W w then _ else st1).
    assert (frame st1 st2) as HF by (unfold st2; by destruct (supports_take_focus W w)).
    assert (focus_ok (setShouldGetFocus w st2)) as Hok2.
    { apply (focus_ok_frame (set_should_get_focus (should_get_focus (space st2) ++ [w]) st2)); [done|].
      apply focus_list_ok; [by apply (focus_ok_frame st1)|].
      intros v [Hv| ->%list_elem_of_singleton]%elem_of_app.
      - apply (fo_focus _ (focus_ok_frame _ _ HF Hok1)), Hv.
      - by rewrite (frame_flags _ _ _ HF). }
    case_match; [|done]. by apply (focus_ok_frame (setShouldGetFocus w st2)).
  - assert (exists st1, (if checkAcceptFocus W w (wantsInput (windows st w))
        then set_active (S (S (S n))) w true (ask (pingFocus w) st) else Some st) = Some st1 /\ focus_ok st1)
      as (st1 & -> & Hok1).
    { destruct (checkAcceptFocus W w (wantsInput (windows st w))); [|by exists st].
      destruct (activate_spec n w (ask (pingFocus w) st)) as (st1 & E1 & Hok1 & _);
        [by apply (focus_ok_frame st)|done|]. by exists st1. }
    cbn [mbind option_bind]. eexists. split; [done|].
    case_match; [|done]. by apply (focus_ok_frame st1).
Qed.

Lemma new_desktop_ok n d st :
  focus_ok st -> exists st', activateClientOnNewDesktop E W (S (S n)) d st = Some st' /\ focus_ok st'.
Proof.
  intros Hok. unfold activateClientOnNewDesktop.
  match goal with |- context [bool_decide (?o = active st)] => set (c := o) end.
  assert (exists st1, (if bool_decide (c = active st) then Some st
      else setActiveClient E W (S (S n)) None st) = Some st1 /\ focus_ok st1) as (st1 & -> & Hok1).
  { case_bool_decide; [by exists st|]. destruct (set_none_ok n st Hok) as (st1 & ? & ? & _). by exists st1. }
  cbn [mbind option_bind]. eexists. split; [done|]. apply (focus_ok_frame st1); [|done].
  destruct c; [done|]. case_match; [done|apply null_frame].
Qed.

Lemma forgotten_ok w st :
  focus_ok st -> active st <> Some w -> (forall v, w ∉ leads (windows st v)) -> focus_ok (remove_window w st).
Proof.
  intros Hok Hne Hlead. unfold remove_window. set (st1 := forget w st). set (st2 := st1 <| space := _ |>).
  assert (windows st1 = windows st /\ active st1 = active st /\
    should_get_focus (space st1) = remove_all w (should_get_focus (space st)) /\
    attention_chain st1 = remove_all w (attention_chain st) /\
    last_active_client st1 <> Some w /\
    (forall v, last_active_client st1 = Some v -> last_active_client st = Some v))
    as (W1 & A1 & G1 & C1 & L1 & L2).
  { unfold st1, forget. case_bool_decide; by split_and!. }
  assert (forall v, flags st2 v = if decide (v = w) then None else flags st v) as Hf.
  { intros v. unfold flags, windows, st2. simpl. unfold modify. rewrite set_win_lookup.
    repeat case_decide; subst; try done. change (wins (space st1)) with (windows st1). by rewrite W1. }
  assert (forall v l, l ∈ leads (windows st2 v) -> l ∈ leads (windows st v)) as Hl.
  { intros v l. unfold windows, st2. simpl. unfold modify. rewrite set_win_lookup.
    change (wins (space st1)) with (windows st1). rewrite W1. case_decide; [subst|]; done. }
  assert (forall v, remnant (windows st2 v) = remnant (windows st v)) as Hr.
  { intros v. unfold windows, st2. simpl. unfold modify. rewrite set_win_lookup.
    change (wins (space st1)) with (windows st1). rewrite W1. case_decide; [subst|]; done. }
  destruct Hok as [X1 X2 X3 X4 X5 X6]. split.
  - intros v. change (active st1 = Some v <-> exists d, flags st2 v = Some (true, d)). rewrite A1, Hf.
    case_decide as Hv; [subst v|apply X1]. split; [done|]. by intros [? ?].
  - intros v. rewrite Hf. case_decide; [done|apply X2].
  - destruct X3 as [Y1 Y2]. split; change (attention_chain st2) with (attention_chain st1); rewrite C1.
    + by apply NoDup_remove_all.
    + intros v. rewrite elem_of_remove_all, Y2, Hf. case_decide as Hv; [subst v|tauto].
      split; [by intros [_ ?]|by intros [? ?]].
  - intros v. change (should_get_focus (space st2)) with (should_get_focus (space st1)).
    rewrite G1, elem_of_remove_all, Hf. intros [Hv Hvw]. rewrite decide_False by done. auto.
  - intros v Hv. change (last_active_client st1 = Some v) in Hv. rewrite Hf.
    case_decide; [congruence|]. auto.
  - intros v l Hvl. apply Hl in Hvl. rewrite Hr, Hf. case_decide; [subst; by apply Hlead in Hvl|].
    by apply (X6 v).
Qed.

Lemma event_keeps compare n e st :
  focus_ok st -> event_ok e st ->
  exists st', apply_event compare (S (S (S n))) e st = Some st' /\ focus_ok st'.
Proof.
  intros Hok He. destruct e as [w|w|w|w|w|w b|d| |w]; simpl in He |- *.
  - unfold focus_in_event. destruct (isShown (windows st w)) eqn:Hs, (on_current_desktop E (windows st w)) eqn:Hd;
      try (exists st; done).
    destruct (focus_in_spec compare n w st Hok He Hs Hd) as (b & st' & _ & E' & Hok' & _).
    unfold focus_in_event in E'. rewrite Hs, Hd in E'. by exists st'.
  - eexists. split; [done|]. by apply (focus_ok_frame st).
  - destruct (inactive_ok (S n) w (st <| focus_out := remove_all w (focus_out st) |>)) as (st' & E' & Hok' & _);
      [by apply (focus_ok_frame st)|done|]. by exists st'.
  - by apply takeFocus_ok.
  - destruct (activateNextClient_ok (S n) (Some w) st Hok) as (st' & b & E' & Hok').
    exists st'. unfold clientHidden. rewrite E'. done.
  - destruct (attention_spec w b st Hok He) as (st' & E' & Hok' & _). by exists st'.
  - by apply new_desktop_ok.
  - destruct (set_none_ok (S n) (null_focus W st)) as (st' & E' & Hok' & _); [|by exists st'].
    by apply (focus_ok_frame _ _ (null_frame W st)).
  - eexists. split; [done|]. destruct He. by apply forgotten_ok.
Qed.
End Active.

(** ** Properties *)

(** A run of events, each with the environment it happens in. *)
Fixpoint run (compare : Z -> Z -> Z) n (es : list (Env * World * FocusEvent)) st : option State :=
  match es with
  | [] => Some st
  | (E, W, e) :: es' => st1 ← apply_event E W compare n e st; run compare n es' st1
  end.

Fixpoint events_ok (compare : Z -> Z -> Z) n (es : list (Env * World * FocusEvent)) st : Prop :=
  match es with
  | [] => True
  | (E, W, e) :: es' => event_ok e st /\
      forall st1, apply_event E W compare n e st = Some st1 -> events_ok compare n es' st1
  end.

(** C4: whatever focus events come in whatever order, every one is handled, the
    active client is exactly the window whose control is active, it does not
    demand attention, and the chain of attention lists the windows that do, once
    each. *)
Theorem one_active_window compare n es st :
  (3 <= n)%nat -> focus_ok st -> events_ok compare n es st ->
  exists st', run compare n es st = Some st' /\ focus_ok st' /\
    (forall v c, control (windows st' v) = Some c -> Toplevel.active c = true <-> active st' = Some v) /\
    (forall v, v ∈ attention_chain st' <->
       exists c, control (windows st' v) = Some c /\ demands_attention c = true) /\
    NoDup (attention_chain st').
Proof.
  intros Hn. destruct n as [|[|[|n]]]; try lia. clear Hn.
  revert st. induction es as [|[[E W] e] es IH]; intros st Hok Hes.
  - exists st. pose proof Hok as [A _ [N C] _ _ _]. split_and!; try done.
    + intros v c Hc. rewrite A. unfold flags. rewrite Hc. simpl.
      split; [intros ->; eauto|by intros [d [= -> _]]].
    + intros v. rewrite C. unfold flags. destruct (control (windows st v)) as [c|]; simpl.
      * split; [intros [a [= _ Hd]]; by exists c|]. intros (c' & [= <-] & Hd). rewrite Hd. eauto.
      * split; [by intros [? ?]|by intros (? & ? & _)].
  - destruct Hes as [He Hes].
    destruct (event_keeps E W compare n e st Hok He) as (st1 & E1 & Hok1).
    cbn [run]. rewrite E1. cbn [mbind option_bind]. by apply IH, Hes.
Qed.

(** C16: a window that the program gave the focus becomes the active one when the
    focus arrives, whatever the focus stealing prevention says, and the program no
    longer waits for it nor for those that were given the focus before it. *)
Theorem own_focus_accepted compare E W n w st before after :
  (3 <= n)%nat -> focus_ok st -> should_get_focus (space st) = before ++ w :: after -> w ∉ before ->
  isShown (windows st w) = true -> on_current_desktop E (windows st w) = true ->
  exists st', focus_in_event compare E W n w st = Some st' /\ focus_ok st' /\
    active st' = Some w /\ should_get_focus (space st') = after.
Proof.
  intros Hn Hok Hg Hb Hs Hd. destruct n as [|[|[|n]]]; try lia.
  assert (w ∈ should_get_focus (space st)) as Hw by (rewrite Hg; set_solver).
  assert (is_Some (flags st w)) as Hfl by (by apply (fo_focus _ Hok)).
  destruct (focus_in_spec E W compare n w st Hok Hfl Hs Hd) as (b & st' & Hb' & E' & Hok' & G' & A').
  assert (b = true) as ->.
  { unfold allowClientActivation in Hb'. apply flags_control in Hfl as [c Hc]. rewrite Hc in Hb'.
    cbn [mbind option_bind] in Hb'. rewrite (proj2 (contains_true _ _) Hw) in Hb'.
    destruct (saving_session W && _); by injection Hb' as <-. }
  exists st'. split_and!; try done. rewrite G'. unfold gotFocusIn.
  rewrite (proj2 (contains_true _ _) Hw). simpl. rewrite Hg. clear -Hb.
  induction before as [|x before IH]; simpl; [by rewrite Nat.eqb_refl|].
  apply not_elem_of_cons in Hb as [Hne Hb]. rewrite (proj2 (Nat.eqb_neq _ _)) by auto. auto.
Qed.

(** Focus stealing prevention is monotone: what a higher level, or a higher
    protection of the active window, lets become active, a lower one does too. *)
Theorem stealing_prevention_monotone compare E W FSP FPP w time focus_in ignore st :
  let W' := W <| checkFSP := FSP |> <| checkFPP := FPP |> in
  (forall v, 0 <= checkFSP W v <= FSP v /\ FSP v <= FSP_Extreme) ->
  (forall v, 0 <= checkFPP W v 2 <= FPP v 2 /\ FPP v 2 <= FSP_Extreme) ->
  allowClientActivation compare E W' w time focus_in ignore st = Some true ->
  allowClientActivation compare E W w time focus_in ignore st = Some true.
Proof.
  intros W' HL HP. unfold allowClientActivation. destruct (control (windows st w)); [|done].
  cbn [mbind option_bind].
  change (checkFSP W' w) with (FSP w). change (saving_session W') with (saving_session W).
  change (checkAcceptFocus W') with (checkAcceptFocus W). change (userTime compare W') with (userTime compare W).
  change (checkFPP W') with FPP.
  set (ac := if focus_in then last_active_client st else mostRecentlyActivated st).
  set (t := if time =? NO_TIME then userTime compare W st w else time).
  pose proof (HL w) as [Hl1 Hl2]. unfold FSP_Extreme, FSP_Medium in *.
  destruct (saving_session W && (checkFSP W w <=? 2)) eqn:Es; [done|].
  assert (saving_session W && (FSP w <=? 2) = false) as ->.
  { destruct (saving_session W); [|done]. cbn [andb] in *. zify_bools. lia. }
  destruct (focus_in && _); [done|]. destruct ((t =? 0) && _); [done|].
  assert (forall p p', 0 <= p <= p' -> p' <= 4 ->
    Some (allow_activation compare E W' (FSP w) p' ac st w t ignore) = Some true ->
    Some (allow_activation compare E W (checkFSP W w) p ac st w t ignore) = Some true) as Hmono.
  { intros p p' Hp Hp' [= Ha]. f_equal.
    apply (allow_monotone E W compare (checkFSP W w) (FSP w) p p'); [lia..|exact Ha]. }
  destruct ac as [a|]; [|cbn [mbind option_bind]; apply Hmono; lia].
  destruct (control (windows st a)); [|done]. cbn [mbind option_bind]. apply Hmono; apply HP.
Qed.

(** ** Sample data

    Three windows; the first is active and the second was just given the focus. *)

Definition sample_windows : Heap := fun v =>
  match v with
  | 1%nat => plain_window <| control := Some (plain_control <| Toplevel.active := true |>) |>
  | 2%nat | 3%nat => plain_window
  | _ => plain_window <| control := None |>
  end.
Definition sample_state : State :=
  mkState (mkSpace sample_windows [1; 2; 3]%nat [1; 2; 3]%nat false 0 false None (Some 1%nat) [3; 2]%nat
             (FocusChain.resize 0 4 FocusChain.initial) [])
    (Some 1%nat) [] 0 None None false 0 [] [].
(** Time stamps without wrap around. *)
Definition compare_times (a b : Z) : Z := Z.sgn (a - b).
Definition sample_world : World :=
  mkWorld 1 [1; 2; 3]%nat true false true (fun _ => []) true true (mkPoint 0 0) None false
    (fun a b => bool_decide (a = b)) (fun w => if decide (w = 2)%nat then 50 else 100) (fun _ => NO_TIME)
    (fun _ => false) (fun _ => true) (fun _ => false) (fun _ b => b) (fun _ => 2) (fun _ p => p)
    (fun _ => false).

Lemma sample_focus_ok : focus_ok sample_state.
Proof.
  split.
  - intros v. destruct v as [|[|[|[|v]]]]; simpl; split; try done; try (by intros [? ?]); by exists false.
  - intros v. by destruct v as [|[|[|[|v]]]].
  - split; [apply NoDup_nil_2|]. intros v.
    destruct v as [|[|[|[|v]]]]; simpl; (split; [intros H; by apply elem_of_nil in H|by intros [? ?]]).
  - intros v Hv. simpl in Hv. apply elem_of_cons in Hv as [->|Hv]; [by eexists|].
    apply list_elem_of_singleton in Hv as ->. by eexists.
  - intros v [= <-]. by eexists.
  - intros v l Hl. destruct v as [|[|[|[|v]]]]; by apply elem_of_nil in Hl.
Defined.

Lemma one_active_window_witness :
  exists st', run compare_times 3
    [(plain_env, sample_world, FocusIn 2%nat); (plain_env, sample_world, FocusIn 3%nat);
     (plain_env, sample_world, Removed 3%nat)] sample_state = Some st' /\
    NoDup (attention_chain st').
Proof.
  destruct (one_active_window compare_times 3
    [(plain_env, sample_world, FocusIn 2%nat); (plain_env, sample_world, FocusIn 3%nat);
     (plain_env, sample_world, Removed 3%nat)] sample_state) as (st' & E1 & _ & _ & _ & H).
  - lia.
  - exact sample_focus_ok.
  - split; [by eexists|]. intros st1 E1. vm_compute in E1. injection E1 as <-.
    split; [by eexists|]. intros st2 E2. vm_compute in E2. injection E2 as <-.
    split; [|done]. split; [done|]. intros v Hv. vm_compute in Hv.
    destruct v as [|[|[|[|v]]]]; by apply elem_of_nil in Hv.
  - exists st'. split; [exact E1|exact H].
Defined.

Lemma own_focus_accepted_witness :
  exists st', focus_in_event compare_times plain_env sample_world 3 2%nat sample_state = Some st' /\
    active st' = Some 2%nat /\ should_get_focus (space st') = [].
Proof.
  destruct (own_focus_accepted compare_times plain_env sample_world 3 2%nat sample_state [3%nat] [])
    as (st' & E1 & _ & A & G).
  - lia.
  - exact sample_focus_ok.
  - done.
  - set_solver.
  - done.
  - done.
  - exists st'. split; [exact E1|]. split; [exact A|exact G].
Defined.

(** With the rule for the protection of the active window at level low. *)
Definition lenient_world : World :=
  sample_world <| own_user_time := fun _ => 100 |> <| checkFPP := fun _ _ => 1 |>.

Lemma stealing_prevention_monotone_witness :
  allowClientActivation compare_times plain_env lenient_world 3%nat 100 false false sample_state = Some true.
Proof.
  apply (stealing_prevention_monotone compare_times plain_env lenient_world
    (fun _ => 3) (fun _ _ => 1) 3%nat 100 false false sample_state).
  - intros v. split; [split|]; vm_compute; congruence.
  - intros v. split; [split|]; vm_compute; congruence.
  - by vm_compute.
Defined.
End ActivationProps.
