(* ===== verification/NightColor.v ===== *)
(** * The colour temperature of the screens (src/colorcorrection/)

    [Manager] lowers the colour temperature in the evening and raises it in the
    morning: the timers, the schedule (from fixed times or from the position of the
    sun), inhibitors, the configuration, and the clients of the D-Bus interface that
    inhibit it.

    A date and time is the number of milliseconds of the local clock since 1970,
    without changes of the time zone; a time of the day the number of milliseconds
    since midnight. Floating point numbers are those of [Doubles]; the functions of
    the C mathematics library are parameters. The outputs accept or refuse a gamma
    ramp. *)

From S2P Require Import Prelude Doubles.

Module NightColor.
Import Doubles.

(** ** Constants (constants.h) *)

Definition MSC_DAY : Z := 86400000.
Definition MIN_TEMPERATURE : Z := 1000.
Definition NEUTRAL_TEMPERATURE : Z := 6500.
Definition DEFAULT_NIGHT_TEMPERATURE : Z := 4500.
Definition FALLBACK_SLOW_UPDATE_TIME : Z := 1800000.
Definition QUICK_ADJUST_DURATION : Z := 2000.
Definition TEMPERATURE_STEP : Z := 50.

(** White points for temperatures at intervals of 100 K from 1000 K, in units of
    [10 ^ -8]. *)
Definition blackbodyColor : list Z := [
  100000000; 18172716; 0; 100000000; 25503671; 0;
  100000000; 30942099; 0; 100000000; 35357379; 0;
  100000000; 39091524; 0; 100000000; 42322816; 0;
  100000000; 45159884; 0; 100000000; 47675916; 0;
  100000000; 49923747; 0; 100000000; 51943421; 0;
  100000000; 54360078; 8679949; 100000000; 56618736; 14065513;
  100000000; 58734976; 18362641; 100000000; 60724493; 22137978;
  100000000; 62600248; 25591950; 100000000; 64373109; 28819679;
  100000000; 66052319; 31873863; 100000000; 67645822; 34786758;
  100000000; 69160518; 37579588; 100000000; 70602449; 40267128;
  100000000; 71976951; 42860152; 100000000; 73288760; 45366838;
  100000000; 74542112; 47793608; 100000000; 75740814; 50145662;
  100000000; 76888303; 52427322; 100000000; 77987699; 54642268;
  100000000; 79041843; 56793692; 100000000; 80053332; 58884417;
  100000000; 81024551; 60916971; 100000000; 81957693; 62893653;
  100000000; 82854786; 64816570; 100000000; 83717703; 66687674;
  100000000; 84548188; 68508786; 100000000; 85347859; 70281616;
  100000000; 86118227; 72007777; 100000000; 86860704; 73688797;
  100000000; 87576611; 75326132; 100000000; 88267187; 76921169;
  100000000; 88933596; 78475236; 100000000; 89576933; 79989606;
  100000000; 90198230; 81465502; 100000000; 90963069; 82838210;
  100000000; 91710889; 84190889; 100000000; 92441842; 85523742;
  100000000; 93156127; 86836903; 100000000; 93853986; 88130458;
  100000000; 94535695; 89404470; 100000000; 95201559; 90658983;
  100000000; 95851906; 91894041; 100000000; 96487079; 93109690;
  100000000; 97107439; 94305985; 100000000; 97713351; 95482993;
  100000000; 98305189; 96640795; 100000000; 98883326; 97779486;
  100000000; 99448139; 98899179; 100000000; 100000000; 100000000;
  98947904; 99348723; 100000000; 97940448; 98722715; 100000000;
  96975025; 98120637; 100000000; 96049223; 97541240; 100000000;
  95160805; 96983355; 100000000; 94303638; 96443333; 100000000;
  93480451; 95923080; 100000000; 92689056; 95421394; 100000000;
  91927697; 94937330; 100000000; 91194747; 94470005; 100000000;
  90488690; 94018594; 100000000; 89808115; 93582323; 100000000;
  89151710; 93160469; 100000000; 88518247; 92752354; 100000000;
  87906581; 92357340; 100000000; 87315640; 91974827; 100000000;
  86744421; 91604254; 100000000; 86191983; 91245088; 100000000;
  85657444; 90896831; 100000000; 85139976; 90559011; 100000000;
  84638799; 90231183; 100000000; 84153180; 89912926; 100000000;
  83682430; 89603843; 100000000; 83225897; 89303558; 100000000;
  82782969; 89011714; 100000000; 82353066; 88727974; 100000000;
  81935641; 88452017; 100000000; 81530175; 88183541; 100000000;
  81136180; 87922257; 100000000; 80753191; 87667891; 100000000;
  80380769; 87420182; 100000000; 80018497; 87178882; 100000000;
  79665980; 86943756; 100000000; 79322843; 86714579; 100000000;
  78988728; 86491137; 100000000; 78663296; 86273225; 100000000;
  78346225; 86060650; 100000000; 78037207; 85853224; 100000000;
  77735950; 85650771; 100000000; 77442176; 85453121; 100000000;
  77155617; 85260112; 100000000; 76876022; 85071588; 100000000;
  76603147; 84887402; 100000000; 76336762; 84707411; 100000000;
  76076645; 84531479; 100000000; 75822586; 84359476; 100000000;
  75574383; 84191277; 100000000; 75331843; 84026762; 100000000;
  75094780; 83865816; 100000000; 74863017; 83708329; 100000000;
  74636386; 83554194; 100000000; 74414722; 83403311; 100000000;
  74197871; 83255582; 100000000; 73985682; 83110912; 100000000;
  73778012; 82969211; 100000000; 73574723; 82830393; 100000000;
  73375683; 82694373; 100000000; 73180765; 82561071; 100000000;
  72989845; 82430410; 100000000; 72802807; 82302316; 100000000;
  72619537; 82176715; 100000000; 72439927; 82053539; 100000000;
  72263872; 81932722; 100000000; 72091270; 81814197; 100000000;
  71922025; 81697905; 100000000; 71756043; 81583783; 100000000;
  71593234; 81471775; 100000000; 71433510; 81361825; 100000000;
  71276788; 81253878; 100000000; 71122987; 81147883; 100000000;
  70972029; 81043789; 100000000; 70823838; 80941546; 100000000;
  70678342; 80841109; 100000000; 70535469; 80742432; 100000000;
  70395153; 80645469; 100000000; 70257327; 80550180; 100000000;
  70121928; 80456522; 100000000; 69988894; 80364455; 100000000;
  69858167; 80273941; 100000000; 69729688; 80184943; 100000000;
  69603402; 80097423; 100000000; 69479255; 80011347; 100000000;
  69357196; 79926681; 100000000; 69237173; 79843391; 100000000;
  69119138; 79761446; 100000000; 69003044; 79680814; 100000000;
  68888844; 79601466; 100000000; 68776494; 79523371; 100000000;
  68665951; 79446502; 100000000; 68557173; 79370830; 100000000;
  68450119; 79296330; 100000000; 68344751; 79222975; 100000000;
  68241029; 79150740; 100000000; 68138918; 79079600; 100000000;
  68038380; 79009531; 100000000; 67939381; 78940511; 100000000;
  67841888; 78872517; 100000000; 67745866; 78805526; 100000000;
  67651284; 78739518; 100000000; 67558112; 78674472; 100000000;
  67466317; 78610368; 100000000; 67375872; 78547186; 100000000;
  67286748; 78484907; 100000000; 67198916; 78423512; 100000000;
  67112350; 78362984; 100000000; 67027024; 78303305; 100000000;
  66942911; 78244457; 100000000; 66859988; 78186425; 100000000;
  66778228; 78129191; 100000000; 66697610; 78072740; 100000000;
  66618110; 78017057; 100000000; 66539706; 77962127; 100000000;
  66462376; 77907934; 100000000; 66386098; 77854465; 100000000;
  66310852; 77801705; 100000000; 66236618; 77749642; 100000000;
  66163375; 77698261; 100000000; 66091106; 77647551; 100000000;
  66019791; 77597498; 100000000; 65949412; 77548090; 100000000;
  65879952; 77499315; 100000000; 65811392; 77451161; 100000000;
  65743716; 77403618; 100000000; 65676908; 77356673; 100000000;
  65610952; 77310316; 100000000; 65545831; 77264537; 100000000;
  65481530; 77219324; 100000000; 65418036; 77174669; 100000000;
  65355332; 77130560; 100000000; 65293404; 77086988; 100000000;
  65232240; 77043944; 100000000; 65171824; 77001419; 100000000;
  65112144; 76959404; 100000000; 65053187; 76917889; 100000000;
  64994941; 76876866; 100000000; 64937392; 76836326; 100000000;
  64880528; 76796263; 100000000; 64824339; 76756666; 100000000;
  64768812; 76717529; 100000000; 64713935; 76678844; 100000000;
  64659699; 76640603; 100000000; 64606092; 76602798; 100000000;
  64553103; 76565424; 100000000; 64500722; 76528472; 100000000;
  64448939; 76491935; 100000000; 64397745; 76455808; 100000000;
  64347129; 76420082; 100000000; 64297081; 76384753; 100000000;
  64247594; 76349813; 100000000; 64198657; 76315256; 100000000;
  64150261; 76281076; 100000000; 64102399; 76247267; 100000000;
  64055061; 76213824; 100000000; 64008239; 76180740; 100000000;
  63961926; 76148010; 100000000; 63916112; 76115628; 100000000;
  63870790; 76083590; 100000000; 63825953; 76051890; 100000000;
  63781592; 76020522; 100000000; 63737701; 75989482; 100000000;
  63694273; 75958764; 100000000; 63651299; 75928365; 100000000;
  63608774; 75898278; 100000000; 63566691; 75868499; 100000000;
  63525042; 75839025; 100000000; 63483822; 75809849; 100000000;
  63443023; 75780969; 100000000; 63402641; 75752379; 100000000;
  63362667; 75724075; 100000000; 63323097; 75696053; 100000000;
  63283925; 75668310; 100000000; 63245144; 75640840; 100000000;
  63206749; 75613641; 100000000; 63168735; 75586707; 100000000;
  63131096; 75560036; 100000000; 63093826; 75533624; 100000000;
  63056920; 75507467; 100000000; 63020374; 75481562; 100000000;
  62984181; 75455904; 100000000; 62948337; 75430491; 100000000;
  62912838; 75405319; 100000000; 62877678; 75380385; 100000000;
  62842852; 75355685; 100000000; 62808356; 75331217; 100000000;
  62774186; 75306977; 100000000; 62740336; 75282962; 100000000
].

(** ** Dates and times *)

(** An invalid QDateTime is [None]. *)
Definition DateTime := option Z.
Record DateTimes := mkTimes { first : DateTime; second : DateTime }.
Definition no_times : DateTimes := mkTimes None None.

(** QDateTime::date, as a number of days; invalid for an invalid date. *)
Definition date (d : DateTime) : option Z := (fun t => t / MSC_DAY) <$> d.
(** QDateTime(date, time) *)
Definition at_time (day time : Z) : DateTime := Some (day * MSC_DAY + time).
Definition addMSecs (d : DateTime) (ms : Z) : DateTime := (fun t => t + ms) <$> d.
Definition addSecs (d : DateTime) (s : Z) : DateTime := addMSecs d (s * 1000).
Definition addDays (d : DateTime) (n : Z) : DateTime := addMSecs d (n * MSC_DAY).
(** msecsTo is 0 if one of the dates is invalid. *)
Definition msecsTo (a b : DateTime) : Z :=
  match a, b with Some x, Some y => y - x | _, _ => 0 end.
(** Comparing dates compares their milliseconds, which are 0 for an invalid one. *)
Definition msecs (d : DateTime) : Z := default 0 d.

Inductive NightColorMode := Automatic | Location | Timings | Constant.
#[global] Instance NightColorMode_eq_dec : EqDecision NightColorMode.
Proof. solve_decision. Defined.

Inductive Signal :=
  | inhibitedChanged | enabledChanged (enabled : bool) | runningChanged (running : bool)
  | currentTemperatureChanged (t : Z) | targetTemperatureChanged (t : Z)
  | modeChanged (m : NightColorMode) | previousTransitionTimingsChanged
  | scheduledTransitionTimingsChanged | configChange | gammaRamp (temperature : Z)
  | skewNotifier (active : bool).

(** ** The manager *)

Record Manager := mkManager {
  m_active : bool;
  m_running : bool;
  m_isGloballyInhibited : bool;
  m_mode : NightColorMode;
  m_prev : DateTimes;
  m_next : DateTimes;
  m_morning : Z;
  m_evening : Z;
  m_trTime : Z;
  m_latAuto : double;
  m_lngAuto : double;
  m_latFixed : double;
  m_lngFixed : double;
  m_slowUpdateStartTimer : option (option Z); (** its interval once it is started *)
  m_slowUpdateTimer : option (Z * bool);      (** its interval, and whether it goes to the day *)
  m_quickAdjustTimer : option Z;
  m_currentTemp : Z;
  m_targetTemperature : Z;
  m_dayTargetTemp : Z;
  m_nightTargetTemp : Z;
  m_failedCommitAttempts : Z;
  m_inhibitReferenceCount : Z;
  signals : list Signal;
}.
#[global] Instance Manager_eta : RecordEta Manager := fun m =>
  mkManager (m_active m) (m_running m) (m_isGloballyInhibited m) (m_mode m) (m_prev m) (m_next m)
    (m_morning m) (m_evening m) (m_trTime m) (m_latAuto m) (m_lngAuto m) (m_latFixed m) (m_lngFixed m)
    (m_slowUpdateStartTimer m) (m_slowUpdateTimer m) (m_quickAdjustTimer m) (m_currentTemp m)
    (m_targetTemperature m) (m_dayTargetTemp m) (m_nightTargetTemp m) (m_failedCommitAttempts m)
    (m_inhibitReferenceCount m) (signals m).
Implicit Types (m : Manager).

Definition initial : Manager :=
  mkManager false false false Automatic no_times no_times (6 * 3600000) (18 * 3600000) 30
    (of_Z 0) (of_Z 0) (of_Z 0) (of_Z 0) None None None NEUTRAL_TEMPERATURE NEUTRAL_TEMPERATURE
    NEUTRAL_TEMPERATURE DEFAULT_NIGHT_TEMPERATURE 0 0 [].

Definition emit (s : Signal) m : Manager := m <| signals := signals m ++ [s] |>.

Definition checkLocation (lat lng : double) : bool :=
  leb (opp (of_Z 90)) lat && leb lat (of_Z 90) && leb (opp (of_Z 180)) lng && leb lng (of_Z 180).

Definition isInhibited m : bool := negb (m_inhibitReferenceCount m =? 0).

Definition setEnabled (enabled : bool) m : Manager :=
  if Bool.eqb (m_active m) enabled then m
  else emit (enabledChanged enabled) (emit (skewNotifier enabled) (m <| m_active := enabled |>)).
Definition setRunning (running : bool) m : Manager :=
  if Bool.eqb (m_running m) running then m
  else emit (runningChanged running) (m <| m_running := running |>).
Definition setCurrentTemperature (t : Z) m : Manager :=
  if m_currentTemp m =? t then m
  else emit (currentTemperatureChanged t) (m <| m_currentTemp := t |>).
Definition setMode (mode : NightColorMode) m : Manager :=
  if decide (m_mode m = mode) then m else emit (modeChanged mode) (m <| m_mode := mode |>).

Definition cancelAllTimers m : Manager :=
  m <| m_slowUpdateStartTimer := None |> <| m_slowUpdateTimer := None |> <| m_quickAdjustTimer := None |>.

Definition daylight m : bool := bool_decide (date (first (m_prev m)) = date (first (m_next m))).

Definition previousTransitionDuration m : Z := msecsTo (first (m_prev m)) (second (m_prev m)).
Definition scheduledTransitionDuration m : Z := msecsTo (first (m_next m)) (second (m_next m)).

(** ** The position of the sun (suncalc.cpp) *)

Section Library.
(** std::sin, cos, asin, acos and fmod; the offset of the time zone in seconds. *)
Context (std_sin std_cos std_asin std_acos : double -> double) (fmod : double -> double -> double).
Context (utcOffset : Z).

Definition TWILIGHT_CIVIL : double := opp (of_Z 6).
Definition SUN_HIGH : double := of_Z 2.
(** M_PI *)
Definition PI : double := lit 3141592653589793116 1000000000000000000.
Definition rad : double := div PI (of_Z 180).
Definition earthObliquity : double := lit 234397 10000.
Definition ju2000 : double := of_Z 2451545.

Definition mod360 (x : double) : double := fmod x (of_Z 360).
Definition sin (angle : double) : double := std_sin (mul angle rad).
Definition cos (angle : double) : double := std_cos (mul angle rad).
Definition asin (v : double) : double := div (std_asin v) rad.
Definition acos (v : double) : double := div (std_acos v) rad.

Definition anomaly (d : double) : double :=
  mod360 (add (lit 3575291 10000) (mul (lit 98560028 100000000) (sub d ju2000))).
Definition center (a : double) : double :=
  add (add (mul (lit 19148 10000) (sin a)) (mul (lit 2 100) (sin (mul (of_Z 2) a))))
    (mul (lit 3 10000) (sin (mul (of_Z 3) a))).
Definition ecliptLngMean (anom : double) : double := add anom (lit 2829372 10000).
Definition ecliptLng (anom : double) : double := add (ecliptLngMean anom) (center anom).
Definition declination (d : double) : double :=
  mod360 (asin (mul (sin earthObliquity) (sin (ecliptLng (anomaly d))))).
Definition hourAngle (lat d angle : double) : double :=
  let decl := declination d in
  let ret0 := div (sub (sin angle) (mul (sin lat) (sin decl))) (mul (cos lat) (cos decl)) in
  let ret := mod360 (acos ret0) in
  if ltb (of_Z 180) ret then sub ret (of_Z 360) else ret.

Definition getTransit (lng juPrompt d : double) : double :=
  let juMeanSolTime := sub (sub (sub juPrompt ju2000) (lit 9 10000)) (div lng (of_Z 360)) in
  let juTrEstimate := sub (add d (of_Z (qRound64 juMeanSolTime))) juMeanSolTime in
  let anom := anomaly juTrEstimate in
  let eclLngM := ecliptLngMean anom in
  sub (add juTrEstimate (mul (lit 53 10000) (sin anom)))
    (mul (lit 68 10000) (sin (mul (of_Z 2) eclLngM))).

Definition getSunMorning (lat angle transit : double) : double :=
  sub transit (div (hourAngle lat transit angle) (of_Z 360)).
Definition getSunEvening (lat angle transit : double) : double :=
  add transit (div (hourAngle lat transit angle) (of_Z 360)).

(** The date and time of a fraction of a day in UTC, on the given day; a time of
    the day that is out of range is invalid, and a date with an invalid time is at
    midnight. *)
Definition sun_time (day : Z) (t : double) : DateTime :=
  if is_nan t then None
  else
    let dayFraction := sub t (of_Z (to_int t)) in
    let utc := to_int (mul dayFraction (of_Z MSC_DAY)) in
    let local := if (0 <=? utc) && (utc <? MSC_DAY) then (utc + utcOffset * 1000) mod MSC_DAY else 0 in
    at_time day local.

Definition calculateSunTimings (dateTime : Z) (latitude longitude : double) (morning : bool) : DateTimes :=
  let lng := opp longitude in
  let juPrompt := of_Z ((dateTime - utcOffset * 1000) / MSC_DAY + 2440588) in
  let juNoon := getTransit lng juPrompt juPrompt in
  let '(b, e) :=
    if morning then (getSunMorning latitude TWILIGHT_CIVIL juNoon, getSunMorning latitude SUN_HIGH juNoon)
    else (getSunEvening latitude SUN_HIGH juNoon, getSunEvening latitude TWILIGHT_CIVIL juNoon) in
  let day := dateTime / MSC_DAY in
  mkTimes (sun_time day (add b (lit 1 2))) (sun_time day (add e (lit 1 2))).

Definition getSunTimings (dateTime : Z) (latitude longitude : double) (morning : bool) : DateTimes :=
  let d := calculateSunTimings dateTime latitude longitude morning in
  match first d, second d with
  | Some _, Some _ => d
  | Some b, None => mkTimes (Some b) (addMSecs (Some b) FALLBACK_SLOW_UPDATE_TIME)
  | None, Some e => mkTimes (addMSecs (Some e) (- FALLBACK_SLOW_UPDATE_TIME)) (Some e)
  | None, None =>
      let b := at_time (dateTime / MSC_DAY) (if morning then 6 * 3600000 else 18 * 3600000) in
      mkTimes b (addMSecs b FALLBACK_SLOW_UPDATE_TIME)
  end.

(** ** The schedule *)

Section Now.
(** QDateTime::currentDateTime *)
Context (now : Z).

Definition checkAutomaticSunTimings m : bool :=
  match first (m_prev m), second (m_prev m), first (m_next m), second (m_next m) with
  | Some p, Some _, Some n, Some _ => (p <=? now) && (now <? n) && (n - p <? 82800000)
  | _, _, _, _ => false
  end.

(** The timings that hold all day. *)
Definition fixed_timings m : Manager :=
  let day := now / MSC_DAY in
  let morB := at_time day (m_morning m) in
  let morE := addSecs morB (m_trTime m * 60) in
  let eveB := at_time day (m_evening m) in
  let eveE := addSecs eveB (m_trTime m * 60) in
  if (msecs morB <=? now) && (now <? msecs eveB)
  then m <| m_next := mkTimes eveB eveE |> <| m_prev := mkTimes morB morE |>
  else if now <? msecs morB
  then m <| m_next := mkTimes morB morE |>
         <| m_prev := mkTimes (addDays eveB (-1)) (addDays eveE (-1)) |>
  else m <| m_next := mkTimes (addDays morB 1) (addDays morE 1) |> <| m_prev := mkTimes eveB eveE |>.

Definition switch_timings lat lng m : Manager :=
  if daylight m
  then m <| m_prev := m_next m |> <| m_next := getSunTimings (now + MSC_DAY) lat lng true |>
  else m <| m_prev := m_next m |> <| m_next := getSunTimings now lat lng false |>.

Definition reset_timings lat lng m : Manager :=
  let morning := getSunTimings now lat lng true in
  if now <? msecs (first morning)
  then m <| m_prev := getSunTimings (now - MSC_DAY) lat lng false |> <| m_next := morning |>
  else
    let evening := getSunTimings now lat lng false in
    if now <? msecs (first evening)
    then m <| m_prev := morning |> <| m_next := evening |>
    else m <| m_prev := evening |> <| m_next := getSunTimings (now + MSC_DAY) lat lng true |>.

Definition updateTransitionTimings (force : bool) m : Manager :=
  emit scheduledTransitionTimingsChanged (emit previousTransitionTimingsChanged
    match m_mode m with
    | Constant => m <| m_next := no_times |> <| m_prev := no_times |>
    | Timings => fixed_timings m
    | mode =>
        let '(lat, lng) := match mode with
                           | Automatic => (m_latAuto m, m_lngAuto m)
                           | _ => (m_latFixed m, m_lngFixed m)
                           end in
        let m1 := if force then m else switch_timings lat lng m in
        if force || negb (checkAutomaticSunTimings m1) then reset_timings lat lng m1 else m1
    end).

Definition updateTargetTemperature m : Manager :=
  let target := if negb (bool_decide (m_mode m = Constant)) && daylight m
                then m_dayTargetTemp m else m_nightTargetTemp m in
  if m_targetTemperature m =? target then m
  else emit (targetTemperatureChanged target) (m <| m_targetTemperature := target |>).

(** The temperature on the way from [target1] to [target2]. *)
Definition transition_temp (left duration target1 target2 : Z) : Z :=
  let residueQuota := div (of_Z left) (of_Z duration) in
  let ret := of_Z (to_int (add (mul (sub (of_Z 1) residueQuota) (of_Z target2))
                              (mul residueQuota (of_Z target1)))) in
  to_int (of_Z (to_int (mul (lit 1 10) ret) * 10)).

Definition currentTargetTemp m : Z :=
  if negb (m_running m) then NEUTRAL_TEMPERATURE
  else if bool_decide (m_mode m = Constant) then m_nightTargetTemp m
  else
    let f target1 target2 :=
      if now <=? msecs (second (m_prev m))
      then transition_temp (msecsTo (Some now) (second (m_prev m)))
             (msecsTo (first (m_prev m)) (second (m_prev m))) target1 target2
      else target2 in
    if daylight m then f (m_nightTargetTemp m) (m_dayTargetTemp m)
    else f (m_dayTargetTemp m) (m_nightTargetTemp m).
End Now.

(** ** Gamma ramps *)

(** The entry of the table; reading out of its range is undefined, here 0. *)
Definition blackbody (i : Z) : spec_float :=
  match nth_default 0 blackbodyColor (Z.to_nat i) with
  | Zpos n => litf n 100000000
  | _ => S754_zero false
  end.

Definition bbCIndex (temperature : Z) : Z := cdiv (temperature - 1000) 100 * 3.

Definition white_point (temperature k : Z) : spec_float :=
  let alpha := to_float (div (of_Z (Z.rem temperature 100)) (of_Z 100)) in
  let i := bbCIndex temperature + k in
  to_float (add (mul (sub (of_Z 1) alpha) (blackbody i)) (mulf alpha (blackbody (i + 3)))).

Definition u16 (z : Z) : Z := z mod 2 ^ 16.
Definition ramp_value (rampsize temperature k i : Z) : Z :=
  let value := u16 (to_int (mul (div (of_Z i) (of_Z rampsize)) (of_Z 65536))) in
  u16 (to_int (mul (mul (div (of_Z value) (of_Z 65536)) (white_point temperature k)) (of_Z 65536))).
(** Red, green and blue. *)
Definition gamma_ramp (rampsize temperature : Z) : list (list Z) :=
  map (fun k => map (ramp_value rampsize temperature k) (seqZ 0 rampsize)) [0; 1; 2].

Record Output := mkOutput { gammaRampSize : Z; setGammaRamp : list (list Z) -> bool }.

Definition commit_output (temperature : Z) m (o : Output) : Manager :=
  let m := emit (gammaRamp temperature) m in
  if setGammaRamp o (gamma_ramp (gammaRampSize o) temperature)
  then (setCurrentTemperature temperature m) <| m_failedCommitAttempts := 0 |>
  else
    let m1 := m <| m_failedCommitAttempts := m_failedCommitAttempts m + 1 |> in
    if m_failedCommitAttempts m1 <? 10 then m1
    else cancelAllTimers (setRunning false (m1 <| m_failedCommitAttempts := 0 |>)).

(** ** The timers *)

Section Platform.
(** Platform::supportsGammaControl and the outputs of the platform. *)
Context (isAvailable : bool) (outs : list Output).
Context (now : Z).

Definition commitGammaRamps (temperature : Z) m : Manager := foldl (commit_output temperature) m outs.

(** A temperature one step nearer to the target. *)
Definition next_temp (current target : Z) : Z :=
  if current <? target then Z.min (current + TEMPERATURE_STEP) target
  else Z.max (current - TEMPERATURE_STEP) target.

Definition resetSlowUpdateTimer m : Manager :=
  let m1 := m <| m_slowUpdateTimer := None |> in
  let isDay := daylight m1 in
  let targetTemp := if isDay then m_dayTargetTemp m1 else m_nightTargetTemp m1 in
  if bool_decide (first (m_prev m1) = second (m_prev m1)) || (m_currentTemp m1 =? targetTemp)
  then commitGammaRamps targetTemp m1
  else if (msecs (first (m_prev m1)) <=? now) && (now <=? msecs (second (m_prev m1))) then
    let availTime := i32 (msecsTo (Some now) (second (m_prev m1))) in
    let interval := cdiv (i32 (availTime * TEMPERATURE_STEP)) (Z.abs (targetTemp - m_currentTemp m1)) in
    m1 <| m_slowUpdateTimer := Some (if interval =? 0 then 1 else interval, isDay) |>
  else m1.

Definition resetSlowUpdateStartTimer m : Manager :=
  let m1 := m <| m_slowUpdateStartTimer := None |> in
  if negb (m_running m1) || match m_quickAdjustTimer m1 with Some _ => true | None => false end then m1
  else if bool_decide (m_mode m1 = Constant) then m1
  else
    let m2 := updateTargetTemperature
                (updateTransitionTimings now false (m1 <| m_slowUpdateStartTimer := Some None |>)) in
    let diff := i32 (msecsTo (Some now) (first (m_next m2))) in
    if diff <=? 0 then m2
    else resetSlowUpdateTimer (m2 <| m_slowUpdateStartTimer := Some (Some diff) |>).

Definition resetQuickAdjustTimer m : Manager :=
  let m1 := updateTargetTemperature (updateTransitionTimings now false m) in
  let tempDiff := Z.abs (currentTargetTemp now m1 - m_currentTemp m1) in
  if TEMPERATURE_STEP <? tempDiff then
    let interval := cdiv QUICK_ADJUST_DURATION (cdiv tempDiff TEMPERATURE_STEP) in
    (cancelAllTimers m1) <| m_quickAdjustTimer := Some (if interval =? 0 then 1 else interval) |>
  else resetSlowUpdateStartTimer m1.

Definition resetAllTimers m : Manager :=
  let m1 := cancelAllTimers m in
  if isAvailable
  then resetQuickAdjustTimer (setRunning (m_active m1 && negb (isInhibited m1)) m1)
  else setRunning false m1.

Definition quickAdjust m : Manager :=
  match m_quickAdjustTimer m with
  | None => m
  | Some _ =>
      let targetTemp := currentTargetTemp now m in
      let nextTemp := next_temp (m_currentTemp m) targetTemp in
      let m1 := commitGammaRamps nextTemp m in
      if nextTemp =? targetTemp
      then resetSlowUpdateStartTimer (m1 <| m_quickAdjustTimer := None |>) else m1
  end.

Definition slowUpdate (targetTemp : Z) m : Manager :=
  match m_slowUpdateTimer m with
  | None => m
  | Some _ =>
      let nextTemp := next_temp (m_currentTemp m) targetTemp in
      let m1 := commitGammaRamps nextTemp m in
      if nextTemp =? targetTemp then m1 <| m_slowUpdateTimer := None |> else m1
  end.

(** The timeout of the slow update timer. *)
Definition slow_timeout m : Manager :=
  match m_slowUpdateTimer m with
  | Some (_, day) => slowUpdate (if day then m_dayTargetTemp m else m_nightTargetTemp m) m
  | None => m
  end.

(** The timeout of the timer that starts the slow updates. *)
Definition start_timeout m : Manager :=
  match m_slowUpdateStartTimer m with Some (Some _) => resetSlowUpdateStartTimer m | _ => m end.

Definition hardReset m : Manager :=
  let m1 := updateTargetTemperature (updateTransitionTimings now true (cancelAllTimers m)) in
  let m2 := if isAvailable && m_active m1 && negb (isInhibited m1)
            then let m' := setRunning true m1 in commitGammaRamps (currentTargetTemp now m') m'
            else m1 in
  resetAllTimers m2.

(** ** Inhibiting *)

Definition inhibit m : Manager :=
  let m1 := m <| m_inhibitReferenceCount := m_inhibitReferenceCount m + 1 |> in
  if m_inhibitReferenceCount m1 =? 1 then emit inhibitedChanged (resetAllTimers m1) else m1.

Definition uninhibit m : Manager :=
  let m1 := m <| m_inhibitReferenceCount := m_inhibitReferenceCount m - 1 |> in
  if m_inhibitReferenceCount m1 =? 0 then emit inhibitedChanged (resetAllTimers m1) else m1.

Definition toggle m : Manager :=
  let m1 := m <| m_isGloballyInhibited := negb (m_isGloballyInhibited m) |> in
  if m_isGloballyInhibited m1 then inhibit m1 else uninhibit m1.

(** ** Configuration *)

(** The settings; times are strings. *)
Record Settings := mkSettings {
  s_active : bool;
  s_mode : Z;
  s_nightTemperature : Z;
  s_latitudeAuto : double;
  s_longitudeAuto : double;
  s_latitudeFixed : double;
  s_longitudeFixed : double;
  s_morningBeginFixed : string;
  s_eveningBeginFixed : string;
  s_transitionTime : Z;
}.
#[global] Instance Settings_eta : RecordEta Settings := fun s =>
  mkSettings (s_active s) (s_mode s) (s_nightTemperature s) (s_latitudeAuto s) (s_longitudeAuto s)
    (s_latitudeFixed s) (s_longitudeFixed s) (s_morningBeginFixed s) (s_eveningBeginFixed s)
    (s_transitionTime s).

(** QTime::fromString and QTime::toString with the format hhmm. *)
Context (parse_hhmm : string -> option Z) (print_hhmm : Z -> string).

Definition mode_of (n : Z) : option NightColorMode :=
  if n =? 0 then Some Automatic else if n =? 1 then Some Location
  else if n =? 2 then Some Timings else if n =? 3 then Some Constant else None.
Definition mode_number (mode : NightColorMode) : Z :=
  match mode with Automatic => 0 | Location => 1 | Timings => 2 | Constant => 3 end.

Definition correctReadin (lat lng : double) : double * double :=
  if checkLocation lat lng then (lat, lng) else (of_Z 0, of_Z 0).

(** QTime::msecsTo is 0 for an invalid time. *)
Definition time_to (a b : option Z) : Z := match a, b with Some x, Some y => y - x | _, _ => 0 end.

(** The fixed timings of the settings: begin of the morning and of the evening and
    the transition time in minutes. *)
Definition read_timings (s : Settings) : Z * Z * Z :=
  let dflt := (6 * 3600000, 18 * 3600000, 12 * 3600000) in
  let '(mrB, evB, diffME) :=
    match parse_hhmm (s_morningBeginFixed s), parse_hhmm (s_eveningBeginFixed s) with
    | Some a, Some b => if b - a <=? 0 then dflt else (a, b, b - a)
    | _, _ => dflt
    end in
  let diffMin := Z.min diffME (MSC_DAY - diffME) in
  let trTime := i32 (i32 (s_transitionTime s * 1000) * 60) in
  let '(mrB, evB, trTime) :=
    if (trTime <? 0) || (diffMin <=? trTime)
    then (6 * 3600000, 18 * 3600000, FALLBACK_SLOW_UPDATE_TIME) else (mrB, evB, trTime) in
  (mrB, evB, Z.max (cdiv (cdiv trTime 1000) 60) 1).

Definition readConfig (s : Settings) m : Manager :=
  let m1 := setMode (default Automatic (mode_of (s_mode s))) (setEnabled (s_active s) m) in
  let '(latA, lngA) := correctReadin (s_latitudeAuto s) (s_longitudeAuto s) in
  let '(latF, lngF) := correctReadin (s_latitudeFixed s) (s_longitudeFixed s) in
  let '(mrB, evB, trTime) := read_timings s in
  m1 <| m_nightTargetTemp := qBound MIN_TEMPERATURE (s_nightTemperature s) NEUTRAL_TEMPERATURE |>
     <| m_latAuto := latA |> <| m_lngAuto := lngA |> <| m_latFixed := latF |> <| m_lngFixed := lngF |>
     <| m_morning := mrB |> <| m_evening := evB |> <| m_trTime := trTime |>.

Definition reparseConfigAndReset (s : Settings) m : Manager :=
  hardReset (readConfig s (cancelAllTimers m)).

(** An entry of the map that a client sends: it may be absent, of another type, or
    a value. *)
Inductive Entry (A : Type) := Absent | Mistyped | Value (a : A).
#[global] Arguments Absent {A}.
#[global] Arguments Mistyped {A}.
#[global] Arguments Value {A} a.

(** The times are read in the ISO format by QTime::fromString; [None] is invalid. *)
Record Config := mkConfig {
  c_Active : Entry bool;
  c_Mode : Entry Z;
  c_NightTemperature : Entry Z;
  c_LatitudeFixed : Entry double;
  c_LongitudeFixed : Entry double;
  c_MorningBeginFixed : Entry (option Z);
  c_EveningBeginFixed : Entry (option Z);
  c_TransitionTime : Entry Z;
}.

(** The checks of the entries: [None] refuses the configuration. *)
Definition check_entry {A} (e : Entry A) (old : A) (ok : A -> bool) : option A :=
  match e with
  | Absent => Some old
  | Mistyped => None
  | Value a => if ok a then Some a else None
  end.
Definition check_mode (c : Config) (old : NightColorMode) : option NightColorMode :=
  match c_Mode c with Absent => Some old | Mistyped => None | Value n => mode_of n end.
Definition check_location (c : Config) m : option (double * double) :=
  match c_LatitudeFixed c, c_LongitudeFixed c with
  | Absent, _ | _, Absent => Some (m_latFixed m, m_lngFixed m)
  | Value la, Value ln => if checkLocation la ln then Some (la, ln) else None
  | _, _ => None
  end.
Definition check_times (c : Config) m : option (Z * Z * Z) :=
  match c_MorningBeginFixed c, c_EveningBeginFixed c, c_TransitionTime c with
  | Absent, _, _ | _, Absent, _ | _, _, Absent => Some (m_morning m, m_evening m, m_trTime m)
  | Value (Some mo), Value (Some ev), Value tT =>
      let diffME := ev - mo in
      if (diffME <=? 0) || (Z.min diffME (MSC_DAY - diffME) <=? i32 (i32 (tT * 60) * 1000)) || (tT <? 1)
      then None else Some (mo, ev, tT)
  | _, _, _ => None
  end.

(** What changeConfiguration writes, into the manager and into the settings. *)
Definition write_config (active : bool) (mode : NightColorMode) (nightT : Z) (lat lng : double)
    (mor eve trT : Z) m (s : Settings) : Manager * Settings :=
  let m1 := setMode mode (setEnabled active m) in
  let timeUpdate := negb ((m_morning m =? mor) && (m_evening m =? eve) && (m_trTime m =? trT)) in
  let same_place := eqb (m_latFixed m) lat && eqb (m_lngFixed m) lng in
  (m1 <| m_nightTargetTemp := nightT |>
      <| m_latFixed := if same_place then m_latFixed m else lat |>
      <| m_lngFixed := if same_place then m_lngFixed m else lng |>
      <| m_morning := mor |> <| m_evening := eve |> <| m_trTime := trT |>,
   let s1 := if Bool.eqb (m_active m) active then s else s <| s_active := active |> in
   let s2 := if decide (m_mode m = mode) then s1 else s1 <| s_mode := mode_number mode |> in
   let s3 := if m_nightTargetTemp m =? nightT then s2 else s2 <| s_nightTemperature := nightT |> in
   let s4 := if same_place then s3
             else s3 <| s_latitudeFixed := lat |> <| s_longitudeFixed := lng |> in
   if timeUpdate
   then s4 <| s_morningBeginFixed := print_hhmm mor |> <| s_eveningBeginFixed := print_hhmm eve |>
           <| s_transitionTime := trT |>
   else s4).

Definition changeConfiguration (c : Config) (ms : Manager * Settings) : (Manager * Settings) * bool :=
  let '(m, s) := ms in
  let checked :=
    active ← check_entry (c_Active c) (m_active m) (fun _ => true);
    mode ← check_mode c (m_mode m);
    nightT ← check_entry (c_NightTemperature c) (m_nightTargetTemp m)
               (fun t => (MIN_TEMPERATURE <=? t) && (t <=? NEUTRAL_TEMPERATURE));
    loc ← check_location c m;
    times ← check_times c m;
    Some (active, mode, nightT, loc, times) in
  match checked with
  | None => (ms, false)
  | Some (active, mode, nightT, (lat, lng), (mor, eve, trT)) =>
      let activeUpdate := negb (Bool.eqb (m_active m) active) in
      let modeUpdate := negb (bool_decide (m_mode m = mode)) in
      let tempUpdate := negb (m_nightTargetTemp m =? nightT) in
      let locUpdate := negb (eqb (m_latFixed m) lat && eqb (m_lngFixed m) lng) in
      let timeUpdate := negb ((m_morning m =? mor) && (m_evening m =? eve) && (m_trTime m =? trT)) in
      if negb (activeUpdate || modeUpdate || tempUpdate || locUpdate || timeUpdate) then (ms, true)
      else
        let resetNeeded := activeUpdate || modeUpdate || tempUpdate ||
          (locUpdate && bool_decide (mode = Location)) || (timeUpdate && bool_decide (mode = Timings)) in
        let m1 := if resetNeeded then cancelAllTimers m else m in
        let '(m2, s2) := write_config active mode nightT lat lng mor eve trT m1 s in
        let m3 := if resetNeeded then resetAllTimers m2 else m2 in
        ((emit configChange m3, s2), true)
  end.

Definition autoLocationUpdate (latitude longitude : double) (ms : Manager * Settings) : Manager * Settings :=
  let '(m, s) := ms in
  if negb (checkLocation latitude longitude) then ms
  else if ltb (abs (sub (m_latAuto m) latitude)) (of_Z 2) && ltb (abs (sub (m_lngAuto m) longitude)) (of_Z 1)
  then ms
  else
    let m1 := (cancelAllTimers m) <| m_latAuto := latitude |> <| m_lngAuto := longitude |> in
    (emit configChange (resetAllTimers m1),
     s <| s_latitudeAuto := latitude |> <| s_longitudeAuto := longitude |>).

(** ** The D-Bus interface (colorcorrectdbusinterface.cpp) *)

(** [m_inhibitors] maps services to their cookies, with duplicates; [watched] are
    the services whose end the watcher reports. *)
Record Interface := mkInterface {
  manager : Manager;
  m_inhibitors : list (string * Z);
  watched : list string;
  m_lastInhibitionCookie : Z;
}.
#[global] Instance Interface_eta : RecordEta Interface := fun i =>
  mkInterface (manager i) (m_inhibitors i) (watched i) (m_lastInhibitionCookie i).
Implicit Types (i : Interface).

Definition has_service i (service : string) : bool := existsb (fun p => bool_decide (p.1 = service)) (m_inhibitors i).

Definition dbus_inhibit (service : string) i : Interface * Z :=
  let w := if has_service i service then watched i else service :: watched i in
  let cookie := u32 (m_lastInhibitionCookie i + 1) in
  (i <| watched := w |> <| m_lastInhibitionCookie := cookie |>
     <| m_inhibitors := (service, cookie) :: m_inhibitors i |>
     <| manager := inhibit (manager i) |>, cookie).

Definition dbus_uninhibit (service : string) (cookie : Z) i : Interface :=
  if negb (contains (m_inhibitors i) (service, cookie)) then i
  else
    let i1 := i <| m_inhibitors := remove_all (service, cookie) (m_inhibitors i) |> in
    let i2 := if has_service i1 service then i1 else i1 <| watched := remove_all service (watched i1) |> in
    i2 <| manager := uninhibit (manager i2) |>.

Definition removeInhibitorService (service : string) i : Interface :=
  foldl (fun i p => dbus_uninhibit service p.2 i) i
    (filter (fun p => p.1 = service) (m_inhibitors i)).
End Platform.

(** ** Events

    What the manager is connected to (Manager::init): the timers, the screens and
    the session, the notifier of changes of the clock, and the calls of clients. *)
Inductive Event :=
  | QuickTimeout
  | SlowTimeout
  | StartTimeout
  | ScreensChanged
  | SessionActiveChanged (active : bool)
  | ClockSkewed (comingFromSuspend : bool)
  | Reparse (s : Settings)
  | SetConfig (c : Config)
  | AutoLocation (latitude longitude : double)
  | Toggle
  | Inhibit (service : string)
  | Uninhibit (service : string) (cookie : Z)
  | ServiceUnregistered (service : string).

Record System := mkSystem { interface : Interface; settings : Settings }.

Section Step.
Context (isAvailable : bool) (parse_hhmm : string -> option Z) (print_hhmm : Z -> string).
Context (outs : list Output) (now : Z).

Definition with_manager (f : Manager -> Manager) (x : System) : System :=
  mkSystem ((interface x) <| manager := f (manager (interface x)) |>) (settings x).
Definition with_settings (f : Manager * Settings -> Manager * Settings) (x : System) : System :=
  let '(m, s) := f (manager (interface x), settings x) in
  mkSystem ((interface x) <| manager := m |>) s.
Definition with_interface (f : Interface -> Interface) (x : System) : System :=
  mkSystem (f (interface x)) (settings x).

Definition step (e : Event) : System -> System :=
  match e with
  | QuickTimeout => with_manager (quickAdjust outs now)
  | SlowTimeout => with_manager (slow_timeout outs)
  | StartTimeout => with_manager (start_timeout outs now)
  | ScreensChanged => with_manager (hardReset isAvailable outs now)
  | SessionActiveChanged active =>
      with_manager (if active then hardReset isAvailable outs now else cancelAllTimers)
  | ClockSkewed suspend =>
      with_manager (if suspend then hardReset isAvailable outs now else resetAllTimers isAvailable outs now)
  | Reparse s => with_settings (fun '(m, _) => (reparseConfigAndReset isAvailable outs now parse_hhmm s m, s))
  | SetConfig c => with_settings (fun ms => (changeConfiguration isAvailable outs now print_hhmm c ms).1)
  | AutoLocation la ln => with_settings (autoLocationUpdate isAvailable outs now la ln)
  | Toggle => with_manager (toggle isAvailable outs now)
  | Inhibit service => with_interface (fun i => (dbus_inhibit isAvailable outs now service i).1)
  | Uninhibit service cookie => with_interface (dbus_uninhibit isAvailable outs now service cookie)
  | ServiceUnregistered service => with_interface (removeInhibitorService isAvailable outs now service)
  end.
End Step.

(** Events with the time and the outputs at which they are handled. *)
Definition run (isAvailable : bool) (parse_hhmm : string -> option Z) (print_hhmm : Z -> string)
    (es : list (Z * list Output * Event)) (x : System) : System :=
  foldl (fun x '(now, outs, e) => step isAvailable parse_hhmm print_hhmm outs now e x) x es.
End Library.
End NightColor.
