(* ===== verification/NightColorProps.v ===== *)
(** * Properties of the colour temperature

    The schedule surrounds the present, every temperature that reaches the screens
    is one the table of white points has, the colour is adjusted within a bounded
    number of steps, and it stays neutral as long as somebody inhibits it. *)

From S2P Require Import Prelude Doubles NightColor.

Module NightColorProps.
Import Doubles NightColor.

(** ** The temperature during a transition *)

Lemma to_int_of_Z n : 0 <= n < 2 ^ 31 -> to_int (of_Z n) = n.
Proof.
  intros Hn. pose proof (to_int_within 0 n n (of_Z n)) as H. rewrite !Z.div_1_r in H.
  enough (n <= to_int (of_Z n) <= n) by lia. apply H; [lia|lia|lia|].
  pose proof (of_Z_within n 0 ltac:(lia) ltac:(lia)) as H0. by rewrite Z.mul_1_r in H0.
Qed.

Lemma quotient_within a b : 0 <= a <= b -> 0 < b < 2 ^ 53 -> within 0 0 1 (div (of_Z a) (of_Z b)).
Proof.
  intros Ha Hb. destruct (of_Z_exact a) as [A1 A2]; [lia|]. destruct (of_Z_exact b) as [B1 B2]; [lia|].
  apply div_within; [done|done|rewrite B2|rewrite A2, B2]; unfold scaled;
    assert (0 < 2 ^ (0 + 3000)) by done; nia.
Qed.

(** The mean of two numbers, weighted by a fraction. *)
Lemma mean_within q t1 t2 lo hi : within 0 0 1 q -> 1 <= lo -> hi < 2 ^ 20 ->
  lo <= t1 <= hi -> lo <= t2 <= hi ->
  lo - 1 <= to_int (add (mul (sub (of_Z 1) q) (of_Z t2)) (mul q (of_Z t1))) <= hi.
Proof.
  intros Hq Hlo Hhi H1 H2. destruct (fraction_within q Hq) as (j & h & Hj & Hjh & Hhj & Hh & Hq20).
  pose proof (of_Z_within 1 20 ltac:(lia) ltac:(lia)) as Hone.
  pose proof (of_Z_within t1 0 ltac:(lia) ltac:(lia)) as Ht1.
  pose proof (of_Z_within t2 0 ltac:(lia) ltac:(lia)) as Ht2. rewrite Z.mul_1_r in Ht1, Ht2.
  set (u := 1 * 2 ^ 20) in *. assert (u = 2 ^ 20) as Hu by done. clearbody u.
  pose proof (sub_within 20 u u j h _ _ ltac:(lia) Hj Hjh ltac:(lia) ltac:(lia) ltac:(lia) Hone Hq20) as Hs.
  assert (0 <= (u - j) * t2 <= 2 ^ 40 /\ 0 <= h * t1 <= 2 ^ 40 /\ 0 <= (u - h) * t2 /\ 0 <= j * t1)
    as (Hb1 & Hb2 & Hb3 & Hb4).
  { change (2 ^ 40) with (2 ^ 20 * 2 ^ 20).
    split_and!; (apply Z.mul_nonneg_nonneg || apply Z.mul_le_mono_nonneg); lia. }
  pose proof (mul_within 20 0 (u - h) (u - j) t2 t2 _ _ ltac:(lia) ltac:(lia) ltac:(lia) ltac:(lia) ltac:(lia)
    ltac:(lia) ltac:(lia) ltac:(lia) Hs Ht2) as Hm2.
  pose proof (mul_within 20 0 j h t1 t1 _ _ ltac:(lia) ltac:(lia) ltac:(lia) Hj Hjh ltac:(lia) ltac:(lia)
    ltac:(lia) Hq20 Ht1) as Hm1.
  change (20 + 0) with 20 in *.
  pose proof (add_within 20 ((u - h) * t2) ((u - j) * t2) (j * t1) (h * t1) _ _ ltac:(lia) Hb3 Hb4 ltac:(lia) Hm2 Hm1) as Ha.
  pose proof (to_int_within 20 ((u - h) * t2 + j * t1) ((u - j) * t2 + h * t1) _ ltac:(lia) ltac:(lia) ltac:(lia) Ha) as [Hl Hr].
  split; [etransitivity; [|exact Hl]|etransitivity; [exact Hr|]].
  - apply Z.div_le_lower_bound; [lia|].
    assert ((u - h) * lo <= (u - h) * t2) by (apply Z.mul_le_mono_nonneg_l; lia).
    assert (j * lo <= j * t1) by (apply Z.mul_le_mono_nonneg_l; lia).
    assert ((h - j) * lo <= 1 * lo) by (apply Z.mul_le_mono_nonneg_r; lia). lia.
  - enough (((u - j) * t2 + h * t1) / 2 ^ 20 < hi + 1) by lia. apply Z.div_lt_upper_bound; [lia|].
    assert ((u - j) * t2 <= (u - j) * hi) by (apply Z.mul_le_mono_nonneg_l; lia).
    assert (h * t1 <= h * hi) by (apply Z.mul_le_mono_nonneg_l; lia).
    assert ((h - j) * hi <= 1 * hi) by (apply Z.mul_le_mono_nonneg_r; lia). lia.
Qed.

Lemma tens_range n : 999 <= n <= 6500 -> 99 <= to_int (mul (lit 1 10) (of_Z n)) <= 650.
Proof.
  intros Hn. pose proof (of_Z_within n 0 ltac:(lia) ltac:(lia)) as H. rewrite Z.mul_1_r in H.
  assert (within 20 104857 104858 (lit 1 10)) as Hl.
  { split; [by vm_compute|]. split; apply Z.leb_le; by vm_compute. }
  pose proof (mul_within 20 0 104857 104858 n n _ _ ltac:(lia) ltac:(lia) ltac:(lia) ltac:(lia) ltac:(lia) ltac:(lia)
    ltac:(lia) ltac:(lia) Hl H) as Hm.
  pose proof (to_int_within (20 + 0) (104857 * n) (104858 * n) _ ltac:(lia) ltac:(lia) ltac:(lia) Hm) as [H1 H2].
  change (2 ^ (20 + 0)) with (2 ^ 20) in *. split.
  - etransitivity; [|exact H1]. apply Z.div_le_lower_bound; lia.
  - etransitivity; [exact H2|]. enough (104858 * n / 2 ^ 20 < 651) by lia. apply Z.div_lt_upper_bound; lia.
Qed.

Lemma transition_temp_range left duration t1 t2 :
  0 <= left <= duration -> 0 < duration < 2 ^ 53 -> 1000 <= t1 <= 6500 -> 1000 <= t2 <= 6500 ->
  990 <= transition_temp left duration t1 t2 <= 6500.
Proof.
  intros Hl Hd H1 H2. unfold transition_temp.
  pose proof (mean_within (div (of_Z left) (of_Z duration)) t1 t2 1000 6500 (quotient_within _ _ Hl Hd)
    ltac:(lia) ltac:(lia) H1 H2) as Hm.
  set (r := to_int (add _ _)) in *. pose proof (tens_range r ltac:(lia)) as Ht.
  rewrite to_int_of_Z by lia. lia.
Qed.

(** ** The schedule *)

Section Library.
Context (std_sin std_cos std_asin std_acos : double -> double) (fmod : double -> double -> double).
Context (utcOffset : Z).
Local Notation sun := (getSunTimings std_sin std_cos std_asin std_acos fmod utcOffset) (only parsing).
Local Notation upd := (updateTransitionTimings std_sin std_cos std_asin std_acos fmod utcOffset) (only parsing).

(** What is needed of the mathematics library: where the sun reaches the second
    height of a transition it reaches the first one, and not at the same time. *)
Definition sun_ok : Prop :=
  forall t lat lng morning,
    let d := calculateSunTimings std_sin std_cos std_asin std_acos fmod utcOffset t lat lng morning in
    match first d, second d with
    | Some b, Some e => b <> e
    | None, Some _ => False
    | _, None => True
    end.

(** Both ends of a transition, in either order, or nothing. *)
Definition times_wf (d : DateTimes) : Prop :=
  d = no_times \/ exists b e, d = mkTimes (Some b) (Some e) /\ b <> e /\ e - b < 2 ^ 50.

(** The configuration of the fixed times. *)
Definition times_config (m : Manager) : Prop :=
  0 <= m_morning m /\ m_morning m < m_evening m /\ m_evening m < MSC_DAY /\ 1 <= m_trTime m < 2 ^ 31.

(** The last transition has begun and the next one has not. *)
Definition brackets (now : Z) (m : Manager) : Prop :=
  exists p n, first (m_prev m) = Some p /\ first (m_next m) = Some n /\
    p <= now < n /\ n - p <= 2 * MSC_DAY.

Lemma sun_time_date day t x : sun_time utcOffset day t = Some x -> x / MSC_DAY = day.
Proof.
  unfold sun_time, at_time. destruct (is_nan t); [done|]. set (u := to_int _).
  set (l := if _ : bool then _ else _).
  assert (0 <= l < MSC_DAY) as Hl.
  { unfold l. destruct (_ && _); [by apply Z.mod_pos_bound|done]. }
  intros [= <-]. rewrite Z.div_add_l by done. rewrite Z.div_small by done. lia.
Qed.

Lemma sun_spec t lat lng morning : sun_ok ->
  exists b e, sun t lat lng morning = mkTimes (Some b) (Some e) /\ b / MSC_DAY = t / MSC_DAY /\
    b <> e /\ e - b < 2 ^ 50.
Proof.
  intros Hok. specialize (Hok t lat lng morning). cbn zeta in Hok. unfold getSunTimings.
  assert (forall b, first (calculateSunTimings std_sin std_cos std_asin std_acos fmod utcOffset t lat lng morning)
            = Some b -> b / MSC_DAY = t / MSC_DAY) as Hb.
  { intros b. unfold calculateSunTimings. destruct morning; simpl; apply sun_time_date. }
  assert (forall b, second (calculateSunTimings std_sin std_cos std_asin std_acos fmod utcOffset t lat lng morning)
            = Some b -> b / MSC_DAY = t / MSC_DAY) as He.
  { intros b. unfold calculateSunTimings. destruct morning; simpl; apply sun_time_date. }
  destruct (calculateSunTimings std_sin std_cos std_asin std_acos fmod utcOffset t lat lng morning) as [[b|] [e|]];
    simpl in *; [| |done|].
  - exists b, e. split_and!; [done|by apply Hb|done|]. specialize (Hb b eq_refl). specialize (He e eq_refl).
    unfold MSC_DAY in *. Z.to_euclidean_division_equations; lia.
  - exists b, (b + FALLBACK_SLOW_UPDATE_TIME). unfold FALLBACK_SLOW_UPDATE_TIME.
    split_and!; [done|by apply Hb|lia|lia].
  - unfold at_time. eexists _, _. split; [done|]. unfold FALLBACK_SLOW_UPDATE_TIME, MSC_DAY. destruct morning; (split_and!; [Z.to_euclidean_division_equations; lia|lia|lia]).
Qed.

Lemma fixed_brackets now m : times_config m ->
  brackets now (fixed_timings now m) /\ times_wf (m_prev (fixed_timings now m)) /\
  times_wf (m_next (fixed_timings now m)).
Proof.
  intros (Hm & Hme & He & Ht). unfold fixed_timings. cbv zeta.
  destruct (_ && _) eqn:E1; [|destruct (now <? msecs (at_time (now / MSC_DAY) (m_morning m))) eqn:E2];
    cbn in E1; try (cbn in E2);
    unfold brackets, times_wf, at_time, addSecs, addDays, addMSecs, MSC_DAY in *; cbn in *;
    (split; [eexists _, _; split; [done|split; [done|Z.to_euclidean_division_equations; lia]]|]);
    (split; right; eexists _, _; (split; [done|lia])).
Qed.

Lemma reset_brackets now lat lng m : sun_ok ->
  let m' := reset_timings std_sin std_cos std_asin std_acos fmod utcOffset now lat lng m in
  brackets now m' /\ times_wf (m_prev m') /\ times_wf (m_next m').
Proof.
  intros Hok. unfold reset_timings, brackets, times_wf.
  destruct (sun_spec now lat lng true Hok) as (b1 & e1 & -> & D1 & N1 & L1). simpl.
  destruct (sun_spec now lat lng false Hok) as (b2 & e2 & -> & D2 & N2 & L2). simpl.
  destruct (sun_spec (now - MSC_DAY) lat lng false Hok) as (b3 & e3 & -> & D3 & N3 & L3).
  destruct (sun_spec (now + MSC_DAY) lat lng true Hok) as (b4 & e4 & -> & D4 & N4 & L4).
  unfold MSC_DAY in *.
  destruct (now <? b1) eqn:E1; [|destruct (now <? b2) eqn:E2]; simpl;
    (split; [eexists _, _; split; [done|split; [done|Z.to_euclidean_division_equations; lia]]|split; right; by eexists _, _]).
Qed.

Lemma check_brackets now m : checkAutomaticSunTimings now m = true -> brackets now m.
Proof.
  unfold checkAutomaticSunTimings, brackets.
  destruct (first (m_prev m)) as [p|], (second (m_prev m)), (first (m_next m)) as [n|], (second (m_next m)); try done.
  intros H. exists p, n. unfold MSC_DAY. split_and!; [done|done|lia..].
Qed.

Lemma upd_brackets now force m : sun_ok -> times_config m -> times_wf (m_next m) -> m_mode m <> Constant ->
  brackets now (upd now force m) /\ times_wf (m_prev (upd now force m)) /\ times_wf (m_next (upd now force m)).
Proof.
  intros Hok Hc Hn Hm. unfold updateTransitionTimings.
  change (brackets now (emit scheduledTransitionTimingsChanged (emit previousTransitionTimingsChanged ?x)))
    with (brackets now x).
  assert (forall lat lng,
    let m1 := if force then m else
      switch_timings std_sin std_cos std_asin std_acos fmod utcOffset now lat lng m in
    let m2 := if force || negb (checkAutomaticSunTimings now m1)
              then reset_timings std_sin std_cos std_asin std_acos fmod utcOffset now lat lng m1 else m1 in
    brackets now m2 /\ times_wf (m_prev m2) /\ times_wf (m_next m2)) as Hauto.
  { intros lat lng. cbn zeta. destruct force; [by apply reset_brackets|]. cbn [orb].
    destruct (checkAutomaticSunTimings now _) eqn:Ec; cbn [negb]; [|by apply reset_brackets].
    split; [by apply check_brackets|]. unfold switch_timings.
    destruct (daylight m); simpl; (split; [done|]);
      edestruct sun_spec as (b & e & -> & _ & ? & ?); try done; right; by exists b, e. }
  destruct (m_mode m) eqn:Em; [apply Hauto|apply Hauto|by apply fixed_brackets|done].
Qed.


(** ** The invariant *)

Definition in_range (t : Z) : Prop := 990 <= t <= 6500.
Definition signal_ok (s : Signal) : Prop := match s with gammaRamp t => in_range t | _ => True end.

(** What the operations may rely on whatever they do. *)
Record Data (m : Manager) : Prop := mkData {
  d_config : times_config m;
  d_night : 1000 <= m_nightTargetTemp m <= 6500;
  d_day : m_dayTargetTemp m = 6500;
  d_temp : in_range (m_currentTemp m);
  d_signals : Forall signal_ok (signals m);
  d_prev : times_wf (m_prev m);
  d_next : times_wf (m_next m);
}.

Context (available : bool).

(** What holds of the timers and of [m_running] between the events; [T] is the time
    of the last one. *)
Definition scheduled (T : Z) (m : Manager) : Prop :=
  m_running m = true -> m_mode m <> Constant -> exists p, first (m_prev m) = Some p /\ p <= T.
Definition timers_ok (m : Manager) : Prop :=
  (is_Some (m_quickAdjustTimer m) -> m_slowUpdateStartTimer m = None /\ m_slowUpdateTimer m = None) /\
  (is_Some (m_slowUpdateStartTimer m) \/ is_Some (m_slowUpdateTimer m) ->
     m_running m = true /\ m_mode m <> Constant).
Definition running_ok (m : Manager) : Prop :=
  m_running m = true -> m_active m = true /\ m_inhibitReferenceCount m = 0 /\ available = true.
Record Control (T : Z) (m : Manager) : Prop := mkControl {
  k_schedule : scheduled T m;
  k_timers : timers_ok m;
  k_running : running_ok m;
}.

Lemma control_mono T T' m : T <= T' -> Control T m -> Control T' m.
Proof.
  intros HT [H1 H2 H3]. split; [|done|done]. intros Hr Hm. destruct (H1 Hr Hm) as (p & ? & ?).
  exists p. split; [done|lia].
Qed.

Lemma emit_data s m : signal_ok s -> Data m -> Data (emit s m).
Proof. intros Hs []. split; try done. apply Forall_app. by split; [|apply Forall_singleton]. Qed.
Lemma emit_control T s m : Control T m -> Control T (emit s m).
Proof. intros []. by split. Qed.

Lemma cancel_data m : Data m -> Data (cancelAllTimers m).
Proof. intros []. by split. Qed.
Lemma setRunning_data b m : Data m -> Data (setRunning b m).
Proof. intros []. unfold setRunning. destruct (Bool.eqb _ _); [by split|]. apply emit_data; [done|by split]. Qed.
Lemma setEnabled_data b m : Data m -> Data (setEnabled b m).
Proof.
  intros []. unfold setEnabled. destruct (Bool.eqb _ _); [by split|]. apply emit_data; [done|]. apply emit_data; [done|by split].
Qed.
Lemma setMode_data mode m : Data m -> Data (setMode mode m).
Proof. intros []. unfold setMode. destruct (decide _); [by split|]. apply emit_data; [done|by split]. Qed.
Lemma target_data m : Data m -> Data (updateTargetTemperature m).
Proof. intros []. unfold updateTargetTemperature. destruct (_ =? _); [by split|]. apply emit_data; [done|by split]. Qed.

Lemma setRunning_running b m : m_running (setRunning b m) = b.
Proof. unfold setRunning. destruct (Bool.eqb (m_running m) b) eqn:E; [by apply eqb_prop|done]. Qed.

Lemma setRunning_prev b m : m_prev (setRunning b m) = m_prev m.
Proof. unfold setRunning. by destruct (Bool.eqb _ _). Qed.
Lemma target_prev m : m_prev (updateTargetTemperature m) = m_prev m.
Proof. unfold updateTargetTemperature. by destruct (_ =? _). Qed.

(** What the timers, the schedule and the commits leave alone. *)
Definition keeps (m m' : Manager) : Prop :=
  m_active m' = m_active m /\ m_mode m' = m_mode m /\
  m_inhibitReferenceCount m' = m_inhibitReferenceCount m /\
  m_isGloballyInhibited m' = m_isGloballyInhibited m.
#[local] Instance keeps_preorder : PreOrder keeps.
Proof. split; [by intros m; red|]. unfold keeps. intros m1 m2 m3 H1 H2. naive_solver congruence. Qed.

Lemma commit_output_keeps t m o : keeps m (commit_output t m o).
Proof.
  unfold commit_output, setCurrentTemperature, setRunning. destruct (setGammaRamp _ _); [by destruct (_ =? _)|].
  destruct (_ <? _); [done|]. cbn. by destruct (m_running m).
Qed.

Lemma commit_output_data t m o : in_range t -> Data m -> Data (commit_output t m o).
Proof.
  intros Ht Hd. apply (emit_data (gammaRamp t)) in Hd; [|done]. unfold commit_output.
  destruct (setGammaRamp _ _).
  - unfold setCurrentTemperature. destruct (_ =? _); [by destruct Hd|].
    enough (Data (emit (currentTemperatureChanged t) ((emit (gammaRamp t) m) <| m_currentTemp := t |>)))
      as [] by by split.
    apply emit_data; [done|]. by destruct Hd.
  - destruct (_ <? _); [by destruct Hd|]. apply cancel_data, setRunning_data. by destruct Hd.
Qed.

Lemma commit_output_control T t m o : Control T m -> Control T (commit_output t m o).
Proof.
  intros [H1 H2 H3]. unfold commit_output. destruct (setGammaRamp _ _).
  - unfold setCurrentTemperature. by destruct (_ =? _).
  - destruct (_ <? _); [by split|]. cbn. unfold setRunning. cbn.
    destruct (m_running m); split; try done; split; try (by intros [? ?]); by intros [[? ?]|[? ?]].
Qed.

Section Outputs.
Context (outs : list Output).

Lemma commit_keeps t m : keeps m (commitGammaRamps outs t m).
Proof.
  unfold commitGammaRamps. revert m. induction outs as [|o l IH]; intros m; [done|]. simpl.
  etransitivity; [apply commit_output_keeps|apply IH].
Qed.
Lemma commit_data t m : in_range t -> Data m -> Data (commitGammaRamps outs t m).
Proof.
  intros Ht. unfold commitGammaRamps. revert m. induction outs as [|o l IH]; intros m Hm; [done|]. simpl.
  by apply IH, commit_output_data.
Qed.
Lemma commit_control T t m : Control T m -> Control T (commitGammaRamps outs t m).
Proof.
  unfold commitGammaRamps. revert m. induction outs as [|o l IH]; intros m Hm; [done|]. simpl.
  by apply IH, commit_output_control.
Qed.
End Outputs.

(** ** The operations keep the invariant *)

Lemma currentTargetTemp_range now m : Data m -> scheduled now m -> in_range (currentTargetTemp now m).
Proof.
  intros Hd Hs. unfold currentTargetTemp, in_range. destruct (m_running m) eqn:Er; [|by unfold NEUTRAL_TEMPERATURE].
  pose proof (d_night m Hd). pose proof (d_day m Hd) as Hday.
  case_bool_decide as Ec; cbn [negb]; [lia|]. destruct (Hs Er Ec) as (p & Hp & Hpn).
  destruct (d_prev m Hd) as [Hw|(b & e & Hw & Hbe & He)]; rewrite Hw in *; [done|]. injection Hp as ->.
  cbn [first second msecs default from_option id].
  destruct (now <=? e) eqn:E; [|destruct (daylight m); lia].
  unfold msecsTo. destruct (daylight m); apply transition_temp_range; lia.
Qed.

Lemma next_temp_range current target : in_range current -> in_range target -> in_range (next_temp current target).
Proof. unfold in_range, next_temp, TEMPERATURE_STEP. destruct (_ <? _) eqn:E; lia. Qed.

Section Events.
Context (Hsun : sun_ok) (outs : list Output) (now : Z).

Lemma upd_same force m : exists prev next sigs,
  upd now force m = m <| m_prev := prev |> <| m_next := next |> <| signals := sigs |>.
Proof.
  unfold updateTransitionTimings, fixed_timings, switch_timings, reset_timings.
  destruct m as [? ? ? []]; cbn; repeat (case_match; cbn); by eexists _, _, _.
Qed.

Lemma upd_data force m : Data m -> Data (upd now force m).
Proof.
  intros Hd. assert (Forall signal_ok (signals (upd now force m))) as Hs.
  { unfold updateTransitionTimings, emit. cbn. rewrite !Forall_app. split_and!; [|by repeat constructor..].
    enough (signals _ = signals m) as -> by apply Hd.
    unfold fixed_timings, switch_timings, reset_timings. cbn. repeat case_match; done. }
  assert (times_wf (m_prev (upd now force m)) /\ times_wf (m_next (upd now force m))) as [Hp Hn].
  { destruct (decide (m_mode m = Constant)) as [E|E].
    - unfold updateTransitionTimings. rewrite E. cbn. split; by left.
    - by apply upd_brackets; try apply Hd. }
  destruct (upd_same force m) as (prev & next & sigs & E). rewrite E in *. destruct Hd. by split.
Qed.

Lemma upd_scheduled force m : Data m -> scheduled now (upd now force m).
Proof.
  intros Hd _ Hm. destruct (upd_same force m) as (prev & next & sigs & E).
  assert (m_mode m <> Constant) as Hm' by (by rewrite E in Hm).
  destruct (upd_brackets now force m) as [(p & n & Hp & _ & Hpn & _) _]; try apply Hd; try done.
  exists p. split; [done|lia].
Qed.

Lemma upd_control force m : Data m -> timers_ok m -> running_ok m -> Control now (upd now force m).
Proof.
  intros Hd Ht Hr. split; [by apply upd_scheduled| |];
    destruct (upd_same force m) as (prev & next & sigs & ->); done.
Qed.

Lemma target_control T m : Control T m -> Control T (updateTargetTemperature m).
Proof. intros []. unfold updateTargetTemperature. destruct (_ =? _); [by split|]. by apply emit_control. Qed.
Lemma upd_keeps force m : keeps m (upd now force m).
Proof. by destruct (upd_same force m) as (prev & next & sigs & ->). Qed.
Lemma target_keeps m : keeps m (updateTargetTemperature m).
Proof. unfold updateTargetTemperature. by destruct (_ =? _). Qed.

(** A manager as it may be after the event at [now]. *)
Definition good (m0 m : Manager) : Prop := Data m /\ Control now m /\ keeps m0 m.

Lemma slow_timer_good m :
  Data m -> Control now m -> m_running m = true -> m_mode m <> Constant -> m_quickAdjustTimer m = None ->
  good m (resetSlowUpdateTimer outs now m).
Proof.
  intros Hd Hk Hr Hm Hq. unfold resetSlowUpdateTimer. cbv zeta.
  set (m1 := m <| m_slowUpdateTimer := None |>).
  assert (Data m1) as Hd1 by (by destruct Hd).
  assert (Control now m1) as Hk1.
  { destruct Hk as [? [? ?] ?]. split; [done| |done]. split; [naive_solver|done]. }
  pose proof (d_night m1 Hd1). pose proof (d_day m1 Hd1).
  destruct (_ || _).
  - split_and!; [apply commit_data; [|done]|by apply commit_control|apply (commit_keeps outs _ m1)].
    unfold in_range. destruct (daylight m1); lia.
  - destruct (_ && _); [|done]. split_and!; [by destruct Hd1| |done].
    destruct Hk1 as [? [? ?] ?]. split; [done| |done]. split; [|done].
    intros Hq'. change (m_quickAdjustTimer _) with (m_quickAdjustTimer m) in Hq'. rewrite Hq in Hq'.
    by destruct Hq'.
Qed.

Lemma slow_start_good m : Data m -> Control now m ->
  good m (resetSlowUpdateStartTimer std_sin std_cos std_asin std_acos fmod utcOffset outs now m).
Proof.
  intros Hd Hk. unfold resetSlowUpdateStartTimer. cbv zeta.
  set (m1 := m <| m_slowUpdateStartTimer := None |>).
  assert (Data m1) as Hd1 by (by destruct Hd).
  assert (Control now m1) as Hk1.
  { destruct Hk as [? [? ?] ?]. split; [done| |done]. split; [naive_solver|naive_solver]. }
  destruct (m_running m1) eqn:Er; cbn [negb orb]; [|done].
  destruct (m_quickAdjustTimer m1) eqn:Eq; [done|].
  case_bool_decide as Ec; [done|].
  set (m2 := m1 <| m_slowUpdateStartTimer := Some None |>).
  assert (Data m2) as Hd2 by (by destruct Hd1).
  assert (Control now m2) as Hk2.
  { destruct Hk1 as [? [? ?] ?]. split; [done| |done]. split; [|done]. intros Hq.
    change (m_quickAdjustTimer m2) with (m_quickAdjustTimer m1) in Hq. rewrite Eq in Hq. by destruct Hq. }
  set (m3 := updateTargetTemperature (upd now false m2)).
  assert (Data m3 /\ Control now m3 /\ keeps m m3 /\ m_running m3 = true /\ m_quickAdjustTimer m3 = None)
    as (Hd3 & Hk3 & Hks & Hr3 & Hq3).
  { split; [by apply target_data, upd_data|]. split; [apply target_control; apply upd_control; [done|apply Hk2|apply Hk2]|].
    split; [etransitivity; [apply (upd_keeps false m2)|apply target_keeps]|].
    unfold m3, updateTargetTemperature. destruct (upd_same false m2) as (prev & next & sigs & ->). by destruct (_ =? _). }
  destruct (i32 _ <=? 0); [done|].
  assert (m_mode m3 <> Constant) as Hm3 by (destruct Hks as (_ & -> & _); done).
  set (m4 := m3 <| m_slowUpdateStartTimer := Some (Some (i32 (msecsTo (Some now) (first (m_next m3))))) |>).
  assert (Control now m4) as Hk4.
  { destruct Hk3 as [? [? ?] ?]. split; [done| |done]. split; [|done]. intros Hq.
    change (m_quickAdjustTimer m4) with (m_quickAdjustTimer m3) in Hq. rewrite Hq3 in Hq. by destruct Hq. }
  destruct (slow_timer_good m4) as (? & ? & Hks4); [by destruct Hd3|done..|].
  split_and!; [done|done|]. etransitivity; [exact Hks|exact Hks4].
Qed.

Lemma quick_timer_good m : Data m -> timers_ok m -> running_ok m ->
  good m (resetQuickAdjustTimer std_sin std_cos std_asin std_acos fmod utcOffset outs now m).
Proof.
  intros Hd Ht Hr. unfold resetQuickAdjustTimer. cbv zeta.
  set (m1 := updateTargetTemperature (upd now false m)).
  assert (good m m1) as (Hd1 & Hk1 & Hks).
  { split_and!; [by apply target_data, upd_data|by apply target_control, upd_control|].
    etransitivity; [apply (upd_keeps false m)|apply target_keeps]. }
  destruct (_ <? _).
  - split_and!; [by destruct Hd1| |done]. destruct Hk1 as [? ? ?]. split; [done| |done].
    split; [done|]. intros [[? [=]]|[? [=]]].
  - destruct (slow_start_good m1) as (? & ? & ?); [done..|]. split_and!; [done|done|]. by etransitivity.
Qed.

Lemma reset_good m : Data m ->
  good m (resetAllTimers std_sin std_cos std_asin std_acos fmod utcOffset available outs now m).
Proof.
  intros Hd. unfold resetAllTimers. cbv zeta. set (m1 := cancelAllTimers m).
  assert (Data m1) as Hd1 by (by apply cancel_data).
  assert (forall b, timers_ok (setRunning b m1) /\ keeps m (setRunning b m1)) as Hset.
  { intros b. unfold setRunning. destruct (Bool.eqb _ _); (split; [|done]); (split; [by intros [? [=]]|by intros [[? [=]]|[? [=]]]]). }
  destruct available eqn:Ea.
  - set (b := m_active m1 && negb (isInhibited m1)). destruct (Hset b) as [Ht Hks].
    destruct (quick_timer_good (setRunning b m1)) as (? & ? & ?).
    + by apply setRunning_data.
    + done.
    + intros Hb. rewrite setRunning_running in Hb. destruct Hks as (Ha & _ & Hc & _). rewrite Ha, Hc.
      unfold b, isInhibited in Hb. change (m_active m1) with (m_active m) in Hb.
      change (m_inhibitReferenceCount m1) with (m_inhibitReferenceCount m) in Hb.
      apply andb_prop in Hb as [-> Hb]. split_and!; [done| |done]. destruct (_ =? 0) eqn:E0 in Hb; [by apply Z.eqb_eq|done].
    + split_and!; [done|done|]. by etransitivity.
  - destruct (Hset false) as [Ht Hks]. split_and!; [by apply setRunning_data| |done].
    split; [|done|]; intros Hb; by rewrite setRunning_running in Hb.
Qed.

Local Notation reset := (resetAllTimers std_sin std_cos std_asin std_acos fmod utcOffset available outs now) (only parsing).

Lemma hard_good m : Data m -> good m (hardReset std_sin std_cos std_asin std_acos fmod utcOffset available outs now m).
Proof.
  intros Hd. unfold hardReset. cbv zeta. set (m1 := updateTargetTemperature (upd now true (cancelAllTimers m))).
  assert (Data m1 /\ keeps m m1) as [Hd1 Hks].
  { split; [by apply target_data, upd_data, cancel_data|].
    etransitivity; [apply (upd_keeps true (cancelAllTimers m))|apply target_keeps]. }
  set (m2 := if available && m_active m1 && negb (isInhibited m1) then _ else m1).
  assert (Data m2 /\ keeps m1 m2) as [Hd2 Hks2].
  { unfold m2. destruct (_ && _); [|done]. set (m' := setRunning true m1).
    assert (Data m') as Hd' by (by apply setRunning_data).
    assert (keeps m1 m') as Hk' by (unfold m', setRunning; by destruct (Bool.eqb _ _)).
    split; [|etransitivity; [done|apply commit_keeps]].
    apply commit_data; [|done]. apply currentTargetTemp_range; [done|]. intros _ Hm.
    assert (m_mode (cancelAllTimers m) <> Constant) as Hm0.
    { intros E. apply Hm. by destruct Hks as (_ & E1 & _), Hk' as (_ & -> & _); rewrite E1. }
    destruct (upd_brackets now true (cancelAllTimers m))
      as [(p & n & Hp & _ & Hpn & _) _]; try done; try (by apply Hd).
    exists p. split; [|lia]. rewrite <- Hp. unfold m', m1. by rewrite setRunning_prev, target_prev. }
  destruct (reset_good m2 Hd2) as (? & ? & ?). split_and!; [done|done|].
  etransitivity; [exact Hks|]. by etransitivity.
Qed.

Lemma quick_good T m : T <= now -> Data m -> Control T m ->
  good m (quickAdjust std_sin std_cos std_asin std_acos fmod utcOffset outs now m).
Proof.
  intros HT Hd Hk%(control_mono T now); [|done]. unfold quickAdjust.
  destruct (m_quickAdjustTimer m); [|done]. cbv zeta.
  pose proof (currentTargetTemp_range now m Hd (k_schedule _ _ Hk)) as Ht.
  pose proof (next_temp_range _ _ (d_temp m Hd) Ht) as Hn.
  set (m1 := commitGammaRamps outs _ m).
  assert (Data m1) as Hd1 by (by apply commit_data). assert (Control now m1) as Hk1 by (by apply commit_control).
  assert (keeps m m1) as Hks by apply commit_keeps.
  destruct (_ =? _); [|done].
  destruct (slow_start_good (m1 <| m_quickAdjustTimer := None |>)) as (? & ? & ?); [by destruct Hd1| |].
  - destruct Hk1 as [? [? ?] ?]. split; [done| |done]. split; [by intros [? [=]]|done].
  - split_and!; [done|done|]. by etransitivity.
Qed.

Lemma slow_good T m : T <= now -> Data m -> Control T m -> good m (slow_timeout outs m).
Proof.
  intros HT Hd Hk%(control_mono T now); [|done]. unfold slow_timeout, slowUpdate.
  destruct (m_slowUpdateTimer m) as [[i day]|]; [|done]. cbv zeta.
  pose proof (d_night m Hd). pose proof (d_day m Hd).
  set (target := if day then _ else _). assert (in_range target) as Ht by (unfold in_range, target; destruct day; lia).
  pose proof (next_temp_range _ _ (d_temp m Hd) Ht) as Hn.
  set (m1 := commitGammaRamps outs _ m).
  assert (Data m1) as Hd1 by (by apply commit_data). assert (Control now m1) as Hk1 by (by apply commit_control).
  assert (keeps m m1) as Hks by apply commit_keeps.
  destruct (_ =? _); [|done]. split_and!; [by destruct Hd1| |done].
  destruct Hk1 as [? [? ?] ?]. split; [done| |done]. split; [naive_solver|naive_solver].
Qed.

Lemma start_good T m : T <= now -> Data m -> Control T m ->
  good m (start_timeout std_sin std_cos std_asin std_acos fmod utcOffset outs now m).
Proof.
  intros HT Hd Hk%(control_mono T now); [|done]. unfold start_timeout.
  destruct (m_slowUpdateStartTimer m) as [[?|]|]; [by apply slow_start_good|done|done].
Qed.

Lemma cancel_good T m : T <= now -> Data m -> Control T m -> good m (cancelAllTimers m).
Proof.
  intros HT Hd Hk%(control_mono T now); [|done]. split_and!; [by apply cancel_data| |done].
  destruct Hk. split; [done| |done]. split; [by intros [? [=]]|by intros [[? [=]]|[? [=]]]].
Qed.

(** Changing the number of inhibitors; [global] is the switch of the user. *)
Definition counted (m0 m : Manager) (count : Z) : Prop :=
  Data m /\ Control now m /\ m_inhibitReferenceCount m = count /\
  m_isGloballyInhibited m = m_isGloballyInhibited m0.

Lemma inhibit_good T m : T <= now -> Data m -> Control T m -> 0 <= m_inhibitReferenceCount m ->
  counted m (inhibit std_sin std_cos std_asin std_acos fmod utcOffset available outs now m)
    (m_inhibitReferenceCount m + 1).
Proof.
  intros HT Hd Hk%(control_mono T now) Hc; [|done]. unfold inhibit. cbv zeta.
  set (m1 := m <| m_inhibitReferenceCount := _ |>). assert (Data m1) as Hd1 by (by destruct Hd).
  change (m_inhibitReferenceCount m1) with (m_inhibitReferenceCount m + 1).
  destruct (_ =? 1) eqn:E.
  - destruct (reset_good m1 Hd1) as (? & ? & _ & _ & ? & ?).
    split_and!; [by apply emit_data|by apply emit_control|done|done].
  - split_and!; [done| |done|done]. destruct Hk as [? ? Hr]. split; [done|done|].
    intros Hr1. destruct (Hr Hr1) as (_ & H0 & _). rewrite H0 in E. done.
Qed.

Lemma uninhibit_good T m : T <= now -> Data m -> Control T m -> 1 <= m_inhibitReferenceCount m ->
  counted m (uninhibit std_sin std_cos std_asin std_acos fmod utcOffset available outs now m)
    (m_inhibitReferenceCount m - 1).
Proof.
  intros HT Hd Hk%(control_mono T now) Hc; [|done]. unfold uninhibit. cbv zeta.
  set (m1 := m <| m_inhibitReferenceCount := _ |>). assert (Data m1) as Hd1 by (by destruct Hd).
  change (m_inhibitReferenceCount m1) with (m_inhibitReferenceCount m - 1).
  destruct (_ =? 0) eqn:E.
  - destruct (reset_good m1 Hd1) as (? & ? & _ & _ & ? & ?).
    split_and!; [by apply emit_data|by apply emit_control|done|done].
  - split_and!; [done| |done|done]. destruct Hk as [? ? Hr]. split; [done|done|].
    intros Hr1. destruct (Hr Hr1) as (_ & H0 & _). lia.
Qed.

(** *** The configuration *)

Section Configuration.
Context (parse_hhmm : string -> option Z) (print_hhmm : Z -> string).
(** Times of the day. *)
Context (Hparse : forall s t, parse_hhmm s = Some t -> 0 <= t < MSC_DAY).

Lemma read_timings_ok s : let '(a, b, tr) := read_timings parse_hhmm s in
  0 <= a /\ a < b /\ b < MSC_DAY /\ 1 <= tr < 2 ^ 31.
Proof.
  unfold read_timings. cbv zeta.
  assert (forall a b d, 0 <= a /\ a < b /\ b < MSC_DAY -> d <= MSC_DAY ->
    let tr := i32 (i32 (s_transitionTime s * 1000) * 60) in
    let '(x, y, z) := if (tr <? 0) || (Z.min d (MSC_DAY - d) <=? tr)
      then (6 * 3600000, 18 * 3600000, FALLBACK_SLOW_UPDATE_TIME) else (a, b, tr) in
    0 <= x /\ x < y /\ y < MSC_DAY /\ 1 <= Z.max (cdiv (cdiv z 1000) 60) 1 < 2 ^ 31) as H.
  { intros a b d Hab Hd. cbv zeta. destruct (_ || _) eqn:E; [by vm_compute|].
    apply orb_false_iff in E as [E1%Z.ltb_ge E2%Z.leb_gt]. split_and!; [lia..|lia|].
    rewrite cdiv_nonneg, cdiv_nonneg by (rewrite ?cdiv_nonneg by lia; try apply Z.div_pos; lia).
    unfold MSC_DAY in *. Z.to_euclidean_division_equations; lia. }
  destruct (parse_hhmm (s_morningBeginFixed s)) as [a|] eqn:Ea, (parse_hhmm (s_eveningBeginFixed s)) as [b|] eqn:Eb;
    try (specialize (H (6 * 3600000) (18 * 3600000) (12 * 3600000)); cbv zeta in H;
         destruct (if _ : bool then _ else _) as [[? ?] ?]; by apply H).
  pose proof (Hparse _ _ Ea). pose proof (Hparse _ _ Eb). destruct (b - a <=? 0) eqn:E.
  - specialize (H (6 * 3600000) (18 * 3600000) (12 * 3600000)); cbv zeta in H;
      destruct (if _ : bool then _ else _) as [[? ?] ?]; by apply H.
  - specialize (H a b (b - a)); cbv zeta in H.
    destruct (if _ : bool then _ else _) as [[? ?] ?]. apply H; lia.
Qed.

Lemma readConfig_data s m : Data m -> Data (readConfig parse_hhmm s m) /\
  m_inhibitReferenceCount (readConfig parse_hhmm s m) = m_inhibitReferenceCount m /\
  m_isGloballyInhibited (readConfig parse_hhmm s m) = m_isGloballyInhibited m.
Proof.
  intros Hd. unfold readConfig. pose proof (read_timings_ok s) as Ht.
  destruct (correctReadin _ _) as [la ln], (correctReadin _ _) as [fa fn], (read_timings _ _) as [[a b] tr].
  set (m1 := setMode _ _). assert (Data m1) as [] by (by apply setMode_data, setEnabled_data). split.
  - split; try done. cbn. pose proof (qBound_range MIN_TEMPERATURE (s_nightTemperature s) NEUTRAL_TEMPERATURE).
    unfold MIN_TEMPERATURE, NEUTRAL_TEMPERATURE in *. lia.
  - unfold m1, setMode, setEnabled. cbn. destruct (decide _); by destruct (Bool.eqb _ _).
Qed.

(** The values that a client may send: times of the day, and an [int]. *)
Definition config_values (c : Config) : Prop :=
  match c_MorningBeginFixed c, c_EveningBeginFixed c, c_TransitionTime c with
  | Value (Some mo), Value (Some ev), Value tr => 0 <= mo < MSC_DAY /\ 0 <= ev < MSC_DAY /\ tr < 2 ^ 31
  | _, _, _ => True
  end.

Lemma write_config_data active mode nightT lat lng mor eve trT m s :
  Data m -> 1000 <= nightT <= 6500 -> 0 <= mor /\ mor < eve /\ eve < MSC_DAY /\ 1 <= trT < 2 ^ 31 ->
  Data (write_config print_hhmm active mode nightT lat lng mor eve trT m s).1.
Proof.
  intros Hd Hn Ht. unfold write_config. cbv zeta. cbn [fst].
  assert (Data (setMode mode (setEnabled active m))) as [] by (by apply setMode_data, setEnabled_data). by split.
Qed.

(** Writing what is there already changes neither the mode nor whether it is active. *)
Lemma write_config_keeps mode nightT lat lng mor eve trT m s :
  mode = m_mode m -> keeps m (write_config print_hhmm (m_active m) mode nightT lat lng mor eve trT m s).1 /\
  let m' := (write_config print_hhmm (m_active m) mode nightT lat lng mor eve trT m s).1 in
  m_running m' = m_running m /\ m_prev m' = m_prev m /\ m_quickAdjustTimer m' = m_quickAdjustTimer m /\
  m_slowUpdateStartTimer m' = m_slowUpdateStartTimer m /\ m_slowUpdateTimer m' = m_slowUpdateTimer m.
Proof.
  intros ->. unfold write_config. cbv zeta. cbn [fst]. unfold setMode, setEnabled.
  rewrite Bool.eqb_reflx. by rewrite decide_True by done.
Qed.

Lemma write_config_counts active mode nightT lat lng mor eve trT m s :
  let m' := (write_config print_hhmm active mode nightT lat lng mor eve trT m s).1 in
  m_inhibitReferenceCount m' = m_inhibitReferenceCount m /\ m_isGloballyInhibited m' = m_isGloballyInhibited m.
Proof.
  unfold write_config. cbv zeta. cbn [fst]. unfold setMode, setEnabled.
  destruct (decide _); by destruct (Bool.eqb _ _).
Qed.

Lemma control_same T m m' : keeps m m' -> m_running m' = m_running m -> m_prev m' = m_prev m ->
  m_quickAdjustTimer m' = m_quickAdjustTimer m -> m_slowUpdateStartTimer m' = m_slowUpdateStartTimer m ->
  m_slowUpdateTimer m' = m_slowUpdateTimer m -> Control T m -> Control T m'.
Proof.
  intros (Ha & Hm & Hc & _) Hr Hp Hq Hs Hu [K1 K2 K3]. unfold scheduled, timers_ok, running_ok in *.
  split; unfold scheduled, timers_ok, running_ok; by rewrite ?Ha, ?Hm, ?Hc, ?Hr, ?Hp, ?Hq, ?Hs, ?Hu.
Qed.

Lemma check_times_ok c m a b tr : config_values c -> times_config m ->
  check_times c m = Some (a, b, tr) -> 0 <= a /\ a < b /\ b < MSC_DAY /\ 1 <= tr < 2 ^ 31.
Proof.
  unfold config_values, check_times. intros Hc (H1 & H2 & H3 & H4).
  destruct (c_MorningBeginFixed c) as [| |[mo|]]; try done; try (by intros [= <- <- <-]);
    destruct (c_EveningBeginFixed c) as [| |[ev|]]; try done; try (by intros [= <- <- <-]);
    destruct (c_TransitionTime c) as [| |t]; try done; try (by intros [= <- <- <-]).
  destruct (_ || _) eqn:E; [done|]. intros [= <- <- <-]. apply orb_false_iff in E as [E E3].
  apply orb_false_iff in E as [E1 E2]. lia.
Qed.

Lemma change_good T c m s : T <= now -> config_values c -> Data m -> Control T m ->
  let m' := (changeConfiguration std_sin std_cos std_asin std_acos fmod utcOffset available outs now
               print_hhmm c (m, s)).1.1 in
  counted m m' (m_inhibitReferenceCount m).
Proof.
  intros HT Hc Hd Hk%(control_mono T now); [|done]. unfold changeConfiguration. cbv zeta.
  destruct (check_entry (c_Active c) _ _) as [active|]; [cbn [mbind option_bind]|done].
  destruct (check_mode c _) as [mode|]; [cbn [mbind option_bind]|done].
  destruct (check_entry (c_NightTemperature c) _ _) as [nightT|] eqn:En; [cbn [mbind option_bind]|done].
  destruct (check_location c m) as [[lat lng]|]; [cbn [mbind option_bind]|done].
  destruct (check_times c m) as [[[mor eve] trT]|] eqn:Et; [cbn [mbind option_bind]|done].
  apply check_times_ok in Et; [|done|by apply Hd].
  assert (1000 <= nightT <= 6500) as Hn.
  { unfold check_entry in En. destruct (c_NightTemperature c); [|done|].
    - injection En as <-. apply Hd.
    - destruct (_ && _) eqn:E; [|done]. injection En as <-. unfold MIN_TEMPERATURE, NEUTRAL_TEMPERATURE in E. lia. }
  destruct (negb _); [done|]. destruct (_ || _) eqn:Er.
  - pose proof (write_config_data active mode nightT lat lng mor eve trT (cancelAllTimers m) s
      (cancel_data _ Hd) Hn Et) as Hw.
    pose proof (write_config_counts active mode nightT lat lng mor eve trT (cancelAllTimers m) s) as [Hw1 Hw2].
    destruct (write_config _ _ _ _ _ _ _ _ _ _) as [m2 s2]. cbn [fst] in *.
    destruct (reset_good m2 Hw) as (? & ? & _ & _ & Hc1 & Hc2).
    split_and!; [by apply emit_data|by apply emit_control| |].
    + transitivity (m_inhibitReferenceCount m2); [exact Hc1|exact Hw1].
    + transitivity (m_isGloballyInhibited m2); [exact Hc2|exact Hw2].
  - repeat (apply orb_false_iff in Er as [Er ?]). apply negb_false_iff, eqb_prop in Er.
    assert (mode = m_mode m) as Em.
    { match goal with H : negb (bool_decide (m_mode m = mode)) = false |- _ =>
        apply negb_false_iff, bool_decide_eq_true in H; done end. }
    rewrite <- Er.
    pose proof (write_config_data (m_active m) mode nightT lat lng mor eve trT m s Hd Hn Et) as Hw.
    pose proof (write_config_keeps mode nightT lat lng mor eve trT m s Em) as [Hks Hw1].
    destruct (write_config _ _ _ _ _ _ _ _ _ _) as [m2 s2]. cbn [fst] in *. cbv zeta in Hw1.
    destruct Hw1 as (? & ? & ? & ? & ?).
    split_and!; [by apply emit_data|apply emit_control; by apply (control_same now m)|apply Hks|apply Hks].
Qed.

Lemma location_good T la ln m s : T <= now -> Data m -> Control T m ->
  counted m (autoLocationUpdate std_sin std_cos std_asin std_acos fmod utcOffset available outs now la ln (m, s)).1
    (m_inhibitReferenceCount m).
Proof.
  intros HT Hd Hk%(control_mono T now); [|done]. unfold autoLocationUpdate.
  destruct (negb _); [done|]. destruct (_ && _); [done|]. cbv zeta. cbn [fst].
  set (m1 := (cancelAllTimers m) <| m_latAuto := la |> <| m_lngAuto := ln |>).
  destruct (reset_good m1) as (? & ? & _ & _ & ? & ?); [by destruct Hd|].
  split_and!; [by apply emit_data|by apply emit_control|done|done].
Qed.
End Configuration.

(** *** The clients *)

(** The counter counts the cookies and the switch of the user, no cookie is given
    out twice, and the watcher watches exactly the services that hold one. *)
Record Counted (i : Interface) : Prop := mkCounted {
  i_count : m_inhibitReferenceCount (manager i) =
            Z.of_nat (length (m_inhibitors i)) + (if m_isGloballyInhibited (manager i) then 1 else 0);
  i_nodup : NoDup (m_inhibitors i);
  i_cookies : forall s c, (s, c) ∈ m_inhibitors i -> c <= m_lastInhibitionCookie i;
  i_last : 0 <= m_lastInhibitionCookie i;
  i_watched : forall s, s ∈ watched i <-> exists c, (s, c) ∈ m_inhibitors i;
}.

Definition Ok (T : Z) (i : Interface) : Prop :=
  Data (manager i) /\ Control T (manager i) /\ Counted i.

Lemma has_service_true i s : has_service i s = true <-> exists c, (s, c) ∈ m_inhibitors i.
Proof.
  unfold has_service. rewrite existsb_exists. split.
  - intros ([s' c] & H%list_elem_of_In & E%bool_decide_eq_true). simpl in E. subst. by exists c.
  - intros [c H]. exists (s, c). split; [by apply list_elem_of_In|by apply bool_decide_eq_true].
Qed.

Lemma dbus_inhibit_ok T s i : T <= now -> m_lastInhibitionCookie i + 1 < 2 ^ 32 -> Ok T i ->
  let i' := (dbus_inhibit std_sin std_cos std_asin std_acos fmod utcOffset available outs now s i).1 in
  Ok now i' /\ m_lastInhibitionCookie i' = m_lastInhibitionCookie i + 1.
Proof.
  intros HT Hlast (Hd & Hk & [H1 H2 H3 H4 H5]). cbv zeta. unfold dbus_inhibit. cbn [fst].
  destruct (inhibit_good T (manager i)) as (Hd' & Hk' & Hc & Hg); [done..| |].
  { rewrite H1. destruct (m_isGloballyInhibited _); lia. }
  rewrite u32_small by lia. split; [|done]. split; [done|]. split; [done|]. split; cbn.
  - rewrite Hc, Hg, H1. lia.
  - apply NoDup_cons. split; [|done]. intros H%H3. lia.
  - intros s' c [[= -> ->]|H]%elem_of_cons; [lia|]. specialize (H3 _ _ H). lia.
  - lia.
  - intros s'. setoid_rewrite elem_of_cons. destruct (has_service i s) eqn:E.
    + apply has_service_true in E. rewrite H5. naive_solver.
    + rewrite elem_of_cons, H5. naive_solver.
Qed.

Lemma dbus_uninhibit_inhibitors s c i :
  m_inhibitors (dbus_uninhibit std_sin std_cos std_asin std_acos fmod utcOffset available outs now s c i) =
  remove_all (s, c) (m_inhibitors i).
Proof.
  unfold dbus_uninhibit. destruct (contains (m_inhibitors i) (s, c)) eqn:E; cbn [negb].
  - cbv zeta. by destruct (has_service _ s).
  - apply contains_false in E. by rewrite remove_all_id.
Qed.

Lemma dbus_uninhibit_ok T s c i : T <= now -> Ok T i ->
  let i' := dbus_uninhibit std_sin std_cos std_asin std_acos fmod utcOffset available outs now s c i in
  Ok now i' /\ m_lastInhibitionCookie i' = m_lastInhibitionCookie i.
Proof.
  intros HT (Hd & Hk & [H1 H2 H3 H4 H5]). cbv zeta. unfold dbus_uninhibit.
  destruct (contains (m_inhibitors i) (s, c)) eqn:E; cbn [negb].
  2:{ split; [|done]. split; [done|]. split; [by apply (control_mono T)|by split]. }
  apply contains_true in E.
  pose proof (remove_all_Permutation (s, c) (m_inhibitors i) H2 E) as Hp. pose proof (Permutation_length Hp) as Hl.
  simpl in Hl. cbv zeta. set (i1 := i <| m_inhibitors := _ |>).
  set (i2 := if has_service i1 s then i1 else _).
  assert (manager i2 = manager i /\ m_inhibitors i2 = remove_all (s, c) (m_inhibitors i) /\
    m_lastInhibitionCookie i2 = m_lastInhibitionCookie i) as (Em & Ei & El) by (unfold i2; by destruct (has_service i1 s)).
  assert (forall s', s' ∈ watched i2 <-> exists c', (s', c') ∈ m_inhibitors i2) as Hw.
  { intros s'. unfold i2. destruct (has_service i1 s) eqn:Es.
    - apply has_service_true in Es as [c0 Hc0]. change (watched i1) with (watched i).
      change (m_inhibitors i1) with (remove_all (s, c) (m_inhibitors i)) in *.
      rewrite H5. setoid_rewrite elem_of_remove_all. split; [|naive_solver].
      intros [c' Hc']. destruct (decide ((s', c') = (s, c))) as [[= -> ->]|]; [|by exists c'].
      exists c0. by apply elem_of_remove_all in Hc0.
    - change (watched (i1 <| watched := _ |>)) with (remove_all s (watched i)).
      change (m_inhibitors (i1 <| watched := _ |>)) with (remove_all (s, c) (m_inhibitors i)).
      rewrite elem_of_remove_all, H5. setoid_rewrite elem_of_remove_all. split.
      + intros [[c' Hc'] Hne]. exists c'. split; [done|congruence].
      + intros [c' [Hc' Hne]]. split; [by exists c'|]. intros ->.
        assert (has_service i1 s = true) as Hh; [|congruence]. apply has_service_true. exists c'.
        by apply elem_of_remove_all. }
  rewrite Em. destruct (uninhibit_good T (manager i)) as (Hd' & Hk' & Hc & Hg); [done..| |].
  { rewrite H1. destruct (m_isGloballyInhibited _); lia. }
  split; [|done]. split; [done|]. split; [done|]. split; cbn.
  - rewrite Hc, Hg, H1, Ei. lia.
  - rewrite Ei. by apply NoDup_remove_all.
  - intros s' c'. rewrite Ei, El, elem_of_remove_all. intros [H _]. by apply H3 in H.
  - by rewrite El.
  - done.
Qed.

Lemma service_gone_ok T s i : T <= now -> Ok T i ->
  let i' := removeInhibitorService std_sin std_cos std_asin std_acos fmod utcOffset available outs now s i in
  Ok now i' /\ m_lastInhibitionCookie i' = m_lastInhibitionCookie i /\ forall c, (s, c) ∉ m_inhibitors i'.
Proof.
  intros HT Hi. cbv zeta. unfold removeInhibitorService.
  assert (forall (l : list (string * Z)) T' i0, T' <= now -> Ok T' i0 ->
    let i' := foldl (fun i p => dbus_uninhibit std_sin std_cos std_asin std_acos fmod utcOffset available outs now
                s p.2 i) i0 l in
    Ok now i' /\ m_lastInhibitionCookie i' = m_lastInhibitionCookie i0 /\
    forall c, (s, c) ∈ m_inhibitors i' -> (s, c) ∈ m_inhibitors i0 /\ c ∉ l.*2) as H.
  { induction l as [|[s' c'] l IH]; intros T' i0 HT' H0; simpl.
    - split_and!; [|done|]; [|intros c Hc; split; [done|by apply not_elem_of_nil]].
      destruct H0 as (? & ? & ?). split_and!; [done|by apply (control_mono T')|done].
    - destruct (dbus_uninhibit_ok T' s c' i0 HT' H0) as [H1 E1].
      destruct (IH now _ ltac:(lia) H1) as (H2 & E2 & H3). split_and!; [done|congruence|].
      intros c Hc. destruct (H3 c Hc) as [Hc1 Hc2]. rewrite dbus_uninhibit_inhibitors, elem_of_remove_all in Hc1.
      destruct Hc1 as [? Hne]. split; [done|]. apply not_elem_of_cons. split; [congruence|done]. }
  destruct (H (filter (fun p => p.1 = s) (m_inhibitors i)) T i HT Hi) as (H1 & E1 & H2). split_and!; [done|done|].
  intros c Hc. destruct (H2 c Hc) as [Hc1 Hc2]. apply Hc2. apply list_elem_of_fmap. exists (s, c).
  split; [done|]. by apply list_elem_of_filter.
Qed.

Lemma toggle_ok T i : T <= now -> Ok T i ->
  Ok now (i <| manager := toggle std_sin std_cos std_asin std_acos fmod utcOffset available outs now (manager i) |>).
Proof.
  intros HT (Hd & Hk & [H1 H2 H3 H4 H5]). unfold toggle. cbv zeta.
  set (m1 := (manager i) <| m_isGloballyInhibited := _ |>).
  assert (Data m1 /\ Control T m1) as [Hd1 Hk1] by (split; [by destruct Hd|by destruct Hk]).
  change (m_isGloballyInhibited m1) with (negb (m_isGloballyInhibited (manager i))).
  assert (0 <= Z.of_nat (length (m_inhibitors i))) by lia.
  destruct (m_isGloballyInhibited (manager i)) eqn:Eg; cbn [negb].
  - destruct (uninhibit_good T m1) as (Hd' & Hk' & Hc & Hg); [done..| |].
    { change (m_inhibitReferenceCount m1) with (m_inhibitReferenceCount (manager i)). lia. }
    split_and!; [done|done|]. split; cbn; try done. rewrite Hc, Hg.
    change (m_inhibitReferenceCount m1) with (m_inhibitReferenceCount (manager i)).
    change (m_isGloballyInhibited m1) with false. rewrite H1. simpl. lia.
  - destruct (inhibit_good T m1) as (Hd' & Hk' & Hc & Hg); [done..| |].
    { change (m_inhibitReferenceCount m1) with (m_inhibitReferenceCount (manager i)). lia. }
    split_and!; [done|done|]. split; cbn; try done. rewrite Hc, Hg.
    change (m_inhibitReferenceCount m1) with (m_inhibitReferenceCount (manager i)).
    change (m_isGloballyInhibited m1) with true. rewrite H1. simpl. lia.
Qed.

Lemma good_ok i m : Counted i -> good (manager i) m -> Ok now (i <| manager := m |>).
Proof.
  intros [H1 H2 H3 H4 H5] (Hd & Hk & _ & _ & Hc & Hg). split_and!; [done|done|]. split; try done.
  cbn. by rewrite Hc, Hg.
Qed.
Lemma counted_ok i m : Counted i -> counted (manager i) m (m_inhibitReferenceCount (manager i)) ->
  Ok now (i <| manager := m |>).
Proof.
  intros [H1 H2 H3 H4 H5] (Hd & Hk & Hc & Hg). split_and!; [done|done|]. split; try done.
  cbn. by rewrite Hc, Hg.
Qed.
End Events.

(** ** Sequences of events *)

Context (parse_hhmm : string -> option Z) (print_hhmm : Z -> string).

(** The events after which the schedule is that of the present. Only these may come
    after the clock was set back. *)
Definition recomputes (e : Event) : Prop :=
  match e with
  | ScreensChanged | SessionActiveChanged true | ClockSkewed _ | Reparse _ => True
  | _ => False
  end.
Definition event_values (e : Event) : Prop := match e with SetConfig c => config_values c | _ => True end.

Fixpoint events_ok (T : Z) (es : list (Z * list Output * Event)) : Prop :=
  match es with
  | [] => True
  | (now, _, e) :: es' => (recomputes e \/ T <= now) /\ event_values e /\ events_ok now es'
  end.

Local Notation step' := (step std_sin std_cos std_asin std_acos fmod utcOffset available parse_hhmm print_hhmm) (only parsing).
Local Notation run' := (run std_sin std_cos std_asin std_acos fmod utcOffset available parse_hhmm print_hhmm) (only parsing).

Lemma night_step_ok T outs now e x : sun_ok -> (forall s t, parse_hhmm s = Some t -> 0 <= t < MSC_DAY) ->
  recomputes e \/ T <= now -> event_values e -> m_lastInhibitionCookie (interface x) + 1 < 2 ^ 32 ->
  Ok T (interface x) ->
  Ok now (interface (step' outs now e x)) /\
  m_lastInhibitionCookie (interface (step' outs now e x)) <= m_lastInhibitionCookie (interface x) + 1.
Proof.
  intros Hsun Hparse HT Hv Hlast Hok. pose proof Hok as (Hd & Hk & Hc). destruct x as [i st]. simpl in *.
  destruct e; cbn [step with_manager with_interface interface]; simpl in HT.
  - destruct HT as [[]|HT]. split; [|simpl; lia]. apply good_ok; [done|]. by apply (quick_good Hsun outs now T).
  - destruct HT as [[]|HT]. split; [|simpl; lia]. apply good_ok; [done|]. by apply (slow_good outs now T).
  - destruct HT as [[]|HT]. split; [|simpl; lia]. apply good_ok; [done|]. by apply (start_good Hsun outs now T).
  - split; [|simpl; lia]. apply good_ok; [done|]. by apply hard_good.
  - split; [|simpl; lia]. apply good_ok; [done|]. destruct active; [by apply hard_good|].
    destruct HT as [[]|HT]. by apply (cancel_good now T).
  - split; [|simpl; lia]. apply good_ok; [done|]. destruct comingFromSuspend; [by apply hard_good|by apply reset_good].
  - unfold with_settings. cbn [interface]. split; [|simpl; lia]. apply counted_ok; [done|].
    unfold reparseConfigAndReset.
    destruct (readConfig_data parse_hhmm print_hhmm Hparse s (cancelAllTimers (manager i))) as (Hd1 & Hc1 & Hg1);
      [by apply cancel_data|].
    destruct (hard_good Hsun outs now _ Hd1) as (? & ? & _ & _ & Hc2 & Hg2).
    split_and!; [done|done|..]; [rewrite Hc2; exact Hc1|rewrite Hg2; exact Hg1].
  - destruct HT as [[]|HT]. unfold with_settings. cbn [interface].
    pose proof (change_good Hsun outs now print_hhmm T c (manager i) st HT Hv Hd Hk) as H.
    destruct (changeConfiguration _ _ _ _ _ _ _ _ _ _ _ _) as [[m' s'] b]. cbn [fst interface] in *.
    split; [|simpl; lia]. by apply counted_ok.
  - destruct HT as [[]|HT]. unfold with_settings. cbn [interface].
    pose proof (location_good Hsun outs now T latitude longitude (manager i) st HT Hd Hk) as H.
    destruct (autoLocationUpdate _ _ _ _ _ _ _ _ _ _ _ _) as [m' s']. cbn [fst interface] in *.
    split; [|simpl; lia]. by apply counted_ok.
  - destruct HT as [[]|HT]. split; [|simpl; lia]. by apply (toggle_ok Hsun outs now T).
  - destruct HT as [[]|HT]. destruct (dbus_inhibit_ok Hsun outs now T service i HT Hlast Hok) as [H1 ->].
    split; [done|lia].
  - destruct HT as [[]|HT]. destruct (dbus_uninhibit_ok Hsun outs now T service cookie i HT Hok) as [H1 ->].
    split; [done|lia].
  - destruct HT as [[]|HT]. destruct (service_gone_ok Hsun outs now T service i HT Hok) as (H1 & -> & _).
    split; [done|lia].
Qed.

Lemma night_run_ok es : sun_ok -> (forall s t, parse_hhmm s = Some t -> 0 <= t < MSC_DAY) ->
  forall T x, events_ok T es -> m_lastInhibitionCookie (interface x) + Z.of_nat (length es) < 2 ^ 32 ->
  Ok T (interface x) -> exists T', Ok T' (interface (run' es x)).
Proof.
  intros Hsun Hparse. unfold run. induction es as [|[[now outs] e] es IH]; intros T x Hes Hlast Hok; [by exists T|].
  destruct Hes as (HT & Hv & Hes). simpl length in Hlast.
  destruct (night_step_ok T outs now e x Hsun Hparse HT Hv ltac:(lia) Hok) as [Hok' Hlast'].
  apply (IH now); [done|lia|done].
Qed.

(** The manager when it is created, with nobody inhibiting it. *)
Definition start (s : Settings) : System := mkSystem (mkInterface initial [] [] 0) s.

Lemma start_ok T s : Ok T (interface (start s)).
Proof.
  split_and!.
  - split; [|..|by apply Forall_nil|by left|by left];
      unfold times_config, in_range, MSC_DAY; cbn;
      unfold DEFAULT_NIGHT_TEMPERATURE, NEUTRAL_TEMPERATURE; lia.
  - split; [done| |done]. split; [by intros [? [=]]|by intros [[? [=]]|[? [=]]]].
  - split; try done; [by apply NoDup_nil_2|by intros ? ? ?%elem_of_nil|].
    intros s'. split; [by intros ?%elem_of_nil|by intros [? ?%elem_of_nil]].
Qed.

(** ** The theorems *)

(** What the table has around a temperature. *)
Definition in_table (t : Z) : Prop :=
  0 <= bbCIndex t /\ forall k, 0 <= k < 6 -> is_Some (blackbodyColor !! Z.to_nat (bbCIndex t + k)).

Lemma range_in_table t : in_range t -> in_table t.
Proof.
  intros Ht. unfold in_table, bbCIndex, cdiv. unfold in_range in Ht.
  assert (0 <= (t - 1000) ÷ 100 <= 55) as Hq by (Z.to_euclidean_division_equations; lia).
  split; [lia|]. intros k Hk. apply lookup_lt_is_Some_2.
  change (length blackbodyColor) with 726%nat. lia.
Qed.



(** *** Quick adjustment *)

Lemma commit_accepted outs t m : outs <> [] ->
  (forall o r, o ∈ outs -> setGammaRamp o r = true) ->
  let m' := commitGammaRamps outs t m in
  m_currentTemp m' = t /\ m_running m' = m_running m /\ m_mode m' = m_mode m /\
  m_nightTargetTemp m' = m_nightTargetTemp m /\ m_quickAdjustTimer m' = m_quickAdjustTimer m /\
  m_slowUpdateTimer m' = m_slowUpdateTimer m.
Proof.
  clear available parse_hhmm print_hhmm. intros Hne Hacc. cbv zeta. unfold commitGammaRamps.
  assert (forall l m, (forall o r, o ∈ l -> setGammaRamp o r = true) ->
    let m' := foldl (commit_output t) m l in
    (m_currentTemp m' = t \/ l = []) /\ (m_currentTemp m = t -> m_currentTemp m' = t) /\
    m_running m' = m_running m /\ m_mode m' = m_mode m /\
    m_nightTargetTemp m' = m_nightTargetTemp m /\ m_quickAdjustTimer m' = m_quickAdjustTimer m /\
    m_slowUpdateTimer m' = m_slowUpdateTimer m) as H.
  { clear. induction l as [|o l IH]; intros m Hacc; cbv zeta; [split_and!; auto|]. simpl foldl.
    set (m1 := commit_output t m o).
    assert (m_currentTemp m1 = t /\ m_running m1 = m_running m /\ m_mode m1 = m_mode m /\
      m_nightTargetTemp m1 = m_nightTargetTemp m /\ m_quickAdjustTimer m1 = m_quickAdjustTimer m /\
      m_slowUpdateTimer m1 = m_slowUpdateTimer m) as (E1 & E2 & E3 & E4 & E5 & E6).
    { unfold m1, commit_output. rewrite Hacc by set_solver. unfold setCurrentTemperature.
      destruct (_ =? t) eqn:E; [|done]. split; [|done]. by apply Z.eqb_eq in E. }
    destruct (IH m1) as (_ & H1 & H2 & H3 & H4 & H5 & H6); [intros; apply Hacc; set_solver|].
    rewrite H2, H3, H4, H5, H6. split_and!; auto. }
  destruct (H outs m Hacc) as ([?|?] & _ & ?); [by split|done].
Qed.

(** Quick adjustment ends: while the target does not depend on the time of the
    day (the manager is not running, or the temperature is constant), the target is
    reached within one timeout for each 50 K, never overshot, and no timer is left. *)
Theorem quick_adjust_reaches outs nows m :
  outs <> [] -> (forall o r, o ∈ outs -> setGammaRamp o r = true) ->
  m_running m = false \/ m_mode m = Constant ->
  is_Some (m_quickAdjustTimer m) -> m_slowUpdateTimer m = None ->
  let target := if m_running m then m_nightTargetTemp m else NEUTRAL_TEMPERATURE in
  (1 <= length nows)%nat -> Z.abs (target - m_currentTemp m) <= TEMPERATURE_STEP * Z.of_nat (length nows) ->
  let m' := foldl (fun m now => quickAdjust std_sin std_cos std_asin std_acos fmod utcOffset outs now m) m nows in
  m_currentTemp m' = target /\ m_quickAdjustTimer m' = None /\ m_slowUpdateTimer m' = None.
Proof.
  clear available parse_hhmm print_hhmm. intros Hne Hacc. revert m. unfold TEMPERATURE_STEP.
  induction nows as [|now nows IH]; intros m Hm Hq Hs; cbv zeta; intros Hl Hd; [simpl in Hl; lia|]. simpl foldl.
  set (target := if m_running m then _ else _) in *.
  assert (currentTargetTemp now m = target) as Ht.
  { unfold currentTargetTemp, target. destruct (m_running m); [|done]. cbn [negb].
    rewrite bool_decide_true; [done|]. by destruct Hm. }
  destruct Hq as [iv Hq]. set (next := next_temp (m_currentTemp m) target).
  destruct (commit_accepted outs next m Hne Hacc) as (C1 & C2 & C3 & C4 & C5 & C6).
  set (m1 := commitGammaRamps outs next m) in *.
  assert (quickAdjust std_sin std_cos std_asin std_acos fmod utcOffset outs now m =
    if next =? target
    then resetSlowUpdateStartTimer std_sin std_cos std_asin std_acos fmod utcOffset outs now
           (m1 <| m_quickAdjustTimer := None |>) else m1) as -> by (unfold quickAdjust; by rewrite Hq, Ht).
  destruct (next =? target) eqn:En.
  - apply Z.eqb_eq in En.
    set (m2 := resetSlowUpdateStartTimer _ _ _ _ _ _ _ _ _).
    assert (m_currentTemp m2 = target /\ m_quickAdjustTimer m2 = None /\ m_slowUpdateTimer m2 = None) as H2.
    { unfold m2, resetSlowUpdateStartTimer. cbv zeta.
      change (m_running (_ <| m_slowUpdateStartTimer := None |>)) with (m_running m1).
      change (m_mode (_ <| m_slowUpdateStartTimer := None |>)) with (m_mode m1).
      rewrite C2, C3. destruct (m_running m).
      - cbn. rewrite bool_decide_true by (by destruct Hm). cbn. by rewrite C1, C6.
      - cbn. by rewrite C1, C6. }
    clearbody m2. clear -H2. revert m2 H2. induction nows as [|now' nows IH]; intros m2 H2; [exact H2|].
    simpl foldl. assert (forall x, quickAdjust std_sin std_cos std_asin std_acos fmod utcOffset outs x m2 = m2) as ->
      by (intros x; unfold quickAdjust; by destruct H2 as (_ & -> & _)). by apply IH.
  - assert (1 <= length nows)%nat as Hl1.
    { unfold next, next_temp, TEMPERATURE_STEP in En. apply Z.eqb_neq in En. simpl length in Hd.
      destruct (_ <? _) eqn:E; lia. }
    destruct (IH m1) as (H1 & H2 & H3).
    + by rewrite C2, C3.
    + rewrite C5, Hq. by eexists.
    + by rewrite C6.
    + done.
    + rewrite C1, C2, C4. change (if m_running m then _ else _) with target. simpl length in Hd.
      unfold next, next_temp, TEMPERATURE_STEP. destruct (_ <? _) eqn:E; lia.
    + rewrite C2, C4 in H1. done.
Qed.
End Library.

(** ** Concrete instances

    A place and a day where the sun never reaches the heights of the transitions. *)

Definition std_id (x : double) : double := x.
Definition std_none (x : double) : double := S754_nan.
Definition fmod_id (x y : double) : double := x.

Lemma nan_add x y : is_nan x = true \/ is_nan y = true -> is_nan (add x y) = true.
Proof. by destruct x, y; intros [? | ?]. Qed.
Lemma nan_sub x y : is_nan x = true \/ is_nan y = true -> is_nan (sub x y) = true.
Proof. by destruct x, y; intros [? | ?]. Qed.

Lemma sample_sun : sun_ok std_id std_id std_id std_none fmod_id 7200.
Proof.
  intros t lat lng morning. cbv zeta.
  assert (forall d angle, hourAngle std_id std_id std_id std_none fmod_id lat d angle = S754_nan) as H by done.
  assert (forall day x, is_nan x = true -> sun_time 7200 day x = None) as Hs by (intros day x Hx; unfold sun_time; by rewrite Hx).
  unfold calculateSunTimings, getSunMorning, getSunEvening. cbv zeta. rewrite !H. destruct morning; cbn [first second];
    rewrite !Hs; try done; apply nan_add; left; (apply nan_sub || apply nan_add); by right.
Qed.

(** Times in the settings, as the configuration has them by default. *)
Definition sample_parse (s : string) : option Z :=
  if decide (s = "0600"%string) then Some 21600000
  else if decide (s = "1800"%string) then Some 64800000 else None.
Lemma sample_parse_ok s t : sample_parse s = Some t -> 0 <= t < MSC_DAY.
Proof. unfold sample_parse. repeat case_decide; intros [= <-] || intros [=]; by vm_compute. Qed.

Definition sample_settings : Settings :=
  mkSettings true 2 4000 (of_Z 0) (of_Z 0) (of_Z 0) (of_Z 0) "0600" "1800" 30.
Definition screen : Output := mkOutput 2 (fun _ => true).

(** Ten minutes past six in the evening; a client inhibits it and goes away, and the
    clock is set back by an hour. *)
Definition sample_events : list (Z * list Output * Event) :=
  [(65400000, [screen], Reparse sample_settings); (65400000, [screen], SlowTimeout);
   (65401000, [screen], Inhibit "app"); (65401020, [screen], QuickTimeout);
   (65402000, [screen], ServiceUnregistered "app");
   (61802000, [screen], ClockSkewed false); (61802100, [screen], QuickTimeout)].

Lemma sample_events_ok : events_ok 0 sample_events.
Proof. repeat (split; [by (left; exact I) || (right; vm_compute; congruence)|split; [exact I|]]). exact I. Qed.

Example sample_temperature :
  currentTargetTemp 65400000 (manager (interface
    (run std_id std_id std_id std_none fmod_id 7200 true sample_parse (fun _ => ""%string)
       (take 1 sample_events) (start sample_settings)))) = 5660.
Proof. by vm_compute. Qed.

(** A transition time of 71583 minutes is accepted: its milliseconds do not fit. *)
Example long_transition_accepted :
  check_times (mkConfig Absent Absent Absent Absent Absent (Value (Some 21600000)) (Value (Some 64800000))
    (Value 71583)) initial = Some (21600000, 64800000, 71583).
Proof. by vm_compute. Qed.

(** With a transition of more than 11 hours and 55 minutes the interval of the slow
    update, computed in milliseconds times 50, overflows and is negative. *)
Example slow_interval_overflows :
  i32 (42990000 * TEMPERATURE_STEP) < 0.
Proof. by vm_compute. Qed.


(** The manager after the first [n] of the events. *)
Definition sample_manager (n : nat) : Interface :=
  interface (run std_id std_id std_id std_none fmod_id 7200 true sample_parse (fun _ => ""%string)
    (take n sample_events) (start sample_settings)).



(** Disabled at night: back to the neutral temperature in 50 timeouts. *)
Lemma quick_adjust_reaches_witness :
  m_currentTemp (foldl (fun m now => quickAdjust std_id std_id std_id std_none fmod_id 7200 [screen] now m)
    (initial <| m_currentTemp := 4000 |> <| m_quickAdjustTimer := Some 40 |>) (replicate 50 0)) = 6500.
Proof.
  destruct (quick_adjust_reaches std_id std_id std_id std_none fmod_id 7200 [screen] (replicate 50 0)
    (initial <| m_currentTemp := 4000 |> <| m_quickAdjustTimer := Some 40 |>)) as [H _].
  - done.
  - intros o r ->%list_elem_of_singleton. done.
  - by left.
  - by eexists.
  - done.
  - by apply (Nat.lt_0_succ 49).
  - by vm_compute.
  - exact H.
Defined.
End NightColorProps.
