(* ===== verification/TabBox.v ===== *)
(** * The window and desktop switcher (src/tabbox)

    [DesktopChain]: the most recently used chains of desktops, one per activity
    (desktopchain.cpp). [TabBox]: the configuration, the lists of windows and of
    desktops that the switcher offers (clientmodel.cpp, desktopmodel.cpp), the
    handler that walks through them and highlights windows (tabboxhandler.cpp), and
    the switcher itself with its grabs, its timer and its shortcuts (tabbox.cpp,
    x11_filter.cpp).

    A client of the switcher is the window it stands for. Loops that follow
    pointers take fuel; an operation returns [Done], throws [OutOfRange], or is
    [OutOfFuel]. What the switcher asks of other components is recorded in order as
    a list of requests. *)

From S2P Require Import Prelude Qt Toplevel FocusChain Stacking Activation.

Module DesktopChain.

(** The constructor and [init]. *)
Definition init (size : nat) : list Z := map (fun i => Z.of_nat i + 1) (seq 0 size).

Definition next (indexDesktop : Z) (m_chain : list Z) : Z :=
  match index_of indexDesktop m_chain with
  | Some i => if decide (S i < length m_chain)%nat then default 1 (m_chain !! S i) else default 1 (head m_chain)
  | None => default 1 (head m_chain)
  end.

(** QVector::resize fills with zeroes; the chain has [previousSize] entries. *)
Definition resize (previousSize newSize : nat) (m_chain : list Z) : list Z :=
  let c := take newSize m_chain ++ replicate (newSize - length m_chain) 0 in
  if decide (previousSize <= newSize)%nat then
    foldl (fun c i => <[i := Z.of_nat i + 1]> c) c (seq previousSize (newSize - previousSize))
  else map (fun d => Z.min d (Z.of_nat newSize)) c.

(** The loop that moves the entries before [i] back by one. *)
Fixpoint shift (i : nat) (c : list Z) : list Z :=
  match i with
  | O => c
  | S j => shift j (<[i := default 0 (c !! j)]> c)
  end.

Definition add (desktop : Z) (m_chain : list Z) : list Z :=
  if bool_decide (m_chain = []) || (Z.of_nat (length m_chain) <? desktop) then m_chain
  else
    let index := match index_of desktop m_chain with Some i => i | None => (length m_chain - 1)%nat end in
    <[0%nat := desktop]> (shift index m_chain).

(** DesktopChainManager. The chains are keyed by the identifiers of the activities;
    the empty string is the null one, which no activity has. *)
Record DesktopChainManager := mkDesktopChainManager {
  m_currentChain : string;
  m_chains : gmap string (list Z);
  m_maxChainSize : nat;
}.
#[global] Instance DesktopChainManager_eta : RecordEta DesktopChainManager := fun m =>
  mkDesktopChainManager (m_currentChain m) (m_chains m) (m_maxChainSize m).

Implicit Types m : DesktopChainManager.

Definition initial_chains : DesktopChainManager := mkDesktopChainManager "" {["" := init 0]} 0.

(** [m_currentChain] is an iterator to an entry of the chains. *)
Definition current_chain m : list Z := default [] (m_chains m !! m_currentChain m).

Definition manager_next (indexDesktop : Z) m : Z := next indexDesktop (current_chain m).

Definition manager_resize (previousSize newSize : nat) m : DesktopChainManager :=
  m <| m_maxChainSize := newSize |> <| m_chains := resize previousSize newSize <$> m_chains m |>.

Definition addDesktop (currentDesktop : Z) m : DesktopChainManager :=
  m <| m_chains := <[m_currentChain m := add currentDesktop (current_chain m)]> (m_chains m) |>.

Definition createFirstChain (identifier : string) m : DesktopChainManager :=
  m <| m_chains := <[identifier := current_chain m]> (delete (m_currentChain m) (m_chains m)) |>
    <| m_currentChain := identifier |>.

Definition addNewChain (identifier : string) m : DesktopChainManager :=
  m <| m_chains := <[identifier := init (m_maxChainSize m)]> (m_chains m) |>
    <| m_currentChain := identifier |>.

Definition useChain (identifier : string) m : DesktopChainManager :=
  if bool_decide (m_currentChain m = "") then createFirstChain identifier m
  else
    match m_chains m !! identifier with
    | Some _ => m <| m_currentChain := identifier |>
    | None => addNewChain identifier m
    end.
End DesktopChain.

Module TabBox.
Import Qt Toplevel.

(** What an operation comes to. *)
Inductive outcome (A : Type) :=
  | Done (a : A)
  | OutOfRange      (** std::vector::at throws *)
  | OutOfFuel.
Arguments Done {A} a.
Arguments OutOfRange {A}.
Arguments OutOfFuel {A}.

#[global] Instance outcome_ret : MRet outcome := fun A a => Done a.
#[global] Instance outcome_bind : MBind outcome := fun A B f o =>
  match o with Done a => f a | OutOfRange => OutOfRange | OutOfFuel => OutOfFuel end.

(** ** TabBoxConfig

    The enumerations are integers, since the configuration file is read as
    integers that no code checks. *)
Definition AllDesktopsClients : Z := 0.
Definition OnlyCurrentDesktopClients : Z := 1.
Definition ExcludeCurrentDesktopClients : Z := 2.
Definition AllActivitiesClients : Z := 0.
Definition OnlyCurrentActivityClients : Z := 1.
Definition ExcludeCurrentActivityClients : Z := 2.
Definition AllWindowsAllApplications : Z := 0.
Definition OneWindowPerApplication : Z := 1.
Definition AllWindowsCurrentApplication : Z := 2.
Definition IgnoreMinimizedStatus : Z := 0.
Definition ExcludeMinimizedClients : Z := 1.
Definition OnlyMinimizedClients : Z := 2.
Definition DoNotShowDesktopClient : Z := 0.
Definition ShowDesktopClient : Z := 1.
Definition IgnoreMultiScreen : Z := 0.
Definition OnlyCurrentScreenClients : Z := 1.
Definition ExcludeCurrentScreenClients : Z := 2.
Definition FocusChainSwitching : Z := 0.
Definition StackingOrderSwitching : Z := 1.

Inductive DesktopSwitchingMode := MostRecentlyUsedDesktopSwitching | StaticDesktopSwitching.
Inductive ConfigMode := ClientTabBox | DesktopTabBox.
#[global] Instance ConfigMode_eq_dec : EqDecision ConfigMode.
Proof. solve_decision. Defined.

Record TabBoxConfig := mkTabBoxConfig {
  showTabBox : bool;
  highlightWindows : bool;
  tabBoxMode : ConfigMode;
  clientDesktopMode : Z;
  clientActivitiesMode : Z;
  clientApplicationsMode : Z;
  clientMinimizedMode : Z;
  showDesktopMode : Z;
  clientMultiScreenMode : Z;
  clientSwitchingMode : Z;
  desktopSwitchingMode : DesktopSwitchingMode;
  layoutName : string;
}.
#[global] Instance TabBoxConfig_eta : RecordEta TabBoxConfig := fun c =>
  mkTabBoxConfig (showTabBox c) (highlightWindows c) (tabBoxMode c) (clientDesktopMode c)
    (clientActivitiesMode c) (clientApplicationsMode c) (clientMinimizedMode c) (showDesktopMode c)
    (clientMultiScreenMode c) (clientSwitchingMode c) (desktopSwitchingMode c) (layoutName c).

(** The default constructor. *)
Definition default_config : TabBoxConfig :=
  mkTabBoxConfig true true ClientTabBox OnlyCurrentDesktopClients OnlyCurrentActivityClients
    AllWindowsAllApplications IgnoreMinimizedStatus DoNotShowDesktopClient IgnoreMultiScreen
    FocusChainSwitching MostRecentlyUsedDesktopSwitching "thumbnail_grid".

(** ** The rest of the program

    What the switcher reads of the workspace, its windows and the devices. *)
Record World := mkWorld {
  heap : Heap;
  env : Env;
  focus : FocusChain.FocusChain;
  chains : DesktopChain.DesktopChainManager;
  numberOfDesktops : Z;                     (** VirtualDesktopManager::count *)
  stackingOrder : list wid;                 (** Workspace::stackingOrder *)
  allClientList : list wid;
  hasClient : wid -> bool;
  activeClient : option wid;
  alive : wid -> bool;                      (** the control of the window exists *)
  skip_switcher : wid -> bool;              (** win::control *)
  first_in_tabbox : wid -> bool;
  same_client : wid -> wid -> bool;         (** belongsToSameApplication, across processes *)
  showingDesktop : bool;
  compositing : bool;
  focusPolicyIsReasonable : bool;           (** Options *)
  traverse_all : bool;                      (** the setting TraverseAll *)
  grabXKeyboard : bool;                     (** the X server grants a grab *)
  relevant_modifiers : Z;                   (** modifiersRelevantForGlobalShortcuts *)
  keymap : option (list Z);                 (** of the X server: 32 bytes *)
  keycodes : Z -> list Z;                   (** the key codes of a key symbol *)
  view : bool;                              (** a view of the layout can be made *)
  takes_over : bool;                        (** an effect replaces the view when told so *)
  lets_go : bool;                           (** and lets go when the switcher closes *)
}.
#[global] Instance World_eta : RecordEta World := fun w =>
  mkWorld (heap w) (env w) (focus w) (chains w) (numberOfDesktops w) (stackingOrder w) (allClientList w)
    (hasClient w) (activeClient w) (alive w) (skip_switcher w) (first_in_tabbox w) (same_client w)
    (showingDesktop w) (compositing w) (focusPolicyIsReasonable w) (traverse_all w) (grabXKeyboard w)
    (relevant_modifiers w) (keymap w) (keycodes w) (view w) (takes_over w) (lets_go w).

Inductive Request :=
  | elevate (w : wid) (b : bool)
  | raiseWindow (w : wid)
  | lowerWindow (w : wid)
  | restack (w under : wid)
  | highlight (w : option wid) (controller : bool)
  | activateClient (w : wid)
  | setShowingDesktop (b : bool)
  | setCurrentVirtualDesktop (d : Z)
  | tabBoxAdded | tabBoxUpdated | tabBoxClosed
  | tabBoxKeyEvent (key : Z)
  | viewKeyEvent (key : Z)
  | ungrabXKeyboard
  | reserve (border : Z)                    (** ScreenEdges *)
  | unreserve (border : Z)
  | closeClient (w : wid).

(** ** ClientModel and TabBoxHandlerImpl *)

Section Lists.
Context (W : World) (fuel : nat).
Implicit Types (cfg : TabBoxConfig) (w c : wid) (l m_clientList : list wid) (d : Z).

(** std::weak_ptr::lock. *)
Definition lock w : option wid := if alive W w then Some w else None.

Definition checkDesktop cfg w d : bool :=
  if clientDesktopMode cfg =? AllDesktopsClients then true
  else if clientDesktopMode cfg =? ExcludeCurrentDesktopClients then negb (on_desktop (env W) (heap W w) d)
  else on_desktop (env W) (heap W w) d.

Definition checkActivity cfg w : bool :=
  if clientActivitiesMode cfg =? AllActivitiesClients then true
  else if clientActivitiesMode cfg =? ExcludeCurrentActivityClients then
    negb (isOnCurrentActivity (env W) (heap W w))
  else isOnCurrentActivity (env W) (heap W w).

(** TabBoxHandler::clientList: of the handler's model, while it is filled. *)
Definition clientList cfg m_clientList : list wid :=
  if bool_decide (tabBoxMode cfg = ClientTabBox) then m_clientList else [].

Definition checkApplications cfg m_clientList w : bool :=
  if clientApplicationsMode cfg =? OneWindowPerApplication then
    forallb (fun c => match lock c with Some c => negb (same_client W c w) | None => true end)
      (clientList cfg m_clientList)
  else if clientApplicationsMode cfg =? AllWindowsCurrentApplication then
    match activeClient W with
    | Some c => match lock c with Some c => same_client W c w | None => false end
    | None => false
    end
  else true.

Definition isMinimized w : bool :=
  match control (heap W w) with Some c => minimized c | None => false end.

Definition checkMinimized cfg w : bool :=
  if clientMinimizedMode cfg =? ExcludeMinimizedClients then negb (isMinimized w)
  else if clientMinimizedMode cfg =? OnlyMinimizedClients then isMinimized w
  else true.

Definition checkMultiScreen cfg w : bool :=
  if clientMultiScreenMode cfg =? IgnoreMultiScreen then true
  else if clientMultiScreenMode cfg =? ExcludeCurrentScreenClients then
    negb (screen (heap W w) =? current_screen (env W))
  else screen (heap W w) =? current_screen (env W).

Definition addClient cfg m_clientList w d : bool :=
  checkDesktop cfg w d && checkActivity cfg w && checkApplications cfg m_clientList w &&
  checkMinimized cfg w && checkMultiScreen cfg w &&
  wants_tab_focus (heap W w) && negb (skip_switcher W w).

Definition has_control w : bool := match control (heap W w) with Some _ => true | None => false end.

(** [fuel] bounds the depth of modal dialogs. *)
Definition clientToAddToList cfg m_clientList (client : option wid) d : option wid :=
  match client with
  | None => None
  | Some w =>
      if addClient cfg m_clientList w d then
        match Activation.findModal fuel (heap W) w with
        | None => Some w
        | Some modal =>
            if negb (has_control modal) || bool_decide (modal = w) then Some w
            else if existsb (fun c => bool_decide (lock c = lock modal)) (clientList cfg m_clientList) then None
            else Some modal
        end
      else None
  end.

Definition controlled_stacking : list wid := List.filter has_control (stackingOrder W).

Definition desktopClient : option wid :=
  snd <$> list_find (fun w => (has_control w && is_desktop (heap W w) &&
    on_current_desktop (env W) (heap W w) && (screen (heap W w) =? current_screen (env W))) = true)
    (stackingOrder W).

Definition nextClientFocusChain (client : option wid) : option wid :=
  w ← client; FocusChain.nextMostRecentlyUsed (focus W) w ≫= lock.

Definition isInFocusChain (client : option wid) : bool :=
  match client with Some w => FocusChain.contains (focus W) w | None => false end.

(** Appending a window to the list, and to the sticky ones. *)
Definition append_client (add : option wid) (acc : list wid * list wid) : list wid * list wid :=
  match add with
  | Some w => (acc.1 ++ [w], if first_in_tabbox W w then acc.2 ++ [w] else acc.2)
  | None => acc
  end.

(** The loop over the focus chain. *)
Fixpoint focus_chain_loop (n : nat) cfg d (stop c : option wid) (acc : list wid * list wid)
  : outcome (list wid * list wid) :=
  match n with
  | O => OutOfFuel
  | S n' =>
      let acc := append_client (clientToAddToList cfg acc.1 c d ≫= lock) acc in
      let c' := nextClientFocusChain c in
      if bool_decide (c' <> None) && negb (bool_decide (c' = stop)) then focus_chain_loop n' cfg d stop c' acc
      else Done acc
  end.

Definition focus_chain_start (start : option wid) : option wid :=
  if isInFocusChain start then start
  else match FocusChain.firstMostRecentlyUsed (focus W) ≫= lock with Some w => Some w | None => start end.

(** Appending in the order of stacking: the window the list starts from only once. *)
Definition append_stacked (start : option wid) (add : option wid) (acc : list wid * list wid)
  : list wid * list wid :=
  match add with
  | Some w =>
      append_client add (if bool_decide (start = Some w) then (remove_all w acc.1, acc.2) else acc)
  | None => acc
  end.

(** The loop over the stacking order, until its first window comes again. *)
Fixpoint stacking_loop cfg d (start stop : option wid) (rest : list wid) (acc : list wid * list wid)
  : list wid * list wid :=
  match rest with
  | [] => acc
  | w :: rest' =>
      let acc := append_stacked start (clientToAddToList cfg acc.1 (Some w) d ≫= lock) acc in
      match rest' with
      | [] => acc
      | w' :: _ =>
          match lock w' with
          | None => acc
          | Some w' => if bool_decide (Some w' = stop) then acc else stacking_loop cfg d start stop rest' acc
          end
      end
  end.

Definition gather cfg d (start : option wid) : outcome (list wid * list wid) :=
  if clientSwitchingMode cfg =? FocusChainSwitching then
    let c := focus_chain_start start in focus_chain_loop fuel cfg d c c ([], [])
  else if clientSwitchingMode cfg =? StackingOrderSwitching then
    match controlled_stacking with
    | [] => OutOfRange
    | (w :: _) as stacking =>
        match lock w with
        | None => Done ([], [])
        | Some w => Done (stacking_loop cfg d start (Some w) stacking ([], []))
        end
    end
  else Done ([], []).

(** The loop over the sticky windows: [remove_clients] does nothing for a null one. *)
Definition place_sticky l (sticky : list wid) : list wid :=
  foldl (fun l w => (match lock w with Some w => remove_all w l | None => l end) ++ [w]) l sticky.

Definition append_desktop cfg l : list wid :=
  if negb (clientApplicationsMode cfg =? AllWindowsCurrentApplication) &&
     ((showDesktopMode cfg =? ShowDesktopClient) || bool_decide (l = [])) then
    match desktopClient ≫= lock with Some w => l ++ [w] | None => l end
  else l.

Definition list_start (partialReset : bool) m_clientList : option wid :=
  let active := activeClient W ≫= lock in
  if partialReset then
    match m_clientList with
    | c :: _ => match lock c with Some c => Some c | None => active end
    | [] => active
    end
  else active.

Definition createClientList cfg d (partialReset : bool) m_clientList : outcome (list wid) :=
  '(l, sticky) ← gather cfg d (list_start partialReset m_clientList);
  Done (append_desktop cfg (place_sticky l sticky)).

(** ** DesktopModel *)

Record DesktopModel := mkDesktopModel { m_desktopList : list Z; m_clientModels : gmap Z (list wid) }.

Definition append_desktop_entry cfg d (m : DesktopModel) : outcome DesktopModel :=
  l ← createClientList cfg d false [];
  Done (mkDesktopModel (m_desktopList m ++ [d]) (<[d := l]> (m_clientModels m))).

Definition nextDesktopFocusChain d : Z := DesktopChain.manager_next d (chains W).
Definition currentDesktop : Z := current_desktop (env W).

(** The loop over the most recently used desktops. *)
Fixpoint mru_desktops (n : nat) cfg d (m : DesktopModel) : outcome DesktopModel :=
  match n with
  | O => OutOfFuel
  | S n' =>
      m ← append_desktop_entry cfg d m;
      let d' := nextDesktopFocusChain d in
      if d' =? currentDesktop then Done m else mru_desktops n' cfg d' m
  end.

Fixpoint static_desktops (n : nat) cfg d (m : DesktopModel) : outcome DesktopModel :=
  match n with
  | O => Done m
  | S n' => m ← append_desktop_entry cfg d m; static_desktops n' cfg (d + 1) m
  end.

(** [n] is the fuel of the loop. *)
Definition createDesktopList (n : nat) cfg : outcome DesktopModel :=
  match desktopSwitchingMode cfg with
  | MostRecentlyUsedDesktopSwitching => mru_desktops n cfg currentDesktop (mkDesktopModel [] ∅)
  | StaticDesktopSwitching => static_desktops (Z.to_nat (numberOfDesktops W)) cfg 1 (mkDesktopModel [] ∅)
  end.
End Lists.

(** ** The state of the switcher *)

(** TabBoxMode of src/libkwineffects/kwinglobals.h. *)
Inductive TabBoxMode :=
  | TabBoxDesktopMode
  | TabBoxDesktopListMode
  | TabBoxWindowsMode
  | TabBoxWindowsAlternativeMode
  | TabBoxCurrentAppWindowsMode
  | TabBoxCurrentAppWindowsAlternativeMode.
#[global] Instance TabBoxMode_eq_dec : EqDecision TabBoxMode.
Proof. solve_decision. Defined.

(** A shortcut: the mode it walks in, and whether forward. *)
Definition Shortcut : Type := TabBoxMode * bool.

Inductive ModelKind := InClientModel | InDesktopModel.
#[global] Instance ModelKind_eq_dec : EqDecision ModelKind.
Proof. solve_decision. Defined.

(** A QModelIndex of one of the two models; the children of the desktop model are
    used by views only. *)
Record QModelIndex := mkIndex { row : Z; column : Z; model : option ModelKind }.
#[global] Instance QModelIndex_eq_dec : EqDecision QModelIndex.
Proof. solve_decision. Defined.

Definition no_index : QModelIndex := mkIndex (-1) (-1) None.
Definition isValid (i : QModelIndex) : bool :=
  (0 <=? row i) && (0 <=? column i) && match model i with Some _ => true | None => false end.

(** TabBox, with the members of its TabBoxHandler and of the handler's models. *)
Record TabBox := mkTabBox {
  m_tabBoxMode : TabBoxMode;
  m_delayShowTime : Z;
  m_delayedShowTimer : bool;                (** active *)
  m_displayRefcount : Z;
  m_defaultConfig : TabBoxConfig;
  m_alternativeConfig : TabBoxConfig;
  m_defaultCurrentApplicationConfig : TabBoxConfig;
  m_alternativeCurrentApplicationConfig : TabBoxConfig;
  m_desktopConfig : TabBoxConfig;
  m_desktopListConfig : TabBoxConfig;
  m_isShown : bool;
  m_desktopGrab : bool;
  m_tabGrab : bool;
  m_noModifierGrab : bool;
  m_cuts : Shortcut -> list Z;              (** m_cutWalkThroughDesktops, ... *)
  static_cuts : option (Shortcut -> list Z); (** the static variable of [keyPress] *)
  m_forcedGlobalMouseGrab : bool;
  m_ready : bool;
  m_borderActivate : list Z;
  m_borderAlternativeActivate : list Z;
  effect_refs : Z;                          (** the references that effects hold *)
  (** the handler *)
  config : TabBoxConfig;
  m_clientModel : list wid;
  m_desktopModel : DesktopModel;
  index : QModelIndex;
  isShown : bool;
  m_mainItem : bool;
  lastRaisedClient : option wid;
  lastRaisedClientSucc : option wid;
  wheelAngleDelta : Z;
  requests : list Request;
}.
#[global] Instance TabBox_eta : RecordEta TabBox := fun s =>
  mkTabBox (m_tabBoxMode s) (m_delayShowTime s) (m_delayedShowTimer s) (m_displayRefcount s)
    (m_defaultConfig s) (m_alternativeConfig s) (m_defaultCurrentApplicationConfig s)
    (m_alternativeCurrentApplicationConfig s) (m_desktopConfig s) (m_desktopListConfig s) (m_isShown s)
    (m_desktopGrab s) (m_tabGrab s) (m_noModifierGrab s) (m_cuts s) (static_cuts s) (m_forcedGlobalMouseGrab s) (m_ready s)
    (m_borderActivate s) (m_borderAlternativeActivate s) (effect_refs s)
    (config s) (m_clientModel s) (m_desktopModel s) (index s) (isShown s) (m_mainItem s)
    (lastRaisedClient s) (lastRaisedClientSucc s) (wheelAngleDelta s) (requests s).

Definition request (r : Request) (s : TabBox) : TabBox := s <| requests := requests s ++ [r] |>.

(** ** Configuration *)

(** The constructor; [mode] of the configurations of windows is ClientTabBox, and
    [m_delayShowTime] is not set before [reconfigure] reads it. *)
Definition windows_config (desktops : Z) : TabBoxConfig := default_config <| clientDesktopMode := desktops |>.

Definition desktops_config (mode : DesktopSwitchingMode) : TabBoxConfig :=
  default_config <| tabBoxMode := DesktopTabBox |> <| showTabBox := true |>
    <| showDesktopMode := DoNotShowDesktopClient |> <| desktopSwitchingMode := mode |>.

Definition current_application (c : TabBoxConfig) : TabBoxConfig :=
  c <| clientApplicationsMode := AllWindowsCurrentApplication |>.

Definition initial (delay : Z) : TabBox :=
  mkTabBox TabBoxDesktopMode delay false 0
    (windows_config OnlyCurrentDesktopClients) (windows_config AllDesktopsClients)
    (current_application (windows_config OnlyCurrentDesktopClients))
    (current_application (windows_config AllDesktopsClients))
    (desktops_config MostRecentlyUsedDesktopSwitching) (desktops_config StaticDesktopSwitching)
    false false false false (fun _ => []) None false false [] [] 0
    default_config [] (mkDesktopModel [] ∅) no_index false false None None 0 [].

(** A group of the configuration file. *)
Record ConfigGroup := mkConfigGroup {
  readInt : string -> option Z;
  readBool : string -> option bool;
  readString : string -> option string;
  readInts : string -> list Z;              (** the entries of a list that are numbers *)
}.

Definition loadConfig (g : ConfigGroup) (c : TabBoxConfig) : TabBoxConfig :=
  c <| clientDesktopMode := default OnlyCurrentDesktopClients (readInt g "DesktopMode") |>
    <| clientActivitiesMode := default OnlyCurrentActivityClients (readInt g "ActivitiesMode") |>
    <| clientApplicationsMode := default AllWindowsAllApplications (readInt g "ApplicationsMode") |>
    <| clientMinimizedMode := default IgnoreMinimizedStatus (readInt g "MinimizedMode") |>
    <| showDesktopMode := default DoNotShowDesktopClient (readInt g "ShowDesktopMode") |>
    <| clientMultiScreenMode := default IgnoreMultiScreen (readInt g "MultiScreenMode") |>
    <| clientSwitchingMode := default FocusChainSwitching (readInt g "SwitchingMode") |>
    <| showTabBox := default true (readBool g "ShowTabBox") |>
    <| highlightWindows := default true (readBool g "HighlightWindows") |>
    <| layoutName := default "thumbnail_grid" (readString g "LayoutName") |>.

Definition setConfig (c : TabBoxConfig) (s : TabBox) : TabBox := s <| config := c |>.

(** The borders of the screen that show the switcher; the touch borders, which
    [reconfigure] treats in the same way, are left out. *)
Definition reserve_borders (old new : list Z) (s : TabBox) : TabBox :=
  foldl (fun s b => request (reserve b) s) (foldl (fun s b => request (unreserve b) s) s old) new.

Definition reconfigure (tabbox alternative : ConfigGroup) (s : TabBox) : TabBox :=
  let dc := loadConfig tabbox (m_defaultConfig s) in
  let ac := loadConfig alternative (m_alternativeConfig s) in
  let desktop_layout k := default "org.kde.breeze.desktop" (readString tabbox k) in
  let b := readInts tabbox "BorderActivate" in
  let ab := readInts tabbox "BorderAlternativeActivate" in
  reserve_borders (m_borderAlternativeActivate s) ab (reserve_borders (m_borderActivate s) b
    (s <| m_defaultConfig := dc |> <| m_alternativeConfig := ac |>
       <| m_defaultCurrentApplicationConfig := current_application dc |>
       <| m_alternativeCurrentApplicationConfig := current_application ac |>
       <| config := dc |>
       <| m_delayShowTime := default 90 (readInt tabbox "DelayTime") |>
       <| m_desktopConfig := (m_desktopConfig s) <| layoutName := desktop_layout "DesktopLayout" |> |>
       <| m_desktopListConfig := (m_desktopListConfig s) <| layoutName := desktop_layout "DesktopListLayout" |> |>
       <| m_borderActivate := b |> <| m_borderAlternativeActivate := ab |>)).

Definition handlerReady (tabbox alternative : ConfigGroup) (s : TabBox) : TabBox :=
  (reconfigure tabbox alternative (setConfig (m_defaultConfig s) s)) <| m_ready := true |>.

(** The names of the actions. *)
Definition shortcut_names : list (string * Shortcut) :=
  [("Walk Through Windows", (TabBoxWindowsMode, true));
   ("Walk Through Windows (Reverse)", (TabBoxWindowsMode, false));
   ("Walk Through Windows of Current Application", (TabBoxCurrentAppWindowsMode, true));
   ("Walk Through Windows of Current Application (Reverse)", (TabBoxCurrentAppWindowsMode, false));
   ("Walk Through Windows Alternative", (TabBoxWindowsAlternativeMode, true));
   ("Walk Through Windows Alternative (Reverse)", (TabBoxWindowsAlternativeMode, false));
   ("Walk Through Windows of Current Application Alternative", (TabBoxCurrentAppWindowsAlternativeMode, true));
   ("Walk Through Windows of Current Application Alternative (Reverse)",
    (TabBoxCurrentAppWindowsAlternativeMode, false));
   ("Walk Through Desktops", (TabBoxDesktopMode, true));
   ("Walk Through Desktops (Reverse)", (TabBoxDesktopMode, false));
   ("Walk Through Desktop List", (TabBoxDesktopListMode, true));
   ("Walk Through Desktop List (Reverse)", (TabBoxDesktopListMode, false))].

Definition globalShortcutChanged (action : string) (seq : list Z) (s : TabBox) : TabBox :=
  match list_find (fun e => e.1 = action) shortcut_names with
  | Some (_, (_, cut)) => s <| m_cuts := fun c => if decide (c = cut) then seq else m_cuts s c |>
  | None => s
  end.

Definition setMode (mode : TabBoxMode) (s : TabBox) : TabBox :=
  setConfig match mode with
            | TabBoxWindowsMode => m_defaultConfig s
            | TabBoxWindowsAlternativeMode => m_alternativeConfig s
            | TabBoxCurrentAppWindowsMode => m_defaultCurrentApplicationConfig s
            | TabBoxCurrentAppWindowsAlternativeMode => m_alternativeCurrentApplicationConfig s
            | TabBoxDesktopMode => m_desktopConfig s
            | TabBoxDesktopListMode => m_desktopListConfig s
            end (s <| m_tabBoxMode := mode |>).

(** ** TabBoxHandler *)

Section Handler.
Context (W : World) (fuel : nat).
Implicit Types (s : TabBox) (i : QModelIndex).

(** ClientModel::index and DesktopModel::index, without a parent. *)
Definition client_index (l : list wid) (r c : Z) : QModelIndex :=
  if (r <? 0) || negb (c =? 0) then no_index
  else if (Z.of_nat (length l) <=? r) && negb (bool_decide (l = [])) then no_index
  else mkIndex r 0 (Some InClientModel).

Definition desktop_index (l : list Z) (r c : Z) : QModelIndex :=
  if negb (c =? 0) || (r <? 0) then no_index
  else if (Z.of_nat (length l) <? r) || bool_decide (l = []) then no_index
  else mkIndex r c (Some InDesktopModel).

(** The model of the current mode. *)
Definition rowCount s : Z :=
  match tabBoxMode (config s) with
  | ClientTabBox => Z.of_nat (length (m_clientModel s))
  | DesktopTabBox => Z.of_nat (length (m_desktopList (m_desktopModel s)))
  end.
Definition columnCount : Z := 1.
Definition model_index s (r c : Z) : QModelIndex :=
  match tabBoxMode (config s) with
  | ClientTabBox => client_index (m_clientModel s) r c
  | DesktopTabBox => desktop_index (m_desktopList (m_desktopModel s)) r c
  end.

Definition first s : QModelIndex := model_index s 0 0.

(** The loop over the columns, from the last one, of the row [r]. *)
Fixpoint last_valid (n : nat) s (r : Z) (ret : QModelIndex) : QModelIndex :=
  match n with
  | O => ret
  | S n' =>
      let ret := model_index s r (Z.of_nat n') in
      if isValid ret then ret else last_valid n' s r ret
  end.

Definition next_index s : QModelIndex :=
  let c := column (index s) + 1 in
  let r := row (index s) in
  let '(r, c) :=
    if c =? columnCount then ((if r + 1 =? rowCount s then 0 else r + 1), 0) else (r, c) in
  let ret := model_index s r c in
  if isValid ret then ret else model_index s 0 0.

Definition prev_index s : QModelIndex :=
  let c := column (index s) - 1 in
  let r := row (index s) in
  let '(r, c) :=
    if c <? 0 then ((if r - 1 <? 0 then rowCount s - 1 else r - 1), columnCount - 1) else (r, c) in
  let ret := model_index s r c in
  if isValid ret then ret else last_valid (Z.to_nat columnCount) s (rowCount s - 1) ret.

Definition handler_nextPrev (forward : bool) s : QModelIndex :=
  let ret := if forward then next_index s else prev_index s in
  if isValid ret then ret else index s.

(** ClientModel::data with the role of the client. *)
Definition client i s : option wid :=
  if negb (isValid i) || negb (bool_decide (tabBoxMode (config s) = ClientTabBox)) then None
  else m_clientModel s !! Z.to_nat (row i) ≫= lock W.

Definition index_of_client (c : option wid) s : QModelIndex :=
  match list_find (fun w => lock W w = c) (m_clientModel s) with
  | Some (i, _) => mkIndex (Z.of_nat i / columnCount) (Z.of_nat i mod columnCount) (Some InClientModel)
  | None => no_index
  end.

Definition desktopIndex (d : Z) s : QModelIndex :=
  if negb (bool_decide (tabBoxMode (config s) = DesktopTabBox)) then no_index
  else if Z.of_nat (length (m_desktopList (m_desktopModel s))) <? d then no_index
  else
    mkIndex match index_of d (m_desktopList (m_desktopModel s)) with Some i => Z.of_nat i | None => -1 end
      0 (Some InDesktopModel).

(** TabBoxHandler::desktop. *)
Definition desktop_at i s : Z :=
  if negb (isValid i) || negb (bool_decide (tabBoxMode (config s) = DesktopTabBox)) then -1
  else if negb (column i =? 0) then -1
  else default (-1) (m_desktopList (m_desktopModel s) !! Z.to_nat (row i)).

Definition elevate_last (b : bool) (c : option wid) s : TabBox :=
  match c with Some w => request (elevate w b) s | None => s end.

(** The window above the current one in the stacking order. *)
Definition successor (c : wid) : option wid :=
  match list_find (fun w => lock W w = Some c) (controlled_stacking W) with
  | Some (i, _) => controlled_stacking W !! S i ≫= lock W
  | None => None
  end.

Definition restack_last s : TabBox :=
  match lastRaisedClient s, lastRaisedClientSucc s with
  | Some w, Some u => request (restack w u) s
  | _, _ => s
  end.

Definition raise_current (c : option wid) s : TabBox :=
  match c with
  | Some w => request (raiseWindow w) (s <| lastRaisedClientSucc := successor w |>)
  | None => s
  end.

Definition updateHighlightWindows s : TabBox :=
  if negb (isShown s) || negb (bool_decide (tabBoxMode (config s) = ClientTabBox)) then s
  else
    let current := client (index s) s in
    let s :=
      if compositing W then
        elevate_last true current ((elevate_last false (lastRaisedClient s) s) <| lastRaisedClient := current |>)
      else raise_current current ((restack_last s) <| lastRaisedClient := current |>) in
    request (highlight current (showTabBox (config s) && m_mainItem s)) s.

Definition endHighlightWindows (abort : bool) s : TabBox :=
  let s := elevate_last false (client (index s) s) s in
  let s := if abort then restack_last s else s in
  request (highlight None false) (s <| lastRaisedClient := None |> <| lastRaisedClientSucc := None |>).

(** TabBoxHandlerPrivate::show. *)
Definition show_view s : TabBox :=
  if view W then s <| m_mainItem := true |> <| wheelAngleDelta := 0 |> else s <| m_mainItem := false |>.

(** TabBoxHandler::show; initHighlightWindows is called a moment later. *)
Definition handler_show s : TabBox :=
  let s := s <| isShown := true |> <| lastRaisedClient := None |> <| lastRaisedClientSucc := None |> in
  if showTabBox (config s) then show_view s else s.

Definition handler_hide (abort : bool) s : TabBox :=
  let s := s <| isShown := false |> in
  let s := if highlightWindows (config s) then endHighlightWindows abort s else s in
  s <| m_mainItem := false |>.

(** TabBoxHandler::setCurrentIndex. *)
Definition handler_setCurrentIndex i s : TabBox :=
  if bool_decide (index s = i) then s
  else if negb (isValid i) then s
  else
    let s := s <| index := i |> in
    if bool_decide (tabBoxMode (config s) = ClientTabBox) && highlightWindows (config s)
    then updateHighlightWindows s else s.

(** Forgetting the raised windows that are gone. *)
Definition still_stacked (w : option wid) : option wid :=
  if existsb (fun c => bool_decide (lock W c <> None /\ lock W c = w)) (controlled_stacking W) then w else None.

(** [n] bounds the loop over the desktops. *)
Definition createModel (n : nat) (partialReset : bool) s : outcome TabBox :=
  match tabBoxMode (config s) with
  | ClientTabBox =>
      l ← createClientList W fuel (config s) (currentDesktop W) partialReset (m_clientModel s);
      Done (s <| m_clientModel := l |> <| lastRaisedClient := still_stacked (lastRaisedClient s) |>
              <| lastRaisedClientSucc := still_stacked (lastRaisedClientSucc s) |>)
  | DesktopTabBox =>
      m ← createDesktopList W fuel n (config s);
      Done (s <| m_desktopModel := m |>)
  end.

(** TabBoxHandler::eventFilter: the two loops over the accumulated wheel angle. *)
Fixpoint wheel_steps (n : nat) (forward : bool) s : TabBox :=
  match n with
  | O => s
  | S n' =>
      let s := s <| wheelAngleDelta := if forward then wheelAngleDelta s + 120 else wheelAngleDelta s - 120 |> in
      let i := handler_nextPrev forward s in
      wheel_steps n' forward (if isValid i then handler_setCurrentIndex i s else s)
  end.

Definition wheel_event (dx dy : Z) s : TabBox :=
  let delta := if Z.abs dy <? Z.abs dx then dx else dy in
  let s := s <| wheelAngleDelta := wheelAngleDelta s + delta |> in
  let s := wheel_steps (Z.to_nat ((- wheelAngleDelta s) / 120)) true s in
  wheel_steps (Z.to_nat (wheelAngleDelta s / 120)) false s.
End Handler.

(** ** Keys *)

(** Qt::Key and Qt::KeyboardModifier. *)
Definition Key_Escape : Z := 0x01000000.
Definition Key_Tab : Z := 0x01000001.
Definition Key_Backtab : Z := 0x01000002.
Definition Key_Return : Z := 0x01000004.
Definition Key_Enter : Z := 0x01000005.
Definition Key_Space : Z := 0x20.
Definition ShiftModifier : Z := 0x02000000.
Definition ControlModifier : Z := 0x04000000.
Definition AltModifier : Z := 0x08000000.
Definition MetaModifier : Z := 0x10000000.
Definition KeypadModifier : Z := 0x20000000.
Definition GroupSwitchModifier : Z := 0x40000000.
Definition KeyboardModifierMask : Z := 0xfe000000.

Definition key_modifiers : Z :=
  Z.lor ShiftModifier (Z.lor ControlModifier (Z.lor AltModifier
    (Z.lor MetaModifier (Z.lor KeypadModifier GroupSwitchModifier)))).

Definition has_modifier (key m : Z) : bool := negb (Z.land key m =? 0).
Definition without_modifiers (key m : Z) : Z := Z.land key (Z.lnot m).

Inductive Direction := Backward | Steady | Forward.
#[global] Instance Direction_eq_dec : EqDecision Direction.
Proof. solve_decision. Defined.

(** The direction of the first matching shortcut, or the direction [other]. *)
Definition match_cuts (forward backward : list Z) (key : Z) (other : Direction) : Direction :=
  if Prelude.contains forward key then Forward
  else if Prelude.contains backward key then Backward
  else other.

Definition directionFor (keyQt : Z) (forward backward : list Z) : Direction :=
  match_cuts forward backward keyQt
    (if negb (has_modifier keyQt ShiftModifier) then Steady
     else
       let mods := Z.land key_modifiers keyQt in
       let unshifted := match_cuts forward backward (without_modifiers keyQt ShiftModifier) Steady in
       if without_modifiers keyQt mods =? Key_Tab
       then match_cuts forward backward (Z.lor mods Key_Backtab) unshifted
       else unshifted).

Definition ModeCount : nat := 4.
Definition modes : list TabBoxMode :=
  [TabBoxWindowsMode; TabBoxWindowsAlternativeMode;
   TabBoxCurrentAppWindowsMode; TabBoxCurrentAppWindowsAlternativeMode].
Definition mode_at (i : nat) : TabBoxMode := default TabBoxWindowsMode (modes !! i).

(** What the search of the mode that a key belongs to finds: the mode it stopped at
    and the direction, or nothing after too many attempts. *)
Inductive Search := Found (mode : TabBoxMode) (direction : Direction) | Invalid.

(** The loop of [keyPress]. *)
Fixpoint search_mode (n : nat) (cuts : Shortcut -> list Z) (mode : TabBoxMode) (keyQt : Z)
  (testedCurrent : bool) (i j : nat) : outcome Search :=
  match n with
  | O => OutOfFuel
  | S n' =>
      let m := mode_at i in
      if negb testedCurrent && negb (bool_decide (m = mode)) then
        search_mode n' cuts mode keyQt testedCurrent ((i + 1) mod ModeCount) (S j)
      else if testedCurrent && bool_decide (m = mode) then Done (Found m Steady)
      else
        let direction := directionFor keyQt (cuts (m, true)) (cuts (m, false)) in
        if negb (bool_decide (direction = Steady)) then Done (Found m direction)
        else if bool_decide (2 * ModeCount < S j)%nat then Done Invalid
        else search_mode n' cuts mode keyQt true ((i + 1) mod ModeCount) (S j)
  end.

(** areModKeysDepressed and its two variants. *)
Definition modifier_syms (mod_ : Z) : list Z :=
  (if has_modifier mod_ ShiftModifier then [0xffe1; 0xffe2] else []) ++
  (if has_modifier mod_ ControlModifier then [0xffe3; 0xffe4] else []) ++
  (if has_modifier mod_ AltModifier then [0xffe9; 0xffea] else []) ++
  (if has_modifier mod_ MetaModifier then [0xffeb; 0xffec; 0xffe7; 0xffe8] else []).

Definition key_pressed (keymap : list Z) (code : Z) : bool :=
  let i := code / 8 in
  if (i <? 0) || (32 <=? i) then false
  else Z.testbit (default 0 (keymap !! Z.to_nat i)) (code - i * 8).

Definition areKeySymXsDepressed (W : World) (keySyms : list Z) : bool :=
  match keymap W with
  | None => false
  | Some m => existsb (fun sym => existsb (key_pressed m) (keycodes W sym)) keySyms
  end.

Definition areModKeysDepressedWayland (W : World) (mod_ : Z) : bool :=
  existsb (fun m => has_modifier mod_ m && has_modifier (relevant_modifiers W) m)
    [ShiftModifier; ControlModifier; AltModifier; MetaModifier].

Definition areModKeysDepressed (W : World) (seq : list Z) : bool :=
  match last seq with
  | None => false
  | Some key =>
      let mod_ := Z.land key KeyboardModifierMask in
      if wayland (env W) then areModKeysDepressedWayland W mod_
      else areKeySymXsDepressed W (modifier_syms mod_)
  end.

(** X11Filter::keyRelease: whether the last modifier is released. [mk] are the
    modifiers before the release, [keycodes_per_modifier] and [codes] the modifier
    mapping of the X server. *)
Definition modifier_released (mk : Z) (mapping : option (nat * list Z)) (detail : Z) : bool :=
  match List.filter (fun i => Z.testbit mk (Z.of_nat i)) (seq 0 8) with
  | [] => true
  | [mod_index] =>
      match mapping with
      | Some (per, codes) =>
          existsb (fun i => bool_decide (codes !! (per * mod_index + i)%nat = Some detail)) (seq 0 per)
      | None => false
      end
  | _ => false
  end.

(** ** TabBox *)

Section Operations.
Context (W : World) (fuel : nat).
Implicit Types (s : TabBox).

Definition reference s : TabBox := s <| m_displayRefcount := m_displayRefcount s + 1 |>.
Definition unreference s : TabBox := s <| m_displayRefcount := m_displayRefcount s - 1 |>.
Definition isDisplayed s : bool := 0 <? m_displayRefcount s.
Definition isGrabbed s : bool := m_tabGrab s || m_desktopGrab s.

(** EffectsHandlerImpl::refTabBox and unrefTabBox. *)
Definition refTabBox s : TabBox := (reference s) <| effect_refs := effect_refs s + 1 |>.
Definition unrefTabBox s : TabBox := (unreference s) <| effect_refs := effect_refs s - 1 |>.

(** The signals, with the effects that take the place of the view. *)
Definition emit_added s : TabBox :=
  let s := request tabBoxAdded s in if takes_over W then refTabBox s else s.
Definition emit_closed s : TabBox :=
  let s := request tabBoxClosed s in
  if lets_go W then
    s <| m_displayRefcount := m_displayRefcount s - effect_refs s |> <| effect_refs := 0 |>
  else s.

Definition setCurrentIndex (i : QModelIndex) (notifyEffects : bool) s : TabBox :=
  if negb (isValid i) then s
  else
    let s := handler_setCurrentIndex W i s in
    if notifyEffects then request tabBoxUpdated s else s.

Definition setCurrentClient (w : wid) s : TabBox := setCurrentIndex (index_of_client W (lock W w) s) true s.
Definition setCurrentDesktop (d : Z) s : TabBox := setCurrentIndex (desktopIndex d s) true s.
Definition tabbox_currentDesktop s : Z := desktop_at (index s) s.
Definition currentDesktopList s : list Z :=
  if bool_decide (tabBoxMode (config s) = DesktopTabBox) then m_desktopList (m_desktopModel s) else [].

Definition currentClient s : option wid :=
  w ← client W (index s) s; if hasClient W w then Some w else None.

Definition currentClientList s : list wid := omap (lock W) (clientList (config s) (m_clientModel s)).

(** [n] bounds the loop over the desktops. *)
Definition reset (n : nat) (partial_reset : bool) s : outcome TabBox :=
  match tabBoxMode (config s) with
  | ClientTabBox =>
      s ← createModel W fuel n partial_reset s;
      let s :=
        if negb partial_reset then
          let s := match activeClient W with Some w => setCurrentClient w s | None => s end in
          if negb (isValid (index s)) then setCurrentIndex (first s) true s else s
        else if negb (isValid (index s)) || bool_decide (client W (index s) s = None)
        then setCurrentIndex (first s) true s else s in
      Done (request tabBoxUpdated s)
  | DesktopTabBox =>
      s ← createModel W fuel n false s;
      let s := if negb partial_reset then setCurrentDesktop (currentDesktop W) s else s in
      Done (request tabBoxUpdated s)
  end.

Definition updateTabbox (n : nat) s : outcome TabBox := if isDisplayed s then reset n true s else Done s.

Definition nextPrev (next : bool) s : TabBox :=
  request tabBoxUpdated (setCurrentIndex (handler_nextPrev next s) false s).

Definition show s : TabBox :=
  let s := emit_added s in
  if isDisplayed s then s <| m_isShown := false |>
  else handler_show W ((reference (request (setShowingDesktop false) s)) <| m_isShown := true |>).

Definition hide (abort : bool) s : TabBox :=
  let s := s <| m_delayedShowTimer := false |> in
  let s := if m_isShown s then unreference (s <| m_isShown := false |>) else s in
  handler_hide W abort (emit_closed s).

Definition delayedShow s : TabBox :=
  if isDisplayed s || m_delayedShowTimer s then s
  else if m_delayShowTime s =? 0 then show s
  else s <| m_delayedShowTimer := true |>.

(** The timer is a single shot. *)
Definition delayed_show_timeout s : TabBox := show (s <| m_delayedShowTimer := false |>).

(** Whether the grab succeeds. *)
Definition establishTabBoxGrab s : option TabBox :=
  if wayland (env W) then Some (s <| m_forcedGlobalMouseGrab := true |>)
  else if grabXKeyboard W then Some (s <| m_forcedGlobalMouseGrab := true |>)
  else None.

Definition removeTabBoxGrab s : TabBox :=
  if wayland (env W) then s <| m_forcedGlobalMouseGrab := false |>
  else (request ungrabXKeyboard s) <| m_forcedGlobalMouseGrab := false |>.

Definition close (abort : bool) s : TabBox :=
  let s := if isGrabbed s then removeTabBoxGrab s else s in
  (hide abort s) <| m_tabGrab := false |> <| m_desktopGrab := false |> <| m_noModifierGrab := false |>.

Definition accept (closeTabBox : bool) s : TabBox :=
  let c := currentClient s in
  let s := if closeTabBox then close false s else s in
  match c with
  | Some w =>
      let s := request (activateClient w) s in
      if is_desktop (heap W w) then request (setShowingDesktop (negb (showingDesktop W))) s else s
  | None => s
  end.

Definition KDEWalkThroughWindows (forward : bool) s : TabBox := delayedShow (nextPrev forward s).
Definition walkThroughDesktops (forward : bool) s : TabBox := delayedShow (nextPrev forward s).

Definition startWalk (desktops : bool) (mode : TabBoxMode) (n : nat) s : outcome (TabBox * bool) :=
  match establishTabBoxGrab s with
  | None => Done (s, false)
  | Some s =>
      let s := if desktops then s <| m_desktopGrab := true |> else s <| m_tabGrab := true |> in
      s ← reset n false (setMode mode (s <| m_noModifierGrab := false |>));
      Done (s, true)
  end.
Definition startKDEWalkThroughWindows := startWalk false.
Definition startWalkThroughDesktops := startWalk true.

Definition KDEOneStepThroughWindows (forward : bool) (mode : TabBoxMode) (n : nat) s : outcome TabBox :=
  s ← reset n false (setMode mode s);
  let s := nextPrev forward s in
  Done match currentClient s with Some w => request (activateClient w) s | None => s end.

(** setCurrentDesktop is the switcher's own, which selects a row of the model. *)
Definition oneStepThroughDesktops (forward : bool) (mode : TabBoxMode) (n : nat) s : outcome TabBox :=
  s ← reset n false (setMode mode s);
  let s := nextPrev forward s in
  Done (if negb (tabbox_currentDesktop s =? -1) then setCurrentDesktop (tabbox_currentDesktop s) s else s).

(** *** Walking through the windows in the order they were created *)

Definition nextClientStatic (c : option wid) : option wid :=
  match c, allClientList W with
  | None, _ | _, [] => None
  | Some w, (x :: _) as list =>
      match index_of w list with
      | None => Some x
      | Some pos => if (S pos =? length list)%nat then Some x else list !! S pos
      end
  end.

Definition previousClientStatic (c : option wid) : option wid :=
  match c, allClientList W with
  | None, _ | _, [] => None
  | Some w, list =>
      match index_of w list with
      | None | Some O => last list
      | Some (S pos) => list !! pos
      end
  end.

(** The topmost window that may be left. *)
Definition cde_start : option wid :=
  find_last (fun w =>
    let x := heap W w in
    match control x with
    | None => false
    | Some k =>
        isOnCurrentActivity (env W) x && on_current_desktop (env W) x && negb (is_special_window x) &&
        Toplevel.isShown x && wants_tab_focus x && negb (keep_above k) && negb (keep_below k)
    end) (stackingOrder W).

(** The windows that the walk passes over; [desktop] is the desktop selected in the
    switcher. *)
Definition cde_skips (desktop : Z) (w : wid) : bool :=
  let x := heap W w in
  (negb (traverse_all W) && negb (on_desktop (env W) x desktop)) || isMinimized W w ||
  negb (wants_tab_focus x) ||
  match control x with Some k => keep_above k || keep_below k | None => false end ||
  negb (isOnCurrentActivity (env W) x).

Fixpoint cde_loop (n : nat) (desktop : Z) (forward : bool) (c nc firstClient : option wid) : outcome (option wid) :=
  match n with
  | O => OutOfFuel
  | S n' =>
      let nc := if forward then nextClientStatic nc else previousClientStatic nc in
      if bool_decide (firstClient <> None) && bool_decide (nc = firstClient) then Done None
      else
        let firstClient := match firstClient with None => nc | Some _ => firstClient end in
        match nc with
        | None => Done None
        | Some w =>
            if bool_decide (nc = c) || negb (cde_skips desktop w) then Done nc
            else cde_loop n' desktop forward c nc firstClient
        end
  end.

Definition CDEWalkThroughWindows (n : nat) (forward : bool) s : outcome TabBox :=
  let c := cde_start in
  nc ← cde_loop n (tabbox_currentDesktop s) forward c c None;
  Done match nc with
       | None => s
       | Some w =>
           let s :=
             match c with
             | Some t => if bool_decide (t = w) then s else request (lowerWindow t) s
             | None => s
             end in
           if focusPolicyIsReasonable W then request (activateClient w) s
           else
             let s :=
               if on_desktop (env W) (heap W w) (tabbox_currentDesktop s) then s
               else setCurrentDesktop (desktop (env W) (heap W w)) s in
             request (raiseWindow w) s
       end.

(** *** Slots and events *)

Definition navigatingThroughWindows (n : nat) (forward : bool) (mode : TabBoxMode) s : outcome TabBox :=
  if negb (m_ready s) || isGrabbed s then Done s
  else if negb (focusPolicyIsReasonable W) then CDEWalkThroughWindows n forward s
  else if areModKeysDepressed W (m_cuts s (mode, forward)) then
    '(s, started) ← startKDEWalkThroughWindows mode n s;
    Done (if (started : bool) then KDEWalkThroughWindows forward s else s)
  else KDEOneStepThroughWindows forward mode n s.

(** slotWalkThroughDesktops and the three like it. *)
Definition slotWalkThroughDesktops (n : nat) (forward : bool) (mode : TabBoxMode) s : outcome TabBox :=
  if negb (m_ready s) || isGrabbed s then Done s
  else if areModKeysDepressed W (m_cuts s (mode, forward)) then
    '(s, started) ← startWalkThroughDesktops mode n s;
    Done (if (started : bool) then walkThroughDesktops forward s else s)
  else oneStepThroughDesktops forward mode n s.

Definition toggleMode (mode : TabBoxMode) (n : nat) s : outcome TabBox :=
  if negb (focusPolicyIsReasonable W) then Done s
  else if isDisplayed s then Done (accept true s)
  else
    match establishTabBoxGrab s with
    | None => Done s
    | Some s =>
        s ← reset n false (setMode mode (s <| m_noModifierGrab := true |> <| m_tabGrab := true |>));
        Done (show s)
    end.

Definition toggle (eb : Z) (n : nat) s : outcome TabBox :=
  toggleMode (if Prelude.contains (m_borderAlternativeActivate s) eb then TabBoxWindowsAlternativeMode
              else TabBoxWindowsMode) n s.

Definition grabbedKeyEvent (key : Z) s : TabBox :=
  let s := request (tabBoxKeyEvent key) s in
  if negb (m_isShown s) && isDisplayed s then s
  else if m_noModifierGrab s && Prelude.contains [Key_Enter; Key_Return; Key_Space] key then accept true s
  else if m_mainItem s then request (viewKeyEvent key) s else s.

(** The keys while the switcher has the tab grab: the new state, the direction, and
    whether the rest of [keyPress] is left out. The mode that was switched to is
    reset and walked a moment later. The shortcuts are those of the first key, since they
    are copied to a static variable. *)
Definition init_static_cuts s : TabBox :=
  match static_cuts s with Some _ => s | None => s <| static_cuts := Some (m_cuts s) |> end.

Definition tab_grab_key (n : nat) (keyQt : Z) s : outcome (TabBox * Direction * bool) :=
  let s := init_static_cuts s in
  r ← search_mode n (default (m_cuts s) (static_cuts s)) (m_tabBoxMode s) keyQt false 0 0;
  Done match r with
       | Invalid => (s, Steady, true)
       | Found mode direction =>
           if bool_decide (direction = Steady) then (s, Steady, false)
           else
             let s := if bool_decide (mode = m_tabBoxMode s) then s else setMode mode (accept false s) in
             (KDEWalkThroughWindows (bool_decide (direction = Forward)) s, direction, false)
       end.

Definition desktop_grab_key (keyQt : Z) s : TabBox * Direction :=
  let direction :=
    match directionFor keyQt (m_cuts s (TabBoxDesktopMode, true)) (m_cuts s (TabBoxDesktopMode, false)) with
    | Steady => directionFor keyQt (m_cuts s (TabBoxDesktopListMode, true)) (m_cuts s (TabBoxDesktopListMode, false))
    | d => d
    end in
  (if bool_decide (direction = Steady) then s else walkThroughDesktops (bool_decide (direction = Forward)) s,
   direction).

Definition steady_key (keyQt : Z) (direction : Direction) s : TabBox :=
  let key := without_modifiers keyQt KeyboardModifierMask in
  if (m_desktopGrab s || m_tabGrab s) && bool_decide (direction = Steady) then
    if key =? Key_Escape then close true s else grabbedKeyEvent key s
  else s.

Definition keyPress (n : nat) (keyQt : Z) s : outcome TabBox :=
  if m_tabGrab s then
    '(s, direction, stop) ← tab_grab_key n keyQt s;
    Done (if (stop : bool) then s else steady_key keyQt direction s)
  else if m_desktopGrab s then
    let '(s, direction) := desktop_grab_key keyQt s in Done (steady_key keyQt direction s)
  else Done s.

(** The slot that a change of the mode starts a moment later. *)
Definition replayWithChangedTabboxMode (n : nat) (forward : bool) s : outcome TabBox :=
  s ← reset n false s; Done (nextPrev forward s).

Definition modifiersReleased s : TabBox :=
  if m_noModifierGrab s then s
  else
    let s := if m_tabGrab s then (accept true s) <| m_desktopGrab := m_desktopGrab s |> else s in
    if m_desktopGrab s then
      let desktop := tabbox_currentDesktop s in
      let s := (close false s) <| m_tabGrab := m_tabGrab s |> in
      if negb (desktop =? -1) then request (setCurrentVirtualDesktop desktop) (setCurrentDesktop desktop s) else s
    else s.

Inductive MouseEventType := MouseMove | MouseButtonPress | MouseButtonRelease.

(** [inside] tells whether the view contains the position, and [filtered] whether an
    effect that replaces the view takes the event; the result whether the event is kept
    from the windows. *)
Definition handleMouseEvent (type : MouseEventType) (inside filtered : bool) s : TabBox * bool :=
  if negb (m_isShown s) && isDisplayed s && filtered then (s, true)
  else
    match type with
    | MouseMove => (s, negb (m_mainItem s && inside))
    | MouseButtonPress =>
        if (negb (m_isShown s) && isDisplayed s) || negb (m_mainItem s && inside) then (close false s, true)
        else (s, false)
    | MouseButtonRelease => (s, false)
    end.

Definition select_next (forward : bool) s : TabBox :=
  let i := handler_nextPrev forward s in if isValid i then setCurrentIndex i true s else s.

Definition handleWheelEvent (dy : Z) (filtered : bool) s : TabBox * bool :=
  if negb (m_isShown s) && isDisplayed s && filtered then (s, true)
  else if dy =? 0 then (s, false)
  else (select_next (0 <? dy) s, true).

(** X11Filter::buttonPress; buttons 4 and 5 are the wheel. *)
Definition x11_buttonPress (button : Z) (inside : bool) s : TabBox * bool :=
  if (negb (m_isShown s) && isDisplayed s) ||
     (negb (m_mainItem s && inside) && ((button =? 1) || (button =? 2) || (button =? 3)))
  then (close false s, true)
  else if (button =? 5) || (button =? 4) then (select_next (button =? 5) s, true)
  else (s, false).

(** X11Filter::event, for the buttons; [intercepted] tells whether the effects intercept
    the mouse. *)
Definition x11_button_event (press : bool) (button : Z) (inside intercepted : bool) s : TabBox * bool :=
  if negb (m_isShown s) && isDisplayed s && intercepted then (s, false)
  else if press then x11_buttonPress button inside s
  else (s, false).

(** ClientModel::close and activate, for the views. *)
Definition model_close (i : Z) s : TabBox :=
  let ind := client_index (m_clientModel s) i 0 in
  if negb (isValid ind) then s
  else match m_clientModel s !! Z.to_nat i ≫= lock W with Some w => request (closeClient w) s | None => s end.
Definition model_activate (i : Z) s : TabBox :=
  let ind := client_index (m_clientModel s) i 0 in
  if negb (isValid ind) then s else accept true (handler_setCurrentIndex W ind s).
End Operations.

(** *** What happens to the switcher *)

Inductive Event :=
  | EvReady (tabbox alternative : ConfigGroup)
  | EvReconfigure (tabbox alternative : ConfigGroup)
  | EvShortcut (action : string) (seq : list Z)
  | EvWindows (forward alternative current_app : bool)      (** the slots of the shortcuts *)
  | EvDesktops (forward static : bool)
  | EvBorder (eb : Z)                                       (** a border of the screen *)
  | EvTouch (alternative : bool)
  | EvKey (keyQt : Z)
  | EvModifiersReleased
  | EvShowTimeout
  | EvInitHighlight
  | EvReplay (forward : bool)
  | EvMouse (type : MouseEventType) (inside filtered : bool)
  | EvWheel (dy : Z) (filtered : bool)
  | EvX11Button (press : bool) (button : Z) (inside intercepted : bool)
  | EvViewWheel (dx dy : Z)
  | EvViewActivate (i : Z)
  | EvEffectRef
  | EvEffectUnref                                           (** of a reference it holds *)
  | EvEffectClose
  | EvSelectClient (w : wid)
  | EvSelectDesktop (d : Z)
  | EvWindowsChanged                                        (** Workspace::updateTabbox *)
  | EvWindowGone (w : wid).                                 (** the windows' destruction *)

Definition windows_mode (alternative current_app : bool) : TabBoxMode :=
  match alternative, current_app with
  | false, false => TabBoxWindowsMode
  | true, false => TabBoxWindowsAlternativeMode
  | false, true => TabBoxCurrentAppWindowsMode
  | true, true => TabBoxCurrentAppWindowsAlternativeMode
  end.
Definition desktops_mode (static : bool) : TabBoxMode :=
  if static then TabBoxDesktopListMode else TabBoxDesktopMode.

(** The input filters pass the events of the keyboard and of the pointer to the
    switcher while it is grabbed. *)
Definition step (fuel n : nat) (W : World) (e : Event) (s : TabBox) : outcome TabBox :=
  match e with
  | EvReady t a => Done (handlerReady t a s)
  | EvReconfigure t a => Done (reconfigure t a s)
  | EvShortcut a q => Done (globalShortcutChanged a q s)
  | EvWindows f a c => navigatingThroughWindows W fuel n f (windows_mode a c) s
  | EvDesktops f st => slotWalkThroughDesktops W fuel n f (desktops_mode st) s
  | EvBorder eb => toggle W fuel eb n s
  | EvTouch a => toggleMode W fuel (windows_mode a false) n s
  | EvKey k => if isGrabbed s then keyPress W n k s else Done s
  | EvModifiersReleased => Done (if isGrabbed s then modifiersReleased W s else s)
  | EvShowTimeout => Done (if m_delayedShowTimer s then delayed_show_timeout W s else s)
  | EvInitHighlight => Done (updateHighlightWindows W s)
  | EvReplay f => replayWithChangedTabboxMode W fuel n f s
  | EvMouse t i f => Done (if isGrabbed s then (handleMouseEvent W t i f s).1 else s)
  | EvWheel d f => Done (if isGrabbed s then (handleWheelEvent W d f s).1 else s)
  | EvX11Button p b i c => Done (if isGrabbed s then (x11_button_event W p b i c s).1 else s)
  | EvViewWheel dx dy => Done (wheel_event W dx dy s)
  | EvViewActivate i => Done (model_activate W i s)
  | EvEffectRef => Done (refTabBox s)
  | EvEffectUnref => Done (if 0 <? effect_refs s then unrefTabBox s else s)
  | EvEffectClose => Done (close W false s)
  | EvSelectClient w => Done (setCurrentClient W w s)
  | EvSelectDesktop d => Done (setCurrentDesktop W d s)
  | EvWindowsChanged => updateTabbox W fuel n s
  | EvWindowGone w =>
      Done (if isDisplayed s && bool_decide (currentClient W s = Some w) then nextPrev W true s else s)
  end.

Fixpoint run (fuel n : nat) (l : list (World * Event)) (s : TabBox) : outcome TabBox :=
  match l with
  | [] => Done s
  | (W, e) :: l' => s ← step fuel n W e s; run fuel n l' s
  end.

(** ** Sample data

    Three plain windows in the focus chain, the last of them active, and four
    desktops; a Wayland session whose settings are the defaults. *)
Definition sample_world : World :=
  mkWorld (fun _ => plain_window)
    plain_env (FocusChain.mkFocusChain [0; 1; 2]%nat ∅ false None 1)
    (DesktopChain.manager_resize 0 4 DesktopChain.initial_chains) 4 [0; 1; 2]%nat [0; 1; 2]%nat (fun _ => true)
    (Some 2%nat) (fun _ => true) (fun _ => false) (fun _ => false) (fun v w => (v =? w)%nat)
    false true true false true 0x08000000 None (fun _ => []) true false true.

Definition sample_group : ConfigGroup :=
  mkConfigGroup (fun _ => None) (fun _ => None) (fun _ => None) (fun _ => []).
End TabBox.
