(* ===== verification/TabBoxProps.v ===== *)
(** * Properties of the window and desktop switcher ([TabBox])

    The list of windows is the focus chain from the active window on; walking
    through a list is a cycle; the loop over the desktops ends exactly while no
    removal of a desktop has left a number twice in the chain; the grabs stay
    consistent and the keys end; a reference that a late timer leaks stays. *)

From S2P Require Import Prelude Qt Toplevel FocusChain Stacking Activation TabBox.

Module TabBoxProps.
Import Toplevel TabBox.

(** ** Going round a list *)

(** From position [i] on, then from the front. *)
Definition rotate {A} (i : nat) (l : list A) : list A := drop i l ++ take i l.

(** The successor of position [i] going round. *)
Definition cyclic_next {A} (l : list A) (i : nat) : option A :=
  if decide (S i < length l)%nat then l !! S i else head l.

Lemma rotate_Permutation {A} i (l : list A) : rotate i l ≡ₚ l.
Proof. unfold rotate. rewrite Permutation_app_comm. by rewrite take_drop. Qed.

Lemma length_rotate {A} i (l : list A) : length (rotate i l) = length l.
Proof. by rewrite rotate_Permutation. Qed.

Lemma head_rotate {A} i (l : list A) x : l !! i = Some x -> head (rotate i l) = Some x.
Proof. intros Hl. unfold rotate. by rewrite (drop_S _ _ _ Hl). Qed.

(** Going round the rotated list is going round the list. *)
Lemma cyclic_next_rotate {A} (l : list A) i k :
  (i < length l)%nat -> (k < length l)%nat ->
  cyclic_next (rotate i l) k = cyclic_next l ((i + k) mod length l)%nat.
Proof.
  intros Hi Hk. unfold cyclic_next. rewrite length_rotate.
  destruct (l !! i) as [x|] eqn:Hx; [|apply lookup_ge_None in Hx; lia].
  rewrite (head_rotate _ _ _ Hx). unfold rotate.
  assert (length (drop i l) = length l - i)%nat as Hd by apply length_drop.
  destruct (decide (i + k < length l)%nat) as [Hs|Hs].
  - rewrite Nat.mod_small by done. case_decide as H1.
    + destruct (decide (S (i + k) < length l)%nat).
      * rewrite lookup_app_l, lookup_drop by lia. f_equal. lia.
      * rewrite lookup_app_r, Hd, lookup_take_lt by lia. replace (S k - (length l - i))%nat with O by lia.
        by destruct l.
    + destruct (decide (S (i + k) < length l)%nat); [lia|].
      assert (i = 0)%nat as -> by lia. by destruct l.
  - assert ((i + k) mod length l = i + k - length l)%nat as ->.
    { symmetry. apply Nat.mod_unique with (q := 1%nat); lia. }
    case_decide as H1.
    + rewrite lookup_app_r, Hd, lookup_take_lt by lia. rewrite decide_True by lia. f_equal. lia.
    + rewrite decide_True by lia. rewrite <- Hx. f_equal. lia.
Qed.

Lemma lookup_rotate {A} (l : list A) i k :
  (i < length l)%nat -> (k < length l)%nat -> rotate i l !! k = l !! ((i + k) mod length l)%nat.
Proof.
  intros Hi Hk. unfold rotate. assert (length (drop i l) = length l - i)%nat as Hd by apply length_drop.
  destruct (decide (i + k < length l)%nat) as [Hs|Hs].
  - rewrite Nat.mod_small, lookup_app_l, lookup_drop by lia. done.
  - assert ((i + k) mod length l = i + k - length l)%nat as ->.
    { symmetry. apply Nat.mod_unique with (q := 1%nat); lia. }
    rewrite lookup_app_r, Hd, lookup_take_lt by lia. f_equal. lia.
Qed.

(** ** Chains of desktops *)

Section Chains.
Import DesktopChain.
Implicit Types c : list Z.

Lemma next_cyclic c i d :
  NoDup c -> c !! i = Some d -> Some (next d c) = cyclic_next c i.
Proof.
  intros Hc Hi. unfold next, cyclic_next. rewrite (index_of_lookup _ _ _ Hc Hi). case_decide.
  - destruct (lookup_lt_is_Some_2 c (S i)) as [e He]; [done|]. by rewrite He.
  - by destruct c.
Qed.

Lemma shift_spec i c : (i < length c)%nat -> shift i c = take 1 c ++ take i c ++ drop (S i) c.
Proof.
  revert c. induction i as [|i IH]; intros c Hi; [by destruct c|].
  cbn [shift]. destruct (lookup_lt_is_Some_2 c i) as [x Hx]; [lia|].
  rewrite Hx. cbn [default]. rewrite IH by (rewrite length_insert; lia).
  rewrite !take_insert_ge by lia. f_equal. rewrite (take_S_r _ _ _ Hx), <- app_assoc. f_equal.
  rewrite (drop_S _ x) by (apply list_lookup_insert_eq; lia). cbn [app]. f_equal.
  apply drop_insert_lt. lia.
Qed.

Lemma add_spec c d i :
  c <> [] -> d <= Z.of_nat (length c) -> index_of d c = Some i ->
  add d c = d :: take i c ++ drop (S i) c.
Proof.
  intros Hc Hd Hi. unfold add.
  rewrite bool_decide_eq_false_2 by done. cbn [orb].
  destruct (Z.ltb_spec (Z.of_nat (length c)) d); [lia|]. rewrite Hi.
  apply index_of_Some in Hi as [Hi _]. apply lookup_lt_Some in Hi.
  rewrite shift_spec by done. by destruct c.
Qed.

(** The chain of a session lists the desktops in some order. *)
Definition is_chain (n : nat) c : Prop := c ≡ₚ init n.

Lemma is_chain_length n c : is_chain n c -> length c = n.
Proof. intros ->. unfold init. by rewrite length_map, length_seq. Qed.

Lemma elem_of_init n d : d ∈ init n <-> 1 <= d <= Z.of_nat n.
Proof.
  unfold init. rewrite list_elem_of_In, in_map_iff. setoid_rewrite in_seq. split.
  - intros (i & <- & ?). lia.
  - intros. exists (Z.to_nat (d - 1)). lia.
Qed.

Lemma NoDup_init n : NoDup (init n).
Proof.
  change (NoDup ((fun i => Z.of_nat i + 1) <$> seq 0 n)). apply NoDup_fmap_2; [intros ? ? ?; lia|apply NoDup_seq].
Qed.

Lemma is_chain_NoDup n c : is_chain n c -> NoDup c.
Proof. intros ->. apply NoDup_init. Qed.

Lemma elem_of_chain n c d : is_chain n c -> d ∈ c <-> 1 <= d <= Z.of_nat n.
Proof. intros ->. apply elem_of_init. Qed.

Lemma is_chain_of n c : NoDup c -> length c = n -> (forall d, d ∈ c -> 1 <= d <= Z.of_nat n) -> is_chain n c.
Proof.
  intros Hc Hl Hr. apply submseteq_length_Permutation.
  - apply NoDup_submseteq; [done|]. intros d Hd. by apply elem_of_init, Hr.
  - rewrite Hl. unfold init. by rewrite length_map, length_seq.
Qed.

Lemma init_S n : init (S n) = init n ++ [Z.of_nat n + 1].
Proof. unfold init. by rewrite seq_S, map_app. Qed.

Lemma is_chain_add n c d : is_chain n c -> 1 <= d -> is_chain n (add d c).
Proof.
  intros Hc Hd. pose proof (is_chain_length _ _ Hc) as Hl. unfold is_chain. rewrite <- Hc.
  destruct (decide (c = [] \/ Z.of_nat (length c) < d)) as [Hs|Hs].
  - unfold add. replace (bool_decide (c = []) || (Z.of_nat (length c) <? d)) with true; [done|].
    symmetry. apply orb_true_iff. rewrite bool_decide_eq_true, Z.ltb_lt. done.
  - assert (d ∈ c) as [i Hi]%index_of_is_Some by (apply (elem_of_chain n); [done|lia]).
    rewrite (add_spec c d i) by (try done; naive_solver lia).
    apply index_of_Some in Hi as [Hi _]. rewrite <- (take_drop_middle c i d Hi) at 3. by rewrite Permutation_middle.
Qed.

Lemma fill_app k n c : length c = k -> (k <= n)%nat ->
  foldl (fun c i => <[i := Z.of_nat i + 1]> c) (c ++ replicate (n - k) 0) (seq k (n - k)) =
  c ++ map (fun i => Z.of_nat i + 1) (seq k (n - k)).
Proof.
  remember (n - k)%nat as r eqn:Hr. revert k c Hr. induction r as [|r IH]; intros k c Hr Hl Hk; [done|].
  cbn [replicate seq foldl map]. subst k.
  replace (<[length c := Z.of_nat (length c) + 1]> (c ++ 0 :: replicate r 0))
    with ((c ++ [Z.of_nat (length c) + 1]) ++ replicate r 0)
    by (rewrite insert_app_r_alt, Nat.sub_diag, <- app_assoc by lia; done).
  rewrite IH; [by rewrite <- app_assoc|rewrite ?length_app; cbn; lia..].
Qed.

Lemma is_chain_grow k n c : is_chain k c -> (k <= n)%nat -> is_chain n (resize k n c).
Proof.
  intros Hc Hk. pose proof (is_chain_length _ _ Hc) as Hl. unfold resize.
  rewrite take_ge, Hl, decide_True, fill_app by lia. unfold is_chain. rewrite Hc. unfold init.
  rewrite <- map_app, <- seq_app. by replace (k + (n - k))%nat with n by lia.
Qed.

(** Removing the last desktop. *)
Lemma resize_shrink n c : length c = S n -> resize (S n) n c = map (fun d => Z.min d (Z.of_nat n)) (take n c).
Proof.
  intros Hl. unfold resize. rewrite decide_False, Hl by lia.
  replace (n - S n)%nat with O by lia. by rewrite app_nil_r.
Qed.
End Chains.

(** ** The list of windows *)

Section Lists.
Context (W : World) (fuel : nat).
Implicit Types (cfg : TabBoxConfig) (w : wid) (d : Z).

Abbreviation mru := (FocusChain.m_mostRecentlyUsed (focus W)) (only parsing).

(** The windows of the focus chain from a window back to the least recently used
    one, then from the most recently used one. *)
Definition chain_walk w : list wid :=
  match index_of w mru with
  | Some i => rotate (length mru - S i) (reverse mru)
  | None => []
  end.

(** What the list of windows is made from. *)
Definition focus_walk (start : option wid) : list wid :=
  match focus_chain_start W start with
  | Some w => if bool_decide (mru = []) then [w] else chain_walk w
  | None => []
  end.

(** One round of the loop. *)
Definition visit cfg d (acc : list wid * list wid) w : list wid * list wid :=
  append_client W (clientToAddToList W fuel cfg acc.1 (Some w) d ≫= lock W) acc.

Lemma next_visited w i :
  NoDup mru -> (forall w, w ∈ mru -> alive W w = true) -> reverse mru !! i = Some w ->
  nextClientFocusChain W (Some w) = cyclic_next (reverse mru) i.
Proof.
  intros Hnd Hal Hi. rewrite reverse_lookup_Some in Hi. destruct Hi as [Hi Hlt].
  unfold nextClientFocusChain. cbn [mbind option_bind].
  unfold FocusChain.nextMostRecentlyUsed. rewrite (index_of_lookup _ _ _ Hnd Hi).
  unfold cyclic_next. rewrite length_reverse.
  destruct (length mru - S i)%nat as [|j] eqn:Hj.
  - rewrite decide_False by lia. rewrite head_reverse.
    destruct (last mru) as [x|] eqn:Hx; [|done]. cbn. unfold lock. rewrite Hal; [done|].
    rewrite last_lookup in Hx. by eapply list_elem_of_lookup_2.
  - rewrite decide_True, reverse_lookup by lia. replace (length mru - S (S i))%nat with j by lia.
    destruct (mru !! j) as [x|] eqn:Hx; [|done]. cbn. unfold lock. rewrite Hal; [done|].
    by eapply list_elem_of_lookup_2.
Qed.

(** The loop goes round a list without repetitions. *)
Lemma focus_chain_loop_visits cfg d (l : list wid) n i acc :
  NoDup l -> (forall i w, l !! i = Some w -> nextClientFocusChain W (Some w) = cyclic_next l i) ->
  (i < length l)%nat -> (length l - i <= n)%nat ->
  focus_chain_loop W fuel n cfg d (head l) (l !! i) acc = Done (foldl (visit cfg d) acc (drop i l)).
Proof.
  intros Hnd Hnext. revert i acc. induction n as [|n IH]; intros i acc Hi Hn; [lia|].
  destruct (lookup_lt_is_Some_2 l i) as [w Hw]; [lia|]. rewrite Hw, (drop_S _ _ _ Hw).
  cbn [focus_chain_loop foldl]. rewrite (Hnext _ _ Hw). unfold cyclic_next. case_decide as Hs.
  - destruct (lookup_lt_is_Some_2 l (S i)) as [x Hx]; [lia|].
    rewrite (bool_decide_eq_true_2 (l !! S i <> None)) by (by rewrite Hx).
    rewrite bool_decide_eq_false_2.
    + cbn [negb andb]. rewrite <- IH by lia. done.
    + rewrite head_lookup. intros Heq. rewrite Hx in Heq. symmetry in Heq.
      pose proof (NoDup_lookup _ _ _ _ Hnd Hx Heq). done.
  - rewrite (bool_decide_eq_true_2 (head l = head l)), andb_false_r, drop_ge by (done || lia). done.
Qed.

Lemma chain_walk_visited w i x :
  NoDup mru -> (forall w, w ∈ mru -> alive W w = true) -> w ∈ mru -> chain_walk w !! i = Some x ->
  nextClientFocusChain W (Some x) = cyclic_next (chain_walk w) i.
Proof.
  intros Hnd Hal [k Hk]%index_of_is_Some Hi. unfold chain_walk in *. rewrite Hk in *.
  apply index_of_Some in Hk as [Hk _]. apply lookup_lt_Some in Hk.
  pose proof (lookup_lt_Some _ _ _ Hi) as Hlt. rewrite length_rotate, length_reverse in Hlt.
  rewrite cyclic_next_rotate by (rewrite length_reverse; lia). apply next_visited; [done..|].
  rewrite <- lookup_rotate by (rewrite length_reverse; lia). done.
Qed.

Lemma chain_walk_start w : w ∈ mru -> head (chain_walk w) = Some w.
Proof.
  intros [k Hk]%index_of_is_Some. unfold chain_walk. rewrite Hk. apply index_of_Some in Hk as [Hk _].
  apply head_rotate. pose proof (lookup_lt_Some _ _ _ Hk). rewrite reverse_lookup by lia. rewrite <- Hk. f_equal. lia.
Qed.

Lemma chain_walk_Permutation w : w ∈ mru -> chain_walk w ≡ₚ mru.
Proof.
  intros [k Hk]%index_of_is_Some. unfold chain_walk. rewrite Hk. by rewrite rotate_Permutation, reverse_Permutation.
Qed.

Lemma start_in_chain start w :
  (forall w, w ∈ mru -> alive W w = true) -> mru <> [] -> focus_chain_start W start = Some w -> w ∈ mru.
Proof.
  unfold focus_chain_start, isInFocusChain, FocusChain.contains, FocusChain.firstMostRecentlyUsed. intros Hal Hne.
  destruct mru as [|x l] eqn:Hm; [done|]. cbn. unfold lock. rewrite Hal by (by left).
  case_match eqn:Hc; intros [= ->]; [|by left]. by apply contains_true in Hc.
Qed.

(** With enough fuel the loop visits the windows of the walk, each once. *)
Lemma gather_walks cfg d start :
  clientSwitchingMode cfg = FocusChainSwitching -> NoDup mru -> (forall w, w ∈ mru -> alive W w = true) ->
  (length mru < fuel)%nat ->
  gather W fuel cfg d start = Done (foldl (visit cfg d) ([], []) (focus_walk start)).
Proof.
  intros Hmode Hnd Hal Hfuel. unfold gather, focus_walk. rewrite Hmode, Z.eqb_refl.
  destruct fuel as [|n] eqn:Hn; [lia|]. rewrite <- Hn.
  destruct (focus_chain_start W start) as [w|] eqn:Hs; [|by rewrite Hn].
  destruct (decide (mru = [])) as [Hm|Hm].
  - rewrite bool_decide_eq_true_2 by done. rewrite Hn at 2. cbn [focus_chain_loop].
    unfold nextClientFocusChain. cbn [mbind option_bind].
    unfold FocusChain.nextMostRecentlyUsed. rewrite Hm. cbn. reflexivity.
  - rewrite bool_decide_eq_false_2 by done. apply start_in_chain in Hs; [|done..].
    pose proof (chain_walk_Permutation w Hs) as Hp.
    assert (length (chain_walk w) = length mru) as Hl by (by rewrite Hp).
    assert (0 < length mru)%nat by (destruct mru; [done|cbn; lia]).
    pose proof (focus_chain_loop_visits cfg d (chain_walk w) fuel 0 ([], [])) as Hloop.
    rewrite <- head_lookup, (chain_walk_start w Hs) in Hloop. apply Hloop; [by rewrite Hp| |lia..].
    intros i x. by apply chain_walk_visited.
Qed.

Lemma no_modal_dialogs n w :
  (forall w, modal (heap W w) = false) -> Activation.findModal n (heap W) w = None.
Proof.
  intros Hm. unfold Activation.findModal.
  assert (forall n w, Activation.find_modal_from n (heap W) w = None) as Hf.
  { clear n w. induction n as [|n IH]; intros w; [done|]. cbn. rewrite Hm.
    induction (children (heap W w)) as [|c l IHl]; [done|]. cbn. by rewrite IH. }
  induction (children (heap W w)) as [|c l IHl]; [done|]. cbn. by rewrite Hf.
Qed.

Definition is_alive w : bool := alive W w.

(** The windows that the list may hold, whatever it holds already. *)
Definition candidate cfg d w : bool := addClient W cfg [] w d.

Lemma visit_candidates cfg d (l : list wid) acc :
  (forall w, modal (heap W w) = false) -> clientApplicationsMode cfg <> OneWindowPerApplication ->
  (forall w, w ∈ l -> alive W w = true) ->
  foldl (visit cfg d) acc l =
    (acc.1 ++ filter (fun w => candidate cfg d w = true) l,
     acc.2 ++ filter (fun w => first_in_tabbox W w = true) (filter (fun w => candidate cfg d w = true) l)).
Proof.
  intros Hm Happ. revert acc. induction l as [|w l IH]; intros acc Hal.
  { cbn. rewrite !app_nil_r. by destruct acc. }
  cbn [foldl]. rewrite IH by (intros; apply Hal; by right). unfold visit, clientToAddToList.
  assert (addClient W cfg acc.1 w d = candidate cfg d w) as ->.
  { unfold candidate, addClient, checkApplications. by destruct (Z.eqb_spec (clientApplicationsMode cfg) OneWindowPerApplication). }
  rewrite no_modal_dialogs by done. destruct (candidate cfg d w) eqn:Hc.
  - rewrite (filter_cons_True (fun w => candidate cfg d w = true)) by done.
    cbn [mbind option_bind]. unfold lock. rewrite Hal by (by left). cbn [append_client fst snd].
    rewrite <- app_assoc. f_equal.
    destruct (first_in_tabbox W w) eqn:Hf.
    + rewrite filter_cons_True by done. by rewrite <- app_assoc.
    + rewrite filter_cons_False by congruence. done.
  - rewrite (filter_cons_False (fun w => candidate cfg d w = true)) by congruence. done.
Qed.

Lemma place_sticky_last (l s : list wid) :
  NoDup s -> (forall w, w ∈ s -> alive W w = true) ->
  place_sticky W l s = filter (fun w => w ∉ s) l ++ s.
Proof.
  intros Hs Hal. unfold place_sticky. revert l Hs Hal. induction s as [|w s IH]; intros l Hs Hal.
  { cbn. rewrite app_nil_r, filter_all_in; [done|]. intros ? ?. apply not_elem_of_nil. }
  apply NoDup_cons in Hs as [Hw Hs]. cbn [foldl]. unfold lock at 2. rewrite Hal by (by left).
  rewrite IH by (first [done|intros; apply Hal; by right]). rewrite filter_app, filter_cons_True, <- app_assoc by done.
  cbn. f_equal. unfold remove_all. rewrite list_filter_filter. apply list_filter_iff. intros x.
  rewrite not_elem_of_cons. naive_solver.
Qed.

Lemma filter_not_filter {A} (P : A -> Prop) `{!forall x, Decision (P x)} `{!EqDecision A} (l : list A) :
  filter (fun x => x ∉ filter P l) l = filter (fun x => ~ P x) l.
Proof. apply filter_iff_in. intros x Hx. rewrite list_elem_of_filter. naive_solver. Qed.

(** What the list of windows is meant to be. *)
Definition client_list cfg d (start : option wid) : list wid :=
  let cand := filter (fun w => candidate cfg d w = true) (focus_walk start) in
  append_desktop W cfg (filter (fun w => first_in_tabbox W w <> true) cand ++
                        filter (fun w => first_in_tabbox W w = true) cand).

Lemma focus_walk_alive start w :
  (forall w, w ∈ mru -> alive W w = true) -> (forall w, start = Some w -> alive W w = true) ->
  w ∈ focus_walk start -> alive W w = true.
Proof.
  intros Hal Hst. unfold focus_walk. destruct (focus_chain_start W start) as [x|] eqn:Hs; [|by rewrite elem_of_nil].
  case_bool_decide as Hm.
  - rewrite list_elem_of_singleton. intros ->. revert Hs.
    unfold focus_chain_start, FocusChain.firstMostRecentlyUsed. rewrite Hm. cbn. case_match; auto.
  - rewrite chain_walk_Permutation by (by eapply start_in_chain). apply Hal.
Qed.

Lemma focus_walk_NoDup start :
  (forall w, w ∈ mru -> alive W w = true) -> NoDup mru -> NoDup (focus_walk start).
Proof.
  intros Hal Hnd. unfold focus_walk. destruct (focus_chain_start W start) as [x|] eqn:Hs; [|constructor].
  case_bool_decide as Hm; [apply NoDup_singleton|].
  by rewrite chain_walk_Permutation by (by eapply start_in_chain).
Qed.

(** The active window, while it exists. *)
Lemma list_start_alive part l w : list_start W part l = Some w -> alive W w = true.
Proof.
  unfold list_start. assert (forall o, o ≫= lock W = Some w -> alive W w = true) as H.
  { intros [x|]; [|done]. cbn. unfold lock. case_match eqn:Hx; [|done]. by intros [= ->]. }
  destruct part; [|apply H]. destruct l as [|x l]; [apply H|]. unfold lock at 1.
  destruct (alive W x) eqn:Hx; [intros [= ->]; done|apply H].
Qed.

Lemma createClientList_lists cfg d part l :
  clientSwitchingMode cfg = FocusChainSwitching -> clientApplicationsMode cfg <> OneWindowPerApplication ->
  (forall w, modal (heap W w) = false) -> NoDup mru -> (forall w, w ∈ mru -> alive W w = true) ->
  (length mru < fuel)%nat ->
  createClientList W fuel cfg d part l = Done (client_list cfg d (list_start W part l)).
Proof.
  intros Hmode Happ Hm Hnd Hal Hfuel. unfold createClientList.
  pose proof (focus_walk_alive (list_start W part l)) as Hw.
  pose proof (focus_walk_NoDup (list_start W part l) Hal Hnd) as Hwnd.
  rewrite gather_walks by done. cbn [mbind outcome_bind].
  rewrite visit_candidates; [|done..|intros w; apply Hw; [done|apply list_start_alive]].
  cbn [fst snd app]. unfold client_list. do 2 f_equal. rewrite place_sticky_last.
  - by rewrite filter_not_filter.
  - by apply NoDup_filter, NoDup_filter.
  - intros w [_ [_ Hin]%list_elem_of_filter]%list_elem_of_filter. eapply Hw; [done|apply list_start_alive|done].
Qed.

(** C5: without modal dialogs, and unless one window stands for each application, the list
    of windows under focus chain switching is made from the whole focus chain, once
    round from the active window on in the order of use: the windows that pass the
    checks of the configuration, those that ask to be first moved to the end, and the
    desktop if it is asked for or nothing else is there. *)
Theorem client_list_most_recent_first cfg d l w0 :
  clientSwitchingMode cfg = FocusChainSwitching -> clientApplicationsMode cfg <> OneWindowPerApplication ->
  (forall w, modal (heap W w) = false) -> NoDup mru -> (forall w, w ∈ mru -> alive W w = true) ->
  (length mru < fuel)%nat -> activeClient W = Some w0 -> w0 ∈ mru ->
  exists walk, walk ≡ₚ mru /\ head walk = Some w0 /\
    (forall i w, walk !! i = Some w -> FocusChain.nextMostRecentlyUsed (focus W) w = cyclic_next walk i) /\
    let cand := filter (fun w => addClient W cfg [] w d = true) walk in
    createClientList W fuel cfg d false l =
      Done (append_desktop W cfg (filter (fun w => first_in_tabbox W w <> true) cand ++
                                  filter (fun w => first_in_tabbox W w = true) cand)).
Proof.
  intros Hmode Happ Hm Hnd Hal Hfuel Hact Hin. exists (chain_walk w0).
  split; [by apply chain_walk_Permutation|]. split; [by apply chain_walk_start|]. split.
  - intros i w Hi. rewrite <- (chain_walk_visited w0 i w) by done.
    unfold nextClientFocusChain. cbn [mbind option_bind].
    destruct (FocusChain.nextMostRecentlyUsed (focus W) w) as [x|] eqn:Hx; [|done].
    cbn. unfold lock. rewrite Hal; [done|]. revert Hx. unfold FocusChain.nextMostRecentlyUsed.
    repeat case_match; rewrite ?last_lookup, ?head_lookup; apply list_elem_of_lookup_2.
  - cbv zeta. rewrite createClientList_lists by done. unfold client_list.
    assert (focus_walk (list_start W false l) = chain_walk w0) as ->; [|done].
    unfold focus_walk, list_start, focus_chain_start.
    rewrite Hact. cbn [mbind option_bind]. unfold lock. rewrite Hal by done.
    assert (isInFocusChain W (Some w0) = true) as ->.
    { unfold isInFocusChain, FocusChain.contains. by apply contains_true. }
    rewrite bool_decide_eq_false_2; [done|]. intros Hnil. rewrite Hnil in Hin. by apply elem_of_nil in Hin.
Qed.

(** Whatever the modal dialogs and applications are, the list is made. *)
Lemma createClientList_ends cfg d part l :
  clientSwitchingMode cfg = FocusChainSwitching -> NoDup mru -> (forall w, w ∈ mru -> alive W w = true) ->
  (length mru < fuel)%nat -> exists l', createClientList W fuel cfg d part l = Done l'.
Proof.
  intros Hmode Hnd Hal Hfuel. unfold createClientList. rewrite gather_walks by done.
  cbn [mbind outcome_bind]. destruct (foldl _ _ _). eauto.
Qed.
End Lists.

(** ** The list of desktops *)

Section Desktops.
Context (W : World) (fuel : nat) (cfg : TabBoxConfig).

Abbreviation chain := (DesktopChain.current_chain (chains W)) (only parsing).
Abbreviation cur := (currentDesktop W) (only parsing).

(** The lists of the desktops' windows are made. *)
Definition lists_made : Prop := forall d, exists l, createClientList W fuel cfg d false [] = Done l.

Lemma lists_made_focus_chain :
  clientSwitchingMode cfg = FocusChainSwitching -> NoDup (FocusChain.m_mostRecentlyUsed (focus W)) ->
  (forall w, w ∈ FocusChain.m_mostRecentlyUsed (focus W) -> alive W w = true) ->
  (length (FocusChain.m_mostRecentlyUsed (focus W)) < fuel)%nat -> lists_made.
Proof. intros ? ? ? ? d. by apply createClientList_ends. Qed.

Lemma mru_desktops_S n d m : lists_made ->
  exists m', m_desktopList m' = m_desktopList m ++ [d] /\
    mru_desktops W fuel (S n) cfg d m =
      if nextDesktopFocusChain W d =? cur then Done m' else mru_desktops W fuel n cfg (nextDesktopFocusChain W d) m'.
Proof.
  intros Hl. destruct (Hl d) as [l Hd]. cbn [mru_desktops]. unfold append_desktop_entry. rewrite Hd.
  cbn [mbind outcome_bind]. by eexists (mkDesktopModel _ _).
Qed.

(** The loop goes round a chain without repetitions. *)
Lemma mru_desktops_visit n i d m :
  lists_made -> NoDup chain -> head chain = Some cur -> chain !! i = Some d -> (length chain - i <= n)%nat ->
  exists m', mru_desktops W fuel n cfg d m = Done m' /\ m_desktopList m' = m_desktopList m ++ drop i chain.
Proof.
  intros Hl Hnd Hh. revert i d m. induction n as [|n IH]; intros i d m Hi Hn.
  { apply lookup_lt_Some in Hi. lia. }
  destruct (mru_desktops_S n d m Hl) as (m1 & Hm1 & ->). rewrite (drop_S _ _ _ Hi).
  pose proof (next_cyclic _ _ _ Hnd Hi) as Hnext. unfold cyclic_next in Hnext.
  unfold nextDesktopFocusChain, DesktopChain.manager_next. case_decide as Hlt.
  - assert (DesktopChain.next d chain <> cur) as Hne%Z.eqb_neq.
    { intros Heq. rewrite Heq in Hnext. rewrite head_lookup in Hh. symmetry in Hnext.
      pose proof (NoDup_lookup _ _ _ _ Hnd Hh Hnext). done. }
    rewrite Hne. destruct (IH (S i) (DesktopChain.next d chain) m1) as (m' & Hm' & Hd); [done|lia|].
    exists m'. split; [done|]. by rewrite Hd, Hm1, <- app_assoc.
  - rewrite Hh in Hnext. injection Hnext as ->. rewrite Z.eqb_refl. exists m1. split; [done|].
    by rewrite Hm1, drop_ge by lia.
Qed.

Lemma createDesktopList_ends n :
  lists_made -> desktopSwitchingMode cfg = MostRecentlyUsedDesktopSwitching ->
  NoDup chain -> head chain = Some cur -> (length chain <= n)%nat ->
  exists m, createDesktopList W fuel n cfg = Done m /\ m_desktopList m = chain.
Proof.
  intros Hl Hmode Hnd Hh Hn. unfold createDesktopList. rewrite Hmode. rewrite head_lookup in Hh.
  destruct (mru_desktops_visit n 0 cur (mkDesktopModel [] ∅)) as (m & Hm & Hd);
    [done|done|by rewrite head_lookup|done|lia|]. eauto.
Qed.

(** The loop never comes back from a set of desktops that is closed and without the
    current one. *)
Lemma mru_desktops_hangs (S : Z -> Prop) n d m :
  lists_made -> (forall d, S d -> S (nextDesktopFocusChain W d)) -> ~ S cur -> S (nextDesktopFocusChain W d) ->
  mru_desktops W fuel n cfg d m = OutOfFuel.
Proof.
  intros Hl Hclosed Hcur. revert d m. induction n as [|n IH]; intros d m Hd; [done|].
  destruct (mru_desktops_S n d m Hl) as (m1 & _ & ->).
  destruct (Z.eqb_spec (nextDesktopFocusChain W d) cur) as [Heq|]; [by rewrite Heq in Hd|]. auto.
Qed.

(** A number that is twice in the chain, behind the current desktop, catches the loop. *)
Lemma duplicate_hangs n a b v :
  lists_made -> desktopSwitchingMode cfg = MostRecentlyUsedDesktopSwitching ->
  head chain = Some cur -> cur ∉ drop 1 chain ->
  (0 < a < b)%nat -> chain !! a = Some v -> chain !! b = Some v ->
  createDesktopList W fuel n cfg = OutOfFuel.
Proof.
  intros Hl Hmode Hh Hcur Hab Ha Hb. unfold createDesktopList. rewrite Hmode.
  pose proof (lookup_lt_Some _ _ _ Hb) as Hlen.
  assert (forall i d, index_of d chain = Some i -> (i < b)%nat ->
    exists j, (0 < j <= b)%nat /\ chain !! j = Some (nextDesktopFocusChain W d)) as Hnext.
  { intros i d Hi Hlt. exists (S i). split; [lia|]. unfold nextDesktopFocusChain, DesktopChain.manager_next, DesktopChain.next.
    rewrite Hi, decide_True by lia. destruct (lookup_lt_is_Some_2 chain (S i)) as [e He]; [lia|]. by rewrite He. }
  apply (mru_desktops_hangs (fun d => exists j, (0 < j <= b)%nat /\ chain !! j = Some d)); [done| | |].
  - intros d (j & Hj & Hd). destruct (index_of_is_Some d chain) as [i Hi]; [by eapply list_elem_of_lookup_2|].
    apply (Hnext i); [done|]. apply index_of_Some in Hi as [Hi Hfirst].
    assert (forall k, chain !! k = Some d -> (i <= k)%nat) as Hmin.
    { intros k Hk. destruct (Nat.le_gt_cases i k); [done|]. destruct Hfirst.
      apply list_elem_of_lookup. exists k. by rewrite lookup_take_lt. }
    pose proof (Hmin _ Hd). destruct (decide (i = b)) as [->|]; [|lia].
    rewrite Hb in Hi. injection Hi as ->. pose proof (Hmin _ Ha). lia.
  - intros (j & Hj & Hd). destruct Hcur. apply list_elem_of_lookup. exists (j - 1)%nat.
    rewrite lookup_drop. by replace (1 + (j - 1))%nat with j by lia.
  - apply (Hnext O); [|lia]. rewrite head_lookup in Hh. apply index_of_Some. split; [done|]. apply not_elem_of_nil.
Qed.

(** *** Removing the last desktop *)

Section Removal.
Context (n : nat) (c : list Z).
Context (Hc : is_chain (S n) c) (Hhead : head c = Some cur) (Hcur : cur < Z.of_nat n).
Context (Hafter : chain = DesktopChain.resize (S n) n c).

Lemma removal_split : exists c0 x, c = c0 ++ [x] /\ length c0 = n /\
  chain = (fun d => Z.min d (Z.of_nat n)) <$> c0 /\ head c0 = Some cur.
Proof.
  pose proof (is_chain_length _ _ Hc) as Hl. destruct c as [|y l] using rev_ind; [done|].
  rewrite length_app in Hl. cbn in Hl. exists l, y. assert (length l = n) as Hn by lia. split_and!; [done..| |].
  - rewrite Hafter, resize_shrink by (rewrite length_app; cbn; lia).
    rewrite take_app_le, take_ge by lia. done.
  - destruct l; [|done]. cbn in *. injection Hhead as ->.
    pose proof (elem_of_chain _ _ cur Hc) as [Hin _]. specialize (Hin ltac:(by left)). lia.
Qed.

Lemma removal_keeps_chain : last c = Some (Z.of_nat n) \/ last c = Some (Z.of_nat n + 1) -> NoDup chain.
Proof.
  destruct removal_split as (c0 & x & -> & Hl & -> & _). rewrite last_snoc. intros Hx.
  pose proof (is_chain_NoDup _ _ Hc) as Hnd. apply NoDup_app in Hnd as (Hnd & Hdis & _).
  apply NoDup_fmap_2_strong; [|done]. intros y z Hy Hz Heq.
  assert (forall d, d ∈ c0 -> 1 <= d <= Z.of_nat n + 1 /\ d <> x) as Hr.
  { intros d Hd. split; [|intros ->; apply (Hdis x Hd); by left].
    assert (d ∈ c0 ++ [x]) as Hin by (apply elem_of_app; by left). apply (elem_of_chain _ _ _ Hc) in Hin. lia. }
  pose proof (Hr y Hy). pose proof (Hr z Hz). destruct Hx as [[= ->]|[= ->]]; lia.
Qed.

Lemma removal_hangs k :
  lists_made -> desktopSwitchingMode cfg = MostRecentlyUsedDesktopSwitching ->
  last c <> Some (Z.of_nat n) -> last c <> Some (Z.of_nat n + 1) ->
  createDesktopList W fuel k cfg = OutOfFuel.
Proof.
  intros Hlists Hmode. destruct removal_split as (c0 & x & Heq & Hl & Hch & Hh). subst c. rewrite last_snoc.
  intros Hx1 Hx2. assert (forall d, 1 <= d <= Z.of_nat n + 1 -> d <> x -> exists i, c0 !! i = Some d) as Hin.
  { intros d Hd Hne. apply list_elem_of_lookup.
    assert (d ∈ c0 ++ [x]) as [?|Hd']%elem_of_app by (apply (elem_of_chain _ _ _ Hc); lia); [done|].
    by apply list_elem_of_singleton in Hd'. }
  pose proof (is_chain_NoDup _ _ Hc) as Hnd. apply NoDup_app in Hnd as (Hnd & _ & _).
  rewrite head_lookup in Hh. pose proof (list_elem_of_lookup_2 _ _ _ Hh) as Hcin.
  assert (1 <= cur <= Z.of_nat (S n)) by (apply (elem_of_chain _ _ _ Hc), elem_of_app; by left).
  destruct (Hin (Z.of_nat n)) as [p Hp]; [lia|congruence|].
  destruct (Hin (Z.of_nat n + 1)) as [q Hq]; [lia|congruence|].
  assert (p <> 0)%nat by (intros ->; rewrite Hh in Hp; injection Hp; lia).
  assert (q <> 0)%nat by (intros ->; rewrite Hh in Hq; injection Hq; lia).
  assert (p <> q) by (intros ->; rewrite Hp in Hq; injection Hq; lia).
  apply (duplicate_hangs k (p `min` q) (p `max` q) (Z.of_nat n)); [done..| | |lia| |].
  - rewrite Hch, head_lookup, list_lookup_fmap, Hh. cbn. f_equal. lia.
  - rewrite Hch. intros [i Hi]%list_elem_of_lookup. rewrite lookup_drop, list_lookup_fmap in Hi.
    destruct (c0 !! (1 + i)%nat) as [y|] eqn:Hy; [|done]. injection Hi as Hi.
    assert (y = cur) as -> by lia. pose proof (NoDup_lookup _ _ _ _ Hnd Hh Hy). lia.
  - rewrite Hch, list_lookup_fmap. destruct (Nat.min_dec p q) as [-> | ->]; [rewrite Hp|rewrite Hq]; cbn; f_equal; lia.
  - rewrite Hch, list_lookup_fmap. destruct (Nat.max_dec p q) as [-> | ->]; [rewrite Hp|rewrite Hq]; cbn; f_equal; lia.
Qed.
End Removal.

(** C15: after the last of the desktops is removed while the current one, first in the
    chain, keeps its number, making the list of the most recently used desktops never
    ends, unless the removed desktop or the one before it was the least recently used
    one. In that case the list is made and is the chain. *)
Theorem desktops_after_removal n c :
  lists_made -> desktopSwitchingMode cfg = MostRecentlyUsedDesktopSwitching ->
  is_chain (S n) c -> head c = Some cur -> cur < Z.of_nat n ->
  chain = DesktopChain.resize (S n) n c ->
  ((forall k, createDesktopList W fuel k cfg = OutOfFuel) <->
   last c <> Some (Z.of_nat n) /\ last c <> Some (Z.of_nat n + 1)) /\
  (last c = Some (Z.of_nat n) \/ last c = Some (Z.of_nat n + 1) ->
   exists m, createDesktopList W fuel n cfg = Done m /\ m_desktopList m = chain).
Proof.
  intros Hl Hmode Hc Hh Hcur Hafter.
  assert (last c = Some (Z.of_nat n) \/ last c = Some (Z.of_nat n + 1) ->
    exists m, createDesktopList W fuel n cfg = Done m /\ m_desktopList m = chain) as Hends.
  { intros Hx. pose proof (removal_keeps_chain n c Hc Hh Hcur Hafter Hx) as Hnd.
    destruct (removal_split n c Hc Hh Hcur Hafter) as (c0 & x & _ & Hlen & Hch & Hh0).
    apply createDesktopList_ends; [done..| |].
    - rewrite Hch, head_lookup, list_lookup_fmap, <- head_lookup, Hh0. cbn. f_equal. lia.
    - rewrite Hch, length_fmap. lia. }
  split; [|done]. split.
  - intros Hall. split; intros Hx; destruct Hends as (m & Hm & _); [by auto| |by auto|]; by rewrite Hall in Hm.
  - intros [H1 H2] k. by apply (removal_hangs n c).
Qed.
End Desktops.

(** ** Walking *)

Section Walking.
Context (W : World).
Implicit Types s : TabBox.

(** The state without what highlighting changes. *)
Definition erase s : TabBox :=
  s <| lastRaisedClient := None |> <| lastRaisedClientSucc := None |> <| requests := [] |>.

Lemma erase_request r s : erase (request r s) = erase s.
Proof. done. Qed.

Lemma erase_elevate b c s : erase (elevate_last b c s) = erase s.
Proof. by destruct c. Qed.

Lemma erase_restack s : erase (restack_last s) = erase s.
Proof. unfold restack_last. by repeat case_match. Qed.

Lemma erase_raise c s : erase (raise_current W c s) = erase s.
Proof. by destruct c. Qed.

Lemma erase_last_raised c s : erase (s <| lastRaisedClient := c |>) = erase s.
Proof. done. Qed.

Lemma erase_highlight s : erase (updateHighlightWindows W s) = erase s.
Proof.
  unfold updateHighlightWindows. case_match; [done|]. rewrite erase_request. case_match.
  - by rewrite erase_elevate, erase_last_raised, erase_elevate.
  - by rewrite erase_raise, erase_last_raised, erase_restack.
Qed.

Lemma erase_end_highlight abort s : erase (endHighlightWindows W abort s) = erase s.
Proof.
  unfold endHighlightWindows. transitivity (erase (elevate_last false (client W (index s) s) s)); [|apply erase_elevate].
  destruct abort; [|done]. by rewrite <- (erase_restack (elevate_last _ _ _)).
Qed.

Lemma set_index_same i s : index s = i -> s <| index := i |> = s.
Proof. intros <-. by destruct s. Qed.

Lemma erase_set_index i notify s :
  isValid i = true -> erase (setCurrentIndex W i notify s) = erase (s <| index := i |>).
Proof.
  intros Hi. unfold setCurrentIndex, handler_setCurrentIndex. rewrite Hi. cbn [negb].
  assert (erase (if bool_decide (index s = i) then s
    else
      if bool_decide (tabBoxMode (config (s <| index := i |>)) = ClientTabBox) &&
         highlightWindows (config (s <| index := i |>))
      then updateHighlightWindows W (s <| index := i |>) else s <| index := i |>) = erase (s <| index := i |>)) as He.
  { case_bool_decide as Heq; [by rewrite set_index_same|]. case_match; [apply erase_highlight|done]. }
  destruct notify; [rewrite erase_request|]; apply He.
Qed.

(** The row [r] of the current model is selected. *)
Definition kind s : ModelKind :=
  match tabBoxMode (config s) with ClientTabBox => InClientModel | DesktopTabBox => InDesktopModel end.
Definition selected s (r : Z) : Prop := index s = mkIndex r 0 (Some (kind s)) /\ 0 <= r < rowCount s.

Lemma erase_fields s s' : erase s = erase s' ->
  index s = index s' /\ config s = config s' /\ m_clientModel s = m_clientModel s' /\ m_desktopModel s = m_desktopModel s'.
Proof.
  intros He. split_and!;
    [apply (f_equal index) in He|apply (f_equal config) in He|apply (f_equal m_clientModel) in He|apply (f_equal m_desktopModel) in He];
    done.
Qed.

Lemma model_index_in s r : 0 <= r < rowCount s -> model_index s r 0 = mkIndex r 0 (Some (kind s)).
Proof.
  unfold rowCount, model_index, kind, client_index, desktop_index. intros Hr.
  destruct (Z.ltb_spec r 0); [lia|]. cbn.
  destruct (tabBoxMode (config s)).
  - destruct (Z.leb_spec (Z.of_nat (length (m_clientModel s))) r); [lia|done].
  - destruct (Z.ltb_spec (Z.of_nat (length (m_desktopList (m_desktopModel s)))) r); [lia|].
    rewrite bool_decide_eq_false_2; [done|]. intros Hn. rewrite Hn in Hr. cbn in Hr. lia.
Qed.

Lemma isValid_row r k : 0 <= r -> isValid (mkIndex r 0 (Some k)) = true.
Proof. intros. unfold isValid. cbn. by rewrite (proj2 (Z.leb_le 0 r)). Qed.

Lemma next_index_row s r :
  selected s r -> next_index s = mkIndex ((r + 1) mod rowCount s) 0 (Some (kind s)).
Proof.
  intros [Hi Hr]. unfold next_index. rewrite Hi. cbn [row column].
  change (0 + 1 =? columnCount) with true. cbv iota zeta beta.
  assert ((if r + 1 =? rowCount s then 0 else r + 1) = (r + 1) mod rowCount s) as ->.
  { destruct (Z.eqb_spec (r + 1) (rowCount s)) as [->|]; [by rewrite Z.mod_same by lia|by rewrite Z.mod_small by lia]. }
  pose proof (Z.mod_pos_bound (r + 1) (rowCount s)). rewrite model_index_in, isValid_row by lia. done.
Qed.

Lemma prev_index_row s r :
  selected s r -> prev_index s = mkIndex ((r - 1) mod rowCount s) 0 (Some (kind s)).
Proof.
  intros [Hi Hr]. unfold prev_index. rewrite Hi. cbn [row column].
  change (0 - 1 <? 0) with true. change (columnCount - 1) with 0. cbv iota zeta beta.
  assert ((if r - 1 <? 0 then rowCount s - 1 else r - 1) = (r - 1) mod rowCount s) as ->.
  { destruct (Z.ltb_spec (r - 1) 0); [|by rewrite Z.mod_small by lia].
    rewrite <- (Z.mod_add _ 1), Z.mod_small by lia. lia. }
  pose proof (Z.mod_pos_bound (r - 1) (rowCount s)). rewrite model_index_in, isValid_row by lia. done.
Qed.

Lemma handler_nextPrev_row forward s r :
  selected s r ->
  handler_nextPrev forward s = mkIndex ((if forward then r + 1 else r - 1) mod rowCount s) 0 (Some (kind s)).
Proof.
  intros Hs. unfold handler_nextPrev.
  assert ((if forward then next_index s else prev_index s) =
    mkIndex ((if forward then r + 1 else r - 1) mod rowCount s) 0 (Some (kind s))) as ->.
  { destruct forward; [by apply next_index_row|by apply prev_index_row]. }
  destruct Hs as [_ Hr]. rewrite isValid_row; [done|]. apply Z.mod_pos_bound. lia.
Qed.

Lemma nextPrev_selects forward s r :
  selected s r ->
  selected (nextPrev W forward s) ((if forward then r + 1 else r - 1) mod rowCount s) /\
  rowCount (nextPrev W forward s) = rowCount s.
Proof.
  intros Hs. pose proof (handler_nextPrev_row forward s r Hs) as Hn. destruct Hs as [Hi Hr].
  unfold nextPrev. rewrite Hn. set (r' := _ mod _).
  assert (0 <= r' < rowCount s) by (apply Z.mod_pos_bound; lia).
  pose proof (erase_set_index (mkIndex r' 0 (Some (kind s))) false s ltac:(apply isValid_row; lia)) as He.
  rewrite <- (erase_request tabBoxUpdated) in He. apply erase_fields in He as (He1 & He2 & He3 & He4).
  set (s1 := request tabBoxUpdated _) in *. clearbody s1. unfold selected, kind, rowCount in *.
  rewrite He1, He2, He3, He4. done.
Qed.

(** C40: walking through the windows or the desktops is a cycle: [k] steps forward select
    the row [k] further, round the end of the list, [k] steps backward the one [k]
    before, and a step backward undoes a step forward. *)
Theorem walking_is_cyclic s r (k : nat) :
  selected s r ->
  selected (Nat.iter k (nextPrev W true) s) ((r + Z.of_nat k) mod rowCount s) /\
  selected (Nat.iter k (nextPrev W false) s) ((r - Z.of_nat k) mod rowCount s) /\
  selected (nextPrev W false (nextPrev W true s)) r.
Proof.
  intros Hs. assert (forall b, selected (Nat.iter k (nextPrev W b) s)
    ((if b then r + Z.of_nat k else r - Z.of_nat k) mod rowCount s) /\
    rowCount (Nat.iter k (nextPrev W b) s) = rowCount s) as Hk.
  { intros b. induction k as [|k' [IH IHr]].
    - split; [|done]. replace (if b then r + Z.of_nat 0 else r - Z.of_nat 0) with r by (destruct b; lia).
      destruct Hs as [Hi Hr]. by rewrite Z.mod_small.
    - cbn [Nat.iter]. destruct (nextPrev_selects b _ _ IH) as [H1 H2]. rewrite IHr in *. split; [|done].
      replace (_ mod rowCount s) with
        ((if b then (if b then r + Z.of_nat k' else r - Z.of_nat k') mod rowCount s + 1
          else (if b then r + Z.of_nat k' else r - Z.of_nat k') mod rowCount s - 1) mod rowCount s); [done|].
      destruct b; [rewrite Zplus_mod_idemp_l|rewrite Zminus_mod_idemp_l]; f_equal; lia. }
  split_and!; [apply (Hk true)|apply (Hk false)|].
  destruct (nextPrev_selects true s r Hs) as [H1 H2]. destruct (nextPrev_selects false _ _ H1) as [H3 _].
  rewrite H2, Zminus_mod_idemp_l in H3. destruct Hs as [_ Hr].
  replace (r + 1 - 1) with r in H3 by lia. by rewrite Z.mod_small in H3.
Qed.
End Walking.

(** ** Grabs and references *)

(** The part of the state that decides about grabs and references. *)
Definition grabs (s : TabBox) :=
  (m_tabBoxMode s, m_displayRefcount s, m_isShown s, m_desktopGrab s, m_tabGrab s, m_noModifierGrab s,
   m_forcedGlobalMouseGrab s, effect_refs s).

(** The mouse is grabbed with the keyboard; the tab grab walks through windows, and comes
    together with the desktop grab only when no modifier is held; the counter covers
    the references of the switcher and of the effects, and [excess] more. *)
Record ok (excess : Z) (s : TabBox) : Prop := mkOk {
  ok_forced : m_forcedGlobalMouseGrab s = isGrabbed s;
  ok_both : m_tabGrab s = true -> m_desktopGrab s = true -> m_noModifierGrab s = true;
  ok_mode : m_tabGrab s = true -> m_tabBoxMode s ∈ modes;
  ok_refs : 0 <= effect_refs s;
  ok_count : effect_refs s + Z.b2z (m_isShown s) + excess <= m_displayRefcount s;
}.

Lemma ok_frame e s s' : grabs s' = grabs s -> ok e s -> ok e s'.
Proof.
  unfold grabs. intros [= H1 H2 H3 H4 H5 H6 H7 H8] [].
  split; unfold isGrabbed in *; rewrite ?H1, ?H2, ?H3, ?H4, ?H5, ?H6, ?H7, ?H8; done.
Qed.

Lemma ok_initial delay : ok 0 (initial delay).
Proof. by split. Qed.

Section Frames.
Context (W : World) (fuel n : nat).
Implicit Types s : TabBox.

Lemma grabs_erase s s' : erase s = erase s' -> grabs s = grabs s'.
Proof. intros He%(f_equal grabs). done. Qed.

Lemma grabs_handler_set_index i s : grabs (handler_setCurrentIndex W i s) = grabs s.
Proof.
  unfold handler_setCurrentIndex. repeat (case_match; try done).
  transitivity (grabs (s <| index := i |>)); [|done]. apply grabs_erase, erase_highlight.
Qed.

Lemma grabs_set_index i notify s : grabs (setCurrentIndex W i notify s) = grabs s.
Proof.
  unfold setCurrentIndex. case_match; [done|]. rewrite <- (grabs_handler_set_index i s). by destruct notify.
Qed.

Lemma grabs_set_client w s : grabs (setCurrentClient W w s) = grabs s.
Proof. apply grabs_set_index. Qed.

Lemma grabs_set_desktop d s : grabs (setCurrentDesktop W d s) = grabs s.
Proof. apply grabs_set_index. Qed.

Lemma grabs_nextPrev b s : grabs (nextPrev W b s) = grabs s.
Proof. rewrite <- (grabs_set_index (handler_nextPrev b s) false s). done. Qed.

Lemma grabs_select_next b s : grabs (select_next W b s) = grabs s.
Proof. unfold select_next. case_match; [apply grabs_set_index|done]. Qed.

Lemma grabs_createModel part s s' : createModel W fuel n part s = Done s' -> grabs s' = grabs s.
Proof.
  unfold createModel. case_match.
  - destruct (createClientList _ _ _ _ _ _); cbn; [|done..]. by intros [= <-].
  - destruct (createDesktopList _ _ _ _); cbn; [|done..]. by intros [= <-].
Qed.

Lemma grabs_reset part s s' : reset W fuel n part s = Done s' -> grabs s' = grabs s.
Proof.
  unfold reset. intros Hr. case_match; (destruct (createModel _ _ _ _ s) as [s1| |] eqn:Hc; cbn in Hr; [|done..]);
    injection Hr as <-; apply grabs_createModel in Hc; rewrite <- Hc.
  - transitivity (grabs (if negb part
      then if negb (isValid (index match activeClient W with Some w => setCurrentClient W w s1 | None => s1 end))
           then setCurrentIndex W (first match activeClient W with Some w => setCurrentClient W w s1 | None => s1 end) true
                  match activeClient W with Some w => setCurrentClient W w s1 | None => s1 end
           else match activeClient W with Some w => setCurrentClient W w s1 | None => s1 end
      else if negb (isValid (index s1)) || bool_decide (client W (index s1) s1 = None)
           then setCurrentIndex W (first s1) true s1 else s1)); [done|].
    repeat case_match; rewrite ?grabs_set_index, ?grabs_set_client; done.
  - transitivity (grabs (if negb part then setCurrentDesktop W (currentDesktop W) s1 else s1)); [done|].
    case_match; [apply grabs_set_desktop|done].
Qed.

Lemma grabs_handler_show s : grabs (handler_show W s) = grabs s.
Proof. unfold handler_show, show_view. by repeat case_match. Qed.

Lemma grabs_handler_hide abort s : grabs (handler_hide W abort s) = grabs s.
Proof.
  unfold handler_hide. case_match; [|done].
  transitivity (grabs (endHighlightWindows W abort (s <| isShown := false |>))); [done|].
  transitivity (grabs (s <| isShown := false |>)); [|done]. apply grabs_erase, erase_end_highlight.
Qed.

Lemma grabs_wheel_steps k b s : grabs (wheel_steps W k b s) = grabs s.
Proof.
  revert s. induction k as [|k IH]; intros s; [done|]. cbn [wheel_steps]. rewrite IH.
  case_match; [|done]. by rewrite grabs_handler_set_index.
Qed.

Lemma grabs_wheel_event dx dy s : grabs (wheel_event W dx dy s) = grabs s.
Proof.
  unfold wheel_event. rewrite grabs_wheel_steps. etransitivity; [apply grabs_wheel_steps|]. done.
Qed.

Lemma grabs_reserve old new s : grabs (reserve_borders old new s) = grabs s.
Proof.
  unfold reserve_borders. assert (forall (f : Z -> Request) l s, grabs (foldl (fun s b => request (f b) s) s l) = grabs s) as Hf.
  { intros f l. induction l as [|b l IH]; intros s1; [done|]. cbn. by rewrite IH. }
  by rewrite !Hf.
Qed.

Lemma grabs_reconfigure t a s : grabs (reconfigure t a s) = grabs s.
Proof. unfold reconfigure. by rewrite !grabs_reserve. Qed.

Lemma grabs_shortcut a q s : grabs (globalShortcutChanged a q s) = grabs s.
Proof. unfold globalShortcutChanged. by repeat case_match. Qed.
End Frames.

Section Invariant.
Context (W : World) (fuel n : nat) (e : Z) (He : 0 <= e).
Implicit Types s : TabBox.

Abbreviation fits := (ok e) (only parsing).

Lemma ok_displayed s : fits s -> 0 < e -> isDisplayed s = true.
Proof. intros [? ? ? ? Hc] ?. unfold isDisplayed. apply Z.ltb_lt. destruct (m_isShown s); cbn in Hc; lia. Qed.

Lemma ok_setMode mode s : mode ∈ modes \/ m_tabGrab s = false -> fits s -> fits (setMode mode s).
Proof. intros Hm []. split; cbn; try done. intros Ht. by destruct Hm as [|Hf]; [|rewrite Hf in Ht]. Qed.

Lemma ok_emit_added s : fits s -> fits (emit_added W s).
Proof. intros []. unfold emit_added. case_match; (split; cbn; try done; lia). Qed.

Lemma ok_show s : fits s -> fits (show W s).
Proof.
  intros Hs%ok_emit_added. unfold show. destruct (isDisplayed (emit_added W s)) eqn:Hd.
  - destruct Hs. split; cbn; try done. destruct (m_isShown _); cbn in *; lia.
  - eapply ok_frame; [apply grabs_handler_show|]. destruct Hs as [? ? ? ? Hc].
    unfold isDisplayed in Hd. apply Z.ltb_ge in Hd. split; cbn; try done.
    destruct (m_isShown _); cbn in Hc; lia.
Qed.

(** The references alone. *)
Definition counted s : Prop := 0 <= effect_refs s /\ effect_refs s + Z.b2z (m_isShown s) + e <= m_displayRefcount s.

Definition flags s :=
  (m_tabBoxMode s, m_desktopGrab s, m_tabGrab s, m_noModifierGrab s, m_forcedGlobalMouseGrab s).

Lemma hide_counted abort s : counted s -> counted (hide W abort s) /\ flags (hide W abort s) = flags s.
Proof.
  intros [Hr Hc]. unfold hide. set (s1 := emit_closed W _).
  assert (counted s1 /\ flags s1 = flags s) as [H1 H2].
  { unfold s1, emit_closed, counted, flags. cbn. destruct (m_isShown s) eqn:Hs; case_match; cbn in *; rewrite ?Hs; cbn; (split; [lia|done]). }
  pose proof (grabs_handler_hide W abort s1) as Hg.
  set (s2 := handler_hide W abort s1) in *. clearbody s2. unfold grabs in Hg. injection Hg as H3 H4 H5 H6 H7 H8 H9 H10.
  unfold counted, flags in *. rewrite H3, H4, H5, H6, H7, H8, H9, H10. done.
Qed.

Lemma ok_delayedShow s : fits s -> fits (delayedShow W s).
Proof.
  intros Hs. unfold delayedShow. repeat case_match; [done|by apply ok_show|]. by apply (ok_frame e s).
Qed.

Lemma ok_timeout s : fits s -> fits (delayed_show_timeout W s).
Proof. intros Hs. apply ok_show. by apply (ok_frame e s). Qed.

(** Closing releases every grab. *)
Lemma ok_close abort s : counted s -> (isGrabbed s = false -> m_forcedGlobalMouseGrab s = false) ->
  fits (close W abort s) /\ isGrabbed (close W abort s) = false.
Proof.
  intros Hc Hf. split; [|done]. unfold close. set (s1 := if isGrabbed s then _ else _).
  assert (counted s1 /\ m_forcedGlobalMouseGrab s1 = false) as [H1 H2].
  { unfold s1, removeTabBoxGrab. destruct (isGrabbed s); [by case_match|]. split; [done|by apply Hf]. }
  apply (hide_counted abort) in H1 as [[H3 H4] H5]. unfold flags in H5. injection H5 as H6 H7 H8 H9 H10.
  split; cbn; try done. by rewrite H10.
Qed.

Lemma ok_closes abort s : fits s -> fits (close W abort s).
Proof. intros [Hf ? ? ? ?]. apply ok_close; [done|]. by rewrite Hf. Qed.

Lemma ok_activates c s : fits s -> fits match c with
  | Some w => if is_desktop (heap W w)
      then request (setShowingDesktop (negb (showingDesktop W))) (request (activateClient w) s)
      else request (activateClient w) s
  | None => s
  end.
Proof. intros Hs. repeat case_match; [by apply (ok_frame e s)..|done]. Qed.

Lemma ok_accept b s : fits s -> fits (accept W b s).
Proof. intros Hs. unfold accept. apply (ok_activates _ (if b then _ else s)). destruct b; [by apply ok_closes|done]. Qed.

Lemma ok_walk b s : fits s -> fits (KDEWalkThroughWindows W b s).
Proof. intros Hs. apply ok_delayedShow. by eapply ok_frame; [apply grabs_nextPrev|]. Qed.

Lemma ok_reset part s s' : reset W fuel n part s = Done s' -> fits s -> fits s'.
Proof. intros Hr%grabs_reset. by apply ok_frame. Qed.

Lemma ok_startWalk desktops mode s s' b :
  (desktops = false -> mode ∈ modes) -> isGrabbed s = false ->
  startWalk W fuel desktops mode n s = Done (s', b) -> fits s -> fits s'.
Proof.
  intros Hm Hg. unfold startWalk. destruct (establishTabBoxGrab W s) as [s1|] eqn:Hest; [|by intros [= <- <-]].
  assert (s1 = s <| m_forcedGlobalMouseGrab := true |>) as ->.
  { unfold establishTabBoxGrab in Hest. by repeat (case_match; simplify_eq). }
  intros Hr [Hf Hb Hmode ? ?]. apply orb_false_iff in Hg as [Hg1 Hg2].
  destruct (reset _ _ _ _ _) as [s2| |] eqn:Hreset; [|done..]. injection Hr as <- <-.
  apply (ok_reset _ _ _ Hreset). destruct desktops; split; unfold isGrabbed; cbn; rewrite ?Hg1, ?Hg2; try done; auto.
Qed.

Lemma ok_toggleMode mode s s' : mode ∈ modes -> toggleMode W fuel mode n s = Done s' -> fits s -> fits s'.
Proof.
  intros Hm. unfold toggleMode. case_match; [by intros [= <-]|]. case_match; [intros [= <-]; apply ok_accept|].
  destruct (establishTabBoxGrab W s) as [s1|] eqn:Hest; [|by intros [= <-]].
  assert (s1 = s <| m_forcedGlobalMouseGrab := true |>) as ->.
  { unfold establishTabBoxGrab in Hest. by repeat (case_match; simplify_eq). }
  intros Hr []. destruct (reset _ _ _ _ _) as [s2| |] eqn:Hreset; [|done..]. injection Hr as <-.
  apply ok_show, (ok_reset _ _ _ Hreset). split; unfold isGrabbed; cbn; done.
Qed.

Lemma ok_one_step forward mode s s' :
  isGrabbed s = false -> KDEOneStepThroughWindows W fuel forward mode n s = Done s' -> fits s -> fits s'.
Proof.
  intros [Hg _]%orb_false_iff Hr Hs. unfold KDEOneStepThroughWindows in Hr.
  destruct (reset _ _ _ _ _) as [s1| |] eqn:Hreset; [|done..]. injection Hr as <-.
  assert (fits (nextPrev W forward s1)) as Hn.
  { eapply ok_frame; [apply grabs_nextPrev|]. eapply (ok_reset _ _ _ Hreset). apply ok_setMode; auto. }
  case_match; [by apply (ok_frame e (nextPrev W forward s1))|done].
Qed.

Lemma ok_one_step_desktops forward mode s s' :
  isGrabbed s = false -> oneStepThroughDesktops W fuel forward mode n s = Done s' -> fits s -> fits s'.
Proof.
  intros [Hg _]%orb_false_iff Hr Hs. unfold oneStepThroughDesktops in Hr.
  destruct (reset _ _ _ _ _) as [s1| |] eqn:Hreset; [|done..]. injection Hr as <-.
  assert (fits (nextPrev W forward s1)) as Hn.
  { eapply ok_frame; [apply grabs_nextPrev|]. eapply (ok_reset _ _ _ Hreset). apply ok_setMode; auto. }
  case_match; [eapply ok_frame; [apply grabs_set_desktop|]|]; done.
Qed.

Lemma grabs_CDE forward s s' : CDEWalkThroughWindows W n forward s = Done s' -> grabs s' = grabs s.
Proof.
  unfold CDEWalkThroughWindows. destruct (cde_loop _ _ _ _ _ _ _) as [nc| |]; cbn; [|done..]. intros [= <-].
  destruct nc as [w|]; [|done]. set (s1 := match cde_start W with Some _ => _ | None => _ end).
  transitivity (grabs s1); [|by unfold s1; repeat case_match].
  case_match; [done|]. case_match; [done|]. by rewrite <- (grabs_set_desktop W (desktop (env W) (heap W w)) s1).
Qed.

Lemma mode_at_modes i : mode_at i ∈ modes.
Proof. do 4 (destruct i as [|i]; [by apply (bool_decide_unpack _)|]). by apply (bool_decide_unpack _). Qed.

Lemma search_mode_modes k cuts mode key tested i j m d :
  search_mode k cuts mode key tested i j = Done (Found m d) -> m ∈ modes.
Proof.
  revert tested i j. induction k as [|k IH]; intros tested i j; [done|]. cbn [search_mode].
  repeat case_match; try apply IH; intros [= <- <-] || intros [=]; apply mode_at_modes.
Qed.

Lemma ok_steady_key key d s : fits s -> fits (steady_key W key d s).
Proof.
  intros Hs. unfold steady_key, grabbedKeyEvent.
  repeat case_match; try done; try (by apply ok_closes); try (by apply (ok_frame e s)).
  apply ok_accept. by apply (ok_frame e s).
Qed.

Lemma ok_tab_grab_key key s s' d b : tab_grab_key W n key s = Done (s', d, b) -> fits s -> fits s'.
Proof.
  unfold tab_grab_key. intros Heq Hs0. assert (fits (init_static_cuts s)) as Hs.
  { apply (ok_frame e s); [|done]. unfold init_static_cuts. by case_match. }
  set (s1 := init_static_cuts s) in *. clearbody s1. cbv zeta in Heq.
  destruct (search_mode _ _ _ _ _ _ _) as [r| |] eqn:Hr; [|done..]. cbn in Heq.
  destruct r as [m dir|]; [|by injection Heq as <- _ _]. apply search_mode_modes in Hr.
  case_match; injection Heq as <- _ _; [done|]. apply ok_walk. case_match; [done|].
  apply ok_setMode; [by left|]. by apply ok_accept.
Qed.

Lemma ok_keyPress key s s' : keyPress W n key s = Done s' -> fits s -> fits s'.
Proof.
  unfold keyPress. intros Heq Hs. case_match.
  - destruct (tab_grab_key _ _ _ _) as [[[s1 d] b]| |] eqn:Ht; [|done..]. injection Heq as <-.
    pose proof (ok_tab_grab_key _ _ _ _ _ Ht Hs). destruct b; [done|by apply ok_steady_key].
  - case_match; [|by injection Heq as <-]. unfold desktop_grab_key in Heq. injection Heq as <-.
    apply ok_steady_key. case_match; [done|by apply ok_walk].
Qed.

Lemma set_tab_grab_same b s : m_tabGrab s = b -> s <| m_tabGrab := b |> = s.
Proof. intros <-. by destruct s. Qed.

Lemma set_desktop_grab_same b s : m_desktopGrab s = b -> s <| m_desktopGrab := b |> = s.
Proof. intros <-. by destruct s. Qed.

Lemma ok_modifiersReleased s : fits s -> fits (modifiersReleased W s).
Proof.
  intros Hs. unfold modifiersReleased. destruct (m_noModifierGrab s) eqn:Hn; [done|].
  destruct (m_tabGrab s) eqn:Ht.
  - assert (m_desktopGrab s = false) as Hd.
    { destruct (m_desktopGrab s) eqn:Hd; [|done]. destruct Hs as [? Hb ? ? ?]. specialize (Hb Ht Hd). congruence. }
    rewrite Hd, set_desktop_grab_same by (unfold accept; by repeat case_match).
    assert (m_desktopGrab (accept W true s) = false) as -> by (unfold accept; by repeat case_match).
    by apply ok_accept.
  - case_match; [|done]. set (s1 := (close W false s) <| m_tabGrab := m_tabGrab s |>).
    assert (fits s1) as H1.
    { unfold s1. rewrite set_tab_grab_same by done. by apply ok_closes. }
    case_match; [|done]. apply (ok_frame e (setCurrentDesktop W (tabbox_currentDesktop s) s1)); [done|].
    eapply ok_frame; [apply grabs_set_desktop|done].
Qed.

Lemma windows_mode_modes a c : windows_mode a c ∈ modes.
Proof. destruct a, c; by apply (bool_decide_unpack _). Qed.

Lemma ok_windows forward mode s s' :
  mode ∈ modes -> navigatingThroughWindows W fuel n forward mode s = Done s' -> fits s -> fits s'.
Proof.
  intros Hm. unfold navigatingThroughWindows. destruct (negb (m_ready s) || isGrabbed s) eqn:Hg; [by intros [= <-]|].
  apply orb_false_iff in Hg as [_ Hg]. case_match; [by intros Hg2%grabs_CDE; apply ok_frame|]. case_match; [|by apply ok_one_step].
  destruct (startKDEWalkThroughWindows W fuel mode n s) as [[s1 b]| |] eqn:Hst; [|done..]. intros [= <-] Hs.
  apply ok_startWalk in Hst; [|done..]. destruct b; [by apply ok_walk|done].
Qed.

Lemma ok_desktops forward mode s s' :
  slotWalkThroughDesktops W fuel n forward mode s = Done s' -> fits s -> fits s'.
Proof.
  unfold slotWalkThroughDesktops. destruct (negb (m_ready s) || isGrabbed s) eqn:Hg; [by intros [= <-]|].
  apply orb_false_iff in Hg as [_ Hg]. case_match; [|by apply ok_one_step_desktops].
  destruct (startWalkThroughDesktops W fuel mode n s) as [[s1 b]| |] eqn:Hst; [|done..]. intros [= <-] Hs.
  apply ok_startWalk in Hst; [|done..]. destruct b; [by apply ok_walk|done].
Qed.

Lemma ok_select_next b s : fits s -> fits (select_next W b s).
Proof. intros Hs. by eapply ok_frame; [apply grabs_select_next|]. Qed.

Lemma ok_mouse type inside filtered s : fits s -> fits (handleMouseEvent W type inside filtered s).1.
Proof. intros Hs. unfold handleMouseEvent. repeat case_match; try done; by apply ok_closes. Qed.

Lemma ok_wheel dy filtered s : fits s -> fits (handleWheelEvent W dy filtered s).1.
Proof. intros Hs. unfold handleWheelEvent. repeat case_match; try done; by apply ok_select_next. Qed.

Lemma ok_x11_button press button inside intercepted s :
  fits s -> fits (x11_button_event W press button inside intercepted s).1.
Proof.
  intros Hs. unfold x11_button_event, x11_buttonPress.
  repeat case_match; try done; first [by apply ok_closes|by apply ok_select_next].
Qed.

Lemma ok_references s : fits s -> fits (refTabBox s) /\ fits (if 0 <? effect_refs s then unrefTabBox s else s).
Proof. intros []. destruct (Z.ltb_spec 0 (effect_refs s)); split; split; cbn; try done; lia. Qed.

Lemma ok_step ev s s' : step fuel n W ev s = Done s' -> fits s -> fits s'.
Proof.
  intros Hstep Hs. destruct ev; cbn [step] in Hstep;
    try (injection Hstep as <-);
    try (by eapply ok_frame; [apply grabs_reconfigure|]);
    try (by eapply ok_frame; [apply grabs_shortcut|]);
    try (by eapply ok_frame; [apply grabs_set_index|]);
    try (destruct (isGrabbed s); [first [by apply ok_mouse|by apply ok_wheel|by apply ok_x11_button]|done]).
  - apply (ok_frame e (reconfigure tabbox alternative (setConfig (m_defaultConfig s) s))); [done|].
    eapply ok_frame; [apply grabs_reconfigure|]. by apply (ok_frame e s).
  - eapply ok_windows; [apply windows_mode_modes|done..].
  - by eapply ok_desktops.
  - unfold toggle in Hstep. eapply ok_toggleMode; [|done..]. case_match; by apply (bool_decide_unpack _).
  - eapply ok_toggleMode; [apply windows_mode_modes|done..].
  - destruct (isGrabbed s); [by eapply ok_keyPress|by injection Hstep as <-].
  - case_match; [by apply ok_modifiersReleased|done].
  - case_match; [by apply ok_timeout|done].
  - eapply ok_frame; [|done]. apply grabs_erase, erase_highlight.
  - unfold replayWithChangedTabboxMode in Hstep. destruct (reset _ _ _ _ _) as [s1| |] eqn:Hr; [|done..].
    injection Hstep as <-. eapply ok_frame; [apply grabs_nextPrev|]. by eapply ok_reset.
  - eapply ok_frame; [apply grabs_wheel_event|done].
  - unfold model_activate. case_match; [done|]. apply ok_accept. by eapply ok_frame; [apply grabs_handler_set_index|].
  - by apply ok_references.
  - by apply ok_references.
  - by apply ok_closes.
  - unfold updateTabbox in Hstep. case_match; [by eapply ok_reset|by injection Hstep as <-].
  - case_match; [by eapply ok_frame; [apply grabs_nextPrev|]|done].
Qed.
End Invariant.

Lemma ok_run fuel n e l s s' : 0 <= e -> run fuel n l s = Done s' -> ok e s -> ok e s'.
Proof.
  intros He. revert s. induction l as [|[W ev] l IH]; intros s; cbn [run]; [by intros [= <-]|].
  destruct (step fuel n W ev s) as [s1| |] eqn:Hs; [|done..]. intros Hr Hok.
  apply (IH s1 Hr). by eapply ok_step.
Qed.

(** The search for the mode of a key ends when the switcher walks through windows... *)
Lemma search_mode_ends cuts mode key :
  mode ∈ modes -> exists r, search_mode 9 cuts mode key false 0 0 = Done r.
Proof.
  intros Hm. assert (mode = TabBoxWindowsMode \/ mode = TabBoxWindowsAlternativeMode \/
    mode = TabBoxCurrentAppWindowsMode \/ mode = TabBoxCurrentAppWindowsAlternativeMode) as Hmode.
  { unfold modes in Hm. rewrite !elem_of_cons, elem_of_nil in Hm. tauto. }
  destruct Hmode as [->|[->|[->| ->]]];
    cbn -[directionFor]; repeat (destruct (directionFor _ _ _); cbn -[directionFor]); eauto.
Qed.

(** ... and never in another mode: the counter of the attempts is not looked at. *)
Lemma search_mode_hangs k cuts mode key i j :
  mode ∉ modes -> search_mode k cuts mode key false i j = OutOfFuel.
Proof.
  intros Hm. revert i j. induction k as [|k IH]; intros i j; [done|]. cbn [search_mode negb andb].
  rewrite bool_decide_eq_false_2; [apply IH|]. intros <-. by pose proof (mode_at_modes i).
Qed.

(** C11: whatever happens to the switcher, in any order, the forced grab of the mouse is in
    place exactly while one of its grabs is, the references cover its own and those of
    the effects, both grabs come together only without a modifier to hold, and every key
    that is pressed is handled: the search for the mode of the key ends. *)
Theorem grabs_consistent fuel n delay l s :
  run fuel n l (initial delay) = Done s ->
  m_forcedGlobalMouseGrab s = isGrabbed s /\
  (m_tabGrab s = true -> m_desktopGrab s = true -> m_noModifierGrab s = true) /\
  0 <= effect_refs s /\ effect_refs s + Z.b2z (m_isShown s) <= m_displayRefcount s /\
  forall W key, exists s', keyPress W 9 key s = Done s'.
Proof.
  intros Hr. pose proof (ok_run fuel n 0 l _ _ ltac:(lia) Hr (ok_initial delay)) as [H1 H2 H3 H4 H5].
  split_and!; try done; [lia|]. intros W key. unfold keyPress. destruct (m_tabGrab s) eqn:Ht.
  - assert (m_tabBoxMode (init_static_cuts s) = m_tabBoxMode s) as Hm by (unfold init_static_cuts; by case_match).
    destruct (search_mode_ends (default (m_cuts (init_static_cuts s)) (static_cuts (init_static_cuts s)))
      (m_tabBoxMode (init_static_cuts s)) key) as [r Hs]; [rewrite Hm; auto|].
    unfold tab_grab_key. cbv zeta. rewrite Hs. cbn [mbind outcome_bind]. destruct (match r with Found _ _ => _ | Invalid => _ end) as [[s1 d] b].
    by eexists.
  - case_match; [|by eexists]. destruct (desktop_grab_key W key s) as [s1 d]. by eexists.
Qed.

(** C37: a reference that nobody holds any more is never given back: the switcher counts as
    displayed from then on, whatever happens, and is never shown by itself again. *)
Theorem leaked_reference_stays fuel n l s s' :
  ok 1 s -> run fuel n l s = Done s' ->
  isDisplayed s' = true /\ (forall W, m_isShown (show W s') = false).
Proof.
  intros Hok Hr. pose proof (ok_run fuel n 1 l _ _ ltac:(lia) Hr Hok) as Hs.
  split; [by apply (ok_displayed 1)|]. intros W. unfold show.
  by rewrite (ok_displayed 1) by (done || by apply ok_emit_added).
Qed.

(** ** Witnesses and divergences *)

Definition all_desktops_config : TabBoxConfig := windows_config AllDesktopsClients.

Lemma client_list_most_recent_first_witness :
  createClientList sample_world 10 all_desktops_config 1 false [] = Done [2; 1; 0]%nat /\
  exists walk, walk ≡ₚ [0; 1; 2]%nat /\ head walk = Some 2%nat.
Proof.
  split; [by vm_compute|].
  destruct (client_list_most_recent_first sample_world 10 all_desktops_config 1 [] 2) as (walk & Hp & Hh & _);
    try done; [by apply (bool_decide_unpack _); vm_compute|cbn; lia|by apply (bool_decide_unpack _); vm_compute|].
  by exists walk.
Defined.

(** Four desktops; the user goes to the third, the fourth and the first one, and the
    fourth is removed. *)
Definition visited_chain : list Z :=
  DesktopChain.add 1 (DesktopChain.add 4 (DesktopChain.add 3 (DesktopChain.init 4))).
Definition removed_world : World :=
  sample_world <| numberOfDesktops := 3 |>
    <| chains := DesktopChain.mkDesktopChainManager "" {["" := DesktopChain.resize 4 3 visited_chain]} 3 |>.

Lemma desktops_after_removal_witness :
  visited_chain = [1; 4; 3; 2] /\ DesktopChain.resize 4 3 visited_chain = [1; 3; 3] /\
  createDesktopList removed_world 10 1000 (desktops_config MostRecentlyUsedDesktopSwitching) = OutOfFuel.
Proof.
  split; [by vm_compute|]. split; [by vm_compute|].
  apply (desktops_after_removal removed_world 10 (desktops_config MostRecentlyUsedDesktopSwitching) 3 visited_chain);
    try done.
  - apply lists_made_focus_chain; [done|by apply (bool_decide_unpack _); vm_compute|done|cbn; lia].
  - apply is_chain_of; [by apply (bool_decide_unpack _); vm_compute|done|].
    intros d Hd. change visited_chain with [1; 4; 3; 2] in Hd. rewrite !elem_of_cons, elem_of_nil in Hd. lia.
Defined.

(** A session that walks through the windows with Alt+Tab. *)
Definition wayland_world : World :=
  sample_world <| env := mkEnv true (desktopForX11Id plain_env) (x11DesktopNumber plain_env) 1 None 0
                           (screen_geometry plain_env) false |>.
Definition alt_tab : Z := AltModifier + Key_Tab.
Definition alt_tab_events : list (World * Event) :=
  [(wayland_world, EvReady sample_group sample_group);
   (wayland_world, EvShortcut "Walk Through Windows" [alt_tab]);
   (wayland_world, EvWindows true false false)].
Definition state_after (l : list (World * Event)) : TabBox :=
  match run 10 10 l (initial 0) with Done s => s | _ => initial 0 end.

Lemma walking_is_cyclic_witness :
  selected (nextPrev wayland_world false (nextPrev wayland_world true (state_after alt_tab_events))) 1 /\
  currentClient wayland_world (nextPrev wayland_world true (state_after alt_tab_events)) = Some 0%nat.
Proof.
  split; [|by vm_compute].
  apply (walking_is_cyclic wayland_world (state_after alt_tab_events) 1 0). split; [by vm_compute|].
  by vm_compute.
Defined.

Lemma grabs_consistent_witness :
  m_forcedGlobalMouseGrab (state_after alt_tab_events) = isGrabbed (state_after alt_tab_events) /\
  isGrabbed (state_after alt_tab_events) = true.
Proof.
  split; [|by vm_compute].
  apply (grabs_consistent 10 10 0 alt_tab_events (state_after alt_tab_events)). by vm_compute.
Defined.

(** The border of the screen is touched before the timer of Alt+Tab runs out. *)
Definition late_timer_events : list (World * Event) :=
  alt_tab_events ++ [(wayland_world, EvTouch false); (wayland_world, EvShowTimeout)].
Definition closing_events : list (World * Event) := [(wayland_world, EvEffectClose)].
Definition closed_state : TabBox :=
  match run 10 10 closing_events (state_after late_timer_events) with Done s => s | _ => initial 0 end.

Lemma leaked_reference_stays_witness :
  isGrabbed closed_state = false /\ isDisplayed closed_state = true.
Proof.
  split; [by vm_compute|].
  refine (proj1 (leaked_reference_stays 10 10 closing_events (state_after late_timer_events) closed_state _ _)).
  - split; [by vm_compute|by vm_compute| |by vm_compute|by vm_compute].
    intros _. apply (bool_decide_unpack _). by vm_compute.
  - by vm_compute.
Defined.

(** Without any window the list in the order of stacking is not made: an exception. *)
Lemma client_list_throws W fuel cfg d part l :
  createClientList W fuel cfg d part l = OutOfRange <->
  clientSwitchingMode cfg = StackingOrderSwitching /\ controlled_stacking W = [].
Proof.
  unfold createClientList, gather.
  assert (forall n d stop c acc, focus_chain_loop W fuel n cfg d stop c acc <> OutOfRange) as Hloop.
  { induction n as [|n IH]; intros d' stop c acc; [done|]. cbn [focus_chain_loop]. case_match; [apply IH|done]. }
  destruct (Z.eqb_spec (clientSwitchingMode cfg) FocusChainSwitching) as [->|].
  - split; [|by intros [? _]]. specialize (Hloop fuel d). intros Hr.
    destruct (focus_chain_loop _ _ _ _ _ _ _ _) as [[]| |] eqn:Hl; cbn in Hr; [done|by apply Hloop in Hl|done].
  - destruct (Z.eqb_spec (clientSwitchingMode cfg) StackingOrderSwitching); [|split; [done|by intros [? _]]].
    destruct (controlled_stacking W) as [|w rest]; [by split|]. split; [|by intros [_ ?]].
    case_match; [destruct (stacking_loop _ _ _ _ _ _ _ _)|]; done.
Qed.

(** A modal dialog whose main window was used more recently is listed twice. *)
Definition modal_world : World :=
  sample_world
    <| heap := fun w => if (w =? 2)%nat then plain_window <| children := [1%nat] |>
                        else if (w =? 1)%nat then plain_window <| leads := [2%nat] |> <| modal := true |>
                        else plain_window |>.
Example modal_dialog_twice : createClientList modal_world 10 all_desktops_config 1 false [] = Done [1; 1; 0]%nat.
Proof. by vm_compute. Qed.

(** A window that asks to be first is the last one, and the active window is not first in
    the order of stacking. *)
Example first_is_last :
  createClientList (sample_world <| first_in_tabbox := fun w => (w =? 2)%nat |>) 10 all_desktops_config 1 false [] =
    Done [1; 0; 2]%nat.
Proof. by vm_compute. Qed.

Example active_not_first :
  createClientList sample_world 10 (all_desktops_config <| clientSwitchingMode := StackingOrderSwitching |>) 1 false [] =
    Done [0; 1; 2]%nat.
Proof. by vm_compute. Qed.

(** When the active window is not in the model, the row of the last session stays
    selected: an invalid index is never set. *)
Example stale_selection :
  let outside := wayland_world <| activeClient := Some 7%nat |> <| skip_switcher := fun w => (w =? 7)%nat |> in
  match reset outside 10 10 false (close wayland_world false (state_after alt_tab_events)) with
  | Done s => row (index s) = 1
  | _ => False
  end.
Proof. by vm_compute. Qed.

(** A shortcut without a modifier selects a row, and the desktop stays as it was. *)
Example one_step_stays :
  match run 10 10 [(wayland_world, EvReady sample_group sample_group); (wayland_world, EvDesktops true false)] (initial 0) with
  | Done s => tabbox_currentDesktop s = 2 /\ requests s = [tabBoxUpdated; tabBoxUpdated; tabBoxUpdated; tabBoxUpdated]
  | _ => False
  end.
Proof. by vm_compute. Qed.

(** With unreasonable focus policies the walk passes over the windows of the current
    desktop, since the switcher has no desktop selected. *)
Lemma cde_passes_over W w s :
  tabBoxMode (config s) = ClientTabBox -> traverse_all W = false -> desktopForX11Id (env W) OnAllDesktops = None ->
  on_all_desktops (env W) (heap W w) = false -> cde_skips W (tabbox_currentDesktop s) w = true.
Proof.
  intros Hmode Ht Hnone Hall. unfold cde_skips, tabbox_currentDesktop, desktop_at.
  rewrite Hmode, Ht, (bool_decide_eq_false_2 (ClientTabBox = DesktopTabBox)), orb_true_r by done.
  assert (on_desktop (env W) (heap W w) (-1) = false) as ->; [|done].
  unfold on_desktop. rewrite Hall, orb_false_r. unfold on_all_desktops in Hall.
  change (-1) with OnAllDesktops. by destruct (wayland (env W)); [rewrite Hnone|].
Qed.

(** A shortcut that is changed after the first key is not found while the switcher is
    grabbed. *)
Definition other_tab : Z := MetaModifier + Key_Tab.
Example changed_shortcut_lost :
  let late := alt_tab_events ++
    [(wayland_world, EvKey alt_tab); (wayland_world, EvShortcut "Walk Through Windows" [other_tab])] in
  row (index (state_after late)) = 2 /\
  row (index (state_after (late ++ [(wayland_world, EvKey other_tab)]))) = 2 /\
  row (index (state_after (late ++ [(wayland_world, EvKey alt_tab)]))) = 0.
Proof. by vm_compute. Qed.

(** The wheel goes the other way on the screen than in the view and in X11 sessions. *)
Example wheel_directions :
  let s := state_after alt_tab_events in
  row (index (handleWheelEvent wayland_world (-120) false s).1) = 0 /\
  row (index (wheel_event wayland_world 0 (-120) s)) = 2.
Proof. by vm_compute. Qed.

(** In an empty list every row is valid, and walking counts up. *)
Example empty_rows : isValid (client_index [] 5 0) = true.
Proof. done. Qed.
End TabBoxProps.
