(* ===== verification/Compositor.v ===== *)
(** * The compositor's states and its timing (src/composite.cpp)

    [Pace]: the delay of the next frame and the recent durations of painting, which
    the X11 compositor keeps once and the Wayland compositor per output
    ([WaylandRender]). [Compositor]: starting, stopping, suspending and resuming, the
    ownership of the compositing selection, the region to repaint and the timer of the
    X11 compositor with the base class.

    A region is a list of rectangles. The scene and its plugins, the platform, the X
    server and the windows are what a [World] says of them; what they are told is a
    list of requests. A [None] result is [Q_UNREACHABLE] reached or a failed
    assertion. *)

From S2P Require Import Prelude Qt.

Module Pace.

Record Pace := mkPace {
  delay : Z;                 (** m_delay *)
  duration0 : Z;             (** m_lastPaintDurations *)
  duration1 : Z;
  periods : Z;               (** m_paintPeriods *)
}.
#[global] Instance Pace_eta : RecordEta Pace := fun p =>
  mkPace (delay p) (duration0 p) (duration1 p) (periods p).

Implicit Types p : Pace.

Definition initial : Pace := mkPace 0 0 0 0.

Definition update_paint_periods (duration : Z) p : Pace :=
  let p := if duration1 p <? duration then p <| duration1 := duration |> else p in
  let p := p <| periods := periods p + 1 |> in
  if periods p =? 100 then p <| duration0 := duration1 p |> <| duration1 := 0 |> <| periods := 0 |> else p.

Definition refreshLength (refreshRate : Z) : Z := Z.quot (1000 * 1000) refreshRate.

Definition maxPaintDuration p : Z := if duration1 p <? duration0 p then duration0 p else duration1 p.

(** The delay after a swap of the buffers. *)
Definition swap_delay (refreshRate : Z) p : Pace :=
  let refresh := refreshLength refreshRate in
  let vblankMargin := Z.quot refresh 10 in
  p <| delay := Z.max (refresh - vblankMargin - maxPaintDuration p) 0 |>.

(** The time that the timer is started with, in milliseconds. *)
Definition wait_time p : Z := Z.min (u32 (Z.quot (Z.quot (delay p) 1000) 1000)) 250.
End Pace.

Module Region.
Import Qt.

Definition region : Type := list QRect.
Definition isEmpty (r : region) : bool := forallb Qt.isEmpty r.
Definition intersected (g : QRect) (r : region) : region :=
  List.filter (fun x => negb (Qt.isEmpty x)) (map (Qt.intersected g) r).
End Region.

Module Compositor.
Import Qt Pace Region.

Inductive StateKind := On | Off | Starting | Stopping.
#[global] Instance StateKind_eq_dec : EqDecision StateKind.
Proof. solve_decision. Defined.

Inductive CompositingType :=
  | NoCompositing | OpenGLCompositing | XRenderCompositing | QPainterCompositing | OpenGL2Compositing.
#[global] Instance CompositingType_eq_dec : EqDecision CompositingType.
Proof. solve_decision. Defined.

(** X11Compositor::SuspendReason. *)
Definition NoReasonSuspend : Z := 0.
Definition UserSuspend : Z := 1.
Definition BlockRuleSuspend : Z := 2.
Definition ScriptSuspend : Z := 4.
Definition AllReasonSuspend : Z := 0xff.

(** What painting does besides drawing. *)
Inductive PaintEvent :=
  | PaintRepaint (r : region)         (** an effect asks for the next frame *)
  | PaintSwap.                        (** the backend swaps the buffers and waits *)

Record World := mkWorld {
  terminating : bool;
  x11Connection : bool;
  workspace : bool;
  supportedCompositors : list CompositingType;
  compositingMode : CompositingType;  (** Options *)
  creates_scene : CompositingType -> bool;   (** a plugin makes a scene that works *)
  compositingPossible : bool;
  hasSwapEvent : bool;                (** Scene *)
  usesOverlayWindow : bool;
  overlayWindowVisible : bool;
  outputsEnabled : bool;              (** Platform *)
  refreshRates : list Z;
  screens_size : QSize;
  pending_windows : bool;             (** a window has pending repaints *)
  any_blocking : bool;                (** a window blocks compositing *)
  paint_duration : Z;
  paint_events : list PaintEvent;
}.
#[global] Instance World_eta : RecordEta World := fun w =>
  mkWorld (terminating w) (x11Connection w) (workspace w) (supportedCompositors w) (compositingMode w)
    (creates_scene w) (compositingPossible w) (hasSwapEvent w) (usesOverlayWindow w)
    (overlayWindowVisible w) (outputsEnabled w) (refreshRates w) (screens_size w) (pending_windows w)
    (any_blocking w) (paint_duration w) (paint_events w).

Inductive OpenGLSafePoint := PreInit | PostInit | PreFrame | PostFrame | PostLastGuardedFrame.

Inductive Request :=
  | reloadSettings | reparseConfiguration | reconfigureEffects
  | discardRemnants
  | aboutToToggleCompositing | compositingToggled (active : bool) | sceneCreated
  | setSelectedCompositor (t : CompositingType)
  | releaseSelection
  | quit
  | removeWindowsFromScene | setupWindows
  | redirectSubwindows (b : bool)
  | deleteProperty (atom : Z)
  | idleScene
  | paint (r : region)
  | safePoint (p : OpenGLSafePoint).

(** A call of [suspend] or [resume] put into the event queue. *)
Inductive QueuedCall := QueuedSuspend (reason : Z) | QueuedResume (reason : Z).

Record State := mkState {
  m_state : StateKind;
  m_suspended : Z;
  compositeTimer : option Z;          (** the interval, while it is active *)
  m_selectionOwner : option bool;     (** whether it is owning *)
  m_releaseSelectionTimer : bool;     (** active *)
  m_unusedSupportProperties : list Z;
  m_unusedSupportPropertyTimer : bool;
  repaints_region : region;
  pace : Pace;
  m_bufferSwapPending : bool;
  m_scene : option CompositingType;
  effects : bool;
  m_framesToTestForSafety : Z;
  queue : list QueuedCall;
  requests : list Request;
}.
#[global] Instance State_eta : RecordEta State := fun s =>
  mkState (m_state s) (m_suspended s) (compositeTimer s) (m_selectionOwner s) (m_releaseSelectionTimer s)
    (m_unusedSupportProperties s) (m_unusedSupportPropertyTimer s) (repaints_region s) (pace s)
    (m_bufferSwapPending s) (m_scene s) (effects s) (m_framesToTestForSafety s) (queue s) (requests s).

Implicit Types s : State.

Definition ask (r : Request) s : State := s <| requests := requests s ++ [r] |>.

(** The constructors; [frames] is KWIN_MAX_FRAMES_TESTED, three when it is not set. *)
Definition initial (use : bool) (frames : Z) : State :=
  mkState Off (if use then NoReasonSuspend else UserSuspend) None None false [] false [] Pace.initial
    false None false frames [] [].

Section Operations.
Context (W : World).

(** *** The selection and the properties of the root window *)

(** CompositorSelectionOwner: made when needed, claimed when not owning. *)
Definition claimCompositorSelection s : State := s <| m_selectionOwner := Some true |>.

Definition setupX11Support s : State :=
  if negb (x11Connection W) then s <| m_selectionOwner := None |>
  else ask (redirectSubwindows true) (claimCompositorSelection s).

Definition release_owner s : State :=
  match m_selectionOwner s with
  | Some _ => ask releaseSelection (s <| m_selectionOwner := Some false |>)
  | None => s
  end.

(** The timer has run out: it is a single shot. *)
Definition releaseCompositorSelection s : State :=
  let s := s <| m_releaseSelectionTimer := false |> in
  match m_state s with
  | On => s
  | Off => release_owner s
  | Starting | Stopping => s <| m_releaseSelectionTimer := true |>
  end.

Definition keepSupportProperty (atom : Z) s : State :=
  s <| m_unusedSupportProperties := remove_all atom (m_unusedSupportProperties s) |>.

Definition removeSupportProperty (atom : Z) s : State :=
  s <| m_unusedSupportProperties := m_unusedSupportProperties s ++ [atom] |>
    <| m_unusedSupportPropertyTimer := true |>.

Definition deleteUnusedSupportProperties s : State :=
  let s := s <| m_unusedSupportPropertyTimer := false |> in
  match m_state s with
  | Starting | Stopping => s <| m_unusedSupportPropertyTimer := true |>
  | On | Off =>
      if x11Connection W then
        (foldl (fun s a => ask (deleteProperty a) s) s (m_unusedSupportProperties s))
          <| m_unusedSupportProperties := [] |>
      else s
  end.

(** *** Repainting *)

Definition refreshRate : Z := foldl (fun m r => if m <? r then r else m) 60000 (refreshRates W).

Definition setCompositeTimer s : State :=
  if bool_decide (compositeTimer s <> None) || m_bufferSwapPending s then s
  else s <| compositeTimer := Some (wait_time (pace s)) |>.

Definition schedule_repaint s : State :=
  if negb (bool_decide (m_state s = On)) then s
  else if negb (outputsEnabled W) then s
  else setCompositeTimer s.

Definition addRepaint (r : region) s : State :=
  if negb (bool_decide (m_state s = On)) then s
  else schedule_repaint (s <| repaints_region := repaints_region s ++ r |>).

Definition addRepaintFull s : State :=
  addRepaint [mkRect 0 0 (sw (screens_size W)) (sh (screens_size W))] s.

Definition aboutToSwapBuffers s : option State :=
  if m_bufferSwapPending s then None else Some (s <| m_bufferSwapPending := true |>).

Definition bufferSwapComplete s : State :=
  if negb (m_bufferSwapPending s) then s
  else
    setCompositeTimer
      (s <| m_bufferSwapPending := false |> <| pace := swap_delay refreshRate (pace s) |> <| compositeTimer := None |>).

Definition retard_next_composition s : State :=
  if hasSwapEvent W then s
  else setCompositeTimer (s <| pace := (pace s) <| delay := refreshLength refreshRate |> |>).

(** The new state, and the region to paint if there is anything to do. Which windows
    are painted is left to the scene. *)
Definition prepare_composition s : State * option region :=
  let s := s <| compositeTimer := None |> in
  if m_bufferSwapPending s then (s, None)
  else if negb (outputsEnabled W) then (s, None)
  else if Region.isEmpty (repaints_region s) && negb (pending_windows W) then
    (ask idleScene (s <| pace := (pace s) <| delay := 0 |> |>), None)
  else (s <| repaints_region := [] |>, Some (repaints_region s)).

Definition create_opengl_safepoint (p : OpenGLSafePoint) s : State :=
  if m_framesToTestForSafety s <=? 0 then s
  else
    match m_scene s with
    | Some OpenGLCompositing | Some OpenGL2Compositing =>
        let s := ask (safePoint p) s in
        match p with
        | PostFrame =>
            let s := s <| m_framesToTestForSafety := m_framesToTestForSafety s - 1 |> in
            if m_framesToTestForSafety s =? 0 then ask (safePoint PostLastGuardedFrame) s else s
        | _ => s
        end
    | _ => s
    end.

Definition paint_event (acc : option State) (e : PaintEvent) : option State :=
  s ← acc; match e with PaintRepaint r => Some (addRepaint r s) | PaintSwap => aboutToSwapBuffers s end.

Definition isOverlayWindowVisible s : bool :=
  match m_scene s with Some _ => usesOverlayWindow W && overlayWindowVisible W | None => false end.

(** X11Compositor::performCompositing. *)
Definition performCompositing s : option State :=
  if usesOverlayWindow W && negb (isOverlayWindowVisible s) then Some s
  else
    match prepare_composition s with
    | (s, None) => Some s
    | (s, Some r) =>
        s ← foldl paint_event (Some (ask (paint r) (create_opengl_safepoint PreFrame s))) (paint_events W);
        let s := s <| pace := update_paint_periods (paint_duration W) (pace s) |> in
        Some (retard_next_composition (create_opengl_safepoint PostFrame s))
    end.

(** *** Starting and stopping *)

(** The supported compositors, the configured one first. *)
Definition candidates : list CompositingType :=
  match index_of (compositingMode W) (supportedCompositors W) with
  | Some i => compositingMode W :: take i (supportedCompositors W) ++ drop (S i) (supportedCompositors W)
  | None => supportedCompositors W
  end.

(** The loop over the candidates; [None] is the unreachable case. *)
Fixpoint find_scene (l : list CompositingType) : option (option CompositingType) :=
  match l with
  | [] => Some None
  | NoCompositing :: _ => None
  | t :: l' => if creates_scene W t then Some (Some t) else find_scene l'
  end.

(** What the platform is told: the kinds of OpenGL are one. *)
Definition selected (t : CompositingType) : CompositingType :=
  match t with OpenGL2Compositing => OpenGLCompositing | _ => t end.

Definition scene_failed s : State :=
  let s := release_owner (s <| m_state := Off |> <| m_scene := None |>) in
  if bool_decide (NoCompositing ∈ candidates) then s else ask quit s.

Definition setupStart s : option (State * bool) :=
  if terminating W then Some (s, false)
  else if negb (bool_decide (m_state s = Off)) then Some (s, false)
  else
    let s := setupX11Support (ask reloadSettings (s <| m_state := Starting |>)) in
    let s := if workspace W then ask discardRemnants s else s in
    let s := ask aboutToToggleCompositing s in
    scene ← find_scene candidates;
    match scene with
    | None => Some (scene_failed s, false)
    | Some t => Some (ask sceneCreated (ask (setSelectedCompositor (selected t)) (s <| m_scene := Some t |>)), true)
    end.

Definition startupWithWorkspace s : option State :=
  match m_scene s with
  | None => None
  | Some _ =>
      let s := (setupX11Support s) <| effects := true |> in
      let s := ask (compositingToggled true) ((ask setupWindows s) <| m_state := On |>) in
      performCompositing (addRepaintFull (s <| m_releaseSelectionTimer := false |>))
  end.

(** X11Compositor::start. *)
Definition start s : option State :=
  if negb (m_suspended s =? NoReasonSuspend) then Some s
  else if negb (compositingPossible W) then Some s
  else
    '(s, ok) ← setupStart s;
    if (ok : bool) then startupWithWorkspace s else Some s.

Definition stop s : State :=
  match m_state s with
  | Off | Stopping => s
  | On | Starting =>
      let s := ask aboutToToggleCompositing (s <| m_state := Stopping |>) in
      let s := s <| m_releaseSelectionTimer := true |> <| effects := false |> in
      let s :=
        if workspace W then
          let s := ask removeWindowsFromScene s in
          let s := if x11Connection W then ask (redirectSubwindows false) s else s in
          ask discardRemnants s
        else s in
      ask (compositingToggled false)
        (s <| m_scene := None |> <| m_bufferSwapPending := false |> <| compositeTimer := None |>
           <| repaints_region := [] |> <| m_state := Off |>)
  end.

(** Compositor::reinitialize and X11Compositor::reinitialize. *)
Definition base_reinitialize s : option State :=
  s ← start (stop (ask reparseConfiguration s));
  Some (if effects s then ask reconfigureEffects s else s).
Definition reinitialize s : option State := base_reinitialize (s <| m_suspended := NoReasonSuspend |>).

(** Compositor::configChanged calls the overridden [reinitialize]. *)
Definition configChanged s : option State :=
  if negb (m_suspended s =? NoReasonSuspend) then Some (stop s)
  else s ← reinitialize s; Some (addRepaintFull s).

Definition suspend (reason : Z) s : State := stop (s <| m_suspended := Z.lor (m_suspended s) reason |>).
Definition resume (reason : Z) s : option State :=
  start (s <| m_suspended := Z.land (m_suspended s) (Z.lnot reason) |>).

Definition toggleCompositing s : option State :=
  if negb (m_suspended s =? NoReasonSuspend) then resume AllReasonSuspend s
  else Some (suspend UserSuspend s).

(** With a window: whether that window blocks compositing. *)
Definition updateClientCompositeBlocking (window : option bool) s : State :=
  let blocked := negb (Z.land (m_suspended s) BlockRuleSuspend =? 0) in
  match window with
  | Some blocking =>
      if blocking && negb blocked then s <| queue := queue s ++ [QueuedSuspend BlockRuleSuspend] |> else s
  | None =>
      if blocked && negb (any_blocking W) then s <| queue := queue s ++ [QueuedResume BlockRuleSuspend] |> else s
  end.

(** *** Events *)

Inductive Event :=
  | EvStart                            (** the call that the constructor delays *)
  | EvTimer
  | EvReleaseTimer
  | EvPropertyTimer
  | EvKeepProperty (atom : Z)
  | EvRemoveProperty (atom : Z)
  | EvRepaint (r : region)
  | EvScheduleRepaint                  (** of a window *)
  | EvSwapComplete
  | EvConfigChanged
  | EvReinitialize                     (** D-Bus, or the scene *)
  | EvToggle
  | EvSuspend (reason : Z)
  | EvResume (reason : Z)
  | EvQueued
  | EvBlocking (window : option bool)
  | EvLostSelection
  | EvWorkspaceDestroyed.

Definition step (e : Event) s : option State :=
  match e with
  | EvStart => start s
  | EvTimer => match compositeTimer s with Some _ => performCompositing s | None => Some s end
  | EvReleaseTimer => Some (if m_releaseSelectionTimer s then releaseCompositorSelection s else s)
  | EvPropertyTimer => Some (if m_unusedSupportPropertyTimer s then deleteUnusedSupportProperties s else s)
  | EvKeepProperty a => Some (keepSupportProperty a s)
  | EvRemoveProperty a => Some (removeSupportProperty a s)
  | EvRepaint r => Some (addRepaint r s)
  | EvScheduleRepaint => Some (schedule_repaint s)
  | EvSwapComplete => Some (bufferSwapComplete s)
  | EvConfigChanged => configChanged s
  | EvReinitialize => reinitialize s
  | EvToggle => toggleCompositing s
  | EvSuspend r => Some (suspend r s)
  | EvResume r => resume r s
  | EvQueued =>
      match queue s with
      | [] => Some s
      | QueuedSuspend r :: q => Some (suspend r (s <| queue := q |>))
      | QueuedResume r :: q => resume r (s <| queue := q |>)
      end
  | EvBlocking w => Some (updateClientCompositeBlocking w s)
  | EvLostSelection =>
      Some match m_selectionOwner s with Some _ => stop (s <| m_selectionOwner := Some false |>) | None => s end
  | EvWorkspaceDestroyed => Some (s <| compositeTimer := None |>)
  end.
End Operations.

Fixpoint run (l : list (World * Event)) s : option State :=
  match l with
  | [] => Some s
  | (W, e) :: l' => s ← step W e s; run l' s
  end.
End Compositor.
