(* ===== verification/CompositorProps.v ===== *)
(** * Properties of the compositor ([Compositor])

    It is on exactly without a reason to suspend, owns the selection only while it is
    on or about to let go, never loses a region to repaint, and never waits for the
    next frame. *)

From S2P Require Import Prelude Qt Compositor.

Module CompositorProps.
Import Qt Pace Compositor.

(** ** Pace *)

Definition paced (p : Pace) : Prop := 0 <= delay p <= 16 /\ 0 <= duration0 p /\ 0 <= duration1 p.

Lemma refreshLength_range r : 60000 <= r -> 0 <= refreshLength r <= 16.
Proof.
  intros Hr. unfold refreshLength. rewrite Z.quot_div_nonneg by lia. split; [apply Z.div_pos; lia|].
  apply Z.lt_succ_r, Z.div_lt_upper_bound; lia.
Qed.

Lemma paced_wait p : paced p -> wait_time p = 0.
Proof.
  intros [Hd _]. unfold wait_time. rewrite (Z.quot_small (delay p) 1000), Z.quot_small by lia. done.
Qed.

Lemma paced_initial : paced Pace.initial.
Proof. by repeat split. Qed.

Lemma paced_update d p : paced p -> paced (update_paint_periods d p).
Proof.
  intros (H1 & H2 & H3). unfold update_paint_periods, paced.
  destruct (Z.ltb_spec (duration1 p) d); cbn; case_match; cbn; lia.
Qed.

Lemma paced_swap r p : 60000 <= r -> paced p -> paced (swap_delay r p).
Proof.
  intros Hr (H1 & H2 & H3). pose proof (refreshLength_range r Hr). unfold swap_delay, paced. cbn.
  assert (0 <= maxPaintDuration p) by (unfold maxPaintDuration; case_match; lia).
  assert (0 <= Z.quot (refreshLength r) 10) by (apply Z.quot_pos; lia). lia.
Qed.

Lemma refreshRate_min W : 60000 <= refreshRate W.
Proof.
  unfold refreshRate. assert (forall l m, 60000 <= m -> 60000 <= foldl (fun m r => if m <? r then r else m) m l) as Hl.
  { induction l as [|r l IH]; intros m Hm; [done|]. cbn. apply IH. destruct (Z.ltb_spec m r); lia. }
  apply Hl. lia.
Qed.

(** The largest duration of some frames. *)
Definition maximum (l : list Z) : Z := foldr Z.max 0 l.

(** The durations kept after painting the frames [l]: the maximum of the last whole
    hundred, and the maximum of those after it. *)
Lemma update_paint_periods_max (whole rest : list Z) p d :
  Z.of_nat (length rest) < 100 -> periods p = Z.of_nat (length rest) ->
  duration0 p = maximum whole -> duration1 p = maximum rest ->
  exists whole' rest', (whole' = whole /\ rest' = rest ++ [d] \/ whole' = rest ++ [d] /\ length whole' = 100%nat /\ rest' = []) /\
    let p' := update_paint_periods d p in
    Z.of_nat (length rest') < 100 /\ periods p' = Z.of_nat (length rest') /\
    duration0 p' = maximum whole' /\ duration1 p' = maximum rest'.
Proof.
  intros Hr Hp H0 H1.
  assert (maximum (rest ++ [d]) = Z.max (maximum rest) d) as Hmax.
  { clear. unfold maximum. induction rest as [|x l IH]; cbn [app foldr]; [cbn; lia|]. rewrite IH. lia. }
  assert ((if duration1 p <? d then p <| duration1 := d |> else p) = p <| duration1 := maximum (rest ++ [d]) |>) as Hd.
  { rewrite Hmax, <- H1. destruct (Z.ltb_spec (duration1 p) d); destruct p; cbn in *; f_equal; lia. }
  unfold update_paint_periods. rewrite Hd. cbn. destruct (Z.eqb_spec (periods p + 1) 100) as [He|He].
  - exists (rest ++ [d]), []. rewrite length_app. cbn. split; [right; split; [done|split; [lia|done]]|]. lia.
  - exists whole, (rest ++ [d]). rewrite length_app. cbn. split; [by left|]. lia.
Qed.

(** ** The invariant *)

Record ok (s : State) : Prop := mkOk {
  ok_settled : m_state s = On \/ m_state s = Off;
  ok_on : m_state s = On -> m_scene s <> None /\ effects s = true /\ m_suspended s = NoReasonSuspend;
  ok_off : m_state s = Off ->
    m_scene s = None /\ effects s = false /\ compositeTimer s = None /\ m_bufferSwapPending s = false /\
    repaints_region s = [] /\ (m_selectionOwner s = Some true -> m_releaseSelectionTimer s = true);
  ok_pace : paced (pace s);
  ok_timer : forall t, compositeTimer s = Some t -> t = 0;
}.

(** A region that is to be repainted will be: the timer runs or a swap is awaited. *)
Definition live (s : State) : Prop :=
  m_state s = On -> Region.isEmpty (repaints_region s) = false ->
  compositeTimer s <> None \/ m_bufferSwapPending s = true.

Lemma compositor_ok_initial use frames : ok (initial use frames) /\ live (initial use frames).
Proof. split; [|done]. split; cbn; try done; first [by right|apply paced_initial]. Qed.

(** Steps that only change other members. *)
Definition core (s : State) :=
  (m_state s, m_scene s, effects s, m_suspended s, compositeTimer s, m_bufferSwapPending s, repaints_region s,
   m_selectionOwner s, m_releaseSelectionTimer s, pace s).

Lemma compositor_ok_core s s' : core s' = core s -> ok s -> ok s'.
Proof.
  unfold core. intros [= H1 H2 H3 H4 H5 H6 H7 H8 H9 H10] [].
  split; rewrite ?H1, ?H2, ?H3, ?H4, ?H5, ?H6, ?H7, ?H8, ?H9, ?H10; done.
Qed.

Lemma live_core s s' : core s' = core s -> live s -> live s'.
Proof. unfold core, live. intros [= H1 H2 H3 H4 H5 H6 H7 H8 H9 H10]. by rewrite H1, H5, H6, H7. Qed.

(** A compositor that is on. *)
Definition running (s : State) : Prop :=
  m_state s = On /\ m_scene s <> None /\ effects s = true /\ m_suspended s = NoReasonSuspend /\
  paced (pace s) /\ forall t, compositeTimer s = Some t -> t = 0.

Lemma running_ok s : running s -> ok s.
Proof. intros (H1 & H2 & H3 & H4 & H5 & H6). split; try done; [by left|]. by rewrite H1. Qed.

Lemma ok_running s : ok s -> m_state s = On -> running s.
Proof. intros [? Hon ? ? ?] H1. destruct (Hon H1) as (? & ? & ?). done. Qed.

Section Steps.
Context (W : World).

Lemma running_timer s : running s -> running (setCompositeTimer s).
Proof.
  intros (H1 & H2 & H3 & H4 & H5 & H6). unfold setCompositeTimer. case_match; [done|].
  repeat split; try done; try apply H5. cbn. intros t [= <-]. by apply paced_wait.
Qed.

Lemma timer_live s : live (setCompositeTimer s).
Proof.
  unfold live, setCompositeTimer. destruct (bool_decide (compositeTimer s <> None)) eqn:Ht; cbn.
  - apply bool_decide_eq_true in Ht. by left.
  - destruct (m_bufferSwapPending s) eqn:Hp; [by right|by left].
Qed.

Lemma running_repaint r s : running s -> running (addRepaint W r s).
Proof.
  intros Hs. unfold addRepaint, schedule_repaint. repeat case_match; try done.
  by apply running_timer.
Qed.

Lemma repaint_live r s : outputsEnabled W = true -> live s -> live (addRepaint W r s).
Proof.
  intros Ho Hs. unfold addRepaint. case_bool_decide as Hon; [|done]. cbn [negb].
  unfold schedule_repaint. cbn. rewrite bool_decide_eq_true_2, Ho by done. apply timer_live.
Qed.

Lemma running_paint_events l s s' :
  foldl (paint_event W) (Some s) l = Some s' -> running s -> running s'.
Proof.
  revert s. induction l as [|e l IH]; intros s; [by intros [= <-]|]. cbn [foldl].
  destruct e; cbn [paint_event mbind option_bind].
  - intros Hr Hs. eapply IH; [done|]. by apply running_repaint.
  - unfold aboutToSwapBuffers. case_match.
    + assert (foldl (paint_event W) None l = None) as -> by (clear; by induction l). done.
    + intros Hr Hs. eapply IH; done.
Qed.

Lemma paint_events_live l s s' :
  outputsEnabled W = true -> foldl (paint_event W) (Some s) l = Some s' -> live s -> live s'.
Proof.
  intros Ho. revert s. induction l as [|e l IH]; intros s; [by intros [= <-]|]. cbn [foldl].
  destruct e; cbn [paint_event mbind option_bind].
  - intros Hr Hs. eapply IH; [done|]. by apply repaint_live.
  - unfold aboutToSwapBuffers. case_match.
    + assert (foldl (paint_event W) None l = None) as -> by (clear; by induction l). done.
    + intros Hr Hs. eapply IH; [done|]. unfold live. by right.
Qed.

Lemma core_safepoint p s : core (create_opengl_safepoint p s) = core s.
Proof. unfold create_opengl_safepoint. by repeat case_match. Qed.

Lemma running_core s s' : core s' = core s -> running s -> running s'.
Proof. intros Hc Hs. assert (ok s') as Ho by (eapply compositor_ok_core, running_ok; done). apply ok_running; [done|].
  unfold core in Hc. injection Hc as -> _ _ _ _ _ _ _ _ _. apply Hs.
Qed.

Lemma running_pace p s : running s -> paced p -> running (s <| pace := p |>).
Proof. by intros (H1 & H2 & H3 & H4 & H5 & H6) Hp. Qed.

Lemma running_retard s : running s -> running (retard_next_composition W s).
Proof.
  intros Hs. unfold retard_next_composition. case_match; [done|]. apply running_timer, running_pace; [done|].
  destruct Hs as (_ & _ & _ & _ & (_ & H0 & H1) & _). split; [|done]. apply refreshLength_range, refreshRate_min.
Qed.

Lemma retard_live s : live s -> live (retard_next_composition W s).
Proof. intros Hs. unfold retard_next_composition. case_match; [done|apply timer_live]. Qed.

Lemma running_prepare s s' o : prepare_composition W s = (s', o) -> running s -> running s'.
Proof.
  unfold prepare_composition. intros Heq (H1 & H2 & H3 & H4 & H5 & H6).
  repeat case_match; injection Heq as <- _; repeat split; cbn; try done; try apply H5; lia.
Qed.

Lemma prepare_live s s' o : outputsEnabled W = true -> prepare_composition W s = (s', o) -> live s'.
Proof.
  unfold prepare_composition, live. intros Ho Heq. destruct (m_bufferSwapPending _) eqn:Hp.
  { injection Heq as <- _. by right. }
  rewrite Ho in Heq. cbn [negb] in Heq.
  destruct (Region.isEmpty _ && _) eqn:He; injection Heq as <- _; [|done].
  apply andb_true_iff in He as [He _]. cbn in He |- *. by rewrite He.
Qed.

Lemma running_perform s s' : performCompositing W s = Some s' -> running s -> running s'.
Proof.
  unfold performCompositing. case_match; [by intros [= <-]|].
  destruct (prepare_composition W s) as [s1 [r|]] eqn:Hp; intros Heq Hs; pose proof (running_prepare _ _ _ Hp Hs) as H1.
  - destruct (foldl _ _ _) as [s2|] eqn:Hf; [|done]. injection Heq as <-.
    apply running_paint_events in Hf; [|eapply running_core, H1; by rewrite <- (core_safepoint PreFrame s1)].
    apply running_retard. eapply running_core; [apply core_safepoint|]. apply running_pace; [done|].
    apply paced_update, Hf.
  - by injection Heq as <-.
Qed.

Lemma perform_live s s' :
  outputsEnabled W = true -> performCompositing W s = Some s' -> live s -> live s'.
Proof.
  intros Ho. unfold performCompositing. case_match; [by intros [= <-]|].
  destruct (prepare_composition W s) as [s1 [r|]] eqn:Hp; intros Heq Hs; pose proof (prepare_live _ _ _ Ho Hp) as H1.
  - destruct (foldl _ _ _) as [s2|] eqn:Hf; [|done]. injection Heq as <-.
    apply paint_events_live in Hf; [|done|eapply live_core, H1; by rewrite <- (core_safepoint PreFrame s1)].
    apply retard_live. eapply live_core; [apply core_safepoint|]. done.
  - by injection Heq as <-.
Qed.

(** *** Starting and stopping *)

(** A step keeps the invariant and, with outputs, what is owed. *)
Definition keeps (s s' : State) : Prop := ok s' /\ (outputsEnabled W = true -> live s -> live s').

Lemma live_off s : m_state s = Off -> live s.
Proof. intros H1. unfold live. by rewrite H1. Qed.

Lemma keeps_off s s' : ok s' -> m_state s' = Off -> keeps s s'.
Proof. intros Hs H1. split; [done|]. intros _ _. by apply live_off. Qed.

Lemma keeps_core s s' : core s' = core s -> ok s -> keeps s s'.
Proof. intros Hc Hs. split; [by eapply compositor_ok_core|]. intros _. by apply live_core. Qed.

Lemma keeps_from s1 s s' : core s1 = core s -> (ok s1 -> keeps s1 s') -> ok s -> keeps s s'.
Proof.
  intros Hc Hk Hs. destruct (Hk (compositor_ok_core _ _ Hc Hs)) as [H1 H2]. split; [done|].
  intros Ho Hl. by eapply H2, live_core.
Qed.

(** Nothing is left of an earlier run, and a scene is there. *)
Definition fresh (s : State) : Prop :=
  m_scene s <> None /\ compositeTimer s = None /\ m_bufferSwapPending s = false /\ repaints_region s = [] /\
  paced (pace s).

Lemma startup_keeps s s' :
  fresh s -> m_suspended s = NoReasonSuspend -> startupWithWorkspace W s = Some s' ->
  running s' /\ (outputsEnabled W = true -> live s').
Proof.
  intros (H1 & H2 & H3 & H4 & H5) Hsu. unfold startupWithWorkspace. destruct (m_scene s) as [t|] eqn:Ht; [|done].
  set (s1 := _ <| m_releaseSelectionTimer := false |>). intros Hp.
  assert (running s1 /\ repaints_region s1 = []) as [Hr Hl].
  { subst s1. unfold running, setupX11Support. case_match; cbn; rewrite ?Ht, ?H2; done. }
  split; [eapply running_perform, running_repaint, Hr; done|]. intros Ho.
  eapply perform_live; [done..|]. apply repaint_live; [done|]. unfold live. by rewrite Hl.
Qed.

Lemma setupStart_keeps s s' b :
  ok s -> setupStart W s = Some (s', b) ->
  if b then fresh s' /\ m_suspended s' = m_suspended s else keeps s s'.
Proof.
  intros Hs. unfold setupStart. case_match; [intros [= <- <-]; by split|].
  case_bool_decide as Hoff; cbn [negb]; [|intros [= <- <-]; by split].
  destruct (ok_off _ Hs Hoff) as (H1 & H2 & H3 & H4 & H5 & _). pose proof (ok_pace _ Hs) as H6.
  destruct (find_scene W (candidates W)) as [[t|]|]; [..|done]; cbn [mbind option_bind]; intros [= <- <-].
  - unfold fresh, setupX11Support. repeat case_match; done.
  - apply keeps_off; unfold scene_failed, release_owner, setupX11Support; repeat case_match; cbn in *; try done;
      split; cbn; try done; (by right) || by rewrite H3.
Qed.

Lemma start_keeps s s' : ok s -> start W s = Some s' -> keeps s s'.
Proof.
  intros Hs. unfold start. destruct (Z.eqb_spec (m_suspended s) NoReasonSuspend) as [Hsu|_]; cbn [negb].
  2: { intros [= <-]. by split. }
  case_match; [intros [= <-]; by split|].
  destruct (setupStart W s) as [[s1 b]|] eqn:Hst; [|done]. cbn [mbind option_bind].
  apply setupStart_keeps in Hst; [|done]. destruct b; [|by intros [= <-]].
  destruct Hst as [Hf Hsu1]. intros Hp. apply startup_keeps in Hp as [Hr Hl]; [|done|congruence].
  split; [by apply running_ok|]. intros Ho _. by apply Hl.
Qed.

Lemma ok_suspended n s : ok s -> m_state s = Off -> ok (s <| m_suspended := n |>).
Proof. intros [] Hoff. split; cbn; try done. by rewrite Hoff. Qed.

Lemma stop_on s : m_state s = On -> paced (pace s) -> ok (stop W s) /\ m_state (stop W s) = Off.
Proof.
  intros Hon Hp. unfold stop. rewrite Hon.
  split; [|repeat case_match; done]. repeat case_match; split; cbn; done || by right.
Qed.

(** Stopping whatever the reasons to suspend are. *)
Lemma stop_off n s : ok s -> ok (stop W (s <| m_suspended := n |>)) /\ m_state (stop W (s <| m_suspended := n |>)) = Off.
Proof.
  intros Hs. destruct (ok_settled _ Hs) as [Hon|Hoff].
  - apply stop_on; [done|apply Hs].
  - assert (stop W (s <| m_suspended := n |>) = s <| m_suspended := n |>) as -> by (unfold stop; cbn; by rewrite Hoff).
    split; [by apply ok_suspended|done].
Qed.

Lemma suspended_same s : s <| m_suspended := m_suspended s |> = s.
Proof. by destruct s. Qed.

Lemma keeps_suspend r s : ok s -> keeps s (suspend W r s).
Proof. intros Hs. unfold suspend. destruct (stop_off (Z.lor (m_suspended s) r) s Hs). by apply keeps_off. Qed.

Lemma keeps_stop s : ok s -> keeps s (stop W s).
Proof. intros Hs. rewrite <- (suspended_same s) at 2. destruct (stop_off (m_suspended s) s Hs). by apply keeps_off. Qed.

Lemma keeps_resume r s s' : ok s -> resume W r s = Some s' -> keeps s s'.
Proof.
  intros Hs. unfold resume. destruct (ok_settled _ Hs) as [Hon|Hoff].
  - destruct (ok_on _ Hs Hon) as (_ & _ & Hsu). rewrite Hsu, Z.land_0_l.
    assert (s <| m_suspended := 0 |> = s) as -> by (rewrite <- (suspended_same s) at 2; by rewrite Hsu).
    by apply start_keeps.
  - intros Hst. apply start_keeps in Hst as [H1 H2]; [|by apply ok_suspended]. split; [done|].
    intros Ho _. apply H2; [done|]. by apply live_off.
Qed.

Lemma keeps_reinitialize s s' : ok s -> reinitialize W s = Some s' -> keeps s s'.
Proof.
  intros Hs. unfold reinitialize, base_reinitialize.
  set (s1 := ask _ _). assert (ok (stop W s1) /\ m_state (stop W s1) = Off) as [Ho Hoff].
  { apply (stop_off NoReasonSuspend (ask reparseConfiguration s)). by apply (compositor_ok_core s). }
  destruct (start W (stop W s1)) as [s2|] eqn:Hst; [|done]. cbn [mbind option_bind].
  apply start_keeps in Hst as [H1 H2]; [|done].
  assert (keeps s s2) as Hk by (split; [done|]; intros ? _; apply H2; [done|by apply live_off]).
  case_match; intros [= <-]; [|done].
  split; [by eapply compositor_ok_core, Hk|]. intros He Hl. eapply live_core, Hk; done.
Qed.

Lemma keeps_repaint r s : ok s -> keeps s (addRepaint W r s).
Proof.
  intros Hs. split; [|by apply repaint_live].
  destruct (ok_settled _ Hs) as [Hon|Hoff].
  - by apply running_ok, running_repaint, ok_running.
  - unfold addRepaint. by rewrite Hoff.
Qed.

Lemma keeps_configChanged s s' : ok s -> configChanged W s = Some s' -> keeps s s'.
Proof.
  intros Hs. unfold configChanged. case_match; [intros [= <-]; by apply keeps_stop|].
  destruct (reinitialize W s) as [s1|] eqn:Hr; [|done]. cbn [mbind option_bind]. intros [= <-].
  apply keeps_reinitialize in Hr as [H1 H2]; [|done].
  destruct (keeps_repaint [mkRect 0 0 (sw (screens_size W)) (sh (screens_size W))] s1 H1) as [H3 H4].
  split; [done|]. intros Ho Hl. by apply H4, H2.
Qed.

(** *** Events *)

Lemma keeps_swapComplete s : ok s -> keeps s (bufferSwapComplete W s).
Proof.
  intros Hs. unfold bufferSwapComplete. destruct (m_bufferSwapPending s) eqn:Hp; cbn [negb]; [|by split].
  destruct (ok_settled _ Hs) as [Hon|Hoff].
  - split; [|intros _ _; apply timer_live]. apply running_ok, running_timer.
    destruct (ok_running _ Hs Hon) as (H1 & H2 & H3 & H4 & H5 & H6).
    split_and!; try done; apply paced_swap; [apply refreshRate_min|done].
  - destruct (ok_off _ Hs Hoff) as (_ & _ & _ & Hf & _). congruence.
Qed.

Lemma keeps_schedule s : ok s -> keeps s (schedule_repaint W s).
Proof.
  intros Hs. unfold schedule_repaint. case_bool_decide as Hon; cbn [negb]; [|by split].
  destruct (outputsEnabled W) eqn:Ho; cbn [negb]; [|by split].
  split; [by apply running_ok, running_timer, ok_running|]. intros _ _. apply timer_live.
Qed.

Lemma keeps_perform s s' : ok s -> compositeTimer s <> None -> performCompositing W s = Some s' -> keeps s s'.
Proof.
  intros Hs Ht Hp. split; [|intros Ho; by apply perform_live].
  eapply running_ok, running_perform; [done|]. apply ok_running; [done|].
  destruct (ok_settled _ Hs) as [?|Hoff]; [done|]. by destruct (ok_off _ Hs Hoff) as (_ & _ & Hn & _).
Qed.

(** The selection is let go of: everything else is as it was. *)
Lemma ok_not_owning o b s :
  ok s -> (o = Some true -> m_state s = On) -> ok (s <| m_selectionOwner := o |> <| m_releaseSelectionTimer := b |>).
Proof.
  intros [H1 H2 H3 H4 H5] Ho. split; cbn; try done. intros Hoff. destruct (H3 Hoff) as (? & ? & ? & ? & ? & _).
  split_and!; try done. intros ->. by rewrite (Ho eq_refl) in Hoff.
Qed.

Lemma keeps_release s : ok s -> keeps s (releaseCompositorSelection s).
Proof.
  intros Hs. assert (forall o b r, (o = Some true -> m_state s = On) ->
    keeps s (s <| m_selectionOwner := o |> <| m_releaseSelectionTimer := b |> <| requests := r |>)) as Hk.
  { intros o b r Ho. split; [|done]. eapply compositor_ok_core, (ok_not_owning o b); done. }
  destruct s as [st su ct [o|] rt up ut rr pc bs sc ef fr qu rq]; unfold releaseCompositorSelection, release_owner, ask;
    cbn in *; destruct (ok_settled _ Hs) as [Hst|Hst]; cbn in Hst; subst st.
  - by apply (Hk (Some o) false rq).
  - by apply (Hk (Some false) false (rq ++ [releaseSelection])).
  - by apply (Hk None false rq).
  - by apply (Hk None false rq).
Qed.

Lemma core_properties s : core (deleteUnusedSupportProperties W s) = core s.
Proof.
  assert (forall l s, core (foldl (fun s a => ask (deleteProperty a) s) s l) = core s) as Hf.
  { induction l as [|a l IH]; intros t; [done|]. cbn [foldl]. by rewrite IH. }
  intros. pose proof (Hf (m_unusedSupportProperties s) (s <| m_unusedSupportPropertyTimer := false |>)) as Hd.
  destruct s as [[] ? ? ? ? ? ? ? ? ? ? ? ? ? ?]; unfold deleteUnusedSupportProperties; cbn [m_state];
    destruct (x11Connection W); first [done|exact Hd].
Qed.

Lemma core_blocking o s : core (updateClientCompositeBlocking W o s) = core s.
Proof. unfold updateClientCompositeBlocking. by repeat case_match. Qed.

Lemma keeps_step e s s' : e <> EvWorkspaceDestroyed -> ok s -> step W e s = Some s' -> keeps s s'.
Proof.
  intros He Hs. destruct e; cbn [step]; intros Hst; try (injection Hst as <-).
  - by apply start_keeps.
  - case_match; [|injection Hst as <-; by split]. apply keeps_perform; [done|congruence|done].
  - case_match; [by apply keeps_release|by split].
  - case_match; [|by split]. apply keeps_core; [apply core_properties|done].
  - by apply keeps_core.
  - by apply keeps_core.
  - by apply keeps_repaint.
  - by apply keeps_schedule.
  - by apply keeps_swapComplete.
  - by apply keeps_configChanged.
  - by apply keeps_reinitialize.
  - unfold toggleCompositing in Hst. case_match; [by eapply keeps_resume|].
    injection Hst as <-. by apply keeps_suspend.
  - by apply keeps_suspend.
  - by eapply keeps_resume.
  - destruct (queue s) as [|[r|r] q]; [injection Hst as <-; by split|..].
    + injection Hst as <-. apply (keeps_from (s <| queue := q |>)); [done|apply keeps_suspend|done].
    + eapply (keeps_from (s <| queue := q |>)); [done| |done]. intros ?. by eapply keeps_resume.
  - apply keeps_core; [apply core_blocking|done].
  - case_match; [|by split].
    assert (ok (s <| m_selectionOwner := Some false |>)) as Ho.
    { apply (compositor_ok_core (s <| m_selectionOwner := Some false |> <| m_releaseSelectionTimer := m_releaseSelectionTimer s |>));
        [by destruct s|by apply ok_not_owning]. }
    destruct (keeps_stop _ Ho) as [H1 H2]. by split.
  - done.
Qed.

Lemma compositor_ok_step e s s' : ok s -> step W e s = Some s' -> ok s'.
Proof.
  intros Hs. assert (e = EvWorkspaceDestroyed \/ e <> EvWorkspaceDestroyed) as [->|He] by (destruct e; auto; by right);
    [|intros Hst; by eapply keeps_step].
  cbn. intros [= <-]. destruct Hs as [H1 H2 H3 H4 H5]. split; try done. cbn. intros Hoff.
  destruct (H3 Hoff) as (? & ? & ? & ? & ? & ?). by split_and!.
Qed.
End Steps.

Lemma compositor_ok_run l s s' : ok s -> Compositor.run l s = Some s' -> ok s'.
Proof.
  revert s. induction l as [|[W e] l IH]; intros s Hs; cbn; [by intros [= <-]|].
  destruct (step W e s) as [s1|] eqn:Hst; [|done]. cbn. apply IH. by eapply compositor_ok_step.
Qed.

Lemma live_run l s s' :
  Forall (fun x => outputsEnabled (fst x) = true /\ snd x <> EvWorkspaceDestroyed) l -> ok s -> live s -> Compositor.run l s = Some s' -> live s'.
Proof.
  revert s. induction l as [|[W e] l IH]; intros s Hl Hs Hv; cbn; [by intros [= <-]|]. inversion_clear Hl as [|? ? [Ho He] Hl'].
  destruct (step W e s) as [s1|] eqn:Hst; [|done]. cbn. apply keeps_step in Hst as [H1 H2]; [|done..].
  apply IH; auto.
Qed.

(** ** Painting *)

Definition is_swap (e : PaintEvent) : bool := match e with PaintSwap => true | _ => false end.
Definition swaps (l : list PaintEvent) : nat := length (List.filter is_swap l).

Lemma schedule_requests W s : requests (schedule_repaint W s) = requests s /\
  m_bufferSwapPending (schedule_repaint W s) = m_bufferSwapPending s.
Proof. unfold schedule_repaint, setCompositeTimer. by repeat case_match. Qed.

Lemma repaint_requests W r s : requests (addRepaint W r s) = requests s /\
  m_bufferSwapPending (addRepaint W r s) = m_bufferSwapPending s.
Proof. unfold addRepaint. case_match; [done|]. exact (schedule_requests W (s <| repaints_region := repaints_region s ++ r |>)). Qed.

(** Painting with at most one swap never hits the assertion. *)
Lemma paint_events_total W l s :
  (swaps l + (if m_bufferSwapPending s then 1 else 0) <= 1)%nat ->
  exists s', foldl (paint_event W) (Some s) l = Some s' /\ requests s' = requests s.
Proof.
  revert s. induction l as [|[r|] l IH]; intros s Hl; [by exists s|..]; cbn [foldl paint_event mbind option_bind].
  - destruct (repaint_requests W r s) as [H1 H2]. destruct (IH (addRepaint W r s)) as (s' & H3 & H4).
    { by rewrite H2. }
    exists s'. split; [done|congruence].
  - unfold swaps in Hl. cbn in Hl. unfold aboutToSwapBuffers. destruct (m_bufferSwapPending s); [lia|].
    destruct (IH (s <| m_bufferSwapPending := true |>)) as (s' & H3 & H4); [cbn; unfold swaps; lia|]. by exists s'.
Qed.

Lemma safepoint_requests p s r : r ∈ requests s -> r ∈ requests (create_opengl_safepoint p s).
Proof. intros Hr. unfold create_opengl_safepoint. repeat case_match; cbn; set_solver. Qed.

Lemma retard_requests W s : requests (retard_next_composition W s) = requests s.
Proof. unfold retard_next_composition, setCompositeTimer. by repeat case_match. Qed.

Lemma perform_paints W s :
  m_scene s <> None -> m_bufferSwapPending s = false -> Region.isEmpty (repaints_region s) = false ->
  outputsEnabled W = true -> (usesOverlayWindow W = true -> overlayWindowVisible W = true) ->
  (swaps (paint_events W) <= 1)%nat ->
  exists s', performCompositing W s = Some s' /\ paint (repaints_region s) ∈ requests s'.
Proof.
  intros Hsc Hsw Hr Ho Hv Hp. unfold performCompositing, isOverlayWindowVisible.
  destruct (m_scene s) as [t|] eqn:Ht; [|done].
  assert (usesOverlayWindow W && negb (usesOverlayWindow W && overlayWindowVisible W) = false) as ->.
  { destruct (usesOverlayWindow W); [by rewrite Hv|done]. }
  unfold prepare_composition. cbn -[Region.isEmpty]. rewrite Hsw, Ho, Hr. cbn -[create_opengl_safepoint].
  set (s1 := ask _ _). destruct (paint_events_total W (paint_events W) s1) as (s2 & H1 & H2).
  { assert (m_bufferSwapPending s1 = false) as ->; [|lia].
    subst s1. unfold create_opengl_safepoint. repeat case_match; done. }
  rewrite H1. cbn. eexists. split; [done|]. rewrite retard_requests. apply safepoint_requests. cbn. rewrite H2.
  subst s1. cbn. set_solver.
Qed.

(** ** The properties *)

(** C10: whatever happens from the constructor on, between two events the X11 compositor
    is either on, with a scene, with effects and without any reason to suspend, or it is
    off and nothing is left of the last run: no scene, no effects, no timer, no pending
    swap and no region to repaint; and it owns the compositing selection then only
    while the timer runs that gives it up, which it does when it fires. *)
Theorem compositor_consistent use frames l s :
  Compositor.run l (Compositor.initial use frames) = Some s ->
  (m_state s = On /\ m_scene s <> None /\ effects s = true /\ m_suspended s = NoReasonSuspend) \/
  (m_state s = Off /\ m_scene s = None /\ effects s = false /\ compositeTimer s = None /\
   m_bufferSwapPending s = false /\ repaints_region s = [] /\
   (m_selectionOwner s = Some true ->
    m_releaseSelectionTimer s = true /\
    forall W, exists s', Compositor.step W EvReleaseTimer s = Some s' /\
      m_selectionOwner s' = Some false /\ releaseSelection ∈ requests s')).
Proof.
  intros Hr. apply compositor_ok_run in Hr as Hs; [|apply compositor_ok_initial].
  destruct (ok_settled _ Hs) as [Hst|Hst]; [left; by destruct (ok_on _ Hs Hst)|right].
  destruct (ok_off _ Hs Hst) as (H1 & H2 & H3 & H4 & H5 & H6). split_and!; try done.
  intros Hown. pose proof (H6 Hown) as Ht. split; [done|]. intros W. eexists. split; [done|].
  rewrite Ht. unfold releaseCompositorSelection, release_owner. cbn. rewrite Hst. cbn. rewrite Hown. cbn.
  split; [done|set_solver].
Qed.

(** C36: the timer that is to start the next frame shortly before the next vertical blank
    never waits: the length of a refresh cycle, that the delay in nanoseconds is made
    of, is computed in milliseconds, so that the delay is at most sixteen nanoseconds
    and each started timer has an interval of zero. *)
Theorem frame_delay_never_waits use frames l s :
  Compositor.run l (Compositor.initial use frames) = Some s ->
  0 <= delay (pace s) <= 16 /\
  (forall t, compositeTimer s = Some t -> t = 0) /\
  forall W, refreshLength (refreshRate W) <= 16.
Proof.
  intros Hr. apply compositor_ok_run in Hr as Hs; [|apply compositor_ok_initial].
  split_and!; [apply (ok_pace _ Hs)..|apply (ok_timer _ Hs)|]. intros W. apply refreshLength_range, refreshRate_min.
Qed.

(** C18: while outputs are enabled and the workspace is there, no region that is to be repainted is forgotten: at
    any time that the compositor is on with such a region, either the timer runs and
    when it fires that very region is painted, or the swap of the last frame is awaited
    and after it the timer runs, with the region, and painting follows. The overlay
    window is visible, if there is one, and painting swaps at most once. *)
Theorem no_repaint_lost use frames l s W :
  Compositor.run l (Compositor.initial use frames) = Some s ->
  Forall (fun x => outputsEnabled (fst x) = true /\ snd x <> EvWorkspaceDestroyed) l ->
  m_state s = On -> Region.isEmpty (repaints_region s) = false ->
  outputsEnabled W = true -> (usesOverlayWindow W = true -> overlayWindowVisible W = true) ->
  (swaps (paint_events W) <= 1)%nat ->
  exists s1 s2,
    (s1 = s \/ m_bufferSwapPending s = true /\ Compositor.step W EvSwapComplete s = Some s1) /\
    repaints_region s1 = repaints_region s /\ compositeTimer s1 <> None /\
    Compositor.step W EvTimer s1 = Some s2 /\ paint (repaints_region s) ∈ requests s2.
Proof.
  intros Hr Hl Hon Hre Ho Hv Hp. destruct (compositor_ok_initial use frames) as [Hi1 Hi2].
  pose proof (compositor_ok_run _ _ _ Hi1 Hr) as Hs. pose proof (live_run _ _ _ Hl Hi1 Hi2 Hr) as Hlive.
  destruct (ok_running _ Hs Hon) as (_ & Hsc & _).
  assert (forall s1, m_scene s1 = m_scene s -> m_bufferSwapPending s1 = false -> repaints_region s1 = repaints_region s ->
    compositeTimer s1 <> None ->
    exists s2, Compositor.step W EvTimer s1 = Some s2 /\ paint (repaints_region s) ∈ requests s2) as Hpaint.
  { intros s1 E1 E2 E3 E4. cbn. destruct (compositeTimer s1); [|done]. rewrite <- E3. apply perform_paints; first [done|congruence]. }
  destruct (m_bufferSwapPending s) eqn:Hsw.
  - set (s1 := bufferSwapComplete W s).
    assert (m_scene s1 = m_scene s /\ m_bufferSwapPending s1 = false /\ repaints_region s1 = repaints_region s /\
      compositeTimer s1 <> None) as (E1 & E2 & E3 & E4).
    { subst s1. unfold bufferSwapComplete, setCompositeTimer. rewrite Hsw. cbn. done. }
    destruct (Hpaint s1 E1 E2 E3 E4) as (s2 & H1 & H2). exists s1, s2. split_and!; try done. right. by split.
  - assert (compositeTimer s <> None) as Ht by (destruct (Hlive Hon Hre); congruence).
    destruct (Hpaint s eq_refl Hsw eq_refl Ht) as (s2 & H1 & H2). exists s, s2. split_and!; try done. by left.
Qed.

(** ** Witnesses *)

(** One window of 1280 by 800 on a screen of 60 Hz, with OpenGL. *)
Definition wide : World :=
  mkWorld false true true [OpenGLCompositing; XRenderCompositing; NoCompositing] OpenGLCompositing
    (fun t => bool_decide (t = OpenGLCompositing)) true true false false true [60000] (mkSize 1280 800) true false
    4000000 [PaintSwap].

Definition session : list (World * Event) :=
  [(wide, EvStart); (wide, EvSwapComplete); (wide, EvRepaint [mkRect 0 0 10 10]); (wide, EvSuspend UserSuspend)].

Definition after (l : list (World * Event)) : State := default (Compositor.initial true 3) (Compositor.run l (Compositor.initial true 3)).

Lemma compositor_consistent_witness : m_state (after session) = Off /\ m_selectionOwner (after session) = Some true /\
  ((m_state (after session) = On /\ m_scene (after session) <> None /\ effects (after session) = true /\
    m_suspended (after session) = NoReasonSuspend) \/
   (m_state (after session) = Off /\ m_scene (after session) = None /\ effects (after session) = false /\
    compositeTimer (after session) = None /\ m_bufferSwapPending (after session) = false /\
    repaints_region (after session) = [] /\
    (m_selectionOwner (after session) = Some true ->
     m_releaseSelectionTimer (after session) = true /\
     forall W, exists s', Compositor.step W EvReleaseTimer (after session) = Some s' /\
       m_selectionOwner s' = Some false /\ releaseSelection ∈ requests s'))).
Proof. split; [by vm_compute|]. split; [by vm_compute|]. apply (compositor_consistent true 3 session). by vm_compute. Defined.

Lemma frame_delay_never_waits_witness : delay (pace (after (take 3 session))) = 0 /\ compositeTimer (after (take 3 session)) = Some 0 /\
  (0 <= delay (pace (after (take 3 session))) <= 16 /\
   (forall t, compositeTimer (after (take 3 session)) = Some t -> t = 0) /\
   forall W, refreshLength (refreshRate W) <= 16).
Proof.
  split; [by vm_compute|]. split; [by vm_compute|]. apply (frame_delay_never_waits true 3 (take 3 session)). by vm_compute.
Defined.

Lemma no_repaint_lost_witness : repaints_region (after (take 3 session)) = [mkRect 0 0 10 10] /\
  exists s1 s2,
    (s1 = after (take 3 session) \/
     m_bufferSwapPending (after (take 3 session)) = true /\ Compositor.step wide EvSwapComplete (after (take 3 session)) = Some s1) /\
    repaints_region s1 = repaints_region (after (take 3 session)) /\ compositeTimer s1 <> None /\
    Compositor.step wide EvTimer s1 = Some s2 /\ paint (repaints_region (after (take 3 session))) ∈ requests s2.
Proof.
  split; [by vm_compute|].
  apply (no_repaint_lost true 3 (take 3 session)); [by vm_compute|by repeat constructor|by vm_compute..|done|by vm_compute; lia].
Defined.

(** A refresh cycle of 60 Hz has 16666666 nanoseconds, not 16. *)
Example refresh_of_60Hz : refreshLength 60000 = 16.
Proof. reflexivity. Qed.

(** When every scene fails, the loop comes to the entry that must not be reached. *)
Example every_scene_fails :
  Compositor.step (wide <| creates_scene := fun _ => false |>) EvStart (Compositor.initial true 3) = None.
Proof. by vm_compute. Qed.
End CompositorProps.
