(* ===== verification/WaylandRender.v ===== *)
(** * Rendering and presentation of the outputs on Wayland
      (src/render/wayland/output.cpp, src/composite.cpp, src/presentation.cpp)

    Every output has a region to repaint, a timer and a pace of its own; the Wayland
    compositor hands regions to the outputs that they are on, a backend tells when a
    frame was swapped, and [Presentation] tells the clients when their surfaces were
    shown. [frameToMsc] (src/plugins/platforms/drm/drm_backend.cpp) counts the frames.

    Outputs, surfaces and times are numbers. A [World] says what the platform, the
    windows and the scene answer in one event; the windows that remain to be painted
    after the loop that takes others out are part of it. A [None] result is a failed
    assertion, a missing key of [std::map::at], a division by zero or the use of a
    null pointer. *)

From S2P Require Import Prelude Doubles Qt Compositor.

(** src/plugins/platforms/drm/drm_backend.cpp *)
Definition frameToMsc (msc frame : Z) : Z :=
  let mscHi := Z.shiftr msc 32 in
  let mscHi := if frame <? Z.land msc 0xffffffff then mscHi + 1 else mscHi in
  (Z.shiftl mscHi 32 + frame) mod 2 ^ 64.

Module WaylandRender.
Import Qt Pace Region.

(** Presentation::Kind. *)
Definition Vsync : Z := 1.
Definition HwClock : Z := 2.
Definition HwCompletion : Z := 4.

Record Window := mkWindow {
  surface : option Z;
  frameGeometry : QRect;
  window_repaints : region;           (** Toplevel::repaints *)
}.

Record World := mkWorld {
  geometry : Z -> QRect;              (** of an output *)
  refreshRate : Z -> Z;
  isEnabled : Z -> bool;
  base_msc : Z -> Z;
  outputsEnabled : bool;              (** Platform *)
  enabledOutputs : list Z;
  windows : list Window;              (** the stacking order *)
  painted : list Window;              (** those that are handed to the scene *)
  hasSwapEvent : bool;                (** Scene *)
  paint_duration : Z;
  paint_events : list Compositor.PaintEvent;
  screens_size : QSize;
  currentTime : Z;                    (** Presentation::currentTime *)
  lockPresentation : Z -> Z -> Z;     (** of a surface, for an output; zero: not asked for *)
  nsecsElapsed : Z;                   (** the fallback clock *)
  first_delay : Z;                    (** what a new output's delay happens to be *)
}.

Inductive Request :=
  | paint (base : Z) (r : region)
  | idleScene
  | frameRendered (surface time : Z)
  | presentationFeedback (surface id tvSecHi tvSecLo tvNsec refresh seqHi seqLo kinds : Z).

(** render::wayland::output. *)
Record Output := mkOutput {
  base : Z;
  pace : Pace;                        (** delay, last_paint_durations, paint_periods *)
  repaints_region : region;
  assigned_surfaces : list (Z * Z);   (** a std::map from identifiers to surfaces *)
  connections : list (Z * Z);         (** surface and identifier of resourceDestroyed *)
  idle : bool;
  swap_pending : bool;
  delay_timer : option Z;             (** the interval, while it is active *)
}.
#[global] Instance Output_eta : RecordEta Output := fun o =>
  mkOutput (base o) (pace o) (repaints_region o) (assigned_surfaces o) (connections o) (idle o) (swap_pending o)
    (delay_timer o).

(** The Wayland compositor with its presentation. *)
Record State := mkState {
  isActive : bool;                    (** and the effects exist *)
  outputs : list Output;              (** a std::map, in the order of the keys *)
  m_surfaces : list (Z * Z);          (** Presentation *)
  m_fallbackClock : bool;
  requests : list Request;
}.
#[global] Instance State_eta : RecordEta State := fun s =>
  mkState (isActive s) (outputs s) (m_surfaces s) (m_fallbackClock s) (requests s).

Implicit Types (o : Output) (s : State).

Definition ask (r : Request) s : State := s <| requests := requests s ++ [r] |>.

(** Insertion into a std::map that keeps what is there. *)
Fixpoint emplace {A} (key : A -> Z) (x : A) (l : list A) : list A :=
  match l with
  | [] => [x]
  | y :: l' => if key x <? key y then x :: l else if key x =? key y then l else y :: emplace key x l'
  end.

Definition at_base (b : Z) o : bool := base o =? b.
Definition find_output (b : Z) s : option Output := List.find (at_base b) (outputs s).
Definition update_output (b : Z) (f : Output -> Output) s : State :=
  s <| outputs := map (fun o => if at_base b o then f o else o) (outputs s) |>.

Section Operations.
Context (W : World).

(** *** One output *)

Definition set_delay_timer o : Output :=
  if bool_decide (delay_timer o <> None) || swap_pending o then o
  else o <| delay_timer := Some (wait_time (pace o)) |>.

Definition add_repaint (r : region) o : Output :=
  let capped_region := Region.intersected (geometry W (base o)) r in
  if Region.isEmpty capped_region then o
  else set_delay_timer (o <| repaints_region := repaints_region o ++ capped_region |>).

Definition refresh_length o : option Z :=
  if refreshRate W (base o) =? 0 then None else Some (refreshLength (refreshRate W (base o))).

Definition swapped o : option Output :=
  if negb (swap_pending o) then Some o
  else
    refresh ← refresh_length o;
    Some (set_delay_timer
      (o <| swap_pending := false |> <| pace := swap_delay (refreshRate W (base o)) (pace o) |> <| delay_timer := None |>)).

Definition retard_next_run o : option Output :=
  if hasSwapEvent W then Some o
  else
    refresh ← refresh_length o;
    Some (set_delay_timer (o <| pace := (pace o) <| delay := refresh |> |>)).

(** An output's own operation that may fail. *)
Definition try_output (b : Z) (f : Output -> option Output) s : option State :=
  o ← find_output b s; o ← f o; Some (update_output b (fun _ => o) s).

(** *** The compositor *)

(** WaylandCompositor::addRepaint, ::schedule_repaint and ::check_idle. *)
Definition addRepaint (r : region) s : State :=
  if negb (isActive s) then s else s <| outputs := map (add_repaint r) (outputs s) |>.

Definition schedule_repaint (visible_rect : QRect) s : State :=
  if negb (isActive s) then s
  else if negb (outputsEnabled W) then s
  else
    s <| outputs := map (fun o =>
      if negb (Qt.isEmpty (Qt.intersected visible_rect (geometry W (base o)))) then set_delay_timer o else o) (outputs s) |>.

Definition check_idle s : State := if forallb idle (outputs s) then ask idleScene s else s.

Definition has_repaints_on (b : Z) (w : Window) : bool :=
  negb (Region.isEmpty (window_repaints w)) &&
  negb (Region.isEmpty (Region.intersected (geometry W b) (window_repaints w))).

(** What the loop over the windows does for one with repaints on the output [b]: the
    other outputs that it is on are told. *)
Definition share_repaints (b : Z) s (w : Window) : State :=
  if has_repaints_on b w then
    s <| outputs := map (fun o => if at_base b o then o else add_repaint (window_repaints w) o) (outputs s) |>
  else s.

(** output::prepare_run; the region is what is to be painted. *)
Definition prepare_run (b : Z) s : option (State * option region) :=
  let s := update_output b (fun o => o <| delay_timer := None |>) s in
  o ← find_output b s;
  if swap_pending o then Some (s, None)
  else if negb (outputsEnabled W) then Some (s, None)
  else
    let s := foldl (share_repaints b) s (windows W) in
    if negb (isActive s) then None
    else if Region.isEmpty (repaints_region o) && negb (existsb (has_repaints_on b) (windows W)) then
      let s := check_idle (update_output b (fun o => o <| idle := true |>) s) in
      Some (update_output b (fun o => o <| pace := (pace o) <| delay := 0 |> |>) s, None)
    else
      Some (update_output b (fun o => o <| idle := false |> <| repaints_region := [] |>) s, Some (repaints_region o)).

(** *** Presentation *)

Definition area (w : Window) (b : Z) : Z :=
  let g := Qt.intersected (frameGeometry w) (geometry W b) in rw g * rh g.

(** The loop over the enabled outputs, from the first of them on. *)
Definition max_out (w : Window) (first : Z) : Z :=
  snd (foldl (fun m b => if fst m <? area w b then (area w b, b) else m) (0, first) (enabledOutputs W)).

Definition lock_window (b : Z) (acc : option State) (w : Window) : option State :=
  s ← acc;
  match surface w with
  | None => Some s
  | Some sf =>
      first ← head (enabledOutputs W);
      if negb (max_out w first =? b) then Some s
      else
        let s := ask (frameRendered sf (currentTime W)) s in
        let id := lockPresentation W sf b in
        if id =? 0 then Some s
        else
          Some (update_output b (fun o =>
            o <| assigned_surfaces := emplace fst (id, sf) (assigned_surfaces o) |>
              <| connections := connections o ++ [(sf, id)] |>) s)
  end.

Definition lock (b : Z) (ws : list Window) s : option State := foldl (lock_window b) (Some s) ws.

Definition NSEC_PER_SEC : Z := 1000000000.

(** timespecToProto: the seconds in two halves, and the rest. *)
Definition timespecToProto (tv_sec tv_nsec : Z) : option (Z * Z * Z) :=
  if (tv_sec <? 0) || (tv_nsec <? 0) || (NSEC_PER_SEC <=? tv_nsec) then None
  else Some (Z.shiftr tv_sec 32, Z.land tv_sec 0xffffffff, tv_nsec).

(** The refresh cycle in nanoseconds, of a rate in a thousandth of a hertz. *)
Definition refresh_ns (rate : Z) : Z :=
  let refreshLength := Doubles.div (Doubles.of_Z 1) (Doubles.of_Z rate) in
  let t := Doubles.of_Z 1000 in
  u32 (Doubles.to_int64 (Doubles.mul (Doubles.mul (Doubles.mul (Doubles.mul refreshLength t) t) t) t)).

Definition feedback (ts : Z * Z * Z) (refresh seq kinds : Z) s (x : Z * Z) : State :=
  let '(hi, lo, ns) := ts in
  ask (presentationFeedback (snd x) (fst x) hi lo ns refresh (Z.shiftr seq 32) (Z.land seq 0xffffffff) kinds) s.

Definition presented (b sec usec kinds : Z) s : option State :=
  if negb (isEnabled W b) then Some s
  else
    ts ← timespecToProto sec (u32 (usec * 1000));
    if negb (0 <? refreshRate W b) then None
    else
      o ← find_output b s;
      let s := foldl (feedback ts (refresh_ns (refreshRate W b)) (base_msc W b) kinds) s (assigned_surfaces o) in
      let gone := map snd (assigned_surfaces o) in
      Some (update_output b (fun o =>
        o <| connections := filter (fun c => fst c ∉ gone) (connections o) |> <| assigned_surfaces := [] |>) s).

Definition softwarePresented (kinds : Z) s : option State :=
  if negb (m_fallbackClock s) then None
  else
    let elapsed := nsecsElapsed W in
    let seconds := u32 (Doubles.to_int64 (Doubles.div (Doubles.of_Z elapsed) (Doubles.of_Z NSEC_PER_SEC))) in
    ts ← timespecToProto seconds (u32 (elapsed - seconds * NSEC_PER_SEC));
    b ← head (enabledOutputs W);
    let rate := refreshRate W b in
    if negb (0 <? rate) then None
    else
      let seq := Doubles.to_int64 (Doubles.div (Doubles.of_Z (Z.quot elapsed 1000000)) (Doubles.of_Z rate)) in
      Some ((foldl (feedback ts (refresh_ns rate) seq kinds) s (m_surfaces s)) <| m_surfaces := [] |>).

(** *** Painting and swapping *)

Definition paint_event (b : Z) (acc : option State) (e : Compositor.PaintEvent) : option State :=
  s ← acc;
  match e with
  | Compositor.PaintRepaint r => Some (addRepaint r s)
  | Compositor.PaintSwap =>
      try_output b (fun o => if swap_pending o then None else Some (o <| swap_pending := true |>)) s
  end.

(** output::run. *)
Definition run_output (b : Z) s : option State :=
  '(s, r) ← prepare_run b s;
  match (r : option region) with
  | None => Some s
  | Some r =>
      s ← foldl (paint_event b) (Some (ask (paint b r) s)) (paint_events W);
      s ← try_output b
            (fun o => retard_next_run (o <| pace := update_paint_periods (paint_duration W) (pace o) |>)) s;
      match painted W with [] => Some s | ws => lock b ws s end
  end.

(** WaylandCompositor::performCompositing. *)
Definition performCompositing s : option State :=
  foldl (fun acc b => s ← acc; run_output b s) (Some s) (map base (outputs s)).

(** output::swapped_sw and ::swapped_hw, with WaylandCompositor::swapped. *)
Definition swapped_sw (b : Z) s : option State :=
  _ ← find_output b s;
  s ← softwarePresented Vsync s; try_output b swapped s.

Definition swapped_hw (b sec usec : Z) s : option State :=
  _ ← find_output b s;
  s ← presented b sec usec (Z.lor (Z.lor Vsync HwClock) HwCompletion) s; try_output b swapped s.

(** A new output, as its constructor leaves it. *)
Definition new_output (b : Z) : Output := mkOutput b (mkPace (first_delay W) 0 0 0) [] [] [] true false None.
Definition output_added (b : Z) s : State := s <| outputs := emplace base (new_output b) (outputs s) |>.
Definition output_removed (b : Z) s : State := s <| outputs := List.filter (fun o => negb (at_base b o)) (outputs s) |>.

(** The surface's resourceDestroyed. *)
Definition surface_destroyed (sf : Z) s : State :=
  s <| outputs := map (fun o =>
    let ids := map snd (List.filter (fun c => fst c =? sf) (connections o)) in
    o <| assigned_surfaces := filter (fun x => fst x ∉ ids) (assigned_surfaces o) |>
      <| connections := List.filter (fun c => negb (fst c =? sf)) (connections o) |>) (outputs s) |>.

(** The end of Compositor::startupWithWorkspace. *)
Definition started s : option State :=
  performCompositing
    (addRepaint [mkRect 0 0 (sw (screens_size W)) (sh (screens_size W))] (s <| isActive := true |>)).

(** *** Events *)

Inductive Event :=
  | EvTimer (b : Z)
  | EvSwappedSw (b : Z)
  | EvSwappedHw (b sec usec : Z)
  | EvRepaint (r : region)
  | EvScheduleWindow (visible_rect : QRect)
  | EvOutputAdded (b : Z)
  | EvOutputRemoved (b : Z)
  | EvSurfaceDestroyed (sf : Z)
  | EvStarted
  | EvStopped
  | EvWorkspaceDestroyed.

Definition step (e : Event) s : option State :=
  match e with
  | EvTimer b =>
      match find_output b s ≫= delay_timer with Some _ => run_output b s | None => Some s end
  | EvSwappedSw b => swapped_sw b s
  | EvSwappedHw b sec usec => swapped_hw b sec usec s
  | EvRepaint r => Some (addRepaint r s)
  | EvScheduleWindow r => Some (schedule_repaint r s)
  | EvOutputAdded b => Some (output_added b s)
  | EvOutputRemoved b => Some (output_removed b s)
  | EvSurfaceDestroyed sf => Some (surface_destroyed sf s)
  | EvStarted => started s
  | EvStopped => Some (s <| isActive := false |>)
  | EvWorkspaceDestroyed => Some (s <| outputs := map (fun o => o <| delay_timer := None |>) (outputs s) |>)
  end.

(** The constructor, with [fallback] when the platform gives no clock. *)
Definition initial (fallback : bool) : State :=
  mkState false (foldl (fun l b => emplace base (new_output b) l) [] (enabledOutputs W)) [] fallback [].
End Operations.

Fixpoint run (l : list (World * Event)) s : option State :=
  match l with
  | [] => Some s
  | (W, e) :: l' => s ← step W e s; run l' s
  end.
End WaylandRender.
