(* ===== verification/WaylandRenderProps.v ===== *)
(** * Properties of rendering on Wayland ([WaylandRender])

    No region is forgotten on any output, a surface is presented on the output that
    shows most of it, and presentation without hardware clock tells nobody. *)

From Stdlib Require Import Sorting.Sorted.
From S2P Require Import Prelude Doubles Qt Compositor CompositorProps WaylandRender.

(** ** The counter of frames *)

(** The counter becomes the least number not below it with the given lower half. *)
Lemma frameToMsc_least msc frame :
  0 <= msc < 2 ^ 64 - 2 ^ 32 -> 0 <= frame < 2 ^ 32 ->
  msc <= frameToMsc msc frame < msc + 2 ^ 32 /\ frameToMsc msc frame mod 2 ^ 32 = frame.
Proof.
  intros Hm Hf. unfold frameToMsc. change 0xffffffff with (Z.ones 32). rewrite Z.land_ones, Z.shiftr_div_pow2 by lia.
  pose proof (Z.div_mod msc (2 ^ 32) ltac:(lia)) as Hd. pose proof (Z.mod_pos_bound msc (2 ^ 32) ltac:(lia)) as Hb.
  rewrite Z.shiftl_mul_pow2 by lia.
  assert (forall q, 0 <= q -> q * 2 ^ 32 + frame < 2 ^ 64 -> (q * 2 ^ 32 + frame) mod 2 ^ 64 = q * 2 ^ 32 + frame) as Hq.
  { intros q H1 H2. apply Z.mod_small. lia. }
  assert (forall q, (q * 2 ^ 32 + frame) mod 2 ^ 32 = frame) as Hlow.
  { intros q. rewrite Z.add_comm, Z_mod_plus_full, Z.mod_small; lia. }
  destruct (Z.ltb_spec frame (msc mod 2 ^ 32)); rewrite Hq, Hlow by lia; lia.
Qed.

Module WaylandRenderProps.
Import Qt Pace WaylandRender.

(** ** Lists of outputs *)

Definition bases (s : State) : list Z := map base (outputs s).
Definition sorted (s : State) : Prop := StronglySorted Z.lt (bases s).

Lemma emplace_in {A} (key : A -> Z) x l y : y ∈ emplace key x l -> y = x \/ y ∈ l.
Proof.
  induction l as [|z l IH]; cbn; [set_solver|]. destruct (Z.ltb_spec (key x) (key z)); [set_solver|].
  destruct (Z.eqb_spec (key x) (key z)); set_solver.
Qed.

Lemma emplace_sorted {A} (key : A -> Z) x l :
  StronglySorted Z.lt (map key l) -> StronglySorted Z.lt (map key (emplace key x l)).
Proof.
  induction l as [|z l IH]; cbn; [by repeat constructor|]. intros Hs. inversion_clear Hs as [|? ? Hl Hz].
  destruct (Z.ltb_spec (key x) (key z)); cbn.
  - constructor; [by constructor|]. constructor; [done|]. eapply Forall_impl; [done|]. cbn. lia.
  - destruct (Z.eqb_spec (key x) (key z)); cbn; [by constructor|]. constructor; [by apply IH|].
    apply Forall_forall. intros k (y & -> & [->|Hy]%emplace_in)%list_elem_of_fmap; [lia|].
    rewrite Forall_forall in Hz. apply Hz. by apply list_elem_of_fmap_2.
Qed.

Lemma filter_sorted {A} (key : A -> Z) (f : A -> bool) l :
  StronglySorted Z.lt (map key l) -> StronglySorted Z.lt (map key (List.filter f l)).
Proof.
  induction l as [|z l IH]; cbn; [done|]. intros Hs. inversion_clear Hs as [|? ? Hl Hz].
  case_match; [|by apply IH]. cbn. constructor; [by apply IH|]. apply Forall_forall. intros k (y & -> & Hy)%list_elem_of_fmap.
  rewrite Forall_forall in Hz. apply Hz, list_elem_of_fmap_2. apply list_elem_of_In, filter_In in Hy as [Hy _]. by apply list_elem_of_In.
Qed.

Lemma sorted_find s o : sorted s -> o ∈ outputs s -> find_output (base o) s = Some o.
Proof.
  unfold sorted, bases, find_output. induction (outputs s) as [|z l IH]; cbn; [set_solver|].
  intros Hs Ho. inversion_clear Hs as [|? ? Hl Hz]. unfold at_base at 1. apply elem_of_cons in Ho as [->|Ho].
  - by rewrite Z.eqb_refl.
  - rewrite Forall_forall in Hz. pose proof (Hz _ (list_elem_of_fmap_2 base l o Ho)).
    destruct (Z.eqb_spec (base z) (base o)); [lia|]. by apply IH.
Qed.

Lemma found b s o : find_output b s = Some o -> o ∈ outputs s /\ base o = b.
Proof. intros [Hi Hb]%find_some. split; [by apply list_elem_of_In|]. unfold at_base in Hb. lia. Qed.

(** Operations on the outputs that keep their bases. *)
Definition keeps_base (f : Output -> Output) : Prop := forall o, base (f o) = base o.

Lemma bases_map f s : keeps_base f -> bases (s <| outputs := map f (outputs s) |>) = bases s.
Proof. intros Hf. unfold bases. cbn. rewrite map_map. by apply map_ext. Qed.

Lemma bases_update b f s : keeps_base f -> bases (update_output b f s) = bases s.
Proof. intros Hf. apply bases_map. intros o. by case_match. Qed.

Lemma find_update b c f s : keeps_base f ->
  find_output c (update_output b f s) = (fun o => if c =? b then f o else o) <$> find_output c s.
Proof.
  intros Hf. unfold find_output, update_output. cbn. induction (outputs s) as [|o l IH]; [done|]. cbn.
  unfold at_base in IH |- *. cbn. assert (base (if base o =? b then f o else o) = base o) as -> by (destruct (base o =? b); [apply Hf|done]).
  destruct (Z.eqb_spec (base o) c) as [<-|]; [|done]. done.
Qed.

(** ** Nothing to repaint is forgotten *)

Definition live (o : Output) : Prop :=
  Region.isEmpty (repaints_region o) = false -> delay_timer o <> None \/ swap_pending o = true.
Definition inv (s : State) : Prop := sorted s /\ Forall live (outputs s).

Section Steps.
Context (W : World).

Lemma base_set_delay_timer o : base (set_delay_timer o) = base o.
Proof. unfold set_delay_timer. by case_match. Qed.

Lemma set_delay_timer_live o : live (set_delay_timer o).
Proof.
  unfold live, set_delay_timer. destruct (bool_decide (delay_timer o <> None)) eqn:Ht; cbn.
  - apply bool_decide_eq_true in Ht. by left.
  - destruct (swap_pending o) eqn:Hp; [by right|by left].
Qed.

Lemma base_add_repaint r : keeps_base (add_repaint W r).
Proof. intros o. unfold add_repaint. case_match; [done|]. by rewrite base_set_delay_timer. Qed.

Lemma add_repaint_live r o : live o -> live (add_repaint W r o).
Proof. intros Ho. unfold add_repaint. case_match; [done|apply set_delay_timer_live]. Qed.

Lemma base_swapped o o' : swapped W o = Some o' -> base o' = base o.
Proof.
  unfold swapped, refresh_length. repeat case_match; cbn [mbind option_bind]; try done; intros [= <-]; [done|].
  by rewrite base_set_delay_timer.
Qed.

Lemma swapped_live o o' : swapped W o = Some o' -> live o -> live o'.
Proof.
  unfold swapped, refresh_length. repeat case_match; cbn [mbind option_bind]; try done; intros [= <-]; [done|].
  intros _. apply set_delay_timer_live.
Qed.

Lemma base_retard o o' : retard_next_run W o = Some o' -> base o' = base o.
Proof.
  unfold retard_next_run, refresh_length. repeat case_match; cbn [mbind option_bind]; try done; intros [= <-]; [done|].
  by rewrite base_set_delay_timer.
Qed.

Lemma output_retard_live o o' : retard_next_run W o = Some o' -> live o -> live o'.
Proof.
  unfold retard_next_run, refresh_length. repeat case_match; cbn [mbind option_bind]; try done; intros [= <-]; [done|].
  intros _. apply set_delay_timer_live.
Qed.

(** *** Whole states *)

Lemma inv_outputs s s' : outputs s' = outputs s -> inv s -> inv s'.
Proof. unfold inv, sorted, bases. by intros ->. Qed.

Lemma inv_map f s : keeps_base f -> (forall o, live o -> live (f o)) -> inv s -> inv (s <| outputs := map f (outputs s) |>).
Proof.
  intros Hb Hf [H1 H2]. split; [by unfold sorted; rewrite bases_map|]. cbn. apply Forall_map.
  eapply Forall_impl; [done|]. apply Hf.
Qed.

Lemma inv_update b f s : keeps_base f -> (forall o, live o -> live (f o)) -> inv s -> inv (update_output b f s).
Proof. intros Hb Hf. apply inv_map; intros o; case_match; auto. Qed.

Lemma inv_try b f s s' :
  (forall o o', f o = Some o' -> base o' = base o) -> (forall o o', f o = Some o' -> live o -> live o') ->
  try_output b f s = Some s' -> inv s -> inv s'.
Proof.
  unfold try_output. intros Hb Hf Ht [H1 H2]. destruct (find_output b s) as [o|] eqn:Ho; [|done]. cbn in Ht.
  destruct (f o) as [o'|] eqn:Hfo; [|done]. cbn in Ht. injection Ht as <-.
  apply found in Ho as [Ho Hbo]. pose proof (Hb _ _ Hfo) as Hb'.
  rewrite Forall_forall in H2. split.
  - unfold sorted, bases, update_output in *. cbn. rewrite map_map.
    erewrite map_ext; [done|]. intros z. cbn. unfold at_base. destruct (Z.eqb_spec (base z) b); congruence.
  - cbn. apply Forall_map, Forall_forall. intros z Hz. cbn. case_match; [|by apply H2]. eapply Hf; [done|by apply H2].
Qed.

Lemma inv_ask r s : inv s -> inv (ask r s).
Proof. by apply inv_outputs. Qed.

Lemma inv_addRepaint r s : inv s -> inv (addRepaint W r s).
Proof. intros Hs. unfold addRepaint. case_match; [done|]. apply inv_map; [apply base_add_repaint|by intros; apply add_repaint_live|done]. Qed.

Lemma inv_schedule r s : inv s -> inv (schedule_repaint W r s).
Proof.
  intros Hs. unfold schedule_repaint. repeat case_match; try done. apply inv_map; [|intros o ?|done].
  - intros o. case_match; [apply base_set_delay_timer|done].
  - case_match; [apply set_delay_timer_live|done].
Qed.

(** *** Running an output *)

(** All outputs but [b] are live. *)
Definition others_live (b : Z) (s : State) : Prop := sorted s /\ Forall (fun o => base o <> b -> live o) (outputs s).

Lemma others_update b f s o :
  others_live b s -> find_output b s = Some o -> keeps_base f -> live (f o) -> inv (update_output b f s).
Proof.
  intros [H1 H2] Ho Hf Hl. split; [by unfold sorted; rewrite bases_update|]. cbn.
  apply Forall_map, Forall_forall. intros z Hz. cbn. unfold at_base. destruct (Z.eqb_spec (base z) b) as [<-|Hb].
  - rewrite (sorted_find _ _ H1 Hz) in Ho. by injection Ho as ->.
  - rewrite Forall_forall in H2. by apply H2.
Qed.

Lemma others_stop b s : inv s -> others_live b (update_output b (fun o => o <| delay_timer := None |>) s).
Proof.
  intros [H1 H2]. split; [by unfold sorted; rewrite bases_update|]. cbn. apply Forall_map.
  eapply Forall_impl; [done|]. intros o Ho. unfold at_base. destruct (Z.eqb_spec (base o) b); cbn; done.
Qed.

Lemma others_share b ws s :
  others_live b s ->
  let s' := foldl (share_repaints W b) s ws in
  others_live b s' /\ find_output b s' = find_output b s /\ isActive s' = isActive s /\ requests s' = requests s.
Proof.
  revert s. induction ws as [|w ws IH]; intros s Hs; [done|]. cbn [foldl].
  assert (others_live b (share_repaints W b s w) /\ find_output b (share_repaints W b s w) = find_output b s /\
    isActive (share_repaints W b s w) = isActive s /\ requests (share_repaints W b s w) = requests s) as (H1 & H2 & H3 & H4).
  { unfold share_repaints. case_match; [|done]. destruct Hs as [Hs Hl]. split_and!; try done.
    - split.
      + unfold sorted. rewrite bases_map; [done|]. intros o. case_match; [done|apply base_add_repaint].
      + cbn. apply Forall_map. eapply Forall_impl; [done|]. cbn. intros o Ho. unfold at_base.
        destruct (Z.eqb_spec (base o) b); [done|]. intros _. by apply add_repaint_live, Ho.
    - unfold find_output. cbn. clear. induction (outputs s) as [|o l IHl]; [done|]. cbn.
      destruct (at_base b o) eqn:Ho; unfold at_base in *; rewrite ?base_add_repaint, Ho; [done|apply IHl]. }
  destruct (IH _ H1) as (H5 & H6 & H7 & H8). split_and!; [done|congruence..].
Qed.

Lemma update_id b s : update_output b (fun o => o) s = s.
Proof.
  unfold update_output. assert (map (fun o => if at_base b o then o else o) (outputs s) = outputs s) as ->; [|by destruct s].
  rewrite <- map_id. apply map_ext. intros z. by case_match.
Qed.

Lemma inv_prepare b s s' r :
  outputsEnabled W = true -> prepare_run W b s = Some (s', r) -> inv s -> inv s'.
Proof.
  intros Ho Hp Hs. unfold prepare_run in Hp. apply (others_stop b) in Hs as Hs1.
  set (s1 := update_output b _ s) in *. destruct (find_output b s1) as [o|] eqn:Hf; [|done]. cbn [mbind option_bind] in Hp.
  destruct (swap_pending o) eqn:Hsw.
  { injection Hp as <- _. rewrite <- (update_id b s1). eapply others_update; [done..|]. by right. }
  rewrite Ho in Hp. cbn [negb] in Hp. destruct (others_share b (windows W) s1 Hs1) as (H1 & H2 & H3 & _).
  case_match; [done|]. destruct (Region.isEmpty (repaints_region o) && _) eqn:He; injection Hp as <- <-.
  - apply andb_true_iff in He as [He _].
    apply inv_update; [done|done|]. unfold check_idle. assert (inv (update_output b (fun o => o <| idle := true |>)
      (foldl (share_repaints W b) s1 (windows W)))) as Hi.
    { eapply others_update; [done|by rewrite H2|done|]. intros Hne. change (Region.isEmpty (repaints_region o) = false) in Hne. congruence. }
    case_match; [by apply inv_ask|done].
  - eapply others_update; [done|by rewrite H2|done|]. done.
Qed.

Lemma fold_none {A} (f : option State -> A -> option State) l : (forall x, f None x = None) -> foldl f None l = None.
Proof. intros Hf. induction l as [|x l IH]; [done|]. cbn. by rewrite Hf. Qed.

(** Folding an operation that may fail. *)
Lemma fold_keeps {A} (P : State -> Prop) (f : A -> State -> option State) l s s' :
  (forall x s s', f x s = Some s' -> P s -> P s') ->
  foldl (fun acc x => s ← acc; f x s) (Some s) l = Some s' -> P s -> P s'.
Proof.
  intros Hf. revert s. induction l as [|x l IH]; intros s; [by intros [= <-]|]. cbn [foldl mbind option_bind].
  destruct (f x s) as [s1|] eqn:Hx; [|by rewrite fold_none]. intros Hl Hs. eapply IH; [done|by eapply Hf].
Qed.

Definition paint_one (b : Z) (e : Compositor.PaintEvent) (s : State) : option State := paint_event W b (Some s) e.

Lemma paint_events_fold b l acc :
  foldl (paint_event W b) acc l = foldl (fun acc e => s ← acc; paint_one b e s) acc l.
Proof. revert acc. induction l as [|e l IH]; intros acc; [done|]. cbn. rewrite IH. by destruct acc. Qed.

Lemma inv_paint b e s s' : paint_one b e s = Some s' -> inv s -> inv s'.
Proof.
  destruct e; cbn [paint_one paint_event mbind option_bind].
  - intros [= <-]. apply inv_addRepaint.
  - apply inv_try; intros o o'; case_match; try done; intros [= <-]; [done|]. by right.
Qed.

Definition lock_one (b : Z) (w : Window) (s : State) : option State := lock_window W b (Some s) w.

Lemma lock_fold b l acc :
  foldl (lock_window W b) acc l = foldl (fun acc w => s ← acc; lock_one b w s) acc l.
Proof. revert acc. induction l as [|e l IH]; intros acc; [done|]. cbn. rewrite IH. by destruct acc. Qed.

Lemma inv_lock b w s s' : lock_one b w s = Some s' -> inv s -> inv s'.
Proof.
  unfold lock_one, lock_window. cbn [mbind option_bind]. intros Hl Hs.
  destruct (surface w) as [sf|]; [|by injection Hl as <-].
  destruct (head (enabledOutputs W)) as [first|]; [|done]. cbn [mbind option_bind] in Hl.
  case_match; [by injection Hl as <-|].
  case_match; injection Hl as <-; [by apply inv_ask|]. apply inv_update; [done|done|by apply inv_ask].
Qed.

Lemma inv_run b s s' : outputsEnabled W = true -> run_output W b s = Some s' -> inv s -> inv s'.
Proof.
  intros Ho Hr Hs. unfold run_output in Hr. destruct (prepare_run W b s) as [[s1 [r|]]|] eqn:Hp; [..|done];
    cbn [mbind option_bind] in Hr; apply inv_prepare in Hp; try done; [|by injection Hr as <-].
  destruct (foldl _ _ _) as [s2|] eqn:Hf; [|done]. rewrite paint_events_fold in Hf.
  apply (fold_keeps inv) in Hf; [|intros ? ? ?; apply inv_paint|by apply inv_ask]. cbn [mbind option_bind] in Hr.
  destruct (try_output b _ s2) as [s3|] eqn:Ht; [|done]. cbn [mbind option_bind] in Hr.
  apply inv_try in Ht; [..|done].
  - destruct (painted W) as [|w ws]; [by injection Hr as <-|]. unfold lock in Hr. rewrite lock_fold in Hr.
    apply (fold_keeps inv) in Hr; [done| |done]. intros ? ? ?. apply inv_lock.
  - intros o o' Hre. by apply base_retard in Hre.
  - intros o o' Hre Hl. by apply output_retard_live in Hre.
Qed.

(** *** Events *)

Lemma feedback_fold ts refresh seq kinds l s :
  foldl (feedback ts refresh seq kinds) s l =
  s <| requests := requests s ++ map (fun x => presentationFeedback (snd x) (fst x) ts.1.1 ts.1.2 ts.2 refresh
    (Z.shiftr seq 32) (Z.land seq 0xffffffff) kinds) l |>.
Proof.
  revert s. destruct ts as [[hi lo] ns]. induction l as [|x l IH]; intros s; cbn [foldl map].
  - rewrite app_nil_r. by destruct s.
  - rewrite IH. unfold feedback, ask. cbn. by rewrite <- app_assoc.
Qed.

Lemma inv_presented b sec usec k s s' : presented W b sec usec k s = Some s' -> inv s -> inv s'.
Proof.
  unfold presented. intros Hp Hs. case_match; [by injection Hp as <-|].
  destruct (timespecToProto _ _) as [ts|]; [|done]. cbn [mbind option_bind] in Hp. case_match; [done|].
  destruct (find_output b s) as [o|]; [|done]. cbn [mbind option_bind] in Hp. injection Hp as <-.
  rewrite feedback_fold. apply inv_update; [done|done|]. by eapply inv_outputs.
Qed.

Lemma softwarePresented_outputs k s s' : softwarePresented W k s = Some s' ->
  outputs s' = outputs s /\ m_surfaces s' = [] /\ (m_surfaces s = [] -> requests s' = requests s).
Proof.
  unfold softwarePresented. case_match; [done|].
  destruct (timespecToProto _ _) as [ts|]; [|done]. cbn [mbind option_bind].
  destruct (head _) as [b|]; [|done]. cbn [mbind option_bind]. case_match; [done|]. intros [= <-].
  rewrite feedback_fold. split_and!; try done. cbn. intros ->. cbn. by rewrite app_nil_r.
Qed.

Lemma inv_step e s s' :
  outputsEnabled W = true -> e <> EvWorkspaceDestroyed -> step W e s = Some s' -> inv s -> inv s'.
Proof.
  intros Ho He Hst Hs. destruct e; cbn [step] in Hst; try (injection Hst as <-).
  - case_match; [by eapply inv_run|by injection Hst as <-].
  - unfold swapped_sw in Hst. destruct (find_output b s); [|done]. cbn [mbind option_bind] in Hst.
    destruct (softwarePresented W Vsync s) as [s1|] eqn:Hp; [|done]. cbn [mbind option_bind] in Hst.
    apply softwarePresented_outputs in Hp as [Hp _]. apply (inv_outputs _ s1) in Hs; [|done].
    eapply inv_try; [..|done|done]; intros ? ?; [apply base_swapped|apply swapped_live].
  - unfold swapped_hw in Hst. destruct (find_output b s); [|done]. cbn [mbind option_bind] in Hst.
    destruct (presented _ _ _ _ _ s) as [s1|] eqn:Hp; [|done]. cbn [mbind option_bind] in Hst.
    apply inv_presented in Hp; [|done].
    eapply inv_try; [..|done|done]; intros ? ?; [apply base_swapped|apply swapped_live].
  - by apply inv_addRepaint.
  - by apply inv_schedule.
  - destruct Hs as [H1 H2]. split; [by apply emplace_sorted|]. apply Forall_forall. intros z [->|Hin]%emplace_in; [done|].
    rewrite Forall_forall in H2. by apply H2.
  - destruct Hs as [H1 H2]. split; [by apply filter_sorted|]. rewrite Forall_forall in H2 |- *. intros o Hin.
    apply H2. apply list_elem_of_In, filter_In in Hin as [Hin _]. by apply list_elem_of_In.
  - apply inv_map; done.
  - unfold started, WaylandRender.performCompositing in Hst. eapply (fold_keeps inv) in Hst; [done| |].
    + intros b t t'. by apply inv_run.
    + by apply inv_addRepaint, (inv_outputs s).
  - by apply (inv_outputs s).
  - done.
Qed.

(** *** Painting *)

Lemma find_map_outputs b f s : keeps_base f ->
  find_output b (s <| outputs := map f (outputs s) |>) = f <$> find_output b s.
Proof.
  intros Hf. unfold find_output. cbn. induction (outputs s) as [|o l IH]; [done|]. cbn.
  unfold at_base in IH |- *. rewrite Hf. by case_match.
Qed.

Lemma pending_add_repaint r o : swap_pending (add_repaint W r o) = swap_pending o.
Proof. unfold add_repaint, set_delay_timer. by repeat case_match. Qed.

Lemma try_output_some b f s o o' :
  find_output b s = Some o -> f o = Some o' -> base o' = base o ->
  exists s', try_output b f s = Some s' /\ find_output b s' = Some o' /\ requests s' = requests s.
Proof.
  intros Ho Hf Hb. unfold try_output. rewrite Ho. cbn. rewrite Hf. cbn. eexists. split_and!; [done| |done].
  apply found in Ho as Hbo. destruct Hbo as [_ Hbo]. unfold find_output, update_output in *. cbn.
  induction (outputs s) as [|z l IH]; [done|]. cbn in Ho |- *. destruct (at_base b z) eqn:Hz.
  - unfold at_base. rewrite Hb, Hbo, Z.eqb_refl. done.
  - rewrite Hz. by apply IH.
Qed.

Lemma output_paint_total b l s o :
  find_output b s = Some o -> (CompositorProps.swaps l + (if swap_pending o then 1 else 0) <= 1)%nat ->
  exists s' o', foldl (paint_event W b) (Some s) l = Some s' /\ find_output b s' = Some o' /\ requests s' = requests s.
Proof.
  revert s o. induction l as [|[r|] l IH]; intros s o Ho Hl; [by exists s, o|..]; cbn [foldl paint_event mbind option_bind].
  - unfold addRepaint. destruct (isActive s); cbn [negb]; [|by eapply IH].
    edestruct (IH (s <| outputs := map (add_repaint W r) (outputs s) |>)) as (s' & o' & ? & ? & ?).
    + rewrite find_map_outputs by apply base_add_repaint. by rewrite Ho.
    + by rewrite pending_add_repaint.
    + by exists s', o'.
  - unfold CompositorProps.swaps in *. cbn in Hl. destruct (swap_pending o) eqn:Hsw; [lia|].
    destruct (try_output_some b (fun o => if swap_pending o then None else Some (o <| swap_pending := true |>))
      s o (o <| swap_pending := true |>)) as (s1 & H1 & H2 & H3); [done|by rewrite Hsw|done|].
    rewrite H1. destruct (IH s1 _ H2) as (s' & o' & ? & ? & ?); [cbn; lia|]. exists s', o'. by rewrite <- H3.
Qed.

Lemma lock_total b ws s :
  enabledOutputs W <> [] -> exists s', lock W b ws s = Some s' /\ forall r, r ∈ requests s -> r ∈ requests s'.
Proof.
  intros He. unfold lock. revert s. induction ws as [|w ws IH]; intros s; [by exists s|]. cbn [foldl].
  assert (exists s1, lock_window W b (Some s) w = Some s1 /\ forall r, r ∈ requests s -> r ∈ requests s1) as (s1 & -> & H1).
  { unfold lock_window. cbn. destruct (surface w); [|by exists s]. destruct (enabledOutputs W) as [|first l]; [done|].
    cbn. case_match; [by exists s|]. case_match; eexists; (split; [done|]); cbn; set_solver. }
  destruct (IH s1) as (s' & H2 & H3). exists s'. auto.
Qed.

Lemma retard_total o : WaylandRender.refreshRate W (base o) <> 0 -> exists o', retard_next_run W o = Some o'.
Proof.
  intros Hr. unfold retard_next_run, refresh_length. case_match; [by eexists|].
  destruct (Z.eqb_spec (WaylandRender.refreshRate W (base o)) 0); [done|]. by eexists.
Qed.

(** What the platform, the scene and the backend grant for painting the output [b]. *)
Record can_paint (b : Z) : Prop := mkCanPaint {
  enabled_outputs : outputsEnabled W = true;
  rate_known : 0 < WaylandRender.refreshRate W b;
  swaps_once : (CompositorProps.swaps (paint_events W) <= 1)%nat;
  some_output : painted W = [] \/ enabledOutputs W <> [];
}.

Lemma prepare_paints b s o :
  outputsEnabled W = true -> inv s -> isActive s = true -> find_output b s = Some o ->
  swap_pending o = false -> Region.isEmpty (repaints_region o) = false ->
  exists s1 o1, prepare_run W b s = Some (s1, Some (repaints_region o)) /\ find_output b s1 = Some o1 /\
    base o1 = b /\ swap_pending o1 = false.
Proof.
  intros He Hs Ha Ho Hp Hr. unfold prepare_run. cbv zeta.
  pose proof (others_share b (windows W) _ (others_stop b s Hs)) as (_ & Hf & Hact & _).
  apply found in Ho as Hb. destruct Hb as [_ Hb].
  assert (find_output b (update_output b (fun o => o <| delay_timer := None |>) s) = Some (o <| delay_timer := None |>)) as H0.
  { rewrite find_update, Ho by done. cbn. by rewrite Z.eqb_refl. }
  rewrite H0 in Hf |- *. set (o0 := o <| delay_timer := None |>) in *. set (s0 := update_output b _ s) in *.
  assert (swap_pending o0 = false) as Hp0 by done. assert (Region.isEmpty (repaints_region o0) = false) as Hr0 by done.
  cbn [mbind option_bind]. rewrite Hp0, He. cbn [negb].
  assert (isActive s0 = true) as Ha0 by done. rewrite Hact, Ha0, Hr0. cbn [negb andb].
  eexists _, _. split; [done|]. rewrite find_update, Hf by done. cbn. rewrite Z.eqb_refl. done.
Qed.

Lemma run_paints b s o :
  can_paint b -> inv s -> isActive s = true -> find_output b s = Some o ->
  swap_pending o = false -> Region.isEmpty (repaints_region o) = false ->
  exists s', run_output W b s = Some s' /\ paint b (repaints_region o) ∈ requests s'.
Proof.
  intros [He Hrate Hsw Hen] Hs Ha Ho Hp Hr. unfold run_output.
  destruct (prepare_paints b s o) as (s1 & o1 & -> & H1 & Hb1 & H2); [done..|]. cbn [mbind option_bind].
  destruct (output_paint_total b (paint_events W) (ask (paint b (repaints_region o)) s1) o1) as (s2 & o2 & -> & H3 & H4);
    [done|rewrite H2; lia|]. cbn [mbind option_bind].
  apply found in H3 as Hb2. destruct Hb2 as [_ Hb2].
  set (o2' := o2 <| pace := update_paint_periods (paint_duration W) (pace o2) |>).
  destruct (retard_total o2') as [o3 H5]; [change (base o2') with (base o2); rewrite Hb2; lia|].
  match goal with |- context [try_output b ?f s2] =>
    destruct (try_output_some b f s2 o2 o3 H3 H5) as (s3 & -> & _ & H6); [by apply base_retard in H5|] end.
  cbn [mbind option_bind].
  assert (paint b (repaints_region o) ∈ requests s3) as H7 by (rewrite H6, H4; cbn; set_solver).
  destruct (painted W) as [|w ws]; [by exists s3|].
  destruct Hen as [?|Hen]; [done|]. destruct (lock_total b (w :: ws) s3 Hen) as (s' & H8 & H9). exists s'. auto.
Qed.

(** The swap of an output's frame is told by the hardware. *)
Lemma swap_completes b sec usec s o :
  0 < WaylandRender.refreshRate W b -> 0 <= sec -> 0 <= usec < 1000000 -> find_output b s = Some o -> swap_pending o = true ->
  exists s' o', swapped_hw W b sec usec s = Some s' /\ find_output b s' = Some o' /\
    swap_pending o' = false /\ repaints_region o' = repaints_region o /\ delay_timer o' <> None.
Proof.
  intros Hr Hs Hu Ho Hp. unfold swapped_hw. rewrite Ho. cbn [mbind option_bind].
  assert (exists s1 o1, presented W b sec usec (Z.lor (Z.lor Vsync HwClock) HwCompletion) s = Some s1 /\
    find_output b s1 = Some o1 /\ base o1 = b /\ swap_pending o1 = true /\ repaints_region o1 = repaints_region o) as
    (s1 & o1 & -> & H1 & Hb & H2 & H3).
  { apply found in Ho as Hb. destruct Hb as [_ Hb]. unfold presented. case_match; [by exists s, o|].
    unfold timespecToProto. rewrite (u32_small (usec * 1000)) by lia. unfold NSEC_PER_SEC.
    destruct (Z.ltb_spec sec 0), (Z.ltb_spec (usec * 1000) 0), (Z.leb_spec 1000000000 (usec * 1000)); try lia. cbn [orb mbind option_bind].
    destruct (Z.ltb_spec 0 (WaylandRender.refreshRate W b)); [|lia]. cbn [negb]. rewrite Ho. cbn [mbind option_bind].
    rewrite feedback_fold. eexists _, _. split; [done|]. rewrite find_update by done.
    change (find_output b (s <| requests := _ |>)) with (find_output b s). rewrite Ho. cbn. rewrite Z.eqb_refl. done. }
  cbn [mbind option_bind].
  assert (exists o', swapped W o1 = Some o' /\ swap_pending o' = false /\ repaints_region o' = repaints_region o1 /\
    delay_timer o' <> None) as (o' & H4 & H5 & H6 & H7).
  { unfold swapped, refresh_length. rewrite H2, Hb. cbn [negb].
    destruct (Z.eqb_spec (WaylandRender.refreshRate W b) 0); [lia|]. cbn. eexists. done. }
  destruct (try_output_some b (swapped W) s1 o1 o' H1 H4) as (s' & H8 & H9 & _); [by apply base_swapped in H4|].
  exists s', o'. split_and!; try done. congruence.
Qed.
End Steps.

Lemma inv_initial W fb : inv (initial W fb).
Proof.
  unfold initial. cbn. assert (forall l acc, StronglySorted Z.lt (map base acc) -> Forall live acc ->
    let r := foldl (fun l b => emplace base (new_output W b) l) acc l in
    StronglySorted Z.lt (map base r) /\ Forall live r) as Hl.
  { induction l as [|b l IH]; intros acc H1 H2; [done|]. cbn [foldl]. apply IH; [by apply emplace_sorted|].
    apply Forall_forall. intros z [->|Hz]%emplace_in; [done|]. rewrite Forall_forall in H2. by apply H2. }
  apply Hl; [constructor|done].
Qed.

Lemma inv_runs l s s' :
  Forall (fun x => outputsEnabled (fst x) = true /\ snd x <> EvWorkspaceDestroyed) l ->
  WaylandRender.run l s = Some s' -> inv s -> inv s'.
Proof.
  revert s. induction l as [|[W e] l IH]; intros s Hl; cbn; [by intros [= <-]|]. inversion_clear Hl as [|? ? [Ho He] Hl'].
  destruct (step W e s) as [s1|] eqn:Hst; [|done]. cbn. intros Hr Hs. eapply IH; [done..|]. by eapply inv_step.
Qed.

(** ** Who is told of a presentation *)

(** No request tells a client that a surface was presented. *)
Definition is_feedback (r : Request) : bool := match r with presentationFeedback _ _ _ _ _ _ _ _ _ => true | _ => false end.
Definition silent (s : State) : Prop := m_surfaces s = [] /\ existsb is_feedback (requests s) = false.
Definition is_hardware (e : Event) : bool := match e with EvSwappedHw _ _ _ => true | _ => false end.

Lemma silent_ask r s : is_feedback r = false -> silent s -> silent (ask r s).
Proof. intros Hr [H1 H2]. split; [done|]. cbn. by rewrite existsb_app, H2; cbn; rewrite Hr. Qed.

Lemma silent_same s s' : m_surfaces s' = m_surfaces s -> requests s' = requests s -> silent s -> silent s'.
Proof. unfold silent. by intros -> ->. Qed.

Lemma silent_try b f s s' : try_output b f s = Some s' -> silent s -> silent s'.
Proof.
  unfold try_output. destruct (find_output b s) as [o|]; [|done]. cbn. destruct (f o); [|done]. cbn. by intros [= <-].
Qed.

Lemma silent_share W b ws s : silent s -> silent (foldl (share_repaints W b) s ws).
Proof.
  revert s. induction ws as [|w ws IH]; intros s Hs; [done|]. cbn [foldl]. apply IH. unfold share_repaints. by case_match.
Qed.

Lemma silent_prepare W b s s' r : prepare_run W b s = Some (s', r) -> silent s -> silent s'.
Proof.
  unfold prepare_run. cbv zeta. set (s0 := update_output b _ s). intros Hp Hs. assert (silent s0) as H0 by done.
  destruct (find_output b s0) as [o|]; [|done]. cbn [mbind option_bind] in Hp.
  apply (silent_share W b (windows W)) in H0 as H1. case_match; [by injection Hp as <- _|].
  case_match; [by injection Hp as <- _|]. case_match; [done|]. case_match; injection Hp as <- _; [|done].
  unfold check_idle. case_match; [|done]. by apply (silent_ask idleScene).
Qed.

Lemma silent_lock W b w s s' : lock_one W b w s = Some s' -> silent s -> silent s'.
Proof.
  unfold lock_one, lock_window. cbn [mbind option_bind]. intros Hl Hs.
  destruct (surface w) as [sf|]; [|by injection Hl as <-].
  destruct (head (enabledOutputs W)) as [first|]; [|done]. cbn [mbind option_bind] in Hl.
  case_match; [by injection Hl as <-|]. apply (silent_ask (frameRendered sf (currentTime W))) in Hs; [|done].
  case_match; by injection Hl as <-.
Qed.

Lemma silent_paint W b e s s' : paint_one W b e s = Some s' -> silent s -> silent s'.
Proof.
  destruct e; cbn [paint_one paint_event mbind option_bind]; [|apply silent_try].
  intros [= <-] Hs. unfold addRepaint. by case_match.
Qed.

Lemma silent_run W b s s' : run_output W b s = Some s' -> silent s -> silent s'.
Proof.
  unfold run_output. intros Hr Hs. destruct (prepare_run W b s) as [[s1 [r|]]|] eqn:Hp; [..|done];
    cbn [mbind option_bind] in Hr; apply silent_prepare in Hp; try done; [|by injection Hr as <-].
  destruct (foldl _ _ _) as [s2|] eqn:Hf; [|done]. rewrite paint_events_fold in Hf.
  apply (fold_keeps silent) in Hf; [|intros ? ? ?; apply silent_paint|by apply silent_ask]. cbn [mbind option_bind] in Hr.
  destruct (try_output b _ s2) as [s3|] eqn:Ht; [|done]. cbn [mbind option_bind] in Hr.
  apply silent_try in Ht; [|done]. destruct (painted W) as [|w ws]; [by injection Hr as <-|].
  unfold lock in Hr. rewrite lock_fold in Hr. apply (fold_keeps silent) in Hr; [done| |done]. intros ? ? ?. apply silent_lock.
Qed.

Lemma silent_step W e s s' : is_hardware e = false -> step W e s = Some s' -> silent s -> silent s'.
Proof.
  intros He Hst Hs. destruct e; cbn [step is_hardware] in *; try done; try (by injection Hst as <-).
  - case_match; [by eapply silent_run|by injection Hst as <-].
  - unfold swapped_sw in Hst. destruct (find_output b s); [|done]. cbn [mbind option_bind] in Hst.
    destruct (softwarePresented W Vsync s) as [s1|] eqn:Hp; [|done]. cbn [mbind option_bind] in Hst.
    apply softwarePresented_outputs in Hp as (_ & H1 & H2). eapply silent_try; [done|].
    destruct Hs as [H3 H4]. split; [done|]. by rewrite H2.
  - injection Hst as <-. unfold addRepaint. by case_match.
  - injection Hst as <-. unfold schedule_repaint. by repeat case_match.
  - unfold started, WaylandRender.performCompositing in Hst. eapply (fold_keeps silent) in Hst; [done| |].
    + intros b t t'. apply silent_run.
    + done.
Qed.

Lemma silent_runs l s s' :
  Forall (fun x => is_hardware (snd x) = false) l -> WaylandRender.run l s = Some s' -> silent s -> silent s'.
Proof.
  revert s. induction l as [|[W e] l IH]; intros s Hl; cbn; [by intros [= <-]|]. inversion_clear Hl as [|? ? He Hl'].
  destruct (step W e s) as [s1|] eqn:Hst; [|done]. cbn. intros Hr Hs. eapply IH; [done..|]. by eapply silent_step.
Qed.

(** *** The output of a window *)

Lemma area_max W w l m :
  let r := foldl (fun m b => if fst m <? area W w b then (area W w b, b) else m) m l in
  fst m <= fst r /\ Forall (fun b => area W w b <= fst r) l /\ (r = m \/ snd r ∈ l /\ fst r = area W w (snd r)).
Proof.
  revert m. induction l as [|b l IH]; intros m; cbn [foldl]; [split; [lia|]; split; [done|by left]|].
  destruct (IH (if fst m <? area W w b then (area W w b, b) else m)) as (H1 & H2 & H3).
  destruct (Z.ltb_spec (fst m) (area W w b)); cbn [fst snd] in *; split; try lia; (split; [constructor; [lia|done]|]).
  - right. destruct H3 as [->|[? ?]]; cbn; set_solver.
  - destruct H3 as [?|[? ?]]; [by left|right; set_solver].
Qed.

Lemma max_out_spec W w first l :
  enabledOutputs W = first :: l ->
  max_out W w first ∈ enabledOutputs W /\
  (forall b, b ∈ enabledOutputs W -> 0 < area W w b -> area W w b <= area W w (max_out W w first)).
Proof.
  intros He. unfold max_out. destruct (area_max W w (enabledOutputs W) (0, first)) as (H1 & H2 & H3).
  rewrite Forall_forall in H2. destruct H3 as [H3|[H3 H4]]; cbn [fst snd] in *.
  - rewrite H3 in *. cbn [fst snd] in *. split; [rewrite He; set_solver|]. intros b Hb Hp. specialize (H2 b Hb). lia.
  - split; [done|]. intros b Hb _. rewrite <- H4. by apply H2.
Qed.

Lemma emplace_new {A} (key : A -> Z) x l : key x ∉ map key l -> x ∈ emplace key x l.
Proof.
  induction l as [|y l IH]; cbn; [set_solver|]. intros Hx. case_match; [set_solver|].
  destruct (Z.eqb_spec (key x) (key y)); set_solver.
Qed.

(** What a client is told of the surface [x] (with its identifier) when the output [b]
    has shown a frame at that time. *)
Definition told (W : World) (b sec usec : Z) (x : Z * Z) : Request :=
  presentationFeedback (snd x) (fst x) (Z.shiftr sec 32) (Z.land sec 0xffffffff) (usec * 1000)
    (refresh_ns (WaylandRender.refreshRate W b)) (Z.shiftr (base_msc W b) 32) (Z.land (base_msc W b) 0xffffffff) 7.

Lemma presented_tells W b sec usec s o :
  isEnabled W b = true -> 0 < WaylandRender.refreshRate W b -> 0 <= sec -> 0 <= usec < 1000000 -> find_output b s = Some o ->
  exists s' o', presented W b sec usec 7 s = Some s' /\ find_output b s' = Some o' /\ base o' = base o /\
    swap_pending o' = swap_pending o /\ assigned_surfaces o' = [] /\
    requests s' = requests s ++ map (told W b sec usec) (assigned_surfaces o).
Proof.
  intros He Hr Hs Hu Ho. unfold presented. rewrite He. cbn [negb]. unfold timespecToProto, NSEC_PER_SEC.
  rewrite (u32_small (usec * 1000)) by lia.
  destruct (Z.ltb_spec sec 0), (Z.ltb_spec (usec * 1000) 0), (Z.leb_spec 1000000000 (usec * 1000)); try lia.
  cbn [orb mbind option_bind]. destruct (Z.ltb_spec 0 (WaylandRender.refreshRate W b)); [|lia]. cbn [negb].
  rewrite Ho. cbn [mbind option_bind]. rewrite feedback_fold. eexists _, _. split; [done|].
  rewrite find_update by done. change (find_output b (s <| requests := _ |>)) with (find_output b s). rewrite Ho. cbn.
  rewrite Z.eqb_refl. done.
Qed.

Lemma find_put b c o s : base o = b ->
  find_output c (update_output b (fun _ => o) s) = (fun z => if c =? b then o else z) <$> find_output c s.
Proof.
  intros Hb. unfold find_output, update_output. cbn. induction (outputs s) as [|z l IH]; [done|]. cbn.
  unfold at_base in IH |- *. cbn. assert (base (if base z =? b then o else z) = base z) as ->.
  { destruct (Z.eqb_spec (base z) b); congruence. }
  destruct (Z.eqb_spec (base z) c) as [<-|]; [|done]. done.
Qed.

Lemma assigned_swapped W o o' : swapped W o = Some o' -> assigned_surfaces o' = assigned_surfaces o.
Proof.
  unfold swapped, refresh_length, set_delay_timer. destruct (swap_pending o); cbn [negb]; [|by intros [= <-]].
  destruct (WaylandRender.refreshRate W (base o) =? 0); [done|]. cbn. intros [= <-]. done.
Qed.

(** ** The properties *)

(** C9: on Wayland every output keeps its own region to repaint, and while the outputs
    are enabled none of it is forgotten, whatever outputs come and go, frames are
    swapped and windows and effects ask for repaints: if an output has a region to
    repaint and awaits no swap, its timer runs and when it fires that very region is
    painted on that output; if it awaits a swap, then when the hardware tells of the
    swap the timer runs, with the region still there. *)
Theorem wayland_no_repaint_lost W0 fallback l s o W sec usec :
  WaylandRender.run l (initial W0 fallback) = Some s ->
  Forall (fun x => outputsEnabled (fst x) = true /\ snd x <> EvWorkspaceDestroyed) l ->
  o ∈ outputs s -> Region.isEmpty (repaints_region o) = false ->
  isActive s = true -> can_paint W (base o) -> 0 <= sec -> 0 <= usec < 1000000 ->
  (swap_pending o = false ->
   exists s', WaylandRender.step W (EvTimer (base o)) s = Some s' /\ paint (base o) (repaints_region o) ∈ requests s') /\
  (swap_pending o = true ->
   exists s' o', WaylandRender.step W (EvSwappedHw (base o) sec usec) s = Some s' /\ find_output (base o) s' = Some o' /\
     swap_pending o' = false /\ repaints_region o' = repaints_region o /\ delay_timer o' <> None).
Proof.
  intros Hr Hl Ho Hre Ha Hc Hsec Husec. pose proof (inv_runs _ _ _ Hl Hr (inv_initial W0 fallback)) as Hs.
  pose proof (sorted_find _ _ (proj1 Hs) Ho) as Hf. split; intros Hp; cbn [WaylandRender.step].
  - destruct Hs as [Hsort Hlive]. pose proof Hlive as Hlo. rewrite Forall_forall in Hlo. specialize (Hlo o Ho Hre).
    rewrite Hf. cbn [mbind option_bind]. destruct (delay_timer o) eqn:Ht; [|destruct Hlo; congruence].
    by apply run_paints.
  - by apply swap_completes; [apply Hc|..].
Qed.

(** C35: without a clock of the hardware no client is ever told that its surface was
    shown: the surfaces of a painted frame are kept with their output, while the
    presentation by software goes through a list that nothing is put into; neither
    is a surface ever taken from the outputs, which keep all of them. *)
Theorem software_presentation_silent W0 fallback l s :
  WaylandRender.run l (initial W0 fallback) = Some s ->
  Forall (fun x => is_hardware (snd x) = false) l ->
  existsb is_feedback (requests s) = false /\
  forall W b s', WaylandRender.step W (EvSwappedSw b) s = Some s' ->
    forall c, assigned_surfaces <$> find_output c s' = assigned_surfaces <$> find_output c s.
Proof.
  intros Hr Hl. apply silent_runs in Hr as [H1 H2]; [|done..]. split; [done|].
  intros W b s' Hst c. cbn in Hst. unfold swapped_sw in Hst. destruct (find_output b s) as [o|]; [|done]. cbn [mbind option_bind] in Hst.
  destruct (softwarePresented W Vsync s) as [s1|] eqn:Hp; [|done]. cbn [mbind option_bind] in Hst.
  apply softwarePresented_outputs in Hp as [Hp _]. unfold try_output in Hst.
  destruct (find_output b s1) as [o1|] eqn:Ho1; [|done]. cbn [mbind option_bind] in Hst.
  destruct (swapped W o1) as [o2|] eqn:Hsw; [|done]. cbn [mbind option_bind] in Hst. injection Hst as <-.
  apply found in Ho1 as Hb. destruct Hb as [_ Hb]. pose proof (base_swapped _ _ _ Hsw).
  rewrite find_put by congruence. unfold find_output in Ho1 |- *. rewrite <- Hp.
  destruct (Z.eqb_spec c b) as [->|]; [|destruct (List.find (at_base c) (outputs s1)); reflexivity].
  rewrite Ho1. cbn. f_equal. by apply (assigned_swapped W).
Qed.

(** C19: a frame of a window is rendered for, and presented on, one enabled output only,
    and no enabled output shows more of the window: locking the window for any other
    output changes nothing, for this one it tells the client of the frame and, when the
    client asked for feedback under a new identifier, keeps the surface. When the
    hardware then tells of the swap, every surface kept is told of it once, in order,
    and none is kept any more. *)
Theorem presented_on_one_output W s w sf first l :
  surface w = Some sf -> enabledOutputs W = first :: l ->
  exists m, m ∈ enabledOutputs W /\ (forall b, b ∈ enabledOutputs W -> 0 < area W w b -> area W w b <= area W w m) /\
    (forall b, b <> m -> lock W b [w] s = Some s) /\
    (forall o, find_output m s = Some o -> lockPresentation W sf m ∉ map fst (assigned_surfaces o) ->
     exists s' o', lock W m [w] s = Some s' /\ find_output m s' = Some o' /\
       requests s' = requests s ++ [frameRendered sf (currentTime W)] /\
       (lockPresentation W sf m <> 0 -> (lockPresentation W sf m, sf) ∈ assigned_surfaces o') /\
       forall sec usec, isEnabled W m = true -> 0 < WaylandRender.refreshRate W m -> 0 <= sec -> 0 <= usec < 1000000 ->
       exists t o2, presented W m sec usec (Z.lor (Z.lor Vsync HwClock) HwCompletion) s' = Some t /\
         find_output m t = Some o2 /\ assigned_surfaces o2 = [] /\
         requests t = requests s' ++ map (told W m sec usec) (assigned_surfaces o')).
Proof.
  intros Hsf He. destruct (max_out_spec W w first l He) as [Hm Hmax]. exists (max_out W w first). split; [done|].
  split; [done|]. unfold lock. cbn [foldl]. unfold lock_window. rewrite Hsf, He. cbn [mbind option_bind head]. split.
  - intros b Hb. destruct (Z.eqb_spec (max_out W w first) b); [congruence|done].
  - intros o Ho Hn. rewrite Z.eqb_refl. cbn [negb].
    assert (forall s' o', find_output (max_out W w first) s' = Some o' ->
      forall sec usec, isEnabled W (max_out W w first) = true -> 0 < WaylandRender.refreshRate W (max_out W w first) ->
      0 <= sec -> 0 <= usec < 1000000 ->
      exists t o2, presented W (max_out W w first) sec usec (Z.lor (Z.lor Vsync HwClock) HwCompletion) s' = Some t /\
        find_output (max_out W w first) t = Some o2 /\ assigned_surfaces o2 = [] /\
        requests t = requests s' ++ map (told W (max_out W w first) sec usec) (assigned_surfaces o')) as Hpres.
    { intros s' o' Ho' sec usec H1 H2 H3 H4. destruct (presented_tells W _ sec usec s' o' H1 H2 H3 H4 Ho') as (t & o2 & ?).
      exists t, o2. naive_solver. }
    destruct (Z.eqb_spec (lockPresentation W sf (max_out W w first)) 0) as [Hz|Hz].
    + eexists _, o. split; [done|]. split; [done|]. split; [done|]. split; [done|]. by apply Hpres.
    + set (f := fun o : Output =>
        o <| assigned_surfaces := emplace fst (lockPresentation W sf (max_out W w first), sf) (assigned_surfaces o) |>
          <| connections := connections o ++ [(sf, lockPresentation W sf (max_out W w first))] |>).
      assert (keeps_base f) as Hk by done.
      pose proof (find_update (max_out W w first) (max_out W w first) f (ask (frameRendered sf (currentTime W)) s) Hk) as Hf.
      change (find_output (max_out W w first) (ask _ s)) with (find_output (max_out W w first) s) in Hf.
      rewrite Z.eqb_refl, Ho in Hf. eexists _, _. split; [done|]. split; [exact Hf|].
      split; [done|]. split; [intros _; by apply emplace_new|]. by apply Hpres.
Qed.

(** ** Witnesses *)

(** Two outputs side by side, the right one with 144 Hz, and a window that is on both. *)
Definition wide_window : Window := mkWindow (Some 7) (mkRect 1800 100 400 300) [].
Definition desk (events : list Compositor.PaintEvent) : World :=
  mkWorld (fun b => if b =? 1 then mkRect 0 0 1920 1080 else mkRect 1920 0 1920 1080)
    (fun b => if b =? 1 then 60000 else 144000) (fun _ => true) (fun _ => 5) true [1; 2] [wide_window] [wide_window] true
    4000000 events (mkSize 3840 1080) 1000 (fun _ _ => 3) 5000000000 0.
Definition swapping : World := desk [Compositor.PaintSwap].

Definition desk_session : list (World * Event) :=
  [(swapping, EvStarted); (swapping, EvSwappedSw 1); (swapping, EvRepaint [mkRect 1900 0 40 40])].
Definition reached (l : list (World * Event)) : State :=
  default (initial swapping true) (WaylandRender.run l (initial swapping true)).
Definition output_of (b : Z) (s : State) : Output := default (new_output swapping b) (find_output b s).

Lemma wayland_no_repaint_lost_witness :
  repaints_region (output_of 1 (reached desk_session)) = [mkRect 1900 0 20 40] /\
  swap_pending (output_of 1 (reached desk_session)) = false /\
  ((swap_pending (output_of 1 (reached desk_session)) = false ->
    exists s', WaylandRender.step swapping (EvTimer 1) (reached desk_session) = Some s' /\
      paint 1 (repaints_region (output_of 1 (reached desk_session))) ∈ requests s') /\
   (swap_pending (output_of 1 (reached desk_session)) = true ->
    exists s' o', WaylandRender.step swapping (EvSwappedHw 1 12 500) (reached desk_session) = Some s' /\
      find_output 1 s' = Some o' /\ swap_pending o' = false /\
      repaints_region o' = repaints_region (output_of 1 (reached desk_session)) /\ delay_timer o' <> None)).
Proof.
  split; [by vm_compute|]. split; [by vm_compute|].
  apply (wayland_no_repaint_lost swapping true desk_session _ (output_of 1 (reached desk_session)) swapping 12 500);
    [by vm_compute|by repeat constructor|by vm_compute; left|by vm_compute..| |lia|lia].
  split; [done|by vm_compute|by vm_compute; lia|by right].
Defined.

Lemma software_presentation_silent_witness :
  assigned_surfaces (output_of 2 (reached desk_session)) = [(3, 7)] /\
  (existsb is_feedback (requests (reached desk_session)) = false /\
   forall W b s', WaylandRender.step W (EvSwappedSw b) (reached desk_session) = Some s' ->
     forall c, assigned_surfaces <$> find_output c s' = assigned_surfaces <$> find_output c (reached desk_session)).
Proof.
  split; [by vm_compute|].
  apply (software_presentation_silent swapping true desk_session); [by vm_compute|by repeat constructor].
Defined.

Lemma presented_on_one_output_witness :
  max_out swapping wide_window 1 = 2 /\
  exists m, m ∈ [1; 2] /\ (forall b, b ∈ [1; 2] -> 0 < area swapping wide_window b -> area swapping wide_window b <= area swapping wide_window m) /\
    (forall b, b <> m -> lock swapping b [wide_window] (initial swapping true) = Some (initial swapping true)) /\
    (forall o, find_output m (initial swapping true) = Some o -> lockPresentation swapping 7 m ∉ map fst (assigned_surfaces o) ->
     exists s' o', lock swapping m [wide_window] (initial swapping true) = Some s' /\ find_output m s' = Some o' /\
       requests s' = requests (initial swapping true) ++ [frameRendered 7 (currentTime swapping)] /\
       (lockPresentation swapping 7 m <> 0 -> (lockPresentation swapping 7 m, 7) ∈ assigned_surfaces o') /\
       forall sec usec, isEnabled swapping m = true -> 0 < WaylandRender.refreshRate swapping m -> 0 <= sec -> 0 <= usec < 1000000 ->
       exists t o2, presented swapping m sec usec (Z.lor (Z.lor Vsync HwClock) HwCompletion) s' = Some t /\
         find_output m t = Some o2 /\ assigned_surfaces o2 = [] /\
         requests t = requests s' ++ map (told swapping m sec usec) (assigned_surfaces o')).
Proof. split; [by vm_compute|]. apply (presented_on_one_output swapping (initial swapping true) wide_window 7 1 [2]); done. Defined.

(** ** Boundary cases *)

(** The refresh cycle of 60 Hz that clients are told: 16.67 milliseconds. *)
Example refresh_told : refresh_ns 60000 = 16666666.
Proof. by vm_compute. Qed.

(** Without a fallback clock the swap told by software uses a null pointer. *)
Example no_fallback_clock : WaylandRender.step swapping (EvSwappedSw 1) (initial swapping false) = None.
Proof. by vm_compute. Qed.

(** Stopping leaves the timer of an output running, and its run uses the effects. *)
Example stopped_timer_runs :
  WaylandRender.run [(desk [], EvStarted); (desk [], EvSwappedSw 1); (desk [], EvRepaint [mkRect 0 0 9 9]); (desk [], EvStopped);
    (desk [], EvTimer 1)] (initial swapping true) = None.
Proof. by vm_compute. Qed.

(** Two surfaces that are given the same identifier: the second is lost. *)
Example same_identifier :
  emplace fst (3, 8) (emplace fst (3, 7) []) = [(3, 7)].
Proof. done. Qed.
End WaylandRenderProps.
